(* ===== verification/_CoqProject ===== *)
-Q . S2P
Prelude.v
UtilityMacro.v
Arm64Const.v
Arm64Kit.v
CodeBuffer.v
Assembler.v
AssemblerArm64.v
LiteralPool.v
Arm64Isa.v
Arm64Emit.v
Arm64Run.v
TrampolineArm64.v
Platform.v
MemAlloc.v
RelocArm64.v
RelocSpec.v
RelocSim.v
Interceptor.v
HookSpec.v
HookClaims.v
DobbyClaims.v
Leb128.v
X86Tables.v
X86Insn.v
X86Spec.v
X86Sdm.v
X86Claims.v
HashTable.v
SlicerBuffer.v
SlicerClaims.v
DexBytecode.v
DexIsa.v
DexCode.v
DexCodeSpec.v
DexClaims.v
DexValue.v
DexValueSpec.v
DexDebug.v
DexDebugSpec.v
DexTry.v
DexOrder.v
DexIr.v
DexIrSpec.v
DexTopSort.v
DexNormalize.v
DexIrClaims.v
ZygiskModule.v
ZygiskClaims.v
Glue.v
GlueClaims.v
ArtMethod.v
LsTrampoline.v
LsPool.v
LsCommon.v
LsHook.v
LsClassLinker.v
LsDebug.v
LsClaims.v
DexBuilder.v
MethodBuilder.v
DexBuilderSpec.v
DalvikSem.v
MethodBuilderSpec.v
BuildDex.v
HookFileSpec.v
HookStubSpec.v
BuilderIrSpec.v
Sha1.v
DexWriter.v
DexReader.v
DexReaderSpec.v
DexWriterSpec.v
DexImage.v
DexImageSpec.v
DexDecode.v
DexReadBack.v
BuildDexClaims.v
DexImageClaims.v
