(* ===== verification/Prelude.v ===== *)
(** * A model of the hooking engine and of its support libraries

    The repository builds an Android Zygisk module. The module proper
    ([src/zygisk]) stages files and starts a payload in its target processes. Its
    native library ([src/native/glue.cpp]) resolves ART's symbols and offers Java
    the method hooks of LSPlant ([src/native/lsplant_jni]), which stands on the
    Dobby inline-hooking library ([src/native/dobby]) and on a dex builder, with
    which it generates a class for each hook. This development models the module,
    the glue, LSPlant's hooks, Dobby's ARM64 Android path from [DobbyHook] down to
    the bytes it patches, the x86 instruction decoder Dobby relocates with on x86,
    and of the dex library its containers and codings, the Dalvik bytecode, the
    rewriting of code items, the normalisation of its IR, and the builder with the
    class that LSPlant generates.

    ** How the parts work together

    [DobbyHook] (Interceptor.v) registers an address, generates a trampoline from
    it to the replacement (TrampolineArm64.v, an assembler client), relocates the
    instructions the trampoline will overwrite into executable memory
    (RelocArm64.v, a client of the assembler and of the allocator), and patches
    the trampoline in (Platform.v). [DobbyDestroy] patches the saved bytes back.

    LSPlant hooks a Java method by giving its ArtMethod object the entry point of a
    trampoline, after copying the object into a backup (LsHook.v over ArtMethod.v
    and LsTrampoline.v). Its records of hooks (LsCommon.v) are read by the
    replacements of ART's functions (LsClassLinker.v), which Dobby puts in place
    through the glue's hooker and resolver (Glue.v). The hook method is of a class
    that [BuildDex] generates (BuildDex.v) with the dex builder (DexBuilder.v and
    MethodBuilder.v), whose file is the IR that the writer normalises (DexIr.v).

    The dex library reads an image into an IR of nodes, and writes the IR to a new
    image in which the nodes have new indexes. [Normalize] (DexIr.v) gives them
    out. Every index inside a code item, an encoded value or a debug info item has
    to be visited by the reader and renumbered by the writer; the Dex files model
    that.

    ** Files, and the code they model ([source/] is [src/native/dobby/source])

    - Prelude: words of a given width, bytes, lists, tactics ([decode_word],
      [fields], [bitwise]) and the rewrite base [zbit] of bit operations.
    - UtilityMacro: [source/include/utility_macro.h]. Arm64Const: constants and
      registers of [source/core/arch/arm64]. Arm64Kit: the immediate field codecs
      of [inst_decode_encode_kit.h].
    - CodeBuffer: [MemoryAllocator/CodeBuffer]. Assembler: pseudo labels and
      [AssemblerBase]; labels live on a heap, operations in the state monad
      [asmM], and a stray access or a loop out of fuel is [None]. AssemblerArm64:
      [assembler-arm64.h] and [codegen-arm64.cc]; each emitting operation has a
      [_word] definition for the word it emits.
    - LiteralPool: specification of an emitted program as a list of words and
      literal loads, and the proof that [RelocBind] lays it out.
    - Arm64Isa: specification, independent of the code: decoding and execution of
      the instructions involved, over a state of registers, flags and memory; an
      instruction outside it is a parameter [other]. Arm64Emit and Arm64Run: the
      emitted words decode and run as meant.
    - TrampolineArm64: [trampoline_arm64.cc]. Platform: [platform-posix.cc] and
      [code-patch-tool-posix.cc] over a process with mappings, page protections
      and bytes; what [mmap] and [mprotect] answer is the class [Kernel], what
      they promise [KernelLaws], with the instance [bump_kernel].
    - MemAlloc: [MemoryAllocator.cc] and its header. RelocArm64:
      [InstructionRelocationARM64.cc] and [AssemblyCodeBuilder.cc]. RelocSpec:
      the program each instruction is relocated to. RelocSim: the relocated block
      simulates the original instructions.
    - Interceptor: [Interceptor.cpp], [InterceptEntry], [InterceptRouting.cpp],
      [FunctionInlineHook] and [DobbyDestroy]. The state is the record [engine]:
      the entries and the allocator with its process. HookSpec: what a hook
      leaves in memory.
    - X86Tables, X86Insn: [InstructionRelocation/x86/x86_insn_decode]. X86Spec:
      the decoder's reads. X86Sdm: lengths against the manual's opcode map.
    - Leb128, HashTable, SlicerBuffer: [dex_leb128.h], [hash_table.h],
      [buffer.h] and [index_map.h] of the dex builder's [slicer] library.
      The table's chains and partitions are in its second half.
    - DexBytecode: [dex_bytecode.cc] and the opcode table. DexIsa: the documented
      formats as diagrams, and the decoding they mean.
    - DexCode: [ParseInstructions] of [reader.cc] and [WriteInstructions] of
      [writer.cc]. DexCodeSpec: streams of whole instructions and their index
      slots.
    - DexValue, DexDebug, DexTry: encoded values, debug info and catch handlers in
      [reader.cc] and [writer.cc]. DexValueSpec, DexDebugSpec and the second half of
      DexTry: what their bytes mean, and that writing renumbers and nothing else.
    - DexOrder, DexIr: sorting, [dex_utf8.cc] and the nodes of [dex_ir.h] with the
      operations of [dex_ir.cc]. DexIrSpec, DexTopSort, DexNormalize: the
      orders, the class numbering and what [Normalize] establishes.
    - ZygiskModule: [zygisk/src/module.cpp] over files as a map of paths; the state
      is the record [GbModule]. Its second half: paths, the copy loop, staging.
    - Glue: [glue.cpp]; pointers into the mapped ELF file are offsets, the state is
      the record [resolver].
    - ArtMethod: [art_method.cxx] of LSPlant, methods as addresses in a byte memory,
      the class's static members as the record [art_globals]. LsCommon:
      [common.cxx], the record [registry]. LsTrampoline: trampolines and their pages
      in [lsplant.cc]. LsHook: [DoHook] to [UnHook] in [lsplant.cc]; the state is the
      record [lsplant], what JNI answers the class [JNI]. LsClassLinker: the
      replacements of ART functions in [art/]. The second
      halves of these: their effects on memory, and the registry as a map from hooked
      methods to backups.
    - LsPool, LsDebug: the loop of [GenerateTrampolineFor] and the guard of
      [runtime.cxx] for several threads, as step relations between atomic
      operations, with their invariants.
    - DexBuilder, MethodBuilder: [dex_builder.h] and [dex_builder.cc]; the state is
      the record [DexBuilder], with that of a method under construction
      [MethodBuilder], in the state monad [M], where a failed check is [None].
      BuildDex: [BuildDex] of [lsplant.cc], up to the image. DexBuilderSpec: the
      builder's invariant [builder_ok]. MethodBuilderSpec: the instructions that the
      encoded units decode to. BuilderIrSpec: the builder's file as input of
      [Normalize].
    - DalvikSem: specification, independent of the code: decoding, by the diagrams of
      DexIsa, and execution of the Dalvik instructions involved, with the methods
      that are called as a parameter. The second half of BuildDex, and HookFileSpec:
      the code and the class that [BuildDex] leaves. HookStubSpec: what that code does.
    - DexWriter: [writer.cc] and [writer.h], from [CreateImage] down to the items, in
      the same monad over the record [Image] of sections and tables. Sha1:
      [sha1.cpp], and FIPS 180-4. DexWriterSpec: the items of each kind of node, and
      what a section's loop leaves. DexImage: the sections one after the other, the
      map and the tables. DexImageSpec: the bytes of the image.
    - DexReader: [reader.cc] and [reader.h], in the same monad over the record
      [reading] of the IR, the index maps, the nodes made of offsets and the lookup
      tables, which are those of HashTable; a pointer is the list of the bytes from
      there on, and the hash of an address ([std::hash]) a parameter. DexReaderSpec:
      well-formed images, which are read to the end, and what then holds. DexDecode:
      the items that the writer writes, decoded. DexReadBack: the writer's image is
      well-formed and reads back.
    - HookClaims, DobbyClaims, X86Claims, SlicerClaims, DexClaims, DexIrClaims,
      ZygiskClaims, GlueClaims, LsClaims, BuildDexClaims, DexImageClaims: the
      properties, each with an instance at a concrete input.

    ** What the theorems show

    - Hooking: a hooked function runs the replacement; the returned original
      simulates the overwritten instructions up to x17, the patched bytes and the
      relocated block, for the instructions that [movable] (RelocSim) covers: not
      calls, literal loads other than 64-bit ones, or branches among them;
      destroying restores memory but for that block; error paths change nothing;
      addresses stay unique.
    - Its parts: trampolines land on their target; literals are bound; immediates
      load; relocation follows the architecture's decoding; patching changes the
      bytes it should; blocks are disjoint and executable.
    - The x86 decoder is total, stays in its buffer and computes the manual's
      length outside stated exceptions, each of which is shown to be one.
    - The codings are inverse on all 32-bit values; the hash table is a map when
      its checks run, which abort on a key that it has, and loses values when they do
      not; buffers append; the index map allocates the least index.
    - The Dalvik decoder follows the documented formats; instruction streams,
      encoded values, debug information and catch handlers are written with the
      new indexes and otherwise unchanged, and read back.
    - [Normalize] sorts and numbers every table, with UTF-16 order for strings and
      classes behind those they extend; it terminates on acyclic hierarchies.
    - A hooked Java method runs the hook method and unhooking restores it; the
      records of hooks are a map with its inverse; trampolines of several threads
      do not overlap; hooks survive class initialization; the runtime is debuggable
      exactly while it is asked to be.
    - The generated hook method boxes its arguments, calls the callback once and
      returns its result; the backup returns zero; the generated file has no
      duplicates and can be normalised, unless a target is named [backup].
    - A written image is its parts one behind the other, with a header, a map and
      checksums that say so, and holds every node of the file at the offset that
      those which refer to it have; the digest is SHA-1.
    - The reader reads an image to the end if what it refers to is there and, in a
      debug build, whose lookup tables assert it, no string, signature or member
      method is there twice; what it makes is what the image says; it makes the file
      again from what was written.
    - The module injects into its six processes, stages its files and starts the
      payload; symbols resolve to the first match, cached or not.
    - Where the code does something else than it means to, the theorem states what
      it does: the page wrap of [adrp], 32-bit literal loads, the page after a
      patch, data blocks in code arenas, the dropped re-insertions, the short
      LEB128 temporary, the x86 lengths, the references the dex writer leaves, the
      library that is not staged, stale files, imports resolved to the load bias,
      the trampoline count that failed allocations overflow, and the register of
      the last of 255 words of parameters.

    ** Conventions

    Integers are [Z] with wrap-around written out ([u8] .. [u64], [s32], [s64]).
    The build is the release one: [assert] and [DCHECK] are off and
    [UNREACHABLE()] logs and goes on; where the slicer's checks matter the build
    is a parameter. Loops that are not structural take fuel: one step per
    instruction in [relo_loop], sixteen for the x86 prefixes (the fifteen bytes of
    code are followed by others), five for LEB128, one more than the buckets for a
    hash chain, one step per unit for instruction streams, three per byte for
    encoded values, one per byte for the other items and the arrays that are read,
    one per unit for UTF-8 comparison, one per class for the depth of the class
    numbering, one per byte for the copy of a file, one per instruction for the
    execution of generated code, and sixty-four for the padding of SHA-1; theorems
    show that the fuel is enough.

    ** Not modelled

    Dobby's threads, logging, cache maintenance, the other backends and targets,
    the Java sources, the near-memory allocator and its trampolines, x86 relocation
    and instrumentation, and [dex_helper.cc], which the hooks do not use. Symbol and
    id lookups in [Init] functions are parameters, as is what ART's own functions
    do. *)
From stdpp Require Export base tactics numbers list list_numbers gmap.
From Stdlib Require Export ZArith Lia Btauto.

#[export] Set Default Goal Selector "!".
Open Scope Z_scope.

(** ** Machine words

    A [w]-bit unsigned integer is a [Z] in [0 .. 2^w); [trunc w] is the C
    conversion to it, [sext w] the conversion to the [w]-bit two's complement
    type. *)

Definition trunc (w x : Z) : Z := x mod 2 ^ w.
Definition sext (w x : Z) : Z := (x + 2 ^ (w - 1)) mod 2 ^ w - 2 ^ (w - 1).

Abbreviation u8 := (trunc 8).
Abbreviation u16 := (trunc 16).
Abbreviation u32 := (trunc 32).
Abbreviation u64 := (trunc 64).
Abbreviation s8 := (sext 8).
Abbreviation s16 := (sext 16).
Abbreviation s32 := (sext 32).
Abbreviation s64 := (sext 64).

(** [in_word w x]: [x] is a value of the [w]-bit unsigned type. *)
Definition in_word (w x : Z) : Prop := 0 <= x < 2 ^ w.

Lemma trunc_range w x : 0 <= w -> 0 <= trunc w x < 2 ^ w.
Proof. intros. unfold trunc. apply Z.mod_pos_bound. lia. Qed.

Lemma trunc_small w x : 0 <= x < 2 ^ w -> trunc w x = x.
Proof. apply Z.mod_small. Qed.

Lemma trunc_trunc w v x : 0 <= w <= v -> trunc w (trunc v x) = trunc w x.
Proof.
  intros. unfold trunc. apply Z.mod_mod_divide.
  exists (2 ^ (v - w)). rewrite <- Z.pow_add_r by lia. f_equal; lia.
Qed.

Lemma trunc_add_l w x y : trunc w (trunc w x + y) = trunc w (x + y).
Proof. apply Zplus_mod_idemp_l. Qed.

Lemma trunc_add_r w x y : trunc w (x + trunc w y) = trunc w (x + y).
Proof. apply Zplus_mod_idemp_r. Qed.

Lemma trunc_sub_l w x y : trunc w (trunc w x - y) = trunc w (x - y).
Proof. apply Zminus_mod_idemp_l. Qed.

Lemma trunc_sub_r w x y : trunc w (x - trunc w y) = trunc w (x - y).
Proof. apply Zminus_mod_idemp_r. Qed.

Lemma sext_range w x : 0 < w -> - 2 ^ (w - 1) <= sext w x < 2 ^ (w - 1).
Proof.
  intros. unfold sext.
  pose proof (Z.mod_pos_bound (x + 2 ^ (w - 1)) (2 ^ w) ltac:(lia)).
  assert (2 ^ w = 2 * 2 ^ (w - 1)).
  { rewrite <- Z.pow_succ_r by lia. f_equal; lia. }
  lia.
Qed.

Lemma sext_small w x : 0 < w -> - 2 ^ (w - 1) <= x < 2 ^ (w - 1) -> sext w x = x.
Proof.
  intros. unfold sext.
  assert (2 ^ w = 2 * 2 ^ (w - 1)).
  { rewrite <- Z.pow_succ_r by lia. f_equal; lia. }
  rewrite Z.mod_small; lia.
Qed.

Lemma trunc_sext w v x : 0 < w <= v -> trunc w (sext v x) = trunc w x.
Proof.
  intros. unfold sext.
  rewrite <- (trunc_trunc w v) by lia. unfold trunc at 2.
  rewrite Zminus_mod_idemp_l.
  replace (x + 2 ^ (v - 1) - 2 ^ (v - 1)) with x by lia.
  rewrite <- (trunc_trunc w v x) by lia. reflexivity.
Qed.

Lemma sext_trunc w v x : 0 < w <= v -> sext w (trunc v x) = sext w x.
Proof.
  intros. unfold sext. f_equal.
  change ((?a + ?b) mod 2 ^ w) with (trunc w (a + b)).
  rewrite <- (trunc_add_l w (trunc v x)), trunc_trunc by lia.
  apply trunc_add_l.
Qed.

Lemma sext_of_word w x :
  0 < w -> 0 <= x < 2 ^ w -> sext w x = if x <? 2 ^ (w - 1) then x else x - 2 ^ w.
Proof.
  intros. assert (E : 2 ^ w = 2 * 2 ^ (w - 1)).
  { rewrite <- Z.pow_succ_r by lia. f_equal; lia. }
  unfold sext. destruct (Z.ltb_spec x (2 ^ (w - 1))).
  - rewrite Z.mod_small; lia.
  - replace (x + 2 ^ (w - 1)) with ((x - 2 ^ (w - 1)) + 1 * 2 ^ w) by lia.
    rewrite Z.mod_add, Z.mod_small by lia. lia.
Qed.

(** ** Bits

    [testbit] characterisations of the operations the code uses, gathered in the
    rewrite base [zbit]; side conditions are linear. *)

Lemma testbit_trunc w x i :
  0 <= w -> 0 <= i -> Z.testbit (trunc w x) i = (i <? w) && Z.testbit x i.
Proof.
  intros. unfold trunc. destruct (Z.ltb_spec i w).
  - by rewrite Z.mod_pow2_bits_low by lia.
  - by rewrite Z.mod_pow2_bits_high by lia.
Qed.

Lemma testbit_word_high w x i : 0 <= x < 2 ^ w -> 0 <= w <= i -> Z.testbit x i = false.
Proof.
  intros. rewrite <- (trunc_small w x) by lia. rewrite testbit_trunc by lia.
  destruct (Z.ltb_spec i w); [lia|done].
Qed.

Lemma testbit_shiftl x k i :
  0 <= k -> 0 <= i -> Z.testbit (Z.shiftl x k) i = (k <=? i) && Z.testbit x (i - k).
Proof.
  intros. rewrite Z.shiftl_spec by lia. destruct (Z.leb_spec k i); [done|].
  by rewrite Z.testbit_neg_r by lia.
Qed.

Lemma testbit_ones n i :
  0 <= n -> 0 <= i -> Z.testbit (Z.ones n) i = (i <? n).
Proof.
  intros. destruct (Z.ltb_spec i n).
  - by rewrite Z.ones_spec_low by lia.
  - by rewrite Z.ones_spec_high by lia.
Qed.

Create Rewrite HintDb zbit.
#[export] Hint Rewrite Z.land_spec Z.lor_spec Z.lxor_spec Z.ldiff_spec Z.bits_0 : zbit.
#[export] Hint Rewrite testbit_trunc testbit_shiftl testbit_ones Z.shiftr_spec Z.lnot_spec
  using lia : zbit.

(** [bitwise] proves an equation between words bit by bit: each comparison of
    the bit index with a field boundary is split, and fields that lie outside
    their width vanish by [testbit_word_high]. *)
Ltac bit_split :=
  repeat match goal with
  | |- context [Z.ltb ?a ?b] => destruct (Z.ltb_spec a b); try lia
  | |- context [Z.leb ?a ?b] => destruct (Z.leb_spec a b); try lia
  end; rewrite ?andb_false_l, ?andb_true_l, ?orb_false_l, ?orb_false_r,
       ?andb_false_r, ?andb_true_r.

Ltac bit_high :=
  repeat match goal with
  | H : 0 <= ?x < 2 ^ ?w |- context [Z.testbit ?x ?i] =>
      rewrite (testbit_word_high w x i) by lia
  end; rewrite ?andb_false_l, ?andb_true_l, ?orb_false_l, ?orb_false_r,
       ?andb_false_r, ?andb_true_r.

Ltac bitwise :=
  apply Z.bits_inj'; intros ?i ?Hi; autorewrite with zbit; bit_split;
  autorewrite with zbit; bit_split; bit_high;
  try reflexivity;
  try (f_equal; lia);
  try (match goal with |- context [Z.testbit _ ?i] => by rewrite (Z.testbit_neg_r _ i) by lia end);
  try btauto.

Lemma lor_range w x y : 0 <= w -> 0 <= x < 2 ^ w -> 0 <= y < 2 ^ w -> 0 <= Z.lor x y < 2 ^ w.
Proof.
  intros Hw Hx Hy. assert (E : Z.lor x y = trunc w (Z.lor x y)).
  { apply Z.bits_inj'. intros i Hi. rewrite testbit_trunc by lia.
    destruct (Z.ltb_spec i w); [done|]. rewrite Z.lor_spec.
    by rewrite !(testbit_word_high w) by lia. }
  rewrite E. by apply trunc_range.
Qed.

Lemma shiftl_range w k x : 0 <= k <= w -> 0 <= x < 2 ^ (w - k) -> 0 <= Z.shiftl x k < 2 ^ w.
Proof.
  intros. rewrite Z.shiftl_mul_pow2 by lia.
  assert (2 ^ w = 2 ^ (w - k) * 2 ^ k) by (rewrite <- Z.pow_add_r by lia; f_equal; lia).
  nia.
Qed.

Lemma land_range w x y : 0 <= y < 2 ^ w -> 0 <= w -> 0 <= Z.land x y < 2 ^ w.
Proof.
  intros. assert (E : Z.land x y = trunc w (Z.land x y)).
  { apply Z.bits_inj'. intros i Hi. rewrite testbit_trunc by lia.
    destruct (Z.ltb_spec i w); [done|]. rewrite Z.land_spec.
    by rewrite (testbit_word_high w y), andb_false_r by lia. }
  rewrite E. by apply trunc_range.
Qed.

Lemma lor_add a b k : 0 <= k -> 0 <= a < 2 ^ k -> Z.lor a (Z.shiftl b k) = a + b * 2 ^ k.
Proof.
  intros. rewrite <- Z.shiftl_mul_pow2 by lia. symmetry. rewrite <- Z.lxor_lor.
  - apply Z.add_nocarry_lxor. bitwise.
  - bitwise.
Qed.

Lemma trunc_lor w x y : 0 <= w -> trunc w (Z.lor x y) = Z.lor (trunc w x) (trunc w y).
Proof. intros. bitwise. Qed.

Lemma land_ones_trunc w x : 0 <= w -> Z.land x (Z.ones w) = trunc w x.
Proof. intros. by apply Z.land_ones. Qed.

Lemma trunc_0 w : trunc w 0 = 0.
Proof. apply Zmod_0_l. Qed.

Lemma land_lnot_aligned k x : 0 <= k -> Z.land x (Z.lnot (2 ^ k - 1)) = x - x mod 2 ^ k.
Proof.
  intros. replace (2 ^ k - 1) with (Z.ones k) by (rewrite Z.ones_equiv; lia).
  rewrite <- Z.ldiff_land, Z.ldiff_ones_r, Z.shiftl_mul_pow2, Z.shiftr_div_pow2 by lia.
  pose proof (Z.div_mod x (2 ^ k) ltac:(lia)). lia.
Qed.

(** ** Little-endian byte strings

    A byte is a [Z] in [0 .. 256); an object of [n] bytes is stored least
    significant byte first, as on every target of the program. *)

Abbreviation byte := Z (only parsing).

Definition is_byte (b : byte) : Prop := 0 <= b < 2 ^ 8.

Fixpoint le_bytes (n : nat) (x : Z) : list byte :=
  match n with
  | O => []
  | S n => u8 x :: le_bytes n (Z.shiftr x 8)
  end.

Fixpoint le_val (bs : list byte) : Z :=
  match bs with
  | [] => 0
  | b :: bs => b + 256 * le_val bs
  end.

Lemma length_le_bytes n x : length (le_bytes n x) = n.
Proof. revert x. induction n; intros; simpl; auto. Qed.

Lemma le_bytes_Forall n x : Forall is_byte (le_bytes n x).
Proof.
  revert x. induction n; intros; simpl; constructor; auto.
  apply trunc_range. lia.
Qed.

Lemma le_val_bytes n x : le_val (le_bytes n x) = trunc (8 * Z.of_nat n) x.
Proof.
  revert x. induction n as [|n IH]; intros; simpl le_bytes; simpl le_val.
  - unfold trunc. change (8 * Z.of_nat 0) with 0. by rewrite Z.mod_1_r.
  - rewrite IH, Z.shiftr_div_pow2 by lia. unfold trunc.
    replace (8 * Z.of_nat (S n)) with (8 + 8 * Z.of_nat n) by lia.
    rewrite Z.pow_add_r, Z.rem_mul_r by lia. done.
Qed.

Lemma le_val_range bs : Forall is_byte bs -> 0 <= le_val bs < 2 ^ (8 * Z.of_nat (length bs)).
Proof.
  induction 1 as [|b bs Hb _ IH]; [simpl; lia|].
  cbn [le_val length].
  replace (8 * Z.of_nat (S (length bs))) with (8 + 8 * Z.of_nat (length bs)) by lia.
  rewrite Z.pow_add_r by lia. unfold is_byte in Hb. nia.
Qed.

Lemma le_bytes_val bs : Forall is_byte bs -> le_bytes (length bs) (le_val bs) = bs.
Proof.
  induction 1 as [|b bs Hb Hbs IH]; [done|]. cbn [le_val length le_bytes]. f_equal.
  - unfold trunc. replace (b + 256 * le_val bs) with (b + le_val bs * 2 ^ 8) by lia.
    rewrite Z.mod_add by lia. by apply Z.mod_small.
  - rewrite Z.shiftr_div_pow2 by lia.
    replace (b + 256 * le_val bs) with (b + le_val bs * 2 ^ 8) by lia.
    rewrite Z.div_add, Z.div_small by (unfold is_byte in Hb; lia).
    by rewrite Z.add_0_l.
Qed.

Lemma le_bytes_trunc n w x : 8 * Z.of_nat n <= w -> le_bytes n (trunc w x) = le_bytes n x.
Proof.
  revert w x. induction n as [|n IH]; intros w x ?; [done|]. cbn [le_bytes]. f_equal.
  - apply trunc_trunc. lia.
  - rewrite <- (IH (w - 8) (Z.shiftr x 8)) by lia. f_equal. bitwise.
Qed.

(** Reading and writing [n] bytes at offset [off] of a byte string. *)

Definition slice {A} (off n : nat) (l : list A) : list A := take n (drop off l).

Definition splice {A} (off : nat) (new l : list A) : list A :=
  take off l ++ new ++ drop (off + length new) l.

Lemma length_splice {A} off (new l : list A) :
  (off + length new <= length l)%nat -> length (splice off new l) = length l.
Proof. intros. unfold splice. rewrite !length_app, length_take, length_drop. lia. Qed.

Lemma slice_splice_same {A} off (new l : list A) :
  (off + length new <= length l)%nat -> slice off (length new) (splice off new l) = new.
Proof.
  intros. unfold slice, splice. rewrite drop_app_length' by (rewrite length_take; lia).
  by rewrite take_app_length.
Qed.

Lemma lookup_splice_out {A} off (new l : list A) i :
  (off + length new <= length l)%nat -> (i < off \/ off + length new <= i)%nat ->
  splice off new l !! i = l !! i.
Proof.
  intros Hl [Hi|Hi]; unfold splice.
  - rewrite lookup_app_l by (rewrite length_take; lia). by rewrite lookup_take_lt by lia.
  - rewrite lookup_app_r, length_take by (rewrite length_take; lia).
    rewrite lookup_app_r, lookup_drop by lia. f_equal. lia.
Qed.

Lemma slice_ext {A} off n (l l' : list A) :
  (forall i, off <= i < off + n -> l !! i = l' !! i)%nat -> slice off n l = slice off n l'.
Proof.
  intros H. unfold slice. apply list_eq. intros i.
  destruct (decide (i < n)%nat).
  - rewrite !lookup_take_lt, !lookup_drop by lia. apply H. lia.
  - by rewrite !lookup_take_ge by lia.
Qed.

Lemma slice_splice_other {A} off (new l : list A) o n :
  (off + length new <= length l)%nat -> (o + n <= off \/ off + length new <= o)%nat ->
  slice o n (splice off new l) = slice o n l.
Proof. intros. apply slice_ext. intros. apply lookup_splice_out; lia. Qed.

Lemma slice_app_l {A} off n (l k : list A) :
  (off + n <= length l)%nat -> slice off n (l ++ k) = slice off n l.
Proof. intros. apply slice_ext. intros. by rewrite lookup_app_l by lia. Qed.

Lemma slice_app_r {A} off n (l k : list A) :
  (length l <= off)%nat -> slice off n (l ++ k) = slice (off - length l) n k.
Proof. intros. unfold slice. by rewrite drop_app_ge by lia. Qed.

Lemma slice_all {A} (l : list A) n : n = length l -> slice 0 n l = l.
Proof. intros ->. unfold slice. by rewrite drop_0, firstn_all. Qed.

Lemma length_slice {A} off n (l : list A) :
  (off + n <= length l)%nat -> length (slice off n l) = n.
Proof. intros. unfold slice. rewrite length_take, length_drop. lia. Qed.

(** Reading one byte through a pointer and advancing it. *)
Definition head_tail {A} (l : list A) : option (A * list A) :=
  match l with x :: l => Some (x, l) | [] => None end.
