(* ===== verification/UtilityMacro.v ===== *)
(** The bit and alignment macros of [source/include/utility_macro.h], and the
    rules that compute a field of a word built from shifted fields.

    Words are bit patterns: a C [int32_t] or [uint32_t] that only goes through
    bit operations is the [Z] in [0 .. 2^32) with the same bits. *)
From S2P Require Import Prelude.

(** [LeftShift], [RightShift]: the low [b] bits of [a], moved to bit [c]; the
    [b] bits of [a] from bit [c]. *)
Definition LeftShift (a b c : Z) : Z := Z.shiftl (Z.land a (Z.shiftl 1 b - 1)) c.
Definition RightShift (a b c : Z) : Z := Z.land (Z.shiftr a c) (Z.shiftl 1 b - 1).

(** [ALIGN_FLOOR], [ALIGN_CEIL], on 64-bit [uintptr_t]. *)
Definition ALIGN_FLOOR (address range : Z) : Z :=
  Z.land (u64 address) (u64 (Z.lnot (u64 (range - 1)))).
Definition ALIGN_CEIL (address range : Z) : Z :=
  Z.land (u64 (address + range - 1)) (u64 (Z.lnot (u64 (range - 1)))).

(** [submask], [bits], [bit]. *)
Definition submask (x : Z) : Z := Z.shiftl 1 (x + 1) - 1.
Definition bits (obj st fn : Z) : Z := Z.land (Z.shiftr obj st) (submask (fn - st)).
Definition bit (obj st : Z) : Z := Z.land (Z.shiftr obj st) 1.

(** [set_bit], [set_bits] assign to a 32-bit lvalue. *)
Definition set_bit (obj st b : Z) : Z :=
  u32 (Z.lor (Z.land (Z.lnot (Z.shiftl 1 st)) obj) (Z.shiftl b st)).
Definition set_bits (obj st fn v : Z) : Z :=
  u32 (Z.lor (Z.land (Z.lnot (Z.shiftl (submask (fn - st)) st)) obj) (Z.shiftl v st)).

(** ** Fields *)

Lemma submask_ones x : -1 <= x -> submask x = Z.ones (x + 1).
Proof. intros. unfold submask. rewrite Z.ones_equiv, Z.shiftl_1_l. lia. Qed.

Lemma bits_alt x st fn : 0 <= st <= fn -> bits x st fn = trunc (fn - st + 1) (Z.shiftr x st).
Proof. intros. unfold bits. rewrite submask_ones by lia. apply Z.land_ones. lia. Qed.

Lemma testbit_bits x st fn i :
  0 <= st <= fn -> 0 <= i -> Z.testbit (bits x st fn) i = (i <? fn - st + 1) && Z.testbit x (i + st).
Proof.
  intros. rewrite bits_alt, testbit_trunc by lia. by rewrite Z.shiftr_spec by lia.
Qed.
#[export] Hint Rewrite testbit_bits using lia : zbit.

Lemma bits_range x st fn : 0 <= st <= fn -> 0 <= bits x st fn < 2 ^ (fn - st + 1).
Proof. intros. rewrite bits_alt by lia. apply trunc_range. lia. Qed.

Lemma bits_div x st fn : 0 <= st <= fn -> bits x st fn = x / 2 ^ st mod 2 ^ (fn - st + 1).
Proof. intros. rewrite bits_alt by lia. unfold trunc. by rewrite Z.shiftr_div_pow2 by lia. Qed.

Lemma bits_lor x y st fn : bits (Z.lor x y) st fn = Z.lor (bits x st fn) (bits y st fn).
Proof. unfold bits. by rewrite Z.shiftr_lor, Z.land_lor_distr_l. Qed.

Lemma bits_trunc w x st fn : 0 <= st <= fn -> fn < w -> bits (trunc w x) st fn = bits x st fn.
Proof. intros. bitwise. Qed.

Lemma bits_shiftl_in v k n st fn :
  0 <= v < 2 ^ n -> 0 <= k -> 0 < n -> st = k -> n = fn - st + 1 -> bits (Z.shiftl v k) st fn = v.
Proof. intros. subst k n. bitwise. Qed.

Lemma bits_shiftl_above v k st fn :
  0 <= st <= fn -> fn < k -> bits (Z.shiftl v k) st fn = 0.
Proof. intros. bitwise. Qed.

Lemma bits_shiftl_below v k n st fn :
  0 <= v < 2 ^ n -> 0 <= st <= fn -> 0 <= k -> 0 <= n -> k + n <= st -> bits (Z.shiftl v k) st fn = 0.
Proof. intros. bitwise. Qed.

Lemma bits_word v n st fn : 0 <= v < 2 ^ n -> st = 0 -> n = fn + 1 -> 0 <= fn -> bits v st fn = v.
Proof. intros. subst. bitwise. Qed.

Lemma bits_word_below v n st fn : 0 <= v < 2 ^ n -> 0 <= n <= st -> st <= fn -> bits v st fn = 0.
Proof. intros. bitwise. Qed.

Lemma bit_bits x st : 0 <= st -> bit x st = bits x st st.
Proof.
  intros. unfold bit, bits. f_equal. replace (st - st) with 0 by lia. reflexivity.
Qed.

(** [set_bits] replaces one field and keeps the others. *)
Lemma bits_set_bits_same x st fn v :
  0 <= st <= fn -> fn < 32 -> 0 <= v < 2 ^ (fn - st + 1) -> bits (set_bits x st fn v) st fn = v.
Proof.
  intros. unfold set_bits. rewrite submask_ones by lia. bitwise.
Qed.

Lemma bits_set_bits_other x st fn v a b :
  0 <= st <= fn -> fn < 32 -> 0 <= v < 2 ^ (fn - st + 1) -> 0 <= a <= b -> b < 32 ->
  (b < st \/ fn < a) -> bits (set_bits x st fn v) a b = bits x a b.
Proof.
  intros ????? []; unfold set_bits; rewrite submask_ones by lia; bitwise.
Qed.

Lemma set_bits_range x st fn v : 0 <= set_bits x st fn v < 2 ^ 32.
Proof. apply trunc_range. lia. Qed.

Lemma set_bit_bits x st b : set_bit x st b = set_bits x st st b.
Proof. unfold set_bit, set_bits. by replace (st - st) with 0 by lia. Qed.

(** A word is determined by a partition of its bits into fields. *)
Lemma word_fields_eq x y k w :
  0 < k < w -> 0 <= x < 2 ^ w -> 0 <= y < 2 ^ w ->
  bits x 0 (k - 1) = bits y 0 (k - 1) -> bits x k (w - 1) = bits y k (w - 1) -> x = y.
Proof.
  intros Hk Hx Hy Hl Hh. apply Z.bits_inj'. intros i Hi.
  destruct (Z.ltb_spec i k).
  - apply (f_equal (fun v => Z.testbit v i)) in Hl. revert Hl.
    rewrite !testbit_bits by lia. rewrite Z.add_0_r.
    destruct (Z.ltb_spec i (k - 1 - 0 + 1)); [done|lia].
  - destruct (Z.ltb_spec i w).
    + apply (f_equal (fun v => Z.testbit v (i - k))) in Hh. revert Hh.
      rewrite !testbit_bits by lia. replace (i - k + k) with i by lia.
      destruct (Z.ltb_spec (i - k) (w - 1 - k + 1)); [done|lia].
    + by rewrite !(testbit_word_high w) by lia.
Qed.

(** A test of a word against a contiguous mask reads the field it covers. *)
Lemma land_mask_bits x k n :
  0 <= k -> 0 < n -> Z.land x (Z.shiftl (Z.ones n) k) = Z.shiftl (bits x k (k + n - 1)) k.
Proof. intros. bitwise. Qed.

Lemma LeftShift_alt a b c : 0 <= b -> LeftShift a b c = Z.shiftl (trunc b a) c.
Proof.
  intros. unfold LeftShift. f_equal. rewrite Z.shiftl_1_l.
  replace (2 ^ b - 1) with (Z.ones b) by (rewrite Z.ones_equiv; lia). by apply Z.land_ones.
Qed.

(** ** Alignment *)

Lemma u64_lnot_mask k : 0 <= k <= 64 -> u64 (Z.lnot (u64 (2 ^ k - 1))) = 2 ^ 64 - 2 ^ k.
Proof.
  intros. assert (0 < 2 ^ k <= 2 ^ 64) by (split; [lia|apply Z.pow_le_mono_r; lia]).
  rewrite (trunc_small 64 (2 ^ k - 1)) by lia. unfold Z.lnot, trunc.
  replace (Z.pred (- (2 ^ k - 1))) with ((2 ^ 64 - 2 ^ k) + (-1) * 2 ^ 64) by lia.
  rewrite Z.mod_add by lia. apply Z.mod_small. lia.
Qed.

Lemma land_high_mask k x :
  0 <= k <= 64 -> 0 <= x < 2 ^ 64 -> Z.land x (2 ^ 64 - 2 ^ k) = x - x mod 2 ^ k.
Proof.
  intros. rewrite <- (land_lnot_aligned k x) by lia.
  rewrite <- (u64_lnot_mask k) by lia.
  assert (0 < 2 ^ k <= 2 ^ 64) by (split; [lia|apply Z.pow_le_mono_r; lia]).
  rewrite (trunc_small 64 (2 ^ k - 1)) by lia. bitwise.
Qed.

(** For a power-of-two range the macros round down and up. *)
Lemma ALIGN_FLOOR_spec a k :
  0 <= k <= 64 -> 0 <= a < 2 ^ 64 -> ALIGN_FLOOR a (2 ^ k) = a - a mod 2 ^ k.
Proof.
  intros. unfold ALIGN_FLOOR. rewrite (trunc_small 64 a), u64_lnot_mask by lia.
  by apply land_high_mask.
Qed.

Lemma ALIGN_CEIL_spec a k :
  0 <= k <= 64 -> 0 <= a -> a + 2 ^ k - 1 < 2 ^ 64 ->
  ALIGN_CEIL a (2 ^ k) = (a + 2 ^ k - 1) - (a + 2 ^ k - 1) mod 2 ^ k.
Proof.
  intros. unfold ALIGN_CEIL. rewrite (trunc_small 64 (a + 2 ^ k - 1)), u64_lnot_mask by lia.
  apply land_high_mask; lia.
Qed.

Lemma ALIGN_FLOOR_bounds a k :
  0 <= k <= 64 -> 0 <= a < 2 ^ 64 ->
  ALIGN_FLOOR a (2 ^ k) mod 2 ^ k = 0 /\
  ALIGN_FLOOR a (2 ^ k) <= a < ALIGN_FLOOR a (2 ^ k) + 2 ^ k /\ 0 <= ALIGN_FLOOR a (2 ^ k).
Proof.
  intros. rewrite ALIGN_FLOOR_spec by lia.
  pose proof (Z.mod_pos_bound a (2 ^ k) ltac:(lia)).
  pose proof (Z.mod_le a (2 ^ k) ltac:(lia) ltac:(lia)).
  split; [|lia]. rewrite Zminus_mod_idemp_r. by rewrite Z.sub_diag, Z.mod_0_l by lia.
Qed.

Lemma ALIGN_CEIL_bounds a k :
  0 <= k <= 64 -> 0 <= a -> a + 2 ^ k - 1 < 2 ^ 64 ->
  ALIGN_CEIL a (2 ^ k) mod 2 ^ k = 0 /\
  a <= ALIGN_CEIL a (2 ^ k) < a + 2 ^ k.
Proof.
  intros. rewrite ALIGN_CEIL_spec by lia.
  pose proof (Z.mod_pos_bound (a + 2 ^ k - 1) (2 ^ k) ltac:(lia)).
  split; [|lia]. rewrite Zminus_mod_idemp_r. by rewrite Z.sub_diag, Z.mod_0_l by lia.
Qed.

(** ** Computing the fields of an encoding

    [fields] evaluates [bits w st fn] where [w] is a disjunction of constants,
    bounded words and shifted bounded words: the bounds are hypotheses of the
    form [0 <= v < 2 ^ n] with a literal [n]. *)
Ltac const_field :=
  match goal with |- context [bits ?c ?a ?b] =>
    match isZcst c with true =>
      match isZcst a with true => match isZcst b with true =>
        let v := eval vm_compute in (bits c a b) in change (bits c a b) with v end end end
  end.

Ltac shift_field :=
  match goal with
  | H : 0 <= ?v < 2 ^ ?n |- context [bits (Z.shiftl ?v ?k) ?a ?b] =>
      first [ rewrite (bits_shiftl_in v k n a b) by lia
            | rewrite (bits_shiftl_above v k a b) by lia
            | rewrite (bits_shiftl_below v k n a b) by lia ]
  | H : 0 <= ?v < 2 ^ ?n |- context [bits ?v ?a ?b] =>
      first [ rewrite (bits_word v n a b) by lia
            | rewrite (bits_word_below v n a b) by lia ]
  end.

Ltac fields :=
  repeat (rewrite bits_lor || rewrite (bits_trunc 32) by lia);
  repeat (const_field || shift_field);
  rewrite ?Z.lor_0_l, ?Z.lor_0_r.
