(* ===== verification/Arm64Const.v ===== *)
(** The AArch64 instruction constants ([core/arch/arm64/constants-arm64.h],
    [InstructionRelocation/arm64/inst_constants.h]) and the register class
    ([core/arch/arm64/registers-arm64.h]) of the assembler. *)
From S2P Require Import Prelude UtilityMacro.

(** [enum Shift], [enum Extend], [enum AddrMode]. *)
Inductive Shift := NO_SHIFT | LSL | LSR | ASR | ROR | MSL.
Inductive Extend := NO_EXTEND | UXTB | UXTH | UXTW | UXTX | SXTB | SXTH | SXTW | SXTX.
Inductive AddrMode := Offset | PreIndex | PostIndex.

#[export] Instance Shift_eq_dec : EqDecision Shift.
Proof. solve_decision. Defined.
#[export] Instance Extend_eq_dec : EqDecision Extend.
Proof. solve_decision. Defined.
#[export] Instance AddrMode_eq_dec : EqDecision AddrMode.
Proof. solve_decision. Defined.

Definition Shift_val (s : Shift) : Z :=
  match s with NO_SHIFT => -1 | LSL => 0 | LSR => 1 | ASR => 2 | ROR => 3 | MSL => 4 end.

(** [enum InstructionFields]. *)
Definition kRdShift := 0.
Definition kRnShift := 5.
Definition kRmShift := 16.
Definition kRtShift := 0.
Definition kRt2Shift := 10.

(** [enum ExceptionOp]. *)
Definition ExceptionFixed := 0xD4000000.
Definition BRK := Z.lor ExceptionFixed 0x00200000.

(** [enum UnconditionalBranchOp]. *)
Definition UnconditionalBranchFixed := 0x14000000.
Definition UnconditionalBranchFixedMask := 0x7C000000.
Definition UnconditionalBranchMask := 0xFC000000.
Definition B := Z.lor UnconditionalBranchFixed 0.
Definition BL := Z.lor UnconditionalBranchFixed 0x80000000.

(** [enum UnconditionalBranchToRegisterOp]. *)
Definition UnconditionalBranchToRegisterFixed := 0xD6000000.
Definition BR := Z.lor UnconditionalBranchToRegisterFixed 0x001F0000.
Definition BLR := Z.lor UnconditionalBranchToRegisterFixed 0x003F0000.
Definition RET := Z.lor UnconditionalBranchToRegisterFixed 0x005F0000.

(** [enum LoadRegLiteralOp]. *)
Definition LoadRegLiteralFixed := 0x18000000.
Definition LoadRegLiteralFixedMask := 0x3B000000.
Definition LoadRegLiteralSub (opc V : Z) : Z :=
  Z.lor (Z.lor LoadRegLiteralFixed (LeftShift opc 2 30)) (LeftShift V 1 26).
Definition LDR_w_literal := LoadRegLiteralSub 0 0.
Definition LDR_x_literal := LoadRegLiteralSub 1 0.
Definition LDR_s_literal := LoadRegLiteralSub 0 1.
Definition LDR_d_literal := LoadRegLiteralSub 1 1.
Definition LDR_q_literal := LoadRegLiteralSub 2 1.

(** [enum LoadStoreOp]: the entries the assembler uses. *)
Definition LoadStoreOpSub (size V opc : Z) : Z :=
  Z.lor (Z.lor (LeftShift size 2 30) (LeftShift V 1 26)) (LeftShift opc 2 22).
Definition STR_x := LoadStoreOpSub 3 0 0.
Definition LDR_x := LoadStoreOpSub 3 0 1.

(** [enum LoadStoreUnsignedOffset]. *)
Definition LoadStoreUnsignedOffsetFixed := 0x39000000.

(** [enum LoadStorePairOp] and the addressing variants. *)
Definition LoadStorePairOpSub (opc V L : Z) : Z :=
  Z.lor (Z.lor (LeftShift opc 2 30) (LeftShift V 1 26)) (LeftShift L 1 22).
Definition STP_x := LoadStorePairOpSub 2 0 0.
Definition LDP_x := LoadStorePairOpSub 2 0 1.
Definition STP_q := LoadStorePairOpSub 2 1 0.
Definition LDP_q := LoadStorePairOpSub 2 1 1.
Definition LoadStorePairOffsetFixed := 0x29000000.
Definition LoadStorePairPostIndexFixed := 0x28800000.
Definition LoadStorePairPreIndexFixed := 0x29800000.

(** [enum MoveWideImmediateOp]. *)
Definition MoveWideImmediateFixed := 0x12800000.
Definition MOVN := 0x00000000.
Definition MOVZ := 0x40000000.
Definition MOVK := 0x60000000.

(** [enum AddSubImmediateOp]. *)
Definition AddSubImmediateFixed := 0x11000000.
Definition AddSubImmediateOpSub (sf op S : Z) : Z :=
  Z.lor (Z.lor (Z.lor AddSubImmediateFixed (LeftShift sf 1 31)) (LeftShift op 1 30)) (LeftShift S 1 29).
Definition ADD_w_imm := AddSubImmediateOpSub 0 0 0.
Definition SUB_w_imm := AddSubImmediateOpSub 0 1 0.
Definition ADD_x_imm := AddSubImmediateOpSub 1 0 0.
Definition SUB_x_imm := AddSubImmediateOpSub 1 1 0.

(** [enum LogicalOp], [enum LogicalShiftedOp]. *)
Definition ORR := 0x20000000.
Definition LogicalShiftedFixed := 0x0A000000.

(** [enum PCRelAddressingOp]. *)
Definition PCRelAddressingFixed := 0x10000000.
Definition PCRelAddressingFixedMask := 0x1F000000.
Definition PCRelAddressingMask := 0x9F000000.
Definition ADR := Z.lor PCRelAddressingFixed 0.
Definition ADRP := Z.lor PCRelAddressingFixed 0x80000000.

(** [inst_constants.h]. *)
Definition CompareBranchFixed := 0x34000000.
Definition CompareBranchFixedMask := 0x7E000000.
Definition ConditionalBranchFixed := 0x54000000.
Definition ConditionalBranchFixedMask := 0xFE000000.
Definition TestBranchFixed := 0x36000000.
Definition TestBranchFixedMask := 0x7E000000.

(** ** Registers *)

(** [enum RegisterType], in its order. *)
Inductive RegisterType :=
| kRegister_32 | kRegister_64 | kRegister | kVRegister
| kSIMD_FP_Register_8 | kSIMD_FP_Register_16 | kSIMD_FP_Register_32
| kSIMD_FP_Register_64 | kSIMD_FP_Register_128 | kInvalid.

#[export] Instance RegisterType_eq_dec : EqDecision RegisterType.
Proof. solve_decision. Defined.

Definition RegisterType_val (t : RegisterType) : Z :=
  match t with
  | kRegister_32 => 0 | kRegister_64 => 1 | kRegister => 2 | kVRegister => 3
  | kSIMD_FP_Register_8 => 4 | kSIMD_FP_Register_16 => 5 | kSIMD_FP_Register_32 => 6
  | kSIMD_FP_Register_64 => 7 | kSIMD_FP_Register_128 => 8 | kInvalid => 9
  end.

Record CPURegister := mkRegister { reg_code_ : Z; reg_size_ : Z; reg_type_ : RegisterType }.

Definition X (code : Z) : CPURegister := mkRegister code 64 kRegister_64.
Definition W (code : Z) : CPURegister := mkRegister code 32 kRegister_32.
Definition Q (code : Z) : CPURegister := mkRegister code 128 kSIMD_FP_Register_128.
Definition InvalidRegister : CPURegister := mkRegister 0 0 kInvalid.

(** [Is] compares the codes only. *)
Definition Is (this reg : CPURegister) : bool := reg_code_ reg =? reg_code_ this.
Definition Is64Bits (this : CPURegister) : bool := reg_size_ this =? 64.
Definition IsRegister (this : CPURegister) : bool :=
  RegisterType_val (reg_type_ this) <? RegisterType_val kRegister.
Definition IsVRegister (this : CPURegister) : bool :=
  RegisterType_val (reg_type_ this) >? RegisterType_val kVRegister.

Definition wzr := W 31.
Definition xzr := X 31.
Definition SP := X 31.
Definition x30 := X 30.

(** [TMP_REG_0], [ARM64_TMP_REG_NDX_0]. *)
Definition TMP_REG_0 := X 17.
