(* ===== verification/Arm64Kit.v ===== *)
(** The immediate-field kit of the relocator,
    [InstructionRelocation/arm64/inst_decode_encode_kit.h]: PC-relative offsets
    are read out of and written into the imm14, imm19, imm26 and immhi:immlo
    fields. *)
From S2P Require Import Prelude UtilityMacro.

(** [unsigned long] is 64 bits wide. *)
Definition SignExtend (x M : Z) : Z :=
  let sign_bit := bit x (M - 1) in
  let sign_mask := u64 (0 - sign_bit) in
  s64 (Z.lor x (u64 (Z.shiftl (Z.shiftr sign_mask M) M))).

Definition decode_imm14_offset (instr : Z) : Z :=
  let imm14 := bits instr 5 18 in
  let offset := Z.shiftl imm14 2 in
  SignExtend offset (2 + 14).
Definition encode_imm14_offset (instr offset : Z) : Z :=
  let imm14 := u32 (bits (Z.shiftr offset 2) 0 13) in
  set_bits instr 5 18 imm14.

Definition decode_imm19_offset (instr : Z) : Z :=
  let imm19 := bits instr 5 23 in
  let offset := Z.shiftl imm19 2 in
  SignExtend offset (2 + 19).
Definition encode_imm19_offset (instr offset : Z) : Z :=
  let imm19 := u32 (bits (Z.shiftr offset 2) 0 18) in
  set_bits instr 5 23 imm19.

Definition decode_imm26_offset (instr : Z) : Z :=
  let imm26 := bits instr 0 25 in
  let offset := Z.shiftl imm26 2 in
  SignExtend offset (2 + 26).
Definition encode_imm26_offset (instr offset : Z) : Z :=
  let imm26 := u32 (bits (Z.shiftr offset 2) 0 25) in
  set_bits instr 0 25 imm26.

(** The bit-field struct [{Rd:5; immhi:19; dummy_0:5; immlo:2; op:1}]; storing
    into a bit-field keeps its low bits. *)
Definition decode_immhi_immlo_offset (instr : Z) : Z :=
  let immlo := bits instr 29 30 in
  let immhi := bits instr 5 23 in
  let imm := immlo + Z.shiftl immhi 2 in
  SignExtend imm (2 + 19).
Definition encode_immhi_immlo_offset (instr offset : Z) : Z :=
  let i := set_bits instr 29 30 (trunc 2 (bits offset 0 2)) in
  set_bits i 5 23 (trunc 19 (bits offset 2 (2 + 19))).

Definition decode_immhi_immlo_zero12_offset (instr : Z) : Z :=
  Z.shiftl (decode_immhi_immlo_offset instr) 12.
Definition encode_immhi_immlo_zero12_offset (instr offset : Z) : Z :=
  encode_immhi_immlo_offset instr (Z.shiftr offset 12).

Definition decode_rt (instr : Z) : Z := bits instr 0 4.
Definition decode_rd (instr : Z) : Z := bits instr 0 4.

(** ** Lemmas *)

(** On an [M]-bit value [SignExtend] is the two's complement reading. *)
Lemma SignExtend_sext x M : 0 < M < 64 -> 0 <= x < 2 ^ M -> SignExtend x M = sext M x.
Proof.
  intros HM Hx. unfold SignExtend. rewrite bit_bits, bits_div by lia.
  replace (M - 1 - (M - 1) + 1) with 1 by lia. change (2 ^ 1) with 2.
  assert (E : 2 ^ M = 2 * 2 ^ (M - 1)) by (rewrite <- Z.pow_succ_r by lia; f_equal; lia).
  rewrite (sext_of_word M x) by lia.
  destruct (Z.ltb_spec x (2 ^ (M - 1))) as [H|H].
  - rewrite Z.div_small by lia. change (0 mod 2) with 0. change (u64 (0 - 0)) with 0.
    rewrite Z.shiftr_0_l, Z.shiftl_0_l. change (u64 0) with 0. rewrite Z.lor_0_r.
    assert (2 ^ M <= 2 ^ 63) by (apply Z.pow_le_mono_r; lia).
    apply sext_small; lia.
  - assert (x / 2 ^ (M - 1) = 1) as -> by (symmetry; apply (Z.div_unique x _ 1 (x - 2 ^ (M - 1))); lia).
    change (1 mod 2) with 1. change (u64 (0 - 1)) with (Z.ones 64).
    assert (Hlor : Z.lor x (u64 (Z.shiftl (Z.shiftr (Z.ones 64) M) M)) = x + (2 ^ 64 - 2 ^ M)).
    { rewrite <- (u64_lnot_mask M) by lia.
      rewrite (trunc_small 64 (2 ^ M - 1)).
      2:{ assert (2 ^ M <= 2 ^ 63) by (apply Z.pow_le_mono_r; lia). lia. }
      replace (2 ^ M - 1) with (Z.ones M) by (rewrite Z.ones_equiv; lia).
      rewrite <- Z.lxor_lor, <- Z.add_nocarry_lxor; [f_equal| |]; bitwise. }
    rewrite Hlor.
    assert (2 ^ M <= 2 ^ 63) by (apply Z.pow_le_mono_r; lia).
    rewrite (sext_of_word 64) by lia.
    destruct (Z.ltb_spec (x + (2 ^ 64 - 2 ^ M)) (2 ^ (64 - 1))); lia.
Qed.

Lemma shiftl_bits_range x st fn k :
  0 <= st <= fn -> 0 <= k -> 0 <= Z.shiftl (bits x st fn) k < 2 ^ (k + (fn - st + 1)).
Proof.
  intros. apply shiftl_range; [lia|].
  replace (k + (fn - st + 1) - k) with (fn - st + 1) by lia. by apply bits_range.
Qed.

(** Decoding reads the field as a signed word offset. *)
Lemma decode_imm14_sext i : decode_imm14_offset i = sext 16 (4 * bits i 5 18).
Proof.
  unfold decode_imm14_offset. rewrite SignExtend_sext by (try apply (shiftl_bits_range _ 5 18 2); lia).
  f_equal. rewrite Z.shiftl_mul_pow2 by lia. lia.
Qed.
Lemma decode_imm19_sext i : decode_imm19_offset i = sext 21 (4 * bits i 5 23).
Proof.
  unfold decode_imm19_offset. rewrite SignExtend_sext by (try apply (shiftl_bits_range _ 5 23 2); lia).
  f_equal. rewrite Z.shiftl_mul_pow2 by lia. lia.
Qed.
Lemma decode_imm26_sext i : decode_imm26_offset i = sext 28 (4 * bits i 0 25).
Proof.
  unfold decode_imm26_offset. rewrite SignExtend_sext by (try apply (shiftl_bits_range _ 0 25 2); lia).
  f_equal. rewrite Z.shiftl_mul_pow2 by lia. lia.
Qed.

Lemma decode_immhi_immlo_sext i :
  decode_immhi_immlo_offset i = sext 21 (bits i 29 30 + 4 * bits i 5 23).
Proof.
  unfold decode_immhi_immlo_offset. rewrite Z.shiftl_mul_pow2 by lia.
  pose proof (bits_range i 29 30 ltac:(lia)). pose proof (bits_range i 5 23 ltac:(lia)).
  rewrite SignExtend_sext by lia. f_equal. lia.
Qed.

(** A byte offset that the field can hold is its low bits, scaled. *)
Lemma sext_scaled_field n off :
  0 <= n -> off mod 4 = 0 -> - 2 ^ (n + 1) <= off < 2 ^ (n + 1) ->
  sext (n + 2) (4 * ((off / 4) mod 2 ^ n)) = off.
Proof.
  intros Hn Hal Hr. assert (E : 4 * ((off / 4) mod 2 ^ n) = trunc (n + 2) off).
  { unfold trunc. replace (n + 2) with (2 + n) by lia. rewrite Z.pow_add_r by lia.
    change (2 ^ 2) with 4. rewrite Z.rem_mul_r by lia. lia. }
  rewrite E, sext_trunc by lia. apply sext_small; [lia|].
  replace (n + 2 - 1) with (n + 1) by lia. lia.
Qed.

Ltac imm_roundtrip n :=
  intros; unfold encode_imm14_offset, encode_imm19_offset, encode_imm26_offset;
  cbv zeta;
  match goal with |- context [u32 (bits ?x ?a ?b)] =>
    pose proof (bits_range x a b ltac:(lia));
    rewrite (trunc_small 32 (bits x a b)) by lia
  end;
  rewrite bits_set_bits_same by lia; rewrite bits_div, Z.div_1_r by lia;
  rewrite Z.shiftr_div_pow2 by lia; apply (sext_scaled_field n); lia.

(** C-round trips: writing an aligned, representable offset and reading it back. *)
Lemma decode_encode_imm14 i off :
  off mod 4 = 0 -> - 2 ^ 15 <= off < 2 ^ 15 -> decode_imm14_offset (encode_imm14_offset i off) = off.
Proof. rewrite decode_imm14_sext. imm_roundtrip 14. Qed.
Lemma decode_encode_imm19 i off :
  off mod 4 = 0 -> - 2 ^ 20 <= off < 2 ^ 20 -> decode_imm19_offset (encode_imm19_offset i off) = off.
Proof. rewrite decode_imm19_sext. imm_roundtrip 19. Qed.
Lemma decode_encode_imm26 i off :
  off mod 4 = 0 -> - 2 ^ 27 <= off < 2 ^ 27 -> decode_imm26_offset (encode_imm26_offset i off) = off.
Proof. rewrite decode_imm26_sext. imm_roundtrip 26. Qed.

Lemma decode_encode_immhi_immlo i off :
  - 2 ^ 20 <= off < 2 ^ 20 -> decode_immhi_immlo_offset (encode_immhi_immlo_offset i off) = off.
Proof.
  intros. rewrite decode_immhi_immlo_sext. unfold encode_immhi_immlo_offset. cbv zeta.
  set (lo := trunc 2 _). set (hi := trunc 19 _).
  pose proof (trunc_range 2 (bits off 0 2) ltac:(lia)) as Hlo. fold lo in Hlo.
  pose proof (trunc_range 19 (bits off 2 (2 + 19)) ltac:(lia)) as Hhi. fold hi in Hhi.
  rewrite (bits_set_bits_other _ 5 23 hi 29 30), !bits_set_bits_same by lia.
  assert (E : lo + 4 * hi = trunc 21 off).
  { unfold lo, hi. rewrite !bits_div by lia. unfold trunc.
    change (2 ^ 21) with (2 ^ 2 * 2 ^ 19). rewrite Z.rem_mul_r by lia.
    rewrite Z.div_1_r. f_equal.
    - change (2 ^ (2 - 0 + 1)) with (2 ^ 2 * 2). rewrite Z.rem_mul_r by lia.
      replace (off mod 2 ^ 2 + 2 ^ 2 * (off / 2 ^ 2 mod 2)) with (off mod 2 ^ 2 + (off / 2 ^ 2 mod 2) * 2 ^ 2) by lia.
      rewrite Z.mod_add, Zmod_mod by lia. done.
    - f_equal. change (2 ^ (2 + 19 - 2 + 1)) with (2 ^ 19 * 2). rewrite Z.rem_mul_r by lia.
      replace ((off / 2 ^ 2) mod 2 ^ 19 + 2 ^ 19 * (off / 2 ^ 2 / 2 ^ 19 mod 2))
        with ((off / 2 ^ 2) mod 2 ^ 19 + (off / 2 ^ 2 / 2 ^ 19 mod 2) * 2 ^ 19) by lia.
      rewrite Z.mod_add, Zmod_mod by lia. done. }
  rewrite E, sext_trunc by lia. apply sext_small; lia.
Qed.
