(* ===== verification/CodeBuffer.v ===== *)
(** The code buffer ([MemoryAllocator/CodeBuffer/CodeBufferBase.{h,cc}],
    [code_buffer_arm64.h]): a growing byte vector with little-endian scalar
    access. An access outside the vector is undefined behaviour in the source
    and is [None] here. *)
From S2P Require Import Prelude UtilityMacro.

Definition CodeBufferBase := list byte.

Definition EmitBuffer (this : CodeBufferBase) (buffer : list byte) : CodeBufferBase :=
  this ++ buffer.

(** [Emit<T>] appends the object representation of the value. *)
Definition Emit (sizeof : nat) (this : CodeBufferBase) (value : Z) : CodeBufferBase :=
  EmitBuffer this (le_bytes sizeof value).

Definition Emit8 := Emit 1.
Definition Emit16 := Emit 2.
Definition Emit32 := Emit 4.
Definition Emit64 := Emit 8.

Definition GetBufferSize (this : CodeBufferBase) : Z := Z.of_nat (length this).

Definition Copy (this : CodeBufferBase) : CodeBufferBase := EmitBuffer [] this.

(** [Load<T>], [Store<T>]. *)
Definition Load (sizeof : nat) (this : CodeBufferBase) (offset : Z) : option Z :=
  if (0 <=? offset) && (offset + Z.of_nat sizeof <=? GetBufferSize this)
  then Some (le_val (slice (Z.to_nat offset) sizeof this)) else None.

Definition Store (sizeof : nat) (this : CodeBufferBase) (offset value : Z) : option CodeBufferBase :=
  if (0 <=? offset) && (offset + Z.of_nat sizeof <=? GetBufferSize this)
  then Some (splice (Z.to_nat offset) (le_bytes sizeof value) this) else None.

(** [CodeBuffer::LoadInst], [CodeBuffer::RewriteInst]. *)
Definition LoadInst (this : CodeBufferBase) (offset : Z) : option Z := Load 4 this offset.
Definition RewriteInst (this : CodeBufferBase) (offset instr : Z) : option CodeBufferBase :=
  Store 4 this offset instr.

(** ** Lemmas *)

Lemma GetBufferSize_nonneg b : 0 <= GetBufferSize b.
Proof. unfold GetBufferSize. lia. Qed.

Lemma GetBufferSize_EmitBuffer b bs :
  GetBufferSize (EmitBuffer b bs) = GetBufferSize b + Z.of_nat (length bs).
Proof. unfold GetBufferSize, EmitBuffer. rewrite length_app. lia. Qed.

Lemma GetBufferSize_Emit n b v : GetBufferSize (Emit n b v) = GetBufferSize b + Z.of_nat n.
Proof. unfold Emit. by rewrite GetBufferSize_EmitBuffer, length_le_bytes. Qed.

Lemma Emit_bytes n b v : Forall is_byte b -> Forall is_byte (Emit n b v).
Proof. intros. unfold Emit, EmitBuffer. apply Forall_app; split; [done|apply le_bytes_Forall]. Qed.

Lemma Load_in n b o :
  0 <= o -> o + Z.of_nat n <= GetBufferSize b ->
  Load n b o = Some (le_val (slice (Z.to_nat o) n b)).
Proof.
  intros. unfold Load. destruct (Z.leb_spec 0 o); [|lia].
  by destruct (Z.leb_spec (o + Z.of_nat n) (GetBufferSize b)); [|lia].
Qed.

Lemma Store_in n b o v :
  0 <= o -> o + Z.of_nat n <= GetBufferSize b ->
  Store n b o v = Some (splice (Z.to_nat o) (le_bytes n v) b).
Proof.
  intros. unfold Store. destruct (Z.leb_spec 0 o); [|lia].
  by destruct (Z.leb_spec (o + Z.of_nat n) (GetBufferSize b)); [|lia].
Qed.

Lemma Load_inv n b o v :
  Load n b o = Some v ->
  0 <= o /\ o + Z.of_nat n <= GetBufferSize b /\ v = le_val (slice (Z.to_nat o) n b).
Proof.
  unfold Load. destruct (Z.leb_spec 0 o), (Z.leb_spec (o + Z.of_nat n) (GetBufferSize b));
    simpl; intros [=]; auto.
Qed.

Lemma Store_inv n b o v b' :
  Store n b o v = Some b' ->
  0 <= o /\ o + Z.of_nat n <= GetBufferSize b /\ b' = splice (Z.to_nat o) (le_bytes n v) b.
Proof.
  unfold Store. destruct (Z.leb_spec 0 o), (Z.leb_spec (o + Z.of_nat n) (GetBufferSize b));
    simpl; intros [=]; auto.
Qed.

Lemma Store_size n b o v b' : Store n b o v = Some b' -> GetBufferSize b' = GetBufferSize b.
Proof.
  intros (? & ? & ->)%Store_inv. unfold GetBufferSize in *.
  rewrite length_splice; [done|]. rewrite length_le_bytes. lia.
Qed.

(** Reading back what was stored or just emitted. *)
Lemma Load_Store_same n b o v b' :
  Store n b o v = Some b' -> Load n b' o = Some (trunc (8 * Z.of_nat n) v).
Proof.
  intros H. pose proof (Store_size _ _ _ _ _ H) as Hs.
  apply Store_inv in H as (? & ? & ->). rewrite Load_in by lia. f_equal.
  rewrite <- (length_le_bytes n v) at 1.
  rewrite slice_splice_same; [apply le_val_bytes|].
  rewrite length_le_bytes. unfold GetBufferSize in *. lia.
Qed.

Lemma Load_Store_other n m b o p v b' :
  Store n b o v = Some b' -> 0 <= p -> p + Z.of_nat m <= o \/ o + Z.of_nat n <= p ->
  Load m b' p = Load m b p.
Proof.
  intros H Hp Hd. pose proof (Store_size _ _ _ _ _ H) as Hs.
  apply Store_inv in H as (? & ? & ->). unfold Load. rewrite Hs.
  destruct (_ && _); [|done]. do 2 f_equal.
  unfold GetBufferSize in *. rewrite slice_splice_other; rewrite ?length_le_bytes; [done|lia..].
Qed.

Lemma Load_app_l n b c o :
  0 <= o -> o + Z.of_nat n <= GetBufferSize b -> Load n (b ++ c) o = Load n b o.
Proof.
  intros. rewrite !Load_in; unfold GetBufferSize in *; rewrite ?length_app; [|lia..].
  by rewrite slice_app_l by lia.
Qed.

Lemma Load_EmitBuffer_l n b c o v :
  Load n b o = Some v -> Load n (EmitBuffer b c) o = Some v.
Proof. intros H. pose proof H as (? & ? & _)%Load_inv. unfold EmitBuffer. by rewrite Load_app_l. Qed.

Lemma Load_Emit_last n b v :
  Load n (Emit n b v) (GetBufferSize b) = Some (trunc (8 * Z.of_nat n) v).
Proof.
  pose proof (GetBufferSize_nonneg b).
  rewrite Load_in by (rewrite ?GetBufferSize_Emit; lia). f_equal.
  unfold Emit, EmitBuffer, GetBufferSize. rewrite Nat2Z.id, slice_app_r, Nat.sub_diag by lia.
  rewrite slice_all by (by rewrite length_le_bytes). apply le_val_bytes.
Qed.

Lemma Store_bytes n b o v b' :
  Store n b o v = Some b' -> Forall is_byte b -> Forall is_byte b'.
Proof.
  intros (? & ? & ->)%Store_inv ?. unfold splice. rewrite !Forall_app.
  auto using Forall_take, Forall_drop, le_bytes_Forall.
Qed.
