(* ===== verification/Assembler.v ===== *)
(** Labels and the base assembler ([core/assembler/AssemblerPseudoLabel.h],
    [core/assembler/assembler.{h,cc}]) with the AArch64 label linking of
    [assembler-arm64.cc].

    Labels are heap objects that the data-label list and the emitters share by
    pointer: the state has a store of labels and a pointer is an index into it.
    [None] is undefined behaviour (an access outside the code buffer, a dangling
    pointer). *)
From S2P Require Import Prelude UtilityMacro Arm64Kit CodeBuffer.

Record ref_label_inst_t := { type_ : Z; vmaddr_ : Z; offset_ : Z }.

(** [enum ref_label_type_t]. *)
Definition kLabelImm19 := 0.

Record AssemblerPseudoLabel := {
  pos_ : Z;
  relocated_pos_ : Z;
  ref_label_insts_ : list ref_label_inst_t }.

Definition newAssemblerPseudoLabel (addr : Z) : AssemblerPseudoLabel :=
  {| pos_ := addr; relocated_pos_ := 0; ref_label_insts_ := [] |}.

Definition has_confused_instructions (this : AssemblerPseudoLabel) : bool :=
  negb (Nat.eqb (length (ref_label_insts_ this)) 0).

Definition link_to (this : AssemblerPseudoLabel) (type inst_vmaddr offset : Z) : AssemblerPseudoLabel :=
  {| pos_ := pos_ this; relocated_pos_ := relocated_pos_ this;
     ref_label_insts_ := ref_label_insts_ this ++
       [{| type_ := type; vmaddr_ := inst_vmaddr; offset_ := offset |}] |}.

Definition bind_to (this : AssemblerPseudoLabel) (addr : Z) : AssemblerPseudoLabel :=
  {| pos_ := pos_ this; relocated_pos_ := addr; ref_label_insts_ := ref_label_insts_ this |}.

(** [assembler-arm64.cc]: every instruction that referred to the label before
    it was bound gets its offset. *)
Definition link_confused_instruction (pos : Z) (buffer : CodeBufferBase) (ref : ref_label_inst_t) :
    option CodeBufferBase :=
  let fixup_offset := s64 (pos - offset_ ref) in
  inst ← LoadInst buffer (u32 (offset_ ref));
  let new_inst := if type_ ref =? kLabelImm19 then encode_imm19_offset inst fixup_offset else 0 in
  RewriteInst buffer (u32 (offset_ ref)) new_inst.

Fixpoint link_refs (pos : Z) (buffer : CodeBufferBase) (refs : list ref_label_inst_t) :
    option CodeBufferBase :=
  match refs with
  | [] => Some buffer
  | ref :: refs => buffer' ← link_confused_instruction pos buffer ref; link_refs pos buffer' refs
  end.

Definition link_confused_instructions (this : AssemblerPseudoLabel) (buffer : CodeBufferBase) :
    option CodeBufferBase :=
  link_refs (relocated_pos_ this) buffer (ref_label_insts_ this).

(** [RelocLabel]: [data_] holds the bytes that were initialised, which are the
    first [data_size_] ones. *)
Record RelocLabel := { base : AssemblerPseudoLabel; data_ : list byte; data_size_ : Z }.

Definition newRelocLabel (sizeof : nat) (value : Z) : RelocLabel :=
  {| base := newAssemblerPseudoLabel 0; data_ := le_bytes sizeof value;
     data_size_ := Z.of_nat sizeof |}.

Definition fixup_data (sizeof : nat) (this : RelocLabel) (value : Z) : RelocLabel :=
  {| base := base this; data_ := splice 0 (le_bytes sizeof value) (data_ this);
     data_size_ := data_size_ this |}.

(** ** [AssemblerBase] *)

Record AssemblerBase := {
  buffer_ : CodeBufferBase;
  labels : list RelocLabel;
  data_labels_ : list nat;
  realized_addr_ : Z }.

Definition newAssembler (address : Z) : AssemblerBase :=
  {| buffer_ := []; labels := []; data_labels_ := []; realized_addr_ := address |}.

Definition set_buffer (b : CodeBufferBase) (this : AssemblerBase) : AssemblerBase :=
  {| buffer_ := b; labels := labels this; data_labels_ := data_labels_ this;
     realized_addr_ := realized_addr_ this |}.
Definition set_label (l : nat) (v : RelocLabel) (this : AssemblerBase) : AssemblerBase :=
  {| buffer_ := buffer_ this; labels := <[l := v]> (labels this);
     data_labels_ := data_labels_ this; realized_addr_ := realized_addr_ this |}.
Definition set_base (l : RelocLabel) (b : AssemblerPseudoLabel) : RelocLabel :=
  {| base := b; data_ := data_ l; data_size_ := data_size_ l |}.

(** The methods, as state transformers that may be undefined. *)
Definition asmM (A : Type) : Type := AssemblerBase -> option (A * AssemblerBase).
#[export] Instance asmM_ret : MRet asmM := fun A a s => Some (a, s).
#[export] Instance asmM_bind : MBind asmM := fun A B f m s =>
  match m s with Some (a, s') => f a s' | None => None end.

Definition get_asm : asmM AssemblerBase := fun s => Some (s, s).
Definition undefined {A} : asmM A := fun _ => None.

Definition pc_offset (this : AssemblerBase) : Z := GetBufferSize (buffer_ this).

(** [new RelocLabel(value)]: the fresh pointer. *)
Definition new_label (sizeof : nat) (value : Z) : asmM nat := fun this =>
  Some (length (labels this),
        {| buffer_ := buffer_ this; labels := labels this ++ [newRelocLabel sizeof value];
           data_labels_ := data_labels_ this; realized_addr_ := realized_addr_ this |}).

Definition AppendRelocLabel (label : nat) : asmM unit := fun this =>
  Some (tt, {| buffer_ := buffer_ this; labels := labels this;
               data_labels_ := data_labels_ this ++ [label]; realized_addr_ := realized_addr_ this |}).

Definition PseudoBind (label : nat) : asmM unit := fun this =>
  l ← labels this !! label;
  let bound_offset := GetBufferSize (buffer_ this) in
  let b := bind_to (base l) bound_offset in
  let this' := set_label label (set_base l b) this in
  if has_confused_instructions b
  then buf ← link_confused_instructions b (buffer_ this'); Some (tt, set_buffer buf this')
  else Some (tt, this').

(** The body of [RelocBind]'s loop, and the loop. *)
Definition RelocBind1 (label : nat) : asmM unit := fun this =>
  '(_, this') ← PseudoBind label this;
  l ← labels this' !! label;
  Some (tt, set_buffer (EmitBuffer (buffer_ this') (take (Z.to_nat (data_size_ l)) (data_ l))) this').

Fixpoint RelocBind_loop (ls : list nat) : asmM unit :=
  match ls with
  | [] => mret tt
  | label :: ls => RelocBind1 label ;; RelocBind_loop ls
  end.

Definition RelocBind : asmM unit := fun this => RelocBind_loop (data_labels_ this) this.

Definition SetRealizedAddress (address : Z) : asmM unit := fun this =>
  Some (tt, {| buffer_ := buffer_ this; labels := labels this;
               data_labels_ := data_labels_ this; realized_addr_ := address |}).
Definition GetRealizedAddress (this : AssemblerBase) : Z := realized_addr_ this.

(** ** Linking *)

(** A reference to an instruction of the buffer: word aligned and inside it. *)
Definition ref_ok (size : Z) (r : ref_label_inst_t) : Prop :=
  type_ r = kLabelImm19 /\ 0 <= offset_ r /\ offset_ r mod 4 = 0 /\ offset_ r + 4 <= size.

(** [clear_of refs o n]: the [n] bytes at [o] are none of the instructions of
    [refs]. *)
Definition clear_of (refs : list ref_label_inst_t) (o : Z) (n : nat) : Prop :=
  forall r, r ∈ refs -> o + Z.of_nat n <= offset_ r \/ offset_ r + 4 <= o.

Lemma ref_ok_mono s s' r : ref_ok s r -> s <= s' -> ref_ok s' r.
Proof. unfold ref_ok. intuition lia. Qed.

Lemma ref_ok_clear s r refs :
  ref_ok s r -> Forall (ref_ok s) refs -> offset_ r ∉ (offset_ <$> refs) ->
  clear_of refs (offset_ r) 4.
Proof.
  intros (_ & ? & Hm & _) Hrs Hn r' Hr'.
  pose proof (proj1 (Forall_forall _ _) Hrs _ Hr') as (_ & ? & Hm' & _).
  assert (offset_ r <> offset_ r').
  { intros E. apply Hn. rewrite E. by apply list_elem_of_fmap_2. }
  Z.to_euclidean_division_equations. lia.
Qed.

(** What linking the instructions [refs] to position [pos] does to a buffer. *)
Definition links (pos : Z) (refs : list ref_label_inst_t) (b b' : CodeBufferBase) : Prop :=
  GetBufferSize b' = GetBufferSize b /\
  (forall n o, 0 <= o -> clear_of refs o n -> Load n b' o = Load n b o) /\
  (forall r, r ∈ refs -> exists i, LoadInst b (offset_ r) = Some i /\
     LoadInst b' (offset_ r) = Some (encode_imm19_offset i (pos - offset_ r))).

Lemma link1_spec pos b r :
  ref_ok (GetBufferSize b) r -> GetBufferSize b < 2 ^ 31 -> 0 <= pos < 2 ^ 31 ->
  exists b', link_confused_instruction pos b r = Some b' /\ links pos [r] b b'.
Proof.
  intros (Ht & H0 & Hm & Hs) Hb Hp.
  unfold link_confused_instruction. rewrite (trunc_small 32) by lia.
  rewrite (sext_small 64) by lia. unfold LoadInst, RewriteInst.
  rewrite (Load_in 4) by lia. cbn [mbind option_bind]. rewrite Ht, Z.eqb_refl.
  set (i := le_val _). set (e := encode_imm19_offset i _).
  destruct (Store 4 b (offset_ r) e) as [b'|] eqn:E.
  2:{ rewrite Store_in in E by lia. discriminate. }
  exists b'. split; [done|]. split; [|split].
  - eapply Store_size, E.
  - intros n o Ho Hc. eapply Load_Store_other; [exact E|done|].
    destruct (Hc r ltac:(set_solver)); lia.
  - intros r' ->%list_elem_of_singleton. exists i. unfold LoadInst.
    rewrite Load_in by lia. split; [done|]. erewrite Load_Store_same by exact E.
    f_equal. apply trunc_small, set_bits_range.
Qed.

Lemma link_refs_spec pos refs : forall b,
  Forall (ref_ok (GetBufferSize b)) refs -> NoDup (offset_ <$> refs) ->
  GetBufferSize b < 2 ^ 31 -> 0 <= pos < 2 ^ 31 ->
  exists b', link_refs pos b refs = Some b' /\ links pos refs b b'.
Proof.
  induction refs as [|r refs IH]; intros b Hok Hnd Hb Hp.
  { exists b. split; [done|]. repeat split; auto. intros r Hr. by apply not_elem_of_nil in Hr. }
  apply Forall_cons in Hok as [Hr Hrs]. cbn in Hnd. apply NoDup_cons in Hnd as [Hni Hnd].
  destruct (link1_spec pos b r Hr Hb Hp) as (b1 & E1 & S1 & U1 & L1).
  destruct (IH b1) as (b2 & E2 & S2 & U2 & L2); rewrite ?S1; auto.
  exists b2. cbn. rewrite E1. cbn. split; [done|]. split; [lia|]. split.
  - intros n o Ho Hc. rewrite U2, U1; auto; intros r' Hr'; apply Hc; set_solver.
  - intros r' [->|Hr']%elem_of_cons.
    + destruct (L1 r ltac:(set_solver)) as (i & Hi & Hi').
      exists i. split; [done|]. unfold LoadInst in *. rewrite U2; auto.
      * apply Hr.
      * by eapply ref_ok_clear.
    + destruct (L2 r' Hr') as (i & Hi & Hi'). exists i. split; [|done].
      rewrite <- Hi. unfold LoadInst. symmetry.
      pose proof (proj1 (Forall_forall _ _) Hrs _ Hr') as Hok'.
      apply U1; [apply Hok'|].
      eapply (ref_ok_clear _ r' [r]); eauto.
      cbn. rewrite list_elem_of_singleton. intros E. apply Hni. rewrite <- E.
      by apply list_elem_of_fmap_2.
Qed.

(** ** Binding the literal pool *)

Definition refs_of (this : AssemblerBase) (l : nat) : list ref_label_inst_t :=
  match labels this !! l with Some L => ref_label_insts_ (base L) | None => [] end.
Definition data_of (this : AssemblerBase) (l : nat) : list byte :=
  match labels this !! l with Some L => data_ L | None => [] end.
Definition all_refs (this : AssemblerBase) (ls : list nat) : list ref_label_inst_t :=
  mjoin (refs_of this <$> ls).
Definition pool (this : AssemblerBase) (ls : list nat) : list byte :=
  mjoin (data_of this <$> ls).

Lemma all_refs_cons this l ls : all_refs this (l :: ls) = refs_of this l ++ all_refs this ls.
Proof. reflexivity. Qed.
Lemma pool_cons this l ls : pool this (l :: ls) = data_of this l ++ pool this ls.
Proof. reflexivity. Qed.

(** A label whose literal is made of whole words. *)
Definition label_ok (this : AssemblerBase) (l : nat) : Prop :=
  exists L, labels this !! l = Some L /\ data_size_ L = Z.of_nat (length (data_ L)) /\
    data_size_ L mod 4 = 0 /\ Forall is_byte (data_ L).

Lemma label_ok_data_of this l : label_ok this l ->
  exists L, labels this !! l = Some L /\ data_of this l = data_ L /\
    refs_of this l = ref_label_insts_ (base L) /\
    data_size_ L = Z.of_nat (length (data_ L)) /\ data_size_ L mod 4 = 0 /\
    Forall is_byte (data_ L).
Proof. intros (L & E & ? & ? & ?). exists L. unfold data_of, refs_of. by rewrite E. Qed.

(** [bound b' p l]: label [l] of [this] is at [p] in [b']: its data are there and
    every instruction that referred to it in [b] has the offset to [p]. *)
Definition bound (this : AssemblerBase) (b' : CodeBufferBase) (p : Z) (l : nat) : Prop :=
  Load (length (data_of this l)) b' p = Some (le_val (data_of this l)) /\
  forall r, r ∈ refs_of this l -> exists i, LoadInst (buffer_ this) (offset_ r) = Some i /\
    LoadInst b' (offset_ r) = Some (encode_imm19_offset i (p - offset_ r)).

Lemma PseudoBind_spec this l :
  label_ok this l -> Forall (ref_ok (pc_offset this)) (refs_of this l) ->
  NoDup (offset_ <$> refs_of this l) -> pc_offset this < 2 ^ 31 ->
  exists this' L', PseudoBind l this = Some (tt, this') /\
    links (pc_offset this) (refs_of this l) (buffer_ this) (buffer_ this') /\
    labels this' = <[l := L']> (labels this) /\ data_labels_ this' = data_labels_ this /\
    realized_addr_ this' = realized_addr_ this /\
    refs_of this l = ref_label_insts_ (base L') /\ data_of this l = data_ L' /\
    data_size_ L' = Z.of_nat (length (data_ L')).
Proof.
  intros (L & E & Ed & Er & Hsz & _)%label_ok_data_of Hok Hnd Hlt.
  unfold PseudoBind. rewrite E. cbn.
  pose proof (GetBufferSize_nonneg (buffer_ this)). unfold pc_offset in *.
  rewrite Er in *. set (b := bind_to (base L) (GetBufferSize (buffer_ this))).
  destruct (link_refs_spec (GetBufferSize (buffer_ this)) (ref_label_insts_ (base L))
              (buffer_ this)) as (buf & Eb & Hl); [auto; lia..|].
  destruct (has_confused_instructions b) eqn:Hc.
  - unfold link_confused_instructions. cbn. rewrite Eb. cbn.
    eexists _, (set_base L b). split; [done|]. cbn. auto 10.
  - unfold has_confused_instructions in Hc. cbn in Hc.
    destruct (ref_label_insts_ (base L)) as [|? ?] eqn:Hr; [|done].
    injection Eb as <-.
    eexists _, (set_base L b). split; [done|]. cbn. auto 10.
Qed.

Lemma RelocBind1_spec this l :
  label_ok this l -> Forall (ref_ok (pc_offset this)) (refs_of this l) ->
  NoDup (offset_ <$> refs_of this l) -> pc_offset this < 2 ^ 31 ->
  exists this' L' b, RelocBind1 l this = Some (tt, this') /\
    links (pc_offset this) (refs_of this l) (buffer_ this) b /\
    buffer_ this' = EmitBuffer b (data_of this l) /\
    labels this' = <[l := L']> (labels this) /\
    data_labels_ this' = data_labels_ this /\ realized_addr_ this' = realized_addr_ this.
Proof.
  intros Hl Hok Hnd Hlt. pose proof Hl as (L & E & _)%label_ok_data_of.
  destruct (PseudoBind_spec this l Hl Hok Hnd Hlt)
    as (t1 & L' & E1 & Hlk & El & Edl & Ea & Er & Ed & Es).
  unfold RelocBind1. rewrite E1. cbn. rewrite El.
  rewrite list_lookup_insert_eq by (by eapply lookup_lt_Some). cbn.
  eexists _, L', (buffer_ t1). split; [done|]. cbn. rewrite Ed, Es, Nat2Z.id, firstn_all.
  auto 10.
Qed.

Lemma refs_of_insert_ne this this' l l' L' :
  labels this' = <[l := L']> (labels this) -> l' <> l ->
  refs_of this' l' = refs_of this l' /\ data_of this' l' = data_of this l' /\
  (label_ok this l' -> label_ok this' l').
Proof.
  intros E Hne. unfold refs_of, data_of, label_ok. rewrite E.
  by rewrite list_lookup_insert_ne by done.
Qed.

Lemma all_refs_insert_ne this this' l ls L' :
  labels this' = <[l := L']> (labels this) -> l ∉ ls ->
  all_refs this' ls = all_refs this ls /\ pool this' ls = pool this ls.
Proof.
  intros E Hni. unfold all_refs, pool.
  split; f_equal; apply list_fmap_ext; intros i l' Hl';
    eapply refs_of_insert_ne in E as (? & ? & _); eauto; intros ->;
    apply Hni; eapply list_elem_of_lookup_2; eauto.
Qed.

Lemma Load_Emit_pool b d n : n = length d -> Load n (EmitBuffer b d) (GetBufferSize b) = Some (le_val d).
Proof.
  intros ->. pose proof (GetBufferSize_nonneg b).
  rewrite Load_in by (rewrite ?GetBufferSize_EmitBuffer; lia). f_equal.
  unfold EmitBuffer, GetBufferSize. rewrite Nat2Z.id, slice_app_r, Nat.sub_diag by lia.
  by rewrite slice_all.
Qed.

Lemma clear_of_below refs size o n :
  Forall (ref_ok size) refs -> size <= o -> clear_of refs o n.
Proof. intros Hf ? r Hr. right. rewrite Forall_forall in Hf. destruct (Hf r Hr) as (_&_&_&?). lia. Qed.

Lemma clear_of_app refs refs' o n :
  clear_of (refs ++ refs') o n <-> clear_of refs o n /\ clear_of refs' o n.
Proof. unfold clear_of. set_solver. Qed.

(** Binding one more label keeps what the later ones see of the buffer. *)
Lemma bound_step this t1 b' p l :
  refs_of t1 l = refs_of this l -> data_of t1 l = data_of this l ->
  (forall r, r ∈ refs_of this l -> LoadInst (buffer_ t1) (offset_ r) = LoadInst (buffer_ this) (offset_ r)) ->
  bound t1 b' p l -> bound this b' p l.
Proof.
  unfold bound. intros -> -> Hr [Hd Hrs]. split; [done|].
  intros r Hin. destruct (Hrs r Hin) as (i & Hi & ?). exists i. by rewrite <- Hr.
Qed.

Definition pool_bound (this this' : AssemblerBase) (ls : list nat) : Prop :=
  pc_offset this' = pc_offset this + Z.of_nat (length (pool this ls)) /\
  (forall n o, 0 <= o -> o + Z.of_nat n <= pc_offset this -> clear_of (all_refs this ls) o n ->
     Load n (buffer_ this') o = Load n (buffer_ this) o) /\
  (forall l, l ∈ ls -> exists p, pc_offset this <= p /\ p mod 4 = 0 /\
     p + Z.of_nat (length (data_of this l)) <= pc_offset this' /\ bound this (buffer_ this') p l) /\
  realized_addr_ this' = realized_addr_ this.

Lemma pool_bound_cons this t1 t2 b l L' ls :
  label_ok this l -> l ∉ ls -> labels t1 = <[l := L']> (labels this) ->
  Forall (ref_ok (pc_offset this)) (refs_of this l ++ all_refs this ls) ->
  NoDup (offset_ <$> (refs_of this l ++ all_refs this ls)) -> pc_offset this mod 4 = 0 ->
  links (pc_offset this) (refs_of this l) (buffer_ this) b ->
  buffer_ t1 = EmitBuffer b (data_of this l) -> realized_addr_ t1 = realized_addr_ this ->
  pool_bound t1 t2 ls -> pool_bound this t2 (l :: ls).
Proof.
  intros Hl Hni El [Hok1 Hok]%Forall_app Hnd Hm (Sb & Ub & Lb) Eb1 Ea (S2 & U2 & B2 & R2).
  rewrite fmap_app in Hnd. apply NoDup_app in Hnd as (_ & Hdisj & _).
  destruct (all_refs_insert_ne _ _ _ _ _ El Hni) as [Hr1 Hp1].
  pose proof Hl as (L & _ & Hd & _ & Hsz & Hm4 & _)%label_ok_data_of.
  assert (S1 : pc_offset t1 = pc_offset this + Z.of_nat (length (data_of this l))).
  { unfold pc_offset. by rewrite Eb1, GetBufferSize_EmitBuffer, Sb. }
  rewrite Hr1 in U2. rewrite Hp1, S1 in S2. unfold pc_offset in Sb.
  assert (Hkeep : forall n o, 0 <= o -> o + Z.of_nat n <= pc_offset this -> clear_of (refs_of this l) o n ->
             Load n (buffer_ t1) o = Load n (buffer_ this) o).
  { intros n o ? ? ?. rewrite Eb1. unfold EmitBuffer. rewrite Load_app_l by (unfold pc_offset in *; lia).
    by apply Ub. }
  assert (Hrefl : forall r, r ∈ all_refs this ls -> clear_of (refs_of this l) (offset_ r) 4).
  { intros r Hr. eapply ref_ok_clear; [exact (proj1 (Forall_forall _ _) Hok _ Hr)|done|].
    intros Hin. eapply Hdisj; [exact Hin|]. by apply list_elem_of_fmap_2. }
  split; [|split; [|split]].
  - rewrite pool_cons, length_app. lia.
  - intros n o ? ?. rewrite all_refs_cons. intros [? ?]%clear_of_app. rewrite U2 by (auto; lia). by apply Hkeep.
  - intros l' [->|Hin]%elem_of_cons.
    + exists (pc_offset this). split; [lia|]. split; [done|]. split; [lia|]. split.
      * rewrite U2; [|unfold pc_offset; pose proof (GetBufferSize_nonneg (buffer_ this)); lia|lia|].
        { rewrite Eb1. unfold pc_offset. rewrite <- Sb. by apply Load_Emit_pool. }
        by eapply clear_of_below.
      * intros r Hr. destruct (Lb r Hr) as (i & Hi & Hi'). exists i. split; [done|].
        pose proof (proj1 (Forall_forall _ _) Hok1 _ Hr) as Hr'. destruct Hr' as (? & ? & ? & ?).
        unfold LoadInst in *. rewrite U2; [|lia|lia|].
        { rewrite Eb1. by apply Load_EmitBuffer_l. }
        eapply ref_ok_clear; [by repeat split| done|]. intros Hin.
        eapply Hdisj; [|exact Hin]. by apply list_elem_of_fmap_2.
    + assert (l' <> l) as Hne by (intros ->; done).
      destruct (B2 l' Hin) as (p & ? & ? & ? & Hb). exists p.
      destruct (refs_of_insert_ne _ _ _ _ _ El Hne) as (Er' & Ed' & _). rewrite Ed' in *.
      split; [lia|]. split; [done|]. split; [done|]. eapply bound_step; eauto.
      intros r Hr. assert (r ∈ all_refs this ls) as Hra.
      { unfold all_refs. apply list_elem_of_join. exists (refs_of this l'). split; [done|].
        by apply list_elem_of_fmap_2. }
      pose proof (proj1 (Forall_forall _ _) Hok _ Hra) as (? & ? & ? & ?).
      apply Hkeep; [lia|lia|auto].
  - congruence.
Qed.

Lemma RelocBind_loop_spec ls : forall this,
  NoDup ls -> Forall (label_ok this) ls ->
  Forall (ref_ok (pc_offset this)) (all_refs this ls) -> NoDup (offset_ <$> all_refs this ls) ->
  pc_offset this mod 4 = 0 -> pc_offset this + Z.of_nat (length (pool this ls)) < 2 ^ 31 ->
  exists this', RelocBind_loop ls this = Some (tt, this') /\ pool_bound this this' ls.
Proof.
  induction ls as [|l ls IH]; intros this Hnd Hls Hok Hndr Hm Hlt.
  { exists this. split; [done|]. repeat split; [cbn; lia|]. intros l Hl. by apply not_elem_of_nil in Hl. }
  apply NoDup_cons in Hnd as [Hni Hnd]. apply Forall_cons in Hls as [Hl Hls].
  rewrite all_refs_cons in Hok, Hndr. rewrite pool_cons, length_app in Hlt.
  pose proof Hok as [Hok1 Hok2]%Forall_app.
  pose proof Hndr as Hndr'. rewrite fmap_app in Hndr'. apply NoDup_app in Hndr' as (Hnd1 & _ & Hnd2).
  destruct (RelocBind1_spec this l Hl Hok1 Hnd1 ltac:(lia))
    as (t1 & L' & b & E1 & Hlk & Eb & El & _ & Ea).
  destruct (all_refs_insert_ne _ _ _ _ _ El Hni) as [Hr1 Hp1].
  pose proof Hl as (L & _ & Hd & _ & Hsz & Hm4 & _)%label_ok_data_of. rewrite <- Hd in Hsz.
  assert (S1 : pc_offset t1 = pc_offset this + data_size_ L).
  { unfold pc_offset in *. rewrite Eb, GetBufferSize_EmitBuffer. destruct Hlk as [-> _]. lia. }
  destruct (IH t1) as (t2 & E2 & Hp2); [done| | | | | |].
  - eapply Forall_impl; [|intros l' H; exact H]. rewrite Forall_forall in *. intros l' Hin.
    eapply refs_of_insert_ne; eauto. intros ->. done.
  - rewrite Hr1. eapply Forall_impl; [exact Hok2|]. intros r Hr. eapply ref_ok_mono; [exact Hr|lia].
  - by rewrite Hr1.
  - rewrite S1. Z.to_euclidean_division_equations. lia.
  - rewrite Hp1. lia.
  - exists t2. split; [|by eapply pool_bound_cons]. cbn. unfold mbind, asmM_bind. by rewrite E1.
Qed.
