(* ===== verification/AssemblerArm64.v ===== *)
(** The AArch64 assembler ([core/assembler/assembler-arm64.h]) and the literal
    branch generator ([core/codegen/codegen-arm64.cc]).

    Instruction words are bit patterns; [Emit] stores their low 32 bits. The
    build is the release one: [UNREACHABLE()] logs and goes on, so a branch that
    only has it emits nothing; the literal [ldr] then encodes an uninitialised
    operation, which is undefined. *)
From S2P Require Import Prelude UtilityMacro Arm64Const Arm64Kit CodeBuffer Assembler.

Definition Low16Bits (value : Z) : Z := u16 (Z.land value 0xffff).
Definition High16Bits (value : Z) : Z := u16 (Z.shiftr value 16).
Definition Low32Bits (value : Z) : Z := u32 value.
Definition High32Bits (value : Z) : Z := u32 (Z.shiftr value 32).

Definition Rd (rd : CPURegister) : Z := Z.shiftl (reg_code_ rd) kRdShift.
Definition Rt (rt : CPURegister) : Z := Z.shiftl (reg_code_ rt) kRtShift.
Definition Rt2 (rt : CPURegister) : Z := Z.shiftl (reg_code_ rt) kRt2Shift.
Definition Rn (rn : CPURegister) : Z := Z.shiftl (reg_code_ rn) kRnShift.
Definition Rm (rm : CPURegister) : Z := Z.shiftl (reg_code_ rm) kRmShift.

(** ** Operands *)

Record Operand := {
  immediate_ : Z; reg_ : CPURegister; shift_ : Shift; extend_ : Extend; shift_extent_imm_ : Z }.

Definition Operand_imm (imm : Z) : Operand :=
  {| immediate_ := imm; reg_ := InvalidRegister; shift_ := NO_SHIFT; extend_ := NO_EXTEND;
     shift_extent_imm_ := 0 |}.
Definition Operand_shift (reg : CPURegister) (shift : Shift) (shift_imm : Z) : Operand :=
  {| immediate_ := 0; reg_ := reg; shift_ := shift; extend_ := NO_EXTEND;
     shift_extent_imm_ := shift_imm |}.
Definition Operand_extend (reg : CPURegister) (extend : Extend) (shift_imm : Z) : Operand :=
  {| immediate_ := 0; reg_ := reg; shift_ := NO_SHIFT; extend_ := extend;
     shift_extent_imm_ := shift_imm |}.
(** [Operand(rn)]: the default shift is [LSL] by 0. *)
Definition Operand_reg (reg : CPURegister) : Operand := Operand_shift reg LSL 0.

Definition IsImmediate (o : Operand) : bool := Is (reg_ o) InvalidRegister.
Definition IsShiftedRegister (o : Operand) : bool := bool_decide (shift_ o <> NO_SHIFT).
Definition IsExtendedRegister (o : Operand) : bool := bool_decide (extend_ o <> NO_EXTEND).

Record MemOperand := {
  base_ : CPURegister; regoffset_ : CPURegister; moffset_ : Z; mshift_ : Shift;
  mextend_ : Extend; shift_extend_imm_ : Z; addrmode_ : AddrMode }.

Definition MemOperand_imm (b : CPURegister) (offset : Z) (mode : AddrMode) : MemOperand :=
  {| base_ := b; regoffset_ := InvalidRegister; moffset_ := offset; mshift_ := NO_SHIFT;
     mextend_ := NO_EXTEND; shift_extend_imm_ := 0; addrmode_ := mode |}.
Definition MemOperand_extend (b regoffset : CPURegister) (extend : Extend) (extend_imm : Z) : MemOperand :=
  {| base_ := b; regoffset_ := regoffset; moffset_ := 0; mshift_ := NO_SHIFT;
     mextend_ := extend; shift_extend_imm_ := extend_imm; addrmode_ := Offset |}.
Definition MemOperand_shift (b regoffset : CPURegister) (shift : Shift) (shift_imm : Z) : MemOperand :=
  {| base_ := b; regoffset_ := regoffset; moffset_ := 0; mshift_ := shift;
     mextend_ := NO_EXTEND; shift_extend_imm_ := shift_imm; addrmode_ := Offset |}.

Definition IsImmediateOffset (m : MemOperand) : bool := bool_decide (addrmode_ m = Offset).
Definition IsRegisterOffset (m : MemOperand) : bool := bool_decide (addrmode_ m = Offset).
Definition IsPreIndex (m : MemOperand) : bool := bool_decide (addrmode_ m = PreIndex).
Definition IsPostIndex (m : MemOperand) : bool := bool_decide (addrmode_ m = PostIndex).

(** ** [OpEncode] *)

Module OpEncode.
Definition sf (reg : CPURegister) : Z := if Is64Bits reg then LeftShift 1 1 31 else 0.
Definition V (reg : CPURegister) : Z := if IsVRegister reg then LeftShift 1 1 26 else 0.
Definition L (load_or_store : bool) : Z := if load_or_store then LeftShift 1 1 22 else 0.
Definition shift (s : Shift) : Z := LeftShift (Shift_val s) 2 22.

(** [N] is computed and not used by the source. *)
Definition EncodeLogicalImmediate (rd rn : CPURegister) (operand : Operand) : Z :=
  let imm := immediate_ operand in
  let immr := bits imm 0 5 in
  let imms := bits imm 6 11 in
  Z.lor (Z.lor (Z.lor (Z.lor (sf rd) (LeftShift immr 6 16)) (LeftShift imms 6 10)) (Rd rd)) (Rn rn).

Definition EncodeLogicalShift (rd rn : CPURegister) (operand : Operand) : Z :=
  Z.lor (Z.lor (Z.lor (Z.lor (Z.lor (sf rd) (shift (shift_ operand))) (Rm (reg_ operand)))
    (LeftShift (shift_extent_imm_ operand) 6 10)) (Rn rn)) (Rd rd).

Definition LoadStorePair (op : Z) (rt rt2 : CPURegister) (addr : MemOperand) : Z :=
  let opc := bits op 30 31 in
  let scale := if IsRegister rt then 2 + bit opc 1 else if IsVRegister rt then 2 + opc else 2 in
  let imm7 := s32 (Z.shiftr (moffset_ addr) scale) in
  LeftShift imm7 7 15.

Definition scale (op : Z) : Z :=
  if Z.land op LoadStoreUnsignedOffsetFixed =? LoadStoreUnsignedOffsetFixed
  then bits op 30 31 else 0.
End OpEncode.

(** ** [Assembler] *)

Definition EmitWord (value : Z) : asmM unit := fun this =>
  Some (tt, set_buffer (Emit32 (buffer_ this) value) this).
Definition EmitInt64 (value : Z) : asmM unit := fun this =>
  Some (tt, set_buffer (Emit64 (buffer_ this) value) this).
(** [UNREACHABLE()] of the release build. *)
Definition UNREACHABLE : asmM unit := mret tt.

Definition nop : asmM unit := EmitWord 0xD503201F.
Definition brk (code : Z) : asmM unit := EmitWord (Z.lor BRK (LeftShift code 16 5)).
Definition ret : asmM unit := EmitWord 0xD65F03C0.

(** The words, one definition per encoding, and the operations that emit them. *)
Definition adrp_word (rd : CPURegister) (imm : Z) : Z :=
  let immlo := LeftShift (bits (Z.shiftr imm 12) 0 1) 2 29 in
  let immhi := LeftShift (bits (Z.shiftr imm 12) 2 20) 19 5 in
  Z.lor (Z.lor (Z.lor ADRP (Rd rd)) immlo) immhi.
Definition adrp (rd : CPURegister) (imm : Z) : asmM unit := EmitWord (adrp_word rd imm).

Definition AddSubImmediate_word (rd rn : CPURegister) (operand : Operand) (op : Z) : Z :=
  let imm12 := LeftShift (immediate_ operand) 12 10 in
  Z.lor (Z.lor (Z.lor op (Rd rd)) (Rn rn)) imm12.
Definition AddSubImmediate (rd rn : CPURegister) (operand : Operand) (op : Z) : asmM unit :=
  if IsImmediate operand then EmitWord (AddSubImmediate_word rd rn operand op) else UNREACHABLE.

Definition add (rd rn : CPURegister) (imm : Z) : asmM unit :=
  if Is64Bits rd && Is64Bits rn then AddSubImmediate rd rn (Operand_imm imm) ADD_x_imm
  else AddSubImmediate rd rn (Operand_imm imm) ADD_w_imm.
Definition adds (rd rn : CPURegister) (imm : Z) : asmM unit := UNREACHABLE.
Definition sub (rd rn : CPURegister) (imm : Z) : asmM unit :=
  if Is64Bits rd && Is64Bits rn then AddSubImmediate rd rn (Operand_imm imm) SUB_x_imm
  else AddSubImmediate rd rn (Operand_imm imm) SUB_w_imm.
Definition subs (rd rn : CPURegister) (imm : Z) : asmM unit := UNREACHABLE.

Definition b_word (imm : Z) : Z := Z.lor B (bits (Z.shiftr imm 2) 0 25).
Definition b (imm : Z) : asmM unit := EmitWord (b_word imm).
Definition br_word (rn : CPURegister) : Z := Z.lor BR (Rn rn).
Definition br (rn : CPURegister) : asmM unit := EmitWord (br_word rn).
Definition blr_word (rn : CPURegister) : Z := Z.lor BLR (Rn rn).
Definition blr (rn : CPURegister) : asmM unit := EmitWord (blr_word rn).

Definition LoadRegLiteral_word (op : Z) (rt : CPURegister) (imm : Z) : Z :=
  Z.lor (Z.lor op (LeftShift imm 26 5)) (Rt rt).
Definition EmitLoadRegLiteral (op : Z) (rt : CPURegister) (imm : Z) : asmM unit :=
  EmitWord (LoadRegLiteral_word op rt imm).

Definition ldr_literal (rt : CPURegister) (imm : Z) : asmM unit :=
  match reg_type_ rt with
  | kRegister_32 => EmitLoadRegLiteral LDR_w_literal rt imm
  | kRegister_64 => EmitLoadRegLiteral LDR_x_literal rt imm
  | kSIMD_FP_Register_32 => EmitLoadRegLiteral LDR_s_literal rt imm
  | kSIMD_FP_Register_64 => EmitLoadRegLiteral LDR_d_literal rt imm
  | kSIMD_FP_Register_128 => EmitLoadRegLiteral LDR_q_literal rt imm
  | _ => undefined
  end.

Definition LoadStore_word (op : Z) (rt : CPURegister) (addr : MemOperand) : Z :=
  let imm12 := Z.shiftr (moffset_ addr) (OpEncode.scale (Z.lor LoadStoreUnsignedOffsetFixed op)) in
  Z.lor (Z.lor (Z.lor (Z.lor LoadStoreUnsignedOffsetFixed op) (LeftShift imm12 12 10))
    (Rn (base_ addr))) (Rt rt).
Definition LoadStore (op : Z) (rt : CPURegister) (addr : MemOperand) : asmM unit :=
  if IsImmediateOffset addr then EmitWord (LoadStore_word op rt addr)
  else if IsRegisterOffset addr then UNREACHABLE else UNREACHABLE.

Definition ldr_mem (rt : CPURegister) (src : MemOperand) : asmM unit := LoadStore LDR_x rt src.
Definition str (rt : CPURegister) (src : MemOperand) : asmM unit := LoadStore STR_x rt src.

Definition LoadStorePair_word (op : Z) (rt rt2 : CPURegister) (addr : MemOperand) : Z :=
  let combine_fields_op :=
    Z.lor (Z.lor (Z.lor (OpEncode.LoadStorePair op rt rt2 addr) (Rt2 rt2)) (Rn (base_ addr))) (Rt rt) in
  let addrmodeop :=
    if IsImmediateOffset addr then LoadStorePairOffsetFixed
    else if IsPreIndex addr then LoadStorePairPreIndexFixed else LoadStorePairPostIndexFixed in
  Z.lor (Z.lor op addrmodeop) combine_fields_op.
Definition LoadStorePair (op : Z) (rt rt2 : CPURegister) (addr : MemOperand) : asmM unit :=
  EmitWord (LoadStorePair_word op rt rt2 addr).

Definition ldp (rt rt2 : CPURegister) (src : MemOperand) : asmM unit :=
  match reg_type_ rt with
  | kSIMD_FP_Register_128 => LoadStorePair LDP_q rt rt2 src
  | kRegister_64 => LoadStorePair LDP_x rt rt2 src
  | _ => UNREACHABLE
  end.
Definition stp (rt rt2 : CPURegister) (dst : MemOperand) : asmM unit :=
  match reg_type_ rt with
  | kSIMD_FP_Register_128 => LoadStorePair STP_q rt rt2 dst
  | kRegister_64 => LoadStorePair STP_x rt rt2 dst
  | _ => UNREACHABLE
  end.

Definition LogicalImmediate (rd rn : CPURegister) (operand : Operand) (op : Z) : asmM unit :=
  EmitWord (Z.lor op (OpEncode.EncodeLogicalImmediate rd rn operand)).
Definition LogicalShift_word (rd rn : CPURegister) (operand : Operand) (op : Z) : Z :=
  Z.lor (Z.lor op LogicalShiftedFixed) (OpEncode.EncodeLogicalShift rd rn operand).
Definition LogicalShift (rd rn : CPURegister) (operand : Operand) (op : Z) : asmM unit :=
  EmitWord (LogicalShift_word rd rn operand op).
Definition Logical (rd rn : CPURegister) (operand : Operand) (op : Z) : asmM unit :=
  if IsImmediate operand then LogicalImmediate rd rn operand op else LogicalShift rd rn operand op.
Definition orr (rd rn : CPURegister) (operand : Operand) : asmM unit := Logical rd rn operand ORR.

Definition mov (rd rn : CPURegister) : asmM unit :=
  if Is rd SP || Is rn SP then add rd rn 0
  else if Is64Bits rd then orr rd xzr (Operand_reg rn)
  else orr rd wzr (Operand_reg rn).

Definition MoveWide_word (rd : CPURegister) (imm shift op : Z) : Z :=
  let shift := if shift >? 0 then Z.quot shift 16 else 0 in
  let imm16 := LeftShift imm 16 5 in
  Z.lor (Z.lor (Z.lor (Z.lor (Z.lor MoveWideImmediateFixed op) (OpEncode.sf rd))
    (LeftShift shift 2 21)) imm16) (Rd rd).
Definition MoveWide (rd : CPURegister) (imm shift op : Z) : asmM unit :=
  EmitWord (MoveWide_word rd imm shift op).
Definition movk (rd : CPURegister) (imm shift : Z) : asmM unit := MoveWide rd imm shift MOVK.
Definition movn (rd : CPURegister) (imm shift : Z) : asmM unit := MoveWide rd imm shift MOVN.
Definition movz (rd : CPURegister) (imm shift : Z) : asmM unit := MoveWide rd imm shift MOVZ.

(** ** [TurboAssembler] *)

Definition Mov (rd : CPURegister) (imm : Z) : asmM unit :=
  let w0 := Low32Bits imm in
  let w1 := High32Bits imm in
  let h0 := Low16Bits w0 in
  let h1 := High16Bits w0 in
  let h2 := Low16Bits w1 in
  let h3 := High16Bits w1 in
  movz rd h0 0 ;; movk rd h1 16 ;; movk rd h2 32 ;; movk rd h3 48.

Definition CallFunction (address : Z) : asmM unit := Mov TMP_REG_0 address ;; blr TMP_REG_0.

Definition Ldr (rt : CPURegister) (label : nat) : asmM unit := fun this =>
  l ← labels this !! label;
  if negb (relocated_pos_ (base l) =? 0) then
    let offset := s32 (relocated_pos_ (base l) - GetBufferSize (buffer_ this)) in
    ldr_literal rt offset this
  else
    let b' := link_to (base l) kLabelImm19 0 (GetBufferSize (buffer_ this)) in
    ldr_literal rt 0 (set_label label (set_base l b') this).

Definition AdrpAdd (rd : CPURegister) (from to : Z) : asmM unit :=
  let from_PAGE := ALIGN_FLOOR from 0x1000 in
  let to_PAGE := ALIGN_FLOOR to 0x1000 in
  let to_PAGEOFF := to mod 0x1000 in
  adrp rd (s64 (to_PAGE - from_PAGE)) ;; add rd rd to_PAGEOFF.

(** [CodeGen::LiteralLdrBranch]. *)
Definition LiteralLdrBranch (address : Z) : asmM unit :=
  dst_label ← new_label 8 address;
  AppendRelocLabel dst_label ;;
  Ldr TMP_REG_0 dst_label ;;
  br TMP_REG_0.
