(* ===== verification/LiteralPool.v ===== *)
(** Straight-line code with a literal pool: the abstract view of what the
    emitters build with [TurboAssembler] and [RelocBind].

    A program is a list of items, a plain word or an [ldr x17, =v]; [asm_of] its
    the assembler state that holds it, the emitters' operations append items,
    and [RelocBind] lays the literals behind the code. *)
From S2P Require Import Prelude UtilityMacro Arm64Const Arm64Kit CodeBuffer Assembler AssemblerArm64.

Inductive item := Word (w : Z) | Lit (v : Z).

(** [ldr x17, #0], the instruction before it is linked. *)
Definition ldr_x17 : Z := 0x58000011.

Definition item_word (i : item) : Z := match i with Word w => w | Lit _ => ldr_x17 end.

Definition code_bytes (its : list item) : list byte := mjoin ((fun i => le_bytes 4 (item_word i)) <$> its).

(** The label of a literal load at word [k], not bound yet. *)
Definition lit_label (k : nat) (v : Z) : RelocLabel :=
  set_base (newRelocLabel 8 v) (link_to (newAssemblerPseudoLabel 0) kLabelImm19 0 (4 * Z.of_nat k)).

Fixpoint lits_from (k : nat) (its : list item) : list RelocLabel :=
  match its with
  | [] => []
  | Word _ :: its => lits_from (S k) its
  | Lit v :: its => lit_label k v :: lits_from (S k) its
  end.
Abbreviation lits := (lits_from 0).

Definition asm_of (address : Z) (its : list item) : AssemblerBase :=
  {| buffer_ := code_bytes its; labels := lits its;
     data_labels_ := seq 0 (length (lits its)); realized_addr_ := address |}.

Lemma code_bytes_cons i its : code_bytes (i :: its) = le_bytes 4 (item_word i) ++ code_bytes its.
Proof. reflexivity. Qed.

Lemma code_bytes_one i : code_bytes [i] = le_bytes 4 (item_word i).
Proof. by rewrite code_bytes_cons, app_nil_r. Qed.

Lemma length_code_bytes its : length (code_bytes its) = (4 * length its)%nat.
Proof.
  induction its as [|i its IH]; [done|].
  rewrite code_bytes_cons, length_app, length_le_bytes, IH. cbn. lia.
Qed.

Lemma code_bytes_app its js : code_bytes (its ++ js) = code_bytes its ++ code_bytes js.
Proof. unfold code_bytes. by rewrite fmap_app, join_app. Qed.

Lemma code_bytes_range its : Forall is_byte (code_bytes its).
Proof.
  induction its as [|i its IH]; [constructor|]. rewrite code_bytes_cons.
  apply Forall_app; auto using le_bytes_Forall.
Qed.

Lemma lits_from_app k its js :
  lits_from k (its ++ js) = lits_from k its ++ lits_from (k + length its) js.
Proof.
  revert k. induction its as [|[w|v] its IH]; intros k; cbn.
  - by rewrite Nat.add_0_r.
  - rewrite IH. by rewrite Nat.add_succ_r.
  - rewrite IH. cbn. by rewrite Nat.add_succ_r.
Qed.

Lemma asm_of_nil address : newAssembler address = asm_of address [].
Proof. reflexivity. Qed.

Lemma pc_offset_asm_of address its : pc_offset (asm_of address its) = 4 * Z.of_nat (length its).
Proof. unfold pc_offset, GetBufferSize. cbn. rewrite length_code_bytes. lia. Qed.

(** The assembler operations append items. *)
Lemma EmitWord_asm_of address its w :
  EmitWord w (asm_of address its) = Some (tt, asm_of address (its ++ [Word w])).
Proof.
  unfold EmitWord, asm_of, set_buffer. cbn -[le_bytes]. do 2 f_equal.
  rewrite code_bytes_app, code_bytes_one, lits_from_app. cbn -[le_bytes]. by rewrite app_nil_r.
Qed.

(** Allocating a label for a literal and loading it: the sequence every emitter
    uses. *)
Definition load_literal (v : Z) : asmM unit :=
  dst_label ← new_label 8 v;
  AppendRelocLabel dst_label ;;
  Ldr TMP_REG_0 dst_label.

Lemma load_literal_asm_of address its v :
  load_literal v (asm_of address its) = Some (tt, asm_of address (its ++ [Lit v])).
Proof.
  unfold load_literal, mbind, asmM_bind, new_label, AppendRelocLabel, Ldr. cbn -[le_bytes newRelocLabel].
  rewrite lookup_app_r by lia. rewrite Nat.sub_diag. cbn -[le_bytes newRelocLabel].
  unfold EmitLoadRegLiteral, EmitWord, set_buffer, set_label, asm_of. cbn -[le_bytes newRelocLabel code_bytes].
  do 2 f_equal. rewrite code_bytes_app, lits_from_app, length_app.
  f_equal.
  - rewrite insert_app_r_alt by lia. rewrite Nat.sub_diag. cbn -[newRelocLabel]. f_equal.
    unfold lit_label, GetBufferSize. rewrite length_code_bytes.
    do 3 f_equal. lia.
  - cbn. rewrite seq_app. done.
Qed.

Lemma asmM_bind_eq {A B} (m : asmM A) (f : A -> asmM B) s a s' :
  m s = Some (a, s') -> mbind f m s = f a s'.
Proof. intros E. unfold mbind, asmM_bind. by rewrite E. Qed.

Lemma LiteralLdrBranch_asm_of address its v :
  LiteralLdrBranch v (asm_of address its) =
  Some (tt, asm_of address (its ++ [Lit v; Word (br_word TMP_REG_0)])).
Proof.
  change (LiteralLdrBranch v (asm_of address its))
    with ((load_literal v ;; br TMP_REG_0) (asm_of address its)).
  erewrite asmM_bind_eq by apply load_literal_asm_of. unfold br.
  by rewrite EmitWord_asm_of, <- app_assoc.
Qed.

(** ** The laid out code *)

Definition laid_out (b : CodeBufferBase) (its : list item) : Prop :=
  GetBufferSize b = 4 * Z.of_nat (length its) + 8 * Z.of_nat (length (lits its)) /\
  forall k i, its !! k = Some i ->
    match i with
    | Word w => LoadInst b (4 * Z.of_nat k) = Some (u32 w)
    | Lit v => exists p, p mod 4 = 0 /\ 4 * Z.of_nat (length its) <= p /\
        p + 8 <= GetBufferSize b /\
        LoadInst b (4 * Z.of_nat k) = Some (encode_imm19_offset ldr_x17 (p - 4 * Z.of_nat k)) /\
        Load 8 b p = Some (u64 v)
    end.

Lemma item_word_lookup its k i :
  its !! k = Some i ->
  LoadInst (code_bytes its) (4 * Z.of_nat k) = Some (u32 (item_word i)).
Proof.
  intros H. pose proof H as Hlt%lookup_lt_Some.
  rewrite <- (take_drop_middle its k i H).
  rewrite code_bytes_app, code_bytes_cons.
  assert (E : 4 * Z.of_nat k = GetBufferSize (code_bytes (take k its))).
  { unfold GetBufferSize. rewrite length_code_bytes, length_take. lia. }
  rewrite E. unfold LoadInst. rewrite app_assoc.
  apply Load_EmitBuffer_l. change (_ ++ le_bytes 4 (item_word i))
    with (Emit 4 (code_bytes (take k its)) (item_word i)).
  by rewrite Load_Emit_last.
Qed.

(** The label of the literal load at word [k] is in the store. *)
Lemma lits_from_lookup n its k v :
  its !! k = Some (Lit v) -> exists l, lits_from n its !! l = Some (lit_label (n + k) v).
Proof.
  revert n k. induction its as [|i its IH]; intros n k H; [done|].
  destruct k as [|k].
  - injection H as ->. exists 0%nat. cbn. by rewrite Nat.add_0_r.
  - destruct (IH (S n) k H) as [l Hl]. rewrite Nat.add_succ_r. destruct i; cbn.
    + by exists l.
    + by exists (S l).
Qed.

Lemma lits_from_inv n its l L :
  lits_from n its !! l = Some L ->
  exists k v, its !! k = Some (Lit v) /\ L = lit_label (n + k) v.
Proof.
  revert n l. induction its as [|i its IH]; intros n l H; [done|].
  destruct i as [w|v]; cbn in H.
  - destruct (IH _ _ H) as (k & v & ? & ->). exists (S k), v. by rewrite Nat.add_succ_r.
  - destruct l as [|l].
    + injection H as <-. exists 0%nat, v. by rewrite Nat.add_0_r.
    + destruct (IH _ _ H) as (k & v' & ? & ->). exists (S k), v'. by rewrite Nat.add_succ_r.
Qed.

Lemma fmap_seq_lookup {A B} (f : nat -> B) (g : A -> B) (l : list A) :
  (forall i x, l !! i = Some x -> f i = g x) -> f <$> seq 0 (length l) = g <$> l.
Proof.
  intros H. apply list_eq. intros i. rewrite !list_lookup_fmap.
  destruct (l !! i) as [x|] eqn:E.
  - rewrite lookup_seq_lt by (by eapply lookup_lt_Some). cbn. f_equal. by apply H.
  - rewrite lookup_seq_ge by (by apply lookup_ge_None). done.
Qed.

Lemma refs_of_asm_of a its l L :
  lits its !! l = Some L -> refs_of (asm_of a its) l = ref_label_insts_ (base L) /\
  data_of (asm_of a its) l = data_ L.
Proof. intros E. unfold refs_of, data_of. cbn. by rewrite E. Qed.

Definition lit_offset (L : RelocLabel) : list Z := offset_ <$> ref_label_insts_ (base L).

Lemma offsets_sorted n its :
  NoDup (offset_ <$> mjoin ((fun L => ref_label_insts_ (base L)) <$> lits_from n its)) /\
  forall o, o ∈ offset_ <$> mjoin ((fun L => ref_label_insts_ (base L)) <$> lits_from n its) ->
    4 * Z.of_nat n <= o < 4 * Z.of_nat (n + length its) /\ o mod 4 = 0.
Proof.
  revert n. induction its as [|i its IH]; intros n; cbn.
  { split; [constructor|]. intros o Ho. by apply not_elem_of_nil in Ho. }
  destruct (IH (S n)) as [Hnd Hr]. destruct i as [w|v]; cbn.
  - split; [done|]. intros o Ho. destruct (Hr o Ho). split; [lia|done].
  - split.
    + constructor; [|done]. intros Hin. destruct (Hr _ Hin). lia.
    + intros o [->|Ho]%elem_of_cons.
      * split; [lia|]. rewrite Z.mul_comm. by apply Z.mod_mul.
      * destruct (Hr o Ho). split; [lia|done].
Qed.

Lemma pool_length n its :
  length (mjoin (data_ <$> lits_from n its)) = (8 * length (lits_from n its))%nat.
Proof.
  revert n. induction its as [|i its IH]; intros n; [done|].
  destruct i; cbn -[le_bytes]; [by rewrite IH|].
  rewrite length_app, length_le_bytes, IH. lia.
Qed.

Lemma asm_of_refs a its :
  all_refs (asm_of a its) (seq 0 (length (lits its))) =
    mjoin ((fun L => ref_label_insts_ (base L)) <$> lits its) /\
  pool (asm_of a its) (seq 0 (length (lits its))) = mjoin (data_ <$> lits its).
Proof.
  unfold all_refs, pool. split; f_equal; apply fmap_seq_lookup; intros i x E;
    by apply (refs_of_asm_of a) in E as [? ?].
Qed.

Lemma refs_of_lits_ok its :
  Forall (ref_ok (4 * Z.of_nat (length its)))
    (mjoin ((fun L => ref_label_insts_ (base L)) <$> lits its)).
Proof.
  apply Forall_forall. intros r Hr.
  assert (Ho : offset_ r ∈ offset_ <$> mjoin ((fun L => ref_label_insts_ (base L)) <$> lits its))
    by (by apply list_elem_of_fmap_2).
  apply (proj2 (offsets_sorted 0 its)) in Ho as [Ho Hm].
  apply list_elem_of_join in Hr as (rs & Hr & Hrs).
  apply list_elem_of_fmap in Hrs as (L & -> & HL).
  apply list_elem_of_lookup in HL as [l HL].
  apply lits_from_inv in HL as (k & v & _ & ->). cbn in Hr.
  apply list_elem_of_singleton in Hr. subst r. cbn [offset_] in Ho, Hm.
  unfold ref_ok. cbn [offset_ type_]. repeat split; [lia|done|].
  clear Hm. lia.
Qed.

Lemma lits_ok a its l : (l < length (lits its))%nat -> label_ok (asm_of a its) l.
Proof.
  intros [L E]%lookup_lt_is_Some. exists L. split; [done|].
  apply lits_from_inv in E as (k & v & _ & ->). cbn -[le_bytes].
  rewrite length_le_bytes. repeat split. apply le_bytes_Forall.
Qed.

(** Binding the labels of an item list lays it out. *)
Lemma RelocBind_asm_of a its :
  4 * Z.of_nat (length its) + 8 * Z.of_nat (length (lits its)) < 2 ^ 31 ->
  exists asm', RelocBind (asm_of a its) = Some (tt, asm') /\
    laid_out (buffer_ asm') its /\ realized_addr_ asm' = a.
Proof.
  intros Hlt. destruct (asm_of_refs a its) as [Er Ep].
  pose proof (pool_length 0 its) as Hpl.
  destruct (RelocBind_loop_spec (seq 0 (length (lits its))) (asm_of a its))
    as (asm' & E & S & U & Bd & R).
  - apply NoDup_seq.
  - apply Forall_forall. intros l Hl%elem_of_seq. apply lits_ok. lia.
  - rewrite Er, pc_offset_asm_of. apply refs_of_lits_ok.
  - rewrite Er. apply offsets_sorted.
  - rewrite pc_offset_asm_of, Z.mul_comm. by apply Z.mod_mul.
  - rewrite pc_offset_asm_of, Ep, Hpl. lia.
  - exists asm'. split; [exact E|]. split; [|done].
    rewrite pc_offset_asm_of in *. rewrite Ep, Hpl in S. rewrite Er in U. unfold pc_offset in S.
    split; [lia|]. intros k i Hk. pose proof (item_word_lookup its k i Hk) as Hw.
    pose proof Hk as Hkl%lookup_lt_Some.
    destruct i as [w|v].
    + unfold LoadInst in *. rewrite U; [exact Hw|lia|lia|].
      intros r Hr. apply list_elem_of_join in Hr as (rs & Hr & Hrs).
      apply list_elem_of_fmap in Hrs as (L & -> & HL).
      apply list_elem_of_lookup in HL as [l HL].
      apply lits_from_inv in HL as (k' & v & Hk' & ->). cbn in Hr.
      apply list_elem_of_singleton in Hr as ->. cbn.
      assert (k <> k') by (intros ->; congruence). lia.
    + destruct (lits_from_lookup 0 its k v Hk) as [l Hl]. cbn in Hl.
      destruct (Bd l) as (p & ? & ? & ? & Hd & Hr).
      { apply elem_of_seq. apply lookup_lt_Some in Hl. cbn in Hl. lia. }
      destruct (refs_of_asm_of a its l _ Hl) as [Hrl Hdl]. rewrite Hrl in Hr. rewrite Hdl in Hd, H1.
      cbn -[le_bytes] in Hd, H1, Hr. rewrite length_le_bytes in Hd, H1.
      exists p. split; [done|]. split; [lia|]. split; [unfold pc_offset in *; lia|].
      rewrite le_val_bytes in Hd. split; [|exact Hd].
      destruct (Hr {| type_ := kLabelImm19; vmaddr_ := 0; offset_ := 4 * Z.of_nat k |}) as (i & Hi & Hi').
      { set_solver. }
      cbn in Hi, Hi'. rewrite Hi in Hw. injection Hw as ->. exact Hi'.
Qed.
