(* ===== verification/Arm64Isa.v ===== *)
(** The meaning of the AArch64 instructions that the hooking engine emits and
    relocates, after the Arm architecture reference manual: the specification
    side of the code generators' theorems, not a model of the repository.

    Decoding reads the fields of a word; an instruction outside the list is
    [IOther] and its effect, which does not depend on the program counter, is a
    parameter. *)
From S2P Require Import Prelude UtilityMacro Arm64Kit.

Inductive instr :=
| IB (off : Z) | IBL (off : Z) | IBR (n : Z) | IBLR (n : Z) | IRET (n : Z)
| IBcond (c off : Z)
| ICB (x64 nz : bool) (t off : Z)
| ITB (nz : bool) (pos t off : Z)
| IADR (d off : Z) | IADRP (d off : Z)
| ILDRlit (x64 : bool) (t off : Z)
| IPCRelOther (w : Z)
| IMOVZ (x64 : bool) (d imm hw : Z) | IMOVK (x64 : bool) (d imm hw : Z)
| IADD (x64 : bool) (d n imm : Z)
| ILDR (t n off : Z)
| IOther (w : Z).

Definition Zbool (z : Z) : bool := negb (z =? 0).

(** Word offsets of the branch and literal immediates. *)
Definition soff (n imm : Z) : Z := sext (n + 2) (4 * imm).

(** The classes that do not look at the program counter, and the branches to
    a register. *)
Definition decode_rest (w : Z) : instr :=
  if bits w 23 30 =? 0xA5 then
    IMOVZ (Zbool (bits w 31 31)) (bits w 0 4) (bits w 5 20) (bits w 21 22)
  else if bits w 23 30 =? 0xE5 then
    IMOVK (Zbool (bits w 31 31)) (bits w 0 4) (bits w 5 20) (bits w 21 22)
  else if (bits w 22 30 =? 0x44) then
    IADD (Zbool (bits w 31 31)) (bits w 0 4) (bits w 5 9) (bits w 10 21)
  else if (bits w 22 31 =? 0x3E5) then
    ILDR (bits w 0 4) (bits w 5 9) (8 * bits w 10 21)
  else if (bits w 10 31 =? 0x3587C0) && (bits w 0 4 =? 0) then IBR (bits w 5 9)
  else if (bits w 10 31 =? 0x358FC0) && (bits w 0 4 =? 0) then IBLR (bits w 5 9)
  else if (bits w 10 31 =? 0x3597C0) && (bits w 0 4 =? 0) then IRET (bits w 5 9)
  else IOther w.

Definition decode (w : Z) : instr :=
  if bits w 26 30 =? 0x5 then
    if Zbool (bits w 31 31) then IBL (soff 26 (bits w 0 25)) else IB (soff 26 (bits w 0 25))
  else if (bits w 24 31 =? 0x54) then IBcond (bits w 0 3) (soff 19 (bits w 5 23))
  else if bits w 25 30 =? 0x1A then
    ICB (Zbool (bits w 31 31)) (Zbool (bits w 24 24)) (bits w 0 4) (soff 19 (bits w 5 23))
  else if bits w 25 30 =? 0x1B then
    ITB (Zbool (bits w 24 24)) (bits w 19 23 + 32 * bits w 31 31) (bits w 0 4) (soff 14 (bits w 5 18))
  else if bits w 24 28 =? 0x10 then
    let imm := sext 21 (bits w 29 30 + 4 * bits w 5 23) in
    if Zbool (bits w 31 31) then IADRP (bits w 0 4) (4096 * imm) else IADR (bits w 0 4) imm
  else if (bits w 27 29 =? 3) && (bits w 24 25 =? 0) then
    if (bits w 26 26 =? 0) && (bits w 31 31 =? 0)
    then ILDRlit (Zbool (bits w 30 30)) (bits w 0 4) (soff 19 (bits w 5 23))
    else IPCRelOther w
  else decode_rest w.

(** ** Processor state *)

Record flags := { fN : bool; fZ : bool; fC : bool; fV : bool }.

(** General registers, stack pointer, flags and byte memory. *)
Record core := { xr : Z -> Z; sp : Z; fl : flags; mem : Z -> byte }.

(** Register 31 is the zero register or the stack pointer, by operand. *)
Definition get_x (c : core) (r : Z) : Z := if r =? 31 then 0 else xr c r.
Definition get_xsp (c : core) (r : Z) : Z := if r =? 31 then sp c else xr c r.
Definition upd (f : Z -> Z) (r v : Z) : Z -> Z := fun k => if k =? r then v else f k.
Definition set_x (r v : Z) (c : core) : core :=
  if r =? 31 then c else {| xr := upd (xr c) r v; sp := sp c; fl := fl c; mem := mem c |}.
Definition set_xsp (r v : Z) (c : core) : core :=
  if r =? 31 then {| xr := xr c; sp := v; fl := fl c; mem := mem c |} else set_x r v c.

Fixpoint read_bytes (m : Z -> byte) (a : Z) (n : nat) : list byte :=
  match n with O => [] | S n => m a :: read_bytes m (a + 1) n end.
Definition read (m : Z -> byte) (a : Z) (n : nat) : Z := le_val (read_bytes m a n).

(** [ConditionHolds]. *)
Definition cond_holds (c : Z) (f : flags) : bool :=
  let r :=
    match bits c 1 3 with
    | 0 => fZ f | 1 => fC f | 2 => fN f | 3 => fV f
    | 4 => fC f && negb (fZ f)
    | 5 => eqb (fN f) (fV f)
    | 6 => eqb (fN f) (fV f) && negb (fZ f)
    | _ => true
    end in
  if Zbool (bit c 0) && negb (c =? 15) then negb r else r.

Definition wtrunc (x64 : bool) (v : Z) : Z := trunc (if x64 then 64 else 32) v.

Section Exec.
Context (other : Z -> core -> option core).

(** One instruction at address [pc]. *)
Definition exec (i : instr) (pc : Z) (c : core) : option (Z * core) :=
  let next c' := Some (u64 (pc + 4), c') in
  match i with
  | IB off => Some (u64 (pc + off), c)
  | IBL off => Some (u64 (pc + off), set_x 30 (u64 (pc + 4)) c)
  | IBR n | IRET n => Some (get_x c n, c)
  | IBLR n => Some (get_x c n, set_x 30 (u64 (pc + 4)) c)
  | IBcond k off => if cond_holds k (fl c) then Some (u64 (pc + off), c) else next c
  | ICB x64 nz t off =>
      if xorb nz (wtrunc x64 (get_x c t) =? 0) then Some (u64 (pc + off), c) else next c
  | ITB nz pos t off =>
      if xorb nz (negb (Z.testbit (get_x c t) pos)) then Some (u64 (pc + off), c) else next c
  | IADR d off => next (set_x d (u64 (pc + off)) c)
  | IADRP d off => next (set_x d (u64 (4096 * (pc / 4096) + off)) c)
  | ILDRlit x64 t off =>
      next (set_x t (read (mem c) (u64 (pc + off)) (if x64 then 8 else 4)) c)
  | IPCRelOther _ => None
  | IMOVZ x64 d imm hw => next (set_x d (wtrunc x64 (imm * 2 ^ (16 * hw))) c)
  | IMOVK x64 d imm hw =>
      let v := get_x c d in
      next (set_x d (wtrunc x64
        (v - (v / 2 ^ (16 * hw)) mod 2 ^ 16 * 2 ^ (16 * hw) + imm * 2 ^ (16 * hw))) c)
  | IADD x64 d n imm => next (set_xsp d (wtrunc x64 (get_xsp c n + imm)) c)
  | ILDR t n off => next (set_x t (read (mem c) (u64 (get_xsp c n + off)) 8) c)
  | IOther w => match other w c with Some c' => next c' | None => None end
  end.

(** Fetch, decode, execute; [steps] is any number of them. *)
Definition step (s : Z * core) : option (Z * core) :=
  exec (decode (read (mem s.2) s.1 4)) s.1 s.2.

Inductive steps : Z * core -> Z * core -> Prop :=
| steps_refl s : steps s s
| steps_step s s' s'' : step s = Some s' -> steps s' s'' -> steps s s''.

Lemma steps_trans s s' s'' : steps s s' -> steps s' s'' -> steps s s''.
Proof. induction 1; intros; [done|]. econstructor; eauto. Qed.

Lemma steps_one s s' : step s = Some s' -> steps s s'.
Proof. intros. econstructor; [done|constructor]. Qed.
End Exec.

(** ** Code in memory *)

(** [code_at m a b]: the bytes [b] are at address [a]. *)
Definition code_at (m : Z -> byte) (a : Z) (b : list byte) : Prop :=
  forall i x, b !! i = Some x -> m (a + Z.of_nat i) = x.

Lemma read_bytes_slice m a n : forall b,
  (forall i x, b !! i = Some x -> m (a + Z.of_nat i) = x) -> (n <= length b)%nat ->
  read_bytes m a n = take n b.
Proof.
  revert a. induction n as [|n IH]; intros a b H Hn; [done|].
  destruct b as [|x b]; cbn in Hn; [lia|]. cbn. f_equal.
  - rewrite <- (H 0%nat x) by done. f_equal. lia.
  - apply IH; [|lia]. intros i y Hi. rewrite <- (H (S i) y) by done. f_equal. lia.
Qed.

Lemma code_at_drop m a b k : code_at m a b -> code_at m (a + Z.of_nat k) (drop k b).
Proof. intros H i x Hi. rewrite lookup_drop in Hi. rewrite <- (H _ _ Hi). f_equal. lia. Qed.

(** A scalar of the code is read back from memory. *)
Lemma code_at_read m a b o n :
  code_at m a b -> 0 <= o -> o + Z.of_nat n <= Z.of_nat (length b) ->
  read m (a + o) n = le_val (slice (Z.to_nat o) n b).
Proof.
  intros H ? ?. unfold read, slice. f_equal.
  replace (a + o) with (a + Z.of_nat (Z.to_nat o)) by lia.
  apply read_bytes_slice; [|rewrite length_drop; lia].
  by apply code_at_drop.
Qed.
