(* ===== verification/Arm64Emit.v ===== *)
(** The words the assembler emits decode to the instructions it names. *)
From S2P Require Import Prelude UtilityMacro Arm64Const Arm64Kit CodeBuffer Assembler AssemblerArm64 Arm64Isa.
From S2P Require Import LiteralPool.

(** [decode_word] evaluates the decoder on a disjunction of fields;
    [constant c] replaces an opcode constant by its value. *)
Ltac decode_word := unfold decode, decode_rest; fields; cbn [Z.eqb Pos.eqb andb Zbool negb]; cbv zeta.
Ltac constant c := let v := eval vm_compute in c in change c with v.

Lemma reg_field r : 0 <= r < 32 -> 0 <= r < 2 ^ 5.
Proof. lia. Qed.

Lemma decode_br r : 0 <= r < 32 -> decode (u32 (br_word (X r))) = IBR r.
Proof.
  intros H%reg_field. unfold br_word, Rn, X, kRnShift. cbn [reg_code_].
  constant BR. decode_word. reflexivity.
Qed.

Lemma decode_blr r : 0 <= r < 32 -> decode (u32 (blr_word (X r))) = IBLR r.
Proof.
  intros H%reg_field. unfold blr_word, Rn, X, kRnShift. cbn [reg_code_].
  constant BLR. decode_word. reflexivity.
Qed.

Lemma decode_b off :
  off mod 4 = 0 -> - 2 ^ 27 <= off < 2 ^ 27 -> decode (u32 (b_word off)) = IB off.
Proof.
  intros Ha Hr. unfold b_word. constant B.
  pose proof (bits_range (Z.shiftr off 2) 0 25 ltac:(lia)) as H. cbn in H.
  change (67108864) with (2 ^ 26) in H.
  set (i := bits (Z.shiftr off 2) 0 25) in *. decode_word. f_equal.
  unfold soff, i. rewrite bits_div, Z.div_1_r by lia. rewrite Z.shiftr_div_pow2 by lia.
  apply (sext_scaled_field 26); lia.
Qed.

Lemma MoveWide_word_fields d imm hw op :
  0 <= hw < 4 ->
  MoveWide_word (X d) imm (16 * hw) op =
  Z.lor (Z.lor (Z.lor (Z.lor (Z.lor MoveWideImmediateFixed op) (2 ^ 31)) (Z.shiftl hw 21))
    (Z.shiftl (trunc 16 imm) 5)) (Z.shiftl d 0).
Proof.
  intros. unfold MoveWide_word. cbv zeta. rewrite !LeftShift_alt by lia.
  do 2 f_equal. f_equal. f_equal.
  assert (hw = 0 \/ hw = 1 \/ hw = 2 \/ hw = 3) as [->|[->|[->| ->]]] by lia; reflexivity.
Qed.

Lemma decode_movz d imm hw :
  0 <= d < 32 -> 0 <= imm < 2 ^ 16 -> 0 <= hw < 4 ->
  decode (u32 (MoveWide_word (X d) imm (16 * hw) MOVZ)) = IMOVZ true d imm hw.
Proof.
  intros Hd%reg_field Hi Hh. rewrite MoveWide_word_fields, (trunc_small 16 imm) by lia.
  change (0 <= hw < 2 ^ 2) in Hh.
  constant (Z.lor (Z.lor MoveWideImmediateFixed MOVZ) (2 ^ 31)). decode_word. reflexivity.
Qed.

Lemma decode_movk d imm hw :
  0 <= d < 32 -> 0 <= imm < 2 ^ 16 -> 0 <= hw < 4 ->
  decode (u32 (MoveWide_word (X d) imm (16 * hw) MOVK)) = IMOVK true d imm hw.
Proof.
  intros Hd%reg_field Hi Hh. rewrite MoveWide_word_fields, (trunc_small 16 imm) by lia.
  change (0 <= hw < 2 ^ 2) in Hh.
  constant (Z.lor (Z.lor MoveWideImmediateFixed MOVK) (2 ^ 31)). decode_word. reflexivity.
Qed.

Lemma decode_add_imm d n imm :
  0 <= d < 32 -> 0 <= n < 32 -> 0 <= imm < 2 ^ 12 ->
  decode (u32 (AddSubImmediate_word (X d) (X n) (Operand_imm imm) ADD_x_imm)) = IADD true d n imm.
Proof.
  intros Hd%reg_field Hn%reg_field Hi. unfold AddSubImmediate_word, Rd, Rn, X, kRnShift, kRdShift.
  cbn [reg_code_ Operand_imm immediate_]. rewrite LeftShift_alt, (trunc_small 12 imm) by lia.
  constant ADD_x_imm. decode_word. reflexivity.
Qed.

Lemma decode_ldr_mem t n off :
  0 <= t < 32 -> 0 <= n < 32 -> 0 <= off < 2 ^ 15 -> off mod 8 = 0 ->
  decode (u32 (LoadStore_word LDR_x (X t) (MemOperand_imm (X n) off Offset))) = ILDR t n off.
Proof.
  intros Ht%reg_field Hn%reg_field Ho Ha.
  unfold LoadStore_word, Rt, Rn, X, kRnShift, kRtShift. cbv zeta.
  constant (OpEncode.scale (Z.lor LoadStoreUnsignedOffsetFixed LDR_x)).
  cbn [reg_code_ MemOperand_imm moffset_ base_]. rewrite LeftShift_alt by lia.
  rewrite Z.shiftr_div_pow2 by lia. change (2 ^ 3) with 8.
  assert (Hq : 0 <= off / 8 < 2 ^ 12) by (Z.to_euclidean_division_equations; lia).
  rewrite (trunc_small 12 (off / 8)) by lia. set (q := off / 8) in *.
  constant (Z.lor LoadStoreUnsignedOffsetFixed LDR_x). decode_word. f_equal.
  unfold q. Z.to_euclidean_division_equations. lia.
Qed.

(** The page delta of [adrp] is read back when it fits the 21-bit field. *)
Lemma decode_adrp d imm :
  0 <= d < 32 -> imm mod 4096 = 0 -> - 2 ^ 32 <= imm < 2 ^ 32 ->
  decode (u32 (adrp_word (X d) imm)) = IADRP d imm.
Proof.
  intros Hd%reg_field Ha Hr. unfold adrp_word, Rd, X, kRdShift. cbn [reg_code_]. cbv zeta.
  rewrite !LeftShift_alt by lia. rewrite Z.shiftr_div_pow2 by lia.
  set (p := imm / 2 ^ 12). rewrite !bits_div by lia.
  rewrite !(trunc_small _ (_ mod _)) by (apply Z.mod_pos_bound; lia).
  set (lo := p / 2 ^ 0 mod _). set (hi := p / 2 ^ 2 mod _).
  assert (Hlo : 0 <= lo < 2 ^ 2) by (apply Z.mod_pos_bound; lia).
  assert (Hhi : 0 <= hi < 2 ^ 19) by (apply Z.mod_pos_bound; lia).
  assert (E : lo + 4 * hi = trunc 21 p).
  { unfold lo, hi, trunc. rewrite Z.div_1_r. change (2 ^ 21) with (2 ^ 2 * 2 ^ 19).
    by rewrite Z.rem_mul_r by lia. }
  assert (Ep : imm = 4096 * p).
  { unfold p. change (2 ^ 12) with 4096. clear - Ha. Z.to_euclidean_division_equations. lia. }
  clearbody lo hi p. constant ADRP.
  assert (Hd' : decode (u32 (Z.lor (Z.lor (Z.lor 0x90000000 (Z.shiftl d 0)) (Z.shiftl lo 29)) (Z.shiftl hi 5)))
            = IADRP d (4096 * sext 21 (lo + 4 * hi))).
  { assert (lo = 0 \/ lo = 1 \/ lo = 2 \/ lo = 3) as [->|[->|[->| ->]]] by lia;
      match goal with |- context [Z.shiftl ?k 29] => constant (Z.shiftl k 29) end;
      decode_word; reflexivity. }
  rewrite Hd', E, sext_trunc, sext_small by lia. by rewrite Ep.
Qed.

(** The linked literal load. *)
Lemma decode_ldr_x17 off :
  off mod 4 = 0 -> - 2 ^ 20 <= off < 2 ^ 20 ->
  decode (encode_imm19_offset ldr_x17 off) = ILDRlit true 17 off.
Proof.
  intros Ha Hr. pose proof (decode_encode_imm19 ldr_x17 off Ha Hr) as E.
  rewrite decode_imm19_sext in E. unfold encode_imm19_offset in *. cbv zeta in *.
  set (v := u32 (bits (Z.shiftr off 2) 0 18)) in *.
  assert (Hv : 0 <= v < 2 ^ 19).
  { unfold v. pose proof (bits_range (Z.shiftr off 2) 0 18 ltac:(lia)) as H.
    rewrite (trunc_small 32) by lia. exact H. }
  set (w := set_bits ldr_x17 5 23 v) in *.
  assert (Ho : forall a b, 0 <= a <= b -> b < 32 -> b < 5 \/ 23 < a -> bits w a b = bits ldr_x17 a b).
  { intros. unfold w. by rewrite bits_set_bits_other by lia. }
  unfold decode, decode_rest. rewrite (Ho 26 30), (Ho 24 31), (Ho 25 30), (Ho 24 28), (Ho 27 29), (Ho 24 25),
    (Ho 26 26), (Ho 31 31), (Ho 30 30), (Ho 0 4) by lia. constant ldr_x17.
  repeat const_field. cbn [Z.eqb Pos.eqb andb Zbool negb]. unfold soff.
  change (19 + 2) with 21. by rewrite E.
Qed.
