(* ===== verification/Arm64Run.v ===== *)
(** Running code that the assembler laid out: one lemma per emitted sequence. *)
From S2P Require Import Prelude UtilityMacro Arm64Const Arm64Kit CodeBuffer Assembler AssemblerArm64 Arm64Isa.
From S2P Require Import LiteralPool Arm64Emit.
From Stdlib Require Import FunctionalExtensionality.

Lemma upd_shadow f r v w : upd (upd f r v) r w = upd f r w.
Proof. apply functional_extensionality. intros k. unfold upd. by destruct (k =? r). Qed.

Lemma upd_same f r v : upd f r v r = v.
Proof. unfold upd. by rewrite Z.eqb_refl. Qed.

Lemma set_x_shadow r v w c : set_x r w (set_x r v c) = set_x r w c.
Proof. unfold set_x. destruct (r =? 31); [done|]. cbn. by rewrite upd_shadow. Qed.

Lemma get_set_x r v c : r <> 31 -> get_x (set_x r v c) r = v.
Proof.
  intros. unfold get_x, set_x. destruct (Z.eqb_spec r 31); [done|]. cbn. apply upd_same.
Qed.

Lemma get_xsp_set_x r v c : r <> 31 -> get_xsp (set_x r v c) r = v.
Proof.
  intros. unfold get_xsp, set_x. destruct (Z.eqb_spec r 31); [done|]. cbn. apply upd_same.
Qed.

Lemma mem_set_x r v c : mem (set_x r v c) = mem c.
Proof. unfold set_x. by destruct (r =? 31). Qed.

Lemma sp_set_x r v c : sp (set_x r v c) = sp c.
Proof. unfold set_x. by destruct (r =? 31). Qed.

Lemma fl_set_x r v c : fl (set_x r v c) = fl c.
Proof. unfold set_x. by destruct (r =? 31). Qed.

(** ** A laid out program at address [D] *)

Section Laid.
Context (other : Z -> core -> option core) (b : CodeBufferBase) (its : list item) (D : Z).
Context (Hlaid : laid_out b its) (Hsize : GetBufferSize b < 2 ^ 20).
Context (HD : 0 <= D) (HDtop : D + GetBufferSize b < 2 ^ 64).

Lemma laid_len k i : its !! k = Some i -> 4 * Z.of_nat k + 4 <= GetBufferSize b.
Proof. intros H%lookup_lt_Some. destruct Hlaid as [E _]. lia. Qed.

Lemma load_read m n o v :
  code_at m D b -> Load n b o = Some v -> read m (D + o) n = v.
Proof.
  intros Hc (? & ? & ->)%Load_inv. unfold GetBufferSize in *. by apply code_at_read.
Qed.

Lemma fetch_word c k w :
  code_at (mem c) D b -> its !! k = Some (Word w) ->
  step other (D + 4 * Z.of_nat k, c) = exec other (decode (u32 w)) (D + 4 * Z.of_nat k) c.
Proof.
  intros Hc Hk. unfold step. cbn [fst snd]. f_equal. f_equal.
  apply load_read; [done|]. exact (proj2 Hlaid _ _ Hk).
Qed.

Lemma next_pc k i : its !! k = Some i -> u64 (D + 4 * Z.of_nat (S k)) = D + 4 * Z.of_nat (S k).
Proof. intros H%laid_len. apply trunc_small. lia. Qed.

(** The literal load leaves its value in x17. *)
Lemma step_lit c k v :
  code_at (mem c) D b -> its !! k = Some (Lit v) ->
  step other (D + 4 * Z.of_nat k, c) = Some (D + 4 * Z.of_nat (S k), set_x 17 (u64 v) c).
Proof.
  intros Hc Hk. rewrite <- (next_pc k (Lit v)) by done. pose proof (laid_len _ _ Hk). pose proof (GetBufferSize_nonneg b).
  destruct (proj2 Hlaid _ _ Hk) as (p & Hp & Hpl & Hps & Hi & Hd).
  pose proof (lookup_lt_Some _ _ _ Hk) as Hlt.
  unfold step. cbn [fst snd]. rewrite (load_read _ 4 _ _ Hc Hi).
  rewrite decode_ldr_x17; [|Z.to_euclidean_division_equations; lia|lia].
  cbn [exec]. do 2 f_equal; [f_equal; lia|].
  replace (D + 4 * Z.of_nat k + (p - 4 * Z.of_nat k)) with (D + p) by lia.
  rewrite (trunc_small 64) by lia. by rewrite (load_read _ 8 _ _ Hc Hd).
Qed.

End Laid.

(** ** The wide move *)

Definition mov_words (d imm : Z) : list Z :=
  [MoveWide_word (X d) (Low16Bits (Low32Bits imm)) 0 MOVZ;
   MoveWide_word (X d) (High16Bits (Low32Bits imm)) 16 MOVK;
   MoveWide_word (X d) (Low16Bits (High32Bits imm)) 32 MOVK;
   MoveWide_word (X d) (High16Bits (High32Bits imm)) 48 MOVK].

Lemma Mov_asm_of a its d imm :
  Mov (X d) imm (asm_of a its) = Some (tt, asm_of a (its ++ (Word <$> mov_words d imm))).
Proof.
  unfold Mov, movz, movk, MoveWide.
  erewrite asmM_bind_eq by apply EmitWord_asm_of.
  erewrite asmM_bind_eq by apply EmitWord_asm_of.
  erewrite asmM_bind_eq by apply EmitWord_asm_of.
  rewrite EmitWord_asm_of. by rewrite <- !app_assoc.
Qed.

(** The 16-bit pieces of a 64-bit value. *)
Definition piece (imm hw : Z) : Z := imm / 2 ^ (16 * hw) mod 2 ^ 16.

Lemma half_pieces imm :
  Low16Bits (Low32Bits imm) = piece imm 0 /\ High16Bits (Low32Bits imm) = piece imm 1 /\
  Low16Bits (High32Bits imm) = piece imm 2 /\ High16Bits (High32Bits imm) = piece imm 3.
Proof.
  assert (P : forall hw, 0 <= hw -> piece imm hw = trunc 16 (Z.shiftr imm (16 * hw))).
  { intros. unfold piece, trunc. by rewrite Z.shiftr_div_pow2 by lia. }
  rewrite !P by lia.
  unfold Low16Bits, High16Bits, Low32Bits, High32Bits. change 0xffff with (Z.ones 16).
  repeat split; bitwise.
Qed.

Lemma piece_range imm hw : 0 <= piece imm hw < 2 ^ 16.
Proof. apply Z.mod_pos_bound. lia. Qed.

Lemma pieces_sum imm :
  u64 imm = piece imm 0 + piece imm 1 * 2 ^ 16 + piece imm 2 * 2 ^ 32 + piece imm 3 * 2 ^ 48.
Proof.
  unfold piece, trunc. Z.to_euclidean_division_equations. lia.
Qed.

(** The value of the register after each of the four moves. *)
Definition piece_sum (imm : Z) (n : nat) : Z :=
  match n with
  | 0%nat => 0
  | 1%nat => piece imm 0
  | 2%nat => piece imm 0 + piece imm 1 * 2 ^ 16
  | 3%nat => piece imm 0 + piece imm 1 * 2 ^ 16 + piece imm 2 * 2 ^ 32
  | _ => u64 imm
  end.

Lemma piece_sum_step imm hw :
  (hw < 4)%nat ->
  0 <= piece_sum imm hw < 2 ^ (16 * Z.of_nat hw) /\
  piece_sum imm hw + piece imm (Z.of_nat hw) * 2 ^ (16 * Z.of_nat hw) = piece_sum imm (S hw) /\
  0 <= piece_sum imm (S hw) < 2 ^ 64.
Proof.
  intros. pose proof (piece_range imm 0). pose proof (piece_range imm 1).
  pose proof (piece_range imm 2). pose proof (piece_range imm 3). pose proof (pieces_sum imm).
  destruct hw as [|[|[|[|]]]]; [| | | |lia]; cbn [piece_sum];
    [change (Z.of_nat 0) with 0|change (Z.of_nat 1) with 1|change (Z.of_nat 2) with 2
    |change (Z.of_nat 3) with 3];
    repeat match goal with |- context [2 ^ (16 * ?k)] => constant (2 ^ (16 * k)) end; lia.
Qed.

(** A wide move that keeps adds its piece above what is there. *)
Lemma exec_movk other d imm hw pc c :
  0 <= d < 31 -> (0 < hw < 4)%nat -> get_x c d = piece_sum imm hw ->
  exec other (IMOVK true d (piece imm (Z.of_nat hw)) (Z.of_nat hw)) pc c =
  Some (u64 (pc + 4), set_x d (piece_sum imm (S hw)) c).
Proof.
  intros Hd Hh E. destruct (piece_sum_step imm hw ltac:(lia)) as (H1 & H2 & H3).
  cbn [exec]. rewrite E, Z.div_small by lia. rewrite Z.mod_0_l by lia.
  rewrite Z.mul_0_l, Z.sub_0_r, H2. unfold wtrunc. by rewrite (trunc_small 64 (piece_sum _ _)) by lia.
Qed.

Lemma exec_movz other d imm pc c :
  exec other (IMOVZ true d (piece imm 0) 0) pc c = Some (u64 (pc + 4), set_x d (piece_sum imm 1) c).
Proof.
  cbn [exec piece_sum]. rewrite Z.mul_0_r, Z.mul_1_r. unfold wtrunc. pose proof (piece_range imm 0).
  by rewrite (trunc_small 64 (piece imm 0)) by lia.
Qed.

Lemma mov_words_lookup d imm j w :
  0 <= d < 32 -> mov_words d imm !! j = Some w ->
  (j < 4)%nat /\ decode (u32 w) = (if Nat.eqb j 0 then IMOVZ else IMOVK) true d (piece imm (Z.of_nat j)) (Z.of_nat j).
Proof.
  intros Hd Hj. destruct (half_pieces imm) as (E0 & E1 & E2 & E3). unfold mov_words in Hj.
  rewrite E0, E1, E2, E3 in Hj.
  destruct j as [|[|[|[|j]]]]; cbn in Hj; [injection Hj as <- ..|done]; (split; [lia|]); cbn [Nat.eqb].
  - apply (decode_movz d (piece imm 0) 0); [lia|apply piece_range|lia].
  - apply (decode_movk d (piece imm 1) 1); [lia|apply piece_range|lia].
  - apply (decode_movk d (piece imm 2) 2); [lia|apply piece_range|lia].
  - apply (decode_movk d (piece imm 3) 3); [lia|apply piece_range|lia].
Qed.

Section LaidMov.
Context (other : Z -> core -> option core) (b : CodeBufferBase) (its : list item) (D : Z).
Context (Hlaid : laid_out b its) (HD : 0 <= D) (HDtop : D + GetBufferSize b < 2 ^ 64).

(** [embeds k ws]: the words [ws] are the items from [k] on. *)
Definition embeds (k : nat) (ws : list Z) : Prop :=
  forall j w, ws !! j = Some w -> its !! (k + j)%nat = Some (Word w).

Lemma step_mov c k d imm j :
  0 <= d < 31 -> (j < 4)%nat -> code_at (mem c) D b -> embeds k (mov_words d imm) ->
  (j = 0%nat \/ get_x c d = piece_sum imm j) ->
  step other (D + 4 * Z.of_nat (k + j), c) =
    Some (D + 4 * Z.of_nat (k + S j), set_x d (piece_sum imm (S j)) c).
Proof.
  intros Hd Hj Hc He Hv.
  destruct (mov_words d imm !! j) as [w|] eqn:E.
  2:{ apply lookup_ge_None in E. cbn in E. lia. }
  destruct (mov_words_lookup d imm j w ltac:(lia) E) as [_ Hw].
  rewrite (fetch_word other b its D Hlaid c _ w Hc (He j w E)), Hw.
  assert (En : D + 4 * Z.of_nat (k + S j) = u64 (D + 4 * Z.of_nat (k + j) + 4)).
  { rewrite Nat.add_succ_r. rewrite <- (next_pc b its D Hlaid HD HDtop (k + j) (Word w)) by auto.
    f_equal. lia. }
  rewrite En.
  destruct j as [|j]; [apply exec_movz|]. destruct Hv as [?|Hv]; [done|].
  by apply exec_movk; [|lia|].
Qed.

Lemma run_mov c k d imm :
  0 <= d < 31 -> code_at (mem c) D b -> embeds k (mov_words d imm) ->
  steps other (D + 4 * Z.of_nat k, c) (D + 4 * Z.of_nat (k + 4), set_x d (u64 imm) c).
Proof.
  intros Hd Hc He.
  assert (Hj : forall j, (j < 4)%nat ->
    steps other (D + 4 * Z.of_nat k, c) (D + 4 * Z.of_nat (k + S j), set_x d (piece_sum imm (S j)) c)).
  { induction j as [|j IH]; intros Hj.
    - apply steps_one. rewrite <- (Nat.add_0_r k) at 1. apply step_mov; auto.
    - eapply steps_trans; [apply IH; lia|]. apply steps_one.
      rewrite <- (set_x_shadow d (piece_sum imm (S j)) (piece_sum imm (S (S j)))) by done.
      apply step_mov; [done|lia|by rewrite mem_set_x|done|right].
      apply get_set_x. lia. }
  apply (Hj 3%nat). lia.
Qed.
End LaidMov.
