(* ===== verification/TrampolineArm64.v ===== *)
(** The AArch64 hook trampoline
    ([TrampolineBridge/Trampoline/arm64/trampoline_arm64.cc]): the code that is
    patched over the start of a hooked function. *)
From S2P Require Import Prelude UtilityMacro Arm64Const Arm64Kit CodeBuffer Assembler AssemblerArm64 Arm64Isa.
From S2P Require Import LiteralPool Arm64Emit Arm64Run.

Definition GenerateNormalTrampolineBuffer (from to : Z) : option CodeBufferBase :=
  let distance := u64 (Z.abs (s64 (from - to))) in
  let adrp_range := Z.shiftl 1 (2 + 19 + 12 - 1) in
  let body :=
    if distance <? adrp_range then AdrpAdd TMP_REG_0 from to ;; br TMP_REG_0
    else LiteralLdrBranch to in
  '(_, turbo_assembler_) ← (body ;; RelocBind) (newAssembler from);
  Some (Copy (buffer_ turbo_assembler_)).

(** ** The two shapes *)

Definition page_delta (from to : Z) : Z := s64 (ALIGN_FLOOR to 0x1000 - ALIGN_FLOOR from 0x1000).

Definition adrp_items (from to : Z) : list item :=
  [Word (adrp_word TMP_REG_0 (page_delta from to));
   Word (AddSubImmediate_word TMP_REG_0 TMP_REG_0 (Operand_imm (to mod 0x1000)) ADD_x_imm);
   Word (br_word TMP_REG_0)].
Definition literal_items (to : Z) : list item := [Lit to; Word (br_word TMP_REG_0)].

Definition far (from to : Z) : bool := 2 ^ 32 <=? Z.abs (from - to).

Lemma adrp_asm_of a its from to :
  (AdrpAdd TMP_REG_0 from to ;; br TMP_REG_0) (asm_of a its) =
  Some (tt, asm_of a (its ++ adrp_items from to)).
Proof.
  unfold AdrpAdd, adrp, add. cbn [Is64Bits TMP_REG_0 X reg_size_ andb Z.eqb].
  unfold AddSubImmediate. cbn [IsImmediate Is Operand_imm reg_ InvalidRegister reg_code_ Z.eqb].
  erewrite asmM_bind_eq.
  2:{ erewrite asmM_bind_eq by apply EmitWord_asm_of. apply EmitWord_asm_of. }
  unfold br. rewrite EmitWord_asm_of, <- !app_assoc. reflexivity.
Qed.

(** For user-space addresses the generated buffer is the laid out code of one of
    the shapes. *)
Lemma trampoline_buffer from to :
  0 <= from < 2 ^ 63 -> 0 <= to < 2 ^ 63 ->
  exists b, GenerateNormalTrampolineBuffer from to = Some b /\
    laid_out b (if far from to then literal_items to else adrp_items from to) /\
    GetBufferSize b = if far from to then 16 else 12.
Proof.
  intros Hf Ht. unfold GenerateNormalTrampolineBuffer.
  rewrite (sext_small 64), (trunc_small 64) by lia. cbv zeta.
  change (Z.shiftl 1 (2 + 19 + 12 - 1)) with (2 ^ 32). unfold far.
  rewrite asm_of_nil, Z.ltb_antisym.
  destruct (2 ^ 32 <=? Z.abs (from - to)); cbn [negb].
  - erewrite asmM_bind_eq by apply LiteralLdrBranch_asm_of.
    destruct (RelocBind_asm_of from (literal_items to)) as (asm' & E & Hl & _); [done|].
    change ([] ++ _) with (literal_items to). rewrite E. exists (buffer_ asm').
    repeat split; [apply Hl|apply Hl|]. apply Hl.
  - erewrite asmM_bind_eq by apply adrp_asm_of.
    destruct (RelocBind_asm_of from (adrp_items from to)) as (asm' & E & Hl & _); [done|].
    change ([] ++ _) with (adrp_items from to). rewrite E. exists (buffer_ asm').
    repeat split; [apply Hl|apply Hl|]. apply Hl.
Qed.

(** [adrp; add] computes [to] when the page delta fits the 21-bit field. *)
Lemma page_delta_spec from to :
  0 <= from < 2 ^ 63 -> 0 <= to < 2 ^ 63 ->
  page_delta from to = 4096 * (to / 4096 - from / 4096).
Proof.
  intros. unfold page_delta. change 0x1000 with (2 ^ 12). rewrite !ALIGN_FLOOR_spec by lia.
  change (2 ^ 12) with 4096. rewrite sext_small; Z.to_euclidean_division_equations; lia.
Qed.

Definition page_fits (from to : Z) : Prop := to / 4096 - from / 4096 < 2 ^ 20.

Lemma run_adrp other from to b c :
  0 <= from < 2 ^ 62 -> 0 <= to < 2 ^ 62 -> far from to = false -> page_fits from to ->
  laid_out b (adrp_items from to) -> code_at (mem c) from b ->
  exists v, steps other (from, c) (to, set_x 17 v c).
Proof.
  intros Hf Ht Hfar Hp Hl Hc. unfold far in Hfar. apply Z.leb_gt in Hfar.
  exists to.
  assert (Hs : GetBufferSize b = 12) by apply Hl.
  pose proof (page_delta_spec from to ltac:(lia) ltac:(lia)) as Hd. unfold page_fits in Hp.
  pose proof (Z.div_mod from 4096 ltac:(lia)) as Ef. pose proof (Z.div_mod to 4096 ltac:(lia)) as Et.
  pose proof (Z.mod_pos_bound from 4096 ltac:(lia)) as Bf. pose proof (Z.mod_pos_bound to 4096 ltac:(lia)) as Bt.
  assert (S0 : step other (from, c) = Some (from + 4, set_x 17 (4096 * (to / 4096)) c)).
  { replace from with (from + 4 * Z.of_nat 0) at 1 by lia.
    rewrite (fetch_word other b _ from Hl c 0 _ Hc eq_refl).
    unfold TMP_REG_0. rewrite decode_adrp; [|lia|rewrite Hd, Z.mul_comm; by apply Z.mod_mul|lia].
    cbn [exec]. change (4 * Z.of_nat 0) with 0. rewrite Z.add_0_r, !(trunc_small 64) by lia.
    do 3 f_equal. lia. }
  set (c1 := set_x 17 (4096 * (to / 4096)) c) in *.
  assert (S1 : step other (from + 4, c1) = Some (from + 8, set_x 17 to c)).
  { replace (from + 4) with (from + 4 * Z.of_nat 1) by lia.
    rewrite (fetch_word other b _ from Hl c1 1 (AddSubImmediate_word TMP_REG_0 TMP_REG_0 (Operand_imm (to mod 0x1000)) ADD_x_imm));
      [|by unfold c1; rewrite mem_set_x|done].
    unfold TMP_REG_0. rewrite decode_add_imm by lia. cbn [exec set_xsp]. unfold c1.
    rewrite get_xsp_set_x by lia. unfold set_xsp. cbn [Z.eqb Pos.eqb]. rewrite set_x_shadow.
    unfold wtrunc. rewrite !(trunc_small 64) by lia. do 2 f_equal; [lia|].
    f_equal. lia. }
  eapply steps_step; [exact S0|]. eapply steps_step; [exact S1|].
  apply steps_one. replace (from + 8) with (from + 4 * Z.of_nat 2) by lia.
  rewrite (fetch_word other b _ from Hl _ 2 (br_word TMP_REG_0)); [|by rewrite mem_set_x|done].
  unfold TMP_REG_0. rewrite decode_br by lia. cbn [exec]. by rewrite get_set_x.
Qed.

(** A literal load followed by the branch goes to the literal. *)
Lemma run_literal_branch other b its D k v c :
  laid_out b its -> GetBufferSize b < 2 ^ 20 -> 0 <= D -> D + GetBufferSize b < 2 ^ 64 ->
  its !! k = Some (Lit v) -> its !! S k = Some (Word (br_word TMP_REG_0)) ->
  code_at (mem c) D b ->
  steps other (D + 4 * Z.of_nat k, c) (u64 v, set_x 17 (u64 v) c).
Proof.
  intros Hl Hs HD HDt Hk Hk' Hc.
  eapply steps_step; [by eapply step_lit|]. apply steps_one.
  rewrite (fetch_word other b _ D Hl _ (S k) (br_word TMP_REG_0)); [|by rewrite mem_set_x|done].
  unfold TMP_REG_0. rewrite decode_br by lia. cbn [exec]. by rewrite get_set_x.
Qed.

(** The generated trampoline reaches its target. *)
Lemma trampoline_runs from to :
  0 <= from < 2 ^ 62 -> 0 <= to < 2 ^ 62 -> far from to = true \/ page_fits from to ->
  exists b, GenerateNormalTrampolineBuffer from to = Some b /\
    length b = (if far from to then 16 else 12)%nat /\
    forall other c, code_at (mem c) from b -> exists v, steps other (from, c) (to, set_x 17 v c).
Proof.
  intros Hf Ht Hr. destruct (trampoline_buffer from to ltac:(lia) ltac:(lia)) as (b & E & Hl & Hs).
  exists b. split; [done|]. split.
  { unfold GetBufferSize in Hs. destruct (far from to); lia. }
  intros other c Hc. destruct (far from to) eqn:Hfar.
  - exists to. pose proof (run_literal_branch other b _ from 0 to c Hl ltac:(lia) ltac:(lia) ltac:(lia) eq_refl eq_refl Hc) as Hst.
    rewrite Z.add_0_r in Hst. by rewrite (trunc_small 64) in Hst by lia.
  - destruct Hr as [Hr|Hr]; [done|]. by eapply run_adrp.
Qed.
