(* ===== verification/Platform.v ===== *)
(** The process the engine runs in: byte memory with page protections, the
    wrappers of [Backend/UserMode/UnifiedInterface/platform-posix.cc] over
    [mmap] and [mprotect] ([munmap] is never called by the engine), and the code patch tool
    ([Backend/UserMode/ExecMemory/code-patch-tool-posix.cc], Linux branch).

    The kernel decides which system calls succeed and where [mmap] puts a
    region: that is the class [Kernel]. A store to a page without [PROT_WRITE]
    is a fault, [None]. Caches are coherent in the model. *)
From S2P Require Import Prelude UtilityMacro.

(** [PROT_*] of [sys/mman.h]. *)
Definition PROT_NONE := 0.
Definition PROT_READ := 1.
Definition PROT_WRITE := 2.
Definition PROT_EXEC := 4.

Inductive MemoryPermission := kNoAccess | kRead | kReadWrite | kReadWriteExecute | kReadExecute.

Definition GetProtectionFromMemoryPermission (access : MemoryPermission) : Z :=
  match access with
  | kNoAccess => PROT_NONE
  | kRead => PROT_READ
  | kReadWrite => Z.lor PROT_READ PROT_WRITE
  | kReadWriteExecute => Z.lor (Z.lor PROT_READ PROT_WRITE) PROT_EXEC
  | kReadExecute => Z.lor PROT_READ PROT_EXEC
  end.

(** [pprot a] is the protection of the page of address [a]; [mappings] are the
    live regions, address and size. *)
Record process := { pmem : Z -> byte; pprot : Z -> Z; mappings : list (Z * Z) }.

Class Kernel := {
  page_shift : Z;
  (** [mmap(fixed, size)] given the live regions: an address or [MAP_FAILED]. *)
  mmap_result : list (Z * Z) -> Z -> Z -> option Z;
  (** Whether [mprotect(address, size, prot)] succeeds. *)
  mprotect_ok : list (Z * Z) -> Z -> Z -> Z -> bool }.

Definition disjoint_range (a n a' n' : Z) : Prop := a + n <= a' \/ a' + n' <= a.

(** What POSIX and Linux document of these calls. *)
Class KernelLaws `{Kernel} := {
  page_shift_range : 12 <= page_shift <= 16;
  mmap_page_aligned ms f n a : mmap_result ms f n = Some a -> a mod 2 ^ page_shift = 0;
  mmap_user_range ms f n a : mmap_result ms f n = Some a -> 0 < a /\ a + n <= 2 ^ 48;
  mmap_fixed ms f n a : f <> 0 -> mmap_result ms f n = Some a -> a = f;
  mmap_fresh ms n a : mmap_result ms 0 n = Some a ->
    Forall (fun '(a', n') => disjoint_range a n a' n') ms }.

Section OS.
Context `{K : Kernel}.

Definition PageSize : Z := 2 ^ page_shift.

(** The page a protection applies to. *)
Definition in_pages (address size a : Z) : bool :=
  (address / PageSize <=? a / PageSize) && (a / PageSize * PageSize <? address + size).

Definition mprotect (address size prot : Z) (p : process) : bool * process :=
  if mprotect_ok (mappings p) address size prot
  then (true, {| pmem := pmem p;
                 pprot a := if in_pages address size a then prot else pprot p a;
                 mappings := mappings p |})
  else (false, p).

(** [OSMemory::Allocate]: [NULL] is 0. *)
Definition Allocate_fixed (size : Z) (access : MemoryPermission) (fixed_address : Z) (p : process) :
    Z * process :=
  let prot := GetProtectionFromMemoryPermission access in
  match mmap_result (mappings p) fixed_address size with
  | None => (0, p)
  | Some result =>
      (result, {| pmem a := if in_pages result size a then 0 else pmem p a;
                  pprot a := if in_pages result size a then prot else pprot p a;
                  mappings := (result, size) :: mappings p |})
  end.
Definition Allocate (size : Z) (access : MemoryPermission) (p : process) : Z * process :=
  Allocate_fixed size access 0 p.

Definition SetPermission (address size : Z) (access : MemoryPermission) (p : process) : bool * process :=
  mprotect address size (GetProtectionFromMemoryPermission access) p.

Definition writable (p : process) (a : Z) : bool := Z.testbit (pprot p a) 1.

(** [memcpy(address, buffer, size)] into process memory. *)
Fixpoint writable_range (p : process) (address : Z) (n : nat) : bool :=
  match n with O => true | S n => writable p address && writable_range p (address + 1) n end.

Definition write_bytes (m : Z -> byte) (address : Z) (buffer : list byte) : Z -> byte := fun a =>
  if (address <=? a) && (a <? address + Z.of_nat (length buffer))
  then default 0 (buffer !! Z.to_nat (a - address)) else m a.

Definition memcpy (address : Z) (buffer : list byte) (p : process) : option process :=
  if writable_range p address (length buffer)
  then Some {| pmem := write_bytes (pmem p) address buffer; pprot := pprot p; mappings := mappings p |}
  else None.

(** The protection of the first and of the last page, as [DobbyCodePatch] sets
    it before and after the copy; the results of [mprotect] are not looked at. *)
Definition protect_pages (patch_page patch_end_page prot : Z) (p : process) : process :=
  let p1 := (mprotect patch_page PageSize prot p).2 in
  if negb (patch_page =? patch_end_page) then (mprotect patch_end_page PageSize prot p1).2 else p1.

(** [DobbyCodePatch]: it always returns [kMemoryOperationSuccess]. *)
Definition DobbyCodePatch (address : Z) (buffer : list byte) (p : process) : option process :=
  let buffer_size := Z.of_nat (length buffer) in
  let page_size := PageSize in
  let patch_page := ALIGN_FLOOR address page_size in
  let patch_end_page := ALIGN_FLOOR (address + buffer_size) page_size in
  let p := protect_pages patch_page patch_end_page (Z.lor (Z.lor PROT_READ PROT_WRITE) PROT_EXEC) p in
  p ← memcpy address buffer p;
  Some (protect_pages patch_page patch_end_page (Z.lor PROT_READ PROT_EXEC) p).
End OS.

Abbreviation RWX := (Z.lor (Z.lor PROT_READ PROT_WRITE) PROT_EXEC).
Abbreviation RX := (Z.lor PROT_READ PROT_EXEC).

(** ** Memory lemmas *)

Lemma write_bytes_in m a b i x :
  b !! i = Some x -> write_bytes m a b (a + Z.of_nat i) = x.
Proof.
  intros H. pose proof (lookup_lt_Some _ _ _ H). unfold write_bytes.
  destruct (Z.leb_spec a (a + Z.of_nat i)); [|lia].
  destruct (Z.ltb_spec (a + Z.of_nat i) (a + Z.of_nat (length b))); [|lia]. cbn.
  replace (Z.to_nat (a + Z.of_nat i - a)) with i by lia. by rewrite H.
Qed.

Lemma write_bytes_out m a b x :
  x < a \/ a + Z.of_nat (length b) <= x -> write_bytes m a b x = m x.
Proof.
  intros. unfold write_bytes. destruct (Z.leb_spec a x); [|done].
  by destruct (Z.ltb_spec x (a + Z.of_nat (length b))); [lia|].
Qed.

Lemma write_bytes_undo m a b saved x :
  length saved = length b -> (forall i y, saved !! i = Some y -> y = m (a + Z.of_nat i)) ->
  write_bytes (write_bytes m a b) a saved x = m x.
Proof.
  intros Hl Hs. destruct (decide (a <= x < a + Z.of_nat (length b))) as [Hx|Hx].
  - destruct (lookup_lt_is_Some_2 saved (Z.to_nat (x - a)) ltac:(lia)) as [y Hy].
    replace x with (a + Z.of_nat (Z.to_nat (x - a))) by lia.
    rewrite (write_bytes_in _ _ _ _ _ Hy). by apply Hs.
  - rewrite !write_bytes_out by lia. done.
Qed.

Section PatchLemmas.
Context `{K : Kernel}.

Lemma mprotect_mem a n pr p : pmem (mprotect a n pr p).2 = pmem p /\ mappings (mprotect a n pr p).2 = mappings p.
Proof. unfold mprotect. by destruct (mprotect_ok _ _ _ _). Qed.

Lemma memcpy_inv a b p p' :
  memcpy a b p = Some p' ->
  pmem p' = write_bytes (pmem p) a b /\ pprot p' = pprot p /\ mappings p' = mappings p.
Proof. unfold memcpy. destruct (writable_range _ _ _); [|done]. by intros [= <-]. Qed.

Lemma writable_range_spec p a n :
  writable_range p a n = true <-> forall i, (i < n)%nat -> writable p (a + Z.of_nat i) = true.
Proof.
  revert a. induction n as [|n IH]; intros a; cbn; [split; [lia|done]|].
  rewrite andb_true_iff, IH. split.
  - intros [H0 Hr] [|i] Hi; [by rewrite Z.add_0_r|].
    replace (a + Z.of_nat (S i)) with (a + 1 + Z.of_nat i) by lia. apply Hr. lia.
  - intros Hr. split; [rewrite <- (Z.add_0_r a); apply (Hr 0%nat); lia|].
    intros i Hi. replace (a + 1 + Z.of_nat i) with (a + Z.of_nat (S i)) by lia. apply Hr. lia.
Qed.

Lemma protect_pages_mem pg pe pr p :
  pmem (protect_pages pg pe pr p) = pmem p /\ mappings (protect_pages pg pe pr p) = mappings p.
Proof.
  unfold protect_pages. destruct (mprotect_mem pg PageSize pr p) as [E1 E2].
  destruct (negb _); [|done].
  destruct (mprotect_mem pe PageSize pr (mprotect pg PageSize pr p).2) as [-> ->]. done.
Qed.

(** The patch tool changes the bytes of the buffer's range and no others. *)
Lemma DobbyCodePatch_mem a b p p' :
  DobbyCodePatch a b p = Some p' ->
  pmem p' = write_bytes (pmem p) a b /\ mappings p' = mappings p.
Proof.
  unfold DobbyCodePatch. cbv zeta. set (q := protect_pages _ _ _ p).
  destruct (memcpy a b q) as [r|] eqn:E; [|done]. cbn. intros [= <-].
  apply memcpy_inv in E as (E1 & _ & E2).
  destruct (protect_pages_mem (ALIGN_FLOOR a PageSize)
    (ALIGN_FLOOR (a + Z.of_nat (length b)) PageSize) (Z.lor PROT_READ PROT_EXEC) r) as [-> ->].
  destruct (protect_pages_mem (ALIGN_FLOOR a PageSize)
    (ALIGN_FLOOR (a + Z.of_nat (length b)) PageSize)
    (Z.lor (Z.lor PROT_READ PROT_WRITE) PROT_EXEC) p) as [F1 F2].
  fold q in F1, F2. by rewrite E1, E2, F1, F2.
Qed.

Context `{KL : !KernelLaws}.

Lemma PageSize_pos : 0 < PageSize.
Proof. unfold PageSize. pose proof page_shift_range. lia. Qed.

Lemma page_floor a : 0 <= a < 2 ^ 64 -> ALIGN_FLOOR a PageSize = a / PageSize * PageSize.
Proof.
  intros. pose proof page_shift_range. pose proof PageSize_pos. unfold PageSize at 1.
  rewrite ALIGN_FLOOR_spec by lia. fold PageSize. assert (Hp : PageSize <> 0) by lia.
  pose proof (Z.div_mod a PageSize Hp). lia.
Qed.

Lemma in_pages_page pg x : in_pages (pg * PageSize) PageSize x = (x / PageSize =? pg).
Proof.
  pose proof PageSize_pos. unfold in_pages. rewrite Z.div_mul by lia.
  destruct (Z.eqb_spec (x / PageSize) pg) as [->|Hne].
  - rewrite Z.leb_refl. cbn. apply Z.ltb_lt. lia.
  - destruct (Z.leb_spec pg (x / PageSize)); [|done]. cbn. apply Z.ltb_ge. nia.
Qed.

(** Protections succeed on the page. *)
Definition page_ok (p : process) (pg prot : Z) : Prop :=
  mprotect_ok (mappings p) (pg * PageSize) PageSize prot = true.

Lemma mprotect_page p pg pr :
  page_ok p pg pr ->
  forall x, pprot (mprotect (pg * PageSize) PageSize pr p).2 x =
            if x / PageSize =? pg then pr else pprot p x.
Proof. unfold page_ok, mprotect. intros ->. intros x. cbn. by rewrite in_pages_page. Qed.

Lemma protect_pages_prot p pg pe pr :
  page_ok p pg pr -> page_ok p pe pr ->
  forall x, pprot (protect_pages (pg * PageSize) (pe * PageSize) pr p) x =
            if (x / PageSize =? pg) || (x / PageSize =? pe) then pr else pprot p x.
Proof.
  intros H1 H2 x. pose proof PageSize_pos. unfold protect_pages. cbv zeta.
  destruct (Z.eqb_spec (pg * PageSize) (pe * PageSize)) as [E|E]; cbn [negb].
  - apply Z.mul_reg_r in E as ->; [|lia]. rewrite mprotect_page by done.
    by rewrite orb_diag.
  - rewrite mprotect_page.
    2:{ unfold page_ok. by rewrite (proj2 (mprotect_mem _ _ _ _)). }
    rewrite mprotect_page by done.
    by destruct (x / PageSize =? pg), (x / PageSize =? pe).
Qed.

(** The kernel lets the two pages of a patch be made writable and executable. *)
Definition patchable (p : process) (a n : Z) : Prop :=
  page_ok p (a / PageSize) RWX /\ page_ok p ((a + n) / PageSize) RWX /\
  page_ok p (a / PageSize) RX /\ page_ok p ((a + n) / PageSize) RX.

Lemma DobbyCodePatch_ok a b p :
  0 <= a -> a + Z.of_nat (length b) < 2 ^ 64 -> Z.of_nat (length b) <= PageSize ->
  patchable p a (Z.of_nat (length b)) ->
  exists p', DobbyCodePatch a b p = Some p' /\
    forall x, pprot p' x =
      if (x / PageSize =? a / PageSize) || (x / PageSize =? (a + Z.of_nat (length b)) / PageSize)
      then RX else pprot p x.
Proof.
  intros Ha Ht Hl (H1 & H2 & H3 & H4). pose proof PageSize_pos as HP.
  unfold DobbyCodePatch. cbv zeta. rewrite !page_floor by lia.
  set (pg := a / PageSize) in *. set (pe := (a + Z.of_nat (length b)) / PageSize) in *.
  pose proof (protect_pages_prot p pg pe RWX H1 H2) as Hq.
  pose proof (protect_pages_mem (pg * PageSize) (pe * PageSize) RWX p) as [_ Hm].
  set (q := protect_pages (pg * PageSize) (pe * PageSize) RWX p) in *.
  unfold memcpy. destruct (writable_range q a (length b)) eqn:Hw.
  - cbn. eexists. split; [done|]. intros x. rewrite protect_pages_prot.
    + cbn. rewrite Hq. by destruct (_ || _).
    + unfold page_ok in *. cbn. by rewrite Hm.
    + unfold page_ok in *. cbn. by rewrite Hm.
  - exfalso. apply not_true_iff_false in Hw. apply Hw. apply writable_range_spec.
    intros i Hi. unfold writable. rewrite Hq.
    assert (E : ((a + Z.of_nat i) / PageSize =? pg) || ((a + Z.of_nat i) / PageSize =? pe) = true).
    { apply orb_true_iff. rewrite !Z.eqb_eq. unfold pg, pe. clearbody q. clear - HP Ha Hi Hl.
      remember PageSize as ps. Z.to_euclidean_division_equations. nia. }
    by rewrite E.
Qed.
End PatchLemmas.

(** ** A kernel

    A concrete kernel that meets the laws: it maps above everything mapped so
    far and refuses no protection. *)

Definition top_of (ms : list (Z * Z)) : Z := fold_right (fun r acc => Z.max (r.1 + r.2) acc) (2 ^ 30) ms.

#[export] Instance bump_kernel : Kernel := {
  page_shift := 12;
  mmap_result ms fixed n :=
    let a := if fixed =? 0 then (top_of ms + 4095) / 4096 * 4096 else fixed in
    if (0 <? a) && (a mod 4096 =? 0) && (0 <? n) && (a + n <=? 2 ^ 48) then Some a else None;
  mprotect_ok _ _ _ _ := true }.

Lemma top_of_ge ms r : r ∈ ms -> r.1 + r.2 <= top_of ms.
Proof.
  induction ms as [|r' ms IH]; [by intros H%elem_of_nil|].
  unfold top_of in *. intros [->|H]%elem_of_cons; cbn; [lia|]. specialize (IH H). lia.
Qed.

Lemma bump_kernel_guard (a n : Z) :
  (0 <? a) && (a mod 4096 =? 0) && (0 <? n) && (a + n <=? 2 ^ 48) = true ->
  0 < a /\ a mod 4096 = 0 /\ 0 < n /\ a + n <= 2 ^ 48.
Proof. rewrite !andb_true_iff, !Z.ltb_lt, Z.eqb_eq, Z.leb_le. tauto. Qed.

#[export] Instance bump_kernel_laws : KernelLaws.
Proof.
  split; cbn [page_shift mmap_result bump_kernel].
  - lia.
  - intros ms f n a. cbv zeta. destruct (_ && _) eqn:E; [|done]. intros [= <-].
    apply bump_kernel_guard in E. apply E.
  - intros ms f n a. cbv zeta. destruct (_ && _) eqn:E; [|done]. intros [= <-].
    apply bump_kernel_guard in E. split; apply E.
  - intros ms f n a Hf. cbv zeta. rewrite (proj2 (Z.eqb_neq f 0)) by done.
    destruct (_ && _); [|done]. by intros [= <-].
  - intros ms n a. cbv zeta. cbn [Z.eqb]. destruct (_ && _) eqn:E; [|done]. intros [= <-].
    apply Forall_forall. intros [a' n'] Hr. pose proof (top_of_ge ms _ Hr) as Ht. cbn in Ht.
    right. clear E. Z.to_euclidean_division_equations. lia.
Qed.
