(* ===== verification/MemAlloc.v ===== *)
(** The executable memory allocator ([PlatformUnifiedInterface/MemoryAllocator.h],
    [MemoryAllocator/MemoryAllocator.cc], [MemoryAllocator/NearMemoryAllocator.cc]):
    bump allocation out of page-sized arenas.

    A null block pointer is [None] inside the result; a fault or a null
    dereference is an undefined run. [CHECK]s log and go on in the release
    build. *)
From S2P Require Import Prelude UtilityMacro Platform.

(** [MemRange] with its subclasses' [addr]; [end] is [end_]. *)
Record MemBlock := mkMemBlock { start : Z; end_ : Z; size : Z; addr : Z }.
Definition newMemBlock (addr size : Z) : MemBlock := mkMemBlock addr (u64 (addr + size)) size addr.
Definition MemBlock_null : MemBlock := newMemBlock 0 0.
(** [MemBlock::reset]. *)
Definition reset (this : MemBlock) (addr size : Z) : MemBlock :=
  mkMemBlock addr (u64 (addr + size)) size addr.

Record MemoryArena := mkArena { arange : MemBlock; cursor_addr : Z }.
Definition newMemoryArena (addr size : Z) : MemoryArena := mkArena (newMemBlock addr size) addr.

Definition allocMemBlock (this : MemoryArena) (size : Z) : option MemBlock * MemoryArena :=
  if u64 (end_ (arange this) - cursor_addr this) <? size then (None, this)
  else (Some (newMemBlock (cursor_addr this) size),
        mkArena (arange this) (u64 (cursor_addr this + size))).

Record MemoryAllocator := {
  code_arenas : list MemoryArena; data_arenas : list MemoryArena; proc : process }.

Definition set_proc (p : process) (s : MemoryAllocator) : MemoryAllocator :=
  {| code_arenas := code_arenas s; data_arenas := data_arenas s; proc := p |}.
Definition set_code (l : list MemoryArena) (s : MemoryAllocator) : MemoryAllocator :=
  {| code_arenas := l; data_arenas := data_arenas s; proc := proc s |}.
Definition set_data (l : list MemoryArena) (s : MemoryAllocator) : MemoryAllocator :=
  {| code_arenas := code_arenas s; data_arenas := l; proc := proc s |}.

(** The first arena of the list that has room. *)
Fixpoint alloc_first (arenas : list MemoryArena) (size : Z) : option MemBlock * list MemoryArena :=
  match arenas with
  | [] => (None, [])
  | a :: arenas =>
      match allocMemBlock a size with
      | (Some block, a') => (Some block, a' :: arenas)
      | (None, a') => let '(r, arenas') := alloc_first arenas size in (r, a' :: arenas')
      end
  end.

(** [arena->allocMemBlock(size)] on the arena just pushed. *)
Definition alloc_last (arenas : list MemoryArena) (size : Z) : option MemBlock * list MemoryArena :=
  match last arenas with
  | Some a => let '(r, a') := allocMemBlock a size in (r, removelast arenas ++ [a'])
  | None => (None, arenas)
  end.

Section Allocator.
Context `{K : Kernel}.

(** The failure of [OSMemory::Allocate] is not looked at: the arena is then at
    address 0. *)
Definition allocateCodeMemoryArena (size : Z) (s : MemoryAllocator) : MemoryArena * MemoryAllocator :=
  let arena_size := u32 size in
  let '(arena_addr, p) := Allocate arena_size kNoAccess (proc s) in
  let '(_, p) := SetPermission arena_addr arena_size kReadExecute p in
  let result := newMemoryArena arena_addr arena_size in
  (result, set_proc p (set_code (code_arenas s ++ [result]) s)).

Definition allocateExecBlock (size : Z) (s : MemoryAllocator) : option MemBlock * MemoryAllocator :=
  let size := u32 size in
  match alloc_first (code_arenas s) size with
  | (Some block, arenas) => (Some block, set_code arenas s)
  | (None, arenas) =>
      let s := set_code arenas s in
      let arena_size := ALIGN_CEIL size PageSize in
      let '(_, s) := allocateCodeMemoryArena arena_size s in
      let '(block, arenas) := alloc_last (code_arenas s) size in
      (block, set_code arenas s)
  end.

(** [allocateExecMemory(size)]: a null block is dereferenced. *)
Definition allocateExecMemory (size : Z) (s : MemoryAllocator) : option (Z * MemoryAllocator) :=
  let '(block, s) := allocateExecBlock size s in
  block ← block; Some (addr block, s).

Definition allocateExecMemory_buffer (buffer : list byte) (s : MemoryAllocator) : option (Z * MemoryAllocator) :=
  '(mem, s) ← allocateExecMemory (Z.of_nat (length buffer)) s;
  p ← DobbyCodePatch mem buffer (proc s);
  Some (mem, set_proc p s).

Definition allocateDataMemoryArena (size : Z) (s : MemoryAllocator) : MemoryArena * MemoryAllocator :=
  let buffer_size := u32 (ALIGN_CEIL (u32 size) PageSize) in
  let '(buffer, p) := Allocate buffer_size kNoAccess (proc s) in
  let '(_, p) := SetPermission buffer buffer_size kReadWrite p in
  let result := newMemoryArena buffer buffer_size in
  (result, set_proc p (set_data (data_arenas s ++ [result]) s)).

(** A new arena for data is a code arena of the given size. *)
Definition allocateDataBlock (size : Z) (s : MemoryAllocator) : option MemBlock * MemoryAllocator :=
  let size := u32 size in
  match alloc_first (data_arenas s) size with
  | (Some block, arenas) => (Some block, set_data arenas s)
  | (None, arenas) =>
      let s := set_data arenas s in
      let '(_, s) := allocateCodeMemoryArena size s in
      let '(block, arenas) := alloc_last (code_arenas s) size in
      (block, set_code arenas s)
  end.

Definition allocateDataMemory (size : Z) (s : MemoryAllocator) : option (Z * MemoryAllocator) :=
  let '(block, s) := allocateDataBlock size s in
  block ← block; Some (addr block, s).

Definition allocateDataMemory_buffer (buffer : list byte) (s : MemoryAllocator) : option (Z * MemoryAllocator) :=
  '(mem, s) ← allocateDataMemory (Z.of_nat (length buffer)) s;
  p ← memcpy mem buffer (proc s);
  Some (mem, set_proc p s).
End Allocator.

(** ** The arenas' invariant *)

Section Invariant.
Context `{K : Kernel} `{KL : !KernelLaws}.

Definition arena_ok (a : MemoryArena) : Prop :=
  0 < addr (arange a) /\ addr (arange a) mod PageSize = 0 /\ size (arange a) mod PageSize = 0 /\
  0 <= size (arange a) /\ end_ (arange a) = addr (arange a) + size (arange a) /\
  addr (arange a) <= cursor_addr a <= end_ (arange a) /\ end_ (arange a) <= 2 ^ 48.

Definition block_disjoint (b b' : MemBlock) : Prop := disjoint_range (addr b) (size b) (addr b') (size b').

Definition arenas_disjoint (l : list MemoryArena) : Prop :=
  forall i j a a', i <> j -> l !! i = Some a -> l !! j = Some a' ->
    block_disjoint (arange a) (arange a').

(** [in_arena b a]: block [b] lies in the part of [a] already handed out. *)
Definition in_arena (b : MemBlock) (a : MemoryArena) : Prop :=
  0 <= size b /\ addr (arange a) <= addr b /\ addr b + size b <= cursor_addr a.

(** [bs] are the blocks handed out so far. *)
Record alloc_inv (s : MemoryAllocator) (bs : list MemBlock) : Prop := {
  inv_arenas : Forall arena_ok (code_arenas s);
  inv_disjoint : arenas_disjoint (code_arenas s);
  inv_mapped : Forall (fun a => (addr (arange a), size (arange a)) ∈ mappings (proc s)) (code_arenas s);
  inv_prot : forall a x, a ∈ code_arenas s -> addr (arange a) <= x < end_ (arange a) ->
    pprot (proc s) x = RX;
  inv_blocks : Forall (fun b => exists a, a ∈ code_arenas s /\ in_arena b a) bs;
  inv_separate : forall i j b b', i <> j -> bs !! i = Some b -> bs !! j = Some b' -> block_disjoint b b' }.

Definition bump (a : MemoryArena) (n : Z) : MemoryArena := mkArena (arange a) (cursor_addr a + n).
Definition fits (a : MemoryArena) (n : Z) : Prop := cursor_addr a + n <= end_ (arange a).

Lemma allocMemBlock_spec a n :
  arena_ok a -> 0 <= n < 2 ^ 32 ->
  (fits a n /\ allocMemBlock a n = (Some (newMemBlock (cursor_addr a) n), bump a n)) \/
  (~ fits a n /\ allocMemBlock a n = (None, a)).
Proof.
  intros (H0 & _ & _ & Hs & He & Hc & Ht) Hn. unfold allocMemBlock, fits.
  rewrite (trunc_small 64) by lia.
  destruct (Z.ltb_spec (end_ (arange a) - cursor_addr a) n); [right|left].
  - split; [lia|done].
  - split; [lia|]. unfold bump. by rewrite (trunc_small 64) by lia.
Qed.

Lemma alloc_first_spec l n :
  Forall arena_ok l -> 0 <= n < 2 ^ 32 ->
  (exists i a, l !! i = Some a /\ fits a n /\
     alloc_first l n = (Some (newMemBlock (cursor_addr a) n), <[i := bump a n]> l)) \/
  (Forall (fun a => ~ fits a n) l /\ alloc_first l n = (None, l)).
Proof.
  intros Hl Hn. induction Hl as [|a l Ha Hl IH]; [right; split; [constructor|done]|].
  cbn [alloc_first]. destruct (allocMemBlock_spec a n Ha Hn) as [[Hf ->]|[Hf ->]].
  - left. exists 0%nat, a. done.
  - destruct IH as [(i & a' & Hi & Hf' & ->)|[Hall ->]].
    + left. exists (S i), a'. done.
    + right. split; [by constructor|done].
Qed.

Lemma u64_block a n : 0 <= a -> 0 <= n < 2 ^ 32 -> a + n <= 2 ^ 48 ->
  end_ (newMemBlock a n) = a + n /\ addr (newMemBlock a n) = a /\ size (newMemBlock a n) = n.
Proof. intros. cbn. by rewrite (trunc_small 64) by lia. Qed.

(** Handing out a block of an arena that has room keeps the invariant. *)
Lemma alloc_inv_bump s bs i a n :
  alloc_inv s bs -> 0 <= n < 2 ^ 32 -> code_arenas s !! i = Some a -> fits a n ->
  alloc_inv (set_code (<[i := bump a n]> (code_arenas s)) s) (newMemBlock (cursor_addr a) n :: bs).
Proof.
  intros [Ia Id Im Ip Ib Is] Hn Hi Hf.
  pose proof (proj1 (Forall_lookup _ _) Ia _ _ Hi) as Ha.
  pose proof Ha as (H0 & H1 & H2 & H3 & H4 & H5 & H6). unfold fits in Hf.
  set (l := code_arenas s) in *.
  assert (Hsame : forall j a', (<[i:=bump a n]> l) !! j = Some a' ->
     exists a0, l !! j = Some a0 /\ arange a' = arange a0 /\ cursor_addr a0 <= cursor_addr a').
  { intros j a' Hj. destruct (decide (i = j)) as [<-|Hne].
    - rewrite list_lookup_insert_eq in Hj by (by eapply lookup_lt_Some).
      injection Hj as <-. exists a. cbn. split; [done|]. split; [done|lia].
    - rewrite list_lookup_insert_ne in Hj by done. exists a'. split; [done|]. split; [done|lia]. }
  assert (Hin : bump a n ∈ <[i:=bump a n]> l).
  { apply list_elem_of_lookup_2 with i. apply list_lookup_insert_eq. by eapply lookup_lt_Some. }
  constructor; cbn.
  - apply Forall_insert; [done|]. unfold arena_ok, bump. cbn. repeat split; lia || done.
  - intros j k b b' Hne Hj Hk. apply Hsame in Hj as (b0 & Hj & -> & _).
    apply Hsame in Hk as (b0' & Hk & -> & _). by apply (Id j k).
  - apply Forall_insert; [done|]. cbn. by apply (proj1 (Forall_lookup _ _) Im i).
  - intros a' x (j & Hj)%list_elem_of_lookup Hx. apply Hsame in Hj as (a0 & Hj & E & _).
    rewrite E in Hx. eapply Ip; [|exact Hx]. by eapply list_elem_of_lookup_2.
  - constructor.
    + exists (bump a n). split; [done|]. unfold in_arena. cbn. lia.
    + eapply Forall_impl; [exact Ib|]. intros b (a' & (j & Hj)%list_elem_of_lookup & Hb).
      destruct (decide (i = j)) as [<-|Hne].
      * exists (bump a n). split; [done|]. assert (a' = a) as -> by congruence.
        unfold in_arena in *. cbn. lia.
      * exists a'. split; [|done]. apply list_elem_of_lookup_2 with j.
        by rewrite list_lookup_insert_ne.
  - assert (Hnew : forall b, b ∈ bs -> block_disjoint (newMemBlock (cursor_addr a) n) b).
    { intros b Hb. pose proof (proj1 (Forall_forall _ _) Ib b Hb) as (a' & (j & Hj)%list_elem_of_lookup & Hb0 & Hb1 & Hb2).
      pose proof (proj1 (Forall_lookup _ _) Ia _ _ Hj) as (G0 & _ & _ & G3 & G4 & G5 & _).
      unfold block_disjoint, disjoint_range. cbn. destruct (decide (i = j)) as [<-|Hne].
      - assert (a' = a) as -> by congruence. right. lia.
      - destruct (Id i j a a' Hne Hi Hj) as [Hd|Hd]; unfold disjoint_range in *; lia. }
    intros [|j] [|k] b b' Hne Hj Hk; cbn in Hj, Hk; [done| | |by apply (Is j k); [lia|..]].
    + injection Hj as <-. apply Hnew. by eapply list_elem_of_lookup_2.
    + injection Hk as <-. apply list_elem_of_lookup_2, Hnew in Hj.
      unfold block_disjoint, disjoint_range in *. lia.
Qed.

(** The kernel gives a region of [n] bytes and lets it be executable. *)
Definition kernel_serves (s : MemoryAllocator) (n : Z) : Prop :=
  exists a, mmap_result (mappings (proc s)) 0 n = Some a /\
    mprotect_ok ((a, n) :: mappings (proc s)) a n RX = true.

Lemma in_pages_range a n x :
  a mod PageSize = 0 -> n mod PageSize = 0 -> in_pages a n x = true <-> a <= x < a + n.
Proof.
  intros Ha Hn. pose proof PageSize_pos as HP. unfold in_pages.
  rewrite andb_true_iff, Z.leb_le, Z.ltb_lt. generalize dependent PageSize. intros ps Ha Hn HP.
  apply Z.mod_divide in Ha as [q ->]; [|lia]. apply Z.mod_divide in Hn as [r ->]; [|lia].
  rewrite Z.div_mul by lia. assert (Hp0 : ps <> 0) by lia.
  pose proof (Z.div_mod x ps Hp0) as Ex. pose proof (Z.mod_pos_bound x ps HP).
  set (y := x / ps) in *. rewrite <- Z.mul_add_distr_r. split; intros [H1 H2].
  - apply Z.mul_lt_mono_pos_r in H2; [|done]. split; nia.
  - split; [|nia]. apply Z.lt_succ_r. apply (Z.mul_lt_mono_pos_r ps); [done|]. nia.
Qed.

(** Mapped memory is left alone: contents and protections. *)
Definition keeps_mapped (p p' : process) : Prop :=
  forall r x, r ∈ mappings p -> r.1 <= x < r.1 + r.2 -> pmem p' x = pmem p x /\ pprot p' x = pprot p x.

Lemma allocateCodeMemoryArena_inv s bs n :
  alloc_inv s bs -> 0 < n < 2 ^ 32 -> n mod PageSize = 0 -> kernel_serves s n ->
  exists a s', allocateCodeMemoryArena n s = (newMemoryArena a n, s') /\
    code_arenas s' = code_arenas s ++ [newMemoryArena a n] /\ alloc_inv s' bs /\
    keeps_mapped (proc s) (proc s') /\
    Forall (fun '(a', n') => disjoint_range a n a' n') (mappings (proc s)).
Proof.
  intros [Ia Id Im Ip Ib Is] Hn Hm (a & Ha & Hp).
  unfold allocateCodeMemoryArena, Allocate, Allocate_fixed, SetPermission, mprotect.
  cbn [GetProtectionFromMemoryPermission]. rewrite (trunc_small 32), Ha by lia. cbn [mappings].
  rewrite Hp. eexists a, _. split; [done|].
  pose proof (mmap_page_aligned _ _ _ _ Ha) as Hal. fold PageSize in Hal.
  pose proof (mmap_user_range _ _ _ _ Ha) as [Hlo Hhi].
  pose proof (mmap_fresh _ _ _ Ha) as Hfr. pose proof Hfr as Hfr0. rewrite Forall_forall in Hfr.
  assert (Hnew : end_ (newMemBlock a n) = a + n) by (cbn; rewrite (trunc_small 64) by lia; done).
  assert (Hout : forall r x, r ∈ mappings (proc s) -> r.1 <= x < r.1 + r.2 -> in_pages a n x = false).
  { intros [a' n'] x Hr Hx. cbn in Hx. apply not_true_iff_false. rewrite in_pages_range by done.
    specialize (Hfr _ Hr). cbn in Hfr. unfold disjoint_range in Hfr. lia. }
  split; [done|]. split; [constructor; cbn -[newMemBlock]|split; [|exact Hfr0]].
  - apply Forall_app. split; [done|]. constructor; [|constructor]. unfold arena_ok, newMemoryArena.
    cbn -[newMemBlock]. rewrite Hnew. cbn. repeat split; lia || done.
  - assert (Hx : forall i c, code_arenas s !! i = Some c -> block_disjoint (newMemBlock a n) (arange c)).
    { intros i c Hi. pose proof (proj1 (Forall_lookup _ _) Im _ _ Hi) as Hc.
      exact (Hfr _ Hc). }
    intros i j c c' Hne Hi Hj. apply lookup_app_Some in Hi as [Hi|[Hi1 Hi2]];
      apply lookup_app_Some in Hj as [Hj|[Hj1 Hj2]].
    + by apply (Id i j).
    + apply list_lookup_singleton_Some in Hj2 as [_ <-]. apply Hx in Hi.
      unfold block_disjoint, disjoint_range in *. cbn in *. lia.
    + apply list_lookup_singleton_Some in Hi2 as [_ <-]. by apply (Hx j).
    + apply list_lookup_singleton_Some in Hi2 as [E1 _], Hj2 as [E2 _]. lia.
  - apply Forall_app. split; [|constructor; [by left|constructor]].
    eapply Forall_impl; [exact Im|]. intros c Hc. by right.
  - intros c x [Hc|Hc%list_elem_of_singleton]%elem_of_app Hx.
    + pose proof (proj1 (Forall_forall _ _) Im c Hc) as Hm'.
      pose proof (proj1 (Forall_forall _ _) Ia c Hc) as (_ & _ & _ & _ & He & _).
      rewrite (Hout _ x Hm') by (cbn; lia). by apply (Ip c).
    + subst c. cbn -[newMemBlock] in Hx. rewrite Hnew in Hx. cbn in Hx.
      by rewrite (proj2 (in_pages_range a n x Hal Hm)).
  - eapply Forall_impl; [exact Ib|]. intros b (c & Hc & Hb). exists c. split; [|done].
    apply elem_of_app. by left.
  - exact Is.
  - intros r x Hr Hx. cbn. by rewrite (Hout r x Hr Hx).
Qed.

(** A range of a live region that no arena covers. *)
Definition free_of (s : MemoryAllocator) (x m : Z) : Prop :=
  (exists r, r ∈ mappings (proc s) /\ r.1 <= x /\ x + m <= r.1 + r.2) /\
  forall a, a ∈ code_arenas s -> disjoint_range x m (addr (arange a)) (size (arange a)).

(** The size of the arena opened for a block. *)
Definition arena_for (n : Z) : Z := ALIGN_CEIL n PageSize.

Lemma arena_for_spec n :
  0 < n < 2 ^ 31 -> n <= arena_for n < 2 ^ 32 /\ arena_for n mod PageSize = 0.
Proof.
  intros. pose proof page_shift_range as Hp. unfold arena_for, PageSize.
  assert (2 ^ page_shift <= 2 ^ 16) by (apply Z.pow_le_mono_r; lia).
  assert (0 < 2 ^ page_shift) by lia.
  destruct (ALIGN_CEIL_bounds n page_shift) as [? ?]; [lia..|]. split; [lia|done].
Qed.

Lemma alloc_last_snoc l a n :
  alloc_last (l ++ [a]) n = (let '(r, a') := allocMemBlock a n in (r, l ++ [a'])).
Proof. unfold alloc_last. rewrite last_snoc. by rewrite removelast_last. Qed.

(** A block is in its arena, so its pages are executable and not writable. *)
Lemma block_prot s bs b x :
  alloc_inv s bs -> b ∈ bs -> addr b <= x < addr b + size b -> pprot (proc s) x = RX.
Proof.
  intros [Ia _ _ Ip Ib _] Hb Hx.
  destruct (proj1 (Forall_forall _ _) Ib b Hb) as (a & Ha & H0 & H1 & H2).
  pose proof (proj1 (Forall_forall _ _) Ia a Ha) as (_ & _ & _ & _ & _ & ? & _).
  apply (Ip a); [done|lia].
Qed.

Lemma allocateExecBlock_inv s bs n :
  alloc_inv s bs -> 0 < n < 2 ^ 31 -> kernel_serves s (arena_for n) ->
  exists b s', allocateExecBlock n s = (Some b, s') /\ size b = n /\
    0 < addr b /\ addr b + n <= 2 ^ 48 /\
    alloc_inv s' (b :: bs) /\ keeps_mapped (proc s) (proc s') /\
    (forall x m, 0 <= m -> free_of s x m -> disjoint_range x m (addr b) n).
Proof.
  intros Hinv Hn Hk. unfold allocateExecBlock. rewrite (trunc_small 32) by lia.
  pose proof (inv_arenas _ _ Hinv) as Ia.
  destruct (alloc_first_spec (code_arenas s) n Ia ltac:(lia)) as [(i & a & Hi & Hf & ->)|[_ ->]].
  - pose proof (proj1 (Forall_lookup _ _) Ia _ _ Hi) as (? & _ & _ & _ & ? & ? & ?).
    unfold fits in Hf. eexists _, _. split; [done|]. cbn [addr size newMemBlock].
    split; [done|]. split; [lia|]. split; [lia|]. split; [by apply alloc_inv_bump; [|lia|..]|].
    split; [done|]. intros x m Hm0 [_ Hx]. apply list_elem_of_lookup_2, Hx in Hi.
    unfold disjoint_range in *. lia.
  - destruct (arena_for_spec n ltac:(lia)) as [Ha Hm].
    assert (Es : set_code (code_arenas s) s = s) by (by destruct s). rewrite Es.
    cbv zeta. change (ALIGN_CEIL n PageSize) with (arena_for n).
    destruct (allocateCodeMemoryArena_inv s bs (arena_for n) Hinv ltac:(lia) Hm Hk)
      as (a & s' & -> & Ea & Hinv' & Hkm & Hfr).
    rewrite Ea, alloc_last_snoc. pose proof (inv_arenas _ _ Hinv') as Ia'. rewrite Ea in Ia'.
    apply Forall_app in Ia' as [_ Ha']. apply Forall_cons in Ha' as [Ha' _].
    pose proof Ha' as (H0 & _ & _ & _ & He & _ & Ht). cbn in He. 
    assert (Hf : fits (newMemoryArena a (arena_for n)) n) by (unfold fits; cbn in *; lia).
    destruct (allocMemBlock_spec _ n Ha' ltac:(lia)) as [[_ ->]|[Hf' _]]; [|done].
    eexists _, _. split; [done|]. cbn in H0, Ht. cbn [addr size newMemBlock newMemoryArena cursor_addr].
    split; [done|]. split; [cbn in *; lia|]. split; [unfold fits in Hf; cbn in *; lia|].
    split; [|split; [done|intros x m Hm0 [(r & Hr & Hx) _]; rewrite Forall_forall in Hfr;
      specialize (Hfr r Hr); destruct r; unfold disjoint_range in *; cbn in *; lia]].
    set (ar := newMemoryArena a (arena_for n)) in *.
    assert (Ei : code_arenas s ++ [bump ar n] = <[length (code_arenas s) := bump ar n]> (code_arenas s')).
    { rewrite Ea, insert_app_r_alt by lia. by rewrite Nat.sub_diag. }
    rewrite Ei. apply (alloc_inv_bump _ _ _ ar); [done|lia| |done].
    rewrite Ea, lookup_app_r by lia. by rewrite Nat.sub_diag.
Qed.

(** With no arena yet. *)
Definition newMemoryAllocator (p : process) : MemoryAllocator :=
  {| code_arenas := []; data_arenas := []; proc := p |}.

Lemma alloc_inv_new p : alloc_inv (newMemoryAllocator p) [].
Proof.
  constructor; cbn.
  - constructor.
  - intros i j a a' _ Hi. done.
  - constructor.
  - intros a x Ha. by apply not_elem_of_nil in Ha.
  - constructor.
  - intros i j b b' _ Hi. done.
Qed.
End Invariant.
