(* ===== verification/RelocArm64.v ===== *)
(** Instruction relocation
    ([InstructionRelocation/arm64/InstructionRelocationARM64.cc]) and the code
    builder that places its result ([MemoryAllocator/AssemblyCodeBuilder.cc]).

    The instructions a trampoline overwrites are copied to a fresh executable
    block; the PC-relative ones are replaced by sequences that compute the same
    absolute addresses. *)
From S2P Require Import Prelude UtilityMacro Arm64Const Arm64Kit CodeBuffer Assembler AssemblerArm64 Platform.
From S2P Require Import MemAlloc.

(** [AssemblyCodeBuilder::FinalizeFromTurboAssembler]: the block is null when
    the allocator has none. *)
Definition FinalizeFromTurboAssembler `{Kernel} (assembler : AssemblerBase) (s : MemoryAllocator) :
    option (option MemBlock * MemoryAllocator) :=
  let buffer := buffer_ assembler in
  let realized_addr := GetRealizedAddress assembler in
  let patch (realized_addr : Z) (s : MemoryAllocator) :=
    p ← DobbyCodePatch realized_addr buffer (proc s);
    Some (Some (newMemBlock realized_addr (GetBufferSize buffer)), set_proc p s) in
  if realized_addr =? 0 then
    match allocateExecBlock (GetBufferSize buffer) s with
    | (None, s) => Some (None, s)
    | (Some block, s) => patch (addr block) s
    end
  else patch realized_addr s.

(** ** Classification *)

Definition inst_is_b_bl (instr : Z) : bool :=
  Z.land instr UnconditionalBranchFixedMask =? UnconditionalBranchFixed.
Definition inst_is_ldr_literal (instr : Z) : bool :=
  Z.land instr LoadRegLiteralFixedMask =? LoadRegLiteralFixed.
Definition inst_is_adr (instr : Z) : bool :=
  (Z.land instr PCRelAddressingFixedMask =? PCRelAddressingFixed) &&
  (Z.land instr PCRelAddressingMask =? ADR).
Definition inst_is_adrp (instr : Z) : bool :=
  (Z.land instr PCRelAddressingFixedMask =? PCRelAddressingFixed) &&
  (Z.land instr PCRelAddressingMask =? ADRP).
Definition inst_is_b_cond (instr : Z) : bool :=
  Z.land instr ConditionalBranchFixedMask =? ConditionalBranchFixed.
Definition inst_is_compare_b (instr : Z) : bool :=
  Z.land instr CompareBranchFixedMask =? CompareBranchFixed.
Definition inst_is_test_b (instr : Z) : bool :=
  Z.land instr TestBranchFixedMask =? TestBranchFixed.

Definition arm64_trunc_page (x : Z) : Z := u64 (Z.land x (Z.lnot (0x1000 - 1))).

(** ** One instruction *)

(** The label of a destination, registered with the assembler. *)
Definition relo_ldr_branch (dst_vmaddr : Z) : asmM nat :=
  dst_label ← new_label 8 dst_vmaddr;
  AppendRelocLabel dst_label ;;
  mret dst_label.

Definition relo_b_bl (cur_src_vmaddr inst : Z) : asmM unit :=
  let offset := decode_imm26_offset inst in
  let dst_vmaddr := u64 (cur_src_vmaddr + offset) in
  dst_label ← relo_ldr_branch dst_vmaddr;
  Ldr TMP_REG_0 dst_label ;;
  if Z.land inst UnconditionalBranchMask =? BL then blr TMP_REG_0 else br TMP_REG_0.

(** [ldr(W(rt), ..)] and [ldr(X(rt), ..)]; [UNIMPLEMENTED()] emits nothing. *)
Definition relo_ldr_literal (cur_src_vmaddr inst : Z) : asmM unit :=
  let offset := decode_imm19_offset inst in
  let dst_vmaddr := u64 (cur_src_vmaddr + offset) in
  let rt := decode_rt inst in
  let opc := bits inst 30 31 in
  Mov TMP_REG_0 dst_vmaddr ;;
  if opc =? 0 then ldr_mem (W rt) (MemOperand_imm TMP_REG_0 0 Offset)
  else if opc =? 1 then ldr_mem (X rt) (MemOperand_imm TMP_REG_0 0 Offset)
  else UNREACHABLE.

Definition relo_adr (cur_src_vmaddr inst : Z) : asmM unit :=
  let offset := decode_immhi_immlo_offset inst in
  let dst_vmaddr := u64 (cur_src_vmaddr + offset) in
  let rd := decode_rd inst in
  Mov (X rd) dst_vmaddr.

Definition relo_adrp (cur_src_vmaddr inst : Z) : asmM unit :=
  let offset := decode_immhi_immlo_zero12_offset inst in
  let dst_vmaddr := u64 (cur_src_vmaddr + offset) in
  let dst_vmaddr := arm64_trunc_page dst_vmaddr in
  let rd := decode_rd inst in
  Mov (X rd) dst_vmaddr.

(** The inverted branches over the [ldr; br] pair. *)
Definition invert_b_cond (inst : Z) : Z :=
  let cond := Z.lxor (bits inst 0 3) 1 in
  let branch_instr := set_bits inst 0 3 cond in
  let imm19 := Z.shiftr (4 * 3) 2 in
  set_bits branch_instr 5 23 imm19.
Definition invert_compare_b (inst : Z) : Z :=
  let op := Z.lxor (bit inst 24) 1 in
  let branch_instr := set_bit inst 24 op in
  let imm19 := Z.shiftr (4 * 3) 2 in
  set_bits branch_instr 5 23 imm19.
Definition invert_test_b (inst : Z) : Z :=
  let op := Z.lxor (bit inst 24) 1 in
  let branch_instr := set_bit inst 24 op in
  let imm14 := Z.shiftr (4 * 3) 2 in
  set_bits branch_instr 5 18 imm14.

Definition relo_cond (branch_instr dst_vmaddr : Z) : asmM unit :=
  dst_label ← relo_ldr_branch dst_vmaddr;
  EmitWord branch_instr ;;
  Ldr TMP_REG_0 dst_label ;;
  br TMP_REG_0.

Definition relo_b_cond (cur_src_vmaddr inst : Z) : asmM unit :=
  relo_cond (invert_b_cond inst) (u64 (cur_src_vmaddr + decode_imm19_offset inst)).
Definition relo_compare_b (cur_src_vmaddr inst : Z) : asmM unit :=
  relo_cond (invert_compare_b inst) (u64 (cur_src_vmaddr + decode_imm19_offset inst)).
Definition relo_test_b (cur_src_vmaddr inst : Z) : asmM unit :=
  relo_cond (invert_test_b inst) (u64 (cur_src_vmaddr + decode_imm14_offset inst)).

(** The cascade of [relo_relocate]'s loop body. *)
Definition relo_insn (cur_src_vmaddr inst : Z) : asmM unit :=
  if inst_is_b_bl inst then relo_b_bl cur_src_vmaddr inst
  else if inst_is_ldr_literal inst then relo_ldr_literal cur_src_vmaddr inst
  else if inst_is_adr inst then relo_adr cur_src_vmaddr inst
  else if inst_is_adrp inst then relo_adrp cur_src_vmaddr inst
  else if inst_is_b_cond inst then relo_b_cond cur_src_vmaddr inst
  else if inst_is_compare_b inst then relo_compare_b cur_src_vmaddr inst
  else if inst_is_test_b inst then relo_test_b cur_src_vmaddr inst
  else EmitWord inst.

(** ** The context and the loop *)

(** [buffer] is the memory at [ctx->buffer]; [buffer_cursor] is an offset in it. *)
Record relo_ctx_t := {
  buffer : list byte; buffer_cursor : Z; buffer_size : Z;
  src_vmaddr : Z; dst_vmaddr : Z; relocated_offset_map : gmap Z Z }.

Definition relo_cur_src_vmaddr (ctx : relo_ctx_t) : Z := u64 (src_vmaddr ctx + buffer_cursor ctx).

(** One iteration. *)
Definition relo_iter (ctx : relo_ctx_t) (asm : AssemblerBase) : option (relo_ctx_t * AssemblerBase) :=
  let orig_off := u32 (buffer_cursor ctx) in
  let relocated_off := u32 (GetBufferSize (buffer_ asm)) in
  inst ← LoadInst (buffer ctx) (buffer_cursor ctx);
  '(_, asm) ← relo_insn (relo_cur_src_vmaddr ctx) inst asm;
  Some ({| buffer := buffer ctx; buffer_cursor := buffer_cursor ctx + 4;
           buffer_size := buffer_size ctx; src_vmaddr := src_vmaddr ctx;
           dst_vmaddr := dst_vmaddr ctx;
           relocated_offset_map := <[orig_off := relocated_off]> (relocated_offset_map ctx) |}, asm).

(** The [while] loop, with fuel. *)
Fixpoint relo_loop (fuel : nat) (ctx : relo_ctx_t) (asm : AssemblerBase) : option (relo_ctx_t * AssemblerBase) :=
  if buffer_cursor ctx <? buffer_size ctx then
    match fuel with
    | O => None
    | S fuel => '(ctx, asm) ← relo_iter ctx asm; relo_loop fuel ctx asm
    end
  else Some (ctx, asm).

(** The emission part of [relo_relocate]: the loop, the reset of [origin], the
    branch back, and the literals. *)
Definition relo_emit (fuel : nat) (ctx : relo_ctx_t) (origin : MemBlock) (branch : bool) :
    option (relo_ctx_t * MemBlock * AssemblerBase) :=
  '(ctx, asm) ← relo_loop fuel ctx (newAssembler 0);
  let new_origin_len := s32 (buffer_cursor ctx) in
  let origin := reset origin (addr origin) (u64 new_origin_len) in
  '(_, asm) ← (if branch then LiteralLdrBranch (u64 (addr origin + size origin)) else mret tt) asm;
  '(_, asm) ← RelocBind asm;
  Some (ctx, origin, asm).

Section Relocate.
Context `{Kernel}.

(** [GenRelocateCode]: a null code block is dereferenced. [origin] is updated in
    place and returned. *)
Definition GenRelocateCode (fuel : nat) (buf : list byte) (origin relocated : MemBlock) (branch : bool)
    (s : MemoryAllocator) : option (MemBlock * MemBlock * MemoryAllocator) :=
  let ctx := {| buffer := buf; buffer_cursor := 0; buffer_size := size origin;
                src_vmaddr := addr origin; dst_vmaddr := addr relocated;
                relocated_offset_map := ∅ |} in
  '(ctx, origin, asm) ← relo_emit fuel ctx origin branch;
  '(code, s) ← FinalizeFromTurboAssembler asm s;
  code ← code;
  Some (origin, reset relocated (addr code) (size code), s).

Definition GenRelocateCodeAndBranch (fuel : nat) (buf : list byte) (origin relocated : MemBlock)
    (s : MemoryAllocator) : option (MemBlock * MemBlock * MemoryAllocator) :=
  GenRelocateCode fuel buf origin relocated true s.
End Relocate.
