(* ===== verification/RelocSpec.v ===== *)
(** What relocation emits for each instruction: the relocator's classification
    agrees with the architecture's decoding, and its emitters append a fixed item
    list. *)
From S2P Require Import Prelude UtilityMacro Arm64Const Arm64Kit CodeBuffer Assembler AssemblerArm64 Arm64Isa.
From S2P Require Import LiteralPool Arm64Emit Arm64Run Platform MemAlloc RelocArm64.

(** ** The emitted items *)

Definition relo_items (cur inst : Z) : list item :=
  let cond_items branch_instr dst := [Word branch_instr; Lit dst; Word (br_word TMP_REG_0)] in
  if inst_is_b_bl inst then
    [Lit (u64 (cur + decode_imm26_offset inst));
     Word (if Z.land inst UnconditionalBranchMask =? BL then blr_word TMP_REG_0 else br_word TMP_REG_0)]
  else if inst_is_ldr_literal inst then
    (Word <$> mov_words 17 (u64 (cur + decode_imm19_offset inst))) ++
    (if bits inst 30 31 =? 0 then [Word (LoadStore_word LDR_x (W (decode_rt inst)) (MemOperand_imm TMP_REG_0 0 Offset))]
     else if bits inst 30 31 =? 1 then [Word (LoadStore_word LDR_x (X (decode_rt inst)) (MemOperand_imm TMP_REG_0 0 Offset))]
     else [])
  else if inst_is_adr inst then
    Word <$> mov_words (decode_rd inst) (u64 (cur + decode_immhi_immlo_offset inst))
  else if inst_is_adrp inst then
    Word <$> mov_words (decode_rd inst) (arm64_trunc_page (u64 (cur + decode_immhi_immlo_zero12_offset inst)))
  else if inst_is_b_cond inst then cond_items (invert_b_cond inst) (u64 (cur + decode_imm19_offset inst))
  else if inst_is_compare_b inst then cond_items (invert_compare_b inst) (u64 (cur + decode_imm19_offset inst))
  else if inst_is_test_b inst then cond_items (invert_test_b inst) (u64 (cur + decode_imm14_offset inst))
  else [Word inst].

Lemma relo_cond_asm_of a its w v :
  relo_cond w v (asm_of a its) =
  Some (tt, asm_of a (its ++ [Word w; Lit v; Word (br_word TMP_REG_0)])).
Proof.
  (* the label is allocated before the branch word; the rest commutes *)
  assert (E : relo_cond w v (asm_of a its) = (EmitWord w ;; load_literal v ;; br TMP_REG_0) (asm_of a its)).
  { unfold relo_cond, relo_ldr_branch, load_literal, br, mbind, mret, asmM_bind, asmM_ret, new_label,
      AppendRelocLabel, EmitWord, set_buffer.
    cbn -[Ldr newRelocLabel seq]. reflexivity. }
  rewrite E. erewrite asmM_bind_eq by apply EmitWord_asm_of.
  erewrite asmM_bind_eq by apply load_literal_asm_of.
  unfold br. by rewrite EmitWord_asm_of, <- !app_assoc.
Qed.

Lemma ldr_mem_asm_of a its rt m :
  addrmode_ m = Offset ->
  ldr_mem rt m (asm_of a its) = Some (tt, asm_of a (its ++ [Word (LoadStore_word LDR_x rt m)])).
Proof.
  intros E. unfold ldr_mem, LoadStore, IsImmediateOffset. rewrite E.
  rewrite bool_decide_eq_true_2 by done. apply EmitWord_asm_of.
Qed.

Lemma relo_insn_asm_of a its cur inst :
  relo_insn cur inst (asm_of a its) = Some (tt, asm_of a (its ++ relo_items cur inst)).
Proof.
  unfold relo_insn, relo_items. cbv zeta.
  destruct (inst_is_b_bl inst).
  { change (relo_b_bl cur inst (asm_of a its)) with
      ((load_literal (u64 (cur + decode_imm26_offset inst)) ;;
        if Z.land inst UnconditionalBranchMask =? BL then blr TMP_REG_0 else br TMP_REG_0) (asm_of a its)).
    erewrite asmM_bind_eq by apply load_literal_asm_of.
    destruct (_ =? BL); unfold br, blr; by rewrite EmitWord_asm_of, <- app_assoc. }
  destruct (inst_is_ldr_literal inst).
  { unfold relo_ldr_literal. cbv zeta.
    erewrite asmM_bind_eq by apply (Mov_asm_of a its 17).
    destruct (bits inst 30 31 =? 0); [|destruct (bits inst 30 31 =? 1)];
      [rewrite ldr_mem_asm_of by done; by rewrite <- app_assoc..|]. by rewrite app_nil_r. }
  destruct (inst_is_adr inst); [apply Mov_asm_of|].
  destruct (inst_is_adrp inst); [apply Mov_asm_of|].
  destruct (inst_is_b_cond inst); [apply relo_cond_asm_of|].
  destruct (inst_is_compare_b inst); [apply relo_cond_asm_of|].
  destruct (inst_is_test_b inst); [apply relo_cond_asm_of|].
  apply EmitWord_asm_of.
Qed.

(** ** The loop *)

Fixpoint items_from (src : Z) (k : nat) (ws : list Z) : list item :=
  match ws with
  | [] => []
  | w :: ws => relo_items (u64 (src + 4 * Z.of_nat k)) w ++ items_from src (S k) ws
  end.

Lemma items_from_app src k ws ws' :
  items_from src k (ws ++ ws') = items_from src k ws ++ items_from src (k + length ws) ws'.
Proof.
  revert k. induction ws as [|w ws IH]; intros k; cbn; [by rewrite Nat.add_0_r|].
  by rewrite IH, <- app_assoc, Nat.add_succ_r.
Qed.

(** At most seven items per instruction: each is at most five words. *)
Lemma relo_items_length cur w : (length (relo_items cur w) <= 5)%nat.
Proof.
  unfold relo_items. cbv zeta.
  repeat match goal with |- context [if ?b then _ else _] => destruct b end;
    cbn -[MoveWide_word]; lia.
Qed.

Lemma items_from_length src k ws : (length (items_from src k ws) <= 5 * length ws)%nat.
Proof.
  revert k. induction ws as [|w ws IH]; intros k; cbn; [lia|]. rewrite length_app.
  pose proof (relo_items_length (u64 (src + 4 * Z.of_nat k)) w). specialize (IH (S k)). lia.
Qed.

(** [buffer_words b k ws]: the words [ws] are in the buffer from word [k] on. *)
Definition buffer_words (b : list byte) (k : nat) (ws : list Z) : Prop :=
  forall j w, ws !! j = Some w -> LoadInst b (4 * Z.of_nat (k + j)) = Some w.

Lemma relo_iter_spec a ctx its k w :
  LoadInst (buffer ctx) (buffer_cursor ctx) = Some w -> buffer_cursor ctx = 4 * Z.of_nat k ->
  exists m,
  relo_iter ctx (asm_of a its) =
    Some ({| buffer := buffer ctx; buffer_cursor := 4 * Z.of_nat (S k); buffer_size := buffer_size ctx;
             src_vmaddr := src_vmaddr ctx; dst_vmaddr := dst_vmaddr ctx; relocated_offset_map := m |},
          asm_of a (its ++ relo_items (u64 (src_vmaddr ctx + 4 * Z.of_nat k)) w)) /\
  m = <[u32 (4 * Z.of_nat k) := u32 (4 * Z.of_nat (length its))]> (relocated_offset_map ctx).
Proof.
  intros Hw Hc. unfold relo_iter. cbv zeta. rewrite Hw. cbn [mbind option_bind].
  unfold relo_cur_src_vmaddr. rewrite Hc, relo_insn_asm_of. cbn [mbind option_bind].
  pose proof (pc_offset_asm_of a its) as Hp. unfold pc_offset in Hp. rewrite Hp.
  eexists. split; [|reflexivity]. do 3 f_equal. lia.
Qed.

Lemma relo_loop_spec a ws : forall fuel ctx its k,
  buffer_cursor ctx = 4 * Z.of_nat k -> buffer_size ctx = 4 * Z.of_nat (k + length ws) ->
  buffer_words (buffer ctx) k ws -> (length ws <= fuel)%nat ->
  exists ctx', relo_loop fuel ctx (asm_of a its) =
      Some (ctx', asm_of a (its ++ items_from (src_vmaddr ctx) k ws)) /\
    buffer_cursor ctx' = 4 * Z.of_nat (k + length ws) /\ src_vmaddr ctx' = src_vmaddr ctx.
Proof.
  induction ws as [|w ws IH]; intros fuel ctx its k Hc Hs Hb Hf.
  - cbn in Hs. exists ctx. rewrite Nat.add_0_r in *. cbn [items_from]. rewrite app_nil_r.
    destruct fuel; cbn; rewrite (proj2 (Z.ltb_ge _ _)) by lia; done.
  - cbn in Hs, Hf. destruct fuel as [|fuel]; [lia|]. cbn [relo_loop].
    rewrite (proj2 (Z.ltb_lt _ _)) by lia.
    destruct (relo_iter_spec a ctx its k w) as (m & -> & _); [|done|].
    { rewrite Hc, <- (Nat.add_0_r k). by apply Hb. }
    cbn [mbind option_bind].
    destruct (IH fuel {| buffer := buffer ctx; buffer_cursor := 4 * Z.of_nat (S k);
                         buffer_size := buffer_size ctx; src_vmaddr := src_vmaddr ctx;
                         dst_vmaddr := dst_vmaddr ctx; relocated_offset_map := m |}
                (its ++ relo_items (u64 (src_vmaddr ctx + 4 * Z.of_nat k)) w) (S k))
      as (ctx' & E & Ec & Es); cbn [buffer buffer_cursor buffer_size src_vmaddr] in *; try (done || lia).
    { intros j v Hj. replace (S k + j)%nat with (k + S j)%nat by lia. by apply Hb. }
    exists ctx'. rewrite E. cbn [items_from length]. rewrite app_assoc.
    split; [done|]. split; [rewrite Ec; lia|done].
Qed.

(** The whole emission: the relocated instructions, the branch back to the
    first instruction that was not moved, and the literals. *)
Definition relo_program (src : Z) (ws : list Z) : list item :=
  items_from src 0 ws ++ [Lit (src + 4 * Z.of_nat (length ws)); Word (br_word TMP_REG_0)].

Lemma lits_length its : (length (lits its) <= length its)%nat.
Proof.
  assert (H : forall k, (length (lits_from k its) <= length its)%nat); [|apply H].
  induction its as [|[w|v] its IH]; intros k; cbn; [lia| |]; specialize (IH (S k)); lia.
Qed.

Lemma relo_emit_spec fuel ctx origin ws :
  buffer_cursor ctx = 0 -> buffer_size ctx = 4 * Z.of_nat (length ws) ->
  buffer_words (buffer ctx) 0 ws -> (length ws <= fuel)%nat -> (length ws < 1000)%nat ->
  addr origin = src_vmaddr ctx -> 0 <= src_vmaddr ctx < 2 ^ 62 ->
  exists ctx' asm', relo_emit fuel ctx origin true =
      Some (ctx', newMemBlock (src_vmaddr ctx) (4 * Z.of_nat (length ws)), asm') /\
    laid_out (buffer_ asm') (relo_program (src_vmaddr ctx) ws) /\ realized_addr_ asm' = 0 /\
    GetBufferSize (buffer_ asm') < 2 ^ 17.
Proof.
  intros Hc Hs Hb Hf Hn Ha Hsrc. unfold relo_emit. rewrite asm_of_nil.
  destruct (relo_loop_spec 0 ws fuel ctx [] 0 Hc Hs Hb Hf) as (ctx' & -> & Ec & Es).
  cbn [mbind option_bind app]. rewrite Ec, Nat.add_0_l. cbv zeta.
  rewrite (sext_small 32), (trunc_small 64 (4 * _)) by lia.
  cbn [addr size reset]. rewrite Ha, (trunc_small 64) by lia.
  rewrite LiteralLdrBranch_asm_of. cbn [mbind option_bind].
  change (_ ++ _) with (relo_program (src_vmaddr ctx) ws).
  set (its := relo_program (src_vmaddr ctx) ws).
  assert (Hlen : (length its <= 5 * length ws + 2)%nat).
  { unfold its, relo_program. rewrite length_app. cbn.
    pose proof (items_from_length (src_vmaddr ctx) 0 ws). lia. }
  pose proof (lits_length its).
  destruct (RelocBind_asm_of 0 its ltac:(lia)) as (asm' & -> & Hl & Hr).
  cbn [mbind option_bind]. exists ctx', asm'. split; [done|]. split; [done|]. split; [done|].
  destruct Hl as [-> _]. lia.
Qed.

(** ** Classification

    Every test of the relocator and of the decoder's PC-relative classes only
    looks at the top byte of the word. *)

Definition top (w : Z) : Z := bits w 24 31.

Lemma bits_top w a b : 0 <= w < 2 ^ 32 -> 24 <= a <= b -> b < 32 -> bits w a b = bits (top w) (a - 24) (b - 24).
Proof. intros. unfold top. bitwise. Qed.

Lemma land_top w m :
  0 <= w < 2 ^ 32 -> 0 <= m < 2 ^ 8 -> Z.land w (Z.shiftl m 24) = Z.shiftl (Z.land (top w) m) 24.
Proof.
  intros. unfold top. bitwise. by replace (i - 24 + 24) with i by lia.
Qed.

Lemma shiftl_24_eqb x y : (Z.shiftl x 24 =? Z.shiftl y 24) = (x =? y).
Proof.
  rewrite !Z.shiftl_mul_pow2 by lia. destruct (Z.eqb_spec x y) as [->|H].
  - apply Z.eqb_refl.
  - apply Z.eqb_neq. lia.
Qed.

Definition mask_top (m v h : Z) : bool := Z.land h m =? v.

Lemma mask_test w m v :
  0 <= w < 2 ^ 32 -> 0 <= m < 2 ^ 8 ->
  (Z.land w (Z.shiftl m 24) =? Z.shiftl v 24) = mask_top m v (top w).
Proof. intros. rewrite land_top by lia. apply shiftl_24_eqb. Qed.

(** The cascade of [relo_relocate] and the order of [decode], on the top byte. *)
Inductive kind := KB | KBL | KLit | KAdr | KAdrp | KBcond | KCmp | KTest | KNone.

Definition kind_eqb (a b : kind) : bool :=
  match a, b with
  | KB, KB | KBL, KBL | KLit, KLit | KAdr, KAdr | KAdrp, KAdrp | KBcond, KBcond
  | KCmp, KCmp | KTest, KTest | KNone, KNone => true
  | _, _ => false
  end.

Definition relo_kind (h : Z) : kind :=
  if mask_top 0x7C 0x14 h then (if mask_top 0xFC 0x94 h then KBL else KB)
  else if mask_top 0x3B 0x18 h then KLit
  else if mask_top 0x1F 0x10 h && mask_top 0x9F 0x10 h then KAdr
  else if mask_top 0x1F 0x10 h && mask_top 0x9F 0x90 h then KAdrp
  else if mask_top 0xFE 0x54 h then KBcond
  else if mask_top 0x7E 0x34 h then KCmp
  else if mask_top 0x7E 0x36 h then KTest
  else KNone.

Definition decode_kind (h : Z) : kind :=
  if bits h 2 6 =? 5 then (if Zbool (bits h 7 7) then KBL else KB)
  else if bits h 0 7 =? 0x54 then KBcond
  else if bits h 1 6 =? 0x1A then KCmp
  else if bits h 1 6 =? 0x1B then KTest
  else if bits h 0 4 =? 0x10 then (if Zbool (bits h 7 7) then KAdrp else KAdr)
  else if (bits h 3 5 =? 3) && (bits h 0 1 =? 0) then KLit
  else KNone.

(** A test of a byte holds when it holds of the 256 bytes. *)
Lemma byte_forall (P : Z -> bool) :
  forallb (fun n => P (Z.of_nat n)) (seq 0 256) = true -> forall h, 0 <= h < 2 ^ 8 -> P h = true.
Proof.
  intros Hall h Hr. rewrite forallb_forall in Hall. specialize (Hall (Z.to_nat h)).
  rewrite Z2Nat.id in Hall by lia. apply Hall, in_seq. lia.
Qed.

Lemma kind_eqb_eq a b : kind_eqb a b = true -> a = b.
Proof. by destruct a, b. Qed.

(** They agree but for the unallocated byte 0x55, which the relocator takes for a
    conditional branch. *)
Lemma kinds_agree h : 0 <= h < 2 ^ 8 -> h <> 0x55 -> relo_kind h = decode_kind h.
Proof.
  intros Hr Hne. pose proof (byte_forall (fun h => (h =? 0x55) || kind_eqb (relo_kind h) (decode_kind h))
    ltac:(vm_compute; reflexivity) h Hr) as [E|E]%orb_true_iff; [lia|]. by apply kind_eqb_eq.
Qed.

Lemma decode_kind_cmp h : 0 <= h < 2 ^ 8 -> decode_kind h = KCmp <-> bits h 1 6 = 0x1A.
Proof.
  intros Hr. pose proof (byte_forall (fun h => eqb (kind_eqb (decode_kind h) KCmp) (bits h 1 6 =? 0x1A))
    ltac:(vm_compute; reflexivity) h Hr) as E%eqb_prop.
  split; intros H; [rewrite H in E|rewrite H in E; cbn in E; by apply kind_eqb_eq].
  cbn in E. lia.
Qed.

Lemma decode_kind_test h : 0 <= h < 2 ^ 8 -> decode_kind h = KTest <-> bits h 1 6 = 0x1B.
Proof.
  intros Hr. pose proof (byte_forall (fun h => eqb (kind_eqb (decode_kind h) KTest) (bits h 1 6 =? 0x1B))
    ltac:(vm_compute; reflexivity) h Hr) as E%eqb_prop.
  split; intros H; [rewrite H in E|rewrite H in E; cbn in E; by apply kind_eqb_eq].
  cbn in E. lia.
Qed.

Lemma top_range w : 0 <= top w < 2 ^ 8.
Proof. apply (bits_range w 24 31). lia. Qed.

Lemma decode_by_kind w : 0 <= w < 2 ^ 32 ->
  decode w = match decode_kind (top w) with
    | KB => IB (soff 26 (bits w 0 25))
    | KBL => IBL (soff 26 (bits w 0 25))
    | KBcond => IBcond (bits w 0 3) (soff 19 (bits w 5 23))
    | KCmp => ICB (Zbool (bits w 31 31)) (Zbool (bits w 24 24)) (bits w 0 4) (soff 19 (bits w 5 23))
    | KTest => ITB (Zbool (bits w 24 24)) (bits w 19 23 + 32 * bits w 31 31) (bits w 0 4) (soff 14 (bits w 5 18))
    | KAdr => IADR (bits w 0 4) (sext 21 (bits w 29 30 + 4 * bits w 5 23))
    | KAdrp => IADRP (bits w 0 4) (4096 * sext 21 (bits w 29 30 + 4 * bits w 5 23))
    | KLit => if (bits w 26 26 =? 0) && (bits w 31 31 =? 0)
              then ILDRlit (Zbool (bits w 30 30)) (bits w 0 4) (soff 19 (bits w 5 23))
              else IPCRelOther w
    | KNone => decode_rest w
    end.
Proof.
  intros Hw. unfold decode, decode_kind. cbv zeta.
  rewrite (bits_top w 26 30), (bits_top w 24 31), (bits_top w 25 30), (bits_top w 24 28),
    (bits_top w 27 29), (bits_top w 24 25) by lia.
  repeat match goal with |- context [bits w 31 31] => rewrite (bits_top w 31 31) by lia end.
  cbn [Z.sub Z.add Z.opp Z.pos_sub Pos.pred_double Pos.add Pos.sub].
  change (26 - 24) with 2; change (30 - 24) with 6; change (31 - 24) with 7; change (25 - 24) with 1;
    change (24 - 24) with 0; change (28 - 24) with 4; change (27 - 24) with 3; change (29 - 24) with 5.
  by repeat match goal with |- context [if ?b then _ else _] => destruct b end.
Qed.

Ltac as_mask := repeat match goal with
  | |- context [Z.land ?w ?m =? ?v] =>
      let m' := eval vm_compute in (Z.shiftr m 24) in
      let v' := eval vm_compute in (Z.shiftr v 24) in
      replace (Z.land w m =? v) with (mask_top m' v' (top w))
        by (symmetry; exact (mask_test w m' v' ltac:(assumption) ltac:(lia)))
  end.

Lemma relo_items_by_kind cur w : 0 <= w < 2 ^ 32 ->
  relo_items cur w = match relo_kind (top w) with
    | KB => [Lit (u64 (cur + decode_imm26_offset w)); Word (br_word TMP_REG_0)]
    | KBL => [Lit (u64 (cur + decode_imm26_offset w)); Word (blr_word TMP_REG_0)]
    | KLit =>
        (Word <$> mov_words 17 (u64 (cur + decode_imm19_offset w))) ++
        (if bits w 30 31 =? 0 then [Word (LoadStore_word LDR_x (W (decode_rt w)) (MemOperand_imm TMP_REG_0 0 Offset))]
         else if bits w 30 31 =? 1 then [Word (LoadStore_word LDR_x (X (decode_rt w)) (MemOperand_imm TMP_REG_0 0 Offset))]
         else [])
    | KAdr => Word <$> mov_words (decode_rd w) (u64 (cur + decode_immhi_immlo_offset w))
    | KAdrp => Word <$> mov_words (decode_rd w) (arm64_trunc_page (u64 (cur + decode_immhi_immlo_zero12_offset w)))
    | KBcond => [Word (invert_b_cond w); Lit (u64 (cur + decode_imm19_offset w)); Word (br_word TMP_REG_0)]
    | KCmp => [Word (invert_compare_b w); Lit (u64 (cur + decode_imm19_offset w)); Word (br_word TMP_REG_0)]
    | KTest => [Word (invert_test_b w); Lit (u64 (cur + decode_imm14_offset w)); Word (br_word TMP_REG_0)]
    | KNone => [Word w]
    end.
Proof.
  intros Hw. unfold relo_items, relo_kind, inst_is_b_bl, inst_is_ldr_literal, inst_is_adr, inst_is_adrp,
    inst_is_b_cond, inst_is_compare_b, inst_is_test_b. cbv zeta. as_mask.
  repeat match goal with |- context [mask_top ?m ?v ?h] => destruct (mask_top m v h) end; reflexivity.
Qed.

(** ** The inverted branches *)

Lemma invert_b_cond_decode w : 0 <= w < 2 ^ 32 -> decode_kind (top w) = KBcond ->
  decode (invert_b_cond w) = IBcond (Z.lxor (bits w 0 3) 1) 12.
Proof.
  intros Hw Hk. unfold invert_b_cond. cbv zeta. change (Z.shiftr (4 * 3) 2) with 3.
  set (c := Z.lxor (bits w 0 3) 1).
  assert (Hc : 0 <= c < 2 ^ 4).
  { unfold c. change 1 with (Z.ones 1).
    assert (E : Z.lxor (bits w 0 3) (Z.ones 1) = trunc 4 (Z.lxor (bits w 0 3) (Z.ones 1))) by bitwise.
    rewrite E. apply trunc_range. lia. }
  set (w1 := set_bits w 0 3 c).
  pose proof (set_bits_range w1 5 23 3) as Hr2.
  rewrite decode_by_kind by done.
  assert (Et : top (set_bits w1 5 23 3) = top w).
  { unfold top, w1. by rewrite !bits_set_bits_other by lia. }
  rewrite Et, Hk. rewrite bits_set_bits_same by lia.
  unfold w1. rewrite (bits_set_bits_other _ 5 23), bits_set_bits_same by lia. reflexivity.
Qed.

Lemma flip_bit w : 0 <= Z.lxor (bit w 24) 1 < 2 ^ 1 /\ Zbool (Z.lxor (bit w 24) 1) = negb (Zbool (bits w 24 24)).
Proof.
  rewrite bit_bits by lia. pose proof (bits_range w 24 24 ltac:(lia)) as H. change (24 - 24 + 1) with 1 in H.
  assert (bits w 24 24 = 0 \/ bits w 24 24 = 1) as [-> | ->] by lia; done.
Qed.

Lemma top_25_30 w : 0 <= w < 2 ^ 32 -> bits (top w) 1 6 = bits w 25 30.
Proof. intros. symmetry. by apply (bits_top w 25 30); [|lia|]. Qed.

Lemma invert_compare_b_decode w : 0 <= w < 2 ^ 32 -> decode_kind (top w) = KCmp ->
  decode (invert_compare_b w) =
  ICB (Zbool (bits w 31 31)) (negb (Zbool (bits w 24 24))) (bits w 0 4) 12.
Proof.
  intros Hw Hk. unfold invert_compare_b. cbv zeta. change (Z.shiftr (4 * 3) 2) with 3.
  rewrite set_bit_bits. destruct (flip_bit w) as [Hc Hn].
  set (c := Z.lxor (bit w 24) 1) in *. set (w1 := set_bits w 24 24 c).
  pose proof (set_bits_range w1 5 23 3) as Hr2. pose proof (top_range w) as Ht.
  pose proof (top_range (set_bits w1 5 23 3)) as Ht2.
  assert (Ek : decode_kind (top (set_bits w1 5 23 3)) = KCmp).
  { apply decode_kind_cmp; [done|]. apply decode_kind_cmp in Hk; [|done].
    rewrite top_25_30 in * by done. unfold w1. by rewrite !bits_set_bits_other by lia. }
  rewrite decode_by_kind, Ek by done. rewrite bits_set_bits_same by lia. unfold w1.
  rewrite !(bits_set_bits_other _ 5 23) by lia. rewrite bits_set_bits_same by lia.
  rewrite !(bits_set_bits_other _ 24 24) by lia. by rewrite Hn.
Qed.

Lemma invert_test_b_decode w : 0 <= w < 2 ^ 32 -> decode_kind (top w) = KTest ->
  decode (invert_test_b w) =
  ITB (negb (Zbool (bits w 24 24))) (bits w 19 23 + 32 * bits w 31 31) (bits w 0 4) 12.
Proof.
  intros Hw Hk. unfold invert_test_b. cbv zeta. change (Z.shiftr (4 * 3) 2) with 3.
  rewrite set_bit_bits. destruct (flip_bit w) as [Hc Hn].
  set (c := Z.lxor (bit w 24) 1) in *. set (w1 := set_bits w 24 24 c).
  pose proof (set_bits_range w1 5 18 3) as Hr2. pose proof (top_range w) as Ht.
  pose proof (top_range (set_bits w1 5 18 3)) as Ht2.
  assert (Ek : decode_kind (top (set_bits w1 5 18 3)) = KTest).
  { apply decode_kind_test; [done|]. apply decode_kind_test in Hk; [|done].
    rewrite top_25_30 in * by done. unfold w1. by rewrite !bits_set_bits_other by lia. }
  rewrite decode_by_kind, Ek by done. rewrite bits_set_bits_same by lia. unfold w1.
  rewrite !(bits_set_bits_other _ 5 18) by lia. rewrite bits_set_bits_same by lia.
  rewrite !(bits_set_bits_other _ 24 24) by lia. by rewrite Hn.
Qed.
