(* ===== verification/RelocSim.v ===== *)
(** Running relocated code: each moved instruction, at its new place, does what
    it did at the old one, up to the scratch register x17. *)
From S2P Require Import Prelude UtilityMacro Arm64Const Arm64Kit CodeBuffer Assembler AssemblerArm64 Arm64Isa.
From S2P Require Import LiteralPool Arm64Emit Arm64Run Platform MemAlloc RelocArm64 RelocSpec TrampolineArm64.

Section Sim.
Context (other : Z -> core -> option core) (b : CodeBufferBase) (src : Z) (ws : list Z) (D : Z).

Definition window (x : Z) : Prop := src <= x < src + 4 * Z.of_nat (length ws).
Definition block (x : Z) : Prop := D <= x < D + GetBufferSize b.

(** The two runs agree on everything but x17, the patched window and the
    relocated block. *)
Record sim (c c' : core) : Prop := {
  sim_x : forall r, r <> 17 -> xr c r = xr c' r;
  sim_sp : sp c = sp c';
  sim_fl : fl c = fl c';
  sim_mem : forall x, ~ window x -> ~ block x -> mem c x = mem c' x }.

(** The relocated run also has its code in place. *)
Definition sim_in (c c' : core) : Prop := sim c c' /\ code_at (mem c') D b.

(** An instruction that does not use x17, nor reads the hidden ranges, nor
    writes the relocated block. *)
Definition insensitive (w : Z) : Prop :=
  forall c c' c1, sim_in c c' -> other w c = Some c1 -> exists c1', other w c' = Some c1' /\ sim_in c1 c1'.

Definition visible (a n : Z) : Prop := forall x, a <= x < a + n -> ~ window x /\ ~ block x.

(** The instructions whose relocation is covered: [c] is the state they run in. *)
Definition movable_instr (cur : Z) (i : instr) (c : core) : Prop :=
  match i with
  | IB off => ~ window (u64 (cur + off))
  | IBcond k off => k < 14 /\ ~ window (u64 (cur + off))
  | ICB _ _ t off | ITB _ _ t off => t <> 17 /\ ~ window (u64 (cur + off))
  | IADR d _ | IADRP d _ => d <> 31
  | ILDRlit x64 t off => x64 = true /\ t <> 31 /\ visible (u64 (cur + off)) 8
  | IBR n | IRET n => n <> 17
  | IMOVZ _ _ _ _ | IMOVK _ _ _ _ => True
  | IADD _ _ n _ => n <> 17
  | ILDR _ n off => n <> 17 /\ visible (u64 (get_xsp c n + off)) 8
  | IOther w => insensitive w
  | IBL _ | IBLR _ | IPCRelOther _ => False
  end.
Definition movable (cur w : Z) (c : core) : Prop :=
  0 <= w < 2 ^ 32 /\ top w <> 0x55 /\ movable_instr cur (decode w) c.

(** ** The relation *)

Lemma sim_get_x c c' r : sim c c' -> r <> 17 -> get_x c r = get_x c' r.
Proof. intros [Hx _ _ _] ?. unfold get_x. destruct (r =? 31); [done|]. by apply Hx. Qed.

Lemma sim_get_xsp c c' r : sim c c' -> r <> 17 -> get_xsp c r = get_xsp c' r.
Proof. intros [Hx Hs _ _] ?. unfold get_xsp. destruct (r =? 31); [done|]. by apply Hx. Qed.

Lemma sim_set_x c c' r v v' : sim c c' -> (r <> 17 -> v = v') -> sim (set_x r v c) (set_x r v' c').
Proof.
  intros [Hx Hs Hf Hm] Hv. unfold set_x. destruct (r =? 31); [done|].
  constructor; cbn; [|done..]. intros k Hk. unfold upd.
  destruct (Z.eqb_spec k r) as [->|]; [by apply Hv|by apply Hx].
Qed.

Lemma sim_set_x17 c c' v : sim c c' -> sim c (set_x 17 v c').
Proof.
  intros [Hx Hs Hf Hm]. constructor; cbn; [|done..]. intros k Hk. unfold upd.
  destruct (Z.eqb_spec k 17); [done|by apply Hx].
Qed.

Lemma sim_set_xsp c c' r v : sim c c' -> sim (set_xsp r v c) (set_xsp r v c').
Proof.
  intros Hs. unfold set_xsp. destruct (r =? 31).
  - destruct Hs. by constructor.
  - by apply sim_set_x.
Qed.

Lemma code_at_set_x m r v c : code_at (mem c) m b -> code_at (mem (set_x r v c)) m b.
Proof. by rewrite mem_set_x. Qed.

Lemma mem_set_xsp r v c : mem (set_xsp r v c) = mem c.
Proof. unfold set_xsp. destruct (r =? 31); [done|apply mem_set_x]. Qed.

Lemma read_ext m m' a n :
  (forall x, a <= x < a + Z.of_nat n -> m x = m' x) -> read m a n = read m' a n.
Proof.
  intros H. unfold read. f_equal. revert a H. induction n as [|n IH]; intros a H; [done|].
  cbn. f_equal; [apply H; lia|]. apply IH. intros x Hx. apply H. lia.
Qed.

Lemma sim_read c c' a n : sim c c' -> visible a (Z.of_nat n) -> read (mem c) a n = read (mem c') a n.
Proof. intros Hs Hv. apply read_ext. intros x Hx. destruct (Hv x Hx). by apply (sim_mem _ _ Hs). Qed.

(** ** Places *)

Definition pos (j : nat) : nat := length (items_from src 0 (take j ws)).
Definition place (j : nat) : Z := D + 4 * Z.of_nat (pos j).
Definition cur (j : nat) : Z := u64 (src + 4 * Z.of_nat j).

Lemma take_S_split j w : ws !! j = Some w ->
  items_from src 0 (take (S j) ws) = items_from src 0 (take j ws) ++ relo_items (cur j) w.
Proof.
  intros Hj. rewrite (take_S_r _ _ _ Hj), items_from_app. f_equal.
  rewrite length_take, Nat.add_0_l. cbn. rewrite app_nil_r.
  apply lookup_lt_Some in Hj. unfold cur. by rewrite Nat.min_l by lia.
Qed.

Lemma pos_S j w : ws !! j = Some w -> pos (S j) = (pos j + length (relo_items (cur j) w))%nat.
Proof. intros Hj. unfold pos. by rewrite (take_S_split _ _ Hj), length_app. Qed.

Lemma program_at j w i it : ws !! j = Some w -> relo_items (cur j) w !! i = Some it ->
  relo_program src ws !! (pos j + i)%nat = Some it.
Proof.
  intros Hj Hi. unfold relo_program.
  assert (Hw : ws = take (S j) ws ++ drop (S j) ws) by (by rewrite take_drop).
  rewrite Hw at 1. rewrite items_from_app, (take_S_split _ _ Hj), <- !app_assoc.
  rewrite lookup_app_r by (unfold pos; lia). unfold pos.
  replace (_ + i - _)%nat with i by lia. by apply lookup_app_l_Some.
Qed.

Lemma program_end :
  relo_program src ws !! pos (length ws) = Some (Lit (src + 4 * Z.of_nat (length ws))) /\
  relo_program src ws !! S (pos (length ws)) = Some (Word (br_word TMP_REG_0)).
Proof.
  unfold pos, relo_program. rewrite firstn_all. split.
  - by rewrite lookup_app_r, Nat.sub_diag by lia.
  - rewrite lookup_app_r by lia. by replace (S _ - _)%nat with 1%nat by lia.
Qed.

Lemma pos_0 : pos 0 = 0%nat.
Proof. done. Qed.

(** ** One instruction *)

Context (Hlaid : laid_out b (relo_program src ws)) (Hsize : GetBufferSize b < 2 ^ 20).
Context (HD : 0 <= D) (HDtop : D + GetBufferSize b < 2 ^ 64).
Context (Hsrc : 0 <= src) (Hsrctop : src + 4 * Z.of_nat (length ws) < 2 ^ 62).

Definition returns (i : instr) : Prop := match i with IBR _ | IRET _ => True | _ => False end.

(** The moved instruction [j] reaches either the place of the next one or the
    same absolute address. *)
Definition moved (j : nat) (i : instr) (pc1 : Z) (c1 c' : core) : Prop :=
  exists c1', sim_in c1 c1' /\
    ((pc1 = src + 4 * Z.of_nat (S j) /\ steps other (place j, c') (place (S j), c1')) \/
     ((~ window pc1 \/ returns i) /\ steps other (place j, c') (pc1, c1'))).

Lemma cur_eq j w : ws !! j = Some w -> cur j = src + 4 * Z.of_nat j /\
  u64 (cur j + 4) = src + 4 * Z.of_nat (S j).
Proof.
  intros Hj%lookup_lt_Some. unfold cur. rewrite (trunc_small 64) by lia. split; [done|].
  rewrite trunc_small by lia. lia.
Qed.

Lemma place_next j w i it : ws !! j = Some w -> relo_items (cur j) w !! i = Some it ->
  u64 (place j + 4 * Z.of_nat (S i)) = place j + 4 * Z.of_nat (S i).
Proof.
  intros Hj Hi. pose proof (program_at _ _ _ _ Hj Hi) as Hp.
  apply (laid_len b _ Hlaid) in Hp. pose proof (GetBufferSize_nonneg b).
  apply trunc_small. unfold place. lia.
Qed.

(** The instructions that do not look at the program counter. *)
Definition plain (i : instr) : Prop :=
  match i with
  | IBR _ | IBLR _ | IRET _ | IMOVZ _ _ _ _ | IMOVK _ _ _ _ | IADD _ _ _ _ | ILDR _ _ _ | IOther _ => True
  | _ => False
  end.

Lemma decode_rest_plain w : plain (decode_rest w).
Proof.
  unfold decode_rest. repeat match goal with |- context [if ?b then _ else _] => destruct b end; exact I.
Qed.

Lemma exec_plain_sim i pc pc' c c' pc1 c1 :
  plain i -> sim_in c c' -> movable_instr pc i c -> exec other i pc c = Some (pc1, c1) ->
  exists c1', sim_in c1 c1' /\
    ((pc1 = u64 (pc + 4) /\ exec other i pc' c' = Some (u64 (pc' + 4), c1')) \/
     (returns i /\ exec other i pc' c' = Some (pc1, c1'))).
Proof.
  intros Hp [Hs Hc] Hm He. pose proof (sim_get_x c c') as Hg. pose proof (sim_get_xsp c c') as Hgs.
  destruct i; try done; cbn [exec movable_instr plain returns] in *.
  - injection He as <- <-. rewrite (Hg n) by done. eexists. split; [by split|]. by right.
  - injection He as <- <-. rewrite (Hg n) by done. eexists. split; [by split|]. by right.
  - injection He as <- <-. eexists. split; [|by left].
    split; [by apply sim_set_x|by apply code_at_set_x].
  - injection He as <- <-. eexists. split; [|by left].
    split; [|by apply code_at_set_x]. apply sim_set_x; [done|]. intros. by rewrite (Hg d).
  - injection He as <- <-. rewrite (Hgs n) by done. eexists. split; [|by left].
    split; [by apply sim_set_xsp|by rewrite mem_set_xsp].
  - destruct Hm as [Hn Hv]. injection He as <- <-. eexists. split; [|by left].
    split; [|by apply code_at_set_x]. apply sim_set_x; [done|]. intros _.
    rewrite <- (Hgs n) by done. by apply (sim_read c c' _ 8).
  - destruct (other w c) as [c2|] eqn:Eo; [|done]. injection He as <- <-.
    destruct (Hm c c' c2 (conj Hs Hc) Eo) as (c1' & Eo' & Hs1). exists c1'.
    split; [done|]. left. by rewrite Eo'.
Qed.

Lemma step_first j w c' :
  ws !! j = Some w -> code_at (mem c') D b -> 0 <= w < 2 ^ 32 ->
  forall w0 its', relo_items (cur j) w = Word w0 :: its' -> 0 <= w0 < 2 ^ 32 ->
  step other (place j, c') = exec other (decode w0) (place j) c' /\
  u64 (place j + 4) = place j + 4.
Proof.
  intros Hj Hc Hw w0 its' Hit Hw0.
  assert (Hp0 : relo_items (cur j) w !! 0%nat = Some (Word w0)) by by rewrite Hit.
  split; [|exact (place_next _ _ _ _ Hj Hp0)].
  unfold place. rewrite <- (Nat.add_0_r (pos j)).
  rewrite (fetch_word other b _ D Hlaid c' _ w0 Hc (program_at _ _ _ _ Hj Hp0)).
  by rewrite (trunc_small 32).
Qed.

(** An instruction that is copied. *)
Lemma moved_copy j w c c' pc1 c1 :
  ws !! j = Some w -> sim_in c c' -> movable (cur j) w c -> decode_kind (top w) = KNone ->
  exec other (decode w) (cur j) c = Some (pc1, c1) -> moved j (decode w) pc1 c1 c'.
Proof.
  intros Hj Hs (Hw & Htop & Hm) Hk He.
  assert (Hit : relo_items (cur j) w = [Word w]).
  { by rewrite (relo_items_by_kind _ _ Hw), (kinds_agree _ (top_range w) Htop), Hk. }
  destruct (cur_eq _ _ Hj) as [_ En].
  destruct (step_first j w c' Hj (proj2 Hs) Hw w [] Hit Hw) as [Hst Hpn].
  assert (Hpl : place (S j) = place j + 4).
  { unfold place. rewrite (pos_S _ _ Hj), Hit. cbn. lia. }
  assert (Hplain : plain (decode w)).
  { rewrite (decode_by_kind _ Hw), Hk. apply decode_rest_plain. }
  destruct (exec_plain_sim _ _ (place j) _ _ _ _ Hplain Hs Hm He) as (c1' & Hs1 & [[Hp He1]|[Hr He1]]);
    exists c1'; (split; [done|]).
  - left. split; [by rewrite Hp, En|]. apply steps_one. by rewrite Hst, He1, Hpn, Hpl.
  - right. split; [by right|]. apply steps_one. by rewrite Hst, He1.
Qed.

(** A literal load and branch inside the items of instruction [j]. *)
Lemma run_lit_at j w i v c' :
  ws !! j = Some w -> code_at (mem c') D b ->
  relo_items (cur j) w !! i = Some (Lit v) -> relo_items (cur j) w !! S i = Some (Word (br_word TMP_REG_0)) ->
  steps other (place j + 4 * Z.of_nat i, c') (u64 v, set_x 17 (u64 v) c').
Proof.
  intros Hj Hc Hi Hi'. pose proof (program_at _ _ _ _ Hj Hi) as Hp. pose proof (program_at _ _ _ _ Hj Hi') as Hp'.
  rewrite Nat.add_succ_r in Hp'. unfold place.
  replace (D + 4 * Z.of_nat (pos j) + 4 * Z.of_nat i) with (D + 4 * Z.of_nat (pos j + i)) by lia.
  by eapply (run_literal_branch other b _ D).
Qed.

Lemma moved_b j w c c' pc1 c1 :
  ws !! j = Some w -> sim_in c c' -> movable (cur j) w c -> decode_kind (top w) = KB ->
  exec other (decode w) (cur j) c = Some (pc1, c1) -> moved j (decode w) pc1 c1 c'.
Proof.
  intros Hj [Hs Hc] (Hw & Htop & Hm) Hk He.
  pose proof (relo_items_by_kind (cur j) w Hw) as Hit. rewrite (kinds_agree _ (top_range w) Htop), Hk in Hit.
  rewrite decode_imm26_sext in Hit.
  rewrite (decode_by_kind w Hw), Hk in Hm, He |- *. cbn in Hm, He. injection He as <- <-.
  exists (set_x 17 (u64 (u64 (cur j + soff 26 (bits w 0 25)))) c').
  split; [split; [by apply sim_set_x17|by apply code_at_set_x]|].
  right. split; [by left|].
  pose proof (run_lit_at j w 0 (u64 (cur j + soff 26 (bits w 0 25))) c' Hj Hc) as Hr.
  rewrite Hit in Hr. specialize (Hr eq_refl eq_refl).
  rewrite Z.add_0_r in Hr. by rewrite trunc_trunc in Hr |- * by lia.
Qed.

(** The conditional branches: the inverted branch skips the literal branch. *)
Lemma moved_cond j w inv off taken c c' pc1 c1 :
  ws !! j = Some w -> sim_in c c' -> 0 <= w < 2 ^ 32 -> 0 <= inv < 2 ^ 32 ->
  relo_items (cur j) w = [Word inv; Lit (u64 (cur j + off)); Word (br_word TMP_REG_0)] ->
  ~ window (u64 (cur j + off)) ->
  exec other (decode w) (cur j) c = Some (if taken : bool then u64 (cur j + off) else u64 (cur j + 4), c) ->
  exec other (decode inv) (place j) c' = Some (if taken then u64 (place j + 4) else u64 (place j + 12), c') ->
  exec other (decode w) (cur j) c = Some (pc1, c1) -> moved j (decode w) pc1 c1 c'.
Proof.
  intros Hj [Hs Hc] Hw Hinv Hit Hout He Hei He'. rewrite He in He'. injection He' as <- <-.
  destruct (step_first j w c' Hj Hc Hw inv _ Hit Hinv) as [Hst Hpn]. rewrite Hei in Hst.
  destruct (cur_eq _ _ Hj) as [_ En].
  destruct taken.
  - exists (set_x 17 (u64 (u64 (cur j + off))) c').
    split; [split; [by apply sim_set_x17|by apply code_at_set_x]|].
    right. split; [by left|]. eapply steps_step; [exact Hst|]. rewrite Hpn.
    pose proof (run_lit_at j w 1 (u64 (cur j + off)) c' Hj Hc) as Hr.
    rewrite Hit in Hr. specialize (Hr eq_refl eq_refl). change (4 * Z.of_nat 1) with 4 in Hr.
    by rewrite trunc_trunc in Hr |- * by lia.
  - exists c'. split; [by split|]. left. split; [done|].
    apply steps_one. rewrite Hst. do 2 f_equal.
    assert (Hp2 : relo_items (cur j) w !! 2%nat = Some (Word (br_word TMP_REG_0))) by by rewrite Hit.
    pose proof (place_next _ _ _ _ Hj Hp2) as E2. change (4 * Z.of_nat 3) with 12 in E2. rewrite E2.
    unfold place. rewrite (pos_S _ _ Hj), Hit. cbn [length]. lia.
Qed.

Lemma cond_invert k f : 0 <= k < 14 -> cond_holds (Z.lxor k 1) f = negb (cond_holds k f).
Proof.
  intros Hk. destruct f as [n z c v].
  assert (Hc : forallb (fun k => forallb (fun n => forallb (fun z => forallb (fun c => forallb (fun v =>
      let f := {| fN := n; fZ := z; fC := c; fV := v |} in
      eqb (cond_holds (Z.lxor (Z.of_nat k) 1) f) (negb (cond_holds (Z.of_nat k) f)))
      [true; false]) [true; false]) [true; false]) [true; false]) (seq 0 14) = true) by (vm_compute; reflexivity).
  rewrite forallb_forall in Hc. specialize (Hc (Z.to_nat k) ltac:(apply in_seq; lia)).
  rewrite Z2Nat.id in Hc by lia.
  assert (Hin : forall b0 : bool, In b0 [true; false]) by (intros []; cbn; auto).
  rewrite forallb_forall in Hc. specialize (Hc n (Hin n)).
  rewrite forallb_forall in Hc. specialize (Hc z (Hin z)).
  rewrite forallb_forall in Hc. specialize (Hc c (Hin c)).
  rewrite forallb_forall in Hc. specialize (Hc v (Hin v)). by apply eqb_prop.
Qed.

Lemma moved_b_cond j w c c' pc1 c1 :
  ws !! j = Some w -> sim_in c c' -> movable (cur j) w c -> decode_kind (top w) = KBcond ->
  exec other (decode w) (cur j) c = Some (pc1, c1) -> moved j (decode w) pc1 c1 c'.
Proof.
  intros Hj Hs (Hw & Htop & Hm) Hk He.
  pose proof (relo_items_by_kind (cur j) w Hw) as Hit. rewrite (kinds_agree _ (top_range w) Htop), Hk in Hit.
  rewrite decode_imm19_sext in Hit.
  pose proof (decode_by_kind w Hw) as Hd. rewrite Hk in Hd. rewrite Hd in Hm. cbn in Hm. destruct Hm as [Hk14 Hout].
  pose proof (bits_range w 0 3 ltac:(lia)) as Hkr.
  pose proof (invert_b_cond_decode w Hw Hk) as Hi.
  refine (moved_cond j w (invert_b_cond w) _ (cond_holds (bits w 0 3) (fl c)) c c' pc1 c1
    Hj Hs Hw (set_bits_range _ _ _ _) Hit Hout _ _ He).
  - rewrite Hd. cbn [exec]. by destruct (cond_holds _ _).
  - rewrite Hi. cbn [exec]. rewrite cond_invert by lia.
    rewrite <- (sim_fl _ _ (proj1 Hs)). by destruct (cond_holds _ _).
Qed.

Lemma moved_compare_b j w c c' pc1 c1 :
  ws !! j = Some w -> sim_in c c' -> movable (cur j) w c -> decode_kind (top w) = KCmp ->
  exec other (decode w) (cur j) c = Some (pc1, c1) -> moved j (decode w) pc1 c1 c'.
Proof.
  intros Hj Hs (Hw & Htop & Hm) Hk He.
  pose proof (relo_items_by_kind (cur j) w Hw) as Hit. rewrite (kinds_agree _ (top_range w) Htop), Hk in Hit.
  rewrite decode_imm19_sext in Hit.
  pose proof (decode_by_kind w Hw) as Hd. rewrite Hk in Hd. rewrite Hd in Hm. cbn in Hm. destruct Hm as [Ht Hout].
  pose proof (invert_compare_b_decode w Hw Hk) as Hi.
  refine (moved_cond j w (invert_compare_b w) _ (xorb (Zbool (bits w 24 24))
      (wtrunc (Zbool (bits w 31 31)) (get_x c (bits w 0 4)) =? 0)) c c' pc1 c1
    Hj Hs Hw (set_bits_range _ _ _ _) Hit Hout _ _ He).
  - rewrite Hd. cbn [exec]. by destruct (xorb _ _).
  - rewrite Hi. cbn [exec]. rewrite (sim_get_x c c') by (done || apply Hs).
    by destruct (Zbool (bits w 24 24)), (wtrunc _ _ =? 0).
Qed.

Lemma moved_test_b j w c c' pc1 c1 :
  ws !! j = Some w -> sim_in c c' -> movable (cur j) w c -> decode_kind (top w) = KTest ->
  exec other (decode w) (cur j) c = Some (pc1, c1) -> moved j (decode w) pc1 c1 c'.
Proof.
  intros Hj Hs (Hw & Htop & Hm) Hk He.
  pose proof (relo_items_by_kind (cur j) w Hw) as Hit. rewrite (kinds_agree _ (top_range w) Htop), Hk in Hit.
  rewrite decode_imm14_sext in Hit.
  pose proof (decode_by_kind w Hw) as Hd. rewrite Hk in Hd. rewrite Hd in Hm. cbn in Hm. destruct Hm as [Ht Hout].
  pose proof (invert_test_b_decode w Hw Hk) as Hi.
  refine (moved_cond j w (invert_test_b w) _ (xorb (Zbool (bits w 24 24))
      (negb (Z.testbit (get_x c (bits w 0 4)) (bits w 19 23 + 32 * bits w 31 31)))) c c' pc1 c1
    Hj Hs Hw (set_bits_range _ _ _ _) Hit Hout _ _ He).
  - rewrite Hd. cbn [exec]. by destruct (xorb _ _).
  - rewrite Hi. cbn [exec]. rewrite (sim_get_x c c') by (done || apply Hs).
    by destruct (Zbool (bits w 24 24)), (Z.testbit _ _).
Qed.

(** The address computations become wide moves. *)
Lemma run_mov_at j w d imm tail c' :
  ws !! j = Some w -> code_at (mem c') D b -> 0 <= d < 31 ->
  relo_items (cur j) w = (Word <$> mov_words d imm) ++ tail ->
  steps other (place j, c') (place j + 16, set_x d (u64 imm) c').
Proof.
  intros Hj Hc Hd Hit. unfold place.
  replace (D + 4 * Z.of_nat (pos j) + 16) with (D + 4 * Z.of_nat (pos j + 4)) by lia.
  eapply (run_mov other b _ D Hlaid HD HDtop); [done|done|].
  intros i v Hi. eapply program_at; [done|]. rewrite Hit.
  apply lookup_app_l_Some. by rewrite list_lookup_fmap, Hi.
Qed.

Lemma moved_address j w d v c c' pc1 :
  ws !! j = Some w -> sim_in c c' -> 0 <= d < 31 -> v = u64 v ->
  relo_items (cur j) w = Word <$> mov_words d v -> pc1 = u64 (cur j + 4) ->
  moved j (decode w) pc1 (set_x d v c) c'.
Proof.
  intros Hj [Hs Hc] Hd Hv Hit ->. destruct (cur_eq _ _ Hj) as [_ En].
  exists (set_x d v c'). split; [split; [by apply sim_set_x|by apply code_at_set_x]|].
  left. split; [done|].
  assert (Hpl : place (S j) = place j + 16).
  { unfold place. rewrite (pos_S _ _ Hj), Hit, length_fmap. cbn [mov_words length]. lia. }
  rewrite Hpl. rewrite Hv. by apply (run_mov_at j w d v []); try done.
Qed.

Lemma reg_31 w : bits w 0 4 <> 31 -> 0 <= bits w 0 4 < 31.
Proof. intros. pose proof (bits_range w 0 4 ltac:(lia)). lia. Qed.

Lemma moved_adr j w c c' pc1 c1 :
  ws !! j = Some w -> sim_in c c' -> movable (cur j) w c -> decode_kind (top w) = KAdr ->
  exec other (decode w) (cur j) c = Some (pc1, c1) -> moved j (decode w) pc1 c1 c'.
Proof.
  intros Hj Hs (Hw & Htop & Hm) Hk He.
  pose proof (relo_items_by_kind (cur j) w Hw) as Hit. rewrite (kinds_agree _ (top_range w) Htop), Hk in Hit.
  rewrite decode_immhi_immlo_sext in Hit.
  pose proof (decode_by_kind w Hw) as Hd. rewrite Hk in Hd. rewrite Hd in Hm, He. cbn [movable_instr exec] in Hm, He.
  injection He as <- <-. eapply moved_address; [done|done|by apply reg_31| |exact Hit|done].
  by rewrite trunc_trunc by lia.
Qed.

Lemma adrp_value x off : 0 <= x < 2 ^ 62 -> off mod 4096 = 0 ->
  arm64_trunc_page (u64 (x + off)) = u64 (4096 * (x / 4096) + off).
Proof.
  intros Hx Ho. unfold arm64_trunc_page. change (0x1000 - 1) with (2 ^ 12 - 1).
  rewrite land_lnot_aligned by lia. change (2 ^ 12) with 4096.
  assert (E : u64 (x + off) mod 4096 = x mod 4096).
  { unfold trunc. rewrite <- (Z.add_0_r (x mod 4096)), <- Ho at 1.
    change (2 ^ 64) with (4096 * 2 ^ 52). rewrite Z.rem_mul_r by lia.
    rewrite (Z.mul_comm 4096), Z.mod_add, Zmod_mod by lia.
    rewrite Ho, Z.add_0_r. rewrite Z.add_mod, Ho, Z.add_0_r, Zmod_mod by lia. done. }
  rewrite E, trunc_sub_l. f_equal. pose proof (Z.div_mod x 4096 ltac:(lia)). lia.
Qed.

Lemma moved_adrp j w c c' pc1 c1 :
  ws !! j = Some w -> sim_in c c' -> movable (cur j) w c -> decode_kind (top w) = KAdrp ->
  exec other (decode w) (cur j) c = Some (pc1, c1) -> moved j (decode w) pc1 c1 c'.
Proof.
  intros Hj Hs (Hw & Htop & Hm) Hk He.
  pose proof (relo_items_by_kind (cur j) w Hw) as Hit. rewrite (kinds_agree _ (top_range w) Htop), Hk in Hit.
  unfold decode_immhi_immlo_zero12_offset in Hit. rewrite decode_immhi_immlo_sext, Z.shiftl_mul_pow2 in Hit by lia.
  rewrite (Z.mul_comm _ (2 ^ 12)) in Hit. change (2 ^ 12) with 4096 in Hit.
  pose proof (cur_eq _ _ Hj) as [Ec _]. pose proof (lookup_lt_Some _ _ _ Hj) as Hlt.
  set (off := 4096 * sext 21 (bits w 29 30 + 4 * bits w 5 23)) in *.
  assert (Ho : off mod 4096 = 0) by (unfold off; rewrite Z.mul_comm; apply Z.mod_mul; lia).
  rewrite (adrp_value (cur j) off) in Hit; [|lia|exact Ho].
  pose proof (decode_by_kind w Hw) as Hd. rewrite Hk in Hd. rewrite Hd in Hm, He. cbn [movable_instr exec] in Hm, He.
  injection He as <- <-. eapply moved_address; [done|done|by apply reg_31| |exact Hit|done].
  by rewrite trunc_trunc by lia.
Qed.

(** A general-register literal load: the address goes through x17, and eight
    bytes are read whatever the width of the instruction. *)
Lemma run_ldr_literal j w x64 t off c' :
  ws !! j = Some w -> code_at (mem c') D b -> 0 <= w < 2 ^ 32 -> top w <> 0x55 ->
  decode w = ILDRlit x64 t off ->
  0 <= t < 32 /\
  steps other (place j, c') (place (S j),
    set_x t (read (mem c') (u64 (cur j + off)) 8) (set_x 17 (u64 (cur j + off)) c')).
Proof.
  intros Hj Hc Hw Htop Hdec.
  pose proof (relo_items_by_kind (cur j) w Hw) as Hit. rewrite (kinds_agree _ (top_range w) Htop) in Hit.
  rewrite decode_imm19_sext in Hit.
  pose proof (decode_by_kind w Hw) as Hd. rewrite Hdec in Hd.
  assert (Hk : decode_kind (top w) = KLit).
  { pose proof (decode_rest_plain w) as Hp. destruct (decode_kind (top w)); try reflexivity; try discriminate Hd.
    rewrite <- Hd in Hp. destruct Hp. }
  rewrite Hk in Hit, Hd.
  destruct ((bits w 26 26 =? 0) && (bits w 31 31 =? 0)) eqn:E; [|discriminate Hd].
  apply andb_true_iff in E as [_ E31%Z.eqb_eq]. injection Hd as _ -> ->.
  change (sext 21 (4 * bits w 5 23)) with (soff 19 (bits w 5 23)) in Hit.
  set (dst := u64 (cur j + soff 19 (bits w 5 23))) in *.
  pose proof (bits_range w 0 4 ltac:(lia)) as Hrt. split; [exact Hrt|].
  set (ldw := LoadStore_word LDR_x (X (decode_rt w)) (MemOperand_imm TMP_REG_0 0 Offset)) in *.
  assert (Hit' : relo_items (cur j) w = (Word <$> mov_words 17 dst) ++ [Word ldw]).
  { assert (Hopc : bits w 30 31 = 0 \/ bits w 30 31 = 1).
    { pose proof (bits_range w 30 30 ltac:(lia)) as R30.
      rewrite bits_div in E31, R30 |- * by lia. clear - E31 R30.
      change (2 ^ (31 - 31 + 1)) with 2 in *. change (2 ^ (30 - 30 + 1)) with 2 in *.
      change (2 ^ (31 - 30 + 1)) with 4 in *. Z.to_euclidean_division_equations. lia. }
    rewrite Hit. destruct Hopc as [-> | ->]; reflexivity. }
  assert (Hdst : u64 dst = dst) by (unfold dst; by rewrite trunc_trunc by lia).
  assert (Hp4 : relo_items (cur j) w !! 4%nat = Some (Word ldw)) by by rewrite Hit'.
  pose proof (run_mov_at j w 17 dst _ c' Hj Hc ltac:(lia) Hit') as Hmov. rewrite Hdst in Hmov.
  eapply steps_trans; [exact Hmov|]. apply steps_one.
  pose proof (place_next _ _ _ _ Hj Hp4) as Hpn. change (4 * Z.of_nat 5) with 20 in Hpn.
  assert (Hf : step other (place j + 16, set_x 17 dst c') = exec other (decode (u32 ldw)) (place j + 16) (set_x 17 dst c')).
  { unfold place. replace (D + 4 * Z.of_nat (pos j) + 16) with (D + 4 * Z.of_nat (pos j + 4)) by lia.
    apply (fetch_word other b _ D Hlaid); [by rewrite mem_set_x|by eapply program_at]. }
  rewrite Hf. unfold ldw, TMP_REG_0, decode_rt.
  rewrite decode_ldr_mem by (lia || reflexivity). cbn [exec]. rewrite get_xsp_set_x, Z.add_0_r, Hdst, mem_set_x by lia.
  replace (place j + 16 + 4) with (place j + 20) by lia. rewrite Hpn. do 2 f_equal.
  unfold place. rewrite (pos_S _ _ Hj), Hit', length_app. cbn [mov_words length list_fmap fmap]. lia.
Qed.

Lemma moved_ldr_literal j w c c' pc1 c1 :
  ws !! j = Some w -> sim_in c c' -> movable (cur j) w c -> decode_kind (top w) = KLit ->
  exec other (decode w) (cur j) c = Some (pc1, c1) -> moved j (decode w) pc1 c1 c'.
Proof.
  intros Hj [Hs Hc] (Hw & Htop & Hm) Hk He.
  assert (Hd : exists x64 t off, decode w = ILDRlit x64 t off).
  { pose proof (decode_by_kind w Hw) as Hd. rewrite Hk in Hd. rewrite Hd in Hm |- *.
    destruct (_ && _); [by eauto|destruct Hm]. }
  destruct Hd as (x64 & t & off & Hd).
  destruct (run_ldr_literal j w x64 t off c' Hj Hc Hw Htop Hd) as [Ht Hst].
  rewrite Hd in Hm, He |- *. cbn [movable_instr exec] in Hm, He. destruct Hm as (-> & Ht' & Hv).
  destruct (cur_eq _ _ Hj) as [_ En]. injection He as <- <-.
  eexists. split; [|left; split; [exact En|exact Hst]].
  rewrite (sim_read c c' _ 8 Hs Hv).
  split; [apply sim_set_x; [by apply sim_set_x17|done]|by rewrite !mem_set_x].
Qed.

(** Every covered instruction. *)
Lemma moved_insn j w c c' pc1 c1 :
  ws !! j = Some w -> sim_in c c' -> movable (cur j) w c ->
  exec other (decode w) (cur j) c = Some (pc1, c1) -> moved j (decode w) pc1 c1 c'.
Proof.
  intros Hj Hs Hm He. destruct (decode_kind (top w)) eqn:Hk.
  - by eapply moved_b.
  - exfalso. destruct Hm as (Hw & _ & Hm). by rewrite (decode_by_kind w Hw), Hk in Hm.
  - by eapply moved_ldr_literal.
  - by eapply moved_adr.
  - by eapply moved_adrp.
  - by eapply moved_b_cond.
  - by eapply moved_compare_b.
  - by eapply moved_test_b.
  - by eapply moved_copy.
Qed.

(** ** A run of the overwritten instructions *)

(** [prologue j c pc c']: from instruction [j] in state [c] the unhooked code
    leaves the overwritten range at [pc] in state [c']: past its end, by a
    branch out of it, or by a return. *)
Inductive prologue : nat -> core -> Z -> core -> Prop :=
| prologue_end c : prologue (length ws) c (src + 4 * Z.of_nat (length ws)) c
| prologue_next j w c c1 pc c' :
    ws !! j = Some w -> movable (cur j) w c -> ~ returns (decode w) ->
    exec other (decode w) (cur j) c = Some (src + 4 * Z.of_nat (S j), c1) ->
    window (src + 4 * Z.of_nat (S j)) \/ S j = length ws ->
    prologue (S j) c1 pc c' -> prologue j c pc c'
| prologue_leave j w c c1 pc :
    ws !! j = Some w -> movable (cur j) w c ->
    exec other (decode w) (cur j) c = Some (pc, c1) -> ~ window pc -> pc <> src + 4 * Z.of_nat (S j) ->
    prologue j c pc c1.

Lemma run_back c' : code_at (mem c') D b ->
  steps other (place (length ws), c')
    (src + 4 * Z.of_nat (length ws), set_x 17 (src + 4 * Z.of_nat (length ws)) c').
Proof.
  intros Hc. destruct program_end as [H1 H2].
  pose proof (run_literal_branch other b _ D _ _ c' Hlaid Hsize HD HDtop H1 H2 Hc) as Hr.
  by rewrite (trunc_small 64) in Hr by lia.
Qed.

Lemma prologue_done c pc c1 : prologue (length ws) c pc c1 -> c1 = c /\ pc = src + 4 * Z.of_nat (length ws).
Proof.
  intros H. inversion H as [|j w ? ? ? ? Hj|j w ? ? ? Hj]; subst; [done| |];
    apply lookup_lt_Some in Hj; lia.
Qed.

Lemma prologue_sim j c pc c1 :
  prologue j c pc c1 -> forall c', sim_in c c' ->
  exists c1', sim c1 c1' /\ steps other (place j, c') (pc, c1').
Proof.
  induction 1 as [c|j w c c1 pc c2 Hj Hm Hr He Hw Hpr IH|j w c c1 pc Hj Hm He Hout Hne]; intros c' Hs.
  - exists (set_x 17 (src + 4 * Z.of_nat (length ws)) c').
    split; [apply sim_set_x17, Hs|]. apply run_back, Hs.
  - destruct (moved_insn j w c c' _ _ Hj Hs Hm He) as (c1' & Hs1 & [[_ Hst]|[[Hnw|Hret] Hst]]);
      [| |exfalso; exact (Hr Hret)].
    + destruct (IH c1' Hs1) as (c2' & Hs2 & Hst2). exists c2'. split; [done|]. by eapply steps_trans.
    + (* a branch to the next instruction leaves the range: it was the last one *)
      destruct Hw as [Hw|Hw]; [by destruct (Hnw Hw)|]. rewrite Hw in *. apply prologue_done in Hpr as [-> ->].
      exists c1'. split; [apply Hs1|done].
  - destruct (moved_insn j w c c' _ _ Hj Hs Hm He) as (c1' & Hs1 & [[Hn _]|[_ Hst]]); [by destruct (Hne Hn)|].
    exists c1'. split; [apply Hs1|done].
Qed.

(** ** Calls *)

(** The same state but for the scratch register and the link register. *)
Lemma moved_bl j w off c c' :
  ws !! j = Some w -> sim_in c c' -> 0 <= w < 2 ^ 32 -> top w <> 0x55 -> decode w = IBL off ->
  exists c1', steps other (place j, c') (u64 (cur j + off), c1') /\
    xr c1' 30 = place (S j) /\ sim (set_x 30 (place (S j)) c) c1' /\ code_at (mem c1') D b.
Proof.
  intros Hj [Hs Hc] Hw Htop Hd.
  pose proof (relo_items_by_kind (cur j) w Hw) as Hit. rewrite (kinds_agree _ (top_range w) Htop) in Hit.
  pose proof (decode_by_kind w Hw) as Hd'. rewrite Hd in Hd'.
  assert (Hk : decode_kind (top w) = KBL).
  { pose proof (decode_rest_plain w) as Hp. destruct (decode_kind (top w)); try reflexivity; try discriminate Hd'.
    - destruct ((bits w 26 26 =? 0) && (bits w 31 31 =? 0)); discriminate Hd'.
    - rewrite <- Hd' in Hp. destruct Hp. }
  rewrite Hk in Hit, Hd'. injection Hd' as ->. rewrite decode_imm26_sext in Hit.
  change (sext 28 (4 * bits w 0 25)) with (soff 26 (bits w 0 25)) in Hit.
  set (dst := u64 (cur j + soff 26 (bits w 0 25))) in *.
  assert (Hp0 : relo_items (cur j) w !! 0%nat = Some (Lit dst)) by by rewrite Hit.
  assert (Hp1 : relo_items (cur j) w !! 1%nat = Some (Word (blr_word TMP_REG_0))) by by rewrite Hit.
  pose proof (program_at _ _ _ _ Hj Hp0) as Hq0. pose proof (program_at _ _ _ _ Hj Hp1) as Hq1.
  pose proof (place_next _ _ _ _ Hj Hp1) as Hpn. change (4 * Z.of_nat 2) with 8 in Hpn.
  assert (Hdst : u64 dst = dst) by (unfold dst; by rewrite trunc_trunc by lia).
  assert (Hpl : place (S j) = place j + 8).
  { unfold place. rewrite (pos_S _ _ Hj), Hit. cbn [length]. lia. }
  exists (set_x 30 (place (S j)) (set_x 17 dst c')).
  split; [|split; [by apply upd_same|split; [apply sim_set_x; [by apply sim_set_x17|done]|by rewrite !mem_set_x]]].
  rewrite Nat.add_0_r in Hq0. eapply steps_step.
  { unfold place. by apply (step_lit other b _ D Hlaid Hsize HD HDtop c' _ _ Hc Hq0). }
  apply steps_one. replace (S (pos j)) with (pos j + 1)%nat by lia.
  rewrite (fetch_word other b _ D Hlaid _ _ _ (eq_ind_r (fun m => code_at m D b) Hc (mem_set_x _ _ _)) Hq1).
  unfold TMP_REG_0. rewrite decode_blr by lia. cbn [exec]. rewrite Hdst, get_set_x by lia.
  do 3 f_equal. rewrite Hpl, <- Hpn. f_equal. unfold place. lia.
Qed.
End Sim.
