(* ===== verification/Interceptor.v ===== *)
(** The hook registry and the inline hook: [Interceptor.{h,cpp}],
    [InterceptEntry.{h,cpp}], [InterceptRouting.{h,cpp}],
    [Routing/FunctionInlineHook] and [dobby.cpp].

    The engine's state is the allocator (with the process) and the registered
    entries. The near-branch plugin is an optional function; nothing in the
    repository registers it. *)
From S2P Require Import Prelude UtilityMacro Arm64Const CodeBuffer Assembler Platform MemAlloc RelocArm64.
From S2P Require Import TrampolineArm64 Arm64Isa.

Inductive InterceptEntryType := kFunctionInlineHook | kInstructionInstrument.

(** The fields the AArch64 build sets. *)
Record InterceptEntry := {
  id : Z; type : InterceptEntryType; patched_addr : Z;
  relocated_addr : Z; origin_insns : list byte; origin_insn_size : Z }.

Record engine := { entries : list InterceptEntry; allocator : MemoryAllocator }.

(** ** [Interceptor] *)

Fixpoint find_entry (es : list InterceptEntry) (address : Z) : option InterceptEntry :=
  match es with
  | [] => None
  | e :: es => if patched_addr e =? address then Some e else find_entry es address
  end.
Definition find (s : engine) (address : Z) : option InterceptEntry := find_entry (entries s) address.

Definition add (entry : InterceptEntry) (s : engine) : engine :=
  {| entries := entries s ++ [entry]; allocator := allocator s |}.

Fixpoint remove_entry (es : list InterceptEntry) (address : Z) : list InterceptEntry :=
  match es with
  | [] => []
  | e :: es => if patched_addr e =? address then es else e :: remove_entry es address
  end.
Definition remove (address : Z) (s : engine) : engine :=
  {| entries := remove_entry (entries s) address; allocator := allocator s |}.

Definition getEntry (s : engine) (i : Z) : option InterceptEntry :=
  if 0 <=? i then entries s !! Z.to_nat i else None.
Definition count (s : engine) : Z := s32 (Z.of_nat (length (entries s))).

Definition newInterceptEntry (type : InterceptEntryType) (address : Z) (s : engine) : InterceptEntry :=
  {| id := u32 (count s); type := type; patched_addr := address;
     relocated_addr := 0; origin_insns := []; origin_insn_size := 0 |}.

Definition RS_FAILED := -1.
Definition RS_SUCCESS := 0.
Definition RT_FAILED := -1.
Definition RT_SUCCESS := 0.

Definition set_alloc (a : MemoryAllocator) (s : engine) : engine :=
  {| entries := entries s; allocator := a |}.

Section Engine.
Context `{Kernel}.
Context (near_branch_trampoline : option (Z -> Z -> MemoryAllocator -> option CodeBufferBase * MemoryAllocator)).

(** ** [InterceptRouting] *)

(** [GenerateTrampolineBuffer]: the plugin's buffer, or else the normal one. *)
Definition GenerateTrampolineBuffer (src dst : Z) (a : MemoryAllocator) : option (CodeBufferBase * MemoryAllocator) :=
  let '(buf, a) :=
    match near_branch_trampoline with
    | Some plugin => plugin src dst a
    | None => (None, a)
    end in
  match buf with
  | Some buf => Some (buf, a)
  | None => buf ← GenerateNormalTrampolineBuffer src dst; Some (buf, a)
  end.

(** [GenerateRelocatedCode]: the overwritten bytes are read from the process. *)
Definition GenerateRelocatedCode (entry : InterceptEntry) (trampoline_buffer : CodeBufferBase) (a : MemoryAllocator) :
    option (bool * InterceptEntry * MemoryAllocator) :=
  let tramp_size := u32 (GetBufferSize trampoline_buffer) in
  let origin := newMemBlock (patched_addr entry) tramp_size in
  let buffer := read_bytes (pmem (proc a)) (patched_addr entry) (Z.to_nat tramp_size) in
  '(origin, relocated, a) ← GenRelocateCodeAndBranch (Z.to_nat tramp_size) buffer origin MemBlock_null a;
  if size relocated =? 0 then Some (false, entry, a)
  else Some (true,
    {| id := id entry; type := type entry; patched_addr := patched_addr entry;
       relocated_addr := addr relocated;
       origin_insns := read_bytes (pmem (proc a)) (addr origin) (Z.to_nat (size origin));
       origin_insn_size := u32 (size origin) |}, a).

(** [Active], [Commit]: the trampoline is written over the function. *)
Definition Active (entry : InterceptEntry) (trampoline_buffer : CodeBufferBase) (a : MemoryAllocator) :
    option MemoryAllocator :=
  p ← DobbyCodePatch (patched_addr entry) trampoline_buffer (proc a);
  Some (set_proc p a).
Definition Commit := Active.

(** [FunctionInlineHookRouting::DispatchRouting]: the result of
    [GenerateRelocatedCode] is not looked at. *)
Definition BuildRouting (entry : InterceptEntry) (replace_func : Z) (a : MemoryAllocator) :
    option (CodeBufferBase * MemoryAllocator) :=
  GenerateTrampolineBuffer (patched_addr entry) replace_func a.
Definition DispatchRouting (entry : InterceptEntry) (replace_func : Z) (a : MemoryAllocator) :
    option (InterceptEntry * CodeBufferBase * MemoryAllocator) :=
  '(buf, a) ← BuildRouting entry replace_func a;
  '(_, entry, a) ← GenerateRelocatedCode entry buf a;
  Some (entry, buf, a).

(** ** The entry points *)

(** [DobbyHook]: the status and what is stored through [origin_func]. *)
Definition DobbyHook (address replace_func : Z) (s : engine) : option (Z * option Z * engine) :=
  if address =? 0 then Some (RS_FAILED, None, s)
  else
    let page_align_address := ALIGN_FLOOR address PageSize in
    let '(ok, p) := SetPermission page_align_address PageSize kReadExecute (proc (allocator s)) in
    let s := set_alloc (set_proc p (allocator s)) s in
    if negb ok then Some (RS_FAILED, None, s)
    else
      match find s address with
      | Some _ => Some (RS_FAILED, None, s)
      | None =>
          let entry := newInterceptEntry kFunctionInlineHook address s in
          '(entry, buf, a) ← DispatchRouting entry replace_func (allocator s);
          let origin_func := relocated_addr entry in
          a ← Commit entry buf a;
          Some (RS_SUCCESS, Some origin_func, add entry (set_alloc a s))
      end.

Definition DobbyDestroy (address : Z) (s : engine) : option (Z * engine) :=
  match find s address with
  | Some entry =>
      let buffer := take (Z.to_nat (origin_insn_size entry)) (origin_insns entry) in
      p ← DobbyCodePatch address buffer (proc (allocator s));
      Some (RT_SUCCESS, remove address (set_alloc (set_proc p (allocator s)) s))
  | None => Some (RT_FAILED, s)
  end.
End Engine.
