(* ===== verification/HookSpec.v ===== *)
(** What the hook entry points do: the registry's lemmas, the placement of the
    relocated block, and the effect of [DobbyHook] and [DobbyDestroy] on memory. *)
From S2P Require Import Prelude UtilityMacro Arm64Const Arm64Kit CodeBuffer Assembler AssemblerArm64 Arm64Isa.
From S2P Require Import LiteralPool Arm64Emit Arm64Run Platform MemAlloc TrampolineArm64 RelocArm64 RelocSpec.
From S2P Require Import RelocSim Interceptor.

(** ** The registry *)

Definition hooked (es : list InterceptEntry) : list Z := patched_addr <$> es.

Lemma find_entry_None es a : find_entry es a = None <-> a ∉ hooked es.
Proof.
  induction es as [|e es IH]; cbn; [by split; [intros _; apply not_elem_of_nil|]|].
  rewrite not_elem_of_cons. destruct (Z.eqb_spec (patched_addr e) a) as [<-|Hne].
  - split; [done|]. by intros [? _].
  - rewrite IH. split; [auto|by intros [_ ?]].
Qed.

Lemma find_entry_Some es a e : find_entry es a = Some e -> e ∈ es /\ patched_addr e = a.
Proof.
  induction es as [|e' es IH]; cbn; [done|].
  destruct (Z.eqb_spec (patched_addr e') a) as [<-|].
  - intros [= <-]. split; [by left|done].
  - intros H. destruct (IH H). split; [by right|done].
Qed.

Lemma find_entry_app es e a :
  a ∉ hooked es -> patched_addr e = a -> find_entry (es ++ [e]) a = Some e.
Proof.
  intros Hn <-. induction es as [|e' es IH]; cbn; [by rewrite Z.eqb_refl|].
  cbn in Hn. rewrite not_elem_of_cons in Hn. destruct Hn as [Hne Hn].
  destruct (Z.eqb_spec (patched_addr e') (patched_addr e)); [congruence|auto].
Qed.

Lemma remove_entry_app es e a :
  a ∉ hooked es -> patched_addr e = a -> remove_entry (es ++ [e]) a = es.
Proof.
  intros Hn <-. induction es as [|e' es IH]; cbn; [by rewrite Z.eqb_refl|].
  cbn in Hn. rewrite not_elem_of_cons in Hn. destruct Hn as [Hne Hn].
  destruct (Z.eqb_spec (patched_addr e') (patched_addr e)); [congruence|]. by rewrite IH.
Qed.

Lemma remove_entry_sublist es a : sublist (remove_entry es a) es.
Proof.
  induction es as [|e es IH]; cbn; [done|]. destruct (_ =? _); [by apply sublist_cons|by apply sublist_skip].
Qed.

Lemma hooked_remove es a x :
  NoDup (hooked es) -> x ∈ hooked (remove_entry es a) <-> x ∈ hooked es /\ x <> a.
Proof.
  induction es as [|e es IH]; cbn; [intros _; split; [intros H%elem_of_nil|intros [H _]]; set_solver|].
  intros [Hni Hnd]%NoDup_cons. destruct (Z.eqb_spec (patched_addr e) a) as [<-|Hne].
  - rewrite elem_of_cons. split; [intros Hx; split; [by right|]|intros [[->|] ?]; done].
    intros ->. done.
  - cbn. rewrite !elem_of_cons, (IH Hnd). split; [intros [->|[? ?]]|intros [[->|?] ?]]; auto.
Qed.

(** ** Bytes of the process *)

Lemma length_read_bytes m a n : length (read_bytes m a n) = n.
Proof. revert a. induction n; intros; cbn; auto. Qed.

Lemma lookup_read_bytes m a n i : (i < n)%nat -> read_bytes m a n !! i = Some (m (a + Z.of_nat i)).
Proof.
  revert a i. induction n as [|n IH]; intros a i Hi; [lia|]. destruct i as [|i]; cbn.
  - by rewrite Z.add_0_r.
  - rewrite IH by lia. do 2 f_equal. lia.
Qed.

Lemma slice_read_bytes m a n o k :
  (o + k <= n)%nat -> slice o k (read_bytes m a n) = read_bytes m (a + Z.of_nat o) k.
Proof.
  intros H. apply list_eq. intros i. unfold slice. destruct (decide (i < k)%nat).
  - rewrite lookup_take_lt, lookup_drop, !lookup_read_bytes by lia. do 2 f_equal. lia.
  - rewrite lookup_take_ge by lia. symmetry. apply lookup_ge_None. rewrite length_read_bytes. lia.
Qed.

(** The instruction words at an address. *)
Definition words_at (m : Z -> byte) (a : Z) (n : nat) : list Z :=
  (fun j => read m (a + 4 * Z.of_nat j) 4) <$> seq 0 n.

Lemma words_at_length m a n : length (words_at m a n) = n.
Proof. unfold words_at. by rewrite length_fmap, length_seq. Qed.

Lemma words_at_lookup m a n j w :
  words_at m a n !! j = Some w -> (j < n)%nat /\ w = read m (a + 4 * Z.of_nat j) 4.
Proof.
  unfold words_at. rewrite list_lookup_fmap. intros (i & Hi & ->)%fmap_Some_1.
  apply lookup_seq in Hi as [-> Hlt]. done.
Qed.

Lemma buffer_words_read m a n : buffer_words (read_bytes m a (4 * n)) 0 (words_at m a n).
Proof.
  intros j w [Hj ->]%words_at_lookup. unfold LoadInst.
  rewrite Load_in by (unfold GetBufferSize; rewrite ?length_read_bytes; lia).
  rewrite slice_read_bytes by lia. unfold read. do 3 f_equal. lia.
Qed.

(** ** Placing code *)

Section Hook.
Context `{K : Kernel} `{KL : !KernelLaws}.

(** The kernel accepts every change of protection. *)
Definition mprotect_total : Prop := forall ms a n pr, mprotect_ok ms a n pr = true.

Lemma patch_spec p a b :
  mprotect_total -> 0 <= a -> a + Z.of_nat (length b) < 2 ^ 64 -> Z.of_nat (length b) <= 4096 ->
  exists p', DobbyCodePatch a b p = Some p' /\ pmem p' = write_bytes (pmem p) a b /\
    mappings p' = mappings p /\ forall x, pprot p' x = RX \/ pprot p' x = pprot p x.
Proof.
  intros Hm Ha Ht Hl.
  assert (HP : 4096 <= PageSize).
  { unfold PageSize. pose proof page_shift_range. change 4096 with (2 ^ 12). apply Z.pow_le_mono_r; lia. }
  destruct (DobbyCodePatch_ok a b p) as (p' & E & Hp); [done|done|lia| |].
  { unfold patchable, page_ok. by rewrite !Hm. }
  exists p'. split; [done|]. destruct (DobbyCodePatch_mem _ _ _ _ E) as [-> ->].
  split; [done|]. split; [done|]. intros x. rewrite Hp. destruct (_ || _); auto.
Qed.

(** Patching leaves the allocator's invariant. *)
Lemma patch_alloc_inv s bs p' :
  alloc_inv s bs -> mappings p' = mappings (proc s) ->
  (forall x, pprot p' x = RX \/ pprot p' x = pprot (proc s) x) -> alloc_inv (set_proc p' s) bs.
Proof.
  intros [Ia Id Im Ip Ib Is] Hm Hp. constructor; cbn; try done.
  - by rewrite Hm.
  - intros a x Ha Hx. destruct (Hp x) as [->| ->]; [done|by apply (Ip a)].
Qed.

Lemma kernel_serves_mappings s s' n :
  mappings (proc s) = mappings (proc s') -> kernel_serves s n -> kernel_serves s' n.
Proof. unfold kernel_serves. by intros ->. Qed.

(** [FinalizeFromTurboAssembler] puts the buffer in a fresh block. *)
Lemma Finalize_spec asm s bs :
  alloc_inv s bs -> mprotect_total -> realized_addr_ asm = 0 ->
  0 < pc_offset asm <= 4096 -> kernel_serves s (arena_for (pc_offset asm)) ->
  exists r s' p1, FinalizeFromTurboAssembler asm s = Some (Some (newMemBlock r (pc_offset asm)), s') /\
    0 < r /\ r + pc_offset asm <= 2 ^ 48 /\ alloc_inv s' (newMemBlock r (pc_offset asm) :: bs) /\
    pmem (proc s') = write_bytes (pmem p1) r (buffer_ asm) /\ keeps_mapped (proc s) p1 /\
    (forall x m, 0 <= m -> free_of s x m -> disjoint_range x m r (pc_offset asm)).
Proof.
  intros Hinv Hm Hr Hs Hk. unfold FinalizeFromTurboAssembler, GetRealizedAddress. cbv zeta. rewrite Hr, Z.eqb_refl.
  unfold pc_offset in *.
  destruct (allocateExecBlock_inv s bs (GetBufferSize (buffer_ asm)) Hinv ltac:(lia) Hk)
    as (b & s1 & -> & Hsz & Hlo & Hhi & Hinv1 & Hkm & Hfr).
  destruct (patch_spec (proc s1) (addr b) (buffer_ asm) Hm) as (p' & -> & Em & Ems & Ep);
    [lia|unfold GetBufferSize in *; lia..|].
  cbn [mbind option_bind]. eexists (addr b), (set_proc p' s1), (proc s1).
  split; [done|]. split; [done|]. split; [done|]. split; [|split; [done|split; [done|exact Hfr]]].
  pose proof (patch_alloc_inv s1 (b :: bs) p' Hinv1 Ems Ep) as [Ia Id Im Ip Ib Is].
  constructor; try done.
  - apply Forall_cons in Ib as [(a & Ha & Hb) Ib]. constructor; [|done]. exists a. split; [done|].
    unfold in_arena in *. cbn. by rewrite Hsz in Hb.
  - intros i j x y Hne Hx Hy.
    assert (Hg : forall k z, (newMemBlock (addr b) (GetBufferSize (buffer_ asm)) :: bs) !! k = Some z ->
              exists z', (b :: bs) !! k = Some z' /\ addr z' = addr z /\ size z' = size z).
    { intros [|k] z Hz; cbn in Hz |- *; [injection Hz as <-; by exists b|by exists z]. }
    destruct (Hg _ _ Hx) as (x' & Hx' & Ex & Ex'). destruct (Hg _ _ Hy) as (y' & Hy' & Ey & Ey').
    unfold block_disjoint. rewrite <- Ex, <- Ex', <- Ey, <- Ey'. by apply (Is i j).
Qed.

(** The whole relocation of the [n] words at [src]. *)
Lemma GenRelocate_spec src n s bs :
  alloc_inv s bs -> mprotect_total -> 0 <= src < 2 ^ 62 -> (0 < n <= 4)%nat ->
  (forall k, 0 < k <= 4096 -> kernel_serves s (arena_for k)) ->
  exists b r s' p1,
    GenRelocateCodeAndBranch (4 * n) (read_bytes (pmem (proc s)) src (4 * n)) (newMemBlock src (4 * Z.of_nat n))
      MemBlock_null s = Some (newMemBlock src (4 * Z.of_nat n), newMemBlock r (GetBufferSize b), s') /\
    laid_out b (relo_program src (words_at (pmem (proc s)) src n)) /\
    0 < GetBufferSize b <= 4096 /\ 0 < r /\ r + GetBufferSize b <= 2 ^ 48 /\
    alloc_inv s' (newMemBlock r (GetBufferSize b) :: bs) /\
    pmem (proc s') = write_bytes (pmem p1) r b /\ keeps_mapped (proc s) p1 /\
    (forall x m, 0 <= m -> free_of s x m -> disjoint_range x m r (GetBufferSize b)).
Proof.
  intros Hinv Hm Hsrc Hn Hk. unfold GenRelocateCodeAndBranch, GenRelocateCode. cbv zeta.
  set (ws := words_at (pmem (proc s)) src n). pose proof (words_at_length (pmem (proc s)) src n) as Hlen.
  fold ws in Hlen. cbn [addr size newMemBlock].
  match goal with |- context [relo_emit ?f ?c ?o true] =>
    destruct (relo_emit_spec f c o ws) as (ctx' & asm & E & Hl & Hr & Hsz) end;
    cbn [buffer buffer_cursor buffer_size src_vmaddr addr newMemBlock]; try (done || lia).
  { apply buffer_words_read. }
  cbn [src_vmaddr] in E, Hl. unfold newMemBlock in *. rewrite E. cbn [mbind option_bind]. rewrite Hlen in *.
  assert (Hb : 0 < GetBufferSize (buffer_ asm) <= 4096).
  { destruct Hl as [-> _]. pose proof (lits_length (relo_program src ws)).
    pose proof (items_from_length src 0 ws). unfold relo_program in *. rewrite length_app in *. cbn [length] in *. lia. }
  destruct (Finalize_spec asm s bs Hinv Hm Hr Hb (Hk _ Hb)) as (r & s' & p1 & -> & H1 & H2 & H3 & H4 & H5 & H6).
  cbn [mbind option_bind]. by exists (buffer_ asm), r, s', p1.
Qed.

(** ** [DobbyHook] *)

Lemma read_bytes_ext m m' a n :
  (forall x, a <= x < a + Z.of_nat n -> m x = m' x) -> read_bytes m a n = read_bytes m' a n.
Proof.
  intros H. apply list_eq. intros i. destruct (decide (i < n)%nat).
  - rewrite !lookup_read_bytes by done. f_equal. apply H. lia.
  - rewrite !(proj2 (lookup_ge_None _ _)); [done|rewrite length_read_bytes; lia..].
Qed.

Lemma write_code_at m a b : code_at (write_bytes m a b) a b.
Proof. intros i x Hi. by apply write_bytes_in. Qed.

Lemma code_at_write m a b a' b' :
  code_at m a b -> disjoint_range a (GetBufferSize b) a' (GetBufferSize b') ->
  code_at (write_bytes m a' b') a b.
Proof.
  intros H Hd i x Hi. pose proof (lookup_lt_Some _ _ _ Hi). unfold disjoint_range, GetBufferSize in Hd.
  rewrite write_bytes_out by lia. by apply H.
Qed.

(** The conditions under which a hook is placed. *)
Record hook_ready (s : engine) (bs : list MemBlock) (address replace_func : Z) : Prop := {
  hr_inv : alloc_inv (allocator s) bs;
  hr_addr : 0 < address < 2 ^ 47;
  hr_target : 0 <= replace_func < 2 ^ 62;
  hr_reach : far address replace_func = true \/ page_fits address replace_func;
  hr_new : address ∉ hooked (entries s);
  hr_free : free_of (allocator s) address 16;
  hr_kernel : forall k, 0 < k <= 4096 -> kernel_serves (allocator s) (arena_for k) }.

(** What a placed hook looks like: [t] is the trampoline over the function, [b]
    the relocated block at [r]. *)
Record hook_placed (s s' : engine) (bs : list MemBlock) (address replace_func r : Z) (n : nat)
    (t b : CodeBufferBase) (e : InterceptEntry) : Prop := {
  hp_n : n = 3%nat \/ n = 4%nat;
  hp_tramp : GenerateNormalTrampolineBuffer address replace_func = Some t;
  hp_len : length t = (4 * n)%nat;
  hp_entries : entries s' = entries s ++ [e];
  hp_patched : patched_addr e = address;
  hp_relocated : relocated_addr e = r;
  hp_saved : origin_insns e = read_bytes (pmem (proc (allocator s))) address (4 * n);
  hp_saved_size : origin_insn_size e = 4 * Z.of_nat n;
  hp_laid : laid_out b (relo_program address (words_at (pmem (proc (allocator s))) address n));
  hp_size : 0 < GetBufferSize b <= 4096;
  hp_r : 0 < r /\ r + GetBufferSize b <= 2 ^ 48;
  hp_disjoint : disjoint_range address 16 r (GetBufferSize b);
  hp_code : code_at (pmem (proc (allocator s'))) address t;
  hp_block : code_at (pmem (proc (allocator s'))) r b;
  hp_keeps : forall reg x, reg ∈ mappings (proc (allocator s)) -> reg.1 <= x < reg.1 + reg.2 ->
    x < address \/ address + Z.of_nat (length t) <= x -> x < r \/ r + GetBufferSize b <= x ->
    pmem (proc (allocator s')) x = pmem (proc (allocator s)) x;
  hp_inv : alloc_inv (allocator s') (newMemBlock r (GetBufferSize b) :: bs) }.

(** The block at [r] that the hook relocated the overwritten instructions to: [ws] are
    the words that the trampoline covers, [b] the code that the relocation generates
    for them, which fixes its size; its place is a fresh block of the allocator, apart
    from the function; and the entry that the hook adds says so. *)
Record relocated_block (s s' : engine) (bs : list MemBlock) (address replace_func r : Z) (ws : list Z) (b : CodeBufferBase) : Prop := {
  rb_words : ws = words_at (pmem (proc (allocator s))) address (length ws);
  rb_tramp : exists t, GenerateNormalTrampolineBuffer address replace_func = Some t /\ length t = (4 * length ws)%nat /\
    code_at (pmem (proc (allocator s'))) address t;
  rb_laid : laid_out b (relo_program address ws);
  rb_size : 0 < GetBufferSize b <= 4096;
  rb_code : code_at (pmem (proc (allocator s'))) r b;
  rb_apart : disjoint_range address 16 r (GetBufferSize b);
  rb_fresh : alloc_inv (allocator s') (newMemBlock r (GetBufferSize b) :: bs);
  rb_entry : exists e, entries s' = entries s ++ [e] /\ patched_addr e = address /\ relocated_addr e = r /\
    origin_insns e = read_bytes (pmem (proc (allocator s))) address (4 * length ws) /\
    origin_insn_size e = 4 * Z.of_nat (length ws) }.
Lemma placed_block s s' bs address replace_func r n t b e : hook_placed s s' bs address replace_func r n t b e ->
  relocated_block s s' bs address replace_func r (words_at (pmem (proc (allocator s))) address n) b.
Proof.
  intros []. constructor; rewrite ?words_at_length; try done; [by exists t|by exists e].
Qed.

Lemma SetPermission_total a n pm p : mprotect_total ->
  exists p', SetPermission a n pm p = (true, p') /\ pmem p' = pmem p /\ mappings p' = mappings p /\
    forall x, pprot p' x = GetProtectionFromMemoryPermission pm \/ pprot p' x = pprot p x.
Proof.
  intros Hm. unfold SetPermission, mprotect. rewrite Hm. eexists. split; [done|].
  cbn. split; [done|]. split; [done|]. intros x. destruct (in_pages _ _ _); auto.
Qed.

Lemma GenerateRelocatedCode_spec e t n a bs :
  alloc_inv a bs -> mprotect_total -> 0 < patched_addr e < 2 ^ 47 -> n = 3%nat \/ n = 4%nat ->
  length t = (4 * n)%nat -> free_of a (patched_addr e) 16 ->
  (forall k, 0 < k <= 4096 -> kernel_serves a (arena_for k)) ->
  exists r b p1 a', GenerateRelocatedCode e t a =
      Some (true, {| id := id e; type := type e; patched_addr := patched_addr e; relocated_addr := r;
                     origin_insns := read_bytes (pmem (proc a)) (patched_addr e) (4 * n);
                     origin_insn_size := 4 * Z.of_nat n |}, a') /\
    laid_out b (relo_program (patched_addr e) (words_at (pmem (proc a)) (patched_addr e) n)) /\
    0 < GetBufferSize b <= 4096 /\ (0 < r /\ r + GetBufferSize b <= 2 ^ 48) /\
    disjoint_range (patched_addr e) 16 r (GetBufferSize b) /\
    pmem (proc a') = write_bytes (pmem p1) r b /\ keeps_mapped (proc a) p1 /\
    alloc_inv a' (newMemBlock r (GetBufferSize b) :: bs).
Proof.
  intros Hinv Hm Ha Hn Hl Hfree Hk.
  assert (Hsz : u32 (GetBufferSize t) = 4 * Z.of_nat n)
    by (unfold GetBufferSize; rewrite Hl, trunc_small by lia; lia).
  destruct (GenRelocate_spec (patched_addr e) n a bs) as (b & r & a' & p1 & E & Hb & Hs & H1 & H2 & H3 & H4 & H5 & H6);
    [done|done|lia|lia|done|].
  unfold GenerateRelocatedCode. cbv zeta. rewrite Hsz.
  replace (Z.to_nat (4 * Z.of_nat n)) with (4 * n)%nat by lia. rewrite E. cbn [mbind option_bind].
  cbn [size newMemBlock addr]. rewrite (proj2 (Z.eqb_neq _ _)) by lia.
  pose proof (H6 (patched_addr e) 16 ltac:(lia) Hfree) as Hd.
  exists r, b, p1, a'. split; [|by auto 10].
  rewrite (trunc_small 32) by lia. replace (Z.to_nat (4 * Z.of_nat n)) with (4 * n)%nat by lia.
  do 3 f_equal. f_equal. apply read_bytes_ext. intros x Hx. rewrite H4, write_bytes_out.
  - destruct Hfree as [(reg & Hreg & ? & ?) _]. apply (H5 reg); [done|lia].
  - unfold disjoint_range, GetBufferSize in Hd. lia.
Qed.

Lemma DobbyHook_placed s bs address replace_func :
  hook_ready s bs address replace_func -> mprotect_total ->
  exists r n t b e s', DobbyHook None address replace_func s = Some (RS_SUCCESS, Some r, s') /\
    hook_placed s s' bs address replace_func r n t b e.
Proof.
  intros [Hinv Ha Ht Hre Hnew Hfree Hk] Hm. unfold DobbyHook.
  rewrite (proj2 (Z.eqb_neq address 0)) by lia. cbv zeta.
  destruct (SetPermission_total (ALIGN_FLOOR address PageSize) PageSize kReadExecute (proc (allocator s)) Hm)
    as (p0 & -> & Em & Ems & Ep). cbn [negb].
  set (a0 := set_proc p0 (allocator s)).
  assert (Hinv0 : alloc_inv a0 bs) by by apply patch_alloc_inv.
  unfold find. cbn [entries set_alloc allocator]. rewrite (proj2 (find_entry_None _ _) Hnew).
  destruct (trampoline_buffer address replace_func ltac:(lia) ltac:(lia)) as (t & Et & _ & Hsz).
  unfold DispatchRouting, BuildRouting, GenerateTrampolineBuffer. cbn [patched_addr newInterceptEntry].
  rewrite Et. cbn [mbind option_bind].
  set (n := if far address replace_func then 4%nat else 3%nat).
  assert (Hn : n = 3%nat \/ n = 4%nat) by (unfold n; destruct (far _ _); auto).
  assert (Hl : length t = (4 * n)%nat) by (unfold n, GetBufferSize in *; destruct (far _ _); lia).
  set (e0 := newInterceptEntry _ _ _).
  destruct (GenerateRelocatedCode_spec e0 t n a0 bs) as (r & b & p1 & a1 & -> & Hb & Hbs & Hr & Hd & Hw & Hkm & Hinv1);
    [exact Hinv0|exact Hm|cbn; lia|exact Hn|exact Hl| | |].
  { destruct Hfree as [Hreg Har]. split; [cbn; by rewrite Ems|exact Har]. }
  { intros k Hk'. by apply (kernel_serves_mappings (allocator s)); [|apply Hk]. }
  cbn [mbind option_bind]. unfold Commit, Active. cbn [patched_addr relocated_addr].
  destruct (patch_spec (proc a1) (patched_addr e0) t Hm) as (p2 & -> & Em2 & Ems2 & Ep2); [cbn; lia|cbn; lia|lia|].
  cbn [mbind option_bind]. eexists r, n, t, b, _, _. split; [reflexivity|].
  assert (Hd' : disjoint_range address (Z.of_nat (length t)) r (GetBufferSize b))
    by (unfold disjoint_range in *; cbn in Hd; lia).
  constructor; cbn [entries add set_alloc allocator set_proc proc patched_addr relocated_addr origin_insns origin_insn_size];
    try done.
  - change (pmem (proc a0)) with (pmem p0). by rewrite Em.
  - rewrite <- Em. exact Hb.
  - rewrite Em2. apply write_code_at.
  - rewrite Em2, Hw. apply code_at_write; [apply write_code_at|].
    unfold disjoint_range, GetBufferSize in *. cbn. lia.
  - intros reg x Hreg Hx Hx1 Hx2. rewrite Em2, Hw. cbn [patched_addr e0 newInterceptEntry].
    rewrite write_bytes_out by (cbn; lia). rewrite write_bytes_out by (unfold GetBufferSize in *; lia).
    rewrite <- Em. apply (Hkm reg); [cbn; by rewrite Ems|done].
  - by apply patch_alloc_inv.
Qed.
End Hook.
