(* ===== verification/HookClaims.v ===== *)
(** The guarantees of the inline hook. *)
From S2P Require Import Prelude UtilityMacro Arm64Const Arm64Kit CodeBuffer Assembler AssemblerArm64 Arm64Isa.
From S2P Require Import LiteralPool Arm64Run Platform MemAlloc TrampolineArm64 RelocArm64 RelocSpec RelocSim.
From S2P Require Import Interceptor HookSpec.

(** A process with one mapped page of code and no hook yet: the ground the
    witnesses stand on. The code is [nop]s but for a [b] at the start. *)
Definition demo_process : process :=
  {| pmem := fun a => if a =? 0x100103 then 0x14 else if (a =? 0x100101) || (a =? 0x100102) then 0 else 0x1F;
     pprot := fun _ => RX; mappings := [(0x100000, 0x1000)] |}.
Definition demo_engine : engine := {| entries := []; allocator := newMemoryAllocator demo_process |}.

Lemma demo_ready : hook_ready demo_engine [] 0x100100 0x200000.
Proof.
  constructor; cbn [demo_engine allocator entries].
  - apply alloc_inv_new.
  - lia.
  - lia.
  - right. reflexivity.
  - by intros H%elem_of_nil.
  - split; [|by intros a H%elem_of_nil]. exists (0x100000, 0x1000). split; [by left|]. cbn. lia.
  - intros k Hk. destruct (arena_for_spec k ltac:(lia)) as [Hr _]. unfold kernel_serves. cbn.
    set (n := arena_for k) in *. 
    exists 0x40000000. split; [|done].
    assert (Hn : n <= 2 ^ 20).
    { unfold n, arena_for, PageSize. cbn [page_shift bump_kernel].
      destruct (ALIGN_CEIL_bounds k 12 ltac:(lia) ltac:(lia) ltac:(lia)) as [_ H]. lia. }
    unfold top_of. cbn.
    match goal with |- context [?x / 4096 * 4096] => change (x / 4096 * 4096) with 0x40000000 end.
    rewrite (proj2 (Z.ltb_lt 0 n)), (proj2 (Z.leb_le (0x40000000 + n) (2 ^ 48))) by lia. reflexivity.
Qed.

Section HookClaims.
Context `{K : Kernel} `{KL : !KernelLaws}.

(** C1: after a successful [DobbyHook] a call of the hooked function reaches the
    replacement: from the function's address, with the process memory the hook
    left, execution arrives at [replace_func] with only x17 changed. *)
Theorem DobbyHook_redirects s bs address replace_func :
  hook_ready s bs address replace_func -> mprotect_total ->
  exists r s', DobbyHook None address replace_func s = Some (RS_SUCCESS, Some r, s') /\
    forall other c, mem c = pmem (proc (allocator s')) ->
      exists v, steps other (address, c) (replace_func, set_x 17 v c).
Proof.
  intros Hr Hm. destruct (DobbyHook_placed s bs address replace_func Hr Hm) as (r & n & t & b & e & s' & E & Hp).
  exists r, s'. split; [done|]. intros other c Hc. destruct Hr as [_ Ha Ht Hre _ _ _].
  destruct (trampoline_runs address replace_func ltac:(lia) Ht Hre) as (t' & Et & _ & Hrun).
  rewrite (hp_tramp _ _ _ _ _ _ _ _ _ _ Hp) in Et. injection Et as <-.
  apply Hrun. rewrite Hc. apply (hp_code _ _ _ _ _ _ _ _ _ _ Hp).
Qed.

(** C2: the address [DobbyHook] stores through [origin_func] runs the overwritten
    instructions, the three or four words [ws] that the trampoline covers: the block
    there is what their relocation generates, in fresh memory. If the unhooked words
    take a state [c0] to an address [pc] outside them in state [c1] ([prologue]), the
    block takes a state equal to [c0] but for x17, the patched bytes and the block to
    the same [pc] in a state equal to [c1] but for these. The words may be any that
    [movable] covers: [b], [b.cond] (not 14 and 15), [cbz], [cbnz], [tbz] and [tbnz] to
    an address outside the words; [adr] and [adrp]; [ldr] of a 64-bit literal and from
    a base register, which do not read the words or the block; [br], [ret], [movz],
    [movk], [add]; and any other instruction that does not involve x17, the words or
    the block. x17 is not a source, register 31 is not the target of [adr], [adrp] or a
    literal load, and no word has 0x55 for its top byte. Not covered: [bl] and [blr],
    32-bit and SIMD literal loads, [ldrsw] and [prfm] of a literal, and branches among
    the words. *)
Theorem DobbyHook_origin_callable s bs address replace_func :
  hook_ready s bs address replace_func -> mprotect_total ->
  exists r s' b ws, DobbyHook None address replace_func s = Some (RS_SUCCESS, Some r, s') /\
    (length ws = 3%nat \/ length ws = 4%nat) /\
    relocated_block s s' bs address replace_func r ws b /\
    forall other c0 pc c1 c, prologue other b address ws r 0 c0 pc c1 ->
      sim b address ws r c0 c -> mem c = pmem (proc (allocator s')) ->
      exists c1', sim b address ws r c1 c1' /\ steps other (r, c) (pc, c1').
Proof.
  intros Hr Hm. destruct (DobbyHook_placed s bs address replace_func Hr Hm) as (r & n & t & b & e & s' & E & Hp).
  pose proof (placed_block _ _ _ _ _ _ _ _ _ _ Hp) as Hrb.
  set (ws := words_at (pmem (proc (allocator s))) address n) in *.
  pose proof (words_at_length (pmem (proc (allocator s))) address n) as Hlen. fold ws in Hlen.
  pose proof (hr_addr _ _ _ _ Hr) as Ha. destruct Hp as [Hn Ht Hl He Hpa Hre Hsv Hss Hb Hsz [Hr0 Hrt] Hd Hc Hbl Hk Hi].
  exists r, s', b, ws. split; [done|]. split; [by rewrite Hlen|]. split; [done|].
  intros other c0 pc c1 c Hpro Hs Hmem.
  destruct (prologue_sim other b address ws r Hb ltac:(lia) ltac:(lia) ltac:(lia) ltac:(lia)
              ltac:(rewrite Hlen; lia) 0 c0 pc c1 Hpro c) as (c1' & Hs1 & Hst).
  { split; [done|]. by rewrite Hmem. }
  exists c1'. split; [done|]. unfold place in Hst. rewrite pos_0, Z.add_0_r in Hst. exact Hst.
Qed.

(** C3: [DobbyDestroy] undoes [DobbyHook]: the entry is gone, and every byte of the
    memory that was mapped before the hook has the value it had, but for the block that
    the overwritten instructions were relocated to: fresh memory of the allocator, as
    long as the code that the relocation generates and not longer than 4096 bytes,
    which the sixteen bytes at the function's address are not in; these are restored. *)
Theorem DobbyDestroy_undoes s bs address replace_func :
  hook_ready s bs address replace_func -> mprotect_total ->
  exists r s' s'' ws b, DobbyHook None address replace_func s = Some (RS_SUCCESS, Some r, s') /\
    relocated_block s s' bs address replace_func r ws b /\
    DobbyDestroy address s' = Some (RT_SUCCESS, s'') /\ entries s'' = entries s /\
    (forall x, address <= x < address + 16 -> pmem (proc (allocator s'')) x = pmem (proc (allocator s)) x) /\
    forall reg x, reg ∈ mappings (proc (allocator s)) -> reg.1 <= x < reg.1 + reg.2 ->
      x < r \/ r + GetBufferSize b <= x ->
      pmem (proc (allocator s'')) x = pmem (proc (allocator s)) x.
Proof.
  intros Hr Hm. destruct (DobbyHook_placed s bs address replace_func Hr Hm) as (r & n & t & b & e & s' & E & Hp).
  pose proof (placed_block _ _ _ _ _ _ _ _ _ _ Hp) as Hrb.
  destruct Hr as [_ Ha _ _ Hnew Hfree _].
  destruct Hp as [Hn Ht Hl He Hpa Hre Hsv Hss _ Hsz Hr Hd Hc Hbl Hk Hi].
  pose proof (length_read_bytes (pmem (proc (allocator s))) address (4 * n)) as Hlen. rewrite <- Hsv in Hlen.
  destruct (patch_spec (proc (allocator s')) address (origin_insns e) Hm) as (p' & Ep & Em & _ & _); [lia..|].
  set (s'' := remove address (set_alloc (set_proc p' (allocator s')) s')).
  assert (Hall : forall reg x, reg ∈ mappings (proc (allocator s)) -> reg.1 <= x < reg.1 + reg.2 ->
    x < r \/ r + GetBufferSize b <= x -> pmem (proc (allocator s'')) x = pmem (proc (allocator s)) x).
  { intros reg x Hreg Hx Hxb. cbn. rewrite Em.
    destruct (decide (address <= x < address + Z.of_nat (length t))) as [Hin|Hout].
    - replace x with (address + Z.of_nat (Z.to_nat (x - address))) by lia.
      rewrite (write_bytes_in _ _ _ _ (pmem (proc (allocator s)) (address + Z.of_nat (Z.to_nat (x - address))))); [done|].
      rewrite Hsv. apply lookup_read_bytes. lia.
    - rewrite write_bytes_out by lia. by apply (Hk reg x Hreg Hx); [lia|]. }
  exists r, s', s'', (words_at (pmem (proc (allocator s))) address n), b. split; [done|]. split; [done|]. split; [|split; [|split; [|exact Hall]]].
  - unfold DobbyDestroy, find. rewrite He, (find_entry_app _ _ _ Hnew Hpa), Hss.
    rewrite firstn_all2 by lia. by rewrite Ep.
  - cbn. rewrite He. by apply remove_entry_app.
  - intros x Hx. destruct Hfree as [(reg & Hreg & H1 & H2) _]. apply (Hall reg); [done|lia|]. unfold disjoint_range in Hd. lia.
Qed.


Lemma GenerateRelocatedCode_patched e t a r e' a' :
  GenerateRelocatedCode e t a = Some (r, e', a') -> patched_addr e' = patched_addr e.
Proof.
  unfold GenerateRelocatedCode. cbv zeta. destruct (GenRelocateCodeAndBranch _ _ _ _ _) as [[[o rl] a1]|]; [|done].
  cbn. destruct (size rl =? 0); by intros [= _ <- _].
Qed.

(** C28: the registry never holds two entries for one address: [DobbyHook] and
    [DobbyDestroy] keep the hooked addresses distinct, whatever the plugin, the
    kernel and the code are; a hook adds its address and a destroy removes it. *)
Theorem registry_unique near s address :
  NoDup (hooked (entries s)) ->
  (forall replace_func st o s', DobbyHook near address replace_func s = Some (st, o, s') ->
     NoDup (hooked (entries s')) /\
     hooked (entries s') = if st =? RS_SUCCESS then hooked (entries s) ++ [address] else hooked (entries s)) /\
  (forall st s', DobbyDestroy address s = Some (st, s') ->
     NoDup (hooked (entries s')) /\ forall x, x ∈ hooked (entries s') <-> x ∈ hooked (entries s) /\ x <> address).
Proof.
  intros Hnd. split.
  - intros replace_func st o s'. unfold DobbyHook. destruct (address =? 0); [by intros [= <- _ <-]|].
    cbv zeta. destruct (SetPermission _ _ _ _) as [ok p]. destruct ok; cbn [negb]; [|by intros [= <- _ <-]].
    unfold find. cbn [set_alloc entries allocator].
    destruct (find_entry (entries s) address) eqn:Ef; [by intros [= <- _ <-]|].
    apply find_entry_None in Ef. unfold DispatchRouting.
    destruct (BuildRouting _ _ _ _) as [[buf a]|]; [|done]. cbn [mbind option_bind].
    destruct (GenerateRelocatedCode _ buf a) as [[[rr e'] a']|] eqn:Eg; [|done]. cbn [mbind option_bind].
    apply GenerateRelocatedCode_patched in Eg. cbn [patched_addr newInterceptEntry] in Eg.
    destruct (Commit e' buf a') as [a2|]; [|done]. cbn [mbind option_bind]. intros [= <- _ <-].
    cbn [entries add set_alloc].
    assert (Hh : hooked (entries s ++ [e']) = hooked (entries s) ++ [address])
      by (unfold hooked; rewrite fmap_app; cbn; by rewrite Eg).
    rewrite Hh. split; [|done]. apply NoDup_app. split; [done|]. split; [|by apply NoDup_singleton].
    intros x Hx ->%list_elem_of_singleton. done.
  - intros st s'. unfold DobbyDestroy, find. destruct (find_entry (entries s) address) as [e|] eqn:Ef.
    + destruct (DobbyCodePatch _ _ _) as [p|]; [|done]. cbn [mbind option_bind]. intros [= _ <-].
      cbn [remove entries set_alloc]. split; [|intros x; by apply hooked_remove].
      eapply sublist_NoDup; [done|]. unfold hooked. apply fmap_sublist, remove_entry_sublist.
    + intros [= _ <-]. apply find_entry_None in Ef. split; [done|]. intros x. split; [|by intros [? _]].
      intros Hx. split; [done|]. by intros ->.
Qed.
End HookClaims.

(** ** Witnesses *)

Lemma demo_total : mprotect_total.
Proof. done. Qed.

Lemma DobbyHook_redirects_witness :
  exists r s', DobbyHook None 0x100100 0x200000 demo_engine = Some (RS_SUCCESS, Some r, s') /\
    forall other c, mem c = pmem (proc (allocator s')) ->
      exists v, steps other (0x100100, c) (0x200000, set_x 17 v c).
Proof. exact (DobbyHook_redirects demo_engine [] 0x100100 0x200000 demo_ready demo_total). Defined.

(** The overwritten code starts with a branch: calling the stored address takes
    it. *)
Lemma DobbyHook_origin_callable_witness :
  exists r s', DobbyHook None 0x100100 0x200000 demo_engine = Some (RS_SUCCESS, Some r, s') /\
    forall other c, mem c = pmem (proc (allocator s')) ->
      exists c1, xr c1 0 = xr c 0 /\ steps other (r, c) (0x10017C, c1).
Proof.
  destruct (DobbyHook_origin_callable demo_engine [] 0x100100 0x200000 demo_ready demo_total)
    as (r & s' & b & ws & E & Hl & Hb & H).
  exists r, s'. split; [exact E|]. intros other c Hc.
  destruct (H other c 0x10017C c c) as (c1' & Hs & Hst).
  - apply (prologue_leave other b 0x100100 ws r 0 0x1400001F).
    + rewrite (rb_words _ _ _ _ _ _ _ _ Hb). destruct Hl as [-> | ->]; vm_compute; reflexivity.
    + split; [lia|]. split; [vm_compute; discriminate|].
      change (decode 0x1400001F) with (IB 124). cbn [movable_instr].
      change (u64 (cur 0x100100 0 + 124)) with 0x10017C. unfold window. lia.
    + reflexivity.
    + unfold window. lia.
    + lia.
  - constructor; auto.
  - exact Hc.
  - exists c1'. split; [|exact Hst]. symmetry. apply (sim_x _ _ _ _ _ _ Hs). lia.
Defined.

Lemma DobbyDestroy_undoes_witness :
  exists r s' s'' ws b, DobbyHook None 0x100100 0x200000 demo_engine = Some (RS_SUCCESS, Some r, s') /\
    relocated_block demo_engine s' [] 0x100100 0x200000 r ws b /\
    DobbyDestroy 0x100100 s' = Some (RT_SUCCESS, s'') /\ entries s'' = [] /\
    (forall x, 0x100100 <= x < 0x100100 + 16 -> pmem (proc (allocator s'')) x = pmem demo_process x) /\
    forall reg x, reg ∈ [(0x100000, 0x1000)] -> reg.1 <= x < reg.1 + reg.2 ->
      x < r \/ r + GetBufferSize b <= x ->
      pmem (proc (allocator s'')) x = pmem demo_process x.
Proof. exact (DobbyDestroy_undoes demo_engine [] 0x100100 0x200000 demo_ready demo_total). Defined.

Lemma registry_unique_witness :
  DobbyDestroy 0x100100 demo_engine = Some (RT_FAILED, demo_engine) /\
  NoDup (hooked (entries demo_engine)).
Proof.
  assert (E : DobbyDestroy 0x100100 demo_engine = Some (RT_FAILED, demo_engine)) by reflexivity.
  split; [exact E|].
  exact (proj1 (proj2 (registry_unique None demo_engine 0x100100 (NoDup_nil_2)) _ _ E)).
Defined.
