(* ===== verification/DobbyClaims.v ===== *)
(** The guarantees of the code generators, the patch tool and the allocator, and
    the cases in which they do not hold. *)
From S2P Require Import Prelude UtilityMacro Arm64Const Arm64Kit CodeBuffer Assembler AssemblerArm64 Arm64Isa.
From S2P Require Import LiteralPool Arm64Emit Arm64Run Platform MemAlloc TrampolineArm64 RelocArm64 RelocSpec.
From S2P Require Import RelocSim HookSpec.

(** ** The trampoline *)

(** Where the trampoline lands: the page delta of the short form wraps when it
    is exactly 2^20 pages. *)
Definition landing (from to : Z) : Z :=
  if far from to || (to / 4096 - from / 4096 <? 2 ^ 20) then to else u64 (to - 2 ^ 33).

Lemma run_adrp_wrap other from to b c :
  0 <= from < 2 ^ 62 -> 0 <= to < 2 ^ 62 -> far from to = false -> ~ page_fits from to ->
  laid_out b (adrp_items from to) -> code_at (mem c) from b ->
  exists v, steps other (from, c) (u64 (to - 2 ^ 33), set_x 17 v c).
Proof.
  intros Hf Ht Hfar Hp Hl Hc. unfold far in Hfar. apply Z.leb_gt in Hfar. unfold page_fits in Hp.
  pose proof (Z.div_mod from 4096 ltac:(lia)) as Ef. pose proof (Z.div_mod to 4096 ltac:(lia)) as Et.
  pose proof (Z.mod_pos_bound from 4096 ltac:(lia)) as Bf. pose proof (Z.mod_pos_bound to 4096 ltac:(lia)) as Bt.
  pose proof (page_delta_spec from to ltac:(lia) ltac:(lia)) as Hd.
  assert (Hpd : page_delta from to = 2 ^ 32) by lia.
  unfold adrp_items in Hl. rewrite Hpd in Hl. set (v0 := u64 (4096 * (from / 4096) - 2 ^ 32)).
  exists (u64 (to - 2 ^ 33)).
  assert (S0 : step other (from, c) = Some (from + 4, set_x 17 v0 c)).
  { replace from with (from + 4 * Z.of_nat 0) at 1 by lia.
    rewrite (fetch_word other b _ from Hl c 0 _ Hc eq_refl).
    change (decode (u32 (adrp_word TMP_REG_0 (2 ^ 32)))) with (IADRP 17 (- 2 ^ 32)).
    cbn [exec]. change (4 * Z.of_nat 0) with 0. rewrite Z.add_0_r, (trunc_small 64 (from + 4)) by lia. done. }
  set (c1 := set_x 17 v0 c) in *.
  assert (S1 : step other (from + 4, c1) = Some (from + 8, set_x 17 (u64 (to - 2 ^ 33)) c)).
  { replace (from + 4) with (from + 4 * Z.of_nat 1) by lia.
    rewrite (fetch_word other b _ from Hl c1 1 (AddSubImmediate_word TMP_REG_0 TMP_REG_0 (Operand_imm (to mod 0x1000)) ADD_x_imm));
      [|by unfold c1; rewrite mem_set_x|done].
    unfold TMP_REG_0. rewrite decode_add_imm by lia. cbn [exec set_xsp]. unfold c1.
    rewrite get_xsp_set_x by lia. unfold set_xsp. cbn [Z.eqb Pos.eqb]. rewrite set_x_shadow.
    unfold wtrunc. rewrite (trunc_small 64 (from + 4 * Z.of_nat 1 + 4)) by lia. do 2 f_equal; [lia|].
    f_equal. unfold v0. rewrite trunc_add_l. f_equal. lia. }
  eapply steps_step; [exact S0|]. eapply steps_step; [exact S1|].
  apply steps_one. replace (from + 8) with (from + 4 * Z.of_nat 2) by lia.
  rewrite (fetch_word other b _ from Hl _ 2 (br_word TMP_REG_0)); [|by rewrite mem_set_x|done].
  unfold TMP_REG_0. rewrite decode_br by lia. cbn [exec]. by rewrite get_set_x.
Qed.

(** C24: for user-space addresses the trampoline generator returns 12 or 16 bytes
    (by the distance test), and running them at [from] changes only x17 and
    arrives at [to]; except that in the short form, when [to] lies exactly 2^20
    pages above [from], the [adrp] offset wraps and it arrives 2^33 below. *)
Theorem normal_trampoline_lands from to :
  0 <= from < 2 ^ 62 -> 0 <= to < 2 ^ 62 ->
  exists b, GenerateNormalTrampolineBuffer from to = Some b /\
    length b = (if far from to then 16 else 12)%nat /\
    forall other c, code_at (mem c) from b ->
      exists v, steps other (from, c) (landing from to, set_x 17 v c).
Proof.
  intros Hf Ht. unfold landing. destruct (far from to || (to / 4096 - from / 4096 <? 2 ^ 20)) eqn:E.
  - pose proof (trampoline_runs from to Hf Ht) as H. destruct (far from to); apply H; [by left|].
    right. by apply Z.ltb_lt.
  - apply orb_false_iff in E as [Hfar Hp%Z.ltb_ge].
    destruct (trampoline_buffer from to ltac:(lia) ltac:(lia)) as (b & E & Hl & Hs). rewrite Hfar in *.
    exists b. split; [done|]. split; [unfold GetBufferSize in Hs; lia|].
    intros other c Hc. apply (run_adrp_wrap other from to b c); try done. unfold page_fits. lia.
Qed.

(** The wrapping case. *)
Lemma normal_trampoline_lands_witness :
  landing 0x7000000FFC 0x7100000FF8 = 0x6F00000FF8 /\
  exists b, GenerateNormalTrampolineBuffer 0x7000000FFC 0x7100000FF8 = Some b /\ length b = 12%nat /\
    forall other c, code_at (mem c) 0x7000000FFC b ->
      exists v, steps other (0x7000000FFC, c) (0x6F00000FF8, set_x 17 v c).
Proof.
  split; [vm_compute; reflexivity|].
  apply (normal_trampoline_lands 0x7000000FFC 0x7100000FF8); lia.
Defined.

(** ** Literals and moves *)

(** What an emitter does with a list of words and literal loads. *)
Fixpoint emit_items (its : list item) : asmM unit :=
  match its with
  | [] => mret tt
  | Word w :: its => EmitWord w ;; emit_items its
  | Lit v :: its => load_literal v ;; emit_items its
  end.

Lemma emit_items_asm_of a its : forall js,
  emit_items its (asm_of a js) = Some (tt, asm_of a (js ++ its)).
Proof.
  induction its as [|[w|v] its IH]; intros js; cbn [emit_items].
  - by rewrite app_nil_r.
  - erewrite asmM_bind_eq by apply EmitWord_asm_of. by rewrite IH, <- app_assoc.
  - erewrite asmM_bind_eq by apply load_literal_asm_of. by rewrite IH, <- app_assoc.
Qed.

(** However an emitter mixes words and literal loads ([new RelocLabel],
    [AppendRelocLabel], [Ldr]), [RelocBind] terminates without a stray access,
    keeps the words, places every literal behind the code, and links each load
    to its own literal. *)
Theorem RelocBind_lays_out its :
  4 * Z.of_nat (length its) + 8 * Z.of_nat (length (lits its)) < 2 ^ 31 ->
  exists asm, (emit_items its ;; RelocBind) (newAssembler 0) = Some (tt, asm) /\ laid_out (buffer_ asm) its.
Proof.
  intros H. rewrite asm_of_nil. erewrite asmM_bind_eq by apply emit_items_asm_of.
  destruct (RelocBind_asm_of 0 its H) as (asm & E & Hl & _). by exists asm.
Qed.

Lemma RelocBind_lays_out_witness :
  exists asm, (emit_items [Lit 7; Word 1; Lit 9] ;; RelocBind) (newAssembler 0) = Some (tt, asm) /\
    laid_out (buffer_ asm) [Lit 7; Word 1; Lit 9].
Proof. apply RelocBind_lays_out. vm_compute. reflexivity. Defined.

(** [TurboAssembler::Mov] is correct: the four instructions it emits leave any
    64-bit value in the register and change nothing else. *)
Theorem Mov_loads_immediate d imm :
  0 <= d < 31 -> 0 <= imm < 2 ^ 64 ->
  exists asm, Mov (X d) imm (newAssembler 0) = Some (tt, asm) /\ length (buffer_ asm) = 16%nat /\
    forall other c D, 0 <= D < 2 ^ 63 -> code_at (mem c) D (buffer_ asm) ->
      steps other (D, c) (D + 16, set_x d imm c).
Proof.
  intros Hd Hi. rewrite asm_of_nil, Mov_asm_of. set (its := [] ++ _).
  eexists. split; [done|]. split; [done|]. intros other c D HD Hc.
  assert (Hl : laid_out (buffer_ (asm_of 0 its)) its).
  { split; [reflexivity|]. intros k i Hk.
    destruct i as [w|v]; [exact (item_word_lookup its k _ Hk)|].
    destruct k as [|[|[|[|k]]]]; discriminate Hk. }
  pose proof (run_mov other _ its D Hl ltac:(lia)) as H.
  specialize (H ltac:(change (GetBufferSize (buffer_ (asm_of 0 its))) with 16; lia) c 0%nat d imm Hd Hc).
  rewrite (trunc_small 64 imm Hi) in H. rewrite Z.add_0_r in H. apply H.
  intros j w Hj. cbn [Nat.add its app]. unfold its. cbn [app]. by rewrite list_lookup_fmap, Hj.
Qed.

Lemma Mov_loads_immediate_witness :
  exists asm, Mov (X 3) 0x123456789ABCDEF0 (newAssembler 0) = Some (tt, asm) /\ length (buffer_ asm) = 16%nat /\
    forall other c D, 0 <= D < 2 ^ 63 -> code_at (mem c) D (buffer_ asm) ->
      steps other (D, c) (D + 16, set_x 3 0x123456789ABCDEF0 c).
Proof. apply (Mov_loads_immediate 3 0x123456789ABCDEF0); lia. Defined.

(** The relocator's immediate codecs are inverse: an aligned offset that the
    field can hold is read back from the instruction it was written to. *)
Theorem imm_fields_roundtrip i off :
  off mod 4 = 0 ->
  (- 2 ^ 15 <= off < 2 ^ 15 -> decode_imm14_offset (encode_imm14_offset i off) = off) /\
  (- 2 ^ 20 <= off < 2 ^ 20 -> decode_imm19_offset (encode_imm19_offset i off) = off) /\
  (- 2 ^ 27 <= off < 2 ^ 27 -> decode_imm26_offset (encode_imm26_offset i off) = off) /\
  (- 2 ^ 20 <= off < 2 ^ 20 -> decode_immhi_immlo_offset (encode_immhi_immlo_offset i off) = off).
Proof.
  intros Ha. split; [by apply decode_encode_imm14|]. split; [by apply decode_encode_imm19|].
  split; [by apply decode_encode_imm26|apply decode_encode_immhi_immlo].
Qed.

Lemma imm_fields_roundtrip_witness :
  decode_imm26_offset (encode_imm26_offset 0x14000000 (-8)) = -8.
Proof. apply (imm_fields_roundtrip 0x14000000 (-8)); [reflexivity|lia]. Defined.

(** ** Relocation: calls, and the cases that go wrong *)

(** The layout hypotheses of a relocated block. *)
Definition relocated_at (b : CodeBufferBase) (src : Z) (ws : list Z) (D : Z) : Prop :=
  laid_out b (relo_program src ws) /\ GetBufferSize b < 2 ^ 20 /\ 0 <= D /\
  D + GetBufferSize b < 2 ^ 64 /\ 0 <= src /\ src + 4 * Z.of_nat (length ws) < 2 ^ 62.

(** A relocated [bl] calls the same absolute address, and the return address
    it leaves in x30 is the place of the next relocated instruction. *)
Theorem relocated_call_returns other b src ws D j w off c c' :
  relocated_at b src ws D -> ws !! j = Some w -> 0 <= w < 2 ^ 32 -> decode w = IBL off ->
  sim b src ws D c c' -> code_at (mem c') D b ->
  exists c1', steps other (place src ws D j, c') (u64 (src + 4 * Z.of_nat j + off), c1') /\
    xr c1' 30 = place src ws D (S j) /\
    sim b src ws D (set_x 30 (place src ws D (S j)) c) c1' /\ code_at (mem c1') D b.
Proof.
  intros (Hl & Hs & HD & HDt & Hsrc & Hst) Hj Hw Hd Hsim Hc.
  assert (Htop : top w <> 0x55).
  { intros E. pose proof (decode_by_kind w Hw) as H. rewrite E in H. change (decode_kind 0x55) with KNone in H.
    pose proof (decode_rest_plain w) as Hp. rewrite <- H, Hd in Hp. destruct Hp. }
  destruct (moved_bl other b src ws D ltac:(assumption) ltac:(assumption) ltac:(assumption) ltac:(assumption)
    j w off c c' Hj (conj Hsim Hc) Hw Htop Hd) as (c1' & H1 & H2 & H3 & H4).
  exists c1'. split; [|done]. destruct (cur_eq src ws ltac:(assumption) ltac:(assumption) j w Hj) as [E _].
  by rewrite <- E.
Qed.

(** A relocated 32-bit literal load ([ldr w], opc 0) is a 64-bit load: it
    leaves eight bytes of memory in the register where the original instruction
    leaves four, so the upper half is wrong unless the next word is zero. *)
Theorem relocated_ldr_w_is_64bit other b src ws D j w t off c :
  relocated_at b src ws D -> ws !! j = Some w -> 0 <= w < 2 ^ 32 ->
  decode w = ILDRlit false t off -> t <> 31 -> code_at (mem c) D b ->
  let dst := u64 (src + 4 * Z.of_nat j + off) in
  exec other (decode w) (src + 4 * Z.of_nat j) c =
    Some (u64 (src + 4 * Z.of_nat j + 4), set_x t (read (mem c) dst 4) c) /\
  steps other (place src ws D j, c) (place src ws D (S j), set_x t (read (mem c) dst 8) (set_x 17 dst c)).
Proof.
  intros (Hl & Hs & HD & HDt & Hsrc & Hst) Hj Hw Hd Ht Hc. cbv zeta. split; [by rewrite Hd|].
  assert (Htop : top w <> 0x55).
  { intros E. pose proof (decode_by_kind w Hw) as H. rewrite E in H. change (decode_kind 0x55) with KNone in H.
    pose proof (decode_rest_plain w) as Hp. rewrite <- H, Hd in Hp. destruct Hp. }
  destruct (run_ldr_literal other b src ws D Hl HD HDt j w false t off c Hj Hc Hw Htop Hd) as [_ H].
  destruct (cur_eq src ws Hsrc Hst j w Hj) as [E _]. by rewrite E in H.
Qed.

(** A block for the witnesses: [bl #8; ldr w3, #16] moved from 0x1000 to 0x8000. *)
Definition demo_ws : list Z := [0x94000002; 0x18000083].
Definition demo_block : CodeBufferBase :=
  match (emit_items (relo_program 0x1000 demo_ws) ;; RelocBind) (newAssembler 0) with
  | Some (_, asm) => buffer_ asm
  | None => []
  end.

Lemma demo_relocated : relocated_at demo_block 0x1000 demo_ws 0x8000.
Proof.
  split.
  - destruct (RelocBind_asm_of 0 (relo_program 0x1000 demo_ws)) as (asm & E & Hl & _).
    { vm_compute. reflexivity. }
    assert (Ed : demo_block = buffer_ asm).
    { unfold demo_block. rewrite asm_of_nil. erewrite asmM_bind_eq by apply emit_items_asm_of.
      change ([] ++ relo_program 0x1000 demo_ws) with (relo_program 0x1000 demo_ws). by rewrite E. }
    rewrite Ed. exact Hl.
  - vm_compute. intuition congruence.
Qed.

Definition demo_core : core :=
  {| xr := fun _ => 0; sp := 0; fl := {| fN := false; fZ := false; fC := false; fV := false |};
     mem := write_bytes (fun _ => 0) 0x8000 demo_block |}.

Lemma demo_code : code_at (mem demo_core) 0x8000 demo_block.
Proof. apply write_code_at. Qed.

Lemma relocated_call_returns_witness :
  exists c1', steps (fun _ _ => None) (0x8000, demo_core) (0x1008, c1') /\ xr c1' 30 = 0x8008.
Proof.
  destruct (relocated_call_returns (fun _ _ => None) demo_block 0x1000 demo_ws 0x8000 0 0x94000002 8 demo_core demo_core)
    as (c1' & H1 & H2 & _).
  - apply demo_relocated.
  - reflexivity.
  - lia.
  - vm_compute. reflexivity.
  - constructor; reflexivity || (intros; reflexivity).
  - apply demo_code.
  - exists c1'. split; [exact H1|exact H2].
Defined.

Lemma relocated_ldr_w_is_64bit_witness :
  steps (fun _ _ => None) (place 0x1000 demo_ws 0x8000 1, demo_core)
    (place 0x1000 demo_ws 0x8000 2, set_x 3 (read (mem demo_core) 0x1014 8) (set_x 17 0x1014 demo_core)).
Proof.
  apply (relocated_ldr_w_is_64bit (fun _ _ => None) demo_block 0x1000 demo_ws 0x8000 1 0x18000083 3 16 demo_core);
    [apply demo_relocated|reflexivity|lia|vm_compute; reflexivity|lia|apply demo_code].
Defined.

(** C25: the relocator's case analysis is the architecture's: for every word but
    those with the unallocated top byte 0x55, it takes the branch, the adr/adrp,
    the literal-load or the compare/test path exactly when the word decodes to
    such an instruction, with the same offset, and copies everything else. *)
Theorem relocation_classes w : 0 <= w < 2 ^ 32 -> top w <> 0x55 ->
  match decode w with
  | IB off | IBL off => inst_is_b_bl w = true /\ decode_imm26_offset w = off
  | IBcond _ off => inst_is_b_cond w = true /\ decode_imm19_offset w = off
  | ICB _ _ _ off => inst_is_compare_b w = true /\ decode_imm19_offset w = off
  | ITB _ _ _ off => inst_is_test_b w = true /\ decode_imm14_offset w = off
  | IADR d off => inst_is_adr w = true /\ decode_rd w = d /\ decode_immhi_immlo_offset w = off
  | IADRP d off => inst_is_adrp w = true /\ decode_rd w = d /\ decode_immhi_immlo_zero12_offset w = off
  | ILDRlit _ t off => inst_is_ldr_literal w = true /\ decode_rt w = t /\ decode_imm19_offset w = off
  | IPCRelOther _ => inst_is_ldr_literal w = true
  | _ => relo_items 0 w = [Word w]
  end.
Proof.
  intros Hw Htop. pose proof (kinds_agree _ (top_range w) Htop) as Hk.
  pose proof (relo_items_by_kind 0 w Hw) as Hit.
  rewrite decode_by_kind by done.
  pose proof (decode_imm26_sext w) as H26. pose proof (decode_imm19_sext w) as H19.
  pose proof (decode_imm14_sext w) as H14. pose proof (decode_immhi_immlo_sext w) as Hhl.
  assert (Hz : decode_immhi_immlo_zero12_offset w = 4096 * sext 21 (bits w 29 30 + 4 * bits w 5 23)).
  { unfold decode_immhi_immlo_zero12_offset. rewrite decode_immhi_immlo_sext, Z.shiftl_mul_pow2 by lia. lia. }
  assert (Hm : relo_kind (top w) = relo_kind (top w)) by reflexivity. unfold relo_kind at 1 in Hm.
  unfold inst_is_b_bl, inst_is_ldr_literal, inst_is_adr, inst_is_adrp, inst_is_b_cond,
    inst_is_compare_b, inst_is_test_b in *. as_mask. rewrite Hk in *. clear Hk.
  destruct (decode_kind (top w));
    repeat match type of Hm with context [if ?t then _ else _] =>
      let E := fresh "E" in destruct t eqn:E; try discriminate Hm end;
    [exact (conj eq_refl H26)|exact (conj eq_refl H26)| |exact (conj eq_refl (conj eq_refl Hhl))
    |exact (conj eq_refl (conj eq_refl Hz))|exact (conj eq_refl H19)|exact (conj eq_refl H19)
    |exact (conj eq_refl H14)| ].
  - destruct (_ && _); [exact (conj eq_refl (conj eq_refl H19))|exact eq_refl].
  - pose proof (decode_rest_plain w) as Hp. destruct (decode_rest w); try (destruct Hp); exact Hit.
Qed.

Lemma relocation_classes_witness :
  inst_is_test_b 0x36080042 = true /\ decode_imm14_offset 0x36080042 = 8.
Proof. apply (relocation_classes 0x36080042); [lia|vm_compute; discriminate]. Defined.

(** ** The patch tool *)

Section PatchClaims.
Context `{K : Kernel} `{KL : !KernelLaws}.

(** C26: [DobbyCodePatch] of at most a page, when the kernel lets the pages of the
    range be changed, succeeds; it writes exactly the buffer's bytes and leaves
    the pages of its first and past-the-end addresses read-execute, all others
    as they were. *)
Theorem DobbyCodePatch_spec a b p :
  0 <= a -> a + Z.of_nat (length b) < 2 ^ 64 -> Z.of_nat (length b) <= PageSize ->
  patchable p a (Z.of_nat (length b)) ->
  exists p', DobbyCodePatch a b p = Some p' /\ code_at (pmem p') a b /\
    (forall x, x < a \/ a + Z.of_nat (length b) <= x -> pmem p' x = pmem p x) /\
    (forall x, pprot p' x =
       if (x / PageSize =? a / PageSize) || (x / PageSize =? (a + Z.of_nat (length b)) / PageSize)
       then RX else pprot p x).
Proof.
  intros Ha Ht Hl Hp. destruct (DobbyCodePatch_ok a b p Ha Ht Hl Hp) as (p' & E & Hpr).
  destruct (DobbyCodePatch_mem a b p p' E) as [Em _].
  exists p'. split; [done|]. rewrite Em. split; [apply write_code_at|]. split; [|done].
  intros x Hx. by apply write_bytes_out.
Qed.

(** When the patched range ends at a page boundary, the page after it, which
    holds no patched byte, also becomes read-execute: a writable data page there
    can no longer be written. *)
Theorem DobbyCodePatch_next_page a b p :
  0 <= a -> a + Z.of_nat (length b) < 2 ^ 64 -> Z.of_nat (length b) <= PageSize ->
  patchable p a (Z.of_nat (length b)) -> (a + Z.of_nat (length b)) mod PageSize = 0 ->
  exists p', DobbyCodePatch a b p = Some p' /\
    let next := a + Z.of_nat (length b) in
    forall x v, next <= x < next + PageSize -> memcpy x [v] p' = None.
Proof.
  intros Ha Ht Hl Hp Hend. destruct (DobbyCodePatch_ok a b p Ha Ht Hl Hp) as (p' & E & Hpr).
  exists p'. split; [done|]. cbv zeta. intros x v Hx. unfold memcpy, writable_range, writable. cbn [length].
  rewrite Hpr. pose proof PageSize_pos as HP. rewrite (proj2 (Z.eqb_eq (x / PageSize) ((a + Z.of_nat (length b)) / PageSize))).
  - by rewrite orb_true_r.
  - set (nx := a + Z.of_nat (length b)) in *. apply Z.mod_divide in Hend as [q Hq]; [|lia]. rewrite Hq in Hx |- *.
    rewrite Z.div_mul by lia. symmetry. apply (Z.div_unique x PageSize q (x - q * PageSize)); lia.
Qed.
End PatchClaims.

Lemma DobbyCodePatch_spec_witness :
  exists p', DobbyCodePatch 0x100100 [1; 2; 3; 4] {| pmem := fun _ => 0; pprot := fun _ => RX; mappings := [] |} = Some p' /\
    code_at (pmem p') 0x100100 [1; 2; 3; 4].
Proof.
  destruct (DobbyCodePatch_spec 0x100100 [1; 2; 3; 4] {| pmem := fun _ => 0; pprot := fun _ => RX; mappings := [] |})
    as (p' & E & Hc & _); [lia|cbn; lia|vm_compute; discriminate|by repeat split|].
  exists p'. split; [exact E|exact Hc].
Defined.

(** A patch of the last word of a code page next to a writable page. *)
Lemma DobbyCodePatch_next_page_witness :
  exists p', DobbyCodePatch 0x100FFC [1; 2; 3; 4]
      {| pmem := fun _ => 0; pprot := fun _ => Z.lor PROT_READ PROT_WRITE; mappings := [] |} = Some p' /\
    memcpy 0x101000 [7] p' = None.
Proof.
  destruct (DobbyCodePatch_next_page 0x100FFC [1; 2; 3; 4]
      {| pmem := fun _ => 0; pprot := fun _ => Z.lor PROT_READ PROT_WRITE; mappings := [] |})
    as (p' & E & H); [lia|cbn; lia|vm_compute; discriminate|by repeat split|reflexivity|].
  exists p'. split; [exact E|]. apply (H 0x101000 7). cbn. change PageSize with 4096. lia.
Defined.

(** ** The allocator *)

Section AllocClaims.
Context `{K : Kernel} `{KL : !KernelLaws}.

(** C27: [allocateExecBlock] keeps the arenas' invariant: as long as the kernel
    serves it, it returns a block of the requested size in user space that is
    disjoint from every block handed out before and from every other live
    region, lies in read-execute pages, and leaves mapped memory untouched. *)
Theorem allocateExecBlock_sound s bs n :
  alloc_inv s bs -> 0 < n < 2 ^ 31 -> kernel_serves s (arena_for n) ->
  exists b s', allocateExecBlock n s = (Some b, s') /\ size b = n /\ 0 < addr b /\
    alloc_inv s' (b :: bs) /\ Forall (block_disjoint b) bs /\
    (forall x, addr b <= x < addr b + size b -> pprot (proc s') x = RX) /\
    keeps_mapped (proc s) (proc s') /\
    (forall x m, 0 <= m -> free_of s x m -> disjoint_range x m (addr b) (size b)).
Proof.
  intros Hi Hn Hk. destruct (allocateExecBlock_inv s bs n Hi Hn Hk) as (b & s' & E & Hs & Ha & _ & Hi' & Hm & Hf).
  exists b, s'. split; [done|]. split; [done|]. split; [done|]. split; [done|]. split; [|split; [|split; [done|]]].
  - apply Forall_forall. intros b' Hb'. apply list_elem_of_lookup in Hb' as [i Hb'].
    apply (inv_separate _ _ Hi' 0%nat (S i)); done.
  - intros x. apply (block_prot s' (b :: bs)); [done|by left].
  - by rewrite Hs.
Qed.

(** A new data block is not writable: [allocateDataBlock] opens a code arena
    for it, so storing data through [allocateDataMemory] faults. *)
Theorem allocateDataBlock_not_writable s buf :
  alloc_inv s [] -> data_arenas s = [] -> 0 < Z.of_nat (length buf) < 2 ^ 31 ->
  Z.of_nat (length buf) mod PageSize = 0 -> kernel_serves s (Z.of_nat (length buf)) ->
  (forall a, a ∈ code_arenas s -> False) ->
  allocateDataMemory_buffer buf s = None.
Proof.
  intros Hi Hd Hn Hm Hk Hno. set (n := Z.of_nat (length buf)) in *.
  unfold allocateDataMemory_buffer, allocateDataMemory, allocateDataBlock. fold n.
  rewrite (trunc_small 32) by lia. rewrite Hd. cbn [alloc_first].
  assert (Es : set_data [] s = s) by (destruct s; cbn in Hd; by subst). rewrite Es.
  destruct (allocateCodeMemoryArena_inv s [] n Hi ltac:(lia) Hm Hk) as (a & s' & -> & Ea & Hi' & _ & _).
  rewrite Ea, alloc_last_snoc.
  pose proof (inv_arenas _ _ Hi') as Ia. rewrite Ea in Ia. apply Forall_app in Ia as [_ Ia].
  apply Forall_cons in Ia as [Ia _]. pose proof Ia as (H0 & _ & _ & _ & He & _ & Ht). cbn in He, H0, Ht.
  destruct (allocMemBlock_spec _ n Ia ltac:(lia)) as [[_ ->]|[Hf _]]; [|unfold fits in Hf; cbn in Hf; lia].
  cbn [mbind option_bind addr newMemBlock newMemoryArena cursor_addr]. unfold memcpy.
  destruct (length buf) as [|k] eqn:Ek; [unfold n in Hn; lia|]. cbn [writable_range].
  unfold writable. cbn [proc set_code].
  rewrite (inv_prot _ _ Hi' (newMemoryArena a n) a); [done| |].
  - rewrite Ea. apply elem_of_app. right. by left.
  - cbn. rewrite He. lia.
Qed.
End AllocClaims.

Definition demo_alloc : MemoryAllocator :=
  newMemoryAllocator {| pmem := fun _ => 0; pprot := fun _ => PROT_NONE; mappings := [] |}.

Lemma demo_serves : kernel_serves demo_alloc 4096.
Proof. exists 0x40000000. split; reflexivity. Qed.

Lemma allocateExecBlock_sound_witness :
  exists b s', allocateExecBlock 100 demo_alloc = (Some b, s') /\ size b = 100 /\ 0 < addr b.
Proof.
  destruct (allocateExecBlock_sound demo_alloc [] 100) as (b & s' & E & Hs & Ha & _).
  - apply alloc_inv_new.
  - lia.
  - apply demo_serves.
  - exists b, s'. split; [exact E|]. split; [exact Hs|exact Ha].
Defined.

Lemma allocateDataBlock_not_writable_witness :
  allocateDataMemory_buffer (repeat 7 4096) demo_alloc = None.
Proof.
  apply allocateDataBlock_not_writable; rewrite ?repeat_length;
    [apply alloc_inv_new|reflexivity|lia|reflexivity|apply demo_serves|].
  intros a Ha. by apply not_elem_of_nil in Ha.
Defined.
