(* ===== verification/Leb128.v ===== *)
(** LEB128 coding ([slicer/dex_leb128.h]).

    The readers consume a byte list and return the rest; running past its end is
    [None]. Signed shifts are those of the two's complement 32-bit type. *)
From S2P Require Import Prelude.

Definition ReadULeb128 (ptr : list byte) : option (Z * list byte) :=
  '(result, ptr) ← head_tail ptr;
  if result >? 0x7f then
    '(cur, ptr) ← head_tail ptr;
    let result := Z.lor (Z.land result 0x7f) (Z.shiftl (Z.land cur 0x7f) 7) in
    if cur >? 0x7f then
      '(cur, ptr) ← head_tail ptr;
      let result := Z.lor result (Z.shiftl (Z.land cur 0x7f) 14) in
      if cur >? 0x7f then
        '(cur, ptr) ← head_tail ptr;
        let result := Z.lor result (Z.shiftl (Z.land cur 0x7f) 21) in
        if cur >? 0x7f then
          '(cur, ptr) ← head_tail ptr;
          Some (Z.lor result (u32 (Z.shiftl cur 28)), ptr)
        else Some (result, ptr)
      else Some (result, ptr)
    else Some (result, ptr)
  else Some (result, ptr).

(** [(x << k) >> k] on [s4]. *)
Definition sext_shift (x k : Z) : Z := Z.shiftr (s32 (Z.shiftl x k)) k.

Definition ReadSLeb128 (ptr : list byte) : option (Z * list byte) :=
  '(result, ptr) ← head_tail ptr;
  if result <=? 0x7f then Some (sext_shift result 25, ptr)
  else
    '(cur, ptr) ← head_tail ptr;
    let result := Z.lor (Z.land result 0x7f) (Z.shiftl (Z.land cur 0x7f) 7) in
    if cur <=? 0x7f then Some (sext_shift result 18, ptr)
    else
      '(cur, ptr) ← head_tail ptr;
      let result := Z.lor result (Z.shiftl (Z.land cur 0x7f) 14) in
      if cur <=? 0x7f then Some (sext_shift result 11, ptr)
      else
        '(cur, ptr) ← head_tail ptr;
        let result := Z.lor result (Z.shiftl (Z.land cur 0x7f) 21) in
        if cur <=? 0x7f then Some (sext_shift result 4, ptr)
        else
          '(cur, ptr) ← head_tail ptr;
          Some (Z.lor result (s32 (Z.shiftl cur 28)), ptr).

(** The writers return the bytes; the loops get fuel and [None] is running out
    of it. *)
Fixpoint WriteULeb128 (fuel : nat) (data : Z) : option (list byte) :=
  match fuel with
  | O => None
  | S fuel =>
      let out := u8 (Z.land data 0x7f) in
      if negb (out =? data) then
        bs ← WriteULeb128 fuel (Z.shiftr data 7); Some (Z.lor out 0x80 :: bs)
      else Some [out]
  end.

Fixpoint WriteSLeb128_loop (fuel : nat) (value out extra_bits : Z) : option (list byte) :=
  if negb (extra_bits =? 0) then
    match fuel with
    | O => None
    | S fuel =>
        let value := Z.shiftr value 7 in
        bs ← WriteSLeb128_loop fuel value (u8 (Z.land value 0x7f)) (Z.shiftr extra_bits 7);
        Some (Z.lor out 0x80 :: bs)
    end
  else Some [out].
Definition WriteSLeb128 (fuel : nat) (value : Z) : option (list byte) :=
  let extra_bits := Z.shiftr (u32 (Z.lxor value (Z.shiftr value 31))) 6 in
  WriteSLeb128_loop fuel value (u8 (Z.land value 0x7f)) extra_bits.

(** Five bytes hold any 32-bit value. *)
Definition leb_fuel : nat := 5.

(** ** Digits *)

Lemma land_7f x : Z.land x 0x7f = x mod 128.
Proof. change 0x7f with (Z.ones 7). by rewrite Z.land_ones by lia. Qed.

Definition is_digit (d : Z) : Prop := 0 <= d < 128.

Lemma digit_mod x : is_digit (x mod 128).
Proof. apply Z.mod_pos_bound. lia. Qed.

Lemma land_digit d : is_digit d -> Z.land d 0x7f = d.
Proof. intros. rewrite land_7f. by apply Z.mod_small. Qed.

Lemma land_cont d : is_digit d -> Z.land (d + 128) 0x7f = d.
Proof. intros. rewrite land_7f. unfold is_digit in *. Z.to_euclidean_division_equations. lia. Qed.

Lemma lor_cont d : is_digit d -> Z.lor d 0x80 = d + 128.
Proof. intros. unfold is_digit in *. by apply (lor_add d 1 7); [lia..|]. Qed.

Lemma u8_digit d : is_digit d -> u8 d = d.
Proof. unfold is_digit. intros. apply trunc_small. lia. Qed.

(** The writer emits the base-128 digits, least significant first. *)
Lemma WriteULeb128_last n data : is_digit data -> WriteULeb128 (S n) data = Some [data].
Proof.
  intros H. cbn [WriteULeb128]. cbv zeta. by rewrite land_digit, u8_digit, Z.eqb_refl by done.
Qed.

Lemma WriteULeb128_cont n data : 128 <= data ->
  WriteULeb128 (S n) data =
  (bs ← WriteULeb128 n (data / 128); Some (data mod 128 + 128 :: bs)).
Proof.
  intros H. cbn [WriteULeb128]. cbv zeta. rewrite land_7f, u8_digit by apply digit_mod.
  pose proof (digit_mod data) as Hd. unfold is_digit in Hd.
  rewrite (proj2 (Z.eqb_neq _ _)) by lia. cbn [negb].
  rewrite Z.shiftr_div_pow2 by lia. change (2 ^ 7) with 128.
  by rewrite lor_cont.
Qed.

(** Comparisons of digits in the readers. *)
Lemma cont_gt d : is_digit d -> (d + 128 >? 0x7f) = true /\ (d + 128 <=? 0x7f) = false.
Proof. unfold is_digit. intros. rewrite Z.gtb_ltb. split; [apply Z.ltb_lt|apply Z.leb_gt]; lia. Qed.
Lemma digit_gt d : is_digit d -> (d >? 0x7f) = false /\ (d <=? 0x7f) = true.
Proof. unfold is_digit. intros. rewrite Z.gtb_ltb. split; [apply Z.ltb_ge|apply Z.leb_le]; lia. Qed.

Ltac leb_step :=
  cbn [head_tail mbind option_bind]; cbv zeta;
  repeat match goal with
  | H : is_digit ?d |- context [?d + 128 >? 0x7f] => rewrite (proj1 (cont_gt d H))
  | H : is_digit ?d |- context [?d + 128 <=? 0x7f] => rewrite (proj2 (cont_gt d H))
  | H : is_digit ?d |- context [?d >? 0x7f] => rewrite (proj1 (digit_gt d H))
  | H : is_digit ?d |- context [?d <=? 0x7f] => rewrite (proj2 (digit_gt d H))
  | H : is_digit ?d |- context [Z.land (?d + 128) 0x7f] => rewrite (land_cont d H)
  | H : is_digit ?d |- context [Z.land ?d 0x7f] => rewrite (land_digit d H)
  end.

(** The readers on [n]-byte encodings, as sums of digits. *)
Lemma lor_digits2 a b : is_digit a -> is_digit b -> Z.lor a (Z.shiftl b 7) = a + 128 * b.
Proof. unfold is_digit. intros. rewrite lor_add by lia. lia. Qed.
Lemma lor_digits3 x c : 0 <= x < 2 ^ 14 -> is_digit c -> Z.lor x (Z.shiftl c 14) = x + 2 ^ 14 * c.
Proof. unfold is_digit. intros. rewrite lor_add by lia. lia. Qed.
Lemma lor_digits4 x c : 0 <= x < 2 ^ 21 -> is_digit c -> Z.lor x (Z.shiftl c 21) = x + 2 ^ 21 * c.
Proof. unfold is_digit. intros. rewrite lor_add by lia. lia. Qed.

Lemma ReadULeb128_5 a b c d e r :
  is_digit a -> is_digit b -> is_digit c -> is_digit d -> 0 <= e < 16 ->
  ReadULeb128 (a + 128 :: b + 128 :: c + 128 :: d + 128 :: e :: r) =
  Some (a + 128 * b + 2 ^ 14 * c + 2 ^ 21 * d + 2 ^ 28 * e, r).
Proof.
  intros Ha Hb Hc Hd He. unfold ReadULeb128. leb_step.
  unfold is_digit in *. rewrite lor_digits2, lor_digits3, lor_digits4 by (unfold is_digit; lia).
  rewrite (Z.shiftl_mul_pow2 e) by lia. rewrite (trunc_small 32) by lia.
  rewrite <- (Z.shiftl_mul_pow2 e), lor_add by lia. do 2 f_equal. lia.
Qed.

Lemma ReadULeb128_short r :
  (forall a, is_digit a -> ReadULeb128 (a :: r) = Some (a, r)) /\
  (forall a b, is_digit a -> is_digit b -> ReadULeb128 (a + 128 :: b :: r) = Some (a + 128 * b, r)) /\
  (forall a b c, is_digit a -> is_digit b -> is_digit c ->
     ReadULeb128 (a + 128 :: b + 128 :: c :: r) = Some (a + 128 * b + 2 ^ 14 * c, r)) /\
  (forall a b c d, is_digit a -> is_digit b -> is_digit c -> is_digit d ->
     ReadULeb128 (a + 128 :: b + 128 :: c + 128 :: d :: r) = Some (a + 128 * b + 2 ^ 14 * c + 2 ^ 21 * d, r)).
Proof.
  unfold ReadULeb128. repeat split; intros; leb_step; [done|..].
  - by rewrite lor_digits2.
  - unfold is_digit in *. by rewrite lor_digits2, lor_digits3 by (unfold is_digit; lia).
  - unfold is_digit in *. by rewrite lor_digits2, lor_digits3, lor_digits4 by (unfold is_digit; lia).
Qed.

(** The number of bytes of an unsigned value. *)
Definition uleb_size (data : Z) : nat :=
  if data <? 2 ^ 7 then 1 else if data <? 2 ^ 14 then 2 else if data <? 2 ^ 21 then 3
  else if data <? 2 ^ 28 then 4 else 5.

Lemma byte_digit d : is_digit d -> is_byte d.
Proof. unfold is_digit, is_byte. lia. Qed.
Lemma byte_cont d : is_digit d -> is_byte (d + 128).
Proof. unfold is_digit, is_byte. lia. Qed.

Ltac leb_bytes :=
  repeat first [apply Forall_nil_2 | apply Forall_cons_2]; first [by apply byte_cont | by apply byte_digit | idtac].

Lemma uleb_roundtrip data r : 0 <= data < 2 ^ 32 ->
  exists bs, WriteULeb128 leb_fuel data = Some bs /\ length bs = uleb_size data /\
    ReadULeb128 (bs ++ r) = Some (data, r) /\ Forall is_byte bs.
Proof.
  intros H. destruct (ReadULeb128_short r) as (R1 & R2 & R3 & R4). unfold leb_fuel, uleb_size.
  pose proof (digit_mod data) as D0. pose proof (digit_mod (data / 128)) as D1.
  pose proof (digit_mod (data / 128 / 128)) as D2. pose proof (digit_mod (data / 128 / 128 / 128)) as D3.
  pose proof (Z.div_mod data 128 ltac:(lia)) as E0.
  pose proof (Z.div_mod (data / 128) 128 ltac:(lia)) as E1.
  pose proof (Z.div_mod (data / 128 / 128) 128 ltac:(lia)) as E2.
  pose proof (Z.div_mod (data / 128 / 128 / 128) 128 ltac:(lia)) as E3.
  revert D0 D1 D2 D3 E0 E1 E2 E3.
  generalize (data / 128 / 128 / 128 / 128) as q4. intros q4.
  destruct (Z.ltb_spec data (2 ^ 7)); [|destruct (Z.ltb_spec data (2 ^ 14)); [|destruct (Z.ltb_spec data (2 ^ 21));
    [|destruct (Z.ltb_spec data (2 ^ 28))]]]; intros.
  - assert (is_digit data) by (unfold is_digit; lia).
    rewrite WriteULeb128_last by assumption. eexists. split_and!; [reflexivity|reflexivity|by apply R1|leb_bytes].
  - assert (is_digit (data / 128)) by (unfold is_digit in *; lia).
    rewrite WriteULeb128_cont by lia. rewrite WriteULeb128_last by assumption.
    eexists. split_and!; [reflexivity|reflexivity| |leb_bytes].
    cbn [app]. rewrite R2 by assumption. do 2 f_equal. lia.
  - assert (is_digit (data / 128 / 128)) by (unfold is_digit in *; lia).
    do 2 rewrite WriteULeb128_cont by (unfold is_digit in *; lia). rewrite WriteULeb128_last by assumption.
    eexists. split_and!; [reflexivity|reflexivity| |leb_bytes].
    cbn [app]. rewrite R3 by assumption. do 2 f_equal. lia.
  - assert (is_digit (data / 128 / 128 / 128)) by (unfold is_digit in *; lia).
    do 3 rewrite WriteULeb128_cont by (unfold is_digit in *; lia). rewrite WriteULeb128_last by assumption.
    eexists. split_and!; [reflexivity|reflexivity| |leb_bytes].
    cbn [app]. rewrite R4 by assumption. do 2 f_equal. lia.
  - remember (data / 128 / 128 / 128 / 128) as e eqn:Ee.
    assert (He : 0 <= e < 16) by (subst e; unfold is_digit in *; Z.to_euclidean_division_equations; lia).
    do 4 rewrite WriteULeb128_cont by (unfold is_digit in *; lia). rewrite <- Ee.
    rewrite WriteULeb128_last by (unfold is_digit; lia).
    eexists. split_and!; [reflexivity|reflexivity| |leb_bytes; unfold is_byte; lia].
    cbn [app]. rewrite ReadULeb128_5 by assumption. do 2 f_equal. 
    pose proof (Z.div_mod (data / 128 / 128 / 128) 128 ltac:(lia)). lia.
Qed.

(** ** The signed coding *)

(** A shift pair sign-extends the low bits. *)
Lemma s32_unique x v : x mod 2 ^ 32 = v mod 2 ^ 32 -> - 2 ^ 31 <= v < 2 ^ 31 -> s32 x = v.
Proof.
  intros E H. assert (Hx : s32 x = s32 v) by (rewrite <- (sext_trunc 32 32 x), <- (sext_trunc 32 32 v) by lia;
    unfold trunc; by rewrite E).
  rewrite Hx. apply sext_small; lia.
Qed.

Lemma sext_shift_spec x v k q : 0 <= k < 32 -> v = x + 2 ^ (32 - k) * q ->
  - 2 ^ (31 - k) <= v < 2 ^ (31 - k) -> sext_shift x k = v.
Proof.
  intros Hk Hx Hv. unfold sext_shift.
  assert (E1 : 2 ^ 31 = 2 ^ (31 - k) * 2 ^ k) by (rewrite <- Z.pow_add_r by lia; f_equal; lia).
  assert (E2 : 2 ^ 32 = 2 ^ (32 - k) * 2 ^ k) by (rewrite <- Z.pow_add_r by lia; f_equal; lia).
  pose proof (Z.pow_pos_nonneg 2 k ltac:(lia) ltac:(lia)).
  rewrite (s32_unique _ (v * 2 ^ k)).
  - rewrite Z.shiftr_div_pow2 by lia. apply Z.div_mul. lia.
  - rewrite Z.shiftl_mul_pow2 by lia. rewrite E2, Hx.
    replace ((x + 2 ^ (32 - k) * q) * 2 ^ k) with (x * 2 ^ k + q * (2 ^ (32 - k) * 2 ^ k)) by ring.
    symmetry. apply Z_mod_plus_full.
  - rewrite E1. nia.
Qed.

(** The magnitude whose bits decide how many bytes are written. *)
Definition sleb_mag (v : Z) : Z := if v <? 0 then - v - 1 else v.

Lemma sleb_mag_spec v : - 2 ^ 31 <= v < 2 ^ 31 -> u32 (Z.lxor v (Z.shiftr v 31)) = sleb_mag v.
Proof.
  intros H. unfold sleb_mag. destruct (Z.ltb_spec v 0).
  - replace (Z.shiftr v 31) with (-1) by (rewrite Z.shiftr_div_pow2 by lia; Z.to_euclidean_division_equations; lia).
    rewrite Z.lxor_m1_r. unfold Z.lnot. replace (Z.pred (- v)) with (- v - 1) by lia. apply trunc_small. lia.
  - replace (Z.shiftr v 31) with 0 by (rewrite Z.shiftr_div_pow2 by lia; Z.to_euclidean_division_equations; lia).
    rewrite Z.lxor_0_r. apply trunc_small. lia.
Qed.

Lemma sleb_mag_range v n : sleb_mag v < n <-> - n <= v < n.
Proof. unfold sleb_mag. destruct (Z.ltb_spec v 0); lia. Qed.
Lemma sleb_mag_nonneg v : 0 <= sleb_mag v.
Proof. unfold sleb_mag. destruct (Z.ltb_spec v 0); lia. Qed.

Lemma WriteSLeb128_loop_done n v out : WriteSLeb128_loop n v out 0 = Some [out].
Proof. by destruct n. Qed.

Lemma WriteSLeb128_loop_cont n v e : 0 < e ->
  WriteSLeb128_loop (S n) v (v mod 128) e =
  (bs ← WriteSLeb128_loop n (v / 128) (v / 128 mod 128) (e / 128); Some (v mod 128 + 128 :: bs)).
Proof.
  intros He. cbn [WriteSLeb128_loop]. rewrite (proj2 (Z.eqb_neq e 0)) by lia. cbn [negb]. cbv zeta.
  rewrite !Z.shiftr_div_pow2 by lia. change (2 ^ 7) with 128.
  rewrite land_7f, u8_digit by apply digit_mod. by rewrite lor_cont by apply digit_mod.
Qed.

Lemma ReadSLeb128_spec r a b c d e :
  is_digit a -> is_digit b -> is_digit c -> is_digit d -> is_digit e ->
  ReadSLeb128 (a :: r) = Some (sext_shift a 25, r) /\
  ReadSLeb128 (a + 128 :: b :: r) = Some (sext_shift (a + 128 * b) 18, r) /\
  ReadSLeb128 (a + 128 :: b + 128 :: c :: r) = Some (sext_shift (a + 128 * b + 2 ^ 14 * c) 11, r) /\
  ReadSLeb128 (a + 128 :: b + 128 :: c + 128 :: d :: r) =
    Some (sext_shift (a + 128 * b + 2 ^ 14 * c + 2 ^ 21 * d) 4, r) /\
  ReadSLeb128 (a + 128 :: b + 128 :: c + 128 :: d + 128 :: e :: r) =
    Some (Z.lor (a + 128 * b + 2 ^ 14 * c + 2 ^ 21 * d) (s32 (Z.shiftl e 28)), r).
Proof.
  intros Ha Hb Hc Hd He. unfold ReadSLeb128. split_and!; leb_step; [reflexivity|..];
    unfold is_digit in *; rewrite lor_digits2 by (unfold is_digit; lia); [reflexivity|..];
    rewrite lor_digits3 by (unfold is_digit; lia); [reflexivity|..];
    rewrite lor_digits4 by (unfold is_digit; lia); reflexivity.
Qed.

(** The number of bytes of a signed value. *)
Definition sleb_size (v : Z) : nat :=
  let m := sleb_mag v in
  if m <? 2 ^ 6 then 1 else if m <? 2 ^ 13 then 2 else if m <? 2 ^ 20 then 3
  else if m <? 2 ^ 27 then 4 else 5.

Lemma div_pow_0 m k : 0 <= m < k -> m / k = 0.
Proof. intros. by apply Z.div_small. Qed.

Lemma sleb_roundtrip v r : - 2 ^ 31 <= v < 2 ^ 31 ->
  exists bs, WriteSLeb128 leb_fuel v = Some bs /\ length bs = sleb_size v /\
    ReadSLeb128 (bs ++ r) = Some (v, r) /\ Forall is_byte bs.
Proof.
  intros H. unfold WriteSLeb128, leb_fuel, sleb_size. cbv zeta. rewrite sleb_mag_spec by assumption.
  rewrite land_7f, u8_digit by apply digit_mod. rewrite Z.shiftr_div_pow2 by lia. change (2 ^ 6) with 64.
  pose proof (sleb_mag_nonneg v) as M0. pose proof (sleb_mag_range v) as Hr. set (m := sleb_mag v) in *.
  remember (v / 128) as v1 eqn:V1. remember (v1 / 128) as v2 eqn:V2. remember (v2 / 128) as v3 eqn:V3.
  remember (v3 / 128) as v4 eqn:V4.
  pose proof (ReadSLeb128_spec r _ _ _ _ _ (digit_mod v) (digit_mod v1) (digit_mod v2) (digit_mod v3) (digit_mod v4))
    as (R1 & R2 & R3 & R4 & R5).
  pose proof (Z.div_mod v 128 ltac:(lia)) as E0. pose proof (Z.div_mod v1 128 ltac:(lia)) as E1.
  pose proof (Z.div_mod v2 128 ltac:(lia)) as E2. pose proof (Z.div_mod v3 128 ltac:(lia)) as E3.
  pose proof (digit_mod v) as D0. pose proof (digit_mod v1) as D1. pose proof (digit_mod v2) as D2.
  pose proof (digit_mod v3) as D3. pose proof (digit_mod v4) as D4.
  rewrite <- V1 in E0. rewrite <- V2 in E1. rewrite <- V3 in E2. rewrite <- V4 in E3.
  assert (Q : m / 64 / 128 = m / 2 ^ 13 /\ m / 64 / 128 / 128 = m / 2 ^ 20 /\
    m / 64 / 128 / 128 / 128 = m / 2 ^ 27 /\ m / 64 / 128 / 128 / 128 / 128 = m / 2 ^ 34)
    by (rewrite !Z.div_div by lia; split_and!; reflexivity).
  destruct Q as (Q1 & Q2 & Q3 & Q4).
  destruct (Z.ltb_spec m 64); [|destruct (Z.ltb_spec m (2 ^ 13)); [|destruct (Z.ltb_spec m (2 ^ 20));
    [|destruct (Z.ltb_spec m (2 ^ 27))]]].
  - rewrite (div_pow_0 m 64), WriteSLeb128_loop_done by lia.
    eexists. split_and!; [reflexivity|reflexivity| |leb_bytes].
    cbn [app]. rewrite R1, (sext_shift_spec _ v 25 v1); [reflexivity|lia..|apply Hr; lia].
  - rewrite WriteSLeb128_loop_cont by (Z.to_euclidean_division_equations; lia). rewrite <- V1.
    rewrite Q1, (div_pow_0 m), WriteSLeb128_loop_done by lia.
    eexists. split_and!; [reflexivity|reflexivity| |leb_bytes].
    cbn [app]. rewrite R2, (sext_shift_spec _ v 18 v2); [reflexivity|lia..|apply Hr; lia].
  - do 2 rewrite WriteSLeb128_loop_cont by (Z.to_euclidean_division_equations; lia). rewrite <- V1, <- V2.
    rewrite Q2, (div_pow_0 m), WriteSLeb128_loop_done by lia.
    eexists. split_and!; [reflexivity|reflexivity| |leb_bytes].
    cbn [app]. rewrite R3, (sext_shift_spec _ v 11 v3); [reflexivity|lia..|apply Hr; lia].
  - do 3 rewrite WriteSLeb128_loop_cont by (Z.to_euclidean_division_equations; lia). rewrite <- V1, <- V2, <- V3.
    rewrite Q3, (div_pow_0 m), WriteSLeb128_loop_done by lia.
    eexists. split_and!; [reflexivity|reflexivity| |leb_bytes].
    cbn [app]. rewrite R4, (sext_shift_spec _ v 4 v4); [reflexivity|lia..|apply Hr; lia].
  - do 4 rewrite WriteSLeb128_loop_cont by (rewrite ?Q1, ?Q2, ?Q3; Z.to_euclidean_division_equations; lia).
    rewrite <- V1, <- V2, <- V3, <- V4.
    assert (m < 2 ^ 31) by (apply Hr; lia).
    rewrite Q4, (div_pow_0 m), WriteSLeb128_loop_done by lia.
    eexists. split_and!; [reflexivity|reflexivity| |leb_bytes].
    assert (E4 : s32 (Z.shiftl (v4 mod 128) 28) = v4 * 2 ^ 28).
    { apply s32_unique; [|unfold is_digit in *; lia].
      pose proof (Z.div_mod v4 128 ltac:(lia)) as E4.
      rewrite Z.shiftl_mul_pow2 by lia. rewrite E4 at 2.
      replace ((128 * (v4 / 128) + v4 mod 128) * 2 ^ 28) with (v4 mod 128 * 2 ^ 28 + (8 * (v4 / 128)) * 2 ^ 32) by lia.
      symmetry. apply Z_mod_plus_full. }
    cbn [app]. rewrite R5, E4, <- Z.shiftl_mul_pow2, lor_add by (unfold is_digit in *; lia).
    do 2 f_equal. lia.
Qed.
