(* ===== verification/X86Tables.v ===== *)
(** The opcode tables of the x86 decoder ([x86_insn_decode.h],
    [x86_insn_decode.c] and the included [x86_opcode_*.c]).

    A table entry is an [x86_insn_spec_t]: a name, three operand letters pairs
    such as ["Ev"], and flags that hold the 64-bit default and the group number.
    The arrays with designated initialisers are association lists laid out by
    [designated], the missing rows being zero as in C. *)
From Stdlib Require Import String Ascii.
From S2P Require Import Prelude.
Local Open Scope string_scope.
Local Open Scope list_scope.

(** [.data = "Ev"]: the two characters, without a terminator. *)
Record x86_insn_operand_spec_t := OperandSpec { code : ascii; type : ascii }.

Definition operand_data (s : string) : x86_insn_operand_spec_t :=
  match s with
  | String c (String t _) => OperandSpec c t
  | String c EmptyString => OperandSpec c zero
  | EmptyString => OperandSpec zero zero
  end.

Record x86_insn_spec_t := InsnSpec {
  spec_name : string;
  spec_operands : list x86_insn_operand_spec_t;
  spec_flags : Z
}.

Definition X86_INSN_SPEC_DEFAULT_64_BIT : Z := Z.shiftl 1 0.

(** The macros [op0] .. [op3f]. *)
Definition op3f (x : string) (f : Z) (o0 o1 o2 : string) : x86_insn_spec_t :=
  InsnSpec x [operand_data o0; operand_data o1; operand_data o2] f.
Definition op2f x f o0 o1 := op3f x f o0 o1 "__".
Definition op1f x f o0 := op2f x f o0 "__".
Definition op0f x f := op1f x f "__".
Definition op3 x o0 o1 o2 := op3f x 0 o0 o1 o2.
Definition op2 x o0 o1 := op2f x 0 o0 o1.
Definition op1 x o0 := op1f x 0 o0.
Definition op0 x := op0f x 0.

(** Static storage is zero. *)
Definition zero_spec : x86_insn_spec_t :=
  InsnSpec "" [OperandSpec zero zero; OperandSpec zero zero; OperandSpec zero zero] 0.

Definition designated (rows : list (Z * list x86_insn_spec_t)) (n : nat) : list (list x86_insn_spec_t) :=
  map (fun i => match find (fun r => (r.1 =? Z.of_nat i)%Z) rows with
                | Some r => r.2 | None => repeat zero_spec 8 end) (seq 0 n).

(** ** Groups *)

Definition X86_INSN_GROUP_START : Z := 0.
Definition X86_INSN_MODRM_REG_GROUP_1 : Z := 1.
Definition X86_INSN_MODRM_REG_GROUP_1a : Z := 2.
Definition X86_INSN_MODRM_REG_GROUP_2 : Z := 3.
Definition X86_INSN_MODRM_REG_GROUP_3 : Z := 4.
Definition X86_INSN_MODRM_REG_GROUP_4 : Z := 5.
Definition X86_INSN_MODRM_REG_GROUP_5 : Z := 6.
Definition X86_INSN_MODRM_REG_GROUP_6 : Z := 7.
Definition X86_INSN_MODRM_REG_GROUP_7 : Z := 8.
Definition X86_INSN_MODRM_REG_GROUP_8 : Z := 9.
Definition X86_INSN_MODRM_REG_GROUP_9 : Z := 10.
Definition X86_INSN_MODRM_REG_GROUP_10 : Z := 11.
Definition X86_INSN_MODRM_REG_GROUP_11 : Z := 12.
Definition X86_INSN_MODRM_REG_GROUP_12 : Z := 13.
Definition X86_INSN_MODRM_REG_GROUP_13 : Z := 14.
Definition X86_INSN_MODRM_REG_GROUP_14 : Z := 15.
Definition X86_INSN_MODRM_REG_GROUP_15 : Z := 16.
Definition X86_INSN_MODRM_REG_GROUP_16 : Z := 17.
Definition X86_INSN_MODRM_REG_GROUP_p : Z := 18.
Definition X86_INSN_SSE_GROUP_START : Z := 19.
Definition X86_INSN_SSE_GROUP_10 : Z := 20.
Definition X86_INSN_SSE_GROUP_28 : Z := 21.
Definition X86_INSN_SSE_GROUP_50 : Z := 22.
Definition X86_INSN_SSE_GROUP_58 : Z := 23.
Definition X86_INSN_SSE_GROUP_60 : Z := 24.
Definition X86_INSN_SSE_GROUP_68 : Z := 25.
Definition X86_INSN_SSE_GROUP_70 : Z := 26.
Definition X86_INSN_SSE_GROUP_78 : Z := 27.
Definition X86_INSN_SSE_GROUP_c0 : Z := 28.
Definition X86_INSN_SSE_GROUP_d0 : Z := 29.
Definition X86_INSN_SSE_GROUP_d8 : Z := 30.
Definition X86_INSN_SSE_GROUP_e0 : Z := 31.
Definition X86_INSN_SSE_GROUP_e8 : Z := 32.
Definition X86_INSN_SSE_GROUP_f0 : Z := 33.
Definition X86_INSN_SSE_GROUP_f8 : Z := 34.
Definition X86_INSN_GROUP_END : Z := 35.

Definition X86_INSN_GROUP_END_MASK : Z := Z.shiftl 1 6 - 1.
Definition X86_INSN_FLAG_SET_GROUP (n : Z) : Z := Z.shiftl n 5.
Definition X86_INSN_FLAG_GET_GROUP (f : Z) : Z := Z.land (Z.shiftr f 5) X86_INSN_GROUP_END_MASK.

Definition X86_INSN_FLAG_MODRM_REG_GROUP_1 : Z := X86_INSN_FLAG_SET_GROUP X86_INSN_MODRM_REG_GROUP_1.
Definition X86_INSN_FLAG_MODRM_REG_GROUP_1a : Z := X86_INSN_FLAG_SET_GROUP X86_INSN_MODRM_REG_GROUP_1a.
Definition X86_INSN_FLAG_MODRM_REG_GROUP_2 : Z := X86_INSN_FLAG_SET_GROUP X86_INSN_MODRM_REG_GROUP_2.
Definition X86_INSN_FLAG_MODRM_REG_GROUP_3 : Z := X86_INSN_FLAG_SET_GROUP X86_INSN_MODRM_REG_GROUP_3.
Definition X86_INSN_FLAG_MODRM_REG_GROUP_4 : Z := X86_INSN_FLAG_SET_GROUP X86_INSN_MODRM_REG_GROUP_4.
Definition X86_INSN_FLAG_MODRM_REG_GROUP_5 : Z := X86_INSN_FLAG_SET_GROUP X86_INSN_MODRM_REG_GROUP_5.
Definition X86_INSN_FLAG_MODRM_REG_GROUP_6 : Z := X86_INSN_FLAG_SET_GROUP X86_INSN_MODRM_REG_GROUP_6.
Definition X86_INSN_FLAG_MODRM_REG_GROUP_7 : Z := X86_INSN_FLAG_SET_GROUP X86_INSN_MODRM_REG_GROUP_7.
Definition X86_INSN_FLAG_MODRM_REG_GROUP_8 : Z := X86_INSN_FLAG_SET_GROUP X86_INSN_MODRM_REG_GROUP_8.
Definition X86_INSN_FLAG_MODRM_REG_GROUP_9 : Z := X86_INSN_FLAG_SET_GROUP X86_INSN_MODRM_REG_GROUP_9.
Definition X86_INSN_FLAG_MODRM_REG_GROUP_10 : Z := X86_INSN_FLAG_SET_GROUP X86_INSN_MODRM_REG_GROUP_10.
Definition X86_INSN_FLAG_MODRM_REG_GROUP_11 : Z := X86_INSN_FLAG_SET_GROUP X86_INSN_MODRM_REG_GROUP_11.
Definition X86_INSN_FLAG_MODRM_REG_GROUP_12 : Z := X86_INSN_FLAG_SET_GROUP X86_INSN_MODRM_REG_GROUP_12.
Definition X86_INSN_FLAG_MODRM_REG_GROUP_13 : Z := X86_INSN_FLAG_SET_GROUP X86_INSN_MODRM_REG_GROUP_13.
Definition X86_INSN_FLAG_MODRM_REG_GROUP_14 : Z := X86_INSN_FLAG_SET_GROUP X86_INSN_MODRM_REG_GROUP_14.
Definition X86_INSN_FLAG_MODRM_REG_GROUP_15 : Z := X86_INSN_FLAG_SET_GROUP X86_INSN_MODRM_REG_GROUP_15.
Definition X86_INSN_FLAG_MODRM_REG_GROUP_16 : Z := X86_INSN_FLAG_SET_GROUP X86_INSN_MODRM_REG_GROUP_16.
Definition X86_INSN_FLAG_MODRM_REG_GROUP_p : Z := X86_INSN_FLAG_SET_GROUP X86_INSN_MODRM_REG_GROUP_p.
Definition X86_INSN_FLAG_SSE_GROUP_10 : Z := X86_INSN_FLAG_SET_GROUP X86_INSN_SSE_GROUP_10.
Definition X86_INSN_FLAG_SSE_GROUP_28 : Z := X86_INSN_FLAG_SET_GROUP X86_INSN_SSE_GROUP_28.
Definition X86_INSN_FLAG_SSE_GROUP_50 : Z := X86_INSN_FLAG_SET_GROUP X86_INSN_SSE_GROUP_50.
Definition X86_INSN_FLAG_SSE_GROUP_58 : Z := X86_INSN_FLAG_SET_GROUP X86_INSN_SSE_GROUP_58.
Definition X86_INSN_FLAG_SSE_GROUP_60 : Z := X86_INSN_FLAG_SET_GROUP X86_INSN_SSE_GROUP_60.
Definition X86_INSN_FLAG_SSE_GROUP_68 : Z := X86_INSN_FLAG_SET_GROUP X86_INSN_SSE_GROUP_68.
Definition X86_INSN_FLAG_SSE_GROUP_70 : Z := X86_INSN_FLAG_SET_GROUP X86_INSN_SSE_GROUP_70.
Definition X86_INSN_FLAG_SSE_GROUP_78 : Z := X86_INSN_FLAG_SET_GROUP X86_INSN_SSE_GROUP_78.
Definition X86_INSN_FLAG_SSE_GROUP_c0 : Z := X86_INSN_FLAG_SET_GROUP X86_INSN_SSE_GROUP_c0.
Definition X86_INSN_FLAG_SSE_GROUP_d0 : Z := X86_INSN_FLAG_SET_GROUP X86_INSN_SSE_GROUP_d0.
Definition X86_INSN_FLAG_SSE_GROUP_d8 : Z := X86_INSN_FLAG_SET_GROUP X86_INSN_SSE_GROUP_d8.
Definition X86_INSN_FLAG_SSE_GROUP_e0 : Z := X86_INSN_FLAG_SET_GROUP X86_INSN_SSE_GROUP_e0.
Definition X86_INSN_FLAG_SSE_GROUP_e8 : Z := X86_INSN_FLAG_SET_GROUP X86_INSN_SSE_GROUP_e8.
Definition X86_INSN_FLAG_SSE_GROUP_f0 : Z := X86_INSN_FLAG_SET_GROUP X86_INSN_SSE_GROUP_f0.
Definition X86_INSN_FLAG_SSE_GROUP_f8 : Z := X86_INSN_FLAG_SET_GROUP X86_INSN_SSE_GROUP_f8.

(** ** The tables *)

Definition foreach_x86_operand_combine (x : string) : list x86_insn_spec_t :=
  [ op2 x "Eb" "Gb"; op2 x "Ev" "Gv"; op2 x "Gb" "Eb"; op2 x "Gv" "Ev"; op2 x "AL" "Ib"; op2 x "AX" "Iz" ].

Definition foreach_x86_gp_reg : list string :=
  [ "AX"; "CX"; "DX"; "BX"; "SP"; "BP"; "SI"; "DI" ].

Definition foreach_x86_condition : list string :=
  [ "o"; "no"; "b"; "nb"; "z"; "nz"; "be"; "nbe"; "s"; "ns"; "p"; "np"; "l"; "nl"; "le"; "nle" ].

Definition x86_opcode_map_one_byte_lo : list x86_insn_spec_t :=
  (* 0x00 *)
  foreach_x86_operand_combine "add" ++
  [ op0 "push_es"; op0f "pop_es" X86_INSN_SPEC_DEFAULT_64_BIT ] ++
  foreach_x86_operand_combine "or" ++
  [ op0f "push_cs" X86_INSN_SPEC_DEFAULT_64_BIT; op0 "escape_two_byte" ] ++
  (* 0x10 *)
  foreach_x86_operand_combine "adc" ++
  [ op0 "push_ss"; op0 "pop_ss" ] ++
  foreach_x86_operand_combine "sbb" ++
  [ op0 "push_ds"; op0 "pop_ds" ] ++
  (* 0x20 *)
  foreach_x86_operand_combine "and" ++
  [ op0 "segment_es"; op0 "daa" ] ++
  foreach_x86_operand_combine "sub" ++
  [ op0 "segment_cs"; op0 "das" ] ++
  (* 0x30 *)
  foreach_x86_operand_combine "xor" ++
  [ op0 "segment_ss"; op0 "aaa" ] ++
  foreach_x86_operand_combine "cmp" ++
  [ op0 "segment_ds"; op0 "aas" ] ++
  (* 0x40 *)
  map (fun x => op1 "inc" x) foreach_x86_gp_reg ++
  map (fun x => op1 "dec" x) foreach_x86_gp_reg ++
  (* 0x50 *)
  map (fun x => op1f "push" X86_INSN_SPEC_DEFAULT_64_BIT x) foreach_x86_gp_reg ++
  map (fun x => op1f "pop" X86_INSN_SPEC_DEFAULT_64_BIT x) foreach_x86_gp_reg ++
  (* 0x60 *)
  [ op0 "pusha"; op0 "popa"; op2 "bound" "Gv" "Ma"; op2 "movsxd" "Gv" "Ed"; op0 "segment_fs";
    op0 "segment_gs"; op0 "operand_type"; op0 "address_size";
    op1f "push" X86_INSN_SPEC_DEFAULT_64_BIT "Iz"; op3 "imul" "Gv" "Ev" "Iz";
    op1f "push" X86_INSN_SPEC_DEFAULT_64_BIT "Ib"; op3 "imul" "Gv" "Ev" "Ib"; op1 "insb" "DX";
    op1 "insw" "DX"; op1 "outsb" "DX"; op1 "outsw" "DX" ] ++
  (* 0x70 *)
  map (fun x => op1 ("j" ++ x) "Jb") foreach_x86_condition ++
  (* 0x80 *)
  [ op2f "modrm_group_1" X86_INSN_FLAG_MODRM_REG_GROUP_1 "Eb" "Ib";
    op2f "modrm_group_1" X86_INSN_FLAG_MODRM_REG_GROUP_1 "Ev" "Iz";
    op2f "modrm_group_1" X86_INSN_FLAG_MODRM_REG_GROUP_1 "Eb" "Ib";
    op2f "modrm_group_1" X86_INSN_FLAG_MODRM_REG_GROUP_1 "Ev" "Ib"; op2 "test" "Eb" "Gb";
    op2 "test" "Ev" "Gv"; op2 "xchg" "Eb" "Gb"; op2 "xchg" "Ev" "Gv"; op2 "mov" "Eb" "Gb";
    op2 "mov" "Ev" "Gv"; op2 "mov" "Gb" "Eb"; op2 "mov" "Gv" "Ev"; op2 "mov" "Ev" "Sw";
    op2 "lea" "Gv" "Ev"; op2 "mov" "Sw" "Ew";
    op1f "modrm_group_1a" X86_INSN_FLAG_MODRM_REG_GROUP_1a "Ev" ].

Definition x86_opcode_map_one_byte_hi : list x86_insn_spec_t :=
  (* 0x90 *)
  [ op0 "nop"; op1 "xchg" "CX"; op1 "xchg" "DX"; op1 "xchg" "BX"; op1 "xchg" "SP"; op1 "xchg" "BP";
    op1 "xchg" "SI"; op1 "xchg" "DI"; op0 "cbw"; op0 "cwd"; op1 "call" "Ap"; op0 "wait";
    op0 "pushf"; op0 "popf"; op0 "sahf"; op0 "lahf" ] ++
  (* 0xa0 *)
  [ op2 "mov" "AL" "Ob"; op2 "mov" "AX" "Ov"; op2 "mov" "Ob" "AL"; op2 "mov" "Ov" "AX";
    op0 "movsb"; op0 "movsw"; op0 "cmpsb"; op0 "cmpsw"; op2 "test" "AL" "Ib"; op2 "test" "AX" "Iz";
    op1 "stosb" "AL"; op1 "stosw" "AX"; op1 "lodsb" "AL"; op1 "lodsw" "AX"; op1 "scasb" "AL";
    op1 "scasw" "AX" ] ++
  (* 0xb0 *)
  [ op2 "mov" "AL" "Ib"; op2 "mov" "CL" "Ib"; op2 "mov" "DL" "Ib"; op2 "mov" "BL" "Ib";
    op2 "mov" "AH" "Ib"; op2 "mov" "CH" "Ib"; op2 "mov" "DH" "Ib"; op2 "mov" "BH" "Ib" ] ++
  map (fun x => op2 "mov" x "Iv") foreach_x86_gp_reg ++
  (* 0xc0 *)
  [ op2f "modrm_group_2" X86_INSN_FLAG_MODRM_REG_GROUP_2 "Eb" "Ib";
    op2f "modrm_group_2" X86_INSN_FLAG_MODRM_REG_GROUP_2 "Ev" "Ib"; op1 "ret" "Iw"; op0 "ret";
    op2 "les" "Gz" "Mp"; op2 "lds" "Gz" "Mp";
    op2f "modrm_group_11" X86_INSN_FLAG_MODRM_REG_GROUP_11 "Eb" "Ib";
    op2f "modrm_group_11" X86_INSN_FLAG_MODRM_REG_GROUP_11 "Ev" "Iz"; op2 "enter" "Iw" "Ib";
    op0 "leave"; op1 "ret" "Iw"; op0 "ret"; op0 "int3"; op1 "int" "Ib"; op0 "into"; op0 "iret" ] ++
  (* 0xd0 *)
  [ op2f "modrm_group_2" X86_INSN_FLAG_MODRM_REG_GROUP_2 "Eb" "1b";
    op2f "modrm_group_2" X86_INSN_FLAG_MODRM_REG_GROUP_2 "Ev" "1b";
    op2f "modrm_group_2" X86_INSN_FLAG_MODRM_REG_GROUP_2 "Eb" "CL";
    op2f "modrm_group_2" X86_INSN_FLAG_MODRM_REG_GROUP_2 "Ev" "CL"; op0 "aam"; op0 "aad";
    op0 "salc"; op0 "xlat" ] ++
  (* FIXME x87 *)
  [ op0 "bad"; op0 "bad"; op0 "bad"; op0 "bad"; op0 "bad"; op0 "bad"; op0 "bad"; op0 "bad" ] ++
  (* 0xe0 *)
  [ op1 "loopnz" "Jb"; op1 "loopz" "Jb"; op1 "loop" "Jb"; op1 "jcxz" "Jb"; op2 "in" "AL" "Ib";
    op2 "in" "AX" "Ib"; op2 "out" "Ib" "AL"; op2 "out" "Ib" "AX";
    op1f "call" X86_INSN_SPEC_DEFAULT_64_BIT "Jz"; op1f "jmp" X86_INSN_SPEC_DEFAULT_64_BIT "Jz";
    op1 "jmp" "Ap"; op1 "jmp" "Jb"; op2 "in" "AL" "DX"; op2 "in" "AX" "DX"; op2 "out" "DX" "AL";
    op2 "out" "DX" "AX" ] ++
  (* 0xf0 *)
  [ op0 "lock"; op0 "int1"; op0 "repne"; op0 "rep"; op0 "hlt"; op0 "cmc";
    op0f "modrm_group_3" X86_INSN_FLAG_MODRM_REG_GROUP_3;
    op0f "modrm_group_3" X86_INSN_FLAG_MODRM_REG_GROUP_3; op0 "clc"; op0 "stc"; op0 "cli";
    op0 "sti"; op0 "cld"; op0 "std"; op1f "modrm_group_4" X86_INSN_FLAG_MODRM_REG_GROUP_4 "Eb";
    op0f "modrm_group_5" X86_INSN_FLAG_MODRM_REG_GROUP_5 ].

Definition x86_opcode_map_one_byte : list x86_insn_spec_t :=
  x86_opcode_map_one_byte_lo ++ x86_opcode_map_one_byte_hi.

Definition x86_opcode_map_two_byte_lo : list x86_insn_spec_t :=
  (* 0x00 *)
  [ op0f "modrm_group_6" X86_INSN_FLAG_MODRM_REG_GROUP_6;
    op0f "modrm_group_7" X86_INSN_FLAG_MODRM_REG_GROUP_7; op2 "lar" "Gv" "Ew"; op2 "lsl" "Gv" "Ew";
    op0 "bad"; op0 "syscall"; op0 "clts"; op0 "sysret"; op0 "invd"; op0 "wbinvd"; op0 "bad";
    op0 "ud2"; op0 "bad"; op0f "modrm_group_p" X86_INSN_FLAG_MODRM_REG_GROUP_p; op0 "femms";
    op0 "escape_3dnow" ] ++
  (* 0x10 *)
  [ op2f "movups" X86_INSN_FLAG_SSE_GROUP_10 "Gx" "Ex";
    op2f "movups" X86_INSN_FLAG_SSE_GROUP_10 "Ex" "Gx";
    op2f "movlps" X86_INSN_FLAG_SSE_GROUP_10 "Ex" "Gx";
    op2f "movlps" X86_INSN_FLAG_SSE_GROUP_10 "Gx" "Ex";
    op2f "unpcklps" X86_INSN_FLAG_SSE_GROUP_10 "Gx" "Ex";
    op2f "unpckhps" X86_INSN_FLAG_SSE_GROUP_10 "Gx" "Ex";
    op2f "movhps" X86_INSN_FLAG_SSE_GROUP_10 "Ex" "Gx";
    op2f "movhps" X86_INSN_FLAG_SSE_GROUP_10 "Gx" "Ex";
    op0f "modrm_group_16" X86_INSN_FLAG_MODRM_REG_GROUP_16; op0 "nop"; op0 "nop"; op0 "nop";
    op0 "nop"; op0 "nop"; op0 "nop"; op0 "nop" ] ++
  (* 0x20 *)
  [ op2 "mov" "Rv" "Cv"; op2 "mov" "Rv" "Dv"; op2 "mov" "Cv" "Rv"; op2 "mov" "Dv" "Rv"; op0 "bad";
    op0 "bad"; op0 "bad"; op0 "bad"; op2f "movaps" X86_INSN_FLAG_SSE_GROUP_28 "Gx" "Ex";
    op2f "movaps" X86_INSN_FLAG_SSE_GROUP_28 "Ex" "Gx";
    op2f "cvtpi2ps" X86_INSN_FLAG_SSE_GROUP_28 "Gx" "Ex";
    op2f "movntps" X86_INSN_FLAG_SSE_GROUP_28 "Mx" "Gx";
    op2f "cvttps2pi" X86_INSN_FLAG_SSE_GROUP_28 "Gx" "Ex";
    op2f "cvtps2pi" X86_INSN_FLAG_SSE_GROUP_28 "Gx" "Ex";
    op2f "ucomiss" X86_INSN_FLAG_SSE_GROUP_28 "Gx" "Ex";
    op2f "comiss" X86_INSN_FLAG_SSE_GROUP_28 "Gx" "Ex" ] ++
  (* 0x30 *)
  [ op0 "wrmsr"; op0 "rdtsc"; op0 "rdmsr"; op0 "rdpmc"; op0 "sysenter"; op0 "sysexit"; op0 "bad";
    op0 "bad"; op0 "bad"; op0 "bad"; op0 "bad"; op0 "bad"; op0 "bad"; op0 "bad"; op0 "bad";
    op0 "bad" ] ++
  (* 0x40 *)
  map (fun x => op2 ("cmov" ++ x) "Gv" "Ev") foreach_x86_condition ++
  (* 0x50 *)
  [ op2f "movmskps" X86_INSN_FLAG_SSE_GROUP_50 "Gd" "Rx";
    op2f "sqrtps" X86_INSN_FLAG_SSE_GROUP_50 "Gx" "Ex";
    op2f "rsqrtps" X86_INSN_FLAG_SSE_GROUP_50 "Gx" "Ex";
    op2f "rcpps" X86_INSN_FLAG_SSE_GROUP_50 "Gx" "Ex";
    op2f "andps" X86_INSN_FLAG_SSE_GROUP_50 "Gx" "Ex";
    op2f "andnps" X86_INSN_FLAG_SSE_GROUP_50 "Gx" "Ex";
    op2f "orps" X86_INSN_FLAG_SSE_GROUP_50 "Gx" "Ex";
    op2f "xorps" X86_INSN_FLAG_SSE_GROUP_50 "Gx" "Ex";
    op2f "addps" X86_INSN_FLAG_SSE_GROUP_58 "Gx" "Ex";
    op2f "mulps" X86_INSN_FLAG_SSE_GROUP_58 "Gx" "Ex";
    op2f "cvtps2pd" X86_INSN_FLAG_SSE_GROUP_58 "Gx" "Ex";
    op2f "cvtdq2ps" X86_INSN_FLAG_SSE_GROUP_58 "Gx" "Ex";
    op2f "subps" X86_INSN_FLAG_SSE_GROUP_58 "Gx" "Ex";
    op2f "minps" X86_INSN_FLAG_SSE_GROUP_58 "Gx" "Ex";
    op2f "divps" X86_INSN_FLAG_SSE_GROUP_58 "Gx" "Ex";
    op2f "maxps" X86_INSN_FLAG_SSE_GROUP_58 "Gx" "Ex" ] ++
  (* 0x60 *)
  [ op2f "punpcklbw" X86_INSN_FLAG_SSE_GROUP_60 "Gm" "Em";
    op2f "punpcklwd" X86_INSN_FLAG_SSE_GROUP_60 "Gm" "Em";
    op2f "punpckldq" X86_INSN_FLAG_SSE_GROUP_60 "Gm" "Em";
    op2f "packsswb" X86_INSN_FLAG_SSE_GROUP_60 "Gm" "Em";
    op2f "pcmpgtb" X86_INSN_FLAG_SSE_GROUP_60 "Gm" "Em";
    op2f "pcmpgtw" X86_INSN_FLAG_SSE_GROUP_60 "Gm" "Em";
    op2f "pcmpgtd" X86_INSN_FLAG_SSE_GROUP_60 "Gm" "Em";
    op2f "packuswb" X86_INSN_FLAG_SSE_GROUP_60 "Gm" "Em";
    op2f "punpckhbw" X86_INSN_FLAG_SSE_GROUP_68 "Gm" "Em";
    op2f "punpckhwd" X86_INSN_FLAG_SSE_GROUP_68 "Gm" "Em";
    op2f "punpckhdq" X86_INSN_FLAG_SSE_GROUP_68 "Gm" "Em";
    op2f "packssdw" X86_INSN_FLAG_SSE_GROUP_68 "Gm" "Em"; op0f "bad" X86_INSN_FLAG_SSE_GROUP_68;
    op0f "bad" X86_INSN_FLAG_SSE_GROUP_68; op2f "movd" X86_INSN_FLAG_SSE_GROUP_68 "Gm" "Em";
    op2f "movq" X86_INSN_FLAG_SSE_GROUP_68 "Gm" "Em" ] ++
  (* 0x70 *)
  [ op3f "pshufw" X86_INSN_FLAG_SSE_GROUP_70 "Gm" "Em" "Ib";
    op0f "modrm_group_12" X86_INSN_FLAG_MODRM_REG_GROUP_12;
    op0f "modrm_group_13" X86_INSN_FLAG_MODRM_REG_GROUP_13;
    op0f "modrm_group_14" X86_INSN_FLAG_MODRM_REG_GROUP_14;
    op2f "pcmpeqb" X86_INSN_FLAG_SSE_GROUP_70 "Gm" "Em";
    op2f "pcmpeqw" X86_INSN_FLAG_SSE_GROUP_70 "Gm" "Em";
    op2f "pcmpeqd" X86_INSN_FLAG_SSE_GROUP_70 "Gm" "Em"; op0f "emms" X86_INSN_FLAG_SSE_GROUP_70;
    op0f "bad" X86_INSN_FLAG_SSE_GROUP_78; op0f "bad" X86_INSN_FLAG_SSE_GROUP_78;
    op0f "bad" X86_INSN_FLAG_SSE_GROUP_78; op0f "bad" X86_INSN_FLAG_SSE_GROUP_78;
    op0f "bad" X86_INSN_FLAG_SSE_GROUP_78; op0f "bad" X86_INSN_FLAG_SSE_GROUP_78;
    op2f "movd" X86_INSN_FLAG_SSE_GROUP_78 "Em" "Gm";
    op2f "movq" X86_INSN_FLAG_SSE_GROUP_78 "Em" "Gm" ].

Definition x86_opcode_map_two_byte_hi : list x86_insn_spec_t :=
  (* 0x80 *)
  map (fun x => op1 ("jmp" ++ x) "Jz") foreach_x86_condition ++
  (* 0x90 *)
  map (fun x => op1 ("set" ++ x) "Eb") foreach_x86_condition ++
  (* 0xa0 *)
  [ op0 "push_fs"; op0 "pop_fs"; op0 "cpuid"; op2 "bt" "Ev" "Gv"; op3 "shld" "Ev" "Gv" "Ib";
    op3 "shld" "Ev" "Gv" "CL"; op0 "bad"; op0 "bad"; op0 "push_gs"; op0 "pop_gs"; op0 "rsm";
    op2 "bts" "Ev" "Gv"; op3 "shrd" "Ev" "Gv" "Ib"; op3 "shrd" "Ev" "Gv" "CL";
    op0f "modrm_group_15" X86_INSN_FLAG_MODRM_REG_GROUP_15; op2 "imul" "Gv" "Ev" ] ++
  (* 0xb0 *)
  [ op2 "cmpxchg" "Eb" "Gb"; op2 "cmpxchg" "Ev" "Gv"; op2 "lss" "Gz" "Mp"; op2 "btr" "Ev" "Gv";
    op2 "lfs" "Gz" "Mp"; op2 "lgs" "Gz" "Mp"; op2 "movzbl" "Gv" "Eb"; op2 "movzwl" "Gv" "Ew";
    op0 "bad"; op0f "modrm_group_10" X86_INSN_FLAG_MODRM_REG_GROUP_10;
    op2f "modrm_group_8" X86_INSN_FLAG_MODRM_REG_GROUP_8 "Ev" "Ib"; op2 "btc" "Ev" "Gv";
    op2 "bsf" "Gv" "Ev"; op2 "bsr" "Gv" "Ev"; op2 "movsx" "Gv" "Eb"; op2 "movsx" "Gv" "Ew" ] ++
  (* 0xc0 *)
  [ op2 "xadd" "Eb" "Gb"; op2 "xadd" "Ev" "Gv";
    op3f "cmpps" X86_INSN_FLAG_SSE_GROUP_c0 "Gx" "Ex" "Ib"; op2 "movnti" "Mv" "Gv";
    op3f "pinsrw" X86_INSN_FLAG_SSE_GROUP_c0 "Gm" "Ew" "Ib";
    op3f "pextrw" X86_INSN_FLAG_SSE_GROUP_c0 "Gd" "Rm" "Ib";
    op3f "shufps" X86_INSN_FLAG_SSE_GROUP_c0 "Gx" "Ex" "Ib";
    op1f "modrm_group_9" X86_INSN_FLAG_MODRM_REG_GROUP_9 "Mx" ] ++
  map (fun x => op1 "bswap" x) foreach_x86_gp_reg ++
  (* 0xd0 *)
  [ op0f "bad" X86_INSN_FLAG_SSE_GROUP_d0; op2f "psrlw" X86_INSN_FLAG_SSE_GROUP_d0 "Gm" "Em";
    op2f "psrld" X86_INSN_FLAG_SSE_GROUP_d0 "Gm" "Em";
    op2f "psrlq" X86_INSN_FLAG_SSE_GROUP_d0 "Gm" "Em";
    op2f "paddq" X86_INSN_FLAG_SSE_GROUP_d0 "Gm" "Em";
    op2f "pmullw" X86_INSN_FLAG_SSE_GROUP_d0 "Gm" "Em"; op0f "bad" X86_INSN_FLAG_SSE_GROUP_d0;
    op2f "pmovmskb" X86_INSN_FLAG_SSE_GROUP_d0 "Gd" "Rm";
    op2f "psubusb" X86_INSN_FLAG_SSE_GROUP_d8 "Gm" "Em";
    op2f "psubusw" X86_INSN_FLAG_SSE_GROUP_d8 "Gm" "Em";
    op2f "pminub" X86_INSN_FLAG_SSE_GROUP_d8 "Gm" "Em";
    op2f "pand" X86_INSN_FLAG_SSE_GROUP_d8 "Gm" "Em";
    op2f "paddusb" X86_INSN_FLAG_SSE_GROUP_d8 "Gm" "Em";
    op2f "paddusw" X86_INSN_FLAG_SSE_GROUP_d8 "Gm" "Em";
    op2f "pmaxub" X86_INSN_FLAG_SSE_GROUP_d8 "Gm" "Em";
    op2f "pandn" X86_INSN_FLAG_SSE_GROUP_d8 "Gm" "Em" ] ++
  (* 0xe0 *)
  [ op2f "pavgb" X86_INSN_FLAG_SSE_GROUP_e0 "Gm" "Em";
    op2f "psraw" X86_INSN_FLAG_SSE_GROUP_e0 "Gm" "Em";
    op2f "psrad" X86_INSN_FLAG_SSE_GROUP_e0 "Gm" "Em";
    op2f "pavgw" X86_INSN_FLAG_SSE_GROUP_e0 "Gm" "Em";
    op2f "pmulhuw" X86_INSN_FLAG_SSE_GROUP_e0 "Gm" "Em";
    op2f "pmulhw" X86_INSN_FLAG_SSE_GROUP_e0 "Gm" "Em";
    op2f "bad" X86_INSN_FLAG_SSE_GROUP_e0 "Gm" "Em";
    op2f "movntq" X86_INSN_FLAG_SSE_GROUP_e0 "Mm" "Gm";
    op2f "psubsb" X86_INSN_FLAG_SSE_GROUP_e8 "Gm" "Em";
    op2f "psubsw" X86_INSN_FLAG_SSE_GROUP_e8 "Gm" "Em";
    op2f "pminsw" X86_INSN_FLAG_SSE_GROUP_e8 "Gm" "Em";
    op2f "por" X86_INSN_FLAG_SSE_GROUP_e8 "Gm" "Em";
    op2f "paddsb" X86_INSN_FLAG_SSE_GROUP_e8 "Gm" "Em";
    op2f "paddsw" X86_INSN_FLAG_SSE_GROUP_e8 "Gm" "Em";
    op2f "pmaxsw" X86_INSN_FLAG_SSE_GROUP_e8 "Gm" "Em";
    op2f "pxor" X86_INSN_FLAG_SSE_GROUP_e8 "Gm" "Em" ] ++
  (* 0xf0 *)
  [ op0f "bad" X86_INSN_FLAG_SSE_GROUP_f0; op2f "psllw" X86_INSN_FLAG_SSE_GROUP_f0 "Gm" "Em";
    op2f "pslld" X86_INSN_FLAG_SSE_GROUP_f0 "Gm" "Em";
    op2f "psllq" X86_INSN_FLAG_SSE_GROUP_f0 "Gm" "Em";
    op2f "pmuludq" X86_INSN_FLAG_SSE_GROUP_f0 "Gm" "Em";
    op2f "pmaddwd" X86_INSN_FLAG_SSE_GROUP_f0 "Gm" "Em";
    op2f "psadbw" X86_INSN_FLAG_SSE_GROUP_f0 "Gm" "Em";
    op2f "maskmovq" X86_INSN_FLAG_SSE_GROUP_f0 "Gm" "Em";
    op2f "psubb" X86_INSN_FLAG_SSE_GROUP_f8 "Gm" "Em";
    op2f "psubw" X86_INSN_FLAG_SSE_GROUP_f8 "Gm" "Em";
    op2f "psubd" X86_INSN_FLAG_SSE_GROUP_f8 "Gm" "Em";
    op2f "psubq" X86_INSN_FLAG_SSE_GROUP_f8 "Gm" "Em";
    op2f "paddb" X86_INSN_FLAG_SSE_GROUP_f8 "Gm" "Em";
    op2f "paddw" X86_INSN_FLAG_SSE_GROUP_f8 "Gm" "Em";
    op2f "paddd" X86_INSN_FLAG_SSE_GROUP_f8 "Gm" "Em"; op0f "bad" X86_INSN_FLAG_SSE_GROUP_f8 ].

Definition x86_opcode_map_two_byte : list x86_insn_spec_t :=
  x86_opcode_map_two_byte_lo ++ x86_opcode_map_two_byte_hi.

Definition x86_insn_modrm_reg_groups_lo : list (Z * list x86_insn_spec_t) :=
  [ (X86_INSN_MODRM_REG_GROUP_1, [op0 "add"; op0 "or"; op0 "adc"; op0 "sbb"; op0 "and"; op0 "sub";
     op0 "xor"; op0 "cmp"]);
    (X86_INSN_MODRM_REG_GROUP_1a, [op0f "pop" X86_INSN_SPEC_DEFAULT_64_BIT; op0 "bad"; op0 "bad";
     op0 "bad"; op0 "bad"; op0 "bad"; op0 "bad"; op0 "bad"]);
    (X86_INSN_MODRM_REG_GROUP_2, [op0 "rol"; op0 "ror"; op0 "rcl"; op0 "rcr"; op0 "shl"; op0 "shr";
     op0 "sal"; op0 "sar"]);
    (X86_INSN_MODRM_REG_GROUP_3, [op0 "test"; op0 "test"; op0 "not"; op0 "neg"; op0 "mul";
     op0 "imul"; op0 "div"; op0 "idiv"]);
    (X86_INSN_MODRM_REG_GROUP_4, [op0 "inc"; op0 "dec"; op0 "bad"; op0 "bad"; op0 "bad"; op0 "bad";
     op0 "bad"; op0 "bad"]);
    (X86_INSN_MODRM_REG_GROUP_5, [op1 "inc" "Ev"; op1 "dec" "Ev";
     op1f "call" X86_INSN_SPEC_DEFAULT_64_BIT "Ev"; op1 "call" "Mp";
     op1f "jmp" X86_INSN_SPEC_DEFAULT_64_BIT "Ev"; op1 "jmp" "Mp";
     op1f "push" X86_INSN_SPEC_DEFAULT_64_BIT "Ev"; op0 "bad"]);
    (X86_INSN_MODRM_REG_GROUP_6, [op1 "sldt" "Ev"; op1 "str" "Ev"; op1 "lldt" "Ev"; op1 "ltr" "Ev";
     op1 "verr" "Ev"; op1 "verw" "Ev"; op0 "bad"; op0 "bad"]);
    (X86_INSN_MODRM_REG_GROUP_7, [op1 "sgdt" "Mv"; op1 "sidt" "Mv"; op1 "lgdt" "Mv";
     op1 "lidt" "Mv"; op1 "smsw" "Ev"; op0 "bad"; op1 "lmsw" "Ew"; op1 "invlpg" "Mv"]);
    (X86_INSN_MODRM_REG_GROUP_8, [op0 "bad"; op0 "bad"; op0 "bad"; op0 "bad"; op2 "bt" "Ev" "Ib";
     op2 "bts" "Ev" "Ib"; op2 "btr" "Ev" "Ib"; op2 "btc" "Ev" "Ib"]) ].

Definition x86_insn_modrm_reg_groups_hi : list (Z * list x86_insn_spec_t) :=
  [ (X86_INSN_MODRM_REG_GROUP_9, [op0 "bad"; op1 "cmpxchg" "Mx"; op0 "bad"; op0 "bad"; op0 "bad";
     op0 "bad"; op0 "bad"; op0 "bad"]);
    (X86_INSN_MODRM_REG_GROUP_10, [op0 "bad"; op0 "bad"; op0 "bad"; op0 "bad"; op0 "bad";
     op0 "bad"; op0 "bad"; op0 "bad"]);
    (X86_INSN_MODRM_REG_GROUP_11, [op0 "mov"; op0 "bad"; op0 "bad"; op0 "bad"; op0 "bad";
     op0 "bad"; op0 "bad"; op0 "bad"]);
    (X86_INSN_MODRM_REG_GROUP_12, [op0 "bad"; op0 "bad"; op2 "psrlw" "Rm" "Ib"; op0 "bad";
     op2 "psraw" "Rm" "Ib"; op0 "bad"; op2 "psllw" "Rm" "Ib"; op0 "bad"]);
    (X86_INSN_MODRM_REG_GROUP_13, [op0 "bad"; op0 "bad"; op2 "psrld" "Rm" "Ib"; op0 "bad";
     op2 "psrad" "Rm" "Ib"; op0 "bad"; op2 "pslld" "Rm" "Ib"; op0 "bad"]);
    (X86_INSN_MODRM_REG_GROUP_14, [op0 "bad"; op0 "bad"; op2 "psrlq" "Rm" "Ib"; op0f "bad" 0;
     op0 "bad"; op0 "bad"; op2 "psllq" "Rm" "Ib"; op0f "bad" 0]);
    (X86_INSN_MODRM_REG_GROUP_15, [op1 "fxsave" "Mv"; op1 "fxrstor" "Mv"; op1 "ldmxcsr" "Mv";
     op1 "stmxcsr" "Mv"; op0 "bad"; op1 "lfence" "Mv"; op1 "mfence" "Mv"; op1 "sfence" "Mv"]);
    (X86_INSN_MODRM_REG_GROUP_16, [op1 "prefetch_nta" "Mv"; op1 "prefetch_t0" "Mv";
     op1 "prefetch_t1" "Mv"; op1 "prefetch_t2" "Mv"; op1 "prefetch_nop" "Mv";
     op1 "prefetch_nop" "Mv"; op1 "prefetch_nop" "Mv"; op1 "prefetch_nop" "Mv"]);
    (X86_INSN_MODRM_REG_GROUP_p, [op1 "prefetch_exclusive" "Mv"; op1 "prefetch_modified" "Mv";
     op1 "prefetch_nop" "Mv"; op1 "prefetch_modified" "Mv"; op1 "prefetch_nop" "Mv";
     op1 "prefetch_nop" "Mv"; op1 "prefetch_nop" "Mv"; op1 "prefetch_nop" "Mv"]) ].

Definition x86_insn_modrm_reg_groups : list (list x86_insn_spec_t) :=
  designated (x86_insn_modrm_reg_groups_lo ++ x86_insn_modrm_reg_groups_hi) 19.

Definition x86_insn_sse_groups_repz_lo : list (Z * list x86_insn_spec_t) :=
  [ (X86_INSN_SSE_GROUP_10, [op2 "movss" "Gx" "Ex"; op2 "movss" "Ex" "Gx";
     op2 "movsldup" "Gx" "Ex"; op0 "bad"; op0 "bad"; op0 "bad"; op2 "movshdup" "Gx" "Ex";
     op0 "bad"]);
    (X86_INSN_SSE_GROUP_28, [op0 "bad"; op0 "bad"; op2 "cvtsi2ss" "Gx" "Ev"; op0 "bad";
     op2 "cvttss2si" "Gv" "Ex"; op2 "cvtss2si" "Gv" "Ex"; op0 "bad"; op0 "bad"]);
    (X86_INSN_SSE_GROUP_50, [op0 "bad"; op2 "sqrtss" "Gx" "Ex"; op2 "rsqrtps" "Gx" "Ex";
     op2 "rcpss" "Gx" "Ex"; op0 "bad"; op0 "bad"; op0 "bad"; op0 "bad"]);
    (X86_INSN_SSE_GROUP_58, [op2 "addss" "Gx" "Ex"; op2 "mulss" "Gx" "Ex";
     op2 "cvtss2sd" "Gx" "Ex"; op2 "cvttps2dq" "Gx" "Ex"; op2 "subss" "Gx" "Ex";
     op2 "minss" "Gx" "Ex"; op2 "divss" "Gx" "Ex"; op2 "maxss" "Gx" "Ex"]);
    (X86_INSN_SSE_GROUP_60, [op0 "bad"; op0 "bad"; op0 "bad"; op0 "bad"; op0 "bad"; op0 "bad";
     op0 "bad"; op0 "bad"]);
    (X86_INSN_SSE_GROUP_68, [op0 "bad"; op0 "bad"; op0 "bad"; op0 "bad"; op0 "bad"; op0 "bad";
     op0 "bad"; op2 "movdqu" "Gx" "Ex"]);
    (X86_INSN_SSE_GROUP_70, [op3 "pshufhw" "Gx" "Ex" "Ib"; op0 "bad"; op0 "bad"; op0 "bad";
     op0 "bad"; op0 "bad"; op0 "bad"; op0 "bad"]);
    (X86_INSN_SSE_GROUP_78, [op0 "bad"; op0 "bad"; op0 "bad"; op0 "bad"; op0 "bad"; op0 "bad";
     op2 "movq" "Gx" "Ex"; op2 "movdqu" "Ex" "Gx"]) ].

Definition x86_insn_sse_groups_repz_hi : list (Z * list x86_insn_spec_t) :=
  [ (X86_INSN_SSE_GROUP_c0, [op0 "bad"; op0 "bad"; op3 "cmpss" "Gx" "Ex" "Ib"; op0 "bad";
     op0 "bad"; op0 "bad"; op0 "bad"; op0 "bad"]);
    (X86_INSN_SSE_GROUP_d0, [op0 "bad"; op0 "bad"; op0 "bad"; op0 "bad"; op0 "bad"; op0 "bad";
     op2 "movq2dq" "Gx" "Em"; op0 "bad"]);
    (X86_INSN_SSE_GROUP_d8, [op0 "bad"; op0 "bad"; op0 "bad"; op0 "bad"; op0 "bad"; op0 "bad";
     op0 "bad"; op0 "bad"]);
    (X86_INSN_SSE_GROUP_e0, [op0 "bad"; op0 "bad"; op0 "bad"; op0 "bad"; op0 "bad"; op0 "bad";
     op2 "cvtdq2pd" "Gx" "Ex"; op0 "bad"]);
    (X86_INSN_SSE_GROUP_e8, [op0 "bad"; op0 "bad"; op0 "bad"; op0 "bad"; op0 "bad"; op0 "bad";
     op0 "bad"; op0 "bad"]);
    (X86_INSN_SSE_GROUP_f0, [op0 "bad"; op0 "bad"; op0 "bad"; op0 "bad"; op0 "bad"; op0 "bad";
     op0 "bad"; op0 "bad"]);
    (X86_INSN_SSE_GROUP_f8, [op0 "bad"; op0 "bad"; op0 "bad"; op0 "bad"; op0 "bad"; op0 "bad";
     op0 "bad"; op0 "bad"]) ].

Definition x86_insn_sse_groups_repz : list (list x86_insn_spec_t) := designated (x86_insn_sse_groups_repz_lo ++ x86_insn_sse_groups_repz_hi) 35.

Definition x86_insn_sse_groups_operand_size_lo : list (Z * list x86_insn_spec_t) :=
  [ (X86_INSN_SSE_GROUP_10, [op2 "movupd" "Gx" "Ex"; op2 "movupd" "Ex" "Gx";
     op2 "movlpd" "Gx" "Ex"; op2 "movlpd" "Ex" "Gx"; op2 "unpcklpd" "Gx" "Ex";
     op2 "unpckhpd" "Gx" "Ex"; op2 "movhpd" "Gx" "Mx"; op2 "movhpd" "Mx" "Gx"]);
    (X86_INSN_SSE_GROUP_28, [op2 "movapd" "Gx" "Ex"; op2 "movapd" "Ex" "Gx";
     op2 "cvtpi2pd" "Gx" "Ex"; op2 "movntpd" "Mx" "Gx"; op2 "cvttpd2pi" "Gx" "Mx";
     op2 "cvtpd2pi" "Gx" "Mx"; op2 "ucomisd" "Gx" "Ex"; op2 "comisd" "Gx" "Ex"]);
    (X86_INSN_SSE_GROUP_50, [op2 "movmskpd" "Gd" "Rx"; op2 "sqrtpd" "Gx" "Ex"; op0 "bad";
     op0 "bad"; op2 "andpd" "Gx" "Ex"; op2 "andnpd" "Gx" "Ex"; op2 "orpd" "Gx" "Ex";
     op2 "xorpd" "Gx" "Ex"]);
    (X86_INSN_SSE_GROUP_58, [op2 "addpd" "Gx" "Ex"; op2 "mulpd" "Gx" "Ex";
     op2 "cvtpd2ps" "Gx" "Ex"; op2 "cvtps2dq" "Gx" "Ex"; op2 "subpd" "Gx" "Ex";
     op2 "minpd" "Gx" "Ex"; op2 "divpd" "Gx" "Ex"; op2 "maxpd" "Gx" "Ex"]);
    (X86_INSN_SSE_GROUP_60, [op2 "punpcklbw" "Gx" "Ex"; op2 "punpcklwd" "Gx" "Ex";
     op2 "punpckldq" "Gx" "Ex"; op2 "packsswb" "Gx" "Ex"; op2 "pcmpgtb" "Gx" "Ex";
     op2 "pcmpgtw" "Gx" "Ex"; op2 "pcmpgtd" "Gx" "Ex"; op2 "packuswb" "Gx" "Ex"]);
    (X86_INSN_SSE_GROUP_68, [op2 "punpckhbw" "Gx" "Ex"; op2 "punpckhwd" "Gx" "Ex";
     op2 "punpckhdq" "Gx" "Ex"; op2 "packssdw" "Gx" "Ex"; op2 "punpcklqdq" "Gx" "Ex";
     op2 "punpckhqdq" "Gx" "Ex"; op2 "movd" "Gx" "Ev"; op2 "movdqa" "Gx" "Ex"]);
    (X86_INSN_SSE_GROUP_70, [op3 "pshufd" "Gx" "Ex" "Ib";
     op0f "modrm_group_12" X86_INSN_FLAG_MODRM_REG_GROUP_12;
     op0f "modrm_group_13" X86_INSN_FLAG_MODRM_REG_GROUP_13;
     op0f "modrm_group_14" X86_INSN_FLAG_MODRM_REG_GROUP_14; op2 "pcmpeqb" "Gx" "Ex";
     op2 "pcmpeqw" "Gx" "Ex"; op2 "pcmpeqd" "Gx" "Ex"; op0 "bad"]);
    (X86_INSN_SSE_GROUP_78, [op0 "bad"; op0 "bad"; op0 "bad"; op0 "bad"; op2 "haddpd" "Gx" "Ex";
     op2 "hsubpd" "Gx" "Ex"; op2 "movd" "Ev" "Gx"; op2 "movdqa" "Ex" "Gx"]) ].

Definition x86_insn_sse_groups_operand_size_hi : list (Z * list x86_insn_spec_t) :=
  [ (X86_INSN_SSE_GROUP_c0, [op0 "bad"; op0 "bad"; op3 "cmppd" "Gx" "Ex" "Ib"; op0 "bad";
     op3 "pinsrw" "Gx" "Ew" "Ib"; op3 "pextrw" "Gd" "Gx" "Ib"; op3 "shufpd" "Gx" "Ex" "Ib";
     op0 "bad"]);
    (X86_INSN_SSE_GROUP_d0, [op2 "addsubpd" "Gx" "Ex"; op2 "psrlw" "Gx" "Ex";
     op2 "psrld" "Gx" "Ex"; op2 "psrlq" "Gx" "Ex"; op2 "paddq" "Gx" "Ex";
     op2 "pmullw" "Gx" "Ex"; op2 "movq" "Ex" "Gx"; op2 "pmovmskb" "Gd" "Rx"]);
    (X86_INSN_SSE_GROUP_d8, [op2 "psubusb" "Gx" "Ex"; op2 "psubusw" "Gx" "Ex";
     op2 "pminub" "Gx" "Ex"; op2 "pand" "Gx" "Ex"; op2 "paddusb" "Gx" "Ex";
     op2 "paddusw" "Gx" "Ex"; op2 "pmaxub" "Gx" "Ex"; op2 "pandn" "Gx" "Ex"]);
    (X86_INSN_SSE_GROUP_e0, [op2 "pavgb" "Gx" "Ex"; op2 "psraw" "Gx" "Ex"; op2 "psrad" "Gx" "Ex";
     op2 "pavgw" "Gx" "Ex"; op2 "pmulhuw" "Gx" "Ex"; op2 "pmulhw" "Gx" "Ex";
     op2 "cvttpd2dq" "Gx" "Ex"; op2 "movntdq" "Mx" "Gx"]);
    (X86_INSN_SSE_GROUP_e8, [op2 "psubsb" "Gx" "Ex"; op2 "psubsw" "Gx" "Ex";
     op2 "pminsw" "Gx" "Ex"; op2 "por" "Gx" "Ex"; op2 "paddsb" "Gx" "Ex";
     op2 "paddsw" "Gx" "Ex"; op2 "pmaxsw" "Gx" "Ex"; op2 "pxor" "Gx" "Ex"]);
    (X86_INSN_SSE_GROUP_f0, [op0 "bad"; op2 "psllw" "Gx" "Ex"; op2 "pslld" "Gx" "Ex";
     op2 "psllq" "Gx" "Ex"; op2 "pmuludq" "Gx" "Ex"; op2 "pmaddwd" "Gx" "Ex";
     op2 "psadbw" "Gx" "Ex"; op2 "maskmovdqu" "Gx" "Ex"]);
    (X86_INSN_SSE_GROUP_f8, [op2 "psubb" "Gx" "Ex"; op2 "psubw" "Gx" "Ex"; op2 "psubd" "Gx" "Ex";
     op2 "psubq" "Gx" "Ex"; op2 "paddb" "Gx" "Ex"; op2 "paddw" "Gx" "Ex";
     op2 "paddd" "Gx" "Ex"; op0 "bad"]) ].

Definition x86_insn_sse_groups_operand_size : list (list x86_insn_spec_t) := designated (x86_insn_sse_groups_operand_size_lo ++ x86_insn_sse_groups_operand_size_hi) 35.

Definition x86_insn_sse_groups_repnz_lo : list (Z * list x86_insn_spec_t) :=
  [ (X86_INSN_SSE_GROUP_10, [op2 "movsd" "Gx" "Ex"; op2 "movsd" "Ex" "Gx"; op2 "movddup" "Gx" "Ex";
     op0 "bad"; op0 "bad"; op0 "bad"; op0 "bad"; op0 "bad"]);
    (X86_INSN_SSE_GROUP_28, [op0 "bad"; op0 "bad"; op2 "cvtsi2sd" "Gx" "Ev"; op0 "bad";
     op2 "cvttsd2si" "Gv" "Ex"; op2 "cvtsd2si" "Gv" "Ex"; op0 "bad"; op0 "bad"]);
    (X86_INSN_SSE_GROUP_50, [op0 "bad"; op2 "sqrtsd" "Gx" "Ex"; op0 "bad"; op0 "bad"; op0 "bad";
     op0 "bad"; op0 "bad"; op0 "bad"]);
    (X86_INSN_SSE_GROUP_58, [op2 "addsd" "Gx" "Ex"; op2 "mulsd" "Gx" "Ex";
     op2 "cvtsd2ss" "Gx" "Ex"; op0 "bad"; op2 "subsd" "Gx" "Ex"; op2 "minsd" "Gx" "Ex";
     op2 "divsd" "Gx" "Ex"; op2 "maxsd" "Gx" "Ex"]);
    (X86_INSN_SSE_GROUP_60, [op0 "bad"; op0 "bad"; op0 "bad"; op0 "bad"; op0 "bad"; op0 "bad";
     op0 "bad"; op0 "bad"]);
    (X86_INSN_SSE_GROUP_68, [op0 "bad"; op0 "bad"; op0 "bad"; op0 "bad"; op0 "bad"; op0 "bad";
     op0 "bad"; op0 "bad"]);
    (X86_INSN_SSE_GROUP_70, [op3 "pshuflw" "Gx" "Ex" "Ib"; op0 "bad"; op0 "bad"; op0 "bad";
     op0 "bad"; op0 "bad"; op0 "bad"; op0 "bad"]);
    (X86_INSN_SSE_GROUP_78, [op0 "bad"; op0 "bad"; op0 "bad"; op0 "bad"; op2 "haddps" "Gx" "Ex";
     op2 "hsubps" "Gx" "Ex"; op0 "bad"; op0 "bad"]) ].

Definition x86_insn_sse_groups_repnz_hi : list (Z * list x86_insn_spec_t) :=
  [ (X86_INSN_SSE_GROUP_c0, [op0 "bad"; op0 "bad"; op3 "cmpsd" "Gx" "Ex" "Ib"; op0 "bad";
     op0 "bad"; op0 "bad"; op0 "bad"; op0 "bad"]);
    (X86_INSN_SSE_GROUP_d0, [op2 "addsubps" "Gx" "Ex"; op0 "bad"; op0 "bad"; op0 "bad"; op0 "bad";
     op0 "bad"; op2 "movdq2q" "Gm" "Ex"; op0 "bad"]);
    (X86_INSN_SSE_GROUP_d8, [op0 "bad"; op0 "bad"; op0 "bad"; op0 "bad"; op0 "bad"; op0 "bad";
     op0 "bad"; op0 "bad"]);
    (X86_INSN_SSE_GROUP_e0, [op0 "bad"; op0 "bad"; op0 "bad"; op0 "bad"; op0 "bad"; op0 "bad";
     op2 "cvtpd2dq" "Gx" "Ex"; op0 "bad"]);
    (X86_INSN_SSE_GROUP_e8, [op0 "bad"; op0 "bad"; op0 "bad"; op0 "bad"; op0 "bad"; op0 "bad";
     op0 "bad"; op0 "bad"]);
    (X86_INSN_SSE_GROUP_f0, [op2 "lddqu" "Gx" "Mx"; op0 "bad"; op0 "bad"; op0 "bad"; op0 "bad";
     op0 "bad"; op0 "bad"; op0 "bad"]);
    (X86_INSN_SSE_GROUP_f8, [op0 "bad"; op0 "bad"; op0 "bad"; op0 "bad"; op0 "bad"; op0 "bad";
     op0 "bad"; op0 "bad"]) ].

Definition x86_insn_sse_groups_repnz : list (list x86_insn_spec_t) := designated (x86_insn_sse_groups_repnz_lo ++ x86_insn_sse_groups_repnz_hi) 35.

(** The maps have an entry for every byte. *)
Lemma one_byte_length : length x86_opcode_map_one_byte = 256%nat.
Proof. vm_compute. reflexivity. Qed.
Lemma two_byte_length : length x86_opcode_map_two_byte = 256%nat.
Proof. vm_compute. reflexivity. Qed.
