(* ===== verification/X86Insn.v ===== *)
(** The x86 instruction decoder ([x86_insn_decode.c], [x86_insn_reader.c]).

    The reader copies 15 bytes of code into its 20-byte buffer; positions are
    offsets into that buffer and a read past its end is [None] (the C code reads
    whatever follows). The pointers that only unused helpers read are left out. [assert] is off, so [UNREACHABLE] and [UNIMPLEMENTED] log
    and go on. The mode is 32 or 64: in another one the address size is read
    uninitialised, [None]. *)
From Stdlib Require Import String Ascii.
From S2P Require Import Prelude X86Tables.

(** ** Bytes *)

Definition REX_W (byte : Z) : Z := Z.shiftr (Z.land byte 8) 3.
Definition REX_R (byte : Z) : Z := Z.shiftr (Z.land byte 4) 2.
Definition REX_X (byte : Z) : Z := Z.shiftr (Z.land byte 2) 1.
Definition REX_B (byte : Z) : Z := Z.shiftr (Z.land byte 1) 0.

(** The bit fields of [x86_insn_modrm_t] and [x86_insn_sib_t]. *)
Definition modrm_rm (byte : Z) : Z := Z.land byte 7.
Definition modrm_reg (byte : Z) : Z := Z.land (Z.shiftr byte 3) 7.
Definition modrm_mode (byte : Z) : Z := Z.land (Z.shiftr byte 6) 3.
Definition sib_base (byte : Z) : Z := Z.land byte 7.
Definition sib_index (byte : Z) : Z := Z.land (Z.shiftr byte 3) 7.
Definition sib_log2_scale (byte : Z) : Z := Z.land (Z.shiftr byte 6) 3.

Definition X86_INSN_DECODE_FLAG_HAS_BASE : Z := Z.shiftl 1 0.
Definition X86_INSN_DECODE_FLAG_HAS_INDEX : Z := Z.shiftl 1 1.
Definition X86_INSN_DECODE_FLAG_IS_ADDRESS : Z := Z.shiftl 1 2.
Definition X86_INSN_DECODE_FLAG_IP_RELATIVE : Z := Z.shiftl 1 3.
Definition X86_INSN_DECODE_FLAG_OPERAND_SIZE_64 : Z := Z.shiftl 1 4.

Definition INSN_PREFIX_LOCK : Z := 0x01.
Definition INSN_PREFIX_REPNE : Z := 0x02.
Definition INSN_PREFIX_REPE : Z := 0x04.
Definition INSN_PREFIX_ES : Z := 0x0008.
Definition INSN_PREFIX_CS : Z := 0x0010.
Definition INSN_PREFIX_SS : Z := 0x0020.
Definition INSN_PREFIX_DS : Z := 0x0040.
Definition INSN_PREFIX_FS : Z := 0x0080.
Definition INSN_PREFIX_GS : Z := 0x0100.
Definition INSN_PREFIX_OPERAND_SIZE : Z := 0x0200.
Definition INSN_PREFIX_ADDRESS_SIZE : Z := 0x0400.

(** [x86_insn_gp_register_t] and [x86_ia32e_register_t], as far as used. *)
Definition X86_INSN_GP_REG_BX : Z := 3.
Definition X86_INSN_GP_REG_SP : Z := 4.
Definition X86_INSN_GP_REG_BP : Z := 5.
Definition X86_INSN_GP_REG_SI : Z := 6.
Definition RNone : Z := 0.
Definition RBP : Z := 7.
Definition R13 : Z := 14.
Definition RIP : Z := 17.

(** ** The decoded instruction *)

Record x86_insn_operand_t := Operand {
  op_reg : Z; mem_base : Z; mem_index : Z; mem_scale : Z; mem_disp : Z
}.

Record x86_insn_decode_t := Insn {
  flags : Z;
  length : Z;
  displacement_offset : Z;
  immediate_offset : Z;
  operands : list x86_insn_operand_t;
  prefix : Z;
  rex : Z;
  primary_opcode : Z;
  modrm : Z;
  sib : Z;
  immediate : Z;
  insn_spec : x86_insn_spec_t
}.

(** [memset(&insn, 0, sizeof(insn))]. *)
Definition zero_operand : x86_insn_operand_t := Operand 0 0 0 0 0.
Definition zero_insn : x86_insn_decode_t :=
  Insn 0 0 0 0 [zero_operand; zero_operand; zero_operand] 0 0 0 0 0 0 zero_spec.

Definition set_flags v '(Insn _ l d i o p r c m s n k) := Insn v l d i o p r c m s n k.
Definition set_length v '(Insn f _ d i o p r c m s n k) := Insn f v d i o p r c m s n k.
Definition set_displacement_offset v '(Insn f l _ i o p r c m s n k) := Insn f l v i o p r c m s n k.
Definition set_immediate_offset v '(Insn f l d _ o p r c m s n k) := Insn f l d v o p r c m s n k.
Definition set_operands v '(Insn f l d i _ p r c m s n k) := Insn f l d i v p r c m s n k.
Definition set_prefix v '(Insn f l d i o _ r c m s n k) := Insn f l d i o v r c m s n k.
Definition set_rex v '(Insn f l d i o p _ c m s n k) := Insn f l d i o p v c m s n k.
Definition set_opcode v w '(Insn f l d i o p r _ m s n _) := Insn f l d i o p r v m s n w.
Definition set_modrm v '(Insn f l d i o p r c _ s n k) := Insn f l d i o p r c v s n k.
Definition set_sib v '(Insn f l d i o p r c m _ n k) := Insn f l d i o p r c m v n k.
Definition set_immediate v '(Insn f l d i o p r c m s _ k) := Insn f l d i o p r c m s v k.

Definition or_flags v insn := set_flags (Z.lor (flags insn) v) insn.
Definition on_operand (i : nat) f insn := set_operands (alter f i (operands insn)) insn.
Definition set_reg v '(Operand _ b i s d) := Operand v b i s d.
Definition set_base v '(Operand r _ i s d) := Operand r v i s d.
Definition set_index v '(Operand r b _ s d) := Operand r b v s d.
Definition set_scale v '(Operand r b i _ d) := Operand r b i v d.
Definition set_disp v '(Operand r b i s _) := Operand r b i s v.
Definition base_of (i : nat) insn : Z := from_option mem_base 0 (operands insn !! i).

(** ** The reader *)

Record x86_insn_reader_t := Reader { rd_buffer : list byte; buffer_cursor : Z }.

(** [rd->prefix = rd->buffer]: the code is shorter than the buffer in the only
    call; for longer code the pointers would leave the buffer. *)
Definition init_reader (begin : list byte) (n : nat) : option x86_insn_reader_t :=
  if (n <? 20)%nat && (n <=? List.length begin)%nat then
    Some (Reader (take n begin ++ repeat 0xcc (20 - n)) 0)
  else None.

Definition reader_offset (rd : x86_insn_reader_t) : Z := buffer_cursor rd.
Definition advance (n : Z) '(Reader b c) := Reader b (c + n).

Definition bytes_at (rd : x86_insn_reader_t) (n : nat) : option (list byte) :=
  let bs := take n (drop (Z.to_nat (buffer_cursor rd)) (rd_buffer rd)) in
  if (List.length bs =? n)%nat then Some bs else None.

Definition peek_byte (rd : x86_insn_reader_t) : option Z :=
  rd_buffer rd !! Z.to_nat (buffer_cursor rd).
Definition read_byte (rd : x86_insn_reader_t) : option (Z * x86_insn_reader_t) :=
  p ← peek_byte rd; Some (p, advance 1 rd).
Definition read_word (rd : x86_insn_reader_t) : option (Z * x86_insn_reader_t) :=
  p ← bytes_at rd 2; Some (le_val p, advance 2 rd).
Definition read_dword (rd : x86_insn_reader_t) : option (Z * x86_insn_reader_t) :=
  p ← bytes_at rd 4; Some (le_val p, advance 4 rd).
(** The cursor moves by 4 only. *)
Definition read_qword (rd : x86_insn_reader_t) : option (Z * x86_insn_reader_t) :=
  p ← bytes_at rd 8; Some (le_val p, advance 4 rd).

(** ** Prefixes *)

Definition prefix_bit (c : Z) : Z :=
  if c =? 0xF0 then INSN_PREFIX_LOCK
  else if c =? 0xF2 then INSN_PREFIX_REPNE
  else if c =? 0xF3 then INSN_PREFIX_REPE
  else if c =? 0x2E then INSN_PREFIX_CS
  else if c =? 0x36 then INSN_PREFIX_SS
  else if c =? 0x3E then INSN_PREFIX_DS
  else if c =? 0x26 then INSN_PREFIX_ES
  else if c =? 0x64 then INSN_PREFIX_FS
  else if c =? 0x65 then INSN_PREFIX_GS
  else if c =? 0x66 then INSN_PREFIX_OPERAND_SIZE
  else if c =? 0x67 then INSN_PREFIX_ADDRESS_SIZE
  else 0.

(** [mode] is [conf->mode]. *)
Fixpoint x86_insn_decode_prefix (fuel : nat) (insn_prefix : Z) (rd : x86_insn_reader_t)
    (insn : x86_insn_decode_t) (mode : Z) : option (Z * x86_insn_reader_t * x86_insn_decode_t) :=
  match fuel with
  | O => None
  | S fuel =>
      c ← peek_byte rd;
      if (mode =? 64) && ((c >=? 0x40) && (c <=? 0x4f)) then
        '(r, rd) ← read_byte rd;
        let insn := if negb (REX_W r =? 0) then or_flags X86_INSN_DECODE_FLAG_OPERAND_SIZE_64 insn else insn in
        Some (insn_prefix, rd, set_rex r insn)
      else
        let t := prefix_bit c in
        if t =? 0 then Some (insn_prefix, rd, insn)
        else
          '(_, rd) ← read_byte rd;
          x86_insn_decode_prefix fuel (Z.lor insn_prefix t) rd insn mode
  end.

(** ** Operand letters *)

Definition is_code (cs : list ascii) (o : x86_insn_operand_spec_t) : bool :=
  existsb (Ascii.eqb (code o)) cs.

Definition x86_insn_has_modrm_byte (insn : x86_insn_spec_t) : bool :=
  existsb (is_code ["G"; "E"; "M"; "R"]%char) (spec_operands insn).

(** The loop runs over [sizeof(insn->operands)] = 6 entries of an array of 3:
    [None] is a read past it. *)
Fixpoint immediate_type_loop (ops : list x86_insn_operand_spec_t) : option ascii :=
  match ops with
  | o :: ops => if is_code ["J"; "I"; "O"]%char o then Some (type o) else immediate_type_loop ops
  | [] => None
  end.
Definition x86_insn_immediate_type (insn : x86_insn_spec_t) : option ascii :=
  immediate_type_loop (spec_operands insn).

Definition x86_insn_has_immediate (insn : x86_insn_spec_t) : bool :=
  existsb (is_code ["J"; "I"; "O"]%char) (spec_operands insn).

Definition x86_insn_decode_number (rd : x86_insn_reader_t) (number_bits : Z) :
    option (Z * x86_insn_reader_t) :=
  if number_bits =? 64 then '(d, rd) ← read_qword rd; Some (s64 d, rd)
  else if number_bits =? 32 then read_dword rd
  else if number_bits =? 16 then read_word rd
  else if number_bits =? 8 then read_byte rd
  else Some (0, rd).

(** ** ModR/M, SIB and displacement *)

(** The SIB byte: result is the reader, the instruction and [disp_bits]. *)
Definition decode_sib (rd : x86_insn_reader_t) (insn : x86_insn_decode_t)
    (mod_ disp_bits effective_address_bits : Z) : option (x86_insn_reader_t * x86_insn_decode_t * Z) :=
  '(s, rd) ← read_byte rd;
  let insn := set_sib s insn in
  let base := u8 (Z.lor (sib_base s) (Z.shiftl (REX_B (rex insn)) 3)) in
  let index := u8 (Z.lor (sib_index s) (Z.shiftl (REX_X (rex insn)) 3)) in
  let scale := u8 (Z.shiftl 1 (sib_log2_scale s)) in
  let insn := or_flags X86_INSN_DECODE_FLAG_HAS_BASE insn in
  let no_index := sib_index s =? X86_INSN_GP_REG_SP in
  let insn := if negb no_index then or_flags X86_INSN_DECODE_FLAG_HAS_INDEX insn else insn in
  let insn := on_operand 1 (set_scale scale) (on_operand 1 (set_index index) (on_operand 1 (set_base base) insn)) in
  let insn := if no_index then on_operand 1 (set_scale 0) (on_operand 1 (set_index RNone) insn) else insn in
  let '(insn, disp_bits) :=
    if effective_address_bits =? 64 then
      let '(insn, disp_bits) :=
        if (base_of 1 insn =? RBP) || (base_of 1 insn =? R13) then
          (if mod_ =? 0 then on_operand 1 (set_base RNone) insn else insn, if mod_ =? 1 then 8 else 32)
        else (insn, disp_bits) in
      (if negb no_index then or_flags X86_INSN_DECODE_FLAG_HAS_INDEX insn else insn, disp_bits)
    else (insn, disp_bits) in
  let '(insn, disp_bits) :=
    if effective_address_bits =? 32 then
      if base_of 1 insn =? RBP then
        (if mod_ =? 0 then on_operand 1 (set_base RNone) insn else insn, if mod_ =? 1 then 8 else 32)
      else (insn, disp_bits)
    else (insn, disp_bits) in
  Some (rd, insn, disp_bits).

(** 32- and 64-bit addressing. The RIP form replaces the flags. *)
Definition decode_address (rd : x86_insn_reader_t) (insn : x86_insn_decode_t)
    (mod_ rm effective_address_bits : Z) : option (x86_insn_reader_t * x86_insn_decode_t * Z) :=
  let insn := on_operand 1 (set_base rm) insn in
  let insn := or_flags X86_INSN_DECODE_FLAG_HAS_BASE insn in
  let '(insn, disp_bits) :=
    if (mod_ =? 0) && (Z.land rm 7 =? 5) then
      (on_operand 1 (set_base RIP) (set_flags X86_INSN_DECODE_FLAG_IP_RELATIVE insn), 32)
    else if mod_ =? 0 then (insn, 0)
    else if mod_ =? 1 then (insn, 8)
    else if mod_ =? 2 then (insn, 32)
    else (insn, 0) in
  if Z.land rm 7 =? 4 then decode_sib rd insn mod_ disp_bits effective_address_bits
  else Some (rd, insn, disp_bits).

(** 16-bit addressing; [disp_bits] comes in as [(uint8_t)-1]. *)
Definition decode_address16 (insn : x86_insn_decode_t) (m disp_bits : Z) : x86_insn_decode_t * Z :=
  let base_index :=
    Z.lor X86_INSN_DECODE_FLAG_HAS_BASE X86_INSN_DECODE_FLAG_HAS_INDEX in
  let si_di := X86_INSN_GP_REG_SI + Z.land (modrm_rm m) 1 in
  let set_b v insn := on_operand 1 (set_base v) insn in
  let set_i v insn := on_operand 1 (set_index v) insn in
  if modrm_mode m =? 3 then (insn, disp_bits)
  else if (modrm_mode m =? 0) && (modrm_rm m =? 6) then (insn, 16)
  else
    let rm := modrm_rm m in
    let insn :=
      if (rm =? 0) || (rm =? 1) then or_flags base_index (set_i si_di (set_b X86_INSN_GP_REG_BX insn))
      else if (rm =? 2) || (rm =? 3) then or_flags base_index (set_i si_di (set_b X86_INSN_GP_REG_BP insn))
      else if (rm =? 4) || (rm =? 5) then or_flags X86_INSN_DECODE_FLAG_HAS_BASE (set_b si_di insn)
      else if rm =? 6 then or_flags X86_INSN_DECODE_FLAG_HAS_BASE (set_b X86_INSN_GP_REG_BP insn)
      else or_flags X86_INSN_DECODE_FLAG_HAS_BASE (set_b X86_INSN_GP_REG_BX insn) in
    (insn, if negb (modrm_mode m =? 0) then (if modrm_mode m =? 1 then 8 else 16) else disp_bits).

Definition address_bits (insn : x86_insn_decode_t) (mode : Z) : option Z :=
  let has := negb (Z.land (prefix insn) INSN_PREFIX_ADDRESS_SIZE =? 0) in
  if mode =? 64 then Some (if has then 32 else 64)
  else if mode =? 32 then Some (if has then 16 else 32)
  else None.

(** The displacement, when the form has one. *)
Definition decode_disp (rd : x86_insn_reader_t) (insn : x86_insn_decode_t) (disp_bits : Z) :
    option (x86_insn_reader_t * x86_insn_decode_t) :=
  if negb (disp_bits =? 0) then
    let insn := set_displacement_offset (u8 (reader_offset rd)) insn in
    '(disp, rd) ← x86_insn_decode_number rd disp_bits;
    Some (rd, on_operand 1 (set_disp (u32 disp)) insn)
  else Some (rd, insn).

Definition x86_insn_decode_modrm_sib (rd : x86_insn_reader_t) (insn : x86_insn_decode_t) (mode : Z) :
    option (x86_insn_reader_t * x86_insn_decode_t) :=
  '(m, rd) ← read_byte rd;
  let insn := set_modrm m insn in
  let mod_ := modrm_mode m in
  let rm := u8 (Z.lor (Z.shiftl (REX_B (rex insn)) 3) (modrm_rm m)) in
  let reg := u8 (Z.lor (Z.shiftl (REX_R (rex insn)) 3) (modrm_reg m)) in
  let insn := on_operand 0 (set_reg reg) insn in
  if mod_ =? 3 then Some (rd, on_operand 1 (set_reg rm) insn)
  else
    let insn := or_flags X86_INSN_DECODE_FLAG_IS_ADDRESS insn in
    bits ← address_bits insn mode;
    '(rd, insn, disp_bits) ←
      (if (bits =? 32) || (bits =? 64) then decode_address rd insn mod_ rm bits
       else Some (rd, insn, u8 (-1)));
    let '(insn, disp_bits) :=
      if bits =? 16 then decode_address16 insn m disp_bits else (insn, disp_bits) in
    decode_disp rd insn disp_bits.

(** ** Opcode and immediate *)

(** A group entry gives the name and the flags; the operands stay those of the
    opcode map. *)
Definition x86_insn_decode_opcode (rd : x86_insn_reader_t) (insn : x86_insn_decode_t) :
    option (x86_insn_reader_t * x86_insn_decode_t) :=
  '(opcode, rd) ← read_byte rd;
  '(opcode, spec, rd) ←
    (if opcode =? 0x0f then
       '(opcode, rd) ← read_byte rd;
       spec ← x86_opcode_map_two_byte !! Z.to_nat opcode;
       Some (opcode, spec, rd)
     else
       spec ← x86_opcode_map_one_byte !! Z.to_nat opcode;
       Some (opcode, spec, rd));
  let group_ndx := X86_INSN_FLAG_GET_GROUP (spec_flags spec) in
  spec ←
    (if (group_ndx >? X86_INSN_GROUP_START) && (group_ndx <? X86_INSN_SSE_GROUP_START) then
       m ← peek_byte rd;
       group ← x86_insn_modrm_reg_groups !! Z.to_nat group_ndx;
       group_insn ← group !! Z.to_nat (modrm_reg m);
       Some (InsnSpec (spec_name group_insn) (spec_operands spec) (spec_flags group_insn))
     else Some spec);
  Some (rd, set_opcode opcode spec insn).

Definition x86_insn_imm_bits (insn : x86_insn_spec_t) (operand_bits : Z) : option Z :=
  t ← x86_insn_immediate_type insn;
  Some (match t with
        | "b"%char => 8
        | "w"%char => 16
        | "d"%char => 32
        | "q"%char => 64
        | "z"%char => if operand_bits =? 64 then 32 else operand_bits
        | "v"%char => operand_bits
        | _ => 0
        end).

Definition effective_operand_bits (insn : x86_insn_decode_t) (mode : Z) : Z :=
  let bits := if negb (Z.land (prefix insn) INSN_PREFIX_OPERAND_SIZE =? 0) then 16 else 32 in
  let bits := if negb (Z.land (flags insn) X86_INSN_DECODE_FLAG_OPERAND_SIZE_64 =? 0) then 64 else bits in
  if (mode =? 64) && negb (Z.land (spec_flags (insn_spec insn)) X86_INSN_SPEC_DEFAULT_64_BIT =? 0) then 64
  else bits.

Definition x86_insn_decode_immediate (rd : x86_insn_reader_t) (insn : x86_insn_decode_t) (mode : Z) :
    option (x86_insn_reader_t * x86_insn_decode_t) :=
  imm_bits ← x86_insn_imm_bits (insn_spec insn) (effective_operand_bits insn mode);
  if imm_bits =? 0 then Some (rd, insn)
  else
    let insn := set_immediate_offset (u8 (reader_offset rd)) insn in
    '(v, rd) ← x86_insn_decode_number rd imm_bits;
    Some (rd, set_immediate v insn).

(** ** The decoder *)

Definition code_window : nat := 15.
Definition prefix_fuel : nat := 16.

Definition x86_insn_decode (insn : x86_insn_decode_t) (code : list byte) (mode : Z) :
    option x86_insn_decode_t :=
  rd ← init_reader code code_window;
  '(p, rd, insn) ← x86_insn_decode_prefix prefix_fuel 0 rd insn mode;
  let insn := set_prefix p insn in
  '(rd, insn) ← x86_insn_decode_opcode rd insn;
  '(rd, insn) ← (if x86_insn_has_modrm_byte (insn_spec insn)
                 then x86_insn_decode_modrm_sib rd insn mode else Some (rd, insn));
  '(rd, insn) ← (if x86_insn_has_immediate (insn_spec insn)
                 then x86_insn_decode_immediate rd insn mode else Some (rd, insn));
  Some (set_length (buffer_cursor rd) insn).
