(* ===== verification/X86Spec.v ===== *)
(** The x86 decoder: reads stay in the buffer, prefixes, operand letters, and the
    architecture's instruction format ([sdm_*], after the Intel manual's opcode
    maps and addressing-form tables) it is compared with. *)
From Stdlib Require Import String Ascii.
From S2P Require Import Prelude X86Tables X86Insn.

(** ** The reader *)

(** A reader with [n] more bytes in its buffer. *)
Definition room (n : Z) (rd : x86_insn_reader_t) : Prop :=
  List.length (rd_buffer rd) = 20%nat /\ Forall is_byte (rd_buffer rd) /\
  0 <= buffer_cursor rd /\ buffer_cursor rd + n <= 20.

(** [rd'] is [rd] moved by at most [n]. *)
Definition moved (n : Z) (rd rd' : x86_insn_reader_t) : Prop :=
  rd_buffer rd' = rd_buffer rd /\ buffer_cursor rd <= buffer_cursor rd' <= buffer_cursor rd + n.

Lemma room_moved n k rd rd' : room n rd -> moved k rd rd' -> room (n - k) rd'.
Proof. intros (L & F & C & N) (E & C'). split_and!; rewrite ?E; try assumption; lia. Qed.

Lemma moved_trans n k a b c : moved n a b -> moved k b c -> moved (n + k) a c.
Proof. intros (E & C) (E' & C'). split; [congruence|lia]. Qed.

Lemma moved_refl n rd : 0 <= n -> moved n rd rd.
Proof. split; [reflexivity|lia]. Qed.

Lemma peek_byte_room rd : room 1 rd -> exists b, peek_byte rd = Some b /\ is_byte b.
Proof.
  intros (L & F & C & N). unfold peek_byte.
  destruct (lookup_lt_is_Some_2 (rd_buffer rd) (Z.to_nat (buffer_cursor rd))) as [b Hb]; [lia|].
  exists b. split; [assumption|]. by apply (Forall_lookup_1 _ _ _ _ F Hb).
Qed.

Lemma advance_moved n rd : 0 <= n -> moved n rd (advance n rd).
Proof. destruct rd. intros. split; cbn; [reflexivity|lia]. Qed.

Lemma read_byte_room rd : room 1 rd ->
  exists b, read_byte rd = Some (b, advance 1 rd) /\ is_byte b.
Proof. intros H. destruct (peek_byte_room rd H) as (b & E & Hb). exists b. unfold read_byte. by rewrite E. Qed.

Lemma bytes_at_room rd n : room (Z.of_nat n) rd -> exists bs, bytes_at rd n = Some bs.
Proof.
  intros (L & F & C & N). unfold bytes_at.
  rewrite length_take, length_drop, (proj2 (Nat.eqb_eq _ _)) by lia. eauto.
Qed.

(** A number needs at most 8 bytes and moves the reader by at most 4. *)
Definition number_room (bits : Z) : Z := if bits =? 64 then 8 else 4.

Lemma decode_number_room rd bits : room (number_room bits) rd ->
  exists v rd', x86_insn_decode_number rd bits = Some (v, rd') /\ moved 4 rd rd'.
Proof.
  intros R. unfold x86_insn_decode_number, number_room in *.
  assert (S : forall k : nat, (k <= 4)%nat -> room (Z.of_nat k) rd).
  { destruct R as (? & ? & ? & ?). intros k Hk. split_and!; try assumption.
    destruct (bits =? 64); lia. }
  destruct (bits =? 64).
  - unfold read_qword. destruct (bytes_at_room rd 8 R) as [bs ->]. cbn.
    eexists _, _. split; [reflexivity|]. apply (advance_moved 4); lia.
  - destruct (bits =? 32); [|destruct (bits =? 16); [|destruct (bits =? 8)]].
    + unfold read_dword. destruct (bytes_at_room rd 4 (S 4%nat ltac:(lia))) as [bs ->]. cbn.
      eexists _, _. split; [reflexivity|]. apply (advance_moved 4); lia.
    + unfold read_word. destruct (bytes_at_room rd 2 (S 2%nat ltac:(lia))) as [bs ->]. cbn.
      eexists _, _. split; [reflexivity|]. destruct rd; split; cbn; [reflexivity|lia].
    + destruct (read_byte_room rd (S 1%nat ltac:(lia))) as (b & -> & _).
      eexists _, _. split; [reflexivity|]. destruct rd; split; cbn; [reflexivity|lia].
    + eexists _, _. split; [reflexivity|]. apply moved_refl. lia.
Qed.

(** ** Prefixes *)

Definition is_prefix (c : Z) : bool := negb (prefix_bit c =? 0).
Definition is_rex (mode c : Z) : bool := (mode =? 64) && ((c >=? 0x40) && (c <=? 0x4f)).

Lemma prefix_not_rex mode c : is_prefix c = true -> is_rex mode c = false.
Proof.
  unfold is_prefix, is_rex, prefix_bit. intros H. apply andb_false_iff. right. apply andb_false_iff.
  rewrite Z.geb_leb, !Z.leb_gt.
  repeat (case_match eqn:E; [apply Z.eqb_eq in E; lia|clear E]). discriminate.
Qed.

(** The legacy prefixes in front of the instruction. *)
Fixpoint legacy_prefixes (code : list byte) : list byte :=
  match code with
  | c :: code => if is_prefix c then c :: legacy_prefixes code else []
  | [] => []
  end.
Definition prefixes_word (ps : list byte) : Z := fold_left (fun w c => Z.lor w (prefix_bit c)) ps 0.

(** Whatever comes after the prefixes of a reader at [c] with [d] in front. *)
Definition prefix_result mode (p : Z) (b : byte) buf c insn :
    Z * x86_insn_reader_t * x86_insn_decode_t :=
  if is_rex mode b then
    (p, Reader buf (c + 1),
     set_rex b (if negb (REX_W b =? 0) then or_flags X86_INSN_DECODE_FLAG_OPERAND_SIZE_64 insn else insn))
  else (p, Reader buf c, insn).

Lemma decode_prefix_spec ps : forall fuel p buf c insn mode b,
  forallb is_prefix ps = true -> is_prefix b = false ->
  (List.length ps < fuel)%nat -> 0 <= c ->
  take (S (List.length ps)) (drop (Z.to_nat c) buf) = ps ++ [b] ->
  x86_insn_decode_prefix fuel p (Reader buf c) insn mode =
  Some (prefix_result mode (fold_left (fun w c => Z.lor w (prefix_bit c)) ps p) b buf
          (c + Z.of_nat (List.length ps)) insn).
Proof.
  induction ps as [|q ps IH]; intros fuel p buf c insn mode b Hps Hb Hf Hc E;
    (destruct fuel as [|fuel]; [lia|]); cbn [x86_insn_decode_prefix].
  - assert (P : peek_byte (Reader buf c) = Some b).
    { unfold peek_byte. cbn [rd_buffer buffer_cursor].
      rewrite <- (Nat.add_0_r (Z.to_nat c)), <- lookup_drop. cbn in E. revert E.
      destruct (drop (Z.to_nat c) buf); intros E; inversion E; reflexivity. }
    rewrite P. cbn [mbind option_bind]. unfold prefix_result. fold (is_rex mode b). cbn [fold_left].
    rewrite Z.add_0_r. destruct (is_rex mode b).
    + unfold read_byte. rewrite P. reflexivity.
    + cbv zeta. unfold is_prefix in Hb. apply negb_false_iff in Hb. by rewrite Hb.
  - cbn [forallb] in Hps. apply andb_true_iff in Hps as [Hq Hps].
    assert (D : exists r, drop (Z.to_nat c) buf = q :: r /\ take (S (List.length ps)) r = ps ++ [b]).
    { cbn in E. destruct (drop (Z.to_nat c) buf) as [|x r] eqn:Ed; inversion E; subst. eauto. }
    destruct D as (r & Dr & Er).
    assert (P : peek_byte (Reader buf c) = Some q).
    { unfold peek_byte. cbn [rd_buffer buffer_cursor].
      by rewrite <- (Nat.add_0_r (Z.to_nat c)), <- lookup_drop, Dr. }
    rewrite P. cbn [mbind option_bind]. fold (is_rex mode q). rewrite (prefix_not_rex mode q Hq).
    cbv zeta. pose proof Hq as Hq'. unfold is_prefix in Hq'. apply negb_true_iff in Hq'. rewrite Hq'.
    unfold read_byte. rewrite P. cbn [mbind option_bind advance].
    rewrite (IH fuel _ buf (c + 1) insn mode b Hps Hb); [|cbn in Hf; lia|lia|].
    + cbn [fold_left List.length]. do 2 f_equal. lia.
    + replace (Z.to_nat (c + 1)) with (Z.to_nat c + 1)%nat by lia. by rewrite <- drop_drop, Dr.
Qed.

(** ** Opcodes *)

(** Immediates are byte, word, [z] or [v], and a [v] one comes without ModR/M. *)
Definition letters_ok (spec : x86_insn_spec_t) : bool :=
  match x86_insn_immediate_type spec with
  | Some "v"%char => negb (x86_insn_has_modrm_byte spec)
  | Some t => existsb (Ascii.eqb t) ["b"; "w"; "z"]%char
  | None => true
  end.

Lemma one_byte_letters : forallb letters_ok x86_opcode_map_one_byte = true.
Proof. vm_compute. reflexivity. Qed.
Lemma two_byte_letters : forallb letters_ok x86_opcode_map_two_byte = true.
Proof. vm_compute. reflexivity. Qed.
Lemma groups_shape :
  (List.length x86_insn_modrm_reg_groups =? 19)%nat &&
  forallb (fun g => List.length g =? 8)%nat x86_insn_modrm_reg_groups = true.
Proof. vm_compute. reflexivity. Qed.

Lemma map_entry l b : List.length l = 256%nat -> forallb letters_ok l = true -> is_byte b ->
  exists spec, l !! Z.to_nat b = Some spec /\ letters_ok spec = true.
Proof.
  intros L F [H1 H2]. destruct (lookup_lt_is_Some_2 l (Z.to_nat b)) as [spec E].
  { rewrite L. apply Nat2Z.inj_lt. rewrite Z2Nat.id by assumption. apply H2. }
  exists spec. split; [assumption|]. rewrite forallb_forall in F. apply F.
  apply list_elem_of_In. by eapply list_elem_of_lookup_2.
Qed.

Lemma modrm_reg_range m : 0 <= modrm_reg m < 8.
Proof. unfold modrm_reg. change 7 with (Z.ones 3). rewrite Z.land_ones by lia. apply Z.mod_pos_bound. lia. Qed.

Lemma group_entry g m : 0 <= g < 19 ->
  exists row e, x86_insn_modrm_reg_groups !! Z.to_nat g = Some row /\ row !! Z.to_nat (modrm_reg m) = Some e.
Proof.
  intros Hg. pose proof groups_shape as S. apply andb_true_iff in S as [L F]. apply Nat.eqb_eq in L.
  destruct (lookup_lt_is_Some_2 x86_insn_modrm_reg_groups (Z.to_nat g)) as [row E]; [rewrite L; lia|].
  rewrite forallb_forall in F. assert (R : List.length row = 8%nat).
  { apply Nat.eqb_eq, F, list_elem_of_In. by eapply list_elem_of_lookup_2. }
  pose proof (modrm_reg_range m).
  destruct (lookup_lt_is_Some_2 row (Z.to_nat (modrm_reg m))) as [e E2]; [rewrite R; lia|]. eauto.
Qed.

Lemma decode_opcode_room rd insn : room 3 rd ->
  exists rd' opcode spec, x86_insn_decode_opcode rd insn = Some (rd', set_opcode opcode spec insn) /\
    moved 2 rd rd' /\ buffer_cursor rd < buffer_cursor rd' /\ letters_ok spec = true.
Proof.
  intros R. unfold x86_insn_decode_opcode.
  pose proof (advance_moved 1 rd ltac:(lia)) as M1. pose proof (room_moved _ _ _ _ R M1) as R1.
  destruct (read_byte_room rd) as (b & -> & Hb). { by apply (room_moved 3 2 rd rd R), moved_refl. }
  cbn [mbind option_bind].
  assert (Inner : exists opcode spec rd',
    (if b =? 0x0f then
       '(opcode, rd) ← read_byte (advance 1 rd);
       spec ← x86_opcode_map_two_byte !! Z.to_nat opcode;
       Some (opcode, spec, rd)
     else
       spec ← x86_opcode_map_one_byte !! Z.to_nat b;
       Some (b, spec, advance 1 rd)) = Some (opcode, spec, rd') /\
    moved 2 rd rd' /\ buffer_cursor rd < buffer_cursor rd' /\ letters_ok spec = true).
  { destruct (b =? 0x0f).
    - destruct (read_byte_room (advance 1 rd)) as (b2 & -> & Hb2).
      { destruct R1 as (?&?&?&?). split_and!; (assumption || lia). }
      cbn [mbind option_bind]. destruct (map_entry _ b2 two_byte_length two_byte_letters Hb2) as (spec & -> & Ok).
      eexists _, _, _. split; [reflexivity|]. destruct rd; split_and!; try assumption; [split|]; cbn; (reflexivity || lia).
    - destruct (map_entry _ b one_byte_length one_byte_letters Hb) as (spec & -> & Ok).
      eexists _, _, _. split; [reflexivity|]. destruct rd; split_and!; try assumption; [split|]; cbn; (reflexivity || lia). }
  destruct Inner as (opcode & spec & rd' & -> & M & Lt & Ok). cbn [mbind option_bind]. cbv zeta.
  destruct ((X86_INSN_FLAG_GET_GROUP (spec_flags spec) >? X86_INSN_GROUP_START) &&
            (X86_INSN_FLAG_GET_GROUP (spec_flags spec) <? X86_INSN_SSE_GROUP_START)) eqn:G.
  - apply andb_true_iff in G as [G1 G2]. rewrite Z.gtb_ltb in G1. apply Z.ltb_lt in G1, G2.
    unfold X86_INSN_GROUP_START, X86_INSN_SSE_GROUP_START in *.
    destruct (peek_byte_room rd') as (m & -> & _). { by apply (room_moved 3 2 rd). }
    cbn [mbind option_bind].
    destruct (group_entry (X86_INSN_FLAG_GET_GROUP (spec_flags spec)) m) as (row & e & -> & E2); [lia|].
    cbn [mbind option_bind]. rewrite E2. cbn [mbind option_bind].
    eexists _, _, _. split; [reflexivity|]. by split_and!.
  - cbn [mbind option_bind]. eexists _, _, _. split; [reflexivity|]. by split_and!.
Qed.

(** ** ModR/M *)

Lemma on_operand_spec i f insn : insn_spec (on_operand i f insn) = insn_spec insn.
Proof. by destruct insn. Qed.
Lemma or_flags_spec f insn : insn_spec (or_flags f insn) = insn_spec insn.
Proof. by destruct insn. Qed.
Lemma set_flags_spec f insn : insn_spec (set_flags f insn) = insn_spec insn.
Proof. by destruct insn. Qed.
Lemma set_sib_spec f insn : insn_spec (set_sib f insn) = insn_spec insn.
Proof. by destruct insn. Qed.
Lemma set_modrm_spec f insn : insn_spec (set_modrm f insn) = insn_spec insn.
Proof. by destruct insn. Qed.
Lemma set_displacement_offset_spec f insn : insn_spec (set_displacement_offset f insn) = insn_spec insn.
Proof. by destruct insn. Qed.
Create Rewrite HintDb x86.
#[export] Hint Rewrite on_operand_spec or_flags_spec set_flags_spec set_sib_spec set_modrm_spec
  set_displacement_offset_spec : x86.

(** Close [insn_spec (..) = insn_spec insn] through the branches. *)
Ltac same_spec := repeat case_match; simplify_eq; autorewrite with x86; reflexivity.

Lemma decode_sib_room rd insn m d bits : room 1 rd ->
  exists rd' insn' d', decode_sib rd insn m d bits = Some (rd', insn', d') /\
    moved 1 rd rd' /\ insn_spec insn' = insn_spec insn /\ (d' = d \/ d' = 8 \/ d' = 32).
Proof.
  intros R. unfold decode_sib. destruct (read_byte_room rd R) as (s & -> & _). cbn [mbind option_bind].
  match goal with |- context [if bits =? 64 then ?a else ?b] => destruct (if bits =? 64 then a else b) as [i1 d1] eqn:E1 end.
  match goal with |- context [if bits =? 32 then ?a else ?b] => destruct (if bits =? 32 then a else b) as [i2 d2] eqn:E2 end.
  exists (advance 1 rd), i2, d2. split; [reflexivity|]. split; [apply advance_moved; lia|].
  assert (S1 : insn_spec i1 = insn_spec insn /\ (d1 = d \/ d1 = 8 \/ d1 = 32)).
  { repeat case_match; simplify_eq; autorewrite with x86; auto. }
  destruct S1 as [S1 D1].
  repeat case_match; simplify_eq; autorewrite with x86; auto.
Qed.

Lemma decode_modrm_room rd insn mode : room 6 rd -> mode = 64 \/ mode = 32 ->
  exists rd' insn', x86_insn_decode_modrm_sib rd insn mode = Some (rd', insn') /\
    moved 6 rd rd' /\ insn_spec insn' = insn_spec insn.
Proof.
  intros R Hm. unfold x86_insn_decode_modrm_sib.
  destruct (read_byte_room rd) as (m & -> & _). { by apply (room_moved 6 5 rd rd R), moved_refl. }
  pose proof (advance_moved 1 rd ltac:(lia)) as M1. pose proof (room_moved _ _ _ _ R M1) as R1.
  cbn [mbind option_bind]. cbv zeta.
  match goal with |- context [on_operand 0 ?f ?i] => remember (on_operand 0 f i) as i0 eqn:E0 end.
  assert (S0 : insn_spec i0 = insn_spec insn) by (subst i0; autorewrite with x86; reflexivity). clear E0.
  destruct (modrm_mode m =? 3).
  { eexists _, _. split; [reflexivity|]. autorewrite with x86. destruct M1. split_and!; [split; [assumption|lia]|assumption]. }
  assert (Ab : exists bits, address_bits (or_flags X86_INSN_DECODE_FLAG_IS_ADDRESS i0) mode = Some bits).
  { unfold address_bits. destruct Hm as [-> | ->]; cbn; eauto. }
  destruct Ab as [bits ->]. cbn [mbind option_bind].
  match goal with |- context [mbind _ (if _ then decode_address ?r ?i ?a ?b ?c else ?e)] =>
    assert (A : exists rd2 i2 d2, (if (bits =? 32) || (bits =? 64) then decode_address r i a b c else e) = Some (rd2, i2, d2) /\
      moved 1 r rd2 /\ insn_spec i2 = insn_spec insn /\ d2 <> 64) end.
  { destruct ((bits =? 32) || (bits =? 64)).
    - unfold decode_address. cbv zeta.
      match goal with |- context [if (modrm_mode m =? 0) && ?c then ?x else ?y] =>
        destruct (if (modrm_mode m =? 0) && c then x else y) as [i1 d1] eqn:E1 end.
      assert (S1 : insn_spec i1 = insn_spec insn /\ d1 <> 64).
      { repeat case_match; simplify_eq; autorewrite with x86; (split; [assumption|discriminate]). }
      destruct S1 as [S1 D1]. destruct (_ =? 4).
      + destruct (decode_sib_room (advance 1 rd) i1 (modrm_mode m) d1 bits) as (rd2 & i2 & d2 & -> & M2 & S2 & D2).
        { destruct R1 as (?&?&?&?). split_and!; (assumption || lia). }
        exists rd2, i2, d2. split; [reflexivity|]. split; [assumption|]. split; [congruence|].
        destruct D2 as [-> | [-> | ->]]; [assumption|discriminate|discriminate].
      + exists (advance 1 rd), i1, d1. split; [reflexivity|]. split; [apply moved_refl; lia|]. by split.
    - eexists _, _, _. split; [reflexivity|]. split; [apply moved_refl; lia|]. autorewrite with x86.
      split; [assumption|]. discriminate. }
  destruct A as (rd2 & i2 & d2 & -> & M2 & S2 & D2). cbn [mbind option_bind].
  match goal with |- context [if bits =? 16 then ?a else ?b] => destruct (if bits =? 16 then a else b) as [i3 d3] eqn:E3 end.
  assert (S3 : insn_spec i3 = insn_spec insn /\ d3 <> 64).
  { unfold decode_address16 in E3. cbv zeta in E3.
    repeat case_match; simplify_eq; autorewrite with x86; (split; [assumption|first [assumption|discriminate]]). }
  destruct S3 as [S3 D3].
  pose proof (moved_trans _ _ _ _ _ M1 M2) as M12.
  unfold decode_disp. destruct (negb (d3 =? 0)).
  - destruct (decode_number_room rd2 d3) as (v & rd3 & -> & M3).
    { unfold number_room. rewrite (proj2 (Z.eqb_neq d3 64) D3). apply (room_moved 6 2 rd); assumption. }
    cbn [mbind option_bind]. eexists _, _. split; [reflexivity|]. autorewrite with x86.
    split; [|assumption]. apply (moved_trans 2 4 rd rd2); assumption.
  - eexists _, _. split; [reflexivity|]. split; [|assumption]. destruct M12. split; [assumption|lia].
Qed.

(** ** Immediates and the whole instruction *)

Lemma imm_bits_some spec o : x86_insn_has_immediate spec = true ->
  exists bits, x86_insn_imm_bits spec o = Some bits.
Proof.
  unfold x86_insn_has_immediate, x86_insn_imm_bits, x86_insn_immediate_type.
  induction (spec_operands spec) as [|p ps IH]; cbn [existsb immediate_type_loop]; [discriminate|].
  destruct (is_code _ p); [cbn [mbind option_bind]; eauto|exact IH].
Qed.

(** Only a [v] immediate is ever 64 bits wide. *)
Lemma imm_bits_64 spec o bits : letters_ok spec = true -> o <> 64 \/ x86_insn_has_modrm_byte spec = true ->
  x86_insn_imm_bits spec o = Some bits -> bits <> 64.
Proof.
  unfold letters_ok, x86_insn_imm_bits. destruct (x86_insn_immediate_type spec) as [t|]; [|discriminate].
  cbn [mbind option_bind]. intros L O E.
  destruct (Ascii.eqb_spec t "v"%char) as [->|Nv].
  { destruct O as [O|O]; [injection E as <-; exact O|]. rewrite O in L. discriminate. }
  destruct (Ascii.eqb_spec t "b"%char) as [->|Nb]; [injection E as <-; discriminate|].
  destruct (Ascii.eqb_spec t "w"%char) as [->|Nw]; [injection E as <-; discriminate|].
  destruct (Ascii.eqb_spec t "z"%char) as [->|Nz].
  { injection E as <-. destruct (Z.eqb_spec o 64); [discriminate|assumption]. }
  exfalso. revert L. apply not_true_iff_false.
  repeat (case_match; try reflexivity); simplify_eq; cbn [existsb];
    rewrite ?(proj2 (Ascii.eqb_neq _ _) Nb), ?(proj2 (Ascii.eqb_neq _ _) Nw), ?(proj2 (Ascii.eqb_neq _ _) Nz); reflexivity.
Qed.

Lemma decode_immediate_room rd insn mode :
  letters_ok (insn_spec insn) = true -> x86_insn_has_immediate (insn_spec insn) = true ->
  room (if x86_insn_has_modrm_byte (insn_spec insn) then 4 else 8) rd ->
  exists rd' insn', x86_insn_decode_immediate rd insn mode = Some (rd', insn') /\ moved 4 rd rd'.
Proof.
  intros L I R. unfold x86_insn_decode_immediate.
  destruct (imm_bits_some (insn_spec insn) (effective_operand_bits insn mode) I) as [bits E]. rewrite E.
  cbn [mbind option_bind].
  destruct (bits =? 0). { eexists _, _. split; [reflexivity|]. apply moved_refl. lia. }
  destruct (decode_number_room rd bits) as (v & rd' & -> & M).
  - unfold number_room. destruct (x86_insn_has_modrm_byte (insn_spec insn)) eqn:Hm.
    + rewrite (proj2 (Z.eqb_neq bits 64)); [assumption|].
      by apply (imm_bits_64 _ _ _ L (or_intror Hm) E).
    + destruct R as (?&?&?&?). split_and!; try assumption. destruct (bits =? 64); lia.
  - cbn [mbind option_bind]. eauto.
Qed.

Lemma legacy_prefixes_split code : exists rest, code = legacy_prefixes code ++ rest /\
  forallb is_prefix (legacy_prefixes code) = true /\ (forall b r, rest = b :: r -> is_prefix b = false).
Proof.
  induction code as [|c code IH]; cbn [legacy_prefixes].
  - exists []. split_and!; [reflexivity|reflexivity|discriminate].
  - destruct (is_prefix c) eqn:E.
    + destruct IH as (rest & Ec & F & N). exists rest. cbn [app forallb]. rewrite E.
      split_and!; [f_equal; exact Ec|exact F|exact N].
    + exists (c :: code). split_and!; [reflexivity|reflexivity|]. intros b r [= <- <-]. exact E.
Qed.

(** The buffer of 15 bytes of code. *)
Definition window (code : list byte) : list byte := take 15 code ++ repeat 0xcc 5.

Lemma window_length code : (15 <= List.length code)%nat -> List.length (window code) = 20%nat.
Proof. intros. unfold window. rewrite length_app, length_take, repeat_length. lia. Qed.

Lemma init_reader_window code : (15 <= List.length code)%nat ->
  init_reader code code_window = Some (Reader (window code) 0).
Proof.
  intros L. unfold init_reader, code_window. rewrite (proj2 (Nat.leb_le 15 _) L). reflexivity.
Qed.

Lemma window_prefixes code : (15 <= List.length code)%nat ->
  exists b r, window code = legacy_prefixes (window code) ++ b :: r /\
    forallb is_prefix (legacy_prefixes (window code)) = true /\ is_prefix b = false /\
    (List.length (legacy_prefixes (window code)) <= 15)%nat.
Proof.
  intros L. destruct (legacy_prefixes_split (window code)) as (rest & E & F & N).
  assert (B : (List.length (legacy_prefixes (window code)) <= 15)%nat).
  { clear E F N rest. unfold window.
    assert (G : forall l : list byte, (List.length (legacy_prefixes (l ++ repeat (0xcc : byte) 5)) <= List.length l)%nat).
    { induction l as [|c l IH]; cbn [app legacy_prefixes].
      - reflexivity.
      - destruct (is_prefix c); cbn [List.length]; lia. }
    etransitivity; [apply G|]. rewrite length_take. lia. }
  destruct rest as [|b r].
  - exfalso. pose proof (window_length code L) as W. rewrite E, app_nil_r in W. lia.
  - exists b, r. split_and!; try assumption. by apply (N b r).
Qed.

Lemma window_bytes code : Forall is_byte code -> Forall is_byte (window code).
Proof.
  intros F. unfold window. apply Forall_app. split; [by apply Forall_take|].
  repeat constructor; unfold is_byte; discriminate.
Qed.

Lemma decode_total code mode : mode = 64 \/ mode = 32 -> Forall is_byte code -> (15 <= List.length code)%nat ->
  (List.length (legacy_prefixes (window code)) <= 7)%nat ->
  exists insn, x86_insn_decode zero_insn code mode = Some insn /\
    Z.of_nat (List.length (legacy_prefixes (window code))) < length insn <=
    Z.of_nat (List.length (legacy_prefixes (window code))) + 13.
Proof.
  intros Hm F L P. destruct (window_prefixes code L) as (b & r & W & Ps & Hb & _).
  set (ps := legacy_prefixes (window code)) in *. clearbody ps.
  unfold x86_insn_decode. rewrite (init_reader_window code L). cbn [mbind option_bind].
  rewrite (decode_prefix_spec ps prefix_fuel 0 (window code) 0 zero_insn mode b Ps Hb);
    [|unfold prefix_fuel; lia|lia|].
  2:{ rewrite W. cbn [Z.to_nat drop]. rewrite (app_assoc _ [b] r : ps ++ b :: r = (ps ++ [b]) ++ r).
      apply take_app_length'. rewrite length_app. cbn. lia. }
  cbn [mbind option_bind].
  set (n := Z.of_nat (List.length ps)) in *.
  assert (Q : exists p rd insn, prefix_result mode
     (fold_left (fun w c => Z.lor w (prefix_bit c)) ps 0) b (window code) (0 + n) zero_insn = (p, rd, insn) /\
     room 12 rd /\ n <= buffer_cursor rd <= n + 1).
  { unfold prefix_result. destruct (is_rex mode b); (eexists _, _, _; split; [reflexivity|]);
      (split; [split_and!|]); cbn [rd_buffer buffer_cursor]; try (by apply window_length || by apply window_bytes);
      subst n; lia. }
  destruct Q as (p & rd & insn & -> & R & C).
  destruct (decode_opcode_room rd (set_prefix p insn)) as (rd1 & opcode & spec & -> & M1 & Lt & Ok).
  { destruct R as (?&?&?&?). split_and!; (assumption || lia). }
  cbn [mbind option_bind].
  assert (S1 : insn_spec (set_opcode opcode spec (set_prefix p insn)) = spec) by (by destruct insn).
  set (insn1 := set_opcode opcode spec (set_prefix p insn)) in *. clearbody insn1.
  pose proof (room_moved _ _ _ _ R M1) as R1.
  assert (A : exists rd2 insn2, (if x86_insn_has_modrm_byte (insn_spec insn1)
     then x86_insn_decode_modrm_sib rd1 insn1 mode else Some (rd1, insn1)) = Some (rd2, insn2) /\
     moved (if x86_insn_has_modrm_byte spec then 6 else 0) rd1 rd2 /\ insn_spec insn2 = spec).
  { rewrite S1. destruct (x86_insn_has_modrm_byte spec).
    - destruct (decode_modrm_room rd1 insn1 mode) as (rd2 & insn2 & -> & M2 & S2); [|assumption|].
      + destruct R1 as (?&?&?&?). split_and!; (assumption || lia).
      + exists rd2, insn2. split_and!; [reflexivity|assumption|congruence].
    - exists rd1, insn1. split_and!; [reflexivity|apply moved_refl; lia|assumption]. }
  destruct A as (rd2 & insn2 & -> & M2 & S2). cbn [mbind option_bind]. rewrite S2.
  pose proof (room_moved _ _ _ _ R1 M2) as R2.
  assert (B : exists rd3 insn3, (if x86_insn_has_immediate spec
     then x86_insn_decode_immediate rd2 insn2 mode else Some (rd2, insn2)) = Some (rd3, insn3) /\ moved 4 rd2 rd3).
  { destruct (x86_insn_has_immediate spec) eqn:I.
    - destruct (decode_immediate_room rd2 insn2 mode) as (rd3 & insn3 & -> & M3); rewrite ?S2; try assumption.
      + destruct (x86_insn_has_modrm_byte spec); destruct R2 as (?&?&?&?); (split_and!; (assumption || lia)).
      + eauto.
    - eexists _, _. split; [reflexivity|]. apply moved_refl. lia. }
  destruct B as (rd3 & insn3 & -> & M3). cbn [mbind option_bind].
  eexists. split; [reflexivity|]. replace (length (set_length (buffer_cursor rd3) insn3)) with (buffer_cursor rd3) by (by destruct insn3).
  destruct M1, M2, M3. destruct (x86_insn_has_modrm_byte spec); lia.
Qed.

(** ** Addressing forms

    What follows a ModR/M byte, as the manual has it ([sdm_tail]) and as the
    decoder consumes it ([code_tail]), in bytes. *)
Definition sdm_disp (mod_ rm base : Z) : Z :=
  if mod_ =? 1 then 1
  else if mod_ =? 2 then 4
  else if (mod_ =? 0) && ((rm =? 5) || ((rm =? 4) && (base =? 5))) then 4
  else 0.
Definition sdm_tail (m s : Z) : Z :=
  if modrm_mode m =? 3 then 0
  else (if modrm_rm m =? 4 then 1 else 0) + sdm_disp (modrm_mode m) (modrm_rm m) (sib_base s).

(** The base the decoder tests, with REX.B above the SIB bits. *)
Definition full_base (s r : Z) : Z := u8 (Z.lor (sib_base s) (Z.shiftl (REX_B r) 3)).
Definition code_tail (m s r : Z) : Z :=
  let by_mod := if modrm_mode m =? 0 then 0 else if modrm_mode m =? 1 then 1 else 4 in
  if modrm_mode m =? 3 then 0
  else if modrm_rm m =? 4 then
    1 + (if (full_base s r =? RBP) || (full_base s r =? R13) then (if modrm_mode m =? 1 then 1 else 4) else by_mod)
  else if (modrm_mode m =? 0) && (modrm_rm m =? 5) then 4
  else by_mod.

(** The bytes a number moves the reader by. *)
Definition number_bytes (bits : Z) : Z :=
  if bits =? 64 then 4 else if bits =? 32 then 4 else if bits =? 16 then 2 else if bits =? 8 then 1 else 0.

Lemma advance_cursor n rd : buffer_cursor (advance n rd) = buffer_cursor rd + n.
Proof. by destruct rd. Qed.

Lemma decode_number_cursor rd bits v rd' : x86_insn_decode_number rd bits = Some (v, rd') ->
  buffer_cursor rd' = buffer_cursor rd + number_bytes bits.
Proof.
  unfold x86_insn_decode_number, number_bytes, read_qword, read_dword, read_word, read_byte.
  destruct (bits =? 64); [|destruct (bits =? 32); [|destruct (bits =? 16); [|destruct (bits =? 8)]]].
  - destruct (bytes_at rd 8); [|discriminate]. intros [= _ <-]. apply advance_cursor.
  - destruct (bytes_at rd 4); [|discriminate]. intros [= _ <-]. apply advance_cursor.
  - destruct (bytes_at rd 2); [|discriminate]. intros [= _ <-]. apply advance_cursor.
  - destruct (peek_byte rd); [|discriminate]. intros [= _ <-]. apply advance_cursor.
  - intros [= _ <-]. lia.
Qed.

Lemma modrm_mode_range m : 0 <= modrm_mode m < 4.
Proof. unfold modrm_mode. change 3 with (Z.ones 2). rewrite Z.land_ones by lia. apply Z.mod_pos_bound. lia. Qed.
Lemma modrm_rm_range m : 0 <= modrm_rm m < 8.
Proof. unfold modrm_rm. change 7 with (Z.ones 3). rewrite Z.land_ones by lia. apply Z.mod_pos_bound. lia. Qed.
Lemma REX_B_range r : 0 <= REX_B r < 2.
Proof.
  unfold REX_B. rewrite Z.shiftr_0_r. change 1 with (Z.ones 1) at 1 2. rewrite Z.land_ones by lia.
  apply Z.mod_pos_bound. lia.
Qed.

Lemma rm_low r m : Z.land (u8 (Z.lor (Z.shiftl (REX_B r) 3) (modrm_rm m))) 7 = modrm_rm m.
Proof.
  pose proof (REX_B_range r). pose proof (modrm_rm_range m).
  assert (R : REX_B r = 0 \/ REX_B r = 1) by lia.
  assert (M : modrm_rm m = 0 \/ modrm_rm m = 1 \/ modrm_rm m = 2 \/ modrm_rm m = 3 \/
    modrm_rm m = 4 \/ modrm_rm m = 5 \/ modrm_rm m = 6 \/ modrm_rm m = 7) by lia.
  destruct R as [-> | ->]; repeat destruct M as [-> | M]; rewrite ?M; reflexivity.
Qed.

Lemma decode_sib_cursor rd insn s m d : read_byte rd = Some (s, advance 1 rd) ->
  (List.length (operands insn) = 3)%nat ->
  exists insn', decode_sib rd insn m d 64 =
    Some (advance 1 rd, insn', if (full_base s (rex insn) =? RBP) || (full_base s (rex insn) =? R13)
                               then (if m =? 1 then 8 else 32) else d).
Proof.
  intros E L. unfold decode_sib. rewrite E. cbn [mbind option_bind].
  destruct insn as [f l dd ii ops p r c mm ss im sp]. cbn [operands rex] in *.
  destruct ops as [|o0 [|o1 [|o2 [|]]]]; try discriminate. destruct o1.
  cbn. unfold base_of. fold (full_base s r).
  destruct (sib_index s =? X86_INSN_GP_REG_SP); cbn;
    destruct ((full_base s r =? RBP) || (full_base s r =? R13)); eauto.
Qed.

(** The displacement read at the end of the form. *)
Lemma disp_cursor rd insn d rd' insn' : decode_disp rd insn d = Some (rd', insn') ->
  buffer_cursor rd' = buffer_cursor rd + number_bytes d.
Proof.
  unfold decode_disp.
  destruct (Z.eqb_spec d 0) as [->|N]; cbn [negb].
  - intros [= <- <-]. cbn. lia.
  - cbv zeta. destruct (x86_insn_decode_number rd d) as [[v rd2]|] eqn:E; [|discriminate].
    intros [= <- <-]. by apply (decode_number_cursor _ _ _ _ E).
Qed.

Lemma decode_modrm_cursor rd insn m s : peek_byte rd = Some m -> peek_byte (advance 1 rd) = Some s ->
  (List.length (operands insn) = 3)%nat -> Z.land (prefix insn) INSN_PREFIX_ADDRESS_SIZE = 0 ->
  forall rd' insn', x86_insn_decode_modrm_sib rd insn 64 = Some (rd', insn') ->
  buffer_cursor rd' = buffer_cursor rd + 1 + code_tail m s (rex insn).
Proof.
  intros Pm Ps L Np rd' insn'. unfold x86_insn_decode_modrm_sib, read_byte at 1. rewrite Pm.
  cbn [mbind option_bind]. unfold code_tail.
  destruct insn as [f l dd ii ops p r c mm ss im sp]. cbn [operands rex prefix] in *. cbn [rex set_modrm].
  destruct (Z.eqb_spec (modrm_mode m) 3) as [M3|M3]. { intros [= <- <-]. rewrite advance_cursor. lia. }
  unfold address_bits. cbn [on_operand set_operands operands set_modrm or_flags set_flags prefix flags].
  rewrite Np. cbn [Z.eqb Pos.eqb negb mbind option_bind orb].
  unfold decode_address. rewrite rm_low.
  assert (Hr : read_byte (advance 1 rd) = Some (s, advance 1 (advance 1 rd))).
  { unfold read_byte. by rewrite Ps. }
  pose proof (modrm_mode_range m).
  assert (M : modrm_mode m = 0 \/ modrm_mode m = 1 \/ modrm_mode m = 2) by lia.
  destruct (Z.eqb_spec (modrm_rm m) 4) as [R4|R4].
  - rewrite R4. destruct M as [-> | [-> | ->]]; cbn [Z.eqb Pos.eqb andb];
      (match goal with |- context [decode_sib ?q ?i ?k ?d 64] =>
         destruct (decode_sib_cursor q i s k d Hr) as [i' ->]; [cbn; rewrite !length_alter; exact L|] end);
      cbn [mbind option_bind Z.eqb rex or_flags set_flags on_operand set_operands Pos.eqb];
      intros E; apply disp_cursor in E; rewrite E, !advance_cursor;
      destruct ((full_base s r =? RBP) || (full_base s r =? R13)); cbn; lia.
  - destruct M as [-> | [-> | ->]]; cbn [Z.eqb Pos.eqb andb];
      destruct (modrm_rm m =? 5); cbn [mbind option_bind Z.eqb Pos.eqb];
      intros E; apply disp_cursor in E; rewrite E, !advance_cursor; cbn; lia.
Qed.

(** The two agree outside the SIB forms with mode 0 and one of three bases. *)
Lemma tails_agree m s r : code_tail m s r = sdm_tail m s <->
  ~ (modrm_mode m = 0 /\ modrm_rm m = 4 /\
     (sib_base s = 5 \/ full_base s r = RBP \/ full_base s r = R13)).
Proof.
  unfold code_tail, sdm_tail, sdm_disp. pose proof (modrm_mode_range m). pose proof (modrm_rm_range m).
  assert (B : sib_base s = 5 -> full_base s r <> RBP /\ full_base s r <> R13).
  { intros E. unfold full_base. rewrite E. pose proof (REX_B_range r).
    assert (R : REX_B r = 0 \/ REX_B r = 1) by lia. destruct R as [-> | ->]; split; discriminate. }
  assert (M : modrm_mode m = 0 \/ modrm_mode m = 1 \/ modrm_mode m = 2 \/ modrm_mode m = 3) by lia.
  destruct M as [-> | [-> | [-> | ->]]]; cbn [Z.eqb Pos.eqb andb];
    destruct (Z.eqb_spec (modrm_rm m) 4) as [R4|R4]; destruct (Z.eqb_spec (modrm_rm m) 5) as [R5|R5];
    destruct (Z.eqb_spec (sib_base s) 5) as [B5|B5]; destruct (Z.eqb_spec (full_base s r) RBP);
    destruct (Z.eqb_spec (full_base s r) R13); cbn [orb andb]; lia.
Qed.
