(* ===== verification/X86Sdm.v ===== *)
(** Instruction lengths: the decoder against the architecture's one-byte opcode
    map in 64-bit mode, [sdm_*] being the Intel manual's side. *)
From Stdlib Require Import String Ascii.
From S2P Require Import Prelude X86Tables X86Insn X86Spec.

(** ** The manual's map *)

Definition sdm_modrm (op : Z) : bool :=
  ((op <? 0x40) && (Z.land op 7 <? 4)) ||
  existsb (Z.eqb op) [0x62; 0x63; 0x69; 0x6b; 0xc0; 0xc1; 0xc4; 0xc5; 0xc6; 0xc7; 0xd0; 0xd1; 0xd2; 0xd3;
                      0xf6; 0xf7; 0xfe; 0xff] ||
  ((0x80 <=? op) && (op <=? 0x8f)) || ((0xd8 <=? op) && (op <=? 0xdf)).

(** Immediate bytes with operand size [o]; [F6] and [F7] have one for [/0], [/1]. *)
Definition sdm_imm (op o reg : Z) : Z :=
  let iz := if o =? 16 then 2 else 4 in
  if op <? 0x40 then (if Z.land op 7 =? 4 then 1 else if Z.land op 7 =? 5 then iz else 0)
  else if existsb (Z.eqb op) [0x68; 0x69; 0x81; 0xa9; 0xc7] then iz
  else if existsb (Z.eqb op) [0x6a; 0x6b; 0x80; 0x82; 0x83; 0xa8; 0xc0; 0xc1; 0xc6; 0xcd; 0xd4; 0xd5; 0xeb] then 1
  else if (0x70 <=? op) && (op <=? 0x7f) || (0xb0 <=? op) && (op <=? 0xb7) || (0xe0 <=? op) && (op <=? 0xe7) then 1
  else if (0xa0 <=? op) && (op <=? 0xa3) then 8
  else if (0xb8 <=? op) && (op <=? 0xbf) then o / 8
  else if existsb (Z.eqb op) [0xc2; 0xca] then 2
  else if op =? 0xc8 then 3
  else if existsb (Z.eqb op) [0xe8; 0xe9] then 4
  else if op =? 0xf6 then (if reg <? 2 then 1 else 0)
  else if op =? 0xf7 then (if reg <? 2 then iz else 0)
  else if existsb (Z.eqb op) [0x9a; 0xea] then 6
  else 0.

(** ** The decoder's map *)

(** The entry of an opcode, with its group resolved by the ModR/M [reg] field. *)
Definition resolve (spec : x86_insn_spec_t) (reg : Z) : option x86_insn_spec_t :=
  let group_ndx := X86_INSN_FLAG_GET_GROUP (spec_flags spec) in
  if (group_ndx >? X86_INSN_GROUP_START) && (group_ndx <? X86_INSN_SSE_GROUP_START) then
    group ← x86_insn_modrm_reg_groups !! Z.to_nat group_ndx;
    e ← group !! Z.to_nat reg;
    Some (InsnSpec (spec_name e) (spec_operands spec) (spec_flags e))
  else Some spec.
Definition one_byte_spec (op reg : Z) : option x86_insn_spec_t :=
  spec ← x86_opcode_map_one_byte !! Z.to_nat op; resolve spec reg.

(** What an entry makes of operand size [o], and the immediate bytes it reads. *)
Definition entry_bits (spec : x86_insn_spec_t) (o : Z) : Z :=
  if negb (Z.land (spec_flags spec) X86_INSN_SPEC_DEFAULT_64_BIT =? 0) then 64 else o.
Definition entry_imm (spec : x86_insn_spec_t) (o : Z) : Z :=
  if x86_insn_has_immediate spec then
    from_option number_bytes 0 (x86_insn_imm_bits spec (entry_bits spec o))
  else 0.

(** ** Where they differ *)

(** x87 opcodes, the groups [F6], [F7] and [FF], the 8-byte [moffs] and
    immediates, [ENTER], 16-bit [PUSH], and four opcodes that 64-bit mode does not have. *)
Definition odd_modrm (op : Z) : bool :=
  existsb (Z.eqb op) [0xd8; 0xd9; 0xda; 0xdb; 0xdc; 0xdd; 0xde; 0xdf; 0xf6; 0xf7; 0xff].
Definition odd_imm (op o reg : Z) : bool :=
  existsb (Z.eqb op) [0x9a; 0xa0; 0xa1; 0xa2; 0xa3; 0xc8; 0xd4; 0xd5; 0xea] ||
  (((0xb8 <=? op) && (op <=? 0xbf)) && (o =? 64)) ||
  (existsb (Z.eqb op) [0xf6; 0xf7] && (reg <? 2)) || ((op =? 0x68) && (o =? 16)).

Definition zrange (n : nat) : list Z := map Z.of_nat (seq 0 n).

Lemma zrange_In n x : 0 <= x < Z.of_nat n -> In x (zrange n).
Proof.
  intros H. unfold zrange. apply in_map_iff. exists (Z.to_nat x). split; [lia|]. apply in_seq. lia.
Qed.

Definition map_row_ok (op o reg : Z) : bool :=
  match one_byte_spec op reg with
  | None => false
  | Some spec =>
      Bool.eqb (Bool.eqb (x86_insn_has_modrm_byte spec) (sdm_modrm op)) (negb (odd_modrm op)) &&
      Bool.eqb (entry_imm spec o =? sdm_imm op o reg) (negb (odd_imm op o reg))
  end.

Lemma map_rows_ok :
  forallb (fun op => forallb (fun o => forallb (map_row_ok op o) (zrange 8)) [16; 32; 64]) (zrange 256) = true.
Proof. vm_compute. reflexivity. Qed.

Lemma map_row op o reg : is_byte op -> o = 16 \/ o = 32 \/ o = 64 -> 0 <= reg < 8 ->
  exists spec, one_byte_spec op reg = Some spec /\
    (x86_insn_has_modrm_byte spec = sdm_modrm op <-> odd_modrm op = false) /\
    (entry_imm spec o = sdm_imm op o reg <-> odd_imm op o reg = false).
Proof.
  intros Hop Ho Hr. pose proof map_rows_ok as H. rewrite forallb_forall in H.
  specialize (H op (zrange_In 256 op Hop)). rewrite forallb_forall in H.
  assert (Io : In o [16; 32; 64]) by (cbn; intuition). specialize (H o Io). rewrite forallb_forall in H.
  specialize (H reg (zrange_In 8 reg Hr)). unfold map_row_ok in H.
  destruct (one_byte_spec op reg) as [spec|]; [|discriminate]. exists spec. split; [reflexivity|].
  apply andb_true_iff in H as [H1 H2]. apply eqb_prop in H1, H2. split.
  - destruct (x86_insn_has_modrm_byte spec), (sdm_modrm op), (odd_modrm op); cbn in H1; (discriminate || intuition congruence).
  - destruct (Z.eqb_spec (entry_imm spec o) (sdm_imm op o reg)), (odd_imm op o reg); cbn in H2;
      (discriminate || intuition congruence).
Qed.

(** ** Whole instructions *)

Lemma read_byte_peek rd b : peek_byte rd = Some b -> read_byte rd = Some (b, advance 1 rd).
Proof. intros E. unfold read_byte. by rewrite E. Qed.

Lemma decode_opcode_one_byte rd insn op m spec : peek_byte rd = Some op -> op <> 0x0f ->
  peek_byte (advance 1 rd) = Some m -> one_byte_spec op (modrm_reg m) = Some spec ->
  x86_insn_decode_opcode rd insn = Some (advance 1 rd, set_opcode op spec insn).
Proof.
  intros Po No Pm E. unfold x86_insn_decode_opcode. rewrite (read_byte_peek _ _ Po). cbn [mbind option_bind].
  rewrite (proj2 (Z.eqb_neq op 0x0f) No). unfold one_byte_spec, resolve in E.
  destruct (x86_opcode_map_one_byte !! Z.to_nat op) as [sp|]; [|discriminate].
  cbn [mbind option_bind] in *. cbv zeta in *.
  destruct (_ && _).
  - rewrite Pm. cbn [mbind option_bind].
    destruct (x86_insn_modrm_reg_groups !! _) as [g|]; [|discriminate]. cbn [mbind option_bind] in *.
    destruct (g !! _) as [e|]; [|discriminate]. cbn [mbind option_bind] in *. by injection E as <-.
  - by injection E as <-.
Qed.

Lemma decode_immediate_cursor rd insn mode rd' insn' :
  x86_insn_decode_immediate rd insn mode = Some (rd', insn') ->
  exists bits, x86_insn_imm_bits (insn_spec insn) (effective_operand_bits insn mode) = Some bits /\
    buffer_cursor rd' = buffer_cursor rd + number_bytes bits.
Proof.
  unfold x86_insn_decode_immediate.
  destruct (x86_insn_imm_bits _ _) as [bits|]; [|discriminate]. cbn [mbind option_bind].
  intros E. exists bits. split; [reflexivity|]. revert E.
  destruct (Z.eqb_spec bits 0) as [->|N].
  - intros [= <- _]. cbn. lia.
  - destruct (x86_insn_decode_number rd bits) as [[v rd2]|] eqn:D; [|discriminate].
    intros [= <- _]. by apply (decode_number_cursor _ _ _ _ D).
Qed.

(** The operand size of the decoder is the manual's, up to 32 and 64 bits for an
    entry with ModR/M, where no immediate tells the two apart. *)
Lemma entry_bits_spec insn :
  effective_operand_bits insn 64 =
  entry_bits (insn_spec insn)
    (if negb (Z.land (flags insn) X86_INSN_DECODE_FLAG_OPERAND_SIZE_64 =? 0) then 64
     else if negb (Z.land (prefix insn) INSN_PREFIX_OPERAND_SIZE =? 0) then 16 else 32).
Proof. reflexivity. Qed.

Lemma imm_32_64 spec bits bits' : letters_ok spec = true -> x86_insn_has_modrm_byte spec = true ->
  x86_insn_imm_bits spec 32 = Some bits -> x86_insn_imm_bits spec 64 = Some bits' -> bits = bits'.
Proof.
  unfold letters_ok, x86_insn_imm_bits. destruct (x86_insn_immediate_type spec) as [t|]; [|discriminate].
  cbn [mbind option_bind]. intros L M. 
  destruct (Ascii.eqb_spec t "v"%char) as [->|Nv]; [rewrite M in L; discriminate|].
  intros [= <-] [= <-]. repeat (case_match; try reflexivity). exfalso. by apply Nv.
Qed.

(** ModR/M decoding keeps the prefixes and can only lose the 64-bit flag. *)
Definition size_flag (insn : x86_insn_decode_t) : Z := Z.land (flags insn) X86_INSN_DECODE_FLAG_OPERAND_SIZE_64.

Definition keeps (insn insn' : x86_insn_decode_t) : Prop :=
  (prefix insn' = prefix insn /\ insn_spec insn' = insn_spec insn) /\
  (size_flag insn' = size_flag insn \/ size_flag insn' = 0).

Lemma keeps_refl insn : keeps insn insn.
Proof. split; [by split|by left]. Qed.
Lemma keeps_or_flags v a b : Z.land v X86_INSN_DECODE_FLAG_OPERAND_SIZE_64 = 0 -> keeps a b -> keeps a (or_flags v b).
Proof.
  intros E [P S]. assert (F : size_flag (or_flags v b) = size_flag b).
  { unfold size_flag. destruct b as [f l d i o p r c m s n k]. cbn [or_flags set_flags flags]. by rewrite Z.land_lor_distr_l, E, Z.lor_0_r. }
  split; [by destruct b|by rewrite F].
Qed.
Lemma keeps_set_flags v a b : Z.land v X86_INSN_DECODE_FLAG_OPERAND_SIZE_64 = 0 -> keeps a b -> keeps a (set_flags v b).
Proof. intros E [P S]. destruct b. split; [assumption|by right]. Qed.
Lemma keeps_on_operand i f a b : keeps a b -> keeps a (on_operand i f b).
Proof. by destruct b. Qed.
Lemma keeps_set_sib v a b : keeps a b -> keeps a (set_sib v b).
Proof. by destruct b. Qed.
Lemma keeps_set_modrm v a b : keeps a b -> keeps a (set_modrm v b).
Proof. by destruct b. Qed.
Lemma keeps_set_displacement_offset v a b : keeps a b -> keeps a (set_displacement_offset v b).
Proof. by destruct b. Qed.

Create HintDb keeps.
#[export] Hint Resolve keeps_refl keeps_on_operand keeps_set_sib keeps_set_modrm keeps_set_displacement_offset : keeps.
#[export] Hint Extern 2 (keeps _ (or_flags _ _)) => (apply keeps_or_flags; [reflexivity|]) : keeps.
#[export] Hint Extern 2 (keeps _ (set_flags _ _)) => (apply keeps_set_flags; [reflexivity|]) : keeps.

Lemma decode_sib_keeps a rd insn m d bits rd' insn' d' : keeps a insn ->
  decode_sib rd insn m d bits = Some (rd', insn', d') -> keeps a insn'.
Proof.
  unfold decode_sib. destruct (read_byte rd) as [[s rd1]|]; [|discriminate]. cbn [mbind option_bind]. cbv zeta.
  intros K E. repeat case_match; simplify_eq; eauto 12 with keeps.
Qed.

Lemma decode_address_keeps a rd insn m rm bits rd' insn' d' : keeps a insn ->
  decode_address rd insn m rm bits = Some (rd', insn', d') -> keeps a insn'.
Proof.
  unfold decode_address. cbv zeta. intros K.
  match goal with |- context [if (m =? 0) && ?c then ?x else ?y] =>
    destruct (if (m =? 0) && c then x else y) as [i1 d1] eqn:E1 end.
  assert (K1 : keeps a i1) by (repeat case_match; simplify_eq; eauto 8 with keeps).
  destruct (_ =? 4); [by apply decode_sib_keeps|]. by intros [= _ <- _].
Qed.

Lemma decode_address16_keeps a insn m d insn' d' : keeps a insn ->
  decode_address16 insn m d = (insn', d') -> keeps a insn'.
Proof.
  unfold decode_address16. cbv zeta. intros K E. repeat case_match; simplify_eq; eauto 8 with keeps.
Qed.

Lemma decode_modrm_keeps rd insn mode rd' insn' :
  x86_insn_decode_modrm_sib rd insn mode = Some (rd', insn') -> keeps insn insn'.
Proof.
  unfold x86_insn_decode_modrm_sib. destruct (read_byte rd) as [[m rd1]|]; [|discriminate].
  cbn [mbind option_bind]. cbv zeta. destruct (_ =? 3). { intros [= _ <-]. eauto with keeps. }
  destruct (address_bits _ _) as [bits|]; [|discriminate]. cbn [mbind option_bind].
  match goal with |- context [mbind _ ?A] => destruct A as [[[rd2 i2] d2]|] eqn:EA; [|discriminate] end.
  cbn [mbind option_bind].
  match type of EA with context [decode_address _ ?i _ _ _] => assert (K : keeps insn i) by eauto 8 with keeps end.
  assert (K2 : keeps insn i2).
  { destruct (_ || _); [by apply (decode_address_keeps _ _ _ _ _ _ _ _ _ K EA)|]. by injection EA as _ <- _. }
  match goal with |- context [if bits =? 16 then ?a else ?b] => destruct (if bits =? 16 then a else b) as [i3 d3] eqn:E3 end.
  assert (K3 : keeps insn i3).
  { destruct (bits =? 16); [by apply (decode_address16_keeps _ _ _ _ _ _ K2 E3)|]. by injection E3 as <- _. }
  unfold decode_disp. destruct (negb _).
  - cbv zeta. destruct (x86_insn_decode_number _ _) as [[v rd3]|]; [|discriminate].
    intros [= _ <-]. eauto with keeps.
  - by intros [= _ <-].
Qed.

(** The prefix word tells which prefixes were there. *)
Lemma prefixes_word_mask M ps : forall p,
  Z.land (fold_left (fun w c => Z.lor w (prefix_bit c)) ps p) M = 0 <->
  Z.land p M = 0 /\ Forall (fun c => Z.land (prefix_bit c) M = 0) ps.
Proof.
  induction ps as [|c ps IH]; intros p; cbn [fold_left].
  - split; [intros; by split|by intros [? _]].
  - rewrite IH, Z.land_lor_distr_l, Z.lor_eq_0_iff, Forall_cons. tauto.
Qed.

Lemma prefix_bit_size c : Z.land (prefix_bit c) INSN_PREFIX_OPERAND_SIZE = 0 <-> c <> 0x66.
Proof.
  destruct (Z.eqb_spec c 0x66) as [->|N]; [split; [discriminate|congruence]|].
  split; [intros _; exact N|intros _]. unfold prefix_bit. rewrite (proj2 (Z.eqb_neq _ _) N).
  repeat (case_match; [reflexivity|]). reflexivity.
Qed.
Lemma prefix_bit_address c : Z.land (prefix_bit c) INSN_PREFIX_ADDRESS_SIZE = 0 <-> c <> 0x67.
Proof.
  destruct (Z.eqb_spec c 0x67) as [->|N]; [split; [discriminate|congruence]|].
  split; [intros _; exact N|intros _]. unfold prefix_bit. rewrite (proj2 (Z.eqb_neq _ _) N).
  repeat (case_match; [reflexivity|]). reflexivity.
Qed.

Lemma prefixes_word_spec c M ps : (forall d, Z.land (prefix_bit d) M = 0 <-> d <> c) ->
  (Z.land (prefixes_word ps) M =? 0) = negb (existsb (Z.eqb c) ps).
Proof.
  intros HM. apply Bool.eq_iff_eq_true. rewrite Z.eqb_eq. unfold prefixes_word. rewrite prefixes_word_mask.
  rewrite negb_true_iff, <- not_true_iff_false, existsb_exists, Forall_forall. split.
  - intros [_ H] (x & Hx & ->%Z.eqb_eq). by apply (proj1 (HM x) (H x (proj2 (list_elem_of_In _ _) Hx))).
  - intros H. split; [apply Z.land_0_l|]. intros x Hx. apply HM. intros ->. apply H. exists c.
    split; [by apply list_elem_of_In|apply Z.eqb_refl].
Qed.

(** An instruction of the one-byte map: prefixes, an optional REX, the opcode and
    the bytes after it. *)
Record one_byte_insn (code ps rexs : list byte) (op m s : byte) (r : list byte) : Prop := {
  obi_code : code = ps ++ rexs ++ op :: m :: s :: r;
  obi_length : (15 <= List.length code)%nat;
  obi_front : (List.length ps <= 7)%nat;
  obi_bytes : Forall is_byte code;
  obi_prefixes : forallb is_prefix ps = true;
  obi_rex : rexs = [] /\ is_rex 64 op = false \/ exists b, rexs = [b] /\ is_rex 64 b = true;
  obi_opcode : is_prefix op = false /\ op <> 0x0f
}.

Definition rex_of (rexs : list byte) : Z := List.hd 0 rexs.
Definition operand_size (ps rexs : list byte) : Z :=
  if negb (REX_W (rex_of rexs) =? 0) then 64 else if existsb (Z.eqb 0x66) ps then 16 else 32.

Definition sdm_length (ps rexs : list byte) (op m s : byte) : Z :=
  Z.of_nat (List.length ps) + Z.of_nat (List.length rexs) + 1 +
  (if sdm_modrm op then 1 + sdm_tail m s else 0) + sdm_imm op (operand_size ps rexs) (modrm_reg m).

Lemma rex_not_prefix b : is_rex 64 b = true -> is_prefix b = false.
Proof. intros H. destruct (is_prefix b) eqn:E; [|reflexivity]. by rewrite (prefix_not_rex 64 b E) in H. Qed.

(** The state after the prefixes. *)
Definition after_prefixes (ps rexs : list byte) : x86_insn_decode_t :=
  set_prefix (prefixes_word ps)
    (match rexs with
     | b :: _ => set_rex b (if negb (REX_W b =? 0) then or_flags X86_INSN_DECODE_FLAG_OPERAND_SIZE_64 zero_insn else zero_insn)
     | [] => zero_insn
     end).

Lemma after_prefixes_rex ps rexs : rex (after_prefixes ps rexs) = rex_of rexs.
Proof. destruct rexs as [|b ?]; [reflexivity|]. unfold after_prefixes. cbn [rex_of List.hd]. destruct (REX_W b =? 0); reflexivity. Qed.
Lemma after_prefixes_prefix ps rexs : prefix (after_prefixes ps rexs) = prefixes_word ps.
Proof. destruct rexs as [|b ?]; [reflexivity|]. unfold after_prefixes. cbn [rex_of List.hd]. destruct (REX_W b =? 0); reflexivity. Qed.
Lemma after_prefixes_operands ps rexs : List.length (operands (after_prefixes ps rexs)) = 3%nat.
Proof. destruct rexs as [|b ?]; [reflexivity|]. unfold after_prefixes. cbn [rex_of List.hd]. destruct (REX_W b =? 0); reflexivity. Qed.
Lemma after_prefixes_size ps rexs :
  (size_flag (after_prefixes ps rexs) =? 0) = (REX_W (rex_of rexs) =? 0).
Proof. destruct rexs as [|b ?]; [reflexivity|]. unfold after_prefixes. cbn [rex_of List.hd]. destruct (REX_W b =? 0); reflexivity. Qed.

Lemma window_front code front r : code = front ++ r -> (List.length front <= 15)%nat ->
  exists r', window code = front ++ r'.
Proof.
  intros -> L. unfold window. rewrite take_app_ge by assumption. rewrite <- app_assoc. eauto.
Qed.

Lemma decode_front code ps rexs op m s r : one_byte_insn code ps rexs op m s r ->
  exists rd, 
    x86_insn_decode zero_insn code 64 =
      ('(rd, insn) ← x86_insn_decode_opcode rd (after_prefixes ps rexs);
       '(rd, insn) ← (if x86_insn_has_modrm_byte (insn_spec insn)
                      then x86_insn_decode_modrm_sib rd insn 64 else Some (rd, insn));
       '(rd, insn) ← (if x86_insn_has_immediate (insn_spec insn)
                      then x86_insn_decode_immediate rd insn 64 else Some (rd, insn));
       Some (set_length (buffer_cursor rd) insn)) /\
    buffer_cursor rd = Z.of_nat (List.length ps) + Z.of_nat (List.length rexs) /\
    peek_byte rd = Some op /\ peek_byte (advance 1 rd) = Some m /\ peek_byte (advance 1 (advance 1 rd)) = Some s.
Proof.
  intros [Hc L Hf Hb Hps Hr [Np No]].
  assert (Lr : (List.length rexs <= 1)%nat) by (destruct Hr as [[-> _]|(b & -> & _)]; cbn; lia).
  destruct (window_front code (ps ++ rexs ++ [op; m; s]) r) as [r' W].
  { rewrite Hc. by rewrite <- !app_assoc. }
  { rewrite !length_app. cbn [List.length]. lia. }
  assert (X : exists b, take (S (List.length ps)) (window code) = ps ++ [b] /\ is_prefix b = false /\
     b = List.hd op rexs).
  { exists (List.hd op rexs). rewrite W. split; [|split; [|reflexivity]].
    - destruct Hr as [[-> _]|(b & -> & _)]; cbn [app List.hd];
        rewrite <- app_assoc, take_app_ge by lia; replace (S (List.length ps) - List.length ps)%nat with 1%nat by lia; reflexivity.
    - destruct Hr as [[-> _]|(b & -> & Hb2)]; [assumption|]. by apply rex_not_prefix. }
  destruct X as (b & T & Nb & Eb).
  exists (Reader (window code) (Z.of_nat (List.length ps) + Z.of_nat (List.length rexs))).
  split; [|split; [reflexivity|]].
  - unfold x86_insn_decode. rewrite (init_reader_window code L). cbn [mbind option_bind].
    rewrite (decode_prefix_spec ps prefix_fuel 0 (window code) 0 zero_insn 64 b Hps Nb);
      [|unfold prefix_fuel; lia|lia|exact T].
    cbn [mbind option_bind]. unfold prefix_result, after_prefixes. rewrite Z.add_0_l. fold (prefixes_word ps).
    destruct Hr as [[-> Hop]|(b' & -> & Hb')]; cbn [List.hd] in Eb; subst b.
    + rewrite Hop. cbn [List.length]. rewrite Z.add_0_r. reflexivity.
    + rewrite Hb'. cbn [List.length]. reflexivity.
  - assert (P : forall k x, (ps ++ rexs ++ [op; m; s]) !! (List.length ps + List.length rexs + k)%nat = Some x ->
      peek_byte (Reader (window code) (Z.of_nat (List.length ps) + Z.of_nat (List.length rexs) + Z.of_nat k)) = Some x).
    { intros k x E. unfold peek_byte. cbn [rd_buffer buffer_cursor]. rewrite W.
      replace (Z.to_nat _) with (List.length ps + List.length rexs + k)%nat by lia.
      by apply lookup_app_l_Some. }
    assert (G : forall k, (ps ++ rexs ++ [op; m; s]) !! (List.length ps + List.length rexs + k)%nat = [op; m; s] !! k).
    { intros k. rewrite app_assoc, lookup_app_r by (rewrite length_app; lia).
      f_equal. rewrite length_app. lia. }
    unfold advance. cbn [buffer_cursor rd_buffer].
    split_and!.
    + rewrite <- (Z.add_0_r (_ + _)). apply (P 0%nat). by rewrite G.
    + apply (P 1%nat). by rewrite G.
    + rewrite <- (Z.add_assoc _ 1 1). apply (P 2%nat). by rewrite G.
Qed.

Lemma entry_imm_spec spec o bits : x86_insn_has_immediate spec = true ->
  x86_insn_imm_bits spec (entry_bits spec o) = Some bits -> entry_imm spec o = number_bytes bits.
Proof. intros I E. unfold entry_imm. by rewrite I, E. Qed.

Lemma entry_imm_32_64 spec : letters_ok spec = true -> x86_insn_has_modrm_byte spec = true ->
  entry_imm spec 64 = entry_imm spec 32.
Proof.
  intros L M. unfold entry_imm. destruct (x86_insn_has_immediate spec) eqn:I; [|reflexivity].
  unfold entry_bits. destruct (negb _); [reflexivity|].
  destruct (imm_bits_some spec 32 I) as [b E]. destruct (imm_bits_some spec 64 I) as [b' E'].
  rewrite E, E'. cbn. f_equal. symmetry. by apply (imm_32_64 spec).
Qed.

(** The immediate bytes, once the operand size is known up to 32 and 64. *)
Lemma immediate_cursor rd insn rd' insn' spec o : insn_spec insn = spec -> letters_ok spec = true ->
  (effective_operand_bits insn 64 = entry_bits spec o \/
   x86_insn_has_modrm_byte spec = true /\ o = 64 /\ effective_operand_bits insn 64 = entry_bits spec 32) ->
  (if x86_insn_has_immediate spec then x86_insn_decode_immediate rd insn 64 else Some (rd, insn)) = Some (rd', insn') ->
  buffer_cursor rd' = buffer_cursor rd + entry_imm spec o.
Proof.
  intros S L O. destruct (x86_insn_has_immediate spec) eqn:I.
  - intros E. apply decode_immediate_cursor in E as (bits & Eb & ->). rewrite S in Eb. f_equal. symmetry.
    destruct O as [O|(M & -> & O)]; rewrite O in Eb.
    + by apply entry_imm_spec.
    + rewrite entry_imm_32_64 by assumption. by apply entry_imm_spec.
  - intros [= <- <-]. unfold entry_imm. rewrite I. lia.
Qed.

Lemma one_byte_spec_letters op reg spec : one_byte_spec op reg = Some spec -> letters_ok spec = true.
Proof.
  unfold one_byte_spec, resolve. destruct (x86_opcode_map_one_byte !! Z.to_nat op) as [sp|] eqn:E; [|discriminate].
  cbn [mbind option_bind]. cbv zeta.
  assert (L : letters_ok sp = true).
  { pose proof one_byte_letters as H. rewrite forallb_forall in H. apply H, list_elem_of_In.
    by eapply list_elem_of_lookup_2. }
  destruct (_ && _); [|by intros [= <-]].
  destruct (x86_insn_modrm_reg_groups !! _) as [g|]; [|discriminate]. cbn [mbind option_bind].
  destruct (g !! _) as [e|]; [|discriminate]. by intros [= <-].
Qed.

Lemma operand_size_cases ps rexs : operand_size ps rexs = 16 \/ operand_size ps rexs = 32 \/ operand_size ps rexs = 64.
Proof. unfold operand_size. destruct (negb _); [tauto|]. destruct (existsb _ _); tauto. Qed.

(** The operand size after ModR/M decoding, where the RIP form forgets REX.W. *)
Lemma size_after ps rexs insn : prefix insn = prefixes_word ps ->
  size_flag insn = size_flag (after_prefixes ps rexs) \/ size_flag insn = 0 ->
  (existsb (Z.eqb 0x66) ps = true -> REX_W (rex_of rexs) = 0) ->
  effective_operand_bits insn 64 = entry_bits (insn_spec insn) (operand_size ps rexs) \/
  operand_size ps rexs = 64 /\ effective_operand_bits insn 64 = entry_bits (insn_spec insn) 32.
Proof.
  intros Kp Ks H66. rewrite entry_bits_spec, Kp.
  rewrite (prefixes_word_spec 0x66 INSN_PREFIX_OPERAND_SIZE) by apply prefix_bit_size.
  rewrite negb_involutive. fold (size_flag insn). unfold operand_size.
  pose proof (after_prefixes_size ps rexs) as A.
  destruct (REX_W (rex_of rexs) =? 0) eqn:W; cbn [negb].
  - apply Z.eqb_eq in A. assert (S : size_flag insn = 0) by (destruct Ks as [Ks|Ks]; [by rewrite Ks|assumption]).
    rewrite S. left. reflexivity.
  - destruct (existsb (Z.eqb 0x66) ps). { rewrite H66 in W by reflexivity. discriminate. }
    destruct Ks as [Ks|Ks].
    + left. rewrite Ks, A. reflexivity.
    + right. rewrite Ks. split; reflexivity.
Qed.

Lemma decode_length code ps rexs op m s r : one_byte_insn code ps rexs op m s r ->
  existsb (Z.eqb 0x67) ps = false -> (existsb (Z.eqb 0x66) ps = true -> REX_W (rex_of rexs) = 0) ->
  odd_modrm op = false -> odd_imm op (operand_size ps rexs) (modrm_reg m) = false ->
  (sdm_modrm op = true -> code_tail m s (rex_of rexs) = sdm_tail m s) ->
  forall insn, x86_insn_decode zero_insn code 64 = Some insn -> length insn = sdm_length ps rexs op m s.
Proof.
  intros O No67 H66 Om Oi Tail insn.
  destruct (decode_front _ _ _ _ _ _ _ O) as (rd & -> & C & Po & Pm & Ps).
  assert (Bop : is_byte op).
  { destruct O as [Ec _ _ Hb _ _ _]. rewrite Ec in Hb. apply Forall_app in Hb as [_ Hb].
    apply Forall_app in Hb as [_ Hb]. by inversion Hb. }
  destruct (map_row op (operand_size ps rexs) (modrm_reg m) Bop (operand_size_cases ps rexs) (modrm_reg_range m))
    as (spec & Es & Hm & Hi).
  apply Hm in Om. apply Hi in Oi. clear Hm Hi.
  rewrite (decode_opcode_one_byte rd _ op m spec Po (proj2 (obi_opcode _ _ _ _ _ _ _ O)) Pm Es).
  cbn [mbind option_bind].
  set (i1 := set_opcode op spec (after_prefixes ps rexs)).
  assert (S1 : insn_spec i1 = spec) by (unfold i1; by destruct (after_prefixes ps rexs)).
  assert (F1 : rex i1 = rex_of rexs /\ prefix i1 = prefixes_word ps /\ List.length (operands i1) = 3%nat /\
     size_flag i1 = size_flag (after_prefixes ps rexs)).
  { rewrite <- (after_prefixes_rex ps rexs), <- (after_prefixes_prefix ps rexs), <- (after_prefixes_operands ps rexs).
    unfold i1. by destruct (after_prefixes ps rexs). }
  clearbody i1. rewrite S1. destruct F1 as (Fr & Fp & Fo & Fs).
  match goal with |- context [mbind _ (if x86_insn_has_modrm_byte spec then ?a else ?b)] =>
    destruct (if x86_insn_has_modrm_byte spec then a else b) as [[rd2 i2]|] eqn:E2; [|discriminate] end.
  cbn [mbind option_bind].
  assert (R2 : keeps i1 i2 /\
     buffer_cursor rd2 = buffer_cursor rd + 1 + (if sdm_modrm op then 1 + sdm_tail m s else 0)).
  { rewrite <- Om. destruct (x86_insn_has_modrm_byte spec) eqn:Hm.
    - assert (A0 : Z.land (prefix i1) INSN_PREFIX_ADDRESS_SIZE = 0).
      { apply Z.eqb_eq. rewrite Fp, (prefixes_word_spec 0x67) by apply prefix_bit_address. by rewrite No67. }
      rewrite (decode_modrm_cursor _ _ m s Pm Ps Fo A0 _ _ E2), advance_cursor, Fr, Tail by congruence.
      split; [by apply (decode_modrm_keeps _ _ _ _ _ E2)|lia].
    - injection E2 as <- <-. split; [apply keeps_refl|]. rewrite advance_cursor. lia. }
  destruct R2 as [[[Kp Kspec] Ks] C2]. rewrite Kspec, S1.
  match goal with |- context [mbind _ (if x86_insn_has_immediate spec then ?a else ?b)] =>
    destruct (if x86_insn_has_immediate spec then a else b) as [[rd3 i3]|] eqn:E3; [|discriminate] end.
  cbn [mbind option_bind]. intros [= <-].
  replace (length (set_length (buffer_cursor rd3) i3)) with (buffer_cursor rd3) by (by destruct i3).
  assert (Sz : effective_operand_bits i2 64 = entry_bits spec (operand_size ps rexs) \/
     operand_size ps rexs = 64 /\ effective_operand_bits i2 64 = entry_bits spec 32).
  { rewrite <- S1, <- Kspec. apply size_after; [congruence| |assumption]. rewrite <- Fs. exact Ks. }
  rewrite (immediate_cursor rd2 i2 rd3 i3 spec (operand_size ps rexs)); [|congruence| | |exact E3].
  - unfold sdm_length. rewrite C2, C, Oi. lia.
  - by apply (one_byte_spec_letters op (modrm_reg m)).
  - destruct Sz as [Sz|[Sz1 Sz2]]; [by left|].
    destruct (x86_insn_has_modrm_byte spec) eqn:Hm; [right; by split_and!|].
    injection E2 as <- <-. left.
    rewrite entry_bits_spec. rewrite S1. f_equal. rewrite Fp, (prefixes_word_spec 0x66) by apply prefix_bit_size.
    rewrite negb_involutive. fold (size_flag i1). rewrite Fs, after_prefixes_size. reflexivity.
Qed.

(** The prefixes are those in front of the first other byte. *)
Lemma legacy_prefixes_app ps b r : forallb is_prefix ps = true -> is_prefix b = false ->
  legacy_prefixes (ps ++ b :: r) = ps.
Proof.
  induction ps as [|p ps IH]; cbn [app forallb legacy_prefixes]; intros Hps Hb.
  - by rewrite Hb.
  - apply andb_true_iff in Hps as [-> Hps]. by rewrite IH.
Qed.

Lemma one_byte_prefixes code ps rexs op m s r : one_byte_insn code ps rexs op m s r ->
  legacy_prefixes (window code) = ps.
Proof.
  intros [Hc L Hf Hb Hps Hr [Np No]].
  destruct (window_front code (ps ++ rexs ++ [op]) (m :: s :: r)) as [r' W].
  { rewrite Hc, <- !app_assoc. reflexivity. }
  { rewrite !length_app. destruct Hr as [[-> _]|(b & -> & _)]; cbn; lia. }
  rewrite W, <- !app_assoc. destruct Hr as [[-> _]|(b & -> & Hb2)]; cbn [app];
    apply legacy_prefixes_app; try assumption. by apply rex_not_prefix.
Qed.

(** The length the decoder gives [c] followed by single-byte instructions. *)
Definition x86_len (c : list byte) (mode : Z) : option Z :=
  option_map length (x86_insn_decode zero_insn (c ++ repeat 0x90 15) mode).
