(* ===== verification/X86Claims.v ===== *)
(** Properties of the x86 instruction decoder. *)
From Stdlib Require Import String Ascii.
From S2P Require Import Prelude X86Tables X86Insn X86Spec X86Sdm.

(** C32: Decoding terminates and stays inside the reader's 20-byte buffer: for any
    15 readable bytes with at most seven legacy prefixes, in 32- and 64-bit mode,
    [x86_insn_decode] returns an instruction, and its length is more than the
    number of prefixes and at most 13 above it. *)
Theorem x86_decode_total code mode : mode = 64 \/ mode = 32 -> Forall is_byte code ->
  (15 <= List.length code)%nat -> (List.length (legacy_prefixes (window code)) <= 7)%nat ->
  exists insn, x86_insn_decode zero_insn code mode = Some insn /\
    Z.of_nat (List.length (legacy_prefixes (window code))) < length insn <=
    Z.of_nat (List.length (legacy_prefixes (window code))) + 13.
Proof. apply decode_total. Qed.

Definition nops : list byte := repeat 0x90 15.

Lemma x86_decode_total_witness :
  exists insn, x86_insn_decode zero_insn ([0x66; 0x81; 0x05] ++ nops) 64 = Some insn /\
    1 < length insn <= 14.
Proof.
  apply (x86_decode_total ([0x66; 0x81; 0x05] ++ nops) 64).
  - by left.
  - repeat constructor; unfold is_byte; discriminate.
  - apply Nat.leb_le. reflexivity.
  - apply Nat.leb_le. reflexivity.
Defined.

(** C31: In 64-bit mode the decoder computes the architecture's length for every
    instruction of the one-byte opcode map outside three exceptions: the listed
    opcodes whose map entry differs from the manual's, the SIB forms of
    [x86_modrm_length], and an address-size prefix or a [66] prefix beside REX.W.
    Any number of prefixes up to seven, an optional REX, any following bytes. *)
Theorem x86_length_correct code ps rexs op m s r : one_byte_insn code ps rexs op m s r ->
  existsb (Z.eqb 0x67) ps = false -> (existsb (Z.eqb 0x66) ps = true -> REX_W (rex_of rexs) = 0) ->
  odd_modrm op = false -> odd_imm op (operand_size ps rexs) (modrm_reg m) = false ->
  (sdm_modrm op = true -> ~ (modrm_mode m = 0 /\ modrm_rm m = 4 /\
     (sib_base s = 5 \/ full_base s (rex_of rexs) = RBP \/ full_base s (rex_of rexs) = R13))) ->
  exists insn, x86_insn_decode zero_insn code 64 = Some insn /\ length insn = sdm_length ps rexs op m s.
Proof.
  intros O H67 H66 Om Oi Ht. destruct (decode_total code 64) as (insn & E & _).
  - by left.
  - apply O.
  - apply O.
  - rewrite (one_byte_prefixes _ _ _ _ _ _ _ O). apply O.
  - exists insn. split; [exact E|]. apply (decode_length _ _ _ _ _ _ _ O H67 H66 Om Oi); [|exact E].
    intros M. by apply tails_agree, Ht.
Qed.

(** [66 REX.B 81 44 24 disp8 imm16]. *)
Definition add_sib : list byte := [0x66] ++ [0x41] ++ 0x81 :: 0x44 :: 0x24 :: [0x10; 0x34; 0x12] ++ nops.

Lemma x86_length_correct_witness :
  exists insn, x86_insn_decode zero_insn add_sib 64 = Some insn /\
    length insn = sdm_length [0x66] [0x41] 0x81 0x44 0x24.
Proof.
  apply (x86_length_correct add_sib [0x66] [0x41] 0x81 0x44 0x24 ([0x10; 0x34; 0x12] ++ nops)).
  - constructor.
    + reflexivity.
    + apply Nat.leb_le. reflexivity.
    + apply Nat.leb_le. reflexivity.
    + repeat constructor; unfold is_byte; discriminate.
    + reflexivity.
    + right. exists 0x41. by split.
    + split; [reflexivity|discriminate].
  - reflexivity.
  - reflexivity.
  - reflexivity.
  - reflexivity.
  - intros _ (M & _). discriminate M.
Defined.

(** The bytes after a ModR/M byte. In 64-bit mode without an address-size
    prefix, [x86_insn_decode_modrm_sib] consumes what the manual's addressing-form
    tables say if and only if the form is not a SIB form with mode 0 whose base
    field is 5, or whose base with REX.B is 7 or 14: the code compares the
    hardware number with the values of [RBP] and [R13] in another enumeration. *)
Theorem x86_modrm_length rd insn m s rd' insn' : peek_byte rd = Some m -> peek_byte (advance 1 rd) = Some s ->
  (List.length (operands insn) = 3)%nat -> Z.land (prefix insn) INSN_PREFIX_ADDRESS_SIZE = 0 ->
  x86_insn_decode_modrm_sib rd insn 64 = Some (rd', insn') ->
  (buffer_cursor rd' = buffer_cursor rd + 1 + sdm_tail m s <->
   ~ (modrm_mode m = 0 /\ modrm_rm m = 4 /\
      (sib_base s = 5 \/ full_base s (rex insn) = RBP \/ full_base s (rex insn) = R13))).
Proof.
  intros Pm Ps L A E. rewrite <- tails_agree. rewrite (decode_modrm_cursor _ _ m s Pm Ps L A _ _ E). lia.
Qed.

(** [mov eax, [rdi + rdi]] is taken for seven bytes. *)
Lemma x86_modrm_length_witness :
  exists rd' insn', x86_insn_decode_modrm_sib (Reader ([0x04; 0x3f] ++ nops) 0) zero_insn 64 = Some (rd', insn') /\
    (buffer_cursor rd' = 0 + 1 + sdm_tail 0x04 0x3f <->
     ~ (modrm_mode 0x04 = 0 /\ modrm_rm 0x04 = 4 /\
        (sib_base 0x3f = 5 \/ full_base 0x3f (rex zero_insn) = RBP \/ full_base 0x3f (rex zero_insn) = R13))).
Proof.
  destruct (x86_insn_decode_modrm_sib (Reader ([0x04; 0x3f] ++ nops) 0) zero_insn 64) as [[rd' insn']|] eqn:E.
  - exists rd', insn'. split; [reflexivity|].
    apply (x86_modrm_length (Reader ([0x04; 0x3f] ++ nops) 0) zero_insn 0x04 0x3f rd' insn'); try reflexivity.
    exact E.
  - vm_compute in E. discriminate E.
Defined.

(** The one-byte opcode map against the manual's in 64-bit mode, for every
    opcode, operand size and [reg] field: the entry says ModR/M exactly when the
    manual does unless the opcode is one of [odd_modrm], and reads the manual's
    number of immediate bytes unless it is one of [odd_imm]; on those it does not. *)
Theorem x86_one_byte_map op o reg : is_byte op -> o = 16 \/ o = 32 \/ o = 64 -> 0 <= reg < 8 ->
  exists spec, one_byte_spec op reg = Some spec /\
    (x86_insn_has_modrm_byte spec = sdm_modrm op <-> odd_modrm op = false) /\
    (entry_imm spec o = sdm_imm op o reg <-> odd_imm op o reg = false).
Proof. apply map_row. Qed.

Lemma x86_one_byte_map_witness :
  exists spec, one_byte_spec 0xff 4 = Some spec /\
    (x86_insn_has_modrm_byte spec = sdm_modrm 0xff <-> odd_modrm 0xff = false) /\
    (entry_imm spec 32 = sdm_imm 0xff 32 4 <-> odd_imm 0xff 32 4 = false).
Proof.
  apply (x86_one_byte_map 0xff 32 4).
  - split; [discriminate|reflexivity].
  - right. by left.
  - split; [discriminate|reflexivity].
Defined.

(** Instructions whose length the decoder gets wrong in 64-bit mode, with the
    decoded and the architectural length: [mov rax, imm64] (the quadword reader
    advances by four), [jmp [rip+d]] and [test eax, imm32] (group entries bring no
    operands), [mov eax, [rdi+rdi]] and [mov eax, [rbp*1+d]] (SIB bases), [enter]
    (one immediate), and the five-byte [nop]. *)
Theorem x86_lengths_wrong :
  map (fun c => x86_len c 64)
    [[0x48; 0xb8; 1; 2; 3; 4; 5; 6; 7; 8]; [0xff; 0x25; 1; 2; 3; 4]; [0xf7; 0xc0; 1; 2; 3; 4]; [0x8b; 0x04; 0x3f];
     [0x8b; 0x04; 0x25; 1; 2; 3; 4]; [0xc8; 1; 0; 0]; [0x0f; 0x1f; 0x44; 0; 0]] =
  map Some [6; 1; 1; 7; 3; 3; 2].
Proof. vm_compute. reflexivity. Qed.
