(* ===== verification/HashTable.v ===== *)
(** The resizable hash table of the dex library ([slicer/hash_table.h]).

    A value stands for a [T*] that is not null; a bucket holds an optional value
    and the index of the next bucket of its chain. [ndebug] is the build:
    [SLICER_CHECK(expr)] evaluates and checks [expr] without it, and expands to
    nothing with it, side effects of [expr] included ([slicer/common.h]); so does
    [assert]. [None] is the exit of a failed check.

    Then the invariant: the buckets of a partition are chains, one per hash bucket,
    along which the bucket indices fall; lookups find what the chains hold; a
    partition that replaces a full one is large enough. *)
From S2P Require Import Prelude.

Section HashTable.
Context {Key V : Type} (Hash : Key -> Z) (Compare : Key -> V -> bool) (GetKey : V -> Key).

Definition kInitialHashBuckets : Z := Z.shiftl 1 7 - 1.
Definition kAvgChainLength : Z := 2.
Definition kInvalidIndex : Z := u32 (-1).

Record Bucket := { value : option V; next : Z }.
Definition empty_bucket : Bucket := {| value := None; next := kInvalidIndex |}.

(** [buckets_] with the capacity that [reserve] gave it. *)
Record Partition := { buckets : list Bucket; capacity : Z; hash_buckets : Z }.

Definition newPartition (size : Z) : Partition :=
  {| buckets := repeat empty_bucket (Z.to_nat size);
     capacity := u32 (size * kAvgChainLength);
     hash_buckets := size |}.

(** The result is the function's [bool] and the partition. *)
Definition Partition_Insert (v : V) (p : Partition) : bool * Partition :=
  let size := Z.of_nat (length (buckets p)) in
  if size + 1 >? capacity p then (false, p)
  else
    let bucket_index := Z.to_nat (Hash (GetKey v) mod hash_buckets p) in
    match buckets p !! bucket_index with
    | None => (false, p)
    | Some b =>
        match value b with
        | None =>
            (true, {| buckets := <[bucket_index := {| value := Some v; next := next b |}]> (buckets p);
                      capacity := capacity p; hash_buckets := hash_buckets p |})
        | Some _ =>
            let new_bucket := {| value := Some v; next := next b |} in
            (true, {| buckets := <[bucket_index := {| value := value b; next := u32 size |}]> (buckets p) ++ [new_bucket];
                      capacity := capacity p; hash_buckets := hash_buckets p |})
        end
    end.

(** The walk along a chain. Only a hash bucket may be empty. *)
Fixpoint Lookup_loop (ndebug : bool) (fuel : nat) (key : Key) (bs : list Bucket) (hash_buckets index : Z) : option (option V) :=
  if index =? kInvalidIndex then Some None
  else
    match fuel with
    | O => None
    | S fuel =>
        b ← bs !! Z.to_nat index;
        match value b with
        | None => if ndebug || (index <? hash_buckets) then Some None else None
        | Some v => if Compare key v then Some (Some v) else Lookup_loop ndebug fuel key bs hash_buckets (next b)
        end
    end.
Definition Partition_Lookup (ndebug : bool) (key : Key) (hash_value : Z) (p : Partition) : option (option V) :=
  Lookup_loop ndebug (S (length (buckets p))) key (buckets p) (hash_buckets p) (hash_value mod hash_buckets p).

(** [SLICER_CHECK(f())]. *)
Definition checked_call {S : Type} (ndebug : bool) (f : S -> bool * S) (s : S) : option S :=
  if ndebug then Some s else let '(ok, s') := f s in if ok then Some s' else None.

Fixpoint InsertAll (ndebug : bool) (src : list Bucket) (p : Partition) : option Partition :=
  match src with
  | [] => Some p
  | b :: src =>
      p ← match value b with
          | Some v => checked_call ndebug (Partition_Insert v) p
          | None => Some p
          end;
      InsertAll ndebug src p
  end.

Record HashTable := { full_table : option Partition; insertion_table : Partition }.

Definition newHashTable : HashTable :=
  {| full_table := None; insertion_table := newPartition kInitialHashBuckets |}.

Definition Lookup (ndebug : bool) (key : Key) (t : HashTable) : option (option V) :=
  let hash_value := Hash key in
  match full_table t with
  | Some full =>
      found ← Partition_Lookup ndebug key hash_value full;
      match found with
      | Some v => Some (Some v)
      | None => Partition_Lookup ndebug key hash_value (insertion_table t)
      end
  | None => Partition_Lookup ndebug key hash_value (insertion_table t)
  end.

(** [HashBuckets() * kResizeFactor]: the double product, truncated, is
    [8 n / 5]. *)
Definition resized (n : Z) : Z := u32 (n * 8 / 5).

(** [assert(Lookup(hasher_.GetKey(value)) == nullptr)]. *)
Definition assert_new (ndebug : bool) (v : V) (t : HashTable) : option unit :=
  if ndebug then Some tt
  else found ← Lookup ndebug (GetKey v) t; match found with None => Some tt | Some _ => None end.
Definition Insert (ndebug : bool) (v : V) (t : HashTable) : option HashTable :=
  _ ← assert_new ndebug v t;
  let '(ok, it) := Partition_Insert v (insertion_table t) in
  if ok then Some {| full_table := full_table t; insertion_table := it |}
  else
    let new_hash_table := newPartition (resized (hash_buckets (insertion_table t))) in
    new_hash_table ← match full_table t with
                     | Some full => InsertAll ndebug (buckets full) new_hash_table
                     | None => Some new_hash_table
                     end;
    new_hash_table ← checked_call ndebug (Partition_Insert v) new_hash_table;
    Some {| full_table := Some (insertion_table t); insertion_table := new_hash_table |}.

Fixpoint InsertList (ndebug : bool) (vs : list V) (t : HashTable) : option HashTable :=
  match vs with
  | [] => Some t
  | v :: vs => t ← Insert ndebug v t; InsertList ndebug vs t
  end.
End HashTable.

(** The table with string-like keys used below: numbers hashed by themselves. *)
Definition num_insert (ndebug : bool) (vs : list Z) : option (@HashTable Z) :=
  InsertList (fun k => k) Z.eqb (fun v => v) ndebug vs newHashTable.
Definition num_lookup (ndebug : bool) (k : Z) (t : @HashTable Z) : option (option Z) :=
  Lookup (fun k => k) Z.eqb ndebug k t.

Section HashTableSpec.
Context {Key V : Type} (Hash : Key -> Z) (Compare : Key -> V -> bool) (GetKey : V -> Key).
Context (Compare_Hash : forall k v, Compare k v = true -> Hash (GetKey v) = Hash k).

Local Abbreviation Partition := (@Partition V).
Local Abbreviation Bucket := (@Bucket V).
Local Abbreviation Partition_Insert := (Partition_Insert Hash GetKey).

(** The values of a partition, in bucket order. *)
Definition bucket_values (bs : list Bucket) : list V := omap value bs.
Definition pvals (p : Partition) : list V := bucket_values (buckets p).

(** ** Chains *)

Fixpoint tail_at (bs : list Bucket) (hb bound : nat) (nx : Z) (vs : list V) : Prop :=
  match vs with
  | [] => nx = kInvalidIndex
  | v :: vs => exists (i : nat) n, nx = Z.of_nat i /\ (hb <= i < bound)%nat /\
      bs !! i = Some {| value := Some v; next := n |} /\ tail_at bs hb i n vs
  end.

Definition chain_at (bs : list Bucket) (hb h : nat) (vs : list V) : Prop :=
  match vs with
  | [] => bs !! h = Some empty_bucket
  | v :: vs => exists n, bs !! h = Some {| value := Some v; next := n |} /\ tail_at bs hb (length bs) n vs
  end.

Lemma tail_at_length bs hb bound nx vs : tail_at bs hb bound nx vs -> (length vs <= bound - hb)%nat.
Proof.
  revert bound nx. induction vs as [|v vs IH]; intros bound nx; cbn; [lia|].
  intros (i & n & _ & B & _ & T). apply IH in T. lia.
Qed.

Lemma tail_at_mono bs bs' hb bound bound' nx vs : (bound <= bound')%nat ->
  (forall i, (hb <= i < bound)%nat -> forall b, bs !! i = Some b -> bs' !! i = Some b) ->
  tail_at bs hb bound nx vs -> tail_at bs' hb bound' nx vs.
Proof.
  revert bound bound' nx. induction vs as [|v vs IH]; intros bound bound' nx B H; cbn; [trivial|].
  intros (i & n & -> & Bi & L & T). exists i, n. split_and!; [reflexivity|lia|lia|by apply H|].
  apply (IH i i); [lia| |assumption]. intros j Hj. apply H. lia.
Qed.

Record part_ok (p : Partition) (chains : nat -> list V) : Prop := {
  po_size : 127 <= hash_buckets p;
  po_capacity : capacity p = hash_buckets p * 2 /\ hash_buckets p * 2 < 2 ^ 32;
  po_length : hash_buckets p <= Z.of_nat (length (buckets p)) <= capacity p;
  po_chains : forall h, (h < Z.to_nat (hash_buckets p))%nat ->
    chain_at (buckets p) (Z.to_nat (hash_buckets p)) h (chains h);
  po_hash : forall h v, (h < Z.to_nat (hash_buckets p))%nat -> v ∈ chains h ->
    Hash (GetKey v) mod hash_buckets p = Z.of_nat h;
  po_values : forall v, v ∈ pvals p <-> exists h, (h < Z.to_nat (hash_buckets p))%nat /\ v ∈ chains h;
  po_count : Z.of_nat (length (buckets p)) <= hash_buckets p + Z.of_nat (length (pvals p))
}.
Definition partition_ok (p : Partition) : Prop := exists chains, part_ok p chains.

(** ** Lookup *)

Lemma index_valid (i : nat) : Z.of_nat i < 2 ^ 32 - 1 -> (Z.of_nat i =? kInvalidIndex) = false.
Proof. intros H. apply Z.eqb_neq. change kInvalidIndex with (2 ^ 32 - 1). lia. Qed.

Lemma Lookup_tail nd n fuel key bs hb bound nx vs : Z.of_nat bound <= 2 ^ 32 - 1 -> (length vs <= fuel)%nat ->
  tail_at bs hb bound nx vs -> Lookup_loop Compare nd fuel key bs n nx = Some (find (Compare key) vs).
Proof.
  revert fuel bound nx. induction vs as [|v vs IH]; intros fuel bound nx B F; cbn [tail_at find].
  - intros ->. destruct fuel; reflexivity.
  - intros (i & n' & -> & Bi & L & T). destruct fuel as [|fuel]; [cbn in F; lia|].
    cbn [Lookup_loop]. rewrite index_valid by lia. rewrite Nat2Z.id, L. cbn [mbind option_bind value next].
    destruct (Compare key v); [reflexivity|]. apply (IH fuel i); [lia|cbn in F; lia|assumption].
Qed.

Lemma hash_index h n : 0 < n -> (Z.to_nat (h mod n) < Z.to_nat n)%nat.
Proof. intros. pose proof (Z.mod_pos_bound h n). lia. Qed.

Lemma Partition_Lookup_chain nd p chains key : part_ok p chains ->
  Partition_Lookup Compare nd key (Hash key) p =
  Some (find (Compare key) (chains (Z.to_nat (Hash key mod hash_buckets p)))).
Proof.
  intros [S [C C'] L Ch _ _ _]. unfold Partition_Lookup.
  pose proof (hash_index (Hash key) (hash_buckets p) ltac:(lia)) as Hi.
  pose proof (Z.mod_pos_bound (Hash key) (hash_buckets p) ltac:(lia)) as Hb.
  specialize (Ch _ Hi). set (h := Hash key mod hash_buckets p) in *.
  cbn [Lookup_loop]. replace h with (Z.of_nat (Z.to_nat h)) by lia.
  rewrite index_valid by lia. rewrite !Nat2Z.id.
  destruct (chains (Z.to_nat h)) as [|v vs]; cbn [chain_at] in Ch.
  - rewrite Ch. cbn [mbind option_bind value empty_bucket].
    by rewrite (proj2 (Z.ltb_lt _ (hash_buckets p))), orb_true_r by lia.
  - destruct Ch as (n & -> & T). cbn [mbind option_bind value next find].
    destruct (Compare key v); [reflexivity|].
    apply (Lookup_tail nd _ _ key _ (Z.to_nat (hash_buckets p)) (length (buckets p))); [lia| |exact T].
    apply tail_at_length in T. lia.
Qed.

Definition found (key : Key) (vs : list V) (r : option V) : Prop :=
  match r with
  | Some v => v ∈ vs /\ Compare key v = true
  | None => forall v, v ∈ vs -> Compare key v = false
  end.

(** What compares equal to nothing is not found, whatever its hash is. *)
Lemma Partition_Lookup_none nd p key : partition_ok p -> found key (pvals p) None ->
  Partition_Lookup Compare nd key (Hash key) p = Some None.
Proof.
  intros [chains Ok] N. rewrite (Partition_Lookup_chain nd p chains key Ok). destruct (find _ _) as [v|] eqn:F; [|done].
  apply find_some in F as [Hin Hc]. rewrite N in Hc; [done|]. destruct Ok as [S _ _ _ _ Hv _]. apply Hv.
  pose proof (hash_index (Hash key) (hash_buckets p) ltac:(lia)) as Hi. eexists. split; [exact Hi|]. by apply list_elem_of_In.
Qed.

Lemma Partition_Lookup_spec nd p key : partition_ok p ->
  exists r, Partition_Lookup Compare nd key (Hash key) p = Some r /\ found key (pvals p) r.
Proof.
  intros [chains Ok]. rewrite (Partition_Lookup_chain nd p chains key Ok). eexists. split; [reflexivity|].
  destruct Ok as [S _ _ _ Hh Hv _].
  pose proof (hash_index (Hash key) (hash_buckets p) ltac:(lia)) as Hi.
  set (h := Z.to_nat (Hash key mod hash_buckets p)) in *.
  destruct (find (Compare key) (chains h)) as [v|] eqn:F; cbn [found].
  - apply find_some in F as [Hin Hc]. split; [|exact Hc]. apply Hv. exists h. split; [exact Hi|].
    by apply list_elem_of_In.
  - intros v Hin. apply Hv in Hin as (h' & Hh' & Hin). destruct (Compare key v) eqn:C; [|reflexivity].
    exfalso. pose proof (Hh h' v Hh' Hin) as E. rewrite (Compare_Hash key v C) in E.
    assert (Eh : h = h') by (unfold h; lia). subst h'.
    rewrite (find_none _ _ F v) in C; [discriminate|]. by apply list_elem_of_In.
Qed.

(** ** New partitions *)

Lemma bucket_values_empty n : bucket_values (repeat empty_bucket n) = [].
Proof. induction n; [reflexivity|assumption]. Qed.

Lemma repeat_lookup {A} (x : A) n i : (i < n)%nat -> repeat x n !! i = Some x.
Proof. revert i. induction n as [|n IH]; intros [|i] H; cbn; try lia; [reflexivity|]. apply IH. lia. Qed.

Lemma newPartition_ok size : 127 <= size -> size * 2 < 2 ^ 32 ->
  partition_ok (newPartition size) /\ pvals (newPartition size) = [].
Proof.
  intros S C. assert (E : pvals (newPartition size) = []) by apply bucket_values_empty.
  split; [|exact E]. exists (fun _ => []).
  assert (Cap : capacity (@newPartition V size) = size * 2).
  { cbn [capacity newPartition]. apply trunc_small. unfold kAvgChainLength. lia. }
  constructor; rewrite ?Cap, ?E; cbn [hash_buckets buckets newPartition]; rewrite ?repeat_length; try lia.
  - intros h Hh. cbn. apply repeat_lookup. exact Hh.
  - intros h v _ Hin. by apply elem_of_nil in Hin.
  - intros v. split; [intros Hin; by apply elem_of_nil in Hin|]. intros (h & _ & Hin). by apply elem_of_nil in Hin.
Qed.

(** ** Insertion *)

Lemma omap_insert_new bs i b v n : bs !! i = Some b -> value b = None ->
  bucket_values (<[i := {| value := Some v; next := n |}]> bs) ≡ₚ v :: bucket_values bs.
Proof.
  intros L N. unfold bucket_values. rewrite insert_take_drop by (by eapply lookup_lt_Some).
  rewrite <- (take_drop_middle bs i b L) at 3. rewrite !omap_app. cbn. rewrite N.
  by rewrite Permutation_middle.
Qed.

Lemma omap_insert_same bs i b n : bs !! i = Some b ->
  bucket_values (<[i := {| value := value b; next := n |}]> bs) = bucket_values bs.
Proof.
  intros L. unfold bucket_values. rewrite insert_take_drop by (by eapply lookup_lt_Some).
  rewrite <- (take_drop_middle bs i b L) at 3. rewrite !omap_app. cbn. reflexivity.
Qed.

(** The chains after an insertion into chain [h]. *)
Definition chain_push (h : nat) (v : V) (chains : nat -> list V) : nat -> list V :=
  fun h' => if decide (h' = h) then
              match chains h with [] => [v] | w :: ws => w :: v :: ws end
            else chains h'.

Lemma chain_push_elem h v chains h' w :
  w ∈ chain_push h v chains h' <-> (h' = h /\ w = v) \/ w ∈ chains h'.
Proof.
  unfold chain_push. destruct (decide (h' = h)) as [->|N].
  - destruct (chains h); rewrite ?elem_of_cons, ?elem_of_nil; (intuition congruence || (clear; intuition)).
  - intuition.
Qed.

(** Chains other than [h] do not meet bucket [h]. *)
Lemma chain_at_frame bs bs' hb h h' vs : (length bs <= length bs')%nat ->
  (forall i, i <> h -> forall b, bs !! i = Some b -> bs' !! i = Some b) ->
  (h < hb)%nat -> h' <> h -> chain_at bs hb h' vs -> chain_at bs' hb h' vs.
Proof.
  intros L F Hh N. destruct vs as [|v vs]; cbn [chain_at].
  - intros E. by apply F.
  - intros (n & E & T). exists n. split; [by apply F|].
    apply (tail_at_mono bs bs' hb (length bs)); [exact L| |exact T]. intros i Hi. apply F. lia.
Qed.

Lemma lookup_insert_other (bs : list Bucket) h b i c : i <> h -> bs !! i = Some c -> <[h := b]> bs !! i = Some c.
Proof. intros N E. by rewrite list_lookup_insert_ne. Qed.

Lemma Partition_Insert_ok v p : partition_ok p -> Z.of_nat (length (buckets p)) < capacity p ->
  exists p', Partition_Insert v p = (true, p') /\ partition_ok p' /\ pvals p' ≡ₚ v :: pvals p /\
    hash_buckets p' = hash_buckets p /\ capacity p' = capacity p /\
    (length (buckets p') <= S (length (buckets p)))%nat.
Proof.
  intros [chains [S [C C'] L Ch Hh Hv Hc]] Room. unfold HashTable.Partition_Insert. cbv zeta.
  assert (G : (Z.of_nat (length (buckets p)) + 1 >? capacity p) = false) by (rewrite Z.gtb_ltb; apply Z.ltb_ge; lia).
  rewrite G. clear G.
  pose proof (hash_index (Hash (GetKey v)) (hash_buckets p) ltac:(lia)) as Hi.
  pose proof (Z.mod_pos_bound (Hash (GetKey v)) (hash_buckets p) ltac:(lia)) as Hb.
  assert (Eh : Hash (GetKey v) mod hash_buckets p = Z.of_nat (Z.to_nat (Hash (GetKey v) mod hash_buckets p))) by lia.
  set (h := Z.to_nat (Hash (GetKey v) mod hash_buckets p)) in *.
  pose proof (Ch h Hi) as Chh.
  destruct (chains h) as [|w ws] eqn:Ec; cbn [chain_at] in Chh.
  - rewrite Chh. cbn [value empty_bucket next].
    eexists. split; [reflexivity|].
    pose proof (omap_insert_new (buckets p) h empty_bucket v kInvalidIndex Chh eq_refl) as P.
    split; [|split_and!; try reflexivity; [exact P|cbn [buckets]; rewrite length_insert; lia]].
    exists (chain_push h v chains).
    constructor; cbn [buckets capacity hash_buckets]; rewrite ?length_insert; try (assumption || lia).
    + intros h' Hh'. unfold chain_push. destruct (decide (h' = h)) as [->|N].
      * rewrite Ec. cbn [chain_at]. exists kInvalidIndex. split; [|reflexivity].
        apply list_lookup_insert_eq. by eapply lookup_lt_Some.
      * apply (chain_at_frame (buckets p) _ _ h); rewrite ?length_insert; try (lia || assumption); [|by apply Ch].
        intros i Ni b. by apply lookup_insert_other.
    + intros h' u Hh' [[-> ->]|Hin]%chain_push_elem; [exact Eh|by apply Hh].
    + intros u. unfold pvals. cbn [buckets]. rewrite P, elem_of_cons. setoid_rewrite chain_push_elem.
      unfold pvals in Hv. rewrite Hv. naive_solver.
    + unfold pvals. cbn [buckets]. rewrite P. cbn [length]. unfold pvals in Hc. lia.
  - destruct Chh as (n & Eb & T). rewrite Eb. cbn [value next].
    eexists. split; [reflexivity|].
    pose proof (omap_insert_same (buckets p) h _ (u32 (Z.of_nat (length (buckets p)))) Eb) as P.
    set (bs' := <[h := _]> (buckets p) ++ [_]).
    assert (P' : bucket_values bs' ≡ₚ v :: pvals p).
    { unfold bs', bucket_values. rewrite omap_app. unfold bucket_values in P. cbn [value] in P. rewrite P.
      symmetry. apply Permutation_cons_append. }
    assert (Lb : length bs' = Datatypes.S (length (buckets p))).
    { unfold bs'. rewrite length_app, length_insert. cbn. lia. }
    assert (U : u32 (Z.of_nat (length (buckets p))) = Z.of_nat (length (buckets p))) by (apply trunc_small; lia).
    assert (Fr : forall i, i <> h -> forall b, buckets p !! i = Some b -> bs' !! i = Some b).
    { intros i Ni b E. unfold bs'. apply lookup_app_l_Some. by apply lookup_insert_other. }
    split; [|split_and!; try reflexivity; [exact P'|cbn [buckets]; lia]].
    exists (chain_push h v chains).
    constructor; cbn [buckets capacity hash_buckets]; rewrite ?Lb; try (assumption || lia).
    + intros h' Hh'. unfold chain_push. destruct (decide (h' = h)) as [->|N].
      * rewrite Ec. cbn [chain_at]. exists (u32 (Z.of_nat (length (buckets p)))). split.
        { unfold bs'. apply lookup_app_l_Some. apply list_lookup_insert_eq. by eapply lookup_lt_Some. }
        rewrite U. cbn [tail_at]. exists (length (buckets p)), n. split_and!; [reflexivity|lia|lia| |].
        { unfold bs'. rewrite lookup_app_r by (rewrite length_insert; lia). rewrite length_insert, Nat.sub_diag. reflexivity. }
        apply (tail_at_mono (buckets p) _ _ (length (buckets p))); [lia| |exact T]. intros i Hi'. apply Fr. lia.
      * apply (chain_at_frame (buckets p) _ _ h); try (lia || assumption). by apply Ch.
    + intros h' u Hh' [[-> ->]|Hin]%chain_push_elem; [exact Eh|by apply Hh].
    + intros u. unfold pvals. cbn [buckets]. rewrite P', elem_of_cons. setoid_rewrite chain_push_elem.
      rewrite Hv. naive_solver.
    + unfold pvals at 1. cbn [buckets]. rewrite P'. cbn [length]. lia.
Qed.

Lemma Partition_Insert_full v p : capacity p <= Z.of_nat (length (buckets p)) -> Partition_Insert v p = (false, p).
Proof.
  intros H. unfold HashTable.Partition_Insert. cbv zeta.
  assert (G : (Z.of_nat (length (buckets p)) + 1 >? capacity p) = true) by (rewrite Z.gtb_ltb; apply Z.ltb_lt; lia).
  by rewrite G.
Qed.

Lemma InsertAll_ok src : forall p, partition_ok p ->
  Z.of_nat (length (buckets p)) + Z.of_nat (length (bucket_values src)) <= capacity p ->
  exists p', InsertAll Hash GetKey false src p = Some p' /\ partition_ok p' /\
    Permutation (pvals p') (bucket_values src ++ pvals p) /\
    hash_buckets p' = hash_buckets p /\ capacity p' = capacity p /\
    (length (buckets p') <= length (bucket_values src) + length (buckets p))%nat.
Proof.
  induction src as [|b src IH]; intros p Ok C.
  - exists p. by split_and!.
  - cbn [InsertAll]. unfold bucket_values in *. cbn [omap list_omap] in *. destruct (value b) as [v|].
    + cbn [length] in C. destruct (Partition_Insert_ok v p Ok) as (p1 & E & Ok1 & P1 & Hb1 & C1 & L1); [lia|].
      unfold checked_call. rewrite E. cbn [mbind option_bind].
      destruct (IH p1 Ok1) as (p2 & -> & Ok2 & P2 & Hb2 & C2 & L2); [rewrite C1; lia|].
      exists p2. split_and!; [reflexivity|exact Ok2| |congruence|congruence|cbn [length]; lia].
      rewrite P2, P1. cbn [app]. symmetry. apply Permutation_middle.
    + cbn [mbind option_bind]. by apply IH.
Qed.

(** ** The table *)

Definition table_vals (t : @HashTable V) : list V :=
  match full_table t with Some p => pvals p | None => [] end ++ pvals (insertion_table t).

(** The full table is the smaller one, and a table of [n] buckets is only made
    once about [n / 2] values are there. *)
Record table_ok (t : @HashTable V) : Prop := {
  to_insertion : partition_ok (insertion_table t);
  to_full : match full_table t with
            | Some p => partition_ok p /\ hash_buckets (insertion_table t) = hash_buckets p * 8 / 5
            | None => True
            end;
  to_bound : hash_buckets (insertion_table t) <= 127 + 2 * Z.of_nat (length (table_vals t))
}.

Lemma newHashTable_ok : table_ok newHashTable /\ table_vals newHashTable = [].
Proof.
  destruct (newPartition_ok kInitialHashBuckets) as [Ok E]; [discriminate|reflexivity|].
  assert (T : table_vals newHashTable = []) by exact E.
  split; [|exact T]. constructor; [exact Ok|exact I|]. rewrite T. discriminate.
Qed.

Lemma pvals_length p : (length (pvals p) <= length (buckets p))%nat.
Proof.
  unfold pvals, bucket_values. induction (buckets p) as [|b bs IH]; [reflexivity|].
  cbn. destruct (value b); cbn; lia.
Qed.

Lemma Lookup_none nd k t : table_ok t -> found k (table_vals t) None -> Lookup Hash Compare nd k t = Some None.
Proof.
  intros [Ok Full _] N. unfold Lookup, table_vals in *. cbn [found] in N.
  destruct (full_table t) as [p|]; [rewrite (Partition_Lookup_none nd p) by (try apply Full; intros v Hv; apply N, elem_of_app; by left); cbn [mbind option_bind]|];
    (apply Partition_Lookup_none; [done|]; intros v Hv; apply N, elem_of_app; by right).
Qed.

Lemma Insert_ok v t : table_ok t -> Z.of_nat (length (table_vals t)) < 2 ^ 28 -> found (GetKey v) (table_vals t) None ->
  exists t', Insert Hash Compare GetKey false v t = Some t' /\ table_ok t' /\ Permutation (table_vals t') (v :: table_vals t).
Proof.
  intros Okt N New. unfold Insert, assert_new. rewrite (Lookup_none false _ t Okt New). cbn [mbind option_bind]. destruct Okt as [Ok Full B]. set (it := insertion_table t) in *.
  destruct (Z.lt_ge_cases (Z.of_nat (length (buckets it))) (capacity it)) as [R|R].
  - destruct (Partition_Insert_ok v it Ok R) as (p' & -> & Ok' & P & Hb & C & L).
    eexists. split; [reflexivity|].
    assert (T : Permutation (table_vals {| full_table := full_table t; insertion_table := p' |}) (v :: table_vals t)).
    { unfold table_vals. cbn [full_table insertion_table]. rewrite P. symmetry. apply Permutation_middle. }
    split; [|exact T]. constructor; cbn [full_table insertion_table]; [exact Ok'| |].
    + destruct (full_table t); [|exact I]. rewrite Hb. exact Full.
    + rewrite T, Hb. cbn [length]. lia.
  - rewrite (Partition_Insert_full v it R). unfold resized, checked_call.
    assert (It : 127 <= hash_buckets it /\ capacity it = hash_buckets it * 2 /\
       hash_buckets it <= Z.of_nat (length (pvals it))).
    { destruct Ok as [chains [S [C C'] Lc _ _ _ Cn]]. split_and!; lia. }
    destruct It as (S & C & Cn).
    assert (Nt : Z.of_nat (length (pvals it)) <= Z.of_nat (length (table_vals t))).
    { unfold table_vals. fold it. rewrite length_app. lia. }
    set (n := hash_buckets it * 8 / 5).
    assert (Hn : n * 5 <= hash_buckets it * 8 < n * 5 + 5).
    { unfold n. pose proof (Z.div_mod (hash_buckets it * 8) 5). pose proof (Z.mod_pos_bound (hash_buckets it * 8) 5). lia. }
    assert (U : u32 n = n) by (apply trunc_small; lia). rewrite U.
    destruct (newPartition_ok n) as [On En]; [lia|lia|].
    assert (Ln : Z.of_nat (length (buckets (@newPartition V n))) = n).
    { cbn [buckets newPartition]. rewrite repeat_length. lia. }
    assert (Cap : capacity (@newPartition V n) = n * 2).
    { cbn [capacity newPartition]. apply trunc_small. unfold kAvgChainLength. lia. }
    assert (All : exists p1, match full_table t with
        | Some full => InsertAll Hash GetKey false (buckets full) (newPartition n)
        | None => Some (newPartition n) end = Some p1 /\ partition_ok p1 /\
        Permutation (pvals p1) (match full_table t with Some p => pvals p | None => [] end) /\
        hash_buckets p1 = n /\ capacity p1 = n * 2 /\ Z.of_nat (length (buckets p1)) < n * 2).
    { destruct (full_table t) as [full|].
      - destruct Full as [Okf Eh].
        assert (Lf : Z.of_nat (length (pvals full)) <= hash_buckets full * 2 /\ 127 <= hash_buckets full).
        { pose proof (pvals_length full). destruct Okf as [chains [Sf [Cf Cf'] Lf _ _ _ _]]. lia. }
        destruct (InsertAll_ok (buckets full) (newPartition n) On) as (p1 & E & Ok1 & P1 & Hb1 & C1 & L1).
        { fold (pvals full). rewrite Ln, Cap. Z.to_euclidean_division_equations. lia. }
        exists p1. split_and!; [exact E|exact Ok1| |exact Hb1|congruence|].
        + rewrite P1, En, app_nil_r. reflexivity.
        + fold (pvals full) in L1. Z.to_euclidean_division_equations. lia.
      - exists (newPartition n). split_and!; try assumption; [reflexivity|by rewrite En|reflexivity|lia]. }
    destruct All as (p1 & -> & Ok1 & P1 & Hb1 & C1 & L1). cbn [mbind option_bind].
    destruct (Partition_Insert_ok v p1 Ok1) as (p2 & -> & Ok2 & P2 & Hb2 & C2 & L2); [lia|].
    cbn [mbind option_bind]. eexists. split; [reflexivity|].
    assert (T : Permutation (table_vals {| full_table := Some it; insertion_table := p2 |}) (v :: table_vals t)).
    { unfold table_vals. cbn [full_table insertion_table]. fold it. rewrite P2, P1.
      rewrite <- Permutation_middle. f_equiv. apply Permutation_app_comm. }
    split; [|exact T]. constructor; cbn [full_table insertion_table]; [exact Ok2|split; [exact Ok|rewrite Hb2, Hb1; reflexivity]|].
    rewrite T, Hb2, Hb1. cbn [length]. lia.
Qed.

Lemma found_app k vs ws r : found k vs None -> found k ws r -> found k (vs ++ ws) r.
Proof.
  destruct r as [v|]; cbn; intros H1 H2.
  - destruct H2. split; [|assumption]. apply elem_of_app. by right.
  - intros v [Hv|Hv]%elem_of_app; auto.
Qed.

Lemma Lookup_ok nd k t : table_ok t ->
  exists r, Lookup Hash Compare nd k t = Some r /\ found k (table_vals t) r.
Proof.
  intros [Ok Full _]. unfold Lookup, table_vals.
  destruct (Partition_Lookup_spec nd (insertion_table t) k Ok) as (r & Er & Fr).
  destruct (full_table t) as [p|]; [|exists r; by split].
  destruct Full as [Okf _]. destruct (Partition_Lookup_spec nd p k Okf) as (rf & -> & Ff).
  cbn [mbind option_bind]. destruct rf as [v|].
  - exists (Some v). split; [reflexivity|]. destruct Ff. split; [|assumption]. apply elem_of_app. by left.
  - exists r. split; [exact Er|]. by apply found_app.
Qed.

Lemma found_perm k vs ws r : Permutation vs ws -> found k vs r -> found k ws r.
Proof.
  intros P. destruct r as [v|]; cbn.
  - intros [H ?]. split; [|assumption]. by rewrite <- P.
  - intros H v Hv. apply H. by rewrite P.
Qed.

(** The key of no value compares equal to a value before it. *)
Fixpoint keys_new (seen vs : list V) : bool :=
  match vs with
  | [] => true
  | v :: vs => negb (existsb (Compare (GetKey v)) seen) && keys_new (v :: seen) vs
  end.
Lemma not_seen k seen : existsb (Compare k) seen = false <-> found k seen None.
Proof.
  cbn [found]. split.
  - intros E v Hv. destruct (Compare k v) eqn:C; [|done]. rewrite <- E. symmetry. apply existsb_exists. exists v. split; [by apply list_elem_of_In|done].
  - intros N. destruct (existsb _ _) eqn:E; [|done]. apply existsb_exists in E as (v & Hv & C). by rewrite N in C by by apply list_elem_of_In.
Qed.
Lemma keys_new_perm vs : forall seen seen', Permutation seen seen' -> keys_new seen vs = keys_new seen' vs.
Proof.
  induction vs as [|v vs IH]; intros seen seen' P; [done|]. cbn [keys_new]. rewrite (IH (v :: seen) (v :: seen')) by (by rewrite P). do 2 f_equal.
  apply eq_true_iff_eq. rewrite !existsb_exists. split; intros (w & Hw & C); exists w; (split; [|done]); rewrite <- list_elem_of_In in *; by rewrite P + rewrite <- P.
Qed.

(** Inserting a list ends well exactly when every key is new. *)
Lemma InsertList_ok vs : forall t, table_ok t -> Z.of_nat (length (table_vals t)) + Z.of_nat (length vs) < 2 ^ 28 ->
  if keys_new (table_vals t) vs then
    exists t', InsertList Hash Compare GetKey false vs t = Some t' /\ table_ok t' /\ Permutation (table_vals t') (rev vs ++ table_vals t)
  else InsertList Hash Compare GetKey false vs t = None.
Proof.
  induction vs as [|v vs IH]; intros t Ok N; cbn [keys_new]; [exists t; by split_and!|].
  cbn [InsertList]. cbn [length] in N. destruct (existsb (Compare (GetKey v)) (table_vals t)) eqn:E; cbn [negb andb].
  - destruct (Lookup_ok false (GetKey v) t Ok) as (r & Lr & F). unfold Insert, assert_new. rewrite Lr. cbn [mbind option_bind].
    destruct r as [w|]; [done|]. apply not_seen in F. by rewrite E in F.
  - apply not_seen in E. destruct (Insert_ok v t Ok) as (t1 & -> & Ok1 & P1); [lia|done|]. cbn [mbind option_bind].
    specialize (IH t1 Ok1 ltac:(rewrite P1; cbn [length]; lia)). rewrite (keys_new_perm vs _ _ P1) in IH.
    destruct (keys_new (v :: table_vals t) vs); [|done]. destruct IH as (t2 & E2 & Ok2 & P2). exists t2. split_and!; [exact E2|exact Ok2|].
    rewrite P2, P1. cbn [rev]. by rewrite <- app_assoc.
Qed.
End HashTableSpec.
