(* ===== verification/SlicerBuffer.v ===== *)
(** The growing buffer and the index allocator of the dex library
    ([slicer/buffer.h], [slicer/index_map.h]).

    The memory of a buffer is the list of its [capacity_] bytes; the bytes that
    [realloc] adds are whatever [fresh] gives. Sizes are unbounded: no buffer
    comes near 2{^64} bytes. *)
From S2P Require Import Prelude Leb128.

Record SBuffer := { buff_ : list byte; size_ : nat; capacity_ : nat; sealed_ : bool }.

Definition newSBuffer : SBuffer := {| buff_ := []; size_ := 0; capacity_ := 0; sealed_ := false |}.

(** A failed [SLICER_CHECK] of a debug build is [None]. *)
Definition SLICER_CHECK (ndebug cond : bool) : option unit :=
  if ndebug || cond then Some tt else None.

Lemma SLICER_CHECK_true ndebug b : b = true -> SLICER_CHECK ndebug b = Some tt.
Proof. intros ->. unfold SLICER_CHECK. by rewrite orb_true_r. Qed.

Section Buffer.
Context (ndebug : bool) (fresh : nat -> list byte).

(** [size_t(capacity_ * 1.5)] is [3 c / 2]. *)
Definition Expand (size : nat) (b : SBuffer) : option SBuffer :=
  _ ← SLICER_CHECK ndebug (negb (sealed_ b));
  let b :=
    if (capacity_ b <? size_ b + size)%nat then
      let capacity := Nat.max (capacity_ b * 3 / 2) (size_ b + size) in
      {| buff_ := buff_ b ++ fresh (capacity - capacity_ b)%nat; size_ := size_ b;
         capacity_ := capacity; sealed_ := sealed_ b |}
    else b in
  Some {| buff_ := buff_ b; size_ := size_ b + size; capacity_ := capacity_ b; sealed_ := sealed_ b |}.

Definition write (b : SBuffer) (offset : nat) (bs : list byte) : SBuffer :=
  {| buff_ := splice offset bs (buff_ b); size_ := size_ b; capacity_ := capacity_ b; sealed_ := sealed_ b |}.

(** [Alloc] and [Push] return the offset. *)
Definition Alloc (size : nat) (b : SBuffer) : option (nat * SBuffer) :=
  let offset := size_ b in
  b ← Expand size b;
  Some (offset, write b offset (repeat 0 size)).

Definition Push (bs : list byte) (b : SBuffer) : option (nat * SBuffer) :=
  let offset := size_ b in
  b ← Expand (length bs) b;
  Some (offset, write b offset bs).

Definition Align (alignment : nat) (b : SBuffer) : option SBuffer :=
  let rem := (size_ b mod alignment)%nat in
  if (rem =? 0)%nat then Some b
  else '(_, b) ← Alloc (alignment - rem) b; Some b.

Definition Seal (alignment : nat) (b : SBuffer) : option (nat * SBuffer) :=
  _ ← SLICER_CHECK ndebug (negb (sealed_ b));
  b ← Align alignment b;
  Some (size_ b, {| buff_ := buff_ b; size_ := size_ b; capacity_ := capacity_ b; sealed_ := true |}).

(** The encoders write into [u1 tmp[4]]: a fifth byte is out of its bounds,
    [None]. *)
Definition PushULeb128 (value : Z) (b : SBuffer) : option (nat * SBuffer) :=
  tmp ← WriteULeb128 leb_fuel value;
  if (length tmp <=? 4)%nat then Push tmp b else None.

Definition PushSLeb128 (value : Z) (b : SBuffer) : option (nat * SBuffer) :=
  tmp ← WriteSLeb128 leb_fuel value;
  if (length tmp <=? 4)%nat then Push tmp b else None.

Definition Free (b : SBuffer) : SBuffer :=
  {| buff_ := []; size_ := 0; capacity_ := 0; sealed_ := sealed_ b |}.
End Buffer.

(** [data()] up to [size()]. *)
Definition contents (b : SBuffer) : list byte := take (size_ b) (buff_ b).

(** ** [IndexMap] *)

Record IndexMap := { indexes_map_ : list bool; alloc_pos_ : nat }.
Definition newIndexMap : IndexMap := {| indexes_map_ := []; alloc_pos_ := 0 |}.

Definition MarkUsedIndex (ndebug : bool) (index : nat) (m : IndexMap) : option IndexMap :=
  let map_ :=
    if (length (indexes_map_ m) <=? index)%nat then
      indexes_map_ m ++ repeat false (S index - length (indexes_map_ m))
    else indexes_map_ m in
  _ ← SLICER_CHECK ndebug (negb (default false (map_ !! index)));
  Some {| indexes_map_ := <[index := true]> map_; alloc_pos_ := alloc_pos_ m |}.

(** The search for a free position from [alloc_pos_] on. *)
Fixpoint skip_used (map_ : list bool) (pos : nat) : nat :=
  match map_ with
  | true :: map_ => skip_used map_ (S pos)
  | _ => pos
  end.

Definition AllocateIndex (ndebug : bool) (m : IndexMap) : option (nat * IndexMap) :=
  let pos := skip_used (drop (alloc_pos_ m) (indexes_map_ m)) (alloc_pos_ m) in
  m ← MarkUsedIndex ndebug pos {| indexes_map_ := indexes_map_ m; alloc_pos_ := pos |};
  Some (pos, {| indexes_map_ := indexes_map_ m; alloc_pos_ := S pos |}).

(** ** Invariants *)

Definition sbuffer_ok (b : SBuffer) : Prop :=
  length (buff_ b) = capacity_ b /\ (size_ b <= capacity_ b)%nat.

Section BufferSpec.
Context (ndebug : bool) (fresh : nat -> list byte) (fresh_length : forall n, length (fresh n) = n).

Lemma Expand_ok n b : sbuffer_ok b -> sealed_ b = false ->
  exists b', Expand ndebug fresh n b = Some b' /\ sbuffer_ok b' /\ size_ b' = (size_ b + n)%nat /\
    sealed_ b' = false /\ take (size_ b) (buff_ b') = contents b.
Proof.
  intros [L S] Ns. unfold Expand, SLICER_CHECK. rewrite Ns, orb_true_r. cbn [mbind option_bind]. cbv zeta.
  eexists. split; [reflexivity|]. unfold sbuffer_ok, contents.
  destruct (Nat.ltb_spec (capacity_ b) (size_ b + n)); cbn [buff_ size_ capacity_ sealed_];
    split_and!; try (assumption || reflexivity || lia).
  - rewrite length_app, fresh_length. lia.
  - apply take_app_le. lia.
Qed.

Lemma write_ok b bs off : sbuffer_ok b -> (off + length bs <= capacity_ b)%nat -> sbuffer_ok (write b off bs).
Proof. intros [L S] H. split; [|exact S]. cbn. rewrite length_splice; lia. Qed.

(** Pushing appends. *)
Lemma Push_ok bs b : sbuffer_ok b -> sealed_ b = false ->
  exists b', Push ndebug fresh bs b = Some (size_ b, b') /\ sbuffer_ok b' /\ sealed_ b' = false /\
    contents b' = contents b ++ bs.
Proof.
  intros Ok Ns. unfold Push. cbv zeta. destruct (Expand_ok (length bs) b Ok Ns) as (b1 & -> & Ok1 & S1 & N1 & C1).
  cbn [mbind option_bind]. eexists. split; [reflexivity|].
  split_and!; [apply write_ok; [exact Ok1|destruct Ok1; lia]|exact N1|].
  unfold contents at 1. cbn [write size_ buff_]. rewrite S1. destruct Ok1 as [L1 Z1].
  unfold splice. rewrite C1, app_assoc. apply take_app_length'.
  rewrite length_app. unfold contents. rewrite length_take. destruct Ok. lia.
Qed.

Lemma Alloc_ok n b : sbuffer_ok b -> sealed_ b = false ->
  exists b', Alloc ndebug fresh n b = Some (size_ b, b') /\ sbuffer_ok b' /\ sealed_ b' = false /\
    contents b' = contents b ++ repeat 0 n.
Proof.
  intros Ok Ns. destruct (Push_ok (repeat 0 n) b Ok Ns) as (b' & E & R). exists b'. split; [|exact R].
  rewrite <- E. unfold Alloc, Push. by rewrite repeat_length.
Qed.

Lemma contents_length b : sbuffer_ok b -> length (contents b) = size_ b.
Proof. intros [L S]. unfold contents. rewrite length_take. lia. Qed.
End BufferSpec.

(** ** The index map *)

Definition used (m : IndexMap) (i : nat) : Prop := indexes_map_ m !! i = Some true.

(** Everything below the allocation position is taken. *)
Definition index_ok (m : IndexMap) : Prop := forall i, (i < alloc_pos_ m)%nat -> used m i.

Lemma skip_used_spec l pos :
  (pos <= skip_used l pos)%nat /\ (forall i, (pos <= i < skip_used l pos)%nat -> l !! (i - pos)%nat = Some true) /\
  l !! (skip_used l pos - pos)%nat <> Some true.
Proof.
  revert pos. induction l as [|[|] l IH]; intros pos; cbn [skip_used].
  - split_and!; [lia|intros; lia|discriminate].
  - destruct (IH (S pos)) as (H1 & H2 & H3). split_and!; [lia| |].
    + intros i Hi. destruct (decide (i = pos)) as [->|N]; [by rewrite Nat.sub_diag|].
      replace (i - pos)%nat with (S (i - S pos)) by lia. cbn. apply H2. lia.
    + replace (skip_used l (S pos) - pos)%nat with (S (skip_used l (S pos) - S pos)) by lia. exact H3.
  - split_and!; [lia|intros; lia|]. rewrite Nat.sub_diag. discriminate.
Qed.

Lemma lookup_grown (l : list bool) n i : (l ++ repeat false n) !! i = Some true <-> l !! i = Some true.
Proof.
  destruct (decide (i < length l)%nat) as [H|H].
  - by rewrite lookup_app_l.
  - rewrite lookup_app_r by lia. rewrite (lookup_ge_None_2 l) by lia. split; [|discriminate].
    intros E%list_elem_of_lookup_2. apply list_elem_of_In, repeat_spec in E. discriminate.
Qed.

Lemma MarkUsedIndex_ok ndebug i m : ~ used m i ->
  exists m', MarkUsedIndex ndebug i m = Some m' /\ alloc_pos_ m' = alloc_pos_ m /\
    forall j, used m' j <-> j = i \/ used m j.
Proof.
  intros Nu. unfold MarkUsedIndex, SLICER_CHECK. cbv zeta.
  set (l := if (length (indexes_map_ m) <=? i)%nat then _ else _).
  assert (U : forall j, l !! j = Some true <-> used m j).
  { intros j. unfold l, used. destruct (Nat.leb_spec (length (indexes_map_ m)) i); [apply lookup_grown|tauto]. }
  assert (B : (i < length l)%nat).
  { unfold l. destruct (Nat.leb_spec (length (indexes_map_ m)) i); [|lia]. rewrite length_app, repeat_length. lia. }
  assert (C : default false (l !! i) = false).
  { destruct (l !! i) as [[|]|] eqn:E; [|reflexivity|reflexivity]. exfalso. by apply Nu, U. }
  rewrite C, orb_true_r. cbn [mbind option_bind]. eexists. split; [reflexivity|]. split; [reflexivity|].
  intros j. unfold used at 1. cbn [indexes_map_]. destruct (decide (j = i)) as [->|N].
  - rewrite list_lookup_insert_eq by exact B. tauto.
  - rewrite list_lookup_insert_ne by congruence. rewrite U. tauto.
Qed.

Lemma AllocateIndex_ok ndebug m : index_ok m ->
  exists i m', AllocateIndex ndebug m = Some (i, m') /\ ~ used m i /\ (forall j, (j < i)%nat -> used m j) /\
    (forall j, used m' j <-> j = i \/ used m j) /\ index_ok m'.
Proof.
  intros Ok. unfold AllocateIndex. cbv zeta.
  destruct (skip_used_spec (drop (alloc_pos_ m) (indexes_map_ m)) (alloc_pos_ m)) as (S1 & S2 & S3).
  set (pos := skip_used _ _) in *. rewrite lookup_drop in S3.
  replace (alloc_pos_ m + (pos - alloc_pos_ m))%nat with pos in S3 by lia.
  destruct (MarkUsedIndex_ok ndebug pos {| indexes_map_ := indexes_map_ m; alloc_pos_ := pos |} S3) as (m' & -> & _ & U).
  cbn [mbind option_bind].
  assert (Below : forall j, (j < pos)%nat -> used m j).
  { intros j Hj. destruct (decide (j < alloc_pos_ m)%nat) as [H|H]; [by apply Ok|].
    specialize (S2 j ltac:(lia)). rewrite lookup_drop in S2. unfold used.
    by replace (alloc_pos_ m + (j - alloc_pos_ m))%nat with j in S2 by lia. }
  eexists _, _. split; [reflexivity|]. split_and!; [exact S3|exact Below|exact U|].
  intros j Hj. cbn [alloc_pos_] in Hj. unfold used. cbn [indexes_map_]. apply U.
  destruct (decide (j = pos)); [by left|right]. apply Below. lia.
Qed.
