(* ===== verification/SlicerClaims.v ===== *)
(** Properties of the LEB128 coding, and of the dex library's hash table, buffer and
    index map. *)
From S2P Require Import Prelude Leb128 HashTable SlicerBuffer.

(** Unsigned LEB128 round trip: for every 32-bit [data], [WriteULeb128]
    terminates (five steps are enough) with one to five bytes, the number of
    base-128 digits of [data], and [ReadULeb128] on them returns [data] and leaves
    what follows. Four bytes are exceeded exactly from 2{^28} on, where
    [Buffer::PushULeb128] has [u1 tmp[4]]. *)
Theorem uleb128_roundtrip data r : 0 <= data < 2 ^ 32 ->
  exists bs, WriteULeb128 leb_fuel data = Some bs /\ length bs = uleb_size data /\
    ReadULeb128 (bs ++ r) = Some (data, r) /\ Forall is_byte bs /\
    ((4 < length bs)%nat <-> 2 ^ 28 <= data).
Proof.
  intros H. destruct (uleb_roundtrip data r H) as (bs & W & L & R & B). exists bs.
  split_and!; try assumption. rewrite L. unfold uleb_size.
  destruct (Z.ltb_spec data (2 ^ 7)), (Z.ltb_spec data (2 ^ 14)), (Z.ltb_spec data (2 ^ 21)), (Z.ltb_spec data (2 ^ 28)); lia.
Qed.

Lemma uleb128_roundtrip_witness :
  exists bs, WriteULeb128 leb_fuel 0xffffffff = Some bs /\ length bs = uleb_size 0xffffffff /\
    ReadULeb128 (bs ++ [7]) = Some (0xffffffff, [7]) /\ Forall is_byte bs /\
    ((4 < length bs)%nat <-> 2 ^ 28 <= 0xffffffff).
Proof. apply (uleb128_roundtrip 0xffffffff [7]). split; [discriminate|reflexivity]. Defined.

(** Signed LEB128 round trip: for every [s4] value, [WriteSLeb128] terminates
    with one to five bytes, as many as the sign needs, and [ReadSLeb128] on them
    returns the value, sign included, and leaves what follows. *)
Theorem sleb128_roundtrip v r : - 2 ^ 31 <= v < 2 ^ 31 ->
  exists bs, WriteSLeb128 leb_fuel v = Some bs /\ length bs = sleb_size v /\
    ReadSLeb128 (bs ++ r) = Some (v, r) /\ Forall is_byte bs.
Proof. apply sleb_roundtrip. Qed.

Lemma sleb128_roundtrip_witness :
  exists bs, WriteSLeb128 leb_fuel (-2147483648) = Some bs /\ length bs = sleb_size (-2147483648) /\
    ReadSLeb128 (bs ++ []) = Some (-2147483648, []) /\ Forall is_byte bs.
Proof. apply (sleb128_roundtrip (-2147483648) []). split; [discriminate|reflexivity]. Defined.

(** C30: The hash table is a map of unique keys when its checks run (a build without
    [NDEBUG]). For any list of fewer than 2{^28} values: if the key of no value
    compares equal to a value before it, inserting the list into a new table never
    aborts, whatever partitions overflow and are rebuilt on the way, and [Lookup]
    then ends, returns an inserted value that compares equal to the key, or nothing
    only when no inserted value does; otherwise the inserting aborts, at the
    assertion that the key is new. The hash function may collide at will; what
    compares equal has the same hash. *)
Theorem hash_table_lookup {Key V : Type} (Hash : Key -> Z) (Compare : Key -> V -> bool) (GetKey : V -> Key) (vs : list V) :
  (forall k v, Compare k v = true -> Hash (GetKey v) = Hash k) -> Z.of_nat (length vs) < 2 ^ 28 ->
  if keys_new Compare GetKey [] vs then
    exists t, InsertList Hash Compare GetKey false vs newHashTable = Some t /\
      forall ndebug k, exists r, Lookup Hash Compare ndebug k t = Some r /\ found Compare k vs r
  else InsertList Hash Compare GetKey false vs newHashTable = None.
Proof.
  intros Hc L. destruct (newHashTable_ok Hash GetKey) as [Ok E].
  pose proof (InsertList_ok Hash Compare GetKey Hc vs newHashTable Ok) as H. rewrite E in H. specialize (H L).
  destruct (keys_new Compare GetKey [] vs); [|exact H]. destruct H as (t & It & Okt & P).
  exists t. split; [exact It|]. intros nd k.
  destruct (Lookup_ok Hash Compare GetKey Hc nd k t Okt) as (r & Lr & F). exists r. split; [exact Lr|].
  apply (found_perm Compare k _ vs r) in F; [exact F|]. rewrite P, app_nil_r. symmetry. apply Permutation_rev.
Qed.

(** 300 numbers, and a number twice. *)
Definition same_abs (k v : Z) : bool := Z.abs k =? Z.abs v.
Lemma hash_table_lookup_witness :
  (exists t, InsertList Z.abs same_abs (fun v => v) false (map Z.of_nat (seq 1 300)) newHashTable = Some t /\
    forall ndebug k, exists r, Lookup Z.abs same_abs ndebug k t = Some r /\ found same_abs k (map Z.of_nat (seq 1 300)) r) /\
  InsertList Z.abs same_abs (fun v => v) false [7; -7] newHashTable = None.
Proof.
  assert (C : forall k v, same_abs k v = true -> Z.abs v = Z.abs k) by (intros k v E; apply Z.eqb_eq in E; lia).
  split.
  - exact (hash_table_lookup Z.abs same_abs (fun v => v) (map Z.of_nat (seq 1 300)) C eq_refl).
  - exact (hash_table_lookup Z.abs same_abs (fun v => v) [7; -7] C eq_refl).
Defined.

(** The hash table of a release build loses values. With [NDEBUG] the
    re-insertions are inside a [SLICER_CHECK] that expands to nothing: an [Insert]
    into a full insertion table [it] leaves a table that holds exactly the values
    of [it], without the new value and without those of the old full table. So
    of the numbers 1 to 255 inserted in order the last is not found, and of 1 to
    1000 the first is not. *)
Theorem hash_table_release_drops {Key V : Type} (Hash : Key -> Z) (Compare : Key -> V -> bool) (GetKey : V -> Key) (v : V) (t : @HashTable V) :
  capacity (insertion_table t) <= Z.of_nat (length (buckets (insertion_table t))) ->
  (exists t', Insert Hash Compare GetKey true v t = Some t' /\
     table_vals t' = pvals (insertion_table t)) /\
  (t' ← num_insert true (map Z.of_nat (seq 1 255)); num_lookup true 255 t') = Some None /\
  (t' ← num_insert true (map Z.of_nat (seq 1 1000)); num_lookup true 1 t') = Some None.
Proof.
  intros C. split; [|split; vm_compute; reflexivity].
  unfold Insert, assert_new. cbn [mbind option_bind]. rewrite (Partition_Insert_full Hash GetKey v (insertion_table t) C).
  assert (All : forall p : Partition, (match full_table t with
     | Some full => InsertAll Hash GetKey true (buckets full) p | None => Some p end) = Some p).
  { intros p. destruct (full_table t) as [full|]; [|reflexivity].
    induction (buckets full) as [|b bs IH]; cbn; [reflexivity|]. by destruct (value b). }
  rewrite All. cbn [mbind option_bind checked_call]. eexists. split; [reflexivity|].
  unfold table_vals. cbn [full_table insertion_table]. unfold pvals at 2. cbn [buckets newPartition].
  by rewrite bucket_values_empty, app_nil_r.
Qed.

(** A table whose insertion partition is full. *)
Definition full_of_numbers : @HashTable Z :=
  default newHashTable (num_insert true (map Z.of_nat (seq 1 254))).

Lemma hash_table_release_drops_witness :
  (exists t', Insert (fun k => k) Z.eqb (fun v => v) true 255 full_of_numbers = Some t' /\
     table_vals t' = pvals (insertion_table full_of_numbers)) /\
  (t' ← num_insert true (map Z.of_nat (seq 1 255)); num_lookup true 255 t') = Some None /\
  (t' ← num_insert true (map Z.of_nat (seq 1 1000)); num_lookup true 1 t') = Some None.
Proof.
  apply (hash_table_release_drops (fun k => k) Z.eqb (fun v => v) 255 full_of_numbers).
  vm_compute. discriminate.
Defined.

(** A buffer is the concatenation of what was pushed. On an unsealed buffer,
    whatever [realloc] leaves in fresh memory, [Push] returns the size so far and
    appends the bytes, [Align] appends fewer than [alignment] zeros to a multiple
    of it, and [Seal] does the same and ends the changes; a debug build then
    refuses a push. *)
Theorem slicer_buffer_appends ndebug (fresh : nat -> list byte) b bs alignment :
  (forall n, length (fresh n) = n) -> sbuffer_ok b -> sealed_ b = false -> (0 < alignment)%nat ->
  (exists b', Push ndebug fresh bs b = Some (length (contents b), b') /\ sbuffer_ok b' /\ sealed_ b' = false /\
     contents b' = contents b ++ bs) /\
  (exists b' n, Seal ndebug fresh alignment b = Some (length (contents b'), b') /\ sbuffer_ok b' /\ sealed_ b' = true /\
     contents b' = contents b ++ repeat 0 n /\ (n < alignment)%nat /\ (length (contents b') mod alignment = 0)%nat /\
     Push false fresh bs b' = None).
Proof.
  intros Fl Ok Ns Ha. rewrite (contents_length b Ok). split. { by apply Push_ok. }
  unfold Seal, SLICER_CHECK, Align. rewrite Ns, orb_true_r. cbn [negb mbind option_bind].
  pose proof (Nat.mod_upper_bound (size_ b) alignment ltac:(lia)) as M.
  pose proof (Nat.div_mod (size_ b) alignment ltac:(lia)) as D.
  destruct (Nat.eqb_spec (size_ b mod alignment) 0) as [Z0|Z0]; cbn [mbind option_bind].
  - eexists _, 0%nat. rewrite (contents_length b Ok : length (contents {| buff_ := buff_ b; size_ := size_ b;
      capacity_ := capacity_ b; sealed_ := true |}) = size_ b). split; [reflexivity|].
    split_and!; [exact Ok|reflexivity|cbn; by rewrite app_nil_r|exact Ha|exact Z0|reflexivity].
  - destruct (Alloc_ok ndebug fresh Fl (alignment - size_ b mod alignment) b Ok Ns) as (b' & -> & Ok' & N' & C').
    cbn [mbind option_bind].
    assert (L' : size_ b' = (size_ b + (alignment - size_ b mod alignment))%nat).
    { rewrite <- (contents_length b' Ok'), C', length_app, repeat_length, (contents_length b Ok). reflexivity. }
    eexists _, (alignment - size_ b mod alignment)%nat.
    rewrite (contents_length b' Ok' : length (contents {| buff_ := buff_ b'; size_ := size_ b';
      capacity_ := capacity_ b'; sealed_ := true |}) = size_ b'). split; [reflexivity|].
    split_and!; [exact Ok'|reflexivity|exact C'|lia| |reflexivity].
    rewrite L'. replace (size_ b + (alignment - size_ b mod alignment))%nat with ((size_ b / alignment + 1) * alignment)%nat by lia.
    apply Nat.Div0.mod_mul.
Qed.

Lemma slicer_buffer_appends_witness :
  (exists b', Push true (repeat 0xcd) [1; 2; 3] newSBuffer = Some (length (contents newSBuffer), b') /\ sbuffer_ok b' /\
     sealed_ b' = false /\ contents b' = contents newSBuffer ++ [1; 2; 3]) /\
  (exists b' n, Seal true (repeat 0xcd) 4 newSBuffer = Some (length (contents b'), b') /\ sbuffer_ok b' /\
     sealed_ b' = true /\ contents b' = contents newSBuffer ++ repeat 0 n /\ (n < 4)%nat /\
     (length (contents b') mod 4 = 0)%nat /\ Push false (repeat 0xcd) [1; 2; 3] b' = None).
Proof.
  apply (slicer_buffer_appends true (repeat 0xcd) newSBuffer [1; 2; 3] 4).
  - intros n. apply repeat_length.
  - split; reflexivity.
  - reflexivity.
  - lia.
Defined.

(** [PushULeb128] appends an encoding that reads back to the value, for every
    value below 2{^28}; from there on the encoder's fifth byte goes past the
    end of [u1 tmp[4]]. *)
Theorem push_uleb128 ndebug (fresh : nat -> list byte) b value :
  (forall n, length (fresh n) = n) -> sbuffer_ok b -> sealed_ b = false -> 0 <= value < 2 ^ 32 ->
  if value <? 2 ^ 28 then
    exists b' bs, PushULeb128 ndebug fresh value b = Some (size_ b, b') /\ contents b' = contents b ++ bs /\
      forall r, ReadULeb128 (bs ++ r) = Some (value, r)
  else PushULeb128 ndebug fresh value b = None.
Proof.
  intros Fl Ok Ns Hv. unfold PushULeb128.
  destruct (uleb_roundtrip value [] Hv) as (bs & W & L & _ & _). rewrite W. cbn [mbind option_bind]. rewrite L.
  unfold uleb_size.
  destruct (Z.ltb_spec value (2 ^ 28)) as [H|H].
  - destruct (Push_ok ndebug fresh Fl bs b Ok Ns) as (b' & E & _ & _ & C).
    exists b', bs. split_and!; [|exact C|].
    + destruct (value <? 2 ^ 7), (value <? 2 ^ 14), (value <? 2 ^ 21); exact E.
    + intros r. destruct (uleb_roundtrip value r Hv) as (bs' & W' & _ & R & _). rewrite W in W'.
      injection W' as <-. exact R.
  - rewrite (proj2 (Z.ltb_ge value (2 ^ 7))), (proj2 (Z.ltb_ge value (2 ^ 14))), (proj2 (Z.ltb_ge value (2 ^ 21))) by lia.
    reflexivity.
Qed.

Lemma push_uleb128_witness :
  exists b' bs, PushULeb128 true (repeat 0xcd) 300 newSBuffer = Some (size_ newSBuffer, b') /\
    contents b' = contents newSBuffer ++ bs /\ forall r, ReadULeb128 (bs ++ r) = Some (300, r).
Proof.
  apply (push_uleb128 true (repeat 0xcd) newSBuffer 300).
  - intros n. apply repeat_length.
  - split; reflexivity.
  - reflexivity.
  - split; [discriminate|reflexivity].
Defined.

(** [AllocateIndex] returns the least index that is not in use and marks it,
    and only it, provided everything below the allocation position is in use,
    which it keeps true; the check in [MarkUsedIndex] never fails on the way. *)
Theorem allocate_least_index ndebug m : index_ok m ->
  exists i m', AllocateIndex ndebug m = Some (i, m') /\ ~ used m i /\ (forall j, (j < i)%nat -> used m j) /\
    (forall j, used m' j <-> j = i \/ used m j) /\ index_ok m'.
Proof. apply AllocateIndex_ok. Qed.

Lemma allocate_least_index_witness :
  exists i m', AllocateIndex false {| indexes_map_ := [true; true; false; true]; alloc_pos_ := 1 |} = Some (i, m') /\
    ~ used {| indexes_map_ := [true; true; false; true]; alloc_pos_ := 1 |} i /\
    (forall j, (j < i)%nat -> used {| indexes_map_ := [true; true; false; true]; alloc_pos_ := 1 |} j) /\
    (forall j, used m' j <-> j = i \/ used {| indexes_map_ := [true; true; false; true]; alloc_pos_ := 1 |} j) /\
    index_ok m'.
Proof.
  apply (allocate_least_index false). intros i Hi. cbn in Hi. destruct i; [reflexivity|lia].
Defined.
