(* ===== verification/DexBytecode.v ===== *)
(** The Dalvik instruction set of the dex library: the opcode table
    ([slicer/dex_instruction_list.h]), the instruction formats and flags
    ([slicer/dex_bytecode.h]) and the decoder ([dex_bytecode.cc]).

    Code is a list of 16-bit units; reading past it is [None] (the C++ code
    reads what follows), and so is the abort of a failed [SLICER_CHECK].
    [ndebug] is the build: with it the checks expand to nothing. *)
From Stdlib Require Import String.
From S2P Require Import Prelude.

Declare Scope dex_scope.
Open Scope dex_scope.
Infix ".|" := Z.lor (at level 50, left associativity) : dex_scope.

(** ** Enumerations *)

Inductive InstructionFormat :=
  | k10x | k12x | k11n | k11x | k10t | k20t | k20bc | k22x | k21t | k21s | k21h
  | k21c | k23x | k22b | k22t | k22s | k22c | k22cs | k30t | k32x | k31i | k31t
  | k31c | k35c | k35ms | k3rc | k3rms | k35mi | k3rmi | k45cc | k4rcc | k51l.

#[global] Instance InstructionFormat_eq : EqDecision InstructionFormat.
Proof. solve_decision. Defined.

Inductive InstructionIndexType :=
  | kIndexUnknown | kIndexNone | kIndexVaries | kIndexTypeRef | kIndexStringRef
  | kIndexMethodRef | kIndexFieldRef | kIndexInlineMethod | kIndexVtableOffset
  | kIndexFieldOffset | kIndexMethodAndProtoRef | kIndexCallSiteRef
  | kIndexMethodHandleRef | kIndexProtoRef.

#[global] Instance InstructionIndexType_eq : EqDecision InstructionIndexType.
Proof. solve_decision. Defined.

(** [OpcodeFlags]. *)
Definition kBranch : Z := 0x01.
Definition kContinue : Z := 0x02.
Definition kSwitch : Z := 0x04.
Definition kThrow : Z := 0x08.
Definition kReturn : Z := 0x10.
Definition kInvoke : Z := 0x20.
Definition kUnconditional : Z := 0x40.
Definition kExperimental : Z := 0x80.

(** [VerifyFlags]. *)
Definition kVerifyNothing : Z := 0x0000000.
Definition kVerifyRegA : Z := 0x0000001.
Definition kVerifyRegAWide : Z := 0x0000002.
Definition kVerifyRegB : Z := 0x0000004.
Definition kVerifyRegBField : Z := 0x0000008.
Definition kVerifyRegBMethod : Z := 0x0000010.
Definition kVerifyRegBNewInstance : Z := 0x0000020.
Definition kVerifyRegBString : Z := 0x0000040.
Definition kVerifyRegBType : Z := 0x0000080.
Definition kVerifyRegBWide : Z := 0x0000100.
Definition kVerifyRegC : Z := 0x0000200.
Definition kVerifyRegCField : Z := 0x0000400.
Definition kVerifyRegCNewArray : Z := 0x0000800.
Definition kVerifyRegCType : Z := 0x0001000.
Definition kVerifyRegCWide : Z := 0x0002000.
Definition kVerifyArrayData : Z := 0x0004000.
Definition kVerifyBranchTarget : Z := 0x0008000.
Definition kVerifySwitchTargets : Z := 0x0010000.
Definition kVerifyVarArg : Z := 0x0020000.
Definition kVerifyVarArgNonZero : Z := 0x0040000.
Definition kVerifyVarArgRange : Z := 0x0080000.
Definition kVerifyVarArgRangeNonZero : Z := 0x0100000.
Definition kVerifyRuntimeOnly : Z := 0x0200000.
Definition kVerifyError : Z := 0x0400000.
Definition kVerifyRegHPrototype : Z := 0x0800000.
Definition kVerifyRegBCallSite : Z := 0x1000000.
Definition kVerifyRegBMethodHandle : Z := 0x2000000.
Definition kVerifyRegBPrototype : Z := 0x4000000.

Definition kNumPackedOpcodes : Z := 0x100.
Definition kPackedSwitchSignature : Z := 0x0100.
Definition kSparseSwitchSignature : Z := 0x0200.
Definition kArrayDataSignature : Z := 0x0300.

(** ** The opcode table

    A row is an application of the list macro; its extended flags are not used
    by any expansion and are left out. *)

Record Row := V {
  row_opcode : Z; cname : string; pname : string; row_format : InstructionFormat;
  row_index : InstructionIndexType; row_flags : Z; row_verify : Z
}.

Local Open Scope string_scope.
Definition DEX_INSTRUCTION_LIST_low : list Row := [
  V 0x00 "NOP" "nop" k10x kIndexNone kContinue kVerifyNothing;
  V 0x01 "MOVE" "move" k12x kIndexNone kContinue (kVerifyRegA .| kVerifyRegB);
  V 0x02 "MOVE_FROM16" "move/from16" k22x kIndexNone kContinue (kVerifyRegA .| kVerifyRegB);
  V 0x03 "MOVE_16" "move/16" k32x kIndexNone kContinue (kVerifyRegA .| kVerifyRegB);
  V 0x04 "MOVE_WIDE" "move-wide" k12x kIndexNone kContinue (kVerifyRegAWide .| kVerifyRegBWide);
  V 0x05 "MOVE_WIDE_FROM16" "move-wide/from16" k22x kIndexNone kContinue (kVerifyRegAWide .| kVerifyRegBWide);
  V 0x06 "MOVE_WIDE_16" "move-wide/16" k32x kIndexNone kContinue (kVerifyRegAWide .| kVerifyRegBWide);
  V 0x07 "MOVE_OBJECT" "move-object" k12x kIndexNone kContinue (kVerifyRegA .| kVerifyRegB);
  V 0x08 "MOVE_OBJECT_FROM16" "move-object/from16" k22x kIndexNone kContinue (kVerifyRegA .| kVerifyRegB);
  V 0x09 "MOVE_OBJECT_16" "move-object/16" k32x kIndexNone kContinue (kVerifyRegA .| kVerifyRegB);
  V 0x0A "MOVE_RESULT" "move-result" k11x kIndexNone kContinue kVerifyRegA;
  V 0x0B "MOVE_RESULT_WIDE" "move-result-wide" k11x kIndexNone kContinue kVerifyRegAWide;
  V 0x0C "MOVE_RESULT_OBJECT" "move-result-object" k11x kIndexNone kContinue kVerifyRegA;
  V 0x0D "MOVE_EXCEPTION" "move-exception" k11x kIndexNone kContinue kVerifyRegA;
  V 0x0E "RETURN_VOID" "return-void" k10x kIndexNone kReturn kVerifyNothing;
  V 0x0F "RETURN" "return" k11x kIndexNone kReturn kVerifyRegA;
  V 0x10 "RETURN_WIDE" "return-wide" k11x kIndexNone kReturn kVerifyRegAWide;
  V 0x11 "RETURN_OBJECT" "return-object" k11x kIndexNone kReturn kVerifyRegA;
  V 0x12 "CONST_4" "const/4" k11n kIndexNone kContinue kVerifyRegA;
  V 0x13 "CONST_16" "const/16" k21s kIndexNone kContinue kVerifyRegA;
  V 0x14 "CONST" "const" k31i kIndexNone kContinue kVerifyRegA;
  V 0x15 "CONST_HIGH16" "const/high16" k21h kIndexNone kContinue kVerifyRegA;
  V 0x16 "CONST_WIDE_16" "const-wide/16" k21s kIndexNone kContinue kVerifyRegAWide;
  V 0x17 "CONST_WIDE_32" "const-wide/32" k31i kIndexNone kContinue kVerifyRegAWide;
  V 0x18 "CONST_WIDE" "const-wide" k51l kIndexNone kContinue kVerifyRegAWide;
  V 0x19 "CONST_WIDE_HIGH16" "const-wide/high16" k21h kIndexNone kContinue kVerifyRegAWide;
  V 0x1A "CONST_STRING" "const-string" k21c kIndexStringRef (kContinue .| kThrow) (kVerifyRegA .| kVerifyRegBString);
  V 0x1B "CONST_STRING_JUMBO" "const-string/jumbo" k31c kIndexStringRef (kContinue .| kThrow) (kVerifyRegA .| kVerifyRegBString);
  V 0x1C "CONST_CLASS" "const-class" k21c kIndexTypeRef (kContinue .| kThrow) (kVerifyRegA .| kVerifyRegBType);
  V 0x1D "MONITOR_ENTER" "monitor-enter" k11x kIndexNone (kContinue .| kThrow) kVerifyRegA;
  V 0x1E "MONITOR_EXIT" "monitor-exit" k11x kIndexNone (kContinue .| kThrow) kVerifyRegA;
  V 0x1F "CHECK_CAST" "check-cast" k21c kIndexTypeRef (kContinue .| kThrow) (kVerifyRegA .| kVerifyRegBType);
  V 0x20 "INSTANCE_OF" "instance-of" k22c kIndexTypeRef (kContinue .| kThrow) (kVerifyRegA .| kVerifyRegB .| kVerifyRegCType);
  V 0x21 "ARRAY_LENGTH" "array-length" k12x kIndexNone (kContinue .| kThrow) (kVerifyRegA .| kVerifyRegB);
  V 0x22 "NEW_INSTANCE" "new-instance" k21c kIndexTypeRef (kContinue .| kThrow) (kVerifyRegA .| kVerifyRegBNewInstance);
  V 0x23 "NEW_ARRAY" "new-array" k22c kIndexTypeRef (kContinue .| kThrow) (kVerifyRegA .| kVerifyRegB .| kVerifyRegCNewArray);
  V 0x24 "FILLED_NEW_ARRAY" "filled-new-array" k35c kIndexTypeRef (kContinue .| kThrow) (kVerifyRegBType .| kVerifyVarArg);
  V 0x25 "FILLED_NEW_ARRAY_RANGE" "filled-new-array/range" k3rc kIndexTypeRef (kContinue .| kThrow) (kVerifyRegBType .| kVerifyVarArgRange);
  V 0x26 "FILL_ARRAY_DATA" "fill-array-data" k31t kIndexNone (kContinue .| kThrow) (kVerifyRegA .| kVerifyArrayData);
  V 0x27 "THROW" "throw" k11x kIndexNone kThrow kVerifyRegA;
  V 0x28 "GOTO" "goto" k10t kIndexNone (kBranch .| kUnconditional) kVerifyBranchTarget;
  V 0x29 "GOTO_16" "goto/16" k20t kIndexNone (kBranch .| kUnconditional) kVerifyBranchTarget;
  V 0x2A "GOTO_32" "goto/32" k30t kIndexNone (kBranch .| kUnconditional) kVerifyBranchTarget;
  V 0x2B "PACKED_SWITCH" "packed-switch" k31t kIndexNone (kContinue .| kSwitch) (kVerifyRegA .| kVerifySwitchTargets);
  V 0x2C "SPARSE_SWITCH" "sparse-switch" k31t kIndexNone (kContinue .| kSwitch) (kVerifyRegA .| kVerifySwitchTargets);
  V 0x2D "CMPL_FLOAT" "cmpl-float" k23x kIndexNone kContinue (kVerifyRegA .| kVerifyRegB .| kVerifyRegC);
  V 0x2E "CMPG_FLOAT" "cmpg-float" k23x kIndexNone kContinue (kVerifyRegA .| kVerifyRegB .| kVerifyRegC);
  V 0x2F "CMPL_DOUBLE" "cmpl-double" k23x kIndexNone kContinue (kVerifyRegA .| kVerifyRegBWide .| kVerifyRegCWide);
  V 0x30 "CMPG_DOUBLE" "cmpg-double" k23x kIndexNone kContinue (kVerifyRegA .| kVerifyRegBWide .| kVerifyRegCWide);
  V 0x31 "CMP_LONG" "cmp-long" k23x kIndexNone kContinue (kVerifyRegA .| kVerifyRegBWide .| kVerifyRegCWide);
  V 0x32 "IF_EQ" "if-eq" k22t kIndexNone (kContinue .| kBranch) (kVerifyRegA .| kVerifyRegB .| kVerifyBranchTarget);
  V 0x33 "IF_NE" "if-ne" k22t kIndexNone (kContinue .| kBranch) (kVerifyRegA .| kVerifyRegB .| kVerifyBranchTarget);
  V 0x34 "IF_LT" "if-lt" k22t kIndexNone (kContinue .| kBranch) (kVerifyRegA .| kVerifyRegB .| kVerifyBranchTarget);
  V 0x35 "IF_GE" "if-ge" k22t kIndexNone (kContinue .| kBranch) (kVerifyRegA .| kVerifyRegB .| kVerifyBranchTarget);
  V 0x36 "IF_GT" "if-gt" k22t kIndexNone (kContinue .| kBranch) (kVerifyRegA .| kVerifyRegB .| kVerifyBranchTarget);
  V 0x37 "IF_LE" "if-le" k22t kIndexNone (kContinue .| kBranch) (kVerifyRegA .| kVerifyRegB .| kVerifyBranchTarget);
  V 0x38 "IF_EQZ" "if-eqz" k21t kIndexNone (kContinue .| kBranch) (kVerifyRegA .| kVerifyBranchTarget);
  V 0x39 "IF_NEZ" "if-nez" k21t kIndexNone (kContinue .| kBranch) (kVerifyRegA .| kVerifyBranchTarget);
  V 0x3A "IF_LTZ" "if-ltz" k21t kIndexNone (kContinue .| kBranch) (kVerifyRegA .| kVerifyBranchTarget);
  V 0x3B "IF_GEZ" "if-gez" k21t kIndexNone (kContinue .| kBranch) (kVerifyRegA .| kVerifyBranchTarget);
  V 0x3C "IF_GTZ" "if-gtz" k21t kIndexNone (kContinue .| kBranch) (kVerifyRegA .| kVerifyBranchTarget);
  V 0x3D "IF_LEZ" "if-lez" k21t kIndexNone (kContinue .| kBranch) (kVerifyRegA .| kVerifyBranchTarget);
  V 0x3E "UNUSED_3E" "unused-3e" k10x kIndexUnknown 0 kVerifyError;
  V 0x3F "UNUSED_3F" "unused-3f" k10x kIndexUnknown 0 kVerifyError;
  V 0x40 "UNUSED_40" "unused-40" k10x kIndexUnknown 0 kVerifyError;
  V 0x41 "UNUSED_41" "unused-41" k10x kIndexUnknown 0 kVerifyError;
  V 0x42 "UNUSED_42" "unused-42" k10x kIndexUnknown 0 kVerifyError;
  V 0x43 "UNUSED_43" "unused-43" k10x kIndexUnknown 0 kVerifyError;
  V 0x44 "AGET" "aget" k23x kIndexNone (kContinue .| kThrow) (kVerifyRegA .| kVerifyRegB .| kVerifyRegC);
  V 0x45 "AGET_WIDE" "aget-wide" k23x kIndexNone (kContinue .| kThrow) (kVerifyRegAWide .| kVerifyRegB .| kVerifyRegC);
  V 0x46 "AGET_OBJECT" "aget-object" k23x kIndexNone (kContinue .| kThrow) (kVerifyRegA .| kVerifyRegB .| kVerifyRegC);
  V 0x47 "AGET_BOOLEAN" "aget-boolean" k23x kIndexNone (kContinue .| kThrow) (kVerifyRegA .| kVerifyRegB .| kVerifyRegC);
  V 0x48 "AGET_BYTE" "aget-byte" k23x kIndexNone (kContinue .| kThrow) (kVerifyRegA .| kVerifyRegB .| kVerifyRegC);
  V 0x49 "AGET_CHAR" "aget-char" k23x kIndexNone (kContinue .| kThrow) (kVerifyRegA .| kVerifyRegB .| kVerifyRegC);
  V 0x4A "AGET_SHORT" "aget-short" k23x kIndexNone (kContinue .| kThrow) (kVerifyRegA .| kVerifyRegB .| kVerifyRegC);
  V 0x4B "APUT" "aput" k23x kIndexNone (kContinue .| kThrow) (kVerifyRegA .| kVerifyRegB .| kVerifyRegC);
  V 0x4C "APUT_WIDE" "aput-wide" k23x kIndexNone (kContinue .| kThrow) (kVerifyRegAWide .| kVerifyRegB .| kVerifyRegC);
  V 0x4D "APUT_OBJECT" "aput-object" k23x kIndexNone (kContinue .| kThrow) (kVerifyRegA .| kVerifyRegB .| kVerifyRegC);
  V 0x4E "APUT_BOOLEAN" "aput-boolean" k23x kIndexNone (kContinue .| kThrow) (kVerifyRegA .| kVerifyRegB .| kVerifyRegC);
  V 0x4F "APUT_BYTE" "aput-byte" k23x kIndexNone (kContinue .| kThrow) (kVerifyRegA .| kVerifyRegB .| kVerifyRegC);
  V 0x50 "APUT_CHAR" "aput-char" k23x kIndexNone (kContinue .| kThrow) (kVerifyRegA .| kVerifyRegB .| kVerifyRegC);
  V 0x51 "APUT_SHORT" "aput-short" k23x kIndexNone (kContinue .| kThrow) (kVerifyRegA .| kVerifyRegB .| kVerifyRegC);
  V 0x52 "IGET" "iget" k22c kIndexFieldRef (kContinue .| kThrow) (kVerifyRegA .| kVerifyRegB .| kVerifyRegCField);
  V 0x53 "IGET_WIDE" "iget-wide" k22c kIndexFieldRef (kContinue .| kThrow) (kVerifyRegAWide .| kVerifyRegB .| kVerifyRegCField);
  V 0x54 "IGET_OBJECT" "iget-object" k22c kIndexFieldRef (kContinue .| kThrow) (kVerifyRegA .| kVerifyRegB .| kVerifyRegCField);
  V 0x55 "IGET_BOOLEAN" "iget-boolean" k22c kIndexFieldRef (kContinue .| kThrow) (kVerifyRegA .| kVerifyRegB .| kVerifyRegCField);
  V 0x56 "IGET_BYTE" "iget-byte" k22c kIndexFieldRef (kContinue .| kThrow) (kVerifyRegA .| kVerifyRegB .| kVerifyRegCField);
  V 0x57 "IGET_CHAR" "iget-char" k22c kIndexFieldRef (kContinue .| kThrow) (kVerifyRegA .| kVerifyRegB .| kVerifyRegCField);
  V 0x58 "IGET_SHORT" "iget-short" k22c kIndexFieldRef (kContinue .| kThrow) (kVerifyRegA .| kVerifyRegB .| kVerifyRegCField);
  V 0x59 "IPUT" "iput" k22c kIndexFieldRef (kContinue .| kThrow) (kVerifyRegA .| kVerifyRegB .| kVerifyRegCField);
  V 0x5A "IPUT_WIDE" "iput-wide" k22c kIndexFieldRef (kContinue .| kThrow) (kVerifyRegAWide .| kVerifyRegB .| kVerifyRegCField);
  V 0x5B "IPUT_OBJECT" "iput-object" k22c kIndexFieldRef (kContinue .| kThrow) (kVerifyRegA .| kVerifyRegB .| kVerifyRegCField);
  V 0x5C "IPUT_BOOLEAN" "iput-boolean" k22c kIndexFieldRef (kContinue .| kThrow) (kVerifyRegA .| kVerifyRegB .| kVerifyRegCField);
  V 0x5D "IPUT_BYTE" "iput-byte" k22c kIndexFieldRef (kContinue .| kThrow) (kVerifyRegA .| kVerifyRegB .| kVerifyRegCField);
  V 0x5E "IPUT_CHAR" "iput-char" k22c kIndexFieldRef (kContinue .| kThrow) (kVerifyRegA .| kVerifyRegB .| kVerifyRegCField);
  V 0x5F "IPUT_SHORT" "iput-short" k22c kIndexFieldRef (kContinue .| kThrow) (kVerifyRegA .| kVerifyRegB .| kVerifyRegCField);
  V 0x60 "SGET" "sget" k21c kIndexFieldRef (kContinue .| kThrow) (kVerifyRegA .| kVerifyRegBField);
  V 0x61 "SGET_WIDE" "sget-wide" k21c kIndexFieldRef (kContinue .| kThrow) (kVerifyRegAWide .| kVerifyRegBField);
  V 0x62 "SGET_OBJECT" "sget-object" k21c kIndexFieldRef (kContinue .| kThrow) (kVerifyRegA .| kVerifyRegBField);
  V 0x63 "SGET_BOOLEAN" "sget-boolean" k21c kIndexFieldRef (kContinue .| kThrow) (kVerifyRegA .| kVerifyRegBField);
  V 0x64 "SGET_BYTE" "sget-byte" k21c kIndexFieldRef (kContinue .| kThrow) (kVerifyRegA .| kVerifyRegBField);
  V 0x65 "SGET_CHAR" "sget-char" k21c kIndexFieldRef (kContinue .| kThrow) (kVerifyRegA .| kVerifyRegBField);
  V 0x66 "SGET_SHORT" "sget-short" k21c kIndexFieldRef (kContinue .| kThrow) (kVerifyRegA .| kVerifyRegBField);
  V 0x67 "SPUT" "sput" k21c kIndexFieldRef (kContinue .| kThrow) (kVerifyRegA .| kVerifyRegBField);
  V 0x68 "SPUT_WIDE" "sput-wide" k21c kIndexFieldRef (kContinue .| kThrow) (kVerifyRegAWide .| kVerifyRegBField);
  V 0x69 "SPUT_OBJECT" "sput-object" k21c kIndexFieldRef (kContinue .| kThrow) (kVerifyRegA .| kVerifyRegBField);
  V 0x6A "SPUT_BOOLEAN" "sput-boolean" k21c kIndexFieldRef (kContinue .| kThrow) (kVerifyRegA .| kVerifyRegBField);
  V 0x6B "SPUT_BYTE" "sput-byte" k21c kIndexFieldRef (kContinue .| kThrow) (kVerifyRegA .| kVerifyRegBField);
  V 0x6C "SPUT_CHAR" "sput-char" k21c kIndexFieldRef (kContinue .| kThrow) (kVerifyRegA .| kVerifyRegBField);
  V 0x6D "SPUT_SHORT" "sput-short" k21c kIndexFieldRef (kContinue .| kThrow) (kVerifyRegA .| kVerifyRegBField);
  V 0x6E "INVOKE_VIRTUAL" "invoke-virtual" k35c kIndexMethodRef (kContinue .| kThrow .| kInvoke) (kVerifyRegBMethod .| kVerifyVarArgNonZero);
  V 0x6F "INVOKE_SUPER" "invoke-super" k35c kIndexMethodRef (kContinue .| kThrow .| kInvoke) (kVerifyRegBMethod .| kVerifyVarArgNonZero);
  V 0x70 "INVOKE_DIRECT" "invoke-direct" k35c kIndexMethodRef (kContinue .| kThrow .| kInvoke) (kVerifyRegBMethod .| kVerifyVarArgNonZero);
  V 0x71 "INVOKE_STATIC" "invoke-static" k35c kIndexMethodRef (kContinue .| kThrow .| kInvoke) (kVerifyRegBMethod .| kVerifyVarArg);
  V 0x72 "INVOKE_INTERFACE" "invoke-interface" k35c kIndexMethodRef (kContinue .| kThrow .| kInvoke) (kVerifyRegBMethod .| kVerifyVarArgNonZero);
  V 0x73 "RETURN_VOID_NO_BARRIER" "return-void-no-barrier" k10x kIndexNone kReturn kVerifyNothing;
  V 0x74 "INVOKE_VIRTUAL_RANGE" "invoke-virtual/range" k3rc kIndexMethodRef (kContinue .| kThrow .| kInvoke) (kVerifyRegBMethod .| kVerifyVarArgRangeNonZero);
  V 0x75 "INVOKE_SUPER_RANGE" "invoke-super/range" k3rc kIndexMethodRef (kContinue .| kThrow .| kInvoke) (kVerifyRegBMethod .| kVerifyVarArgRangeNonZero);
  V 0x76 "INVOKE_DIRECT_RANGE" "invoke-direct/range" k3rc kIndexMethodRef (kContinue .| kThrow .| kInvoke) (kVerifyRegBMethod .| kVerifyVarArgRangeNonZero);
  V 0x77 "INVOKE_STATIC_RANGE" "invoke-static/range" k3rc kIndexMethodRef (kContinue .| kThrow .| kInvoke) (kVerifyRegBMethod .| kVerifyVarArgRange);
  V 0x78 "INVOKE_INTERFACE_RANGE" "invoke-interface/range" k3rc kIndexMethodRef (kContinue .| kThrow .| kInvoke) (kVerifyRegBMethod .| kVerifyVarArgRangeNonZero);
  V 0x79 "UNUSED_79" "unused-79" k10x kIndexUnknown 0 kVerifyError;
  V 0x7A "UNUSED_7A" "unused-7a" k10x kIndexUnknown 0 kVerifyError;
  V 0x7B "NEG_INT" "neg-int" k12x kIndexNone kContinue (kVerifyRegA .| kVerifyRegB);
  V 0x7C "NOT_INT" "not-int" k12x kIndexNone kContinue (kVerifyRegA .| kVerifyRegB);
  V 0x7D "NEG_LONG" "neg-long" k12x kIndexNone kContinue (kVerifyRegAWide .| kVerifyRegBWide);
  V 0x7E "NOT_LONG" "not-long" k12x kIndexNone kContinue (kVerifyRegAWide .| kVerifyRegBWide);
  V 0x7F "NEG_FLOAT" "neg-float" k12x kIndexNone kContinue (kVerifyRegA .| kVerifyRegB)
].

Definition DEX_INSTRUCTION_LIST_high : list Row := [
  V 0x80 "NEG_DOUBLE" "neg-double" k12x kIndexNone kContinue (kVerifyRegAWide .| kVerifyRegBWide);
  V 0x81 "INT_TO_LONG" "int-to-long" k12x kIndexNone kContinue (kVerifyRegAWide .| kVerifyRegB);
  V 0x82 "INT_TO_FLOAT" "int-to-float" k12x kIndexNone kContinue (kVerifyRegA .| kVerifyRegB);
  V 0x83 "INT_TO_DOUBLE" "int-to-double" k12x kIndexNone kContinue (kVerifyRegAWide .| kVerifyRegB);
  V 0x84 "LONG_TO_INT" "long-to-int" k12x kIndexNone kContinue (kVerifyRegA .| kVerifyRegBWide);
  V 0x85 "LONG_TO_FLOAT" "long-to-float" k12x kIndexNone kContinue (kVerifyRegA .| kVerifyRegBWide);
  V 0x86 "LONG_TO_DOUBLE" "long-to-double" k12x kIndexNone kContinue (kVerifyRegAWide .| kVerifyRegBWide);
  V 0x87 "FLOAT_TO_INT" "float-to-int" k12x kIndexNone kContinue (kVerifyRegA .| kVerifyRegB);
  V 0x88 "FLOAT_TO_LONG" "float-to-long" k12x kIndexNone kContinue (kVerifyRegAWide .| kVerifyRegB);
  V 0x89 "FLOAT_TO_DOUBLE" "float-to-double" k12x kIndexNone kContinue (kVerifyRegAWide .| kVerifyRegB);
  V 0x8A "DOUBLE_TO_INT" "double-to-int" k12x kIndexNone kContinue (kVerifyRegA .| kVerifyRegBWide);
  V 0x8B "DOUBLE_TO_LONG" "double-to-long" k12x kIndexNone kContinue (kVerifyRegAWide .| kVerifyRegBWide);
  V 0x8C "DOUBLE_TO_FLOAT" "double-to-float" k12x kIndexNone kContinue (kVerifyRegA .| kVerifyRegBWide);
  V 0x8D "INT_TO_BYTE" "int-to-byte" k12x kIndexNone kContinue (kVerifyRegA .| kVerifyRegB);
  V 0x8E "INT_TO_CHAR" "int-to-char" k12x kIndexNone kContinue (kVerifyRegA .| kVerifyRegB);
  V 0x8F "INT_TO_SHORT" "int-to-short" k12x kIndexNone kContinue (kVerifyRegA .| kVerifyRegB);
  V 0x90 "ADD_INT" "add-int" k23x kIndexNone kContinue (kVerifyRegA .| kVerifyRegB .| kVerifyRegC);
  V 0x91 "SUB_INT" "sub-int" k23x kIndexNone kContinue (kVerifyRegA .| kVerifyRegB .| kVerifyRegC);
  V 0x92 "MUL_INT" "mul-int" k23x kIndexNone kContinue (kVerifyRegA .| kVerifyRegB .| kVerifyRegC);
  V 0x93 "DIV_INT" "div-int" k23x kIndexNone (kContinue .| kThrow) (kVerifyRegA .| kVerifyRegB .| kVerifyRegC);
  V 0x94 "REM_INT" "rem-int" k23x kIndexNone (kContinue .| kThrow) (kVerifyRegA .| kVerifyRegB .| kVerifyRegC);
  V 0x95 "AND_INT" "and-int" k23x kIndexNone kContinue (kVerifyRegA .| kVerifyRegB .| kVerifyRegC);
  V 0x96 "OR_INT" "or-int" k23x kIndexNone kContinue (kVerifyRegA .| kVerifyRegB .| kVerifyRegC);
  V 0x97 "XOR_INT" "xor-int" k23x kIndexNone kContinue (kVerifyRegA .| kVerifyRegB .| kVerifyRegC);
  V 0x98 "SHL_INT" "shl-int" k23x kIndexNone kContinue (kVerifyRegA .| kVerifyRegB .| kVerifyRegC);
  V 0x99 "SHR_INT" "shr-int" k23x kIndexNone kContinue (kVerifyRegA .| kVerifyRegB .| kVerifyRegC);
  V 0x9A "USHR_INT" "ushr-int" k23x kIndexNone kContinue (kVerifyRegA .| kVerifyRegB .| kVerifyRegC);
  V 0x9B "ADD_LONG" "add-long" k23x kIndexNone kContinue (kVerifyRegAWide .| kVerifyRegBWide .| kVerifyRegCWide);
  V 0x9C "SUB_LONG" "sub-long" k23x kIndexNone kContinue (kVerifyRegAWide .| kVerifyRegBWide .| kVerifyRegCWide);
  V 0x9D "MUL_LONG" "mul-long" k23x kIndexNone kContinue (kVerifyRegAWide .| kVerifyRegBWide .| kVerifyRegCWide);
  V 0x9E "DIV_LONG" "div-long" k23x kIndexNone (kContinue .| kThrow) (kVerifyRegAWide .| kVerifyRegBWide .| kVerifyRegCWide);
  V 0x9F "REM_LONG" "rem-long" k23x kIndexNone (kContinue .| kThrow) (kVerifyRegAWide .| kVerifyRegBWide .| kVerifyRegCWide);
  V 0xA0 "AND_LONG" "and-long" k23x kIndexNone kContinue (kVerifyRegAWide .| kVerifyRegBWide .| kVerifyRegCWide);
  V 0xA1 "OR_LONG" "or-long" k23x kIndexNone kContinue (kVerifyRegAWide .| kVerifyRegBWide .| kVerifyRegCWide);
  V 0xA2 "XOR_LONG" "xor-long" k23x kIndexNone kContinue (kVerifyRegAWide .| kVerifyRegBWide .| kVerifyRegCWide);
  V 0xA3 "SHL_LONG" "shl-long" k23x kIndexNone kContinue (kVerifyRegAWide .| kVerifyRegBWide .| kVerifyRegC);
  V 0xA4 "SHR_LONG" "shr-long" k23x kIndexNone kContinue (kVerifyRegAWide .| kVerifyRegBWide .| kVerifyRegC);
  V 0xA5 "USHR_LONG" "ushr-long" k23x kIndexNone kContinue (kVerifyRegAWide .| kVerifyRegBWide .| kVerifyRegC);
  V 0xA6 "ADD_FLOAT" "add-float" k23x kIndexNone kContinue (kVerifyRegA .| kVerifyRegB .| kVerifyRegC);
  V 0xA7 "SUB_FLOAT" "sub-float" k23x kIndexNone kContinue (kVerifyRegA .| kVerifyRegB .| kVerifyRegC);
  V 0xA8 "MUL_FLOAT" "mul-float" k23x kIndexNone kContinue (kVerifyRegA .| kVerifyRegB .| kVerifyRegC);
  V 0xA9 "DIV_FLOAT" "div-float" k23x kIndexNone kContinue (kVerifyRegA .| kVerifyRegB .| kVerifyRegC);
  V 0xAA "REM_FLOAT" "rem-float" k23x kIndexNone kContinue (kVerifyRegA .| kVerifyRegB .| kVerifyRegC);
  V 0xAB "ADD_DOUBLE" "add-double" k23x kIndexNone kContinue (kVerifyRegAWide .| kVerifyRegBWide .| kVerifyRegCWide);
  V 0xAC "SUB_DOUBLE" "sub-double" k23x kIndexNone kContinue (kVerifyRegAWide .| kVerifyRegBWide .| kVerifyRegCWide);
  V 0xAD "MUL_DOUBLE" "mul-double" k23x kIndexNone kContinue (kVerifyRegAWide .| kVerifyRegBWide .| kVerifyRegCWide);
  V 0xAE "DIV_DOUBLE" "div-double" k23x kIndexNone kContinue (kVerifyRegAWide .| kVerifyRegBWide .| kVerifyRegCWide);
  V 0xAF "REM_DOUBLE" "rem-double" k23x kIndexNone kContinue (kVerifyRegAWide .| kVerifyRegBWide .| kVerifyRegCWide);
  V 0xB0 "ADD_INT_2ADDR" "add-int/2addr" k12x kIndexNone kContinue (kVerifyRegA .| kVerifyRegB);
  V 0xB1 "SUB_INT_2ADDR" "sub-int/2addr" k12x kIndexNone kContinue (kVerifyRegA .| kVerifyRegB);
  V 0xB2 "MUL_INT_2ADDR" "mul-int/2addr" k12x kIndexNone kContinue (kVerifyRegA .| kVerifyRegB);
  V 0xB3 "DIV_INT_2ADDR" "div-int/2addr" k12x kIndexNone (kContinue .| kThrow) (kVerifyRegA .| kVerifyRegB);
  V 0xB4 "REM_INT_2ADDR" "rem-int/2addr" k12x kIndexNone (kContinue .| kThrow) (kVerifyRegA .| kVerifyRegB);
  V 0xB5 "AND_INT_2ADDR" "and-int/2addr" k12x kIndexNone kContinue (kVerifyRegA .| kVerifyRegB);
  V 0xB6 "OR_INT_2ADDR" "or-int/2addr" k12x kIndexNone kContinue (kVerifyRegA .| kVerifyRegB);
  V 0xB7 "XOR_INT_2ADDR" "xor-int/2addr" k12x kIndexNone kContinue (kVerifyRegA .| kVerifyRegB);
  V 0xB8 "SHL_INT_2ADDR" "shl-int/2addr" k12x kIndexNone kContinue (kVerifyRegA .| kVerifyRegB);
  V 0xB9 "SHR_INT_2ADDR" "shr-int/2addr" k12x kIndexNone kContinue (kVerifyRegA .| kVerifyRegB);
  V 0xBA "USHR_INT_2ADDR" "ushr-int/2addr" k12x kIndexNone kContinue (kVerifyRegA .| kVerifyRegB);
  V 0xBB "ADD_LONG_2ADDR" "add-long/2addr" k12x kIndexNone kContinue (kVerifyRegAWide .| kVerifyRegBWide);
  V 0xBC "SUB_LONG_2ADDR" "sub-long/2addr" k12x kIndexNone kContinue (kVerifyRegAWide .| kVerifyRegBWide);
  V 0xBD "MUL_LONG_2ADDR" "mul-long/2addr" k12x kIndexNone kContinue (kVerifyRegAWide .| kVerifyRegBWide);
  V 0xBE "DIV_LONG_2ADDR" "div-long/2addr" k12x kIndexNone (kContinue .| kThrow) (kVerifyRegAWide .| kVerifyRegBWide);
  V 0xBF "REM_LONG_2ADDR" "rem-long/2addr" k12x kIndexNone (kContinue .| kThrow) (kVerifyRegAWide .| kVerifyRegBWide);
  V 0xC0 "AND_LONG_2ADDR" "and-long/2addr" k12x kIndexNone kContinue (kVerifyRegAWide .| kVerifyRegBWide);
  V 0xC1 "OR_LONG_2ADDR" "or-long/2addr" k12x kIndexNone kContinue (kVerifyRegAWide .| kVerifyRegBWide);
  V 0xC2 "XOR_LONG_2ADDR" "xor-long/2addr" k12x kIndexNone kContinue (kVerifyRegAWide .| kVerifyRegBWide);
  V 0xC3 "SHL_LONG_2ADDR" "shl-long/2addr" k12x kIndexNone kContinue (kVerifyRegAWide .| kVerifyRegB);
  V 0xC4 "SHR_LONG_2ADDR" "shr-long/2addr" k12x kIndexNone kContinue (kVerifyRegAWide .| kVerifyRegB);
  V 0xC5 "USHR_LONG_2ADDR" "ushr-long/2addr" k12x kIndexNone kContinue (kVerifyRegAWide .| kVerifyRegB);
  V 0xC6 "ADD_FLOAT_2ADDR" "add-float/2addr" k12x kIndexNone kContinue (kVerifyRegA .| kVerifyRegB);
  V 0xC7 "SUB_FLOAT_2ADDR" "sub-float/2addr" k12x kIndexNone kContinue (kVerifyRegA .| kVerifyRegB);
  V 0xC8 "MUL_FLOAT_2ADDR" "mul-float/2addr" k12x kIndexNone kContinue (kVerifyRegA .| kVerifyRegB);
  V 0xC9 "DIV_FLOAT_2ADDR" "div-float/2addr" k12x kIndexNone kContinue (kVerifyRegA .| kVerifyRegB);
  V 0xCA "REM_FLOAT_2ADDR" "rem-float/2addr" k12x kIndexNone kContinue (kVerifyRegA .| kVerifyRegB);
  V 0xCB "ADD_DOUBLE_2ADDR" "add-double/2addr" k12x kIndexNone kContinue (kVerifyRegAWide .| kVerifyRegBWide);
  V 0xCC "SUB_DOUBLE_2ADDR" "sub-double/2addr" k12x kIndexNone kContinue (kVerifyRegAWide .| kVerifyRegBWide);
  V 0xCD "MUL_DOUBLE_2ADDR" "mul-double/2addr" k12x kIndexNone kContinue (kVerifyRegAWide .| kVerifyRegBWide);
  V 0xCE "DIV_DOUBLE_2ADDR" "div-double/2addr" k12x kIndexNone kContinue (kVerifyRegAWide .| kVerifyRegBWide);
  V 0xCF "REM_DOUBLE_2ADDR" "rem-double/2addr" k12x kIndexNone kContinue (kVerifyRegAWide .| kVerifyRegBWide);
  V 0xD0 "ADD_INT_LIT16" "add-int/lit16" k22s kIndexNone kContinue (kVerifyRegA .| kVerifyRegB);
  V 0xD1 "RSUB_INT" "rsub-int" k22s kIndexNone kContinue (kVerifyRegA .| kVerifyRegB);
  V 0xD2 "MUL_INT_LIT16" "mul-int/lit16" k22s kIndexNone kContinue (kVerifyRegA .| kVerifyRegB);
  V 0xD3 "DIV_INT_LIT16" "div-int/lit16" k22s kIndexNone (kContinue .| kThrow) (kVerifyRegA .| kVerifyRegB);
  V 0xD4 "REM_INT_LIT16" "rem-int/lit16" k22s kIndexNone (kContinue .| kThrow) (kVerifyRegA .| kVerifyRegB);
  V 0xD5 "AND_INT_LIT16" "and-int/lit16" k22s kIndexNone kContinue (kVerifyRegA .| kVerifyRegB);
  V 0xD6 "OR_INT_LIT16" "or-int/lit16" k22s kIndexNone kContinue (kVerifyRegA .| kVerifyRegB);
  V 0xD7 "XOR_INT_LIT16" "xor-int/lit16" k22s kIndexNone kContinue (kVerifyRegA .| kVerifyRegB);
  V 0xD8 "ADD_INT_LIT8" "add-int/lit8" k22b kIndexNone kContinue (kVerifyRegA .| kVerifyRegB);
  V 0xD9 "RSUB_INT_LIT8" "rsub-int/lit8" k22b kIndexNone kContinue (kVerifyRegA .| kVerifyRegB);
  V 0xDA "MUL_INT_LIT8" "mul-int/lit8" k22b kIndexNone kContinue (kVerifyRegA .| kVerifyRegB);
  V 0xDB "DIV_INT_LIT8" "div-int/lit8" k22b kIndexNone (kContinue .| kThrow) (kVerifyRegA .| kVerifyRegB);
  V 0xDC "REM_INT_LIT8" "rem-int/lit8" k22b kIndexNone (kContinue .| kThrow) (kVerifyRegA .| kVerifyRegB);
  V 0xDD "AND_INT_LIT8" "and-int/lit8" k22b kIndexNone kContinue (kVerifyRegA .| kVerifyRegB);
  V 0xDE "OR_INT_LIT8" "or-int/lit8" k22b kIndexNone kContinue (kVerifyRegA .| kVerifyRegB);
  V 0xDF "XOR_INT_LIT8" "xor-int/lit8" k22b kIndexNone kContinue (kVerifyRegA .| kVerifyRegB);
  V 0xE0 "SHL_INT_LIT8" "shl-int/lit8" k22b kIndexNone kContinue (kVerifyRegA .| kVerifyRegB);
  V 0xE1 "SHR_INT_LIT8" "shr-int/lit8" k22b kIndexNone kContinue (kVerifyRegA .| kVerifyRegB);
  V 0xE2 "USHR_INT_LIT8" "ushr-int/lit8" k22b kIndexNone kContinue (kVerifyRegA .| kVerifyRegB);
  V 0xE3 "IGET_QUICK" "iget-quick" k22c kIndexFieldOffset (kContinue .| kThrow) (kVerifyRegA .| kVerifyRegB .| kVerifyRuntimeOnly);
  V 0xE4 "IGET_WIDE_QUICK" "iget-wide-quick" k22c kIndexFieldOffset (kContinue .| kThrow) (kVerifyRegAWide .| kVerifyRegB .| kVerifyRuntimeOnly);
  V 0xE5 "IGET_OBJECT_QUICK" "iget-object-quick" k22c kIndexFieldOffset (kContinue .| kThrow) (kVerifyRegA .| kVerifyRegB .| kVerifyRuntimeOnly);
  V 0xE6 "IPUT_QUICK" "iput-quick" k22c kIndexFieldOffset (kContinue .| kThrow) (kVerifyRegA .| kVerifyRegB .| kVerifyRuntimeOnly);
  V 0xE7 "IPUT_WIDE_QUICK" "iput-wide-quick" k22c kIndexFieldOffset (kContinue .| kThrow) (kVerifyRegAWide .| kVerifyRegB .| kVerifyRuntimeOnly);
  V 0xE8 "IPUT_OBJECT_QUICK" "iput-object-quick" k22c kIndexFieldOffset (kContinue .| kThrow) (kVerifyRegA .| kVerifyRegB .| kVerifyRuntimeOnly);
  V 0xE9 "INVOKE_VIRTUAL_QUICK" "invoke-virtual-quick" k35c kIndexVtableOffset (kContinue .| kThrow .| kInvoke) (kVerifyVarArgNonZero .| kVerifyRuntimeOnly);
  V 0xEA "INVOKE_VIRTUAL_RANGE_QUICK" "invoke-virtual/range-quick" k3rc kIndexVtableOffset (kContinue .| kThrow .| kInvoke) (kVerifyVarArgRangeNonZero .| kVerifyRuntimeOnly);
  V 0xEB "IPUT_BOOLEAN_QUICK" "iput-boolean-quick" k22c kIndexFieldOffset (kContinue .| kThrow) (kVerifyRegA .| kVerifyRegB .| kVerifyRuntimeOnly);
  V 0xEC "IPUT_BYTE_QUICK" "iput-byte-quick" k22c kIndexFieldOffset (kContinue .| kThrow) (kVerifyRegA .| kVerifyRegB .| kVerifyRuntimeOnly);
  V 0xED "IPUT_CHAR_QUICK" "iput-char-quick" k22c kIndexFieldOffset (kContinue .| kThrow) (kVerifyRegA .| kVerifyRegB .| kVerifyRuntimeOnly);
  V 0xEE "IPUT_SHORT_QUICK" "iput-short-quick" k22c kIndexFieldOffset (kContinue .| kThrow) (kVerifyRegA .| kVerifyRegB .| kVerifyRuntimeOnly);
  V 0xEF "IGET_BOOLEAN_QUICK" "iget-boolean-quick" k22c kIndexFieldOffset (kContinue .| kThrow) (kVerifyRegA .| kVerifyRegB .| kVerifyRuntimeOnly);
  V 0xF0 "IGET_BYTE_QUICK" "iget-byte-quick" k22c kIndexFieldOffset (kContinue .| kThrow) (kVerifyRegA .| kVerifyRegB .| kVerifyRuntimeOnly);
  V 0xF1 "IGET_CHAR_QUICK" "iget-char-quick" k22c kIndexFieldOffset (kContinue .| kThrow) (kVerifyRegA .| kVerifyRegB .| kVerifyRuntimeOnly);
  V 0xF2 "IGET_SHORT_QUICK" "iget-short-quick" k22c kIndexFieldOffset (kContinue .| kThrow) (kVerifyRegA .| kVerifyRegB .| kVerifyRuntimeOnly);
  V 0xF3 "UNUSED_F3" "unused-f3" k10x kIndexUnknown 0 kVerifyError;
  V 0xF4 "UNUSED_F4" "unused-f4" k10x kIndexUnknown 0 kVerifyError;
  V 0xF5 "UNUSED_F5" "unused-f5" k10x kIndexUnknown 0 kVerifyError;
  V 0xF6 "UNUSED_F6" "unused-f6" k10x kIndexUnknown 0 kVerifyError;
  V 0xF7 "UNUSED_F7" "unused-f7" k10x kIndexUnknown 0 kVerifyError;
  V 0xF8 "UNUSED_F8" "unused-f8" k10x kIndexUnknown 0 kVerifyError;
  V 0xF9 "UNUSED_F9" "unused-f9" k10x kIndexUnknown 0 kVerifyError;
  V 0xFA "INVOKE_POLYMORPHIC" "invoke-polymorphic" k45cc kIndexMethodAndProtoRef (kContinue .| kThrow .| kInvoke) (kVerifyRegBMethod .| kVerifyVarArgNonZero .| kVerifyRegHPrototype);
  V 0xFB "INVOKE_POLYMORPHIC_RANGE" "invoke-polymorphic/range" k4rcc kIndexMethodAndProtoRef (kContinue .| kThrow .| kInvoke) (kVerifyRegBMethod .| kVerifyVarArgRangeNonZero .| kVerifyRegHPrototype);
  V 0xFC "INVOKE_CUSTOM" "invoke-custom" k35c kIndexCallSiteRef (kContinue .| kThrow) (kVerifyRegBCallSite .| kVerifyVarArg);
  V 0xFD "INVOKE_CUSTOM_RANGE" "invoke-custom/range" k3rc kIndexCallSiteRef (kContinue .| kThrow) (kVerifyRegBCallSite .| kVerifyVarArgRange);
  V 0xFE "CONST_METHOD_HANDLE" "const-method-handle" k21c kIndexMethodHandleRef (kContinue .| kThrow) (kVerifyRegA .| kVerifyRegBMethodHandle);
  V 0xFF "CONST_METHOD_TYPE" "const-method-type" k21c kIndexProtoRef (kContinue .| kThrow) (kVerifyRegA .| kVerifyRegBPrototype)
].

Definition DEX_INSTRUCTION_LIST : list Row := DEX_INSTRUCTION_LIST_low ++ DEX_INSTRUCTION_LIST_high.

Local Close Scope string_scope.

Record InstructionDescriptor := {
  verify_flags : Z; format : InstructionFormat; index_type : InstructionIndexType; flags : Z
}.

Definition gInstructionDescriptors : list InstructionDescriptor :=
  map (fun r => {| verify_flags := row_verify r; format := row_format r;
                   index_type := row_index r; flags := row_flags r |}) DEX_INSTRUCTION_LIST.
Definition gOpcodeNames : list string := map pname DEX_INSTRUCTION_LIST.

(** The enumerator [OP_<cname>]. *)
Definition OP_ (name : string) : option Z :=
  row_opcode <$> find (fun r => String.eqb (cname r) name) DEX_INSTRUCTION_LIST.

Definition OpcodeFromBytecode (bytecode : Z) : Z := Z.land bytecode 0xff.

Definition descriptor (opcode : Z) : option InstructionDescriptor :=
  gInstructionDescriptors !! Z.to_nat opcode.
Definition GetIndexTypeFromOpcode (opcode : Z) : option InstructionIndexType := index_type <$> descriptor opcode.
Definition GetFormatFromOpcode (opcode : Z) : option InstructionFormat := format <$> descriptor opcode.
Definition GetFlagsFromOpcode (opcode : Z) : option Z := flags <$> descriptor opcode.
Definition GetVerifyFlagsFromOpcode (opcode : Z) : option Z := verify_flags <$> descriptor opcode.
Definition GetOpcodeName (opcode : Z) : option string := gOpcodeNames !! Z.to_nat opcode.

(** ** Widths *)

Definition GetWidthFromFormat (f : InstructionFormat) : Z :=
  match f with
  | k10x | k12x | k11n | k11x | k10t => 1
  | k20t | k20bc | k21c | k22x | k21s | k21t | k21h | k23x | k22b | k22s | k22t
  | k22c | k22cs => 2
  | k30t | k31t | k31c | k32x | k31i | k35c | k35ms | k35mi | k3rc | k3rms | k3rmi => 3
  | k45cc | k4rcc => 4
  | k51l => 5
  end.

(** The array payload is computed in [u4]. *)
Definition GetWidthFromBytecode (bytecode : list Z) : option Z :=
  inst ← bytecode !! 0%nat;
  if inst =? kPackedSwitchSignature then
    size ← bytecode !! 1%nat; Some (4 + size * 2)
  else if inst =? kSparseSwitchSignature then
    size ← bytecode !! 1%nat; Some (2 + size * 4)
  else if inst =? kArrayDataSignature then
    elemWidth ← bytecode !! 1%nat;
    lo ← bytecode !! 2%nat; hi ← bytecode !! 3%nat;
    let len := Z.lor lo (Z.shiftl hi 16) in
    Some (u32 (4 + u32 (u32 (elemWidth * len) + 1) / 2))
  else
    f ← GetFormatFromOpcode (OpcodeFromBytecode inst);
    Some (GetWidthFromFormat f).

(** ** Decoding *)

Record Instruction := {
  vA : Z; vB : Z; vB_wide : Z; vC : Z; arg : list Z; opcode : Z
}.

Definition InstA (inst : Z) : Z := Z.land (Z.shiftr inst 8) 0x0f.
Definition InstB (inst : Z) : Z := Z.shiftr inst 12.
Definition InstAA (inst : Z) : Z := Z.shiftr inst 8.

Definition FetchU4 (ptr : list Z) : option Z :=
  lo ← ptr !! 0%nat; hi ← ptr !! 1%nat; Some (Z.lor lo (Z.shiftl hi 16)).
Definition FetchU8 (ptr : list Z) : option Z :=
  lo ← FetchU4 ptr; hi ← FetchU4 (drop 2 ptr); Some (Z.lor lo (Z.shiftl hi 32)).

(** [dec] with the fields that a case sets; the rest stays zero. *)
Definition no_args : list Z := [0; 0; 0; 0; 0].
Definition set_fields (opcode a b c : Z) : Instruction :=
  {| vA := a; vB := b; vB_wide := 0; vC := c; arg := no_args; opcode := opcode |}.
Definition set_wide (opcode a w : Z) : Instruction :=
  {| vA := a; vB := 0; vB_wide := w; vC := 0; arg := no_args; opcode := opcode |}.
Definition set_args (opcode a b c : Z) (args : list Z) : Instruction :=
  {| vA := a; vB := b; vB_wide := 0; vC := c; arg := args; opcode := opcode |}.

(** The case of [k3rc], [k3rms], [k3rmi]. *)
Definition decode_3rc (opcode inst : Z) (bytecode : list Z) : option Instruction :=
  b ← bytecode !! 1%nat; c ← bytecode !! 2%nat;
  Some (set_fields opcode (InstAA inst) b c).

(** The case of [k35c], [k35ms], [k35mi]: argument [i] is copied when the count
    is above [i]. Without checks a count above five falls into the next case. *)
Definition decode_35c (ndebug : bool) (f : InstructionFormat) (opcode inst : Z) (bytecode : list Z) :
    option Instruction :=
  let a := InstB inst in
  b ← bytecode !! 1%nat;
  regList ← bytecode !! 2%nat;
  let copy (i v : Z) := if i <? a then v else 0 in
  if a <=? 5 then
    if (a =? 5) && bool_decide (f = k35mi) && negb ndebug then None
    else
      let first := copy 0 (Z.land regList 0x0f) in
      Some (set_args opcode a b first
        [first;
         copy 1 (Z.land (Z.shiftr regList 4) 0x0f);
         copy 2 (Z.land (Z.shiftr regList 8) 0x0f);
         copy 3 (Z.land (Z.shiftr regList 12) 0x0f);
         copy 4 (InstA inst)])
  else if ndebug then decode_3rc opcode inst bytecode
  else None.

Definition DecodeInstruction (ndebug : bool) (bytecode : list Z) : option Instruction :=
  inst ← bytecode !! 0%nat;
  let opcode := OpcodeFromBytecode inst in
  f ← GetFormatFromOpcode opcode;
  match f with
  | k10x => Some (set_fields opcode 0 0 0)
  | k12x => Some (set_fields opcode (InstA inst) (InstB inst) 0)
  | k11n => Some (set_fields opcode (InstA inst) (u32 (Z.shiftr (s32 (Z.shiftl (InstB inst) 28)) 28)) 0)
  | k11x => Some (set_fields opcode (InstAA inst) 0 0)
  | k10t => Some (set_fields opcode (u32 (s8 (InstAA inst))) 0 0)
  | k20t => a ← bytecode !! 1%nat; Some (set_fields opcode (u32 (s16 a)) 0 0)
  | k20bc | k21c | k22x => b ← bytecode !! 1%nat; Some (set_fields opcode (InstAA inst) b 0)
  | k21s | k21t => b ← bytecode !! 1%nat; Some (set_fields opcode (InstAA inst) (u32 (s16 b)) 0)
  | k21h => b ← bytecode !! 1%nat; Some (set_fields opcode (InstAA inst) b 0)
  | k23x =>
      bc ← bytecode !! 1%nat;
      Some (set_fields opcode (InstAA inst) (Z.land bc 0xff) (Z.shiftr bc 8))
  | k22b =>
      bc ← bytecode !! 1%nat;
      Some (set_fields opcode (InstAA inst) (Z.land bc 0xff) (u32 (s8 (Z.shiftr bc 8))))
  | k22s | k22t =>
      c ← bytecode !! 1%nat; Some (set_fields opcode (InstA inst) (InstB inst) (u32 (s16 c)))
  | k22c | k22cs =>
      c ← bytecode !! 1%nat; Some (set_fields opcode (InstA inst) (InstB inst) c)
  | k30t => a ← FetchU4 (drop 1 bytecode); Some (set_fields opcode a 0 0)
  | k31t | k31c | k31i => b ← FetchU4 (drop 1 bytecode); Some (set_fields opcode (InstAA inst) b 0)
  | k32x => a ← bytecode !! 1%nat; b ← bytecode !! 2%nat; Some (set_fields opcode a b 0)
  | k35c | k35ms | k35mi => decode_35c ndebug f opcode inst bytecode
  | k3rc | k3rms | k3rmi => decode_3rc opcode inst bytecode
  | k45cc =>
      b ← bytecode !! 1%nat; regList ← bytecode !! 2%nat; h ← bytecode !! 3%nat;
      Some (set_args opcode (InstB inst) b (Z.land regList 0xf)
        [Z.land (Z.shiftr regList 4) 0xf; Z.land (Z.shiftr regList 8) 0xf;
         Z.shiftr regList 12; InstA inst; h])
  | k4rcc =>
      b ← bytecode !! 1%nat; c ← bytecode !! 2%nat; h ← bytecode !! 3%nat;
      Some (set_args opcode (InstAA inst) b c [0; 0; 0; 0; h])
  | k51l => w ← FetchU8 (drop 1 bytecode); Some (set_wide opcode (InstAA inst) w)
  end.
