(* ===== verification/DexIsa.v ===== *)
(** The Dalvik instruction formats as their documentation draws them, and the
    decoder against them.

    [layout f] is the format's diagram: one string per 16-bit unit, its most
    significant nibble first, a letter naming the field a nibble belongs to and
    [o] the opcode. A field that spans units has its low unit first. *)
From Stdlib Require Import String Ascii.
From S2P Require Import Prelude DexBytecode.

Local Open Scope string_scope.
Definition layout (f : InstructionFormat) : list string :=
  match f with
  | k10x => ["..oo"]
  | k12x | k11n => ["BAoo"]
  | k11x | k10t => ["AAoo"]
  | k20t => ["..oo"; "AAAA"]
  | k20bc | k22x | k21t | k21s | k21h | k21c => ["AAoo"; "BBBB"]
  | k23x | k22b => ["AAoo"; "CCBB"]
  | k22t | k22s | k22c | k22cs => ["BAoo"; "CCCC"]
  | k30t => ["..oo"; "AAAA"; "AAAA"]
  | k32x => ["..oo"; "AAAA"; "BBBB"]
  | k31i | k31t | k31c => ["AAoo"; "BBBB"; "BBBB"]
  | k35c | k35ms | k35mi => ["AGoo"; "BBBB"; "FEDC"]
  | k3rc | k3rms | k3rmi => ["AAoo"; "BBBB"; "CCCC"]
  | k45cc => ["AGoo"; "BBBB"; "FEDC"; "HHHH"]
  | k4rcc => ["AAoo"; "BBBB"; "CCCC"; "HHHH"]
  | k51l => ["AAoo"; "BBBB"; "BBBB"; "BBBB"; "BBBB"]
  end.
Local Close Scope string_scope.

Definition nibble (u : Z) (k : Z) : Z := (u / 16 ^ k) mod 16.

(** The nibbles of one unit that belong to [c]: their value and their number. *)
Fixpoint unit_field (c : ascii) (s : string) (u : Z) : Z * Z :=
  match s with
  | EmptyString => (0, 0)
  | String x s =>
      let '(v, n) := unit_field c s u in
      if Ascii.eqb x c then (v + 16 ^ n * nibble u (Z.of_nat (String.length s)), n + 1) else (v, n)
  end.

Fixpoint field_in (c : ascii) (l : list string) (code : list Z) : Z :=
  match l, code with
  | s :: l, u :: code =>
      let '(v, n) := unit_field c s u in v + 16 ^ n * field_in c l code
  | _, _ => 0
  end.

Definition raw_field (c : ascii) (f : InstructionFormat) (code : list Z) : Z := field_in c (layout f) code.

(** The fields the formats' type letters make signed, with their widths: [n]
    (nibble), [b] (byte), [s] (short) and [t] (branch target). *)
Definition signed_width (c : ascii) (f : InstructionFormat) : option Z :=
  match f, c with
  | k11n, "B"%char => Some 4
  | k10t, "A"%char => Some 8
  | k20t, "A"%char => Some 16
  | (k21s | k21t), "B"%char => Some 16
  | k22b, "C"%char => Some 8
  | (k22s | k22t), "C"%char => Some 16
  | _, _ => None
  end.

Definition field (c : ascii) (f : InstructionFormat) (code : list Z) : Z :=
  match signed_width c f with
  | Some w => u32 (sext w (raw_field c f code))
  | None => raw_field c f code
  end.

(** The reference decoding. The formats with a register list have the count in
    [A]; the wide format has a 64-bit [B]. *)
Definition counted (f : InstructionFormat) : bool :=
  match f with k35c | k35ms | k35mi => true | _ => false end.

Definition wide (f : InstructionFormat) : bool := match f with k51l => true | _ => false end.

Definition ref_args (f : InstructionFormat) (code : list Z) : list Z :=
  let g c := field c f code in
  match f with
  | k45cc | k4rcc => [g "D"; g "E"; g "F"; g "G"; g "H"]%char
  | k35c | k35ms | k35mi =>
      let n := Z.to_nat (g "A"%char) in
      take n [g "C"; g "D"; g "E"; g "F"; g "G"]%char ++ repeat 0 (5 - n)
  | _ => no_args
  end.

Definition ref_decode (f : InstructionFormat) (op : Z) (code : list Z) : Instruction :=
  let g c := field c f code in
  {| opcode := op; vA := g "A"%char;
     vB := if wide f then 0 else g "B"%char;
     vB_wide := if wide f then g "B"%char else 0;
     vC := if counted f && (g "A"%char =? 0) then 0 else g "C"%char;
     arg := ref_args f code |}.

(** Units. *)
Definition is_unit (u : Z) : Prop := 0 <= u < 2 ^ 16.

Lemma units_check l : forallb (fun u => (0 <=? u) && (u <? 2 ^ 16)) l = true -> Forall is_unit l.
Proof.
  rewrite forallb_forall, Forall_forall. intros H u Hu%list_elem_of_In. specialize (H u Hu).
  unfold is_unit. lia.
Qed.

(** ** Nibbles of a unit *)

Lemma nibbles u : is_unit u ->
  u = nibble u 0 + 16 * nibble u 1 + 256 * nibble u 2 + 4096 * nibble u 3 /\
  0 <= nibble u 0 < 16 /\ 0 <= nibble u 1 < 16 /\ 0 <= nibble u 2 < 16 /\ 0 <= nibble u 3 < 16.
Proof.
  unfold is_unit, nibble. intros H. change (16 ^ 0) with 1. change (16 ^ 1) with 16.
  change (16 ^ 2) with 256. change (16 ^ 3) with 4096.
  Z.to_euclidean_division_equations. lia.
Qed.

(** The decoder's extractions in terms of nibbles. *)
Lemma InstA_nibble u : InstA u = nibble u 2.
Proof.
  unfold InstA, nibble. change 0x0f with (Z.ones 4).
  by rewrite Z.land_ones, Z.shiftr_div_pow2 by lia.
Qed.

Lemma InstB_nibble u : is_unit u -> InstB u = nibble u 3.
Proof.
  unfold InstB, nibble, is_unit. intros. rewrite Z.shiftr_div_pow2 by lia.
  change (16 ^ 3) with (2 ^ 12). symmetry. apply Z.mod_small. Z.to_euclidean_division_equations. lia.
Qed.

Lemma shiftr_8 u : is_unit u -> Z.shiftr u 8 = nibble u 2 + 16 * nibble u 3.
Proof.
  intros H. rewrite Z.shiftr_div_pow2 by lia. pose proof (nibbles u H).
  Z.to_euclidean_division_equations. lia.
Qed.

Lemma land_ff u : is_unit u -> Z.land u 0xff = nibble u 0 + 16 * nibble u 1.
Proof.
  intros H. change 0xff with (Z.ones 8). rewrite Z.land_ones by lia. pose proof (nibbles u H).
  Z.to_euclidean_division_equations. lia.
Qed.

Lemma land_f u : Z.land u 0xf = nibble u 0.
Proof.
  change 0xf with (Z.ones 4). rewrite Z.land_ones by lia. unfold nibble. by rewrite Z.div_1_r.
Qed.

Lemma shiftr_land_f u k : 0 <= k -> Z.land (Z.shiftr u (4 * k)) 0xf = nibble u k.
Proof.
  intros. change 0xf with (Z.ones 4). rewrite Z.land_ones, Z.shiftr_div_pow2 by lia.
  unfold nibble. by rewrite Z.pow_mul_r by lia.
Qed.
Lemma shiftr_4_land_f u : Z.land (Z.shiftr u 4) 0xf = nibble u 1.
Proof. by apply (shiftr_land_f u 1). Qed.
Lemma shiftr_8_land_f u : Z.land (Z.shiftr u 8) 0xf = nibble u 2.
Proof. by apply (shiftr_land_f u 2). Qed.
Lemma shiftr_12_land_f u : Z.land (Z.shiftr u 12) 0xf = nibble u 3.
Proof. by apply (shiftr_land_f u 3). Qed.
Lemma shiftr_12 u : is_unit u -> Z.shiftr u 12 = nibble u 3.
Proof. apply (InstB_nibble u). Qed.

Lemma lor_units lo hi : is_unit lo -> Z.lor lo (Z.shiftl hi 16) = lo + 2 ^ 16 * hi.
Proof. intros. rewrite lor_add by (lia || done). lia. Qed.

(** The sign extension of a 4-bit constant. *)
Lemma sext_nibble b : 0 <= b < 16 -> Z.shiftr (s32 (Z.shiftl b 28)) 28 = sext 4 b.
Proof.
  intros H. rewrite Z.shiftl_mul_pow2, Z.shiftr_div_pow2 by lia. unfold sext.
  Z.to_euclidean_division_equations. lia.
Qed.

(** ** The decoder is the reference *)

Ltac closed_nums :=
  repeat match goal with
  | |- context [16 ^ ?n] => let v := eval vm_compute in (16 ^ n) in progress change (16 ^ n) with v
  | |- context [Z.of_nat ?n] => let v := eval vm_compute in (Z.of_nat n) in progress change (Z.of_nat n) with v
  end.

(** Unfolds the layout of a given format on a given number of units. *)
Ltac layout_eqs :=
  cbn -[Z.add Z.mul Z.pow Z.of_nat nibble sext trunc Z.ltb Z.leb Z.eqb InstA InstB Z.shiftr Z.shiftl Z.land Z.lor];
  closed_nums.

Ltac closed_tests :=
  repeat match goal with
  | |- context [Z.to_nat ?n] => let v := eval vm_compute in (Z.to_nat n) in progress change (Z.to_nat n) with v
  | |- context [?a <? ?b] => let v := eval vm_compute in (a <? b) in progress change (a <? b) with v
  | |- context [?a <=? ?b] => let v := eval vm_compute in (a <=? b) in progress change (a <=? b) with v
  | |- context [?a =? ?b] => let v := eval vm_compute in (a =? b) in progress change (a =? b) with v
  end.

Ltac unit_facts :=
  repeat match goal with H : is_unit ?u |- _ =>
    let K := fresh "K" in pose proof (nibbles u H) as K;
    rewrite ?(InstB_nibble u H), ?(shiftr_12 u H), ?(shiftr_8 u H), ?(land_ff u H), ?(lor_units u _ H);
    unfold is_unit in H
  end.

Ltac same_fields :=
  first [reflexivity | lia | progress f_equal; same_fields].

(** Splits off the units a format needs. *)
Ltac split_units :=
  repeat match goal with
  | H : (Z.to_nat ?n <= _)%nat |- _ => let v := eval vm_compute in (Z.to_nat n) in change (Z.to_nat n) with v in H
  | H : (S _ <= List.length ?code)%nat |- _ => destruct code as [|? code]; cbn [List.length] in H; [lia|]
  | H : (S _ <= S _)%nat |- _ => apply le_S_n in H
  end;
  repeat match goal with H : Forall _ (_ :: _) |- _ => apply Forall_cons in H as [? H] end.

Ltac decoder_eqs :=
  unfold FetchU8, FetchU4, decode_35c, decode_3rc, ref_decode, ref_args, field, raw_field, set_fields, set_args, set_wide, InstAA;
  layout_eqs; change 0x0f with 0xf; unfold InstAA;
  rewrite ?InstA_nibble, ?shiftr_4_land_f, ?shiftr_8_land_f, ?shiftr_12_land_f, ?land_f.

Definition arg_count_ok (f : InstructionFormat) (code : list Z) : Prop :=
  counted f = true -> field "A"%char f code <= 5 /\ (f = k35mi -> field "A"%char f code <= 4).


Lemma decode_uncounted ndebug inst code f :
  counted f = false -> Forall is_unit (inst :: code) ->
  GetFormatFromOpcode (OpcodeFromBytecode inst) = Some f ->
  (Z.to_nat (GetWidthFromFormat f) <= List.length (inst :: code))%nat ->
  DecodeInstruction ndebug (inst :: code) = Some (ref_decode f (OpcodeFromBytecode inst) (inst :: code)).
Proof.
  intros Hc Hu Hf Hw. unfold DecodeInstruction. cbn [lookup list_lookup mbind option_bind]. rewrite Hf.
  cbn [mbind option_bind]. destruct f; try discriminate Hc; cbn [GetWidthFromFormat List.length] in Hw; split_units; clear Hf Hc.
  all: decoder_eqs; unit_facts.
  all: try same_fields.
  - rewrite sext_nibble by lia. same_fields.
  - rewrite lor_add by lia. same_fields.
Qed.

Lemma decode_counted ndebug inst code f :
  counted f = true -> arg_count_ok f (inst :: code) -> Forall is_unit (inst :: code) ->
  GetFormatFromOpcode (OpcodeFromBytecode inst) = Some f ->
  (Z.to_nat (GetWidthFromFormat f) <= List.length (inst :: code))%nat ->
  DecodeInstruction ndebug (inst :: code) = Some (ref_decode f (OpcodeFromBytecode inst) (inst :: code)).
Proof.
  intros Hc Ho Hu Hf Hw. destruct (Ho Hc) as [Ha Hmi]. clear Ho.
  unfold DecodeInstruction. cbn [lookup list_lookup mbind option_bind]. rewrite Hf.
  cbn [mbind option_bind]. destruct f; try discriminate Hc; cbn [GetWidthFromFormat List.length] in Hw; split_units; clear Hf Hc.
  all: decoder_eqs; unit_facts; revert Ha Hmi; unfold field, raw_field; layout_eqs; intros Ha Hmi.
  all: assert (Hn : nibble inst 3 = 0 \/ nibble inst 3 = 1 \/ nibble inst 3 = 2 \/ nibble inst 3 = 3 \/
                    nibble inst 3 = 4 \/ nibble inst 3 = 5) by lia.
  all: destruct Hn as [E|[E|[E|[E|[E|E]]]]]; try (specialize (Hmi eq_refl); lia); rewrite !E.
  all: rewrite ?(bool_decide_false (_ = _)) by discriminate; closed_tests; cbn [andb take repeat app Nat.sub]; same_fields.
Qed.

(** ** The table *)

Lemma format_total inst : is_unit inst -> exists f, GetFormatFromOpcode (OpcodeFromBytecode inst) = Some f.
Proof.
  intros _. unfold GetFormatFromOpcode, descriptor.
  assert (H : (Z.to_nat (OpcodeFromBytecode inst) < List.length gInstructionDescriptors)%nat).
  { change (List.length gInstructionDescriptors) with 256%nat. unfold OpcodeFromBytecode.
    pose proof (land_range 8 inst 0xff ltac:(lia) ltac:(lia)). lia. }
  apply lookup_lt_is_Some_2 in H as [d ->]. by exists (format d).
Qed.

Lemma width_layout f : GetWidthFromFormat f = Z.of_nat (List.length (layout f)).
Proof. by destruct f. Qed.

(** A property of every row, checked row by row. *)
Lemma all_rows (P : Z -> InstructionDescriptor -> bool) :
  forallb (fun i => match descriptor (Z.of_nat i) with Some d => P (Z.of_nat i) d | None => false end)
    (seq 0 256) = true ->
  forall op d, descriptor op = Some d -> 0 <= op -> P op d = true.
Proof.
  intros H op d Hd Hop. rewrite forallb_forall in H.
  assert (Hl : (Z.to_nat op < 256)%nat).
  { change 256%nat with (List.length gInstructionDescriptors). by apply (lookup_lt_Some _ _ d). }
  specialize (H (Z.to_nat op)). rewrite Z2Nat.id, Hd in H by done. apply H. apply in_seq. lia.
Qed.

(** The fields that the verifier's flags speak of. *)
Definition any_flag (flags v : Z) : bool := negb (Z.land flags v =? 0).
Definition has_field (c : ascii) (f : InstructionFormat) : bool :=
  existsb (fun s => existsb (Ascii.eqb c) (list_ascii_of_string s)) (layout f).

Definition verify_A := kVerifyRegA .| kVerifyRegAWide.
Definition verify_B := kVerifyRegB .| kVerifyRegBField .| kVerifyRegBMethod .| kVerifyRegBNewInstance .|
  kVerifyRegBString .| kVerifyRegBType .| kVerifyRegBWide .| kVerifyRegBCallSite .|
  kVerifyRegBMethodHandle .| kVerifyRegBPrototype.
Definition verify_C := kVerifyRegC .| kVerifyRegCField .| kVerifyRegCNewArray .| kVerifyRegCType .| kVerifyRegCWide.

(** The index kind, by the flag of the field that holds the index. *)
Definition kind_of_flags (v : Z) : InstructionIndexType :=
  if any_flag v kVerifyRegHPrototype then kIndexMethodAndProtoRef
  else if any_flag v kVerifyRegBMethod then kIndexMethodRef
  else if any_flag v (kVerifyRegBField .| kVerifyRegCField) then kIndexFieldRef
  else if any_flag v kVerifyRegBString then kIndexStringRef
  else if any_flag v (kVerifyRegBType .| kVerifyRegBNewInstance .| kVerifyRegCType .| kVerifyRegCNewArray) then kIndexTypeRef
  else if any_flag v kVerifyRegBCallSite then kIndexCallSiteRef
  else if any_flag v kVerifyRegBMethodHandle then kIndexMethodHandleRef
  else if any_flag v kVerifyRegBPrototype then kIndexProtoRef
  else kIndexNone.

Definition row_ok (d : InstructionDescriptor) : bool :=
  let v := verify_flags d in
  let impl a b := negb a || b in
  impl (any_flag v verify_A) (has_field "A" (format d)) &&
  impl (any_flag v verify_B) (has_field "B" (format d)) &&
  impl (any_flag v verify_C) (has_field "C" (format d)) &&
  impl (any_flag v kVerifyRegHPrototype) (has_field "H" (format d)) &&
  Bool.eqb (any_flag (flags d) kBranch) (any_flag v kVerifyBranchTarget) &&
  impl (any_flag (flags d) kUnconditional) (any_flag (flags d) kBranch) &&
  impl (any_flag (flags d) kInvoke) (any_flag v (kVerifyRegBMethod .| kVerifyRuntimeOnly)) &&
  (any_flag v (kVerifyRuntimeOnly .| kVerifyError) || bool_decide (index_type d = kind_of_flags v)).

(** ** A register count above five *)

Lemma counted_A inst tl f : is_unit inst -> counted f = true -> field "A"%char f (inst :: tl) = InstB inst.
Proof.
  intros Hi Hc. rewrite InstB_nibble by done. destruct f; try discriminate Hc;
    unfold field, raw_field; layout_eqs; destruct tl as [|? [|? ?]]; layout_eqs; lia.
Qed.

Lemma decode_overflow nd inst code f : counted f = true -> Forall is_unit (inst :: code) ->
  GetFormatFromOpcode (OpcodeFromBytecode inst) = Some f ->
  (Z.to_nat (GetWidthFromFormat f) <= List.length (inst :: code))%nat ->
  5 < field "A"%char f (inst :: code) ->
  DecodeInstruction nd (inst :: code) =
    if nd then Some (ref_decode k3rc (OpcodeFromBytecode inst) (inst :: code)) else None.
Proof.
  intros Hc Hu Hf Hw Ha. pose proof Hu as [Hi _]%Forall_cons. rewrite counted_A in Ha by done.
  unfold DecodeInstruction. cbn [lookup list_lookup mbind option_bind]. rewrite Hf. cbn [mbind option_bind].
  assert (E : (InstB inst <=? 5) = false) by (apply Z.leb_gt; lia).
  destruct f; try discriminate Hc; cbn [GetWidthFromFormat List.length] in Hw; split_units; clear Hf Hc;
    unfold decode_35c; cbn [lookup list_lookup mbind option_bind]; rewrite E; (destruct nd; [|done]); decoder_eqs; unit_facts;
    same_fields.
Qed.
