(* ===== verification/DexCode.v ===== *)
(** Instruction streams: [Reader::ParseInstructions] ([slicer/reader.cc]), which
    visits the items that code refers to, and [Writer::WriteInstructions]
    ([writer.cc]), which writes the code with the items' new indexes.

    A position in the stream is the list of the units from there on. The reader's
    lookups ([GetString], [GetType], ...) are the list of what they are called
    with. [None] is an abort, an exception or a stray access. *)
From S2P Require Import Prelude SlicerBuffer DexBytecode.

Definition kNoIndex : Z := 0xffffffff.

(** ** The reader *)

Inductive item := StringItem | TypeItem | FieldItem | MethodItem | ProtoItem.
Definition ref : Type := item * Z.

#[global] Instance item_eq : EqDecision item.
Proof. solve_decision. Defined.

(** The two switches of the loop's body. *)
Definition insn_indexes (f : InstructionFormat) (dex_instr : Instruction) : Z * Z :=
  match f with
  | k20bc | k21c | k31c | k35c | k3rc => (vB dex_instr, kNoIndex)
  | k45cc | k4rcc => (vB dex_instr, nth 4 (arg dex_instr) 0)
  | k22c => (vC dex_instr, kNoIndex)
  | _ => (kNoIndex, kNoIndex)
  end.

Definition insn_refs (it : InstructionIndexType) (index index2 : Z) : list ref :=
  match it with
  | kIndexStringRef => [(StringItem, index)]
  | kIndexTypeRef => [(TypeItem, index)]
  | kIndexFieldRef => [(FieldItem, index)]
  | kIndexMethodRef => [(MethodItem, index)]
  | kIndexMethodAndProtoRef => [(MethodItem, index); (ProtoItem, index2)]
  | _ => []
  end.

Definition parse_insn (ndebug : bool) (ptr : list Z) : option (list ref) :=
  dex_instr ← DecodeInstruction ndebug ptr;
  f ← GetFormatFromOpcode (opcode dex_instr);
  it ← GetIndexTypeFromOpcode (opcode dex_instr);
  let '(index, index2) := insn_indexes f dex_instr in
  Some (insn_refs it index index2).

(** The loop; at its end [ptr == code.end()] is checked. *)
Fixpoint ParseInstructions_loop (fuel : nat) (ndebug : bool) (ptr : list Z) : option (list ref) :=
  match ptr with
  | [] => Some []
  | _ =>
      match fuel with
      | O => None
      | S fuel =>
          refs ← parse_insn ndebug ptr;
          isize ← GetWidthFromBytecode ptr;
          SLICER_CHECK ndebug (isize >? 0) ;;
          if Z.of_nat (length ptr) <? isize then SLICER_CHECK ndebug false ;; Some refs
          else
            refs' ← ParseInstructions_loop fuel ndebug (drop (Z.to_nat isize) ptr);
            Some (refs ++ refs')
      end
  end.

(** One step per unit is enough. *)
Definition ParseInstructions (ndebug : bool) (code : list Z) : option (list ref) :=
  ParseInstructions_loop (length code) ndebug code.

(** ** The writer *)

(** [dex_ir_->strings_map] and so on, from an original index to the [index] of
    its node. *)
Record index_maps := {
  strings_map : gmap Z Z; types_map : gmap Z Z; fields_map : gmap Z Z;
  methods_map : gmap Z Z; protos_map : gmap Z Z
}.

Definition map_of (ir : index_maps) (k : item) : gmap Z Z :=
  match k with
  | StringItem => strings_map ir | TypeItem => types_map ir | FieldItem => fields_map ir
  | MethodItem => methods_map ir | ProtoItem => protos_map ir
  end.

(** The body shared by the five functions; [at] throws when there is no node. *)
Definition MapIndex (ndebug : bool) (m : gmap Z Z) (index : Z) : option Z :=
  if negb (index =? kNoIndex) then
    index ← m !! index;
    SLICER_CHECK ndebug (negb (index =? kNoIndex)) ;;
    Some index
  else Some index.
Definition MapStringIndex (ndebug : bool) (ir : index_maps) : Z -> option Z := MapIndex ndebug (strings_map ir).
Definition MapTypeIndex (ndebug : bool) (ir : index_maps) : Z -> option Z := MapIndex ndebug (types_map ir).
Definition MapFieldIndex (ndebug : bool) (ir : index_maps) : Z -> option Z := MapIndex ndebug (fields_map ir).
Definition MapMethodIndex (ndebug : bool) (ir : index_maps) : Z -> option Z := MapIndex ndebug (methods_map ir).
Definition MapProtoIndex (ndebug : bool) (ir : index_maps) : Z -> option Z := MapIndex ndebug (protos_map ir).

Definition ReadU4 (ptr : list Z) : option Z :=
  lo ← ptr !! 0%nat; hi ← ptr !! 1%nat; Some (Z.lor lo (Z.shiftl hi 16)).
(** [WriteU4(&ptr[i], val)]. *)
Definition WriteU4 (i : nat) (val : Z) (ptr : list Z) : list Z :=
  <[S i := u16 (Z.shiftr val 16)]> (<[i := Z.land val 0xffff]> ptr).

(** A two-byte slot at [ptr[i]]: the sequence of the five cases. *)
Definition relocate_u2 (ndebug : bool) (map_index : Z -> option Z) (i : nat) (ptr : list Z) : option (list Z) :=
  idx ← ptr !! i;
  new_index ← map_index idx;
  SLICER_CHECK ndebug (negb (new_index =? kNoIndex)) ;;
  SLICER_CHECK ndebug (u16 new_index =? new_index) ;;
  Some (<[i := u16 new_index]> ptr).

Definition relocate_u4 (ndebug : bool) (map_index : Z -> option Z) (i : nat) (ptr : list Z) : option (list Z) :=
  idx ← ReadU4 (drop i ptr);
  new_index ← map_index idx;
  SLICER_CHECK ndebug (negb (new_index =? kNoIndex)) ;;
  Some (WriteU4 i new_index ptr).

Definition idx_size (f : InstructionFormat) : Z :=
  match f with
  | k20bc | k21c | k35c | k3rc | k22c => 2
  | k31c => 4
  | k45cc | k4rcc => 2
  | _ => 0
  end.
(** [idx2], null but in two formats. *)
Definition idx2 (f : InstructionFormat) : option nat :=
  match f with k45cc | k4rcc => Some 3%nat | _ => None end.

(** The loop's body up to the step: the units from [ptr] on, rewritten. *)
Definition relocate_insn (ndebug : bool) (ir : index_maps) (ptr : list Z) : option (list Z) :=
  inst ← ptr !! 0%nat;
  let opcode := OpcodeFromBytecode inst in
  f ← GetFormatFromOpcode opcode;
  it ← GetIndexTypeFromOpcode opcode;
  let u2_slot map_index := SLICER_CHECK ndebug (idx_size f =? 2) ;; relocate_u2 ndebug map_index 1 ptr in
  match it with
  | kIndexStringRef =>
      if idx_size f =? 4 then relocate_u4 ndebug (MapStringIndex ndebug ir) 1 ptr
      else u2_slot (MapStringIndex ndebug ir)
  | kIndexTypeRef => u2_slot (MapTypeIndex ndebug ir)
  | kIndexFieldRef => u2_slot (MapFieldIndex ndebug ir)
  | kIndexMethodRef => u2_slot (MapMethodIndex ndebug ir)
  | kIndexMethodAndProtoRef =>
      ptr ← u2_slot (MapMethodIndex ndebug ir);
      i ← idx2 f;
      relocate_u2 ndebug (MapProtoIndex ndebug ir) i ptr
  | _ => Some ptr
  end.

Fixpoint WriteInstructions_loop (fuel : nat) (ndebug : bool) (ir : index_maps) (ptr : list Z) : option (list Z) :=
  match ptr with
  | [] => Some []
  | _ =>
      match fuel with
      | O => None
      | S fuel =>
          ptr ← relocate_insn ndebug ir ptr;
          isize ← GetWidthFromBytecode ptr;
          SLICER_CHECK ndebug (isize >? 0) ;;
          if Z.of_nat (length ptr) <? isize then SLICER_CHECK ndebug false ;; Some ptr
          else
            rest ← WriteInstructions_loop fuel ndebug ir (drop (Z.to_nat isize) ptr);
            Some (take (Z.to_nat isize) ptr ++ rest)
      end
  end.

(** The units pushed to the code section. *)
Definition WriteInstructions (ndebug : bool) (ir : index_maps) (instructions : list Z) : option (list Z) :=
  SLICER_CHECK ndebug (negb (bool_decide (instructions = []))) ;;
  WriteInstructions_loop (length instructions) ndebug ir instructions.
