(* ===== verification/DexCodeSpec.v ===== *)
(** What instruction streams refer to, by the formats' layouts, and the reader
    and the writer against it. *)
From Stdlib Require Import String Ascii.
From S2P Require Import Prelude SlicerBuffer DexBytecode DexIsa DexCode.

(** ** Well-formed streams *)

(** An instruction or a payload: [chunk] is exactly its units. *)
Record well_formed_insn (chunk : list Z) : Prop := {
  wf_units : Forall is_unit chunk;
  wf_width : GetWidthFromBytecode chunk = Some (Z.of_nat (List.length chunk));
  wf_args : forall inst f, chunk !! 0%nat = Some inst ->
    GetFormatFromOpcode (OpcodeFromBytecode inst) = Some f -> arg_count_ok f chunk }.

(** A reference: what it refers to, its index, and the bound on the indexes that
    its slot can hold. *)
Record slot := Slot { slot_item : item; slot_index : Z; slot_limit : Z }.
Definition slot_ref (s : slot) : ref := (slot_item s, slot_index s).

Definition index_letter (f : InstructionFormat) : ascii :=
  match f with k22c => "C"%char | _ => "B"%char end.
Definition index_limit (f : InstructionFormat) : Z :=
  match f with k31c => kNoIndex | _ => 2 ^ 16 end.

Definition slots_of (f : InstructionFormat) (it : InstructionIndexType) (chunk : list Z) : list slot :=
  let one k := [Slot k (field (index_letter f) f chunk) (index_limit f)] in
  match it with
  | kIndexStringRef => one StringItem
  | kIndexTypeRef => one TypeItem
  | kIndexFieldRef => one FieldItem
  | kIndexMethodRef => one MethodItem
  | kIndexMethodAndProtoRef => one MethodItem ++ [Slot ProtoItem (field "H"%char f chunk) (2 ^ 16)]
  | _ => []
  end.

Definition insn_format (chunk : list Z) : option InstructionFormat :=
  inst ← chunk !! 0%nat; GetFormatFromOpcode (OpcodeFromBytecode inst).
Definition insn_index (chunk : list Z) : option InstructionIndexType :=
  inst ← chunk !! 0%nat; GetIndexTypeFromOpcode (OpcodeFromBytecode inst).
Definition insn_slots (chunk : list Z) : list slot :=
  match insn_format chunk, insn_index chunk with
  | Some f, Some it => slots_of f it chunk
  | _, _ => []
  end.
Definition stream_slots (chunks : list (list Z)) : list slot := concat (map insn_slots chunks).

(** ** Renaming *)


(** The slot can be renamed: its index is mapped, to one it can hold. *)
Definition fits (ir : index_maps) (s : slot) : Prop :=
  slot_index s <> kNoIndex /\
  exists n, map_of ir (slot_item s) !! slot_index s = Some n /\ 0 <= n < slot_limit s.
Definition renamed (ir : index_maps) (s : slot) : slot :=
  Slot (slot_item s) (default (slot_index s) (map_of ir (slot_item s) !! slot_index s)) (slot_limit s).

(** The units that hold indexes. *)
Definition slot_units (f : InstructionFormat) (it : InstructionIndexType) : list nat :=
  match it with
  | kIndexStringRef => match f with k31c => [1; 2]%nat | _ => [1]%nat end
  | kIndexTypeRef | kIndexFieldRef | kIndexMethodRef => [1]%nat
  | kIndexMethodAndProtoRef => [1; 3]%nat
  | _ => []
  end.

(** [chunk'] is [chunk] with its slots renamed and nothing else changed. *)
Record reindexed (ir : index_maps) (chunk chunk' : list Z) : Prop := {
  re_length : List.length chunk' = List.length chunk;
  re_wf : well_formed_insn chunk';
  re_slots : insn_slots chunk' = map (renamed ir) (insn_slots chunk);
  re_rest : forall f it i, insn_format chunk = Some f -> insn_index chunk = Some it ->
    i ∉ slot_units f it -> chunk' !! i = chunk !! i }.

(** ** Widths *)

Lemma width_pos code w : Forall is_unit code -> GetWidthFromBytecode code = Some w -> 0 < w.
Proof.
  intros Hu. unfold GetWidthFromBytecode. intros (inst & Hi & H)%bind_Some.
  assert (Hunit : forall i u, code !! i = Some u -> 0 <= u).
  { intros i u E. rewrite Forall_lookup in Hu. by apply (Hu i). }
  destruct (inst =? kPackedSwitchSignature).
  { apply bind_Some in H as (u & Hl & [= <-]). apply Hunit in Hl. lia. }
  destruct (inst =? kSparseSwitchSignature).
  { apply bind_Some in H as (u & Hl & [= <-]). apply Hunit in Hl. lia. }
  destruct (inst =? kArrayDataSignature).
  { apply bind_Some in H as (u & _ & H). apply bind_Some in H as (lo & _ & H).
    apply bind_Some in H as (hi & _ & H). cbv zeta in H. injection H as <-.
    set (x := u32 (u32 _ + 1)). assert (0 <= x < 2 ^ 32) by (apply trunc_range; lia). clearbody x.
    rewrite trunc_small; Z.to_euclidean_division_equations; lia. }
  apply bind_Some in H as (f & _ & [= <-]). by destruct f.
Qed.

Lemma width_app chunk rest w : GetWidthFromBytecode chunk = Some w -> GetWidthFromBytecode (chunk ++ rest) = Some w.
Proof.
  unfold GetWidthFromBytecode. intros (inst & Hi & H)%bind_Some.
  assert (A : forall i u, chunk !! i = Some u -> (chunk ++ rest) !! i = Some u) by (intros; by apply lookup_app_l_Some).
  rewrite (A _ _ Hi). cbn [mbind option_bind].
  repeat case_match; try done;
    repeat match goal with H : _ ≫= _ = Some _ |- _ => apply bind_Some in H as (? & ?Hl & H) end;
    repeat match goal with Hl : chunk !! _ = Some _ |- _ => rewrite (A _ _ Hl); clear Hl end; done.
Qed.

(** The width is decided by the units it counts. *)
Lemma width_take code w : Forall is_unit code ->
  GetWidthFromBytecode code = Some w -> w <= Z.of_nat (List.length code) ->
  GetWidthFromBytecode (take (Z.to_nat w) code) = Some w.
Proof.
  intros Hu H Hle. pose proof (width_pos code w Hu H) as Hp. revert H. unfold GetWidthFromBytecode.
  assert (T : forall i : nat, (i < Z.to_nat w)%nat -> take (Z.to_nat w) code !! i = code !! i)
    by (intros; by apply lookup_take_lt).
  intros (inst & Hi & H)%bind_Some. rewrite (T 0%nat), Hi by lia. cbn [mbind option_bind].
  assert (Hunit : forall i u, code !! i = Some u -> 0 <= u).
  { intros i u E. rewrite Forall_lookup in Hu. by apply (Hu i). }
  destruct (inst =? kPackedSwitchSignature).
  { apply bind_Some in H as (u & Hl & [= <-]). pose proof (Hunit _ _ Hl). by rewrite (T 1%nat), Hl by lia. }
  destruct (inst =? kSparseSwitchSignature).
  { apply bind_Some in H as (u & Hl & [= <-]). pose proof (Hunit _ _ Hl). by rewrite (T 1%nat), Hl by lia. }
  destruct (inst =? kArrayDataSignature); [|done].
  apply bind_Some in H as (u & Hl & H). apply bind_Some in H as (lo & Hl' & H).
  apply bind_Some in H as (hi & Hl'' & H). cbv zeta in H. pose proof H as H0. injection H as H.
  assert (4 <= w).
  { rewrite <- H. set (x := u32 (u32 _ + 1)). assert (0 <= x < 2 ^ 32) by (apply trunc_range; lia). clearbody x.
    rewrite trunc_small; Z.to_euclidean_division_equations; lia. }
  rewrite (T 1%nat), (T 2%nat), (T 3%nat), Hl, Hl', Hl'' by lia. exact H0.
Qed.

(** ** Fields of a prefix *)

Lemma field_in_app c l : forall code rest, (List.length l <= List.length code)%nat ->
  field_in c l (code ++ rest) = field_in c l code.
Proof.
  induction l as [|s l IH]; intros [|u code] rest H; cbn in *; try lia; [done..|].
  destruct (unit_field c s u). rewrite IH by lia. done.
Qed.

Lemma field_app c f code rest : (List.length (layout f) <= List.length code)%nat ->
  field c f (code ++ rest) = field c f code.
Proof. intros. unfold field, raw_field. by rewrite field_in_app. Qed.

Lemma arg_count_app f code rest : (List.length (layout f) <= List.length code)%nat ->
  arg_count_ok f (code ++ rest) <-> arg_count_ok f code.
Proof. intros H. unfold arg_count_ok. by rewrite (field_app _ f code rest H). Qed.

Lemma ref_decode_app f op code rest : (List.length (layout f) <= List.length code)%nat ->
  ref_decode f op (code ++ rest) = ref_decode f op code.
Proof. intros. unfold ref_decode, ref_args. by rewrite !field_app. Qed.

(** ** Instructions of a well-formed stream *)

(** The rows with an index: their formats. *)
Definition index_formats (it : InstructionIndexType) : list InstructionFormat :=
  match it with
  | kIndexStringRef => [k21c; k31c]
  | kIndexTypeRef => [k21c; k22c; k35c; k3rc]
  | kIndexFieldRef => [k21c; k22c]
  | kIndexMethodRef => [k35c; k3rc]
  | kIndexMethodAndProtoRef => [k45cc; k4rcc]
  | _ => []
  end.

Definition indexed (it : InstructionIndexType) : bool := bool_decide (index_formats it <> []).

Lemma rows_indexed op d : descriptor op = Some d -> 0 <= op ->
  index_formats (index_type d) = [] \/ format d ∈ index_formats (index_type d).
Proof.
  intros Hd Hop. pose (P := fun (_ : Z) d =>
    bool_decide (index_formats (index_type d) = []) || bool_decide (format d ∈ index_formats (index_type d))).
  assert (H : P op d = true); [|by apply orb_true_iff in H as [H%bool_decide_eq_true|H%bool_decide_eq_true]; [left|right]].
  refine (all_rows P _ op d Hd Hop). vm_compute. reflexivity.
Qed.

Lemma opcode_nonneg inst : 0 <= OpcodeFromBytecode inst.
Proof. unfold OpcodeFromBytecode. pose proof (land_range 8 inst 0xff). lia. Qed.

Lemma format_index inst f it :
  GetFormatFromOpcode (OpcodeFromBytecode inst) = Some f ->
  GetIndexTypeFromOpcode (OpcodeFromBytecode inst) = Some it ->
  index_formats it = [] \/ f ∈ index_formats it.
Proof.
  unfold GetFormatFromOpcode, GetIndexTypeFromOpcode. intros (d & Hd & ->)%fmap_Some (d' & Hd' & ->)%fmap_Some.
  assert (d' = d) as -> by congruence. exact (rows_indexed _ d Hd (opcode_nonneg inst)).
Qed.

Lemma index_total inst f : GetFormatFromOpcode (OpcodeFromBytecode inst) = Some f ->
  exists it, GetIndexTypeFromOpcode (OpcodeFromBytecode inst) = Some it.
Proof.
  unfold GetFormatFromOpcode, GetIndexTypeFromOpcode. intros (d & -> & _)%fmap_Some. by exists (index_type d).
Qed.

(** A payload starts with a [nop], so every well-formed chunk has the units of
    its format. *)
Lemma wf_format chunk : well_formed_insn chunk ->
  exists inst tl f it, chunk = inst :: tl /\ is_unit inst /\
    GetFormatFromOpcode (OpcodeFromBytecode inst) = Some f /\
    GetIndexTypeFromOpcode (OpcodeFromBytecode inst) = Some it /\
    (index_formats it = [] \/ f ∈ index_formats it) /\
    (List.length (layout f) <= List.length chunk)%nat /\
    (index_formats it <> [] -> List.length chunk = List.length (layout f)).
Proof.
  intros [Hu Hw Ha]. destruct chunk as [|inst tl]; [discriminate Hw|].
  pose proof Hu as [Hi _]%Forall_cons. destruct (format_total inst Hi) as [f Hf].
  destruct (index_total inst f Hf) as [it Hit].
  exists inst, tl, f, it. split; [done|]. split; [done|]. split; [done|]. split; [done|].
  split; [by eapply format_index|].
  assert (Hp : forall sig, inst = sig -> GetFormatFromOpcode (OpcodeFromBytecode sig) = Some k10x ->
    GetIndexTypeFromOpcode (OpcodeFromBytecode sig) = Some kIndexNone ->
    (List.length (layout f) <= List.length (inst :: tl))%nat /\
    (index_formats it <> [] -> List.length (inst :: tl) = List.length (layout f))).
  { intros sig <- E1 E2. assert (f = k10x) as -> by congruence. assert (it = kIndexNone) as -> by congruence.
    split; [cbn; lia|done]. }
  unfold GetWidthFromBytecode in Hw. cbn [lookup list_lookup mbind option_bind] in Hw.
  destruct (Z.eqb_spec inst kPackedSwitchSignature) as [E|_]; [by apply (Hp _ E)|].
  destruct (Z.eqb_spec inst kSparseSwitchSignature) as [E|_]; [by apply (Hp _ E)|].
  destruct (Z.eqb_spec inst kArrayDataSignature) as [E|_]; [by apply (Hp _ E)|].
  clear Hp. rewrite Hf in Hw. cbn [mbind option_bind] in Hw. injection Hw as Hw. rewrite width_layout in Hw.
  apply Nat2Z.inj in Hw. cbn [List.length] in *. split; [lia|intros; lia].
Qed.

Lemma parse_insn_spec nd chunk rest : well_formed_insn chunk -> Forall is_unit rest ->
  parse_insn nd (chunk ++ rest) = Some (map slot_ref (insn_slots chunk)).
Proof.
  intros Hwf Hr. destruct (wf_format chunk Hwf) as (inst & tl & f & it & -> & Hi & Hf & Hit & Hfi & Hl & _).
  assert (Hd : DecodeInstruction nd ((inst :: tl) ++ rest) = Some (ref_decode f (OpcodeFromBytecode inst) (inst :: tl))).
  { rewrite <- (ref_decode_app f _ (inst :: tl) rest Hl).
    assert (Hu : Forall is_unit ((inst :: tl) ++ rest)) by (apply Forall_app; split; [apply Hwf|done]).
    assert (Hw : (Z.to_nat (GetWidthFromFormat f) <= List.length ((inst :: tl) ++ rest))%nat).
    { rewrite width_layout, length_app. cbn [List.length] in *. lia. }
    destruct (counted f) eqn:Hc.
    - apply decode_counted; try done. pose proof (wf_args _ Hwf inst f eq_refl Hf) as Ha.
      by apply (arg_count_app f (inst :: tl) rest).
    - by apply decode_uncounted. }
  unfold parse_insn, insn_slots, insn_format, insn_index. rewrite Hd.
  cbn [mbind option_bind lookup list_lookup opcode ref_decode]. rewrite Hf, Hit. cbn [mbind option_bind].
  destruct Hfi as [Hn|Hfi].
  - destruct it; try discriminate Hn; by destruct (insn_indexes f _).
  - destruct it; try (by apply not_elem_of_nil in Hfi); destruct f; cbn in Hfi;
      repeat (apply elem_of_cons in Hfi as [Hfi|Hfi]; [try discriminate Hfi|]);
      try (by apply not_elem_of_nil in Hfi); reflexivity.
Qed.

Lemma units_concat chunks : Forall well_formed_insn chunks -> Forall is_unit (concat chunks).
Proof.
  induction 1 as [|c cs Hc _ IH]; [by constructor|]. cbn. apply Forall_app. split; [apply Hc|done].
Qed.

(** What a loop sees at the start of a well-formed chunk. *)
Lemma wf_step chunk rest : well_formed_insn chunk ->
  exists inst tl, chunk = inst :: tl /\
    GetWidthFromBytecode (chunk ++ rest) = Some (Z.of_nat (List.length chunk)) /\
    (Z.of_nat (List.length chunk) >? 0) = true /\
    (Z.of_nat (List.length (chunk ++ rest)) <? Z.of_nat (List.length chunk)) = false /\
    take (Z.to_nat (Z.of_nat (List.length chunk))) (chunk ++ rest) = chunk /\
    drop (Z.to_nat (Z.of_nat (List.length chunk))) (chunk ++ rest) = rest.
Proof.
  intros H. pose proof (width_app chunk rest _ (wf_width _ H)) as Hw.
  pose proof (width_pos _ _ (wf_units _ H) (wf_width _ H)) as Hp.
  destruct chunk as [|inst tl]; [cbn in Hp; lia|]. exists inst, tl. split; [done|]. split; [done|].
  split; [by apply Z.gtb_lt|]. split; [apply Z.ltb_ge; rewrite length_app; lia|].
  rewrite Nat2Z.id. split; [apply take_app_length|apply drop_app_length].
Qed.

Lemma parse_chunks nd chunks : Forall well_formed_insn chunks -> forall fuel,
  (List.length (concat chunks) <= fuel)%nat ->
  ParseInstructions_loop fuel nd (concat chunks) = Some (map slot_ref (stream_slots chunks)).
Proof.
  induction 1 as [|c cs Hc Hcs IH]; intros fuel Hf; [by destruct fuel|].
  cbn [concat map] in *. destruct (wf_step c (concat cs) Hc) as (inst & tl & Hi & Hw & Hp & Hl & Ht & Hd).
  pose proof (parse_insn_spec nd c (concat cs) Hc (units_concat _ Hcs)) as Hparse.
  assert (Hf' : (1 + List.length (concat cs) <= fuel)%nat) by (rewrite length_app, Hi in Hf; cbn in Hf; lia).
  destruct fuel as [|fuel]; [lia|]. unfold stream_slots. cbn [map concat].
  rewrite map_app. change (concat (map insn_slots cs)) with (stream_slots cs).
  remember (c ++ concat cs) as code eqn:E. destruct code as [|u us]; [by rewrite Hi in E|].
  cbn [ParseInstructions_loop]. rewrite Hparse. cbn [mbind option_bind]. rewrite Hw. cbn [mbind option_bind].
  rewrite Hp, Hl, Hd. unfold SLICER_CHECK. rewrite orb_true_r. cbn [mbind option_bind]. rewrite IH by lia. done.
Qed.

(** A register count that the checked decoder accepts. *)
Lemma checked_arg_count inst tl dec f :
  Forall is_unit (inst :: tl) -> DecodeInstruction false (inst :: tl) = Some dec ->
  GetFormatFromOpcode (OpcodeFromBytecode inst) = Some f -> arg_count_ok f (inst :: tl).
Proof.
  intros Hu Hd Hf Hc. unfold DecodeInstruction in Hd. cbn [lookup list_lookup mbind option_bind] in Hd.
  rewrite Hf in Hd. cbn [mbind option_bind] in Hd. apply Forall_cons in Hu as [Hi _].
  pose proof (counted_A inst tl f Hi Hc) as Hn. rewrite Hn. assert (Hdec : decode_35c false f (OpcodeFromBytecode inst) inst (inst :: tl) = Some dec).
  { destruct f; try discriminate Hc; exact Hd. }
  clear Hd Hn. unfold decode_35c in Hdec. apply bind_Some in Hdec as (b & _ & Hdec).
  apply bind_Some in Hdec as (r & _ & Hdec). cbv zeta in Hdec.
  destruct (Z.leb_spec (InstB inst) 5); [|discriminate Hdec]. split; [done|]. intros ->.
  destruct (Z.eqb_spec (InstB inst) 5); [|lia].
  rewrite bool_decide_true in Hdec by done. discriminate Hdec.
Qed.

Lemma format_width inst tl f : f <> k10x ->
  GetFormatFromOpcode (OpcodeFromBytecode inst) = Some f ->
  GetWidthFromBytecode (inst :: tl) = Some (GetWidthFromFormat f).
Proof.
  intros Hc Hf. unfold GetWidthFromBytecode. cbn [lookup list_lookup mbind option_bind].
  assert (Hs : forall sig, GetFormatFromOpcode (OpcodeFromBytecode sig) = Some k10x -> inst <> sig).
  { intros sig E ->. rewrite Hf in E. injection E as ->. by destruct Hc. }
  by rewrite !(proj2 (Z.eqb_neq _ _)), Hf by (by apply Hs).
Qed.

(** The checked reader accepts only well-formed streams. *)
Lemma parse_accepts fuel : forall code refs, Forall is_unit code ->
  ParseInstructions_loop fuel false code = Some refs ->
  exists chunks, code = concat chunks /\ Forall well_formed_insn chunks.
Proof.
  induction fuel as [|fuel IH]; intros code refs Hu H; destruct code as [|inst tl]; try discriminate H;
    try (by exists []). cbn [ParseInstructions_loop] in H.
  apply bind_Some in H as (rs & Hp & H). apply bind_Some in H as (w & Hw & H).
  pose proof (width_pos _ _ Hu Hw) as Hpos. apply bind_Some in H as ([] & _ & H).
  destruct (Z.ltb_spec (Z.of_nat (List.length (inst :: tl))) w) as [|Hle]; [discriminate H|].
  apply bind_Some in H as (rs' & Hrest & _).
  destruct (IH _ _ (Forall_drop _ _ _ Hu) Hrest) as (chunks & E & Hc).
  exists (take (Z.to_nat w) (inst :: tl) :: chunks). cbn [concat]. rewrite <- E, take_drop.
  split; [done|]. constructor; [|done]. set (chunk := take (Z.to_nat w) (inst :: tl)).
  assert (Hlen : Z.of_nat (List.length chunk) = w) by (unfold chunk; rewrite length_take; lia).
  assert (Hsplit : chunk ++ drop (Z.to_nat w) (inst :: tl) = inst :: tl) by apply take_drop.
  constructor; [by apply Forall_take|rewrite Hlen; by apply width_take|].
  intros inst' f Hi Hf. unfold chunk in Hi. rewrite lookup_take_lt in Hi by lia. injection Hi as <-.
  destruct (counted f) eqn:Hcf; [|intros E'; congruence].
  apply (arg_count_app f chunk (drop (Z.to_nat w) (inst :: tl))).
  - apply Nat2Z.inj_le. rewrite Hlen, <- width_layout. rewrite (format_width inst tl f) in Hw; [injection Hw as ->; lia|by intros ->|done].
  - rewrite Hsplit. unfold parse_insn in Hp. apply bind_Some in Hp as (dec & Hdec & _).
    by eapply checked_arg_count.
Qed.

(** ** The writer *)

(** Rewriting units behind the first keeps a chunk well-formed. *)
Lemma reindexed_intro ir inst tl tl' f it :
  well_formed_insn (inst :: tl) -> f <> k10x ->
  GetFormatFromOpcode (OpcodeFromBytecode inst) = Some f ->
  GetIndexTypeFromOpcode (OpcodeFromBytecode inst) = Some it ->
  List.length tl' = List.length tl -> Forall is_unit tl' ->
  slots_of f it (inst :: tl') = map (renamed ir) (slots_of f it (inst :: tl)) ->
  (forall i, i ∉ slot_units f it -> (inst :: tl') !! i = (inst :: tl) !! i) ->
  reindexed ir (inst :: tl) (inst :: tl').
Proof.
  intros [Hu Hw Ha] Hk Hf Hit Hl Hu' Hs Hr. apply Forall_cons in Hu as [Hi Hu].
  assert (Hl' : List.length (inst :: tl') = List.length (inst :: tl)) by (cbn; lia).
  constructor; [done| | |].
  - constructor; [by apply Forall_cons|by rewrite Hl', <- Hw, !(format_width inst _ f)|].
    intros inst' f' [= <-] Hf'. assert (f' = f) as -> by congruence.
    intros Hc. rewrite (counted_A inst tl' f), <- (counted_A inst tl f) by done. by apply (Ha inst f).
  - unfold insn_slots, insn_format, insn_index. cbn [lookup list_lookup mbind option_bind]. by rewrite Hf, Hit.
  - unfold insn_format, insn_index. cbn [lookup list_lookup mbind option_bind]. intros f' it' i E1 E2.
    assert (f' = f) as -> by congruence. assert (it' = it) as -> by congruence. apply Hr.
Qed.

(** The slot of two bytes that follows the opcode, and the other ones. *)
Definition short_slot (f : InstructionFormat) : bool :=
  match f with k21c | k22c | k35c | k3rc | k45cc | k4rcc => true | _ => false end.

Lemma short_field f u0 u1 tl : short_slot f = true -> is_unit u1 ->
  (List.length (layout f) <= S (S (List.length tl)))%nat ->
  field (index_letter f) f (u0 :: u1 :: tl) = u1.
Proof.
  intros Hf H1 Hl. pose proof (nibbles u1 H1). destruct f; try discriminate Hf;
    unfold field, raw_field; layout_eqs; destruct tl as [|? [|? tl]]; layout_eqs; try (cbn in Hl; lia); lia.
Qed.

Lemma proto_field f u0 u1 u2 u3 tl : f = k45cc \/ f = k4rcc -> is_unit u3 ->
  field "H"%char f (u0 :: u1 :: u2 :: u3 :: tl) = u3.
Proof.
  intros Hf H3. pose proof (nibbles u3 H3). destruct Hf as [-> | ->]; unfold field, raw_field; layout_eqs; lia.
Qed.

Lemma long_field u0 u1 u2 tl : is_unit u1 -> is_unit u2 ->
  field "B"%char k31c (u0 :: u1 :: u2 :: tl) = u1 + 2 ^ 16 * u2.
Proof.
  intros H1 H2. pose proof (nibbles u1 H1). pose proof (nibbles u2 H2). unfold field, raw_field; layout_eqs. lia.
Qed.

Lemma MapIndex_fits nd m i n lim : i <> kNoIndex -> m !! i = Some n -> 0 <= n < lim -> lim <= kNoIndex ->
  MapIndex nd m i = Some n /\ (n =? kNoIndex) = false.
Proof.
  intros Hi Hm Hn Hlim. assert (E : (n =? kNoIndex) = false) by (apply Z.eqb_neq; lia). split; [|done].
  unfold MapIndex. rewrite (proj2 (Z.eqb_neq _ _) Hi), Hm. cbn [negb mbind option_bind]. rewrite E.
  unfold SLICER_CHECK. by rewrite orb_true_r.
Qed.

Lemma relocate_u2_fits nd m i idx n ptr : ptr !! i = Some idx -> idx <> kNoIndex -> m !! idx = Some n ->
  0 <= n < 2 ^ 16 -> relocate_u2 nd (MapIndex nd m) i ptr = Some (<[i := n]> ptr).
Proof.
  intros Hp Hi Hm Hn. unfold relocate_u2. rewrite Hp. cbn [mbind option_bind].
  destruct (MapIndex_fits nd m idx n (2 ^ 16) Hi Hm Hn) as [-> E]; [done|]. cbn [mbind option_bind].
  rewrite E, trunc_small, Z.eqb_refl by done. unfold SLICER_CHECK. by rewrite !orb_true_r.
Qed.

Lemma relocate_u4_fits nd m i lo hi n ptr : ptr !! i = Some lo -> ptr !! S i = Some hi -> is_unit lo ->
  lo + 2 ^ 16 * hi <> kNoIndex -> m !! (lo + 2 ^ 16 * hi) = Some n -> 0 <= n < kNoIndex ->
  relocate_u4 nd (MapIndex nd m) i ptr = Some (<[S i := n / 2 ^ 16]> (<[i := n mod 2 ^ 16]> ptr)).
Proof.
  intros Hl Hh Hu Hi Hm Hn. unfold relocate_u4, ReadU4. rewrite !lookup_drop, Nat.add_0_r, Nat.add_1_r, Hl, Hh.
  cbn [mbind option_bind]. rewrite lor_units by done.
  destruct (MapIndex_fits nd m _ n kNoIndex Hi Hm Hn) as [-> E]; [done|]. cbn [mbind option_bind].
  rewrite E. unfold SLICER_CHECK, WriteU4. rewrite !orb_true_r. cbn [mbind option_bind].
  change 0xffff with (Z.ones 16). rewrite Z.land_ones, Z.shiftr_div_pow2 by lia.
  rewrite trunc_small; [done|]. change kNoIndex with 4294967295 in Hn. Z.to_euclidean_division_equations. lia.
Qed.

(** One instruction is rewritten in place. *)
Lemma relocate_short nd ir k u0 u1 tl rest f it n :
  well_formed_insn (u0 :: u1 :: tl) -> short_slot f = true -> List.length (layout f) = S (S (List.length tl)) ->
  GetFormatFromOpcode (OpcodeFromBytecode u0) = Some f ->
  GetIndexTypeFromOpcode (OpcodeFromBytecode u0) = Some it ->
  (forall c, slots_of f it c = [Slot k (field (index_letter f) f c) (2 ^ 16)]) -> slot_units f it = [1%nat] ->
  u1 <> kNoIndex -> map_of ir k !! u1 = Some n -> 0 <= n < 2 ^ 16 ->
  (forall ptr, ptr !! 0%nat = Some u0 ->
     relocate_insn nd ir ptr = relocate_u2 nd (MapIndex nd (map_of ir k)) 1 ptr) ->
  relocate_insn nd ir ((u0 :: u1 :: tl) ++ rest) = Some ((u0 :: n :: tl) ++ rest) /\
  reindexed ir (u0 :: u1 :: tl) (u0 :: n :: tl).
Proof.
  intros Hwf Hs Hl Hf Hit Hsl Hsu Hu1 Hm Hn Hrel.
  pose proof (wf_units _ Hwf) as [_ [H1 Htl]%Forall_cons]%Forall_cons. split.
  - rewrite Hrel by done. by rewrite (relocate_u2_fits nd _ 1 u1 n).
  - apply (reindexed_intro ir u0 (u1 :: tl) (n :: tl) f it); try done.
    + intros ->. discriminate Hs.
    + by apply Forall_cons.
    + rewrite !Hsl. cbn [map]. unfold renamed. cbn [slot_item slot_index slot_limit].
      rewrite !short_field by (done || lia). by rewrite Hm.
    + intros i Hi. rewrite Hsu in Hi. destruct i as [|[|i]]; [done| |done]. by destruct Hi; left.
Qed.

Lemma relocate_long nd ir u0 u1 u2 rest n :
  well_formed_insn [u0; u1; u2] ->
  GetFormatFromOpcode (OpcodeFromBytecode u0) = Some k31c ->
  GetIndexTypeFromOpcode (OpcodeFromBytecode u0) = Some kIndexStringRef ->
  u1 + 2 ^ 16 * u2 <> kNoIndex -> strings_map ir !! (u1 + 2 ^ 16 * u2) = Some n -> 0 <= n < kNoIndex ->
  relocate_insn nd ir ([u0; u1; u2] ++ rest) = Some ([u0; n mod 2 ^ 16; n / 2 ^ 16] ++ rest) /\
  reindexed ir [u0; u1; u2] [u0; n mod 2 ^ 16; n / 2 ^ 16].
Proof.
  intros Hwf Hf Hit Hu Hm Hn.
  pose proof (wf_units _ Hwf) as [_ [H1 [H2 _]%Forall_cons]%Forall_cons]%Forall_cons.
  change kNoIndex with 4294967295 in Hn.
  assert (Hlo : is_unit (n mod 2 ^ 16)) by (unfold is_unit; apply Z.mod_pos_bound; lia).
  assert (Hhi : is_unit (n / 2 ^ 16)) by (unfold is_unit; Z.to_euclidean_division_equations; lia).
  split.
  - unfold relocate_insn. cbn [lookup list_lookup mbind option_bind app]. rewrite Hf, Hit. cbn [mbind option_bind idx_size Z.eqb Pos.eqb].
    unfold MapStringIndex. by rewrite (relocate_u4_fits nd _ 1 u1 u2 n).
  - apply (reindexed_intro ir u0 [u1; u2] [n mod 2 ^ 16; n / 2 ^ 16] k31c kIndexStringRef); try done.
    + apply Forall_cons; split; [done|]. by apply Forall_singleton.
    + unfold slots_of. cbn [map index_letter index_limit]. unfold renamed. cbn [slot_item slot_index slot_limit map_of].
      rewrite !long_field by done. rewrite Hm. cbn [default from_option id]. do 2 f_equal.
      pose proof (Z.div_mod n (2 ^ 16)). lia.
    + intros [|[|[|i]]] Hi; [done| | |done]; destruct Hi; repeat constructor.
Qed.

Lemma relocate_two nd ir u0 u1 u2 u3 rest f n n' :
  well_formed_insn [u0; u1; u2; u3] -> f = k45cc \/ f = k4rcc ->
  GetFormatFromOpcode (OpcodeFromBytecode u0) = Some f ->
  GetIndexTypeFromOpcode (OpcodeFromBytecode u0) = Some kIndexMethodAndProtoRef ->
  methods_map ir !! u1 = Some n -> 0 <= n < 2 ^ 16 -> protos_map ir !! u3 = Some n' -> 0 <= n' < 2 ^ 16 ->
  relocate_insn nd ir ([u0; u1; u2; u3] ++ rest) = Some ([u0; n; u2; n'] ++ rest) /\
  reindexed ir [u0; u1; u2; u3] [u0; n; u2; n'].
Proof.
  intros Hwf Hff Hf Hit Hm Hn Hm' Hn'.
  pose proof (wf_units _ Hwf) as [_ [H1 [H2 [H3 _]%Forall_cons]%Forall_cons]%Forall_cons]%Forall_cons.
  assert (Hne : forall u, is_unit u -> u <> kNoIndex).
  { intros u Hu ->. unfold is_unit in Hu. change kNoIndex with 4294967295 in Hu. lia. }
  split.
  - unfold relocate_insn. cbn [lookup list_lookup mbind option_bind app]. rewrite Hf, Hit. cbn [mbind option_bind].
    rewrite SLICER_CHECK_true by (by destruct Hff as [-> | ->]). cbn [mbind option_bind].
    unfold MapMethodIndex, MapProtoIndex. rewrite (relocate_u2_fits nd _ 1 u1 n) by auto.
    cbn [mbind option_bind]. assert (Hi : idx2 f = Some 3%nat) by (by destruct Hff as [-> | ->]).
    rewrite Hi. cbn [mbind option_bind]. by rewrite (relocate_u2_fits nd _ 3 u3 n') by auto.
  - assert (Hs : short_slot f = true) by (by destruct Hff as [-> | ->]).
    apply (reindexed_intro ir u0 [u1; u2; u3] [n; u2; n'] f kIndexMethodAndProtoRef); try done.
    + by intros ->; destruct Hff.
    + repeat (apply Forall_cons; split; [done|]). by apply Forall_nil.
    + unfold slots_of. cbn [map app]. unfold renamed. cbn [slot_item slot_index slot_limit map_of].
      rewrite !short_field, !proto_field by (done || destruct Hff as [-> | ->]; cbn; lia).
      rewrite Hm, Hm'. assert (Hlim : index_limit f = 2 ^ 16) by (by destruct Hff as [-> | ->]). by rewrite Hlim.
    + intros [|[|[|[|i]]]] Hi; [done| |done| |done]; destruct Hi; repeat constructor.
Qed.

Lemma reindexed_refl ir chunk : well_formed_insn chunk -> insn_slots chunk = [] -> reindexed ir chunk chunk.
Proof. intros H E. constructor; [done|done|by rewrite E|done]. Qed.

Lemma relocate_insn_spec nd ir chunk rest : well_formed_insn chunk -> Forall (fits ir) (insn_slots chunk) ->
  exists chunk', relocate_insn nd ir (chunk ++ rest) = Some (chunk' ++ rest) /\ reindexed ir chunk chunk'.
Proof.
  intros Hwf Hfit. destruct (wf_format chunk Hwf) as (u0 & tl & f & it & -> & Hi & Hf & Hit & Hfi & _ & Hl).
  unfold insn_slots, insn_format, insn_index in Hfit. cbn [lookup list_lookup mbind option_bind] in Hfit.
  rewrite Hf, Hit in Hfit.
  assert (Hrel : forall ptr, ptr !! 0%nat = Some u0 -> relocate_insn nd ir ptr =
    match it with
    | kIndexStringRef =>
        if idx_size f =? 4 then relocate_u4 nd (MapStringIndex nd ir) 1 ptr
        else SLICER_CHECK nd (idx_size f =? 2) ;; relocate_u2 nd (MapStringIndex nd ir) 1 ptr
    | kIndexTypeRef => SLICER_CHECK nd (idx_size f =? 2) ;; relocate_u2 nd (MapTypeIndex nd ir) 1 ptr
    | kIndexFieldRef => SLICER_CHECK nd (idx_size f =? 2) ;; relocate_u2 nd (MapFieldIndex nd ir) 1 ptr
    | kIndexMethodRef => SLICER_CHECK nd (idx_size f =? 2) ;; relocate_u2 nd (MapMethodIndex nd ir) 1 ptr
    | kIndexMethodAndProtoRef => relocate_insn nd ir ptr
    | _ => Some ptr
    end).
  { intros ptr Hp. unfold relocate_insn at 1. rewrite Hp. cbn [mbind option_bind]. rewrite Hf, Hit. cbn [mbind option_bind].
    destruct it; try done. unfold relocate_insn. rewrite Hp. cbn [mbind option_bind]. by rewrite Hf, Hit. }
  destruct Hfi as [Hn|Hfi].
  { exists (u0 :: tl). split.
    - rewrite Hrel by done. by destruct it; try discriminate Hn.
    - apply reindexed_refl; [done|]. unfold insn_slots, insn_format, insn_index.
      cbn [lookup list_lookup mbind option_bind]. rewrite Hf, Hit. by destruct it; try discriminate Hn. }
  specialize (Hl ltac:(intros E; rewrite E in Hfi; by apply not_elem_of_nil in Hfi)). cbn [List.length] in Hl.
  destruct tl as [|u1 tl].
  { exfalso. destruct it; cbn [index_formats] in Hfi;
    repeat (apply elem_of_cons in Hfi as [->|Hfi]; [discriminate Hl|]); by apply not_elem_of_nil in Hfi. }
  pose proof (wf_units _ Hwf) as [_ [H1 Htl]%Forall_cons]%Forall_cons.
  destruct it; cbn [index_formats] in Hfi;
    repeat (apply elem_of_cons in Hfi as [->|Hfi]); try (by apply not_elem_of_nil in Hfi);
    cbn [layout List.length] in Hl.
  6: { destruct tl as [|u2 [|]]; [discriminate Hl| |discriminate Hl]. apply Forall_cons in Htl as [H2 _].
    apply Forall_cons in Hfit as [(Hne & n & Hm & Hlim) _].
    cbn [slot_item slot_index slot_limit index_limit index_letter map_of] in Hne, Hm, Hlim.
    rewrite long_field in Hne, Hm by done. eexists. by apply (relocate_long nd ir u0 u1 u2 rest n). }
  10,11: destruct tl as [|u2 [|u3 [|]]]; try discriminate Hl; apply Forall_cons in Htl as [H2 [H3 _]%Forall_cons];
    apply Forall_cons in Hfit as [(_ & n & Hm & Hlim) [(_ & n' & Hm' & Hlim') _]%Forall_cons];
    cbn [slot_item slot_index slot_limit index_limit map_of] in Hm, Hlim, Hm', Hlim';
    rewrite short_field in Hm by (done || cbn; lia); rewrite proto_field in Hm' by (done || by (left + right));
    eexists;
    first [solve [apply (relocate_two nd ir u0 u1 u2 u3 rest k45cc n n'); try eassumption; by left]
          |solve [apply (relocate_two nd ir u0 u1 u2 u3 rest k4rcc n n'); try eassumption; by right]].
  all: apply Forall_cons in Hfit as [(Hne & n & Hm & Hlim) _];
    cbn [slot_item slot_index slot_limit index_limit] in Hne, Hm, Hlim;
    rewrite short_field in Hne, Hm by (done || cbn [layout List.length] in *; lia);
    eexists; eapply (relocate_short nd ir _ u0 u1 tl rest _ _ n); try eassumption; try done;
    intros ptr Hp; rewrite Hrel by done; cbn [idx_size Z.eqb Pos.eqb]; by rewrite ?SLICER_CHECK_true.
Qed.

Lemma write_chunks nd ir chunks : Forall well_formed_insn chunks -> Forall (fits ir) (stream_slots chunks) ->
  forall fuel, (List.length (concat chunks) <= fuel)%nat ->
  exists chunks', WriteInstructions_loop fuel nd ir (concat chunks) = Some (concat chunks') /\
    Forall2 (reindexed ir) chunks chunks'.
Proof.
  induction 1 as [|c cs Hc Hcs IH]; intros Hfit fuel Hf.
  { exists []. split; [by destruct fuel|by constructor]. }
  unfold stream_slots in Hfit. cbn [map concat] in Hfit, Hf. apply Forall_app in Hfit as [Hfc Hfcs].
  destruct (relocate_insn_spec nd ir c (concat cs) Hc Hfc) as (c' & Hrel & Hre).
  destruct (wf_step c (concat cs) Hc) as (inst & tl & Hi & _).
  assert (Hf' : (1 + List.length (concat cs) <= fuel)%nat) by (rewrite length_app, Hi in Hf; cbn in Hf; lia).
  destruct fuel as [|fuel]; [lia|]. destruct (IH Hfcs fuel ltac:(lia)) as (cs' & Hw & Hres).
  exists (c' :: cs'). split; [|by constructor].
  destruct (wf_step c' (concat cs) (re_wf _ _ _ Hre)) as (inst' & tl' & Hi' & Hw' & Hp & Hl & Ht & Hd).
  cbn [concat]. remember (c ++ concat cs) as code eqn:E. destruct code as [|u us]; [by rewrite Hi in E|].
  cbn [WriteInstructions_loop]. rewrite Hrel. cbn [mbind option_bind]. rewrite Hw'. cbn [mbind option_bind].
  rewrite Hp, Hl, Hd, Ht, SLICER_CHECK_true by done. cbn [mbind option_bind]. by rewrite Hw.
Qed.

Lemma reindexed_slots ir chunks chunks' : Forall2 (reindexed ir) chunks chunks' ->
  stream_slots chunks' = map (renamed ir) (stream_slots chunks).
Proof.
  induction 1 as [|c c' cs cs' H _ IH]; [done|]. unfold stream_slots in *. cbn [map concat].
  by rewrite map_app, IH, (re_slots _ _ _ H).
Qed.

Lemma reindexed_wf ir chunks chunks' : Forall2 (reindexed ir) chunks chunks' -> Forall well_formed_insn chunks'.
Proof. induction 1 as [|c c' cs cs' H _ IH]; constructor; [apply H|done]. Qed.

(** ** Splitting a stream, by computation *)

Definition word_b (w x : Z) : bool := (0 <=? x) && (x <? 2 ^ w).
Fixpoint split_insns (fuel : nat) (code : list Z) : option (list (list Z)) :=
  match code, fuel with
  | [], _ => Some []
  | _, O => None
  | _, S fuel => w ← GetWidthFromBytecode code; cs ← split_insns fuel (drop (Z.to_nat w) code); Some (take (Z.to_nat w) code :: cs)
  end.
Definition insn_b (chunk : list Z) : bool :=
  forallb (word_b 16) chunk && bool_decide (GetWidthFromBytecode chunk = Some (Z.of_nat (List.length chunk))) &&
  match chunk with
  | inst :: _ => match GetFormatFromOpcode (OpcodeFromBytecode inst) with
      | Some f => negb (counted f) || (field "A"%char f chunk <=? 4)
      | None => true
      end
  | [] => true
  end.

Lemma forallb_Forall {A} (p : A -> bool) (P : A -> Prop) l : (forall a, p a = true -> P a) -> forallb p l = true -> Forall P l.
Proof. intros H. rewrite forallb_forall. intros Hl. apply Forall_forall. intros a Ha%list_elem_of_In. by apply H, Hl. Qed.
Lemma word_b_ok w x : word_b w x = true -> in_word w x.
Proof. unfold word_b, in_word. lia. Qed.
Lemma insn_b_ok chunk : insn_b chunk = true -> well_formed_insn chunk.
Proof.
  unfold insn_b. rewrite !andb_true_iff, bool_decide_eq_true. intros [[H1 H2] H3]. split; [|exact H2|].
  - eapply forallb_Forall; [|exact H1]. apply word_b_ok.
  - intros inst f Hi Hf. destruct chunk as [|x chunk]; [done|]. injection Hi as ->. rewrite Hf in H3. intros Hc. rewrite Hc in H3. cbn in H3. lia.
Qed.
Lemma split_insns_concat fuel : forall code chunks, split_insns fuel code = Some chunks -> code = concat chunks.
Proof.
  induction fuel as [|fuel IH]; intros [|u code] chunks; cbn [split_insns]; try done; try (by intros [= <-]).
  intros (w & _ & H)%bind_Some. apply bind_Some in H as (cs & Hcs & [= <-]). cbn [concat]. by rewrite <- (IH _ _ Hcs), take_drop.
Qed.
