(* ===== verification/DexClaims.v ===== *)
(** Properties of the Dalvik decoder and of instruction streams. *)
From Stdlib Require Import String Ascii.
From S2P Require Import Prelude SlicerBuffer DexBytecode DexIsa DexCode DexCodeSpec.

(** C38: [DecodeInstruction] is the documented decoding: for every opcode, if the
    units that the format's diagram draws are there, their number is the
    format's width and the fields are read off the diagram with the signedness
    of the format's type letter. A register count above five aborts with the
    checks on and is read as the range form without them. *)
Theorem decode_follows_layout nd inst code : Forall is_unit (inst :: code) ->
  exists f, GetFormatFromOpcode (OpcodeFromBytecode inst) = Some f /\
    GetWidthFromFormat f = Z.of_nat (List.length (layout f)) /\
    ((List.length (layout f) <= List.length (inst :: code))%nat ->
     (arg_count_ok f (inst :: code) ->
        DecodeInstruction nd (inst :: code) = Some (ref_decode f (OpcodeFromBytecode inst) (inst :: code))) /\
     (counted f = true -> 5 < field "A"%char f (inst :: code) ->
        DecodeInstruction nd (inst :: code) =
          if nd then Some (ref_decode k3rc (OpcodeFromBytecode inst) (inst :: code)) else None)).
Proof.
  intros Hu. pose proof Hu as [Hi Hc]%Forall_cons. destruct (format_total inst Hi) as [f Hf]. exists f.
  split; [done|]. split; [apply width_layout|]. intros Hl.
  assert (Hw : (Z.to_nat (GetWidthFromFormat f) <= List.length (inst :: code))%nat)
    by (rewrite width_layout, Nat2Z.id; done).
  split.
  - intros Ha. destruct (counted f) eqn:E; [by apply decode_counted|by apply decode_uncounted].
  - intros E Ha. by apply (decode_overflow nd inst code f).
Qed.

(** [if-lt v1, v2, -3]. *)
Lemma decode_follows_layout_witness : exists f,
  GetFormatFromOpcode 0x34 = Some f /\
  DecodeInstruction false [0x2134; 0xFFFD] = Some (ref_decode f 0x34 [0x2134; 0xFFFD]) /\
  (vA (ref_decode f 0x34 [0x2134; 0xFFFD]), vB (ref_decode f 0x34 [0x2134; 0xFFFD]),
   s32 (vC (ref_decode f 0x34 [0x2134; 0xFFFD]))) = (1, 2, -3).
Proof.
  destruct (decode_follows_layout false 0x2134 [0xFFFD]) as (f & Hf & _ & H).
  - by apply units_check.
  - exists k22t. split; [reflexivity|]. split; [|reflexivity].
    change (GetFormatFromOpcode (OpcodeFromBytecode 0x2134)) with (Some k22t) in Hf. injection Hf as <-.
    apply H; [cbn; lia|intros E; discriminate E].
Defined.

(** C39: the opcode table is consistent: there is a row for every opcode, at the
    index of its number; the verifier's flags speak only of fields the format
    has; branches are the instructions whose target is verified, unconditional
    ones are branches; and outside the runtime-only and unused opcodes the index
    kind is the one the verifier's flags name. *)
Theorem opcode_table_consistent op : 0 <= op < kNumPackedOpcodes ->
  exists r d, DEX_INSTRUCTION_LIST !! Z.to_nat op = Some r /\ row_opcode r = op /\
    OP_ (cname r) = Some op /\ GetOpcodeName op = Some (pname r) /\
    descriptor op = Some d /\ row_ok d = true.
Proof.
  intros Hop. pose (P := fun i => match DEX_INSTRUCTION_LIST !! i, descriptor (Z.of_nat i) with
    | Some r, Some d => (row_opcode r =? Z.of_nat i) && bool_decide (OP_ (cname r) = Some (Z.of_nat i)) &&
        bool_decide (GetOpcodeName (Z.of_nat i) = Some (pname r)) && row_ok d
    | _, _ => false end).
  assert (H : forallb P (seq 0 256) = true) by (vm_compute; reflexivity).
  rewrite forallb_forall in H. change kNumPackedOpcodes with 256 in Hop.
  specialize (H (Z.to_nat op) ltac:(apply in_seq; lia)). unfold P in H. rewrite Z2Nat.id in H by lia.
  destruct (DEX_INSTRUCTION_LIST !! Z.to_nat op) as [r|]; [|discriminate H].
  destruct (descriptor op) as [d|]; [|discriminate H]. exists r, d.
  repeat rewrite andb_true_iff in H. destruct H as [[[H1 H2] H3] H4].
  apply Z.eqb_eq in H1. apply bool_decide_eq_true in H2, H3. done.
Qed.

Lemma opcode_table_consistent_witness : exists r d, DEX_INSTRUCTION_LIST !! 0x6F%nat = Some r /\
  row_opcode r = 0x6F /\ descriptor 0x6F = Some d /\ row_ok d = true.
Proof.
  destruct (opcode_table_consistent 0x6F) as (r & d & H1 & H2 & _ & _ & H3 & H4).
  - vm_compute. intuition congruence.
  - exists r, d. split; [exact H1|]. split; [exact H2|]. split; [exact H3|exact H4].
Defined.

(** C34: [Reader::ParseInstructions] terminates and, with the checks on, accepts
    exactly the streams that are cut into whole instructions and payloads with
    valid register counts; on such a stream, in either build, it visits exactly
    the references that the formats' diagrams draw, in order. *)
Theorem parse_instructions_visits code : Forall is_unit code ->
  ((exists refs, ParseInstructions false code = Some refs) <->
   exists chunks, code = concat chunks /\ Forall well_formed_insn chunks) /\
  forall nd chunks, code = concat chunks -> Forall well_formed_insn chunks ->
    ParseInstructions nd code = Some (map slot_ref (stream_slots chunks)).
Proof.
  intros Hu.
  assert (H : forall nd chunks, code = concat chunks -> Forall well_formed_insn chunks ->
    ParseInstructions nd code = Some (map slot_ref (stream_slots chunks))).
  { intros nd chunks -> Hc. by apply parse_chunks. }
  split; [|done]. split.
  - intros [refs E]. by apply (parse_accepts _ _ _ Hu E).
  - intros (chunks & E & Hc). eexists. by apply (H false chunks).
Qed.

(** [const-string v0, "3"; return-void]. *)
Definition demo_chunks : list (list Z) := [[0x001A; 3]; [0x000E]].

Lemma demo_well_formed : Forall well_formed_insn demo_chunks.
Proof.
  repeat (apply Forall_cons; split); [..|by apply Forall_nil];
    (constructor; [by apply units_check|reflexivity|]);
    intros inst f [= <-] E H; vm_compute in E; injection E as <-; discriminate H.
Qed.

Lemma parse_instructions_visits_witness :
  ParseInstructions false [0x001A; 3; 0x000E] = Some [(StringItem, 3)].
Proof.
  apply (parse_instructions_visits [0x001A; 3; 0x000E]) with (chunks := demo_chunks).
  - by apply units_check.
  - reflexivity.
  - exact demo_well_formed.
Defined.

(** C33: [Writer::WriteInstructions] renumbers code: if every reference of a
    well-formed stream has a node with an index that its slot can hold, it
    terminates without an abort and writes the same instructions, of the same
    widths, in which only the index units differ, and a reader visits in its
    output exactly the renumbered references. *)
Theorem write_instructions_renumbers nd ir chunks : chunks <> [] ->
  Forall well_formed_insn chunks -> Forall (fits ir) (stream_slots chunks) ->
  exists chunks', WriteInstructions nd ir (concat chunks) = Some (concat chunks') /\
    Forall2 (reindexed ir) chunks chunks' /\ Forall is_unit (concat chunks') /\
    ParseInstructions nd (concat chunks') = Some (map slot_ref (map (renamed ir) (stream_slots chunks))).
Proof.
  intros Hne Hwf Hfit.
  destruct (write_chunks nd ir chunks Hwf Hfit _ (le_n _)) as (chunks' & Hw & Hre).
  pose proof (reindexed_wf _ _ _ Hre) as Hwf'. exists chunks'. split; [|split; [done|split]].
  - unfold WriteInstructions. rewrite SLICER_CHECK_true; [done|]. rewrite bool_decide_false; [done|].
    destruct chunks as [|c cs]; [done|]. apply Forall_cons in Hwf as [Hc _].
    destruct (wf_step c [] Hc) as (inst & tl & -> & _). done.
  - by apply units_concat.
  - rewrite <- (reindexed_slots _ _ _ Hre). by apply parse_chunks.
Qed.

Definition demo_maps : index_maps :=
  {| strings_map := {[3 := 7]}; types_map := ∅; fields_map := ∅; methods_map := ∅; protos_map := ∅ |}.

Lemma write_instructions_renumbers_witness : exists chunks',
  WriteInstructions false demo_maps [0x001A; 3; 0x000E] = Some (concat chunks') /\
  ParseInstructions false (concat chunks') = Some [(StringItem, 7)].
Proof.
  destruct (write_instructions_renumbers false demo_maps demo_chunks) as (chunks' & H1 & _ & _ & H2).
  - discriminate.
  - exact demo_well_formed.
  - repeat constructor; [discriminate|]. exists 7. split; [reflexivity|cbn; lia].
  - exists chunks'. split; [exact H1|exact H2].
Defined.

(** An index that its slot cannot hold: with the checks on the writer aborts,
    without them the slot silently gets the index modulo 2^16. And the indexes of
    [const-method-type], [const-method-handle] and [invoke-custom] are neither
    visited by the reader nor renumbered by the writer, whatever the new
    numbering is. *)
Theorem write_instructions_limits ir :
  (forall u0 u1 rest n, is_unit u1 -> OpcodeFromBytecode u0 = 0x1A ->
     strings_map ir !! u1 = Some n -> 2 ^ 16 <= n < kNoIndex ->
     relocate_insn false ir (u0 :: u1 :: rest) = None /\
     relocate_insn true ir (u0 :: u1 :: rest) = Some (u0 :: n mod 2 ^ 16 :: rest)) /\
  (forall nd u0 u1 rest, Forall is_unit (u0 :: u1 :: rest) -> OpcodeFromBytecode u0 ∈ [0xFE; 0xFF] ->
     parse_insn nd (u0 :: u1 :: rest) = Some [] /\ relocate_insn nd ir (u0 :: u1 :: rest) = Some (u0 :: u1 :: rest)) /\
  (forall nd u0 rest, OpcodeFromBytecode u0 ∈ [0xFC; 0xFD] -> relocate_insn nd ir (u0 :: rest) = Some (u0 :: rest)).
Proof.
  split; [|split].
  - intros u0 u1 rest n H1 Hop Hm Hn.
    assert (Hne : u1 <> kNoIndex) by (unfold is_unit in H1; change kNoIndex with 4294967295; lia).
    assert (Hrel : forall nd, relocate_insn nd ir (u0 :: u1 :: rest) =
      (SLICER_CHECK nd true ;; relocate_u2 nd (MapIndex nd (strings_map ir)) 1 (u0 :: u1 :: rest))).
    { intros nd. unfold relocate_insn. cbn [lookup list_lookup mbind option_bind]. by rewrite Hop. }
    assert (E : (u16 n =? n) = false).
    { apply Z.eqb_neq. pose proof (trunc_range 16 n). lia. }
    rewrite !Hrel. unfold relocate_u2. cbn [lookup list_lookup mbind option_bind SLICER_CHECK orb].
    destruct (MapIndex_fits false (strings_map ir) u1 n kNoIndex Hne Hm ltac:(lia) ltac:(done)) as [-> Ek].
    destruct (MapIndex_fits true (strings_map ir) u1 n kNoIndex Hne Hm ltac:(lia) ltac:(done)) as [-> _].
    cbn [mbind option_bind]. rewrite Ek, E. done.
  - intros nd u0 u1 rest [H0 [H1 Hr]%Forall_cons]%Forall_cons Hop.
    assert (Hwf : well_formed_insn [u0; u1]).
    { assert (Hf : GetFormatFromOpcode (OpcodeFromBytecode u0) = Some k21c).
      { apply elem_of_cons in Hop as [->|Hop]; [done|]. by apply list_elem_of_singleton in Hop as ->. }
      constructor; [by apply Forall_cons; rewrite Forall_singleton|by rewrite (format_width u0 [u1] k21c)|].
      intros inst f [= <-] E Hc. rewrite Hf in E. injection E as <-. discriminate Hc. }
    assert (Hs : insn_slots [u0; u1] = []).
    { unfold insn_slots, insn_format, insn_index. cbn [lookup list_lookup mbind option_bind].
      apply elem_of_cons in Hop as [->|Hop]; [done|]. by apply list_elem_of_singleton in Hop as ->. }
    split.
    + pose proof (parse_insn_spec nd [u0; u1] rest Hwf Hr) as H. by rewrite Hs in H.
    + unfold relocate_insn. cbn [lookup list_lookup mbind option_bind].
      apply elem_of_cons in Hop as [->|Hop]; [done|]. by apply list_elem_of_singleton in Hop as ->.
  - intros nd u0 rest Hop. unfold relocate_insn. cbn [lookup list_lookup mbind option_bind].
    apply elem_of_cons in Hop as [->|Hop]; [done|]. by apply list_elem_of_singleton in Hop as ->.
Qed.

Lemma write_instructions_limits_witness :
  relocate_insn false {| strings_map := {[3 := 70000]}; types_map := ∅; fields_map := ∅; methods_map := ∅; protos_map := ∅ |}
    [0x001A; 3] = None /\
  parse_insn true [0x00FF; 5] = Some [].
Proof.
  destruct (write_instructions_limits {| strings_map := {[3 := 70000]}; types_map := ∅; fields_map := ∅; methods_map := ∅; protos_map := ∅ |})
    as (H1 & H2 & _).
  split.
  - apply (H1 0x001A 3 [] 70000); [unfold is_unit; lia|reflexivity|reflexivity|change kNoIndex with 4294967295; lia].
  - apply (H2 true 0x00FF 5 []); [by apply units_check|by repeat constructor].
Defined.
