(* ===== verification/DexValue.v ===== *)
(** Encoded values: [ParseEncodedValue] and its helpers ([slicer/reader.cc]) and
    [WriteEncodedValue] and its helpers ([writer.cc]).

    A node of the IR that a value refers to is named by its original index, which
    the reader maps to nodes one to one; [index] gives the node's index in the new
    image. The reader consumes a byte list, the writer returns the bytes it
    pushes. [None] is an abort or a stray access. Left out is [SLICER_EXTRA]: a debug
    build compares what it wrote for a value without an index with the bytes it was
    read from, and aborts when those were not the shortest. *)
From S2P Require Import Prelude Leb128 SlicerBuffer DexBytecode DexCode.

(** ** Types *)

Definition kEncodedByte : Z := 0x00.
Definition kEncodedShort : Z := 0x02.
Definition kEncodedChar : Z := 0x03.
Definition kEncodedInt : Z := 0x04.
Definition kEncodedLong : Z := 0x06.
Definition kEncodedFloat : Z := 0x10.
Definition kEncodedDouble : Z := 0x11.
Definition kEncodedString : Z := 0x17.
Definition kEncodedType : Z := 0x18.
Definition kEncodedField : Z := 0x19.
Definition kEncodedMethod : Z := 0x1a.
Definition kEncodedEnum : Z := 0x1b.
Definition kEncodedArray : Z := 0x1c.
Definition kEncodedAnnotation : Z := 0x1d.
Definition kEncodedNull : Z := 0x1e.
Definition kEncodedBoolean : Z := 0x1f.
Definition kEncodedValueTypeMask : Z := 0x1f.
Definition kEncodedValueArgShift : Z := 5.

(** The type tag with the member of the union that it selects. Floating point
    values are their bits. [EOther] is a type that no case handles. *)
Local Unset Elimination Schemes.
Inductive EncodedValue :=
  | EByte (byte_value : Z) | EShort (short_value : Z) | EChar (char_value : Z)
  | EInt (int_value : Z) | ELong (long_value : Z)
  | EFloat (float_value : Z) | EDouble (double_value : Z)
  | EString (string_value : Z) | EType (type_value : Z) | EField (field_value : Z)
  | EMethod (method_value : Z) | EEnum (enum_value : Z)
  | EArray (array_value : list EncodedValue)
  | EAnnotation (annotation_type : Z) (elements : list (Z * EncodedValue))
  | ENull | EBoolean (bool_value : bool) | EOther (type : Z).
Local Set Elimination Schemes.

(** ** Writing *)

Definition WriteEncodedValueHeader (type arg : Z) : list byte :=
  [u8 (Z.lor type (Z.shiftl arg kEncodedValueArgShift))].

(** The loops of [WriteIntValue<T>], at most [sizeof(T)] steps. *)
Fixpoint signed_bytes (n : nat) (positive : bool) (value : Z) : list byte :=
  match n with
  | O => []
  | S n =>
      if (if positive then value >=? 0x80 else value <? -0x80) then
        Z.land value 0xff :: signed_bytes n positive (Z.shiftr value 8)
      else [Z.land value 0xff]
  end.
Fixpoint unsigned_bytes (n : nat) (value : Z) : list byte :=
  match n with
  | O => []
  | S n =>
      let rest := Z.shiftr value 8 in
      Z.land value 0xff :: (if negb (rest =? 0) then unsigned_bytes n rest else [])
  end.

(** [WriteIntValue<T>], [T] of [n] bytes. *)
Definition WriteIntValue (n : nat) (is_signed : bool) (type value : Z) : list byte :=
  let buff := if is_signed then signed_bytes n (value >=? 0) value else unsigned_bytes n value in
  WriteEncodedValueHeader type (Z.of_nat (length buff) - 1) ++ buff.

(** The skipped leading bytes of the representation. *)
Fixpoint skip_zeros (src : list byte) : list byte :=
  match src with
  | b :: ((_ :: _) as src') => if b =? 0 then skip_zeros src' else src
  | _ => src
  end.
Definition WriteFloatValue (n : nat) (type value : Z) : list byte :=
  let buff := skip_zeros (le_bytes n value) in
  WriteEncodedValueHeader type (Z.of_nat (length buff) - 1) ++ buff.

(** What [PushULeb128] appends; its temporary holds four bytes. *)
Definition uleb_bytes (value : Z) : option (list byte) :=
  tmp ← WriteULeb128 leb_fuel value;
  if (length tmp <=? 4)%nat then Some tmp else None.

Section Write.
Context (ndebug : bool) (index : item -> Z -> Z).

Definition write_index (type : Z) (k : item) (node : Z) : list byte :=
  WriteIntValue 4 false type (index k node).

(** [WriteEncodedArray] and [WriteAnnotation], over the function they call for a
    nested value. *)
Section Nested.
Context (write_value : EncodedValue -> option (list byte)).

Fixpoint write_values (vs : list EncodedValue) : option (list byte) :=
  match vs with
  | [] => Some []
  | v :: vs => b ← write_value v; bs ← write_values vs; Some (b ++ bs)
  end.
Definition write_array (vs : list EncodedValue) : option (list byte) :=
  n ← uleb_bytes (Z.of_nat (length vs)); bs ← write_values vs; Some (n ++ bs).

Fixpoint write_elements (es : list (Z * EncodedValue)) : option (list byte) :=
  match es with
  | [] => Some []
  | (name, v) :: es =>
      s ← uleb_bytes (index StringItem name);
      b ← write_value v; bs ← write_elements es; Some (s ++ b ++ bs)
  end.
Definition write_annotation (t : Z) (es : list (Z * EncodedValue)) : option (list byte) :=
  ti ← uleb_bytes (index TypeItem t); n ← uleb_bytes (Z.of_nat (length es));
  bs ← write_elements es; Some (ti ++ n ++ bs).
End Nested.

Fixpoint WriteEncodedValue (v : EncodedValue) : option (list byte) :=
  match v with
  | EByte x => Some (WriteIntValue 1 true kEncodedByte x)
  | EShort x => Some (WriteIntValue 2 true kEncodedShort x)
  | EChar x => Some (WriteIntValue 2 false kEncodedChar x)
  | EInt x => Some (WriteIntValue 4 true kEncodedInt x)
  | ELong x => Some (WriteIntValue 8 true kEncodedLong x)
  | EFloat x => Some (WriteFloatValue 4 kEncodedFloat x)
  | EDouble x => Some (WriteFloatValue 8 kEncodedDouble x)
  | EString x => Some (write_index kEncodedString StringItem x)
  | EType x => Some (write_index kEncodedType TypeItem x)
  | EField x => Some (write_index kEncodedField FieldItem x)
  | EMethod x => Some (write_index kEncodedMethod MethodItem x)
  | EEnum x => Some (write_index kEncodedEnum FieldItem x)
  | EArray vs =>
      bs ← write_array WriteEncodedValue vs;
      Some (WriteEncodedValueHeader kEncodedArray 0 ++ bs)
  | EAnnotation t es =>
      bs ← write_annotation WriteEncodedValue t es;
      Some (WriteEncodedValueHeader kEncodedAnnotation 0 ++ bs)
  | ENull => Some (WriteEncodedValueHeader kEncodedNull 0)
  | EBoolean b => Some (WriteEncodedValueHeader kEncodedBoolean (if b then 1 else 0))
  | EOther _ => SLICER_CHECK ndebug false ;; Some []
  end.

Definition WriteEncodedArray : list EncodedValue -> option (list byte) := write_array WriteEncodedValue.
Definition WriteAnnotation : Z -> list (Z * EncodedValue) -> option (list byte) := write_annotation WriteEncodedValue.
End Write.

(** ** Reading *)

Definition take_bytes (n : nat) (ptr : list byte) : option (list byte * list byte) :=
  if (n <=? length ptr)%nat then Some (take n ptr, drop n ptr) else None.

(** [ParseIntValue<T>], [T] of [n] bytes. A size above [sizeof(T)] fails a check;
    without checks it shifts by more than the width: [None] in both. *)
Definition ParseIntValue (n : nat) (is_signed : bool) (ptr : list byte) (size : Z) : option (Z * list byte) :=
  if size <=? Z.of_nat n then
    '(bs, ptr) ← take_bytes (Z.to_nat size) ptr;
    let value := le_val bs in
    let w := 8 * Z.of_nat n in
    let shift := (Z.of_nat n - size) * 8 in
    Some (if is_signed then Z.shiftr (sext w (Z.shiftl value shift)) shift else value, ptr)
  else None.

(** [ParseFloatValue<T>]: the bytes end at the most significant one. *)
Definition ParseFloatValue (n : nat) (ptr : list byte) (size : Z) : option (Z * list byte) :=
  if size <=? Z.of_nat n then
    '(bs, ptr) ← take_bytes (Z.to_nat size) ptr;
    Some (le_val (repeat 0 (n - Z.to_nat size) ++ bs), ptr)
  else None.

Section Parse.
Context (ndebug : bool).

Definition parse_map {A B} (f : A -> B) (r : option (A * list byte)) : option (B * list byte) :=
  '(x, ptr) ← r; Some (f x, ptr).

(** The mutually recursive readers; every call takes one unit of fuel. *)
Fixpoint ParseEncodedValue (fuel : nat) (ptr : list byte) : option (EncodedValue * list byte) :=
  match fuel with
  | O => None
  | S fuel =>
      '(header, ptr) ← head_tail ptr;
      let type := Z.land header kEncodedValueTypeMask in
      let arg := Z.shiftr header kEncodedValueArgShift in
      let int n is_signed := ParseIntValue n is_signed ptr (arg + 1) in
      if type =? kEncodedByte then parse_map EByte (int 1%nat true)
      else if type =? kEncodedShort then parse_map EShort (int 2%nat true)
      else if type =? kEncodedChar then parse_map EChar (int 2%nat false)
      else if type =? kEncodedInt then parse_map EInt (int 4%nat true)
      else if type =? kEncodedLong then parse_map ELong (int 8%nat true)
      else if type =? kEncodedFloat then parse_map EFloat (ParseFloatValue 4 ptr (arg + 1))
      else if type =? kEncodedDouble then parse_map EDouble (ParseFloatValue 8 ptr (arg + 1))
      else if type =? kEncodedString then parse_map EString (int 4%nat false)
      else if type =? kEncodedType then parse_map EType (int 4%nat false)
      else if type =? kEncodedField then parse_map EField (int 4%nat false)
      else if type =? kEncodedMethod then parse_map EMethod (int 4%nat false)
      else if type =? kEncodedEnum then parse_map EEnum (int 4%nat false)
      else if type =? kEncodedArray then
        SLICER_CHECK ndebug (arg =? 0) ;;
        parse_map EArray (ParseEncodedArray fuel ptr)
      else if type =? kEncodedAnnotation then
        SLICER_CHECK ndebug (arg =? 0) ;;
        parse_map (fun '(t, es) => EAnnotation t es) (ParseAnnotation fuel ptr)
      else if type =? kEncodedNull then SLICER_CHECK ndebug (arg =? 0) ;; Some (ENull, ptr)
      else if type =? kEncodedBoolean then SLICER_CHECK ndebug (arg <? 2) ;; Some (EBoolean (arg =? 1), ptr)
      else SLICER_CHECK ndebug false ;; Some (EOther type, ptr)
  end
with ParseEncodedArray (fuel : nat) (ptr : list byte) : option (list EncodedValue * list byte) :=
  match fuel with
  | O => None
  | S fuel => '(count, ptr) ← ReadULeb128 ptr; parse_values fuel count ptr
  end
with parse_values (fuel : nat) (count : Z) (ptr : list byte) : option (list EncodedValue * list byte) :=
  match fuel with
  | O => None
  | S fuel =>
      if count =? 0 then Some ([], ptr)
      else
        '(v, ptr) ← ParseEncodedValue fuel ptr;
        '(vs, ptr) ← parse_values fuel (count - 1) ptr;
        Some (v :: vs, ptr)
  end
with ParseAnnotation (fuel : nat) (ptr : list byte) : option (Z * list (Z * EncodedValue) * list byte) :=
  match fuel with
  | O => None
  | S fuel =>
      '(type_index, ptr) ← ReadULeb128 ptr;
      '(elements_count, ptr) ← ReadULeb128 ptr;
      parse_map (fun es => (type_index, es)) (parse_elements fuel elements_count ptr)
  end
with parse_elements (fuel : nat) (count : Z) (ptr : list byte) : option (list (Z * EncodedValue) * list byte) :=
  match fuel with
  | O => None
  | S fuel =>
      if count =? 0 then Some ([], ptr)
      else
        '(name, ptr) ← ReadULeb128 ptr;
        '(v, ptr) ← ParseEncodedValue fuel ptr;
        '(es, ptr) ← parse_elements fuel (count - 1) ptr;
        Some ((name, v) :: es, ptr)
  end.
End Parse.
