(* ===== verification/DexValueSpec.v ===== *)
(** Reading an encoded value gives back what was written. *)
From S2P Require Import Prelude Leb128 SlicerBuffer DexBytecode DexCode DexValue.

(** ** LEB128 counts and indexes *)

Lemma uleb_bytes_ok v : 0 <= v < 2 ^ 28 ->
  exists bs, uleb_bytes v = Some bs /\ (1 <= length bs)%nat /\
    forall rest, ReadULeb128 (bs ++ rest) = Some (v, rest).
Proof.
  intros H. destruct (uleb_roundtrip v [] ltac:(lia)) as (bs & W & L & _). exists bs.
  assert (Hl : (1 <= length bs <= 4)%nat).
  { rewrite L. unfold uleb_size.
    destruct (Z.ltb_spec v (2 ^ 7)), (Z.ltb_spec v (2 ^ 14)), (Z.ltb_spec v (2 ^ 21)), (Z.ltb_spec v (2 ^ 28)); lia. }
  split; [|split; [lia|]].
  - unfold uleb_bytes. rewrite W. cbn [mbind option_bind]. destruct (Nat.leb_spec (length bs) 4); [done|lia].
  - intros rest. destruct (uleb_roundtrip v rest ltac:(lia)) as (bs' & W' & _ & R & _). congruence.
Qed.

(** ** Integers *)

Lemma le_bytes_S k v : le_bytes (S k) v = Z.land v 0xff :: le_bytes k (Z.shiftr v 8).
Proof. cbn [le_bytes]. f_equal. change 0xff with (Z.ones 8). by rewrite Z.land_ones by lia. Qed.

Lemma signed_bytes_spec n : forall v, (1 <= n)%nat ->
  - 2 ^ (8 * Z.of_nat n - 1) <= v < 2 ^ (8 * Z.of_nat n - 1) ->
  exists k, (1 <= k <= n)%nat /\ signed_bytes n (v >=? 0) v = le_bytes k v /\
    - 2 ^ (8 * Z.of_nat k - 1) <= v < 2 ^ (8 * Z.of_nat k - 1).
Proof.
  induction n as [|n IH]; intros v Hn Hv; [lia|]. cbn [signed_bytes].
  destruct (if v >=? 0 then v >=? 0x80 else v <? -0x80) eqn:E.
  - assert (Hbig : 128 <= v \/ v < -128) by (destruct (Z.geb_spec v 0); lia).
    destruct n as [|n].
    { change (8 * Z.of_nat 1 - 1) with 7 in Hv. lia. }
    assert (Hs : Z.shiftr v 8 = v / 2 ^ 8) by (apply Z.shiftr_div_pow2; lia).
    assert (Hp : 2 ^ (8 * Z.of_nat (S (S n)) - 1) = 2 ^ 8 * 2 ^ (8 * Z.of_nat (S n) - 1)).
    { rewrite <- Z.pow_add_r by lia. f_equal. lia. }
    assert (Hg : (Z.shiftr v 8 >=? 0) = (v >=? 0)).
    { rewrite Hs. destruct (Z.geb_spec v 0), (Z.geb_spec (v / 2 ^ 8) 0); try done;
        Z.to_euclidean_division_equations; lia. }
    destruct (IH (Z.shiftr v 8)) as (k & Hk & Eb & Hr); [lia| |].
    { rewrite Hp in Hv. rewrite Hs. revert Hv. generalize (2 ^ (8 * Z.of_nat (S n) - 1)). intros p Hv.
      Z.to_euclidean_division_equations. lia. }
    exists (S k). split; [lia|]. rewrite le_bytes_S. rewrite Hg in Eb. rewrite Eb. split; [done|].
    assert (Hp' : 2 ^ (8 * Z.of_nat (S k) - 1) = 2 ^ 8 * 2 ^ (8 * Z.of_nat k - 1)).
    { rewrite <- Z.pow_add_r by lia. f_equal. lia. }
    rewrite Hp'. rewrite Hs in Hr. revert Hr. generalize (2 ^ (8 * Z.of_nat k - 1)). intros p Hr.
    Z.to_euclidean_division_equations. lia.
  - exists 1%nat. split; [lia|]. rewrite le_bytes_S. split; [done|]. change (8 * Z.of_nat 1 - 1) with 7.
    destruct (Z.geb_spec v 0); lia.
Qed.

Lemma unsigned_bytes_spec n : forall v, (1 <= n)%nat -> 0 <= v < 2 ^ (8 * Z.of_nat n) ->
  exists k, (1 <= k <= n)%nat /\ unsigned_bytes n v = le_bytes k v /\ 0 <= v < 2 ^ (8 * Z.of_nat k).
Proof.
  induction n as [|n IH]; intros v Hn Hv; [lia|]. cbn [unsigned_bytes].
  assert (Hs : Z.shiftr v 8 = v / 2 ^ 8) by (apply Z.shiftr_div_pow2; lia).
  destruct (Z.eqb_spec (Z.shiftr v 8) 0) as [E|E]; cbn [negb].
  - exists 1%nat. split; [lia|]. rewrite le_bytes_S. split; [done|]. change (8 * Z.of_nat 1) with 8.
    rewrite Hs in E. Z.to_euclidean_division_equations. lia.
  - assert (Hp : forall m, 2 ^ (8 * Z.of_nat (S m)) = 2 ^ 8 * 2 ^ (8 * Z.of_nat m)).
    { intros. rewrite <- Z.pow_add_r by lia. f_equal. lia. }
    rewrite Hp in Hv. destruct n as [|n]; [change (8 * Z.of_nat 0) with 0 in Hv; rewrite Hs in E; Z.to_euclidean_division_equations; lia|].
    destruct (IH (Z.shiftr v 8)) as (k & Hk & Eb & Hr); [lia| |].
    { rewrite Hs. revert Hv. generalize (2 ^ (8 * Z.of_nat (S n))). intros p Hv. Z.to_euclidean_division_equations. lia. }
    exists (S k). split; [lia|]. rewrite le_bytes_S, Eb. split; [done|]. rewrite Hp.
    rewrite Hs in Hr. revert Hr. generalize (2 ^ (8 * Z.of_nat k)). intros p Hr. Z.to_euclidean_division_equations. lia.
Qed.

(** [T(value << shift) >> shift] sign-extends. *)
Lemma shift_sext w s x : 0 <= s < w -> Z.shiftr (sext w (Z.shiftl x s)) s = sext (w - s) x.
Proof.
  intros H. rewrite Z.shiftl_mul_pow2, Z.shiftr_div_pow2 by lia. unfold sext.
  assert (Hw : 2 ^ w = 2 ^ (w - s) * 2 ^ s) by (rewrite <- Z.pow_add_r by lia; f_equal; lia).
  assert (Hw1 : 2 ^ (w - 1) = 2 ^ (w - s - 1) * 2 ^ s) by (rewrite <- Z.pow_add_r by lia; f_equal; lia).
  rewrite Hw, Hw1, <- Z.mul_add_distr_r, Z.mul_mod_distr_r, <- Z.mul_sub_distr_r by lia.
  by rewrite Z.div_mul by lia.
Qed.

Lemma take_bytes_app bs rest : take_bytes (length bs) (bs ++ rest) = Some (bs, rest).
Proof.
  unfold take_bytes. rewrite length_app. destruct (Nat.leb_spec (length bs) (length bs + length rest)); [|lia].
  by rewrite take_app_length, drop_app_length.
Qed.

Lemma ParseIntValue_signed n k v rest : (1 <= k <= n)%nat ->
  - 2 ^ (8 * Z.of_nat k - 1) <= v < 2 ^ (8 * Z.of_nat k - 1) ->
  ParseIntValue n true (le_bytes k v ++ rest) (Z.of_nat k) = Some (v, rest).
Proof.
  intros Hk Hv. unfold ParseIntValue. rewrite (proj2 (Z.leb_le _ _)) by lia. rewrite Nat2Z.id.
  rewrite <- (length_le_bytes k v) at 1. rewrite take_bytes_app. cbn [mbind option_bind]. f_equal. f_equal.
  rewrite le_val_bytes, shift_sext by lia.
  replace (8 * Z.of_nat n - (Z.of_nat n - Z.of_nat k) * 8) with (8 * Z.of_nat k) by lia.
  rewrite sext_trunc by lia. apply sext_small; lia.
Qed.

Lemma ParseIntValue_unsigned n k v rest : (1 <= k <= n)%nat -> 0 <= v < 2 ^ (8 * Z.of_nat k) ->
  ParseIntValue n false (le_bytes k v ++ rest) (Z.of_nat k) = Some (v, rest).
Proof.
  intros Hk Hv. unfold ParseIntValue. rewrite (proj2 (Z.leb_le _ _)) by lia. rewrite Nat2Z.id.
  rewrite <- (length_le_bytes k v) at 1. rewrite take_bytes_app. cbn [mbind option_bind]. f_equal. f_equal.
  rewrite le_val_bytes. by apply trunc_small.
Qed.

(** ** Floating point *)

Lemma skip_zeros_spec src : (1 <= length src)%nat ->
  exists j, src = repeat 0 j ++ skip_zeros src /\ (1 <= length (skip_zeros src))%nat.
Proof.
  induction src as [|b src IH]; cbn [length]; [lia|]. intros _. destruct src as [|b' src]; [by exists 0%nat|].
  cbn [skip_zeros]. destruct (Z.eqb_spec b 0) as [->|]; [|exists 0%nat; split; [done|cbn; lia]].
  destruct IH as (j & E & L); [cbn; lia|]. exists (S j). split; [|exact L]. cbn [repeat app]. by rewrite E at 1.
Qed.

Lemma ParseFloatValue_ok n v rest : (1 <= n)%nat -> 0 <= v < 2 ^ (8 * Z.of_nat n) ->
  let buff := skip_zeros (le_bytes n v) in
  (1 <= length buff <= n)%nat /\ ParseFloatValue n (buff ++ rest) (Z.of_nat (length buff)) = Some (v, rest).
Proof.
  intros Hn Hv. cbv zeta. pose proof (length_le_bytes n v) as L.
  destruct (skip_zeros_spec (le_bytes n v) ltac:(lia)) as (j & E & Hl). set (buff := skip_zeros (le_bytes n v)) in *.
  assert (Hj : (j + length buff = n)%nat) by (rewrite <- L, E, length_app, repeat_length; done).
  split; [lia|]. unfold ParseFloatValue. rewrite (proj2 (Z.leb_le _ _)) by lia. rewrite Nat2Z.id, take_bytes_app.
  cbn [mbind option_bind]. replace (n - length buff)%nat with j by lia. rewrite <- E, le_val_bytes.
  by rewrite trunc_small.
Qed.

(** ** Headers *)

Lemma header_fields type arg : 0 <= type < 32 -> 0 <= arg < 8 ->
  exists h, WriteEncodedValueHeader type arg = [h] /\
    Z.land h kEncodedValueTypeMask = type /\ Z.shiftr h kEncodedValueArgShift = arg.
Proof.
  intros Ht Ha. eexists. split; [reflexivity|].
  assert (H : forallb (fun t => forallb (fun a =>
      let h := u8 (Z.lor (Z.of_nat t) (Z.shiftl (Z.of_nat a) kEncodedValueArgShift)) in
      (Z.land h kEncodedValueTypeMask =? Z.of_nat t) && (Z.shiftr h kEncodedValueArgShift =? Z.of_nat a))
    (seq 0 8)) (seq 0 32) = true) by (vm_compute; reflexivity).
  rewrite forallb_forall in H. specialize (H (Z.to_nat type) ltac:(apply in_seq; lia)). cbv beta in H.
  rewrite forallb_forall in H. specialize (H (Z.to_nat arg) ltac:(apply in_seq; lia)). cbv beta zeta in H.
  rewrite !Z2Nat.id in H by lia. apply andb_true_iff in H as [H1%Z.eqb_eq H2%Z.eqb_eq]. done.
Qed.

(** ** Values *)

Section ValueInd.
Context (P : EncodedValue -> Prop)
  (HByte : forall x, P (EByte x)) (HShort : forall x, P (EShort x)) (HChar : forall x, P (EChar x))
  (HInt : forall x, P (EInt x)) (HLong : forall x, P (ELong x)) (HFloat : forall x, P (EFloat x))
  (HDouble : forall x, P (EDouble x)) (HString : forall x, P (EString x)) (HType : forall x, P (EType x))
  (HField : forall x, P (EField x)) (HMethod : forall x, P (EMethod x)) (HEnum : forall x, P (EEnum x))
  (HArray : forall vs, Forall P vs -> P (EArray vs))
  (HAnnotation : forall t es, Forall (fun e => P e.2) es -> P (EAnnotation t es))
  (HNull : P ENull) (HBoolean : forall b, P (EBoolean b)) (HOther : forall t, P (EOther t)).

Fixpoint EncodedValue_ind (v : EncodedValue) : P v :=
  match v with
  | EByte x => HByte x | EShort x => HShort x | EChar x => HChar x | EInt x => HInt x
  | ELong x => HLong x | EFloat x => HFloat x | EDouble x => HDouble x | EString x => HString x
  | EType x => HType x | EField x => HField x | EMethod x => HMethod x | EEnum x => HEnum x
  | EArray vs =>
      HArray vs ((fix go vs : Forall P vs := match vs with
        | [] => Forall_nil_2 _
        | v :: vs => Forall_cons_2 _ _ _ (EncodedValue_ind v) (go vs)
        end) vs)
  | EAnnotation t es =>
      HAnnotation t es ((fix go es : Forall (fun e => P e.2) es := match es with
        | [] => Forall_nil_2 _
        | e :: es => Forall_cons_2 _ _ _ (EncodedValue_ind e.2) (go es)
        end) es)
  | ENull => HNull | EBoolean b => HBoolean b | EOther t => HOther t
  end.
End ValueInd.

(** The values of their types, with counts and indexes that a four-byte LEB128
    can hold. *)
Definition in_signed (w x : Z) : Prop := - 2 ^ (w - 1) <= x < 2 ^ (w - 1).
Definition leb_count (n : nat) : Prop := Z.of_nat n < 2 ^ 28.

Ltac by_type := let H := fresh in intros nd fuel h ptr H; cbn [ParseEncodedValue head_tail mbind option_bind];
  rewrite H; reflexivity.

Section Renumber.
Context (wd : bool) (index : item -> Z -> Z).

Definition indexed_as (w : Z) (k : item) (node : Z) : Prop := 0 <= index k node < 2 ^ w.

Local Unset Elimination Schemes.
Inductive value_ok : EncodedValue -> Prop :=
  | ok_byte x : in_signed 8 x -> value_ok (EByte x)
  | ok_short x : in_signed 16 x -> value_ok (EShort x)
  | ok_char x : in_word 16 x -> value_ok (EChar x)
  | ok_int x : in_signed 32 x -> value_ok (EInt x)
  | ok_long x : in_signed 64 x -> value_ok (ELong x)
  | ok_float x : in_word 32 x -> value_ok (EFloat x)
  | ok_double x : in_word 64 x -> value_ok (EDouble x)
  | ok_string x : indexed_as 32 StringItem x -> value_ok (EString x)
  | ok_type x : indexed_as 32 TypeItem x -> value_ok (EType x)
  | ok_field x : indexed_as 32 FieldItem x -> value_ok (EField x)
  | ok_method x : indexed_as 32 MethodItem x -> value_ok (EMethod x)
  | ok_enum x : indexed_as 32 FieldItem x -> value_ok (EEnum x)
  | ok_array vs : leb_count (length vs) -> Forall value_ok vs -> value_ok (EArray vs)
  | ok_annotation t es : indexed_as 28 TypeItem t -> leb_count (length es) ->
      Forall (fun e => indexed_as 28 StringItem e.1) es -> Forall (fun e => value_ok e.2) es ->
      value_ok (EAnnotation t es)
  | ok_null : value_ok ENull
  | ok_boolean b : value_ok (EBoolean b).
Local Set Elimination Schemes.

Fixpoint renumber (v : EncodedValue) : EncodedValue :=
  match v with
  | EString x => EString (index StringItem x)
  | EType x => EType (index TypeItem x)
  | EField x => EField (index FieldItem x)
  | EMethod x => EMethod (index MethodItem x)
  | EEnum x => EEnum (index FieldItem x)
  | EArray vs => EArray (map renumber vs)
  | EAnnotation t es => EAnnotation (index TypeItem t) (map (fun e => (index StringItem e.1, renumber e.2)) es)
  | _ => v
  end.

(** The written bytes read back as the renumbered value, with any fuel from three
    per byte on. *)
Definition reads_back (v : EncodedValue) (bs : list byte) : Prop :=
  (1 <= length bs)%nat /\ forall nd fuel rest, (3 * length bs <= fuel)%nat ->
    ParseEncodedValue nd fuel (bs ++ rest) = Some (renumber v, rest).

(** One header byte and its operand. *)
Lemma reads_scalar v type arg (buff : list byte) h :
  WriteEncodedValueHeader type arg = [h] ->
  (forall nd fuel rest, (1 <= fuel)%nat ->
     ParseEncodedValue nd fuel (h :: buff ++ rest) = Some (renumber v, rest)) ->
  reads_back v (WriteEncodedValueHeader type arg ++ buff).
Proof.
  intros Hh H. rewrite Hh. split; [cbn; lia|]. intros nd fuel rest Hf. cbn [app]. apply H. cbn in Hf. lia.
Qed.

Lemma reads_int n (is_signed : bool) type x v (con : Z -> EncodedValue) :
  (1 <= n <= 8)%nat -> 0 <= type < 32 ->
  (if is_signed then in_signed (8 * Z.of_nat n) x else in_word (8 * Z.of_nat n) x) ->
  renumber v = con x ->
  (forall nd fuel h ptr, Z.land h kEncodedValueTypeMask = type ->
     ParseEncodedValue nd (S fuel) (h :: ptr) =
       parse_map con (ParseIntValue n is_signed ptr (Z.shiftr h kEncodedValueArgShift + 1))) ->
  reads_back v (WriteIntValue n is_signed type x).
Proof.
  intros Hn Ht Hx Hv Hp. unfold WriteIntValue.
  set (buff := if is_signed then signed_bytes n (x >=? 0) x else unsigned_bytes n x).
  assert (Hb : exists k, (1 <= k <= n)%nat /\ buff = le_bytes k x /\
    forall rest, ParseIntValue n is_signed (buff ++ rest) (Z.of_nat k) = Some (x, rest)).
  { destruct is_signed; unfold in_signed, in_word in Hx.
    - destruct (signed_bytes_spec n x ltac:(lia) Hx) as (k & Hk & E & Hr). exists k. split; [done|].
      unfold buff. split; [done|]. intros. rewrite E. by apply ParseIntValue_signed.
    - destruct (unsigned_bytes_spec n x ltac:(lia) Hx) as (k & Hk & E & Hr). exists k. split; [done|].
      unfold buff. split; [done|]. intros. rewrite E. by apply ParseIntValue_unsigned. }
  destruct Hb as (k & Hk & E & Hr). assert (Hl : length buff = k) by (rewrite E; apply length_le_bytes).
  rewrite Hl. destruct (header_fields type (Z.of_nat k - 1) Ht ltac:(lia)) as (h & Hh & Hm & Ha).
  eapply reads_scalar; [exact Hh|]. intros nd fuel rest Hf. destruct fuel as [|fuel]; [lia|].
  rewrite Hp by done. rewrite Ha, Z.sub_add, Hr, Hv. done.
Qed.

Lemma reads_float n type x v (con : Z -> EncodedValue) :
  (1 <= n <= 8)%nat -> 0 <= type < 32 -> in_word (8 * Z.of_nat n) x -> renumber v = con x ->
  (forall nd fuel h ptr, Z.land h kEncodedValueTypeMask = type ->
     ParseEncodedValue nd (S fuel) (h :: ptr) =
       parse_map con (ParseFloatValue n ptr (Z.shiftr h kEncodedValueArgShift + 1))) ->
  reads_back v (WriteFloatValue n type x).
Proof.
  intros Hn Ht Hx Hv Hp. unfold WriteFloatValue.
  destruct (ParseFloatValue_ok n x [] ltac:(lia) Hx) as [Hl _]. set (buff := skip_zeros _) in *.
  destruct (header_fields type (Z.of_nat (length buff) - 1) Ht ltac:(lia)) as (h & Hh & Hm & Ha).
  eapply reads_scalar; [exact Hh|]. intros nd fuel rest Hf. destruct fuel as [|fuel]; [lia|].
  rewrite Hp by done. rewrite Ha, Z.sub_add.
  pose proof (proj2 (ParseFloatValue_ok n x rest ltac:(lia) Hx)) as Hr. fold buff in Hr. by rewrite Hr, Hv.
Qed.

(** The nested loops. *)
Lemma reads_values vs : Forall (fun v => value_ok v -> exists bs, WriteEncodedValue wd index v = Some bs /\ reads_back v bs) vs ->
  Forall value_ok vs ->
  exists bs, write_values (WriteEncodedValue wd index) vs = Some bs /\ (length vs <= length bs)%nat /\
    forall nd fuel rest, (3 * length bs + 1 <= fuel)%nat ->
      parse_values nd fuel (Z.of_nat (length vs)) (bs ++ rest) = Some (map renumber vs, rest).
Proof.
  induction 1 as [|v vs Hv _ IH]; intros Hok.
  { exists []. split; [done|]. split; [done|]. intros nd fuel rest Hf. destruct fuel; [lia|done]. }
  apply Forall_cons in Hok as [Hokv Hok]. destruct (Hv Hokv) as (b & Hw & Hl & Hr).
  destruct (IH Hok) as (bs & Hws & Hls & Hrs). exists (b ++ bs). cbn [write_values]. rewrite Hw, Hws.
  rewrite length_app. split; [done|]. split; [cbn; lia|]. intros nd fuel rest Hf.
  destruct fuel as [|fuel]; [lia|]. cbn [parse_values length].
  rewrite (proj2 (Z.eqb_neq _ _)) by lia. rewrite <- app_assoc, Hr by lia. cbn [mbind option_bind].
  replace (Z.of_nat (S (length vs)) - 1) with (Z.of_nat (length vs)) by lia. by rewrite Hrs by lia.
Qed.

Lemma reads_elements es :
  Forall (fun e : Z * EncodedValue => value_ok e.2 -> exists bs, WriteEncodedValue wd index e.2 = Some bs /\ reads_back e.2 bs) es ->
  Forall (fun e => indexed_as 28 StringItem e.1) es -> Forall (fun e => value_ok e.2) es ->
  exists bs, write_elements index (WriteEncodedValue wd index) es = Some bs /\ (length es <= length bs)%nat /\
    forall nd fuel rest, (3 * length bs + 1 <= fuel)%nat ->
      parse_elements nd fuel (Z.of_nat (length es)) (bs ++ rest) =
        Some (map (fun e => (index StringItem e.1, renumber e.2)) es, rest).
Proof.
  induction 1 as [|[name v] es Hv _ IH]; intros Hn Hok.
  { exists []. split; [done|]. split; [done|]. intros nd fuel rest Hf. destruct fuel; [lia|done]. }
  apply Forall_cons in Hok as [Hokv Hok]. apply Forall_cons in Hn as [Hname Hn]. cbn [fst snd] in *.
  destruct (Hv Hokv) as (b & Hw & Hl & Hr). destruct (uleb_bytes_ok _ Hname) as (s & Hs & Hls & Hrs).
  destruct (IH Hn Hok) as (bs & Hws & Hlbs & Hrbs). exists (s ++ b ++ bs). cbn [write_elements].
  rewrite Hs, Hw, Hws. rewrite !length_app. split; [done|]. split; [cbn; lia|]. intros nd fuel rest Hf.
  destruct fuel as [|fuel]; [lia|]. cbn [parse_elements length map fst snd].
  rewrite (proj2 (Z.eqb_neq _ _)) by lia. rewrite <- !app_assoc, Hrs. cbn [mbind option_bind].
  rewrite Hr by lia. cbn [mbind option_bind].
  replace (Z.of_nat (S (length es)) - 1) with (Z.of_nat (length es)) by lia. by rewrite Hrbs by lia.
Qed.

Ltac scalar_int := eexists; split; [reflexivity|];
  eapply reads_int; [|vm_compute; intuition congruence|eassumption|reflexivity|by_type]; lia.
Ltac scalar_float := eexists; split; [reflexivity|];
  eapply reads_float; [|vm_compute; intuition congruence|eassumption|reflexivity|by_type]; lia.

Lemma value_roundtrip v : value_ok v -> exists bs, WriteEncodedValue wd index v = Some bs /\ reads_back v bs.
Proof.
  induction v using EncodedValue_ind; intros Hok; inversion Hok; subst; clear Hok;
    unfold indexed_as in *;
    try match goal with |- exists bs, _ /\ reads_back (EFloat _) _ => idtac | |- exists bs, _ /\ reads_back (EDouble _) _ => idtac
      | |- exists bs, _ /\ reads_back ?v _ => scalar_int end;
    try scalar_float.
  - destruct (reads_values vs H ltac:(assumption)) as (bs & Hw & Hlb & Hr).
    match goal with Hc : leb_count _ |- _ => destruct (uleb_bytes_ok _ (conj (Nat2Z.is_nonneg _) Hc)) as (n & Hn & Hln & Hrn) end.
    exists (WriteEncodedValueHeader kEncodedArray 0 ++ n ++ bs). split.
    { cbn [WriteEncodedValue]. unfold write_array. by rewrite Hn, Hw. }
    split; [cbn; lia|]. intros nd fuel rest Hf. cbn in Hf. rewrite length_app in Hf.
    destruct fuel as [|[|fuel]]; [lia|lia|]. rewrite <- !app_assoc.
    destruct (header_fields kEncodedArray 0) as (h & Hh & Hm & Ha); [vm_compute; intuition congruence|lia|]. rewrite Hh. cbn [app].
    cbn [ParseEncodedValue head_tail mbind option_bind ParseEncodedArray]. rewrite Hm, Ha, Hrn. cbn -[parse_values SLICER_CHECK].
    rewrite SLICER_CHECK_true by done. cbn -[parse_values]. by rewrite Hr by lia.
  - destruct (reads_elements es H ltac:(assumption) ltac:(assumption)) as (bs & Hw & Hlb & Hr).
    match goal with Hc : leb_count _ |- _ => destruct (uleb_bytes_ok _ (conj (Nat2Z.is_nonneg _) Hc)) as (n & Hn & Hln & Hrn) end.
    match goal with Hc : _ <= index TypeItem _ < _ |- _ => destruct (uleb_bytes_ok _ Hc) as (ti & Ht & Hlt & Hrt) end.
    exists (WriteEncodedValueHeader kEncodedAnnotation 0 ++ ti ++ n ++ bs). split.
    { cbn [WriteEncodedValue]. unfold write_annotation. by rewrite Ht, Hn, Hw. }
    split; [cbn; lia|]. intros nd fuel rest Hf. cbn in Hf. rewrite !length_app in Hf.
    destruct fuel as [|[|fuel]]; [lia|lia|]. rewrite <- !app_assoc.
    destruct (header_fields kEncodedAnnotation 0) as (h & Hh & Hm & Ha); [vm_compute; intuition congruence|lia|]. rewrite Hh. cbn [app].
    cbn [ParseEncodedValue head_tail mbind option_bind ParseAnnotation]. rewrite Hm, Ha, Hrt. cbn -[parse_elements ReadULeb128 SLICER_CHECK].
    rewrite SLICER_CHECK_true by done. cbn -[parse_elements ReadULeb128]. rewrite Hrn. cbn -[parse_elements]. by rewrite Hr by lia.
  - exists (WriteEncodedValueHeader kEncodedNull 0). split; [done|]. split; [cbn; lia|].
    intros nd fuel rest Hf. destruct fuel as [|fuel]; [cbn in Hf; lia|]. by destruct nd.
  - exists (WriteEncodedValueHeader kEncodedBoolean (if b then 1 else 0)). split; [done|]. split; [cbn; lia|].
    intros nd fuel rest Hf. destruct fuel as [|fuel]; [cbn in Hf; lia|]. by destruct nd, b.
Qed.
End Renumber.
