(* ===== verification/DexDebug.v ===== *)
(** Debug information: [Reader::ExtractDebugInfo] ([slicer/reader.cc]) and
    [Writer::WriteDebugInfo] ([writer.cc]).

    As in DexValue, a string node is named by its original index. The reader's
    result comes with the items it looks up, in order. *)
From S2P Require Import Prelude Leb128 SlicerBuffer DexBytecode DexCode DexValue.

Definition DBG_END_SEQUENCE : Z := 0x00.
Definition DBG_ADVANCE_PC : Z := 0x01.
Definition DBG_ADVANCE_LINE : Z := 0x02.
Definition DBG_START_LOCAL : Z := 0x03.
Definition DBG_START_LOCAL_EXTENDED : Z := 0x04.
Definition DBG_END_LOCAL : Z := 0x05.
Definition DBG_RESTART_LOCAL : Z := 0x06.
Definition DBG_SET_FILE : Z := 0x09.

(** [data] is the opcode stream, its end marker included. *)
Record DebugInfo := { line_start : Z; param_names : list (option Z); data : list byte }.

(** ** Reading *)

(** [name_index = ReadULeb128() - 1], looked up unless it is [kNoIndex]. *)
Definition read_index (ptr : list byte) : option (option Z * list byte) :=
  '(v, ptr) ← ReadULeb128 ptr;
  let index := u32 (v - 1) in
  Some (if index =? kNoIndex then None else Some index, ptr).
Definition visit (k : item) (i : option Z) : list ref :=
  match i with Some i => [(k, i)] | None => [] end.

(** The operands of one opcode. *)
Definition parse_debug_op (opcode : Z) (ptr : list byte) : option (list ref * list byte) :=
  if opcode =? DBG_ADVANCE_PC then '(_, ptr) ← ReadULeb128 ptr; Some ([], ptr)
  else if opcode =? DBG_ADVANCE_LINE then '(_, ptr) ← ReadSLeb128 ptr; Some ([], ptr)
  else if opcode =? DBG_START_LOCAL then
    '(_, ptr) ← ReadULeb128 ptr;
    '(name, ptr) ← read_index ptr;
    '(type, ptr) ← read_index ptr;
    Some (visit StringItem name ++ visit TypeItem type, ptr)
  else if opcode =? DBG_START_LOCAL_EXTENDED then
    '(_, ptr) ← ReadULeb128 ptr;
    '(name, ptr) ← read_index ptr;
    '(type, ptr) ← read_index ptr;
    '(sig, ptr) ← read_index ptr;
    Some (visit StringItem name ++ visit TypeItem type ++ visit StringItem sig, ptr)
  else if (opcode =? DBG_END_LOCAL) || (opcode =? DBG_RESTART_LOCAL) then
    '(_, ptr) ← ReadULeb128 ptr; Some ([], ptr)
  else if opcode =? DBG_SET_FILE then
    '(name, ptr) ← read_index ptr; Some (visit StringItem name, ptr)
  else Some ([], ptr).

Fixpoint parse_debug_ops (fuel : nat) (ptr : list byte) : option (list ref * list byte) :=
  '(opcode, ptr) ← head_tail ptr;
  if opcode =? DBG_END_SEQUENCE then Some ([], ptr)
  else
    match fuel with
    | O => None
    | S fuel =>
        '(refs, ptr) ← parse_debug_op opcode ptr;
        '(refs', ptr) ← parse_debug_ops fuel ptr;
        Some (refs ++ refs', ptr)
    end.

Fixpoint parse_names (fuel : nat) (count : Z) (ptr : list byte) : option (list (option Z) * list byte) :=
  if count =? 0 then Some ([], ptr)
  else
    match fuel with
    | O => None
    | S fuel =>
        '(name, ptr) ← read_index ptr;
        '(names, ptr) ← parse_names fuel (count - 1) ptr;
        Some (name :: names, ptr)
    end.

(** The memory from the item on; each name and opcode takes a byte at least. *)
Definition ExtractDebugInfo (ptr : list byte) : option (DebugInfo * list ref * list byte) :=
  '(line_start, ptr) ← ReadULeb128 ptr;
  '(param_count, ptr) ← ReadULeb128 ptr;
  '(names, base_ptr) ← parse_names (length ptr) param_count ptr;
  '(refs, ptr) ← parse_debug_ops (length base_ptr) base_ptr;
  Some ({| line_start := line_start; param_names := names;
           data := take (length base_ptr - length ptr) base_ptr |},
        concat (map (visit StringItem) names) ++ refs, ptr).

(** ** Writing *)

Definition sleb_bytes (value : Z) : option (list byte) :=
  tmp ← WriteSLeb128 leb_fuel value;
  if (length tmp <=? 4)%nat then Some tmp else None.

Section Write.
Context (ndebug : bool) (ir : index_maps).

(** [PushULeb128(OptIndex(ir_string) + 1)]: the [index] of the node. *)
Definition push_opt_index (name : option Z) : option (list byte) :=
  match name with
  | Some i => index ← strings_map ir !! i; uleb_bytes (u32 (index + 1))
  | None => uleb_bytes (u32 (kNoIndex + 1))
  end.

(** [PushULeb128(Map..Index(ReadULeb128(&src) - 1) + 1)]. *)
Definition copy_index (map_index : Z -> option Z) (src : list byte) : option (list byte * list byte) :=
  '(v, src) ← ReadULeb128 src;
  index ← map_index (u32 (v - 1));
  bs ← uleb_bytes (u32 (index + 1));
  Some (bs, src).
Definition copy_uleb (src : list byte) : option (list byte * list byte) :=
  '(v, src) ← ReadULeb128 src; bs ← uleb_bytes v; Some (bs, src).
Definition copy_sleb (src : list byte) : option (list byte * list byte) :=
  '(v, src) ← ReadSLeb128 src; bs ← sleb_bytes v; Some (bs, src).

Definition write_debug_op (opcode : Z) (src : list byte) : option (list byte * list byte) :=
  if opcode =? DBG_ADVANCE_PC then copy_uleb src
  else if opcode =? DBG_ADVANCE_LINE then copy_sleb src
  else if opcode =? DBG_START_LOCAL then
    '(reg, src) ← copy_uleb src;
    '(name, src) ← copy_index (MapStringIndex ndebug ir) src;
    '(type, src) ← copy_index (MapTypeIndex ndebug ir) src;
    Some (reg ++ name ++ type, src)
  else if opcode =? DBG_START_LOCAL_EXTENDED then
    '(reg, src) ← copy_uleb src;
    '(name, src) ← copy_index (MapStringIndex ndebug ir) src;
    '(type, src) ← copy_index (MapTypeIndex ndebug ir) src;
    '(sig, src) ← copy_index (MapStringIndex ndebug ir) src;
    Some (reg ++ name ++ type ++ sig, src)
  else if (opcode =? DBG_END_LOCAL) || (opcode =? DBG_RESTART_LOCAL) then copy_uleb src
  else if opcode =? DBG_SET_FILE then copy_index (MapStringIndex ndebug ir) src
  else Some ([], src).

Fixpoint write_debug_ops (fuel : nat) (src : list byte) : option (list byte) :=
  '(opcode, src) ← head_tail src;
  if opcode =? DBG_END_SEQUENCE then Some [DBG_END_SEQUENCE]
  else
    match fuel with
    | O => None
    | S fuel =>
        '(bs, src) ← write_debug_op opcode src;
        bs' ← write_debug_ops fuel src;
        Some ([opcode] ++ bs ++ bs')
    end.

Fixpoint push_names (names : list (option Z)) : option (list byte) :=
  match names with
  | [] => Some []
  | name :: names => b ← push_opt_index name; bs ← push_names names; Some (b ++ bs)
  end.

(** The bytes pushed to the debug info section. *)
Definition WriteDebugInfo (info : DebugInfo) : option (list byte) :=
  a ← uleb_bytes (line_start info);
  b ← uleb_bytes (Z.of_nat (length (param_names info)));
  c ← push_names (param_names info);
  d ← write_debug_ops (length (data info)) (data info);
  Some (a ++ b ++ c ++ d).
End Write.
