(* ===== verification/DexDebugSpec.v ===== *)
(** Debug information as a list of opcodes with operands, and the reader and the
    writer against it. *)
From S2P Require Import Prelude Leb128 SlicerBuffer DexBytecode DexCode DexCodeSpec DexValue DexValueSpec DexDebug.

(** ** Encodings

    Any encoding of a number that the reader accepts, the shortest or not. *)
Definition uleb_of (bs : list byte) (v : Z) : Prop := forall rest, ReadULeb128 (bs ++ rest) = Some (v, rest).
Definition sleb_of (bs : list byte) (v : Z) : Prop := forall rest, ReadSLeb128 (bs ++ rest) = Some (v, rest).

(** An optional index is one more than the index, zero for none. *)
Definition opt_plus1 (i : option Z) : Z := match i with Some i => i + 1 | None => 0 end.
Definition index_of (bs : list byte) (i : option Z) : Prop :=
  uleb_of bs (opt_plus1 i) /\ match i with Some i => 0 <= i < kNoIndex | None => True end.

Inductive dbg_op :=
  | AdvancePc (addr_diff : Z) | AdvanceLine (line_diff : Z)
  | StartLocal (register_num : Z) (name type : option Z)
  | StartLocalExtended (register_num : Z) (name type sig : option Z)
  | EndLocal (register_num : Z) | RestartLocal (register_num : Z) | SetFile (name : option Z)
  | Plain (opcode : Z).

(** The opcodes without operands. *)
Definition is_plain (opcode : Z) : bool :=
  negb (existsb (Z.eqb opcode) [DBG_END_SEQUENCE; DBG_ADVANCE_PC; DBG_ADVANCE_LINE; DBG_START_LOCAL;
    DBG_START_LOCAL_EXTENDED; DBG_END_LOCAL; DBG_RESTART_LOCAL; DBG_SET_FILE]).

Inductive op_of : list byte -> dbg_op -> Prop :=
  | of_pc a d : uleb_of a d -> op_of (DBG_ADVANCE_PC :: a) (AdvancePc d)
  | of_line a d : sleb_of a d -> op_of (DBG_ADVANCE_LINE :: a) (AdvanceLine d)
  | of_local r n t reg name type : uleb_of r reg -> index_of n name -> index_of t type ->
      op_of (DBG_START_LOCAL :: r ++ n ++ t) (StartLocal reg name type)
  | of_local_ext r n t s reg name type sig :
      uleb_of r reg -> index_of n name -> index_of t type -> index_of s sig ->
      op_of (DBG_START_LOCAL_EXTENDED :: r ++ n ++ t ++ s) (StartLocalExtended reg name type sig)
  | of_end r reg : uleb_of r reg -> op_of (DBG_END_LOCAL :: r) (EndLocal reg)
  | of_restart r reg : uleb_of r reg -> op_of (DBG_RESTART_LOCAL :: r) (RestartLocal reg)
  | of_file n name : index_of n name -> op_of (DBG_SET_FILE :: n) (SetFile name)
  | of_plain opcode : is_plain opcode = true -> op_of [opcode] (Plain opcode).

Inductive stream_of : list byte -> list dbg_op -> Prop :=
  | stream_end : stream_of [DBG_END_SEQUENCE] []
  | stream_op a bs op ops : op_of a op -> stream_of bs ops -> stream_of (a ++ bs) (op :: ops).

Inductive names_of : list byte -> list (option Z) -> Prop :=
  | names_nil : names_of [] []
  | names_cons a bs i js : index_of a i -> names_of bs js -> names_of (a ++ bs) (i :: js).

(** A whole item. *)
Inductive debug_of : list byte -> Z -> list (option Z) -> list dbg_op -> list byte -> Prop :=
  | debug_intro a b c d line names ops :
      uleb_of a line -> uleb_of b (Z.of_nat (length names)) -> names_of c names -> stream_of d ops ->
      debug_of (a ++ b ++ c ++ d) line names ops d.

Definition op_refs (op : dbg_op) : list ref :=
  match op with
  | StartLocal _ n t => visit StringItem n ++ visit TypeItem t
  | StartLocalExtended _ n t s => visit StringItem n ++ visit TypeItem t ++ visit StringItem s
  | SetFile n => visit StringItem n
  | _ => []
  end.
Definition debug_refs (names : list (option Z)) (ops : list dbg_op) : list ref :=
  concat (map (visit StringItem) names) ++ concat (map op_refs ops).

(** ** Reading *)

Lemma uleb_nonempty bs v : uleb_of bs v -> (1 <= length bs)%nat.
Proof. intros H. destruct bs; [|cbn; lia]. specialize (H []). discriminate H. Qed.

Lemma read_index_of bs i rest : index_of bs i -> read_index (bs ++ rest) = Some (i, rest).
Proof.
  intros [H Hi]. unfold read_index. rewrite H. cbn [mbind option_bind]. change kNoIndex with 4294967295 in *.
  destruct i as [i|]; cbn [opt_plus1]; [|reflexivity].
  rewrite Z.add_simpl_r, trunc_small by lia. by rewrite (proj2 (Z.eqb_neq _ _)) by lia.
Qed.

Lemma is_plain_tests opcode : is_plain opcode = true ->
  (opcode =? DBG_END_SEQUENCE) = false /\ (opcode =? DBG_ADVANCE_PC) = false /\ (opcode =? DBG_ADVANCE_LINE) = false /\
  (opcode =? DBG_START_LOCAL) = false /\ (opcode =? DBG_START_LOCAL_EXTENDED) = false /\
  (opcode =? DBG_END_LOCAL) = false /\ (opcode =? DBG_RESTART_LOCAL) = false /\ (opcode =? DBG_SET_FILE) = false.
Proof.
  unfold is_plain. cbn [existsb]. rewrite orb_false_r, !negb_orb, !andb_true_iff, !negb_true_iff. tauto.
Qed.

Lemma parse_op_of a op rest : op_of a op ->
  exists opcode args, a = opcode :: args /\ (opcode =? DBG_END_SEQUENCE) = false /\
    parse_debug_op opcode (args ++ rest) = Some (op_refs op, rest).
Proof.
  intros H. inversion H; subst; do 2 eexists; (split; [reflexivity|]); (split; [try reflexivity|]);
    try (unfold parse_debug_op; cbn [Z.eqb Pos.eqb orb DBG_ADVANCE_PC DBG_ADVANCE_LINE DBG_START_LOCAL
      DBG_START_LOCAL_EXTENDED DBG_END_LOCAL DBG_RESTART_LOCAL DBG_SET_FILE];
    rewrite <- ?app_assoc;
    repeat match goal with
    | Hu : uleb_of ?b _ |- context [ReadULeb128 (?b ++ _)] => rewrite Hu; cbn [mbind option_bind]
    | Hs : sleb_of ?b _ |- context [ReadSLeb128 (?b ++ _)] => rewrite Hs; cbn [mbind option_bind]
    | Hn : index_of ?b _ |- context [read_index (?b ++ _)] =>
        rewrite (read_index_of b _ _ Hn); cbn [mbind option_bind]
    end; reflexivity).
  all: match goal with Hp : is_plain _ = true |- _ =>
    destruct (is_plain_tests _ Hp) as (P0 & P1 & P2 & P3 & P4 & P5 & P6 & P7) end.
  - exact P0.
  - unfold parse_debug_op. rewrite P1, P2, P3, P4, P5, P6, P7. reflexivity.
Qed.

Lemma parse_stream bs ops : stream_of bs ops -> forall fuel rest, (length bs <= fuel)%nat ->
  parse_debug_ops fuel (bs ++ rest) = Some (concat (map op_refs ops), rest).
Proof.
  induction 1 as [|a bs op ops Ha _ IH]; intros fuel rest Hf; [by destruct fuel|].
  rewrite <- app_assoc. destruct (parse_op_of a op (bs ++ rest) Ha) as (opcode & args & -> & Ho & Hp).
  rewrite length_app in Hf. cbn [length] in Hf. destruct fuel as [|fuel]; [lia|].
  cbn [app parse_debug_ops head_tail mbind option_bind]. rewrite Ho, Hp. cbn [mbind option_bind].
  by rewrite IH by lia.
Qed.

Lemma parse_names_of bs names : names_of bs names -> forall fuel rest, (length bs <= fuel)%nat ->
  parse_names fuel (Z.of_nat (length names)) (bs ++ rest) = Some (names, rest).
Proof.
  induction 1 as [|a bs i js Ha _ IH]; intros fuel rest Hf; [by destruct fuel|].
  rewrite length_app in Hf. pose proof (uleb_nonempty _ _ (proj1 Ha)). destruct fuel as [|fuel]; [lia|].
  cbn [parse_names length]. rewrite (proj2 (Z.eqb_neq _ _)) by lia. rewrite <- app_assoc, (read_index_of a i) by done.
  cbn [mbind option_bind]. replace (Z.of_nat (S (length js)) - 1) with (Z.of_nat (length js)) by lia.
  by rewrite IH by lia.
Qed.

Lemma extract_debug bs line names ops d rest : debug_of bs line names ops d ->
  ExtractDebugInfo (bs ++ rest) =
    Some ({| line_start := line; param_names := names; data := d |}, debug_refs names ops, rest).
Proof.
  intros H. inversion H as [a b c d' line' names' ops' Ha Hb Hc Hd]; subst. unfold ExtractDebugInfo.
  rewrite <- !app_assoc, Ha. cbn [mbind option_bind]. rewrite Hb. cbn [mbind option_bind].
  rewrite (parse_names_of c names) by (done || rewrite length_app; lia). cbn [mbind option_bind].
  rewrite (parse_stream d ops) by (done || rewrite length_app; lia). cbn [mbind option_bind].
  rewrite length_app. replace (length d + length rest - length rest)%nat with (length d) by lia.
  by rewrite take_app_length.
Qed.

(** ** Writing *)

Section Write.
Context (nd : bool) (ir : index_maps).

(** The renumbered index fits in four LEB128 bytes. *)
Definition opt_fits (k : item) (i : option Z) : Prop :=
  match i with Some i => exists n, map_of ir k !! i = Some n /\ 0 <= n < 2 ^ 28 - 1 | None => True end.
Definition opt_renamed (k : item) (i : option Z) : option Z :=
  (fun i => default i (map_of ir k !! i)) <$> i.

Definition op_fits (op : dbg_op) : Prop :=
  match op with
  | AdvancePc d => 0 <= d < 2 ^ 28
  | AdvanceLine d => in_signed 28 d
  | StartLocal r n t => 0 <= r < 2 ^ 28 /\ opt_fits StringItem n /\ opt_fits TypeItem t
  | StartLocalExtended r n t s =>
      0 <= r < 2 ^ 28 /\ opt_fits StringItem n /\ opt_fits TypeItem t /\ opt_fits StringItem s
  | EndLocal r | RestartLocal r => 0 <= r < 2 ^ 28
  | SetFile n => opt_fits StringItem n
  | Plain _ => True
  end.
Definition op_renamed (op : dbg_op) : dbg_op :=
  match op with
  | StartLocal r n t => StartLocal r (opt_renamed StringItem n) (opt_renamed TypeItem t)
  | StartLocalExtended r n t s =>
      StartLocalExtended r (opt_renamed StringItem n) (opt_renamed TypeItem t) (opt_renamed StringItem s)
  | SetFile n => SetFile (opt_renamed StringItem n)
  | _ => op
  end.

Lemma uleb_bytes_of v : 0 <= v < 2 ^ 28 -> exists bs, uleb_bytes v = Some bs /\ uleb_of bs v.
Proof. intros H. destruct (uleb_bytes_ok v H) as (bs & E & _ & R). by exists bs. Qed.

Lemma sleb_bytes_of v : in_signed 28 v -> exists bs, sleb_bytes v = Some bs /\ sleb_of bs v.
Proof.
  unfold in_signed. intros H. destruct (sleb_roundtrip v [] ltac:(lia)) as (bs & W & L & _). exists bs. split.
  - unfold sleb_bytes. rewrite W. cbn [mbind option_bind]. rewrite (proj2 (Nat.leb_le _ _)); [done|].
    rewrite L. unfold sleb_size. cbv zeta. destruct (sleb_mag_range v (2 ^ 27)) as [_ Hm].
    destruct (Z.ltb_spec (sleb_mag v) (2 ^ 6)), (Z.ltb_spec (sleb_mag v) (2 ^ 13)),
      (Z.ltb_spec (sleb_mag v) (2 ^ 20)), (Z.ltb_spec (sleb_mag v) (2 ^ 27)); lia.
  - intros rest. destruct (sleb_roundtrip v rest ltac:(lia)) as (bs' & W' & _ & R & _). congruence.
Qed.

Lemma opt_renamed_range k i : opt_fits k i ->
  0 <= opt_plus1 (opt_renamed k i) < 2 ^ 28 /\
  match opt_renamed k i with Some j => 0 <= j < kNoIndex | None => True end.
Proof.
  change kNoIndex with 4294967295. destruct i as [i|]; cbn; [|lia]. intros (n & -> & Hn). cbn. lia.
Qed.

Lemma opt_bytes k i : opt_fits k i -> exists bs,
  uleb_bytes (opt_plus1 (opt_renamed k i)) = Some bs /\ index_of bs (opt_renamed k i).
Proof.
  intros H. destruct (opt_renamed_range k i H) as [Hr Hm]. destruct (uleb_bytes_of _ Hr) as (bs & E & U).
  by exists bs.
Qed.

Lemma copy_index_of k a i rest : index_of a i -> opt_fits k i ->
  exists b, copy_index (MapIndex nd (map_of ir k)) (a ++ rest) = Some (b, rest) /\ index_of b (opt_renamed k i).
Proof.
  intros [Ha Hi] Hf. destruct (opt_bytes k i Hf) as (b & Eb & Hb). exists b. split; [|done].
  unfold copy_index. rewrite Ha. cbn [mbind option_bind]. change kNoIndex with 4294967295 in Hi.
  destruct i as [i|]; cbn [opt_plus1].
  - rewrite Z.add_simpl_r, trunc_small by lia. destruct Hf as (n & Hm & Hn).
    destruct (MapIndex_fits nd (map_of ir k) i n (2 ^ 28)) as [-> _]; [change kNoIndex with 4294967295; lia|done|lia|done|].
    cbn [mbind option_bind]. cbn [opt_renamed fmap option_fmap option_map opt_plus1] in Eb. rewrite Hm in Eb. cbn [default from_option id] in Eb.
    by rewrite trunc_small, Eb by lia.
  - change (u32 (0 - 1)) with kNoIndex. unfold MapIndex. rewrite Z.eqb_refl. cbn [negb mbind option_bind].
    change (u32 (kNoIndex + 1)) with 0. change (opt_plus1 (opt_renamed k None)) with 0 in Eb. by rewrite Eb.
Qed.

Lemma push_name_of i : opt_fits StringItem i ->
  exists b, push_opt_index ir i = Some b /\ index_of b (opt_renamed StringItem i).
Proof.
  intros Hf. destruct (opt_bytes StringItem i Hf) as (b & Eb & Hb). exists b. split; [|done].
  destruct i as [i|]; unfold push_opt_index; [|exact Eb]. destruct Hf as (n & Hm & Hn). cbn [map_of] in Hm.
  rewrite Hm. cbn [mbind option_bind]. cbn [opt_renamed fmap option_fmap option_map opt_plus1 map_of] in Eb.
  rewrite Hm in Eb. by rewrite trunc_small by lia.
Qed.

Lemma copy_uleb_of a v rest : uleb_of a v -> 0 <= v < 2 ^ 28 ->
  exists b, copy_uleb (a ++ rest) = Some (b, rest) /\ uleb_of b v.
Proof.
  intros Ha Hv. destruct (uleb_bytes_of v Hv) as (b & E & U). exists b. unfold copy_uleb. rewrite Ha. cbn [mbind option_bind].
  by rewrite E.
Qed.

Lemma write_op_of a op rest : op_of a op -> op_fits op ->
  exists opcode args b, a = opcode :: args /\ (opcode =? DBG_END_SEQUENCE) = false /\
    write_debug_op nd ir opcode (args ++ rest) = Some (b, rest) /\ op_of (opcode :: b) (op_renamed op).
Proof.
  intros H Hf. pose proof (copy_index_of StringItem) as Hs. pose proof (copy_index_of TypeItem) as Ht. cbn [map_of] in Hs, Ht.
  inversion H as [a' d Hd|a' d Hd|r n t reg name type Hr Hn Hty|r n t s reg name type sig Hr Hn Hty Hsig
    |r reg Hr|r reg Hr|n name Hn|opcode Hp]; subst; cbn [op_fits op_renamed] in *; do 2 eexists.
  - destruct (copy_uleb_of a' d rest Hd Hf) as (b & E & U). exists b. by repeat split; [|constructor].
  - destruct (sleb_bytes_of d Hf) as (b & E & U). exists b. split; [reflexivity|]. split; [done|].
    split; [|by constructor]. cbn. unfold copy_sleb. rewrite Hd. cbn [mbind option_bind]. by rewrite E.
  - destruct Hf as (Fr & Fn & Ft). destruct (copy_uleb_of r reg (n ++ t ++ rest) Hr Fr) as (br & Er & Ur).
    destruct (Hs n name (t ++ rest) Hn Fn) as (bn & En & Un). destruct (Ht t type rest Hty Ft) as (bt & Et & Ut).
    exists (br ++ bn ++ bt). split; [reflexivity|]. split; [done|]. split; [|by constructor].
    rewrite <- !app_assoc. cbn. rewrite Er. cbn [mbind option_bind]. unfold MapStringIndex, MapTypeIndex.
    rewrite En. cbn [mbind option_bind]. by rewrite Et.
  - destruct Hf as (Fr & Fn & Ft & Fs). destruct (copy_uleb_of r reg (n ++ t ++ s ++ rest) Hr Fr) as (br & Er & Ur).
    destruct (Hs n name (t ++ s ++ rest) Hn Fn) as (bn & En & Un).
    destruct (Ht t type (s ++ rest) Hty Ft) as (bt & Et & Ut). destruct (Hs s sig rest Hsig Fs) as (bs & Es & Us).
    exists (br ++ bn ++ bt ++ bs). split; [reflexivity|]. split; [done|]. split; [|by constructor].
    rewrite <- !app_assoc. cbn. rewrite Er. cbn [mbind option_bind]. unfold MapStringIndex, MapTypeIndex.
    rewrite En. cbn [mbind option_bind]. rewrite Et. cbn [mbind option_bind]. by rewrite Es.
  - destruct (copy_uleb_of r reg rest Hr Hf) as (b & E & U). exists b. by repeat split; [|constructor].
  - destruct (copy_uleb_of r reg rest Hr Hf) as (b & E & U). exists b. by repeat split; [|constructor].
  - destruct (Hs n name rest Hn Hf) as (b & E & U). exists b. by repeat split; [|constructor].
  - destruct (is_plain_tests opcode Hp) as (P0 & P1 & P2 & P3 & P4 & P5 & P6 & P7).
    exists []. split; [reflexivity|]. split; [done|]. split; [|by constructor].
    unfold write_debug_op. by rewrite P1, P2, P3, P4, P5, P6, P7.
Qed.

Lemma write_stream bs ops : stream_of bs ops -> Forall op_fits ops -> forall fuel, (length bs <= fuel)%nat ->
  exists bs', write_debug_ops nd ir fuel bs = Some bs' /\ stream_of bs' (map op_renamed ops).
Proof.
  induction 1 as [|a bs op ops Ha _ IH]; intros Hfit fuel Hf.
  { exists [DBG_END_SEQUENCE]. split; [by destruct fuel|constructor]. }
  apply Forall_cons in Hfit as [Hop Hops].
  destruct (write_op_of a op bs Ha Hop) as (opcode & args & b & -> & Ho & Hw & Hb).
  rewrite length_app in Hf. cbn [length] in Hf. destruct fuel as [|fuel]; [lia|].
  destruct (IH Hops fuel ltac:(lia)) as (bs' & Hws & Hbs). exists ((opcode :: b) ++ bs'). split; [|by constructor].
  cbn [app write_debug_ops head_tail mbind option_bind]. rewrite Ho, Hw. cbn [mbind option_bind]. by rewrite Hws.
Qed.

Lemma write_names names : Forall (opt_fits StringItem) names ->
  exists bs, push_names ir names = Some bs /\ names_of bs (map (opt_renamed StringItem) names).
Proof.
  induction 1 as [|i js Hi _ (bs & Hw & Hn)]; [exists []; split; [done|constructor]|].
  destruct (push_name_of i Hi) as (b & Eb & Hb). exists (b ++ bs). cbn [push_names]. rewrite Eb. cbn [mbind option_bind].
  rewrite Hw. split; [done|]. by constructor.
Qed.

Lemma write_debug line names ops d : 0 <= line < 2 ^ 28 -> leb_count (length names) ->
  stream_of d ops -> Forall (opt_fits StringItem) names -> Forall op_fits ops ->
  exists bs d', WriteDebugInfo nd ir {| line_start := line; param_names := names; data := d |} = Some bs /\
    debug_of bs line (map (opt_renamed StringItem) names) (map op_renamed ops) d'.
Proof.
  intros Hl Hn Hd Hfn Hfo. destruct (uleb_bytes_of line Hl) as (a & Ea & Ua).
  destruct (uleb_bytes_of (Z.of_nat (length names)) (conj (Nat2Z.is_nonneg _) Hn)) as (b & Eb & Ub).
  destruct (write_names names Hfn) as (c & Ec & Nc). destruct (write_stream d ops Hd Hfo _ (le_n _)) as (d' & Ed & Sd).
  exists (a ++ b ++ c ++ d'), d'. split.
  - unfold WriteDebugInfo. cbn [line_start param_names data]. rewrite Ea. cbn [mbind option_bind].
    rewrite Eb. cbn [mbind option_bind]. rewrite Ec. cbn [mbind option_bind]. by rewrite Ed.
  - constructor; try done. by rewrite length_map.
Qed.

(** A reference with its new index. *)
Definition ref_renamed (r : ref) : ref := (r.1, default r.2 (map_of ir r.1 !! r.2)).

Lemma renamed_refs k i : visit k (opt_renamed k i) = map ref_renamed (visit k i).
Proof. by destruct i. Qed.

Lemma op_renamed_refs op : op_refs (op_renamed op) = map ref_renamed (op_refs op).
Proof. destruct op; cbn [op_refs op_renamed]; rewrite ?map_app, ?renamed_refs; reflexivity. Qed.

Lemma debug_renamed_refs names ops :
  debug_refs (map (opt_renamed StringItem) names) (map op_renamed ops) = map ref_renamed (debug_refs names ops).
Proof.
  unfold debug_refs. rewrite map_app, !concat_map, !map_map. f_equal; f_equal; apply map_ext.
  - intros i. apply renamed_refs.
  - apply op_renamed_refs.
Qed.
End Write.
