(* ===== verification/DexTry.v ===== *)
(** Try blocks and catch handlers: the handler list that [Reader::ExtractCode]
    walks ([slicer/reader.cc]) and [Writer::WriteTryBlocks] ([writer.cc]), which
    rewrites it and relocates the try blocks' offsets into it. A catch count of
    -2{^31}, whose [std::abs] is undefined, is read as its absolute value.

    Then catch handlers as data, and the reader and the writer against them. *)
From S2P Require Import Prelude Leb128 SlicerBuffer DexBytecode DexCode DexCodeSpec DexValue DexValueSpec DexDebug.
From S2P Require Import DexDebugSpec.

(** ["try_item"]. *)
Record TryBlock := { start_addr : Z; insn_count : Z; handler_off : Z }.

(** ** Reading *)

(** The [catch_index] loop. *)
Fixpoint parse_catches (fuel : nat) (count : Z) (ptr : list byte) : option (list ref * list byte) :=
  if count <=? 0 then Some ([], ptr)
  else
    match fuel with
    | O => None
    | S fuel =>
        '(type_index, ptr) ← ReadULeb128 ptr;
        '(_, ptr) ← ReadULeb128 ptr;
        '(refs, ptr) ← parse_catches fuel (count - 1) ptr;
        Some ((TypeItem, type_index) :: refs, ptr)
    end.

Definition parse_handler (ptr : list byte) : option (list ref * list byte) :=
  '(catch_count, ptr) ← ReadSLeb128 ptr;
  '(refs, ptr) ← parse_catches (length ptr) (Z.abs catch_count) ptr;
  if catch_count <? 1 then '(_, ptr) ← ReadULeb128 ptr; Some (refs, ptr)
  else Some (refs, ptr).

Fixpoint parse_handlers (fuel : nat) (count : Z) (ptr : list byte) : option (list ref * list byte) :=
  if count <=? 0 then Some ([], ptr)
  else
    match fuel with
    | O => None
    | S fuel =>
        '(refs, ptr) ← parse_handler ptr;
        '(refs', ptr) ← parse_handlers fuel (count - 1) ptr;
        Some (refs ++ refs', ptr)
    end.

(** The references in the list, and the list as the IR keeps it. *)
Definition ExtractHandlers (handlers_list : list byte) : option (list ref * list byte) :=
  '(handlers_count, ptr) ← ReadULeb128 handlers_list;
  '(refs, ptr) ← parse_handlers (length ptr) handlers_count ptr;
  Some (refs, take (length handlers_list - length ptr) handlers_list).

(** ** Writing *)

Section Write.
Context (ndebug : bool) (ir : index_maps).

Fixpoint write_catches (fuel : nat) (count : Z) (ptr : list byte) : option (list byte * list byte) :=
  if count <=? 0 then Some ([], ptr)
  else
    match fuel with
    | O => None
    | S fuel =>
        '(type_index, ptr) ← ReadULeb128 ptr;
        type ← MapTypeIndex ndebug ir type_index;
        t ← uleb_bytes type;
        '(a, ptr) ← copy_uleb ptr;
        '(bs, ptr) ← write_catches fuel (count - 1) ptr;
        Some (t ++ a ++ bs, ptr)
    end.

Definition write_handler (ptr : list byte) : option (list byte * list byte) :=
  '(catch_count, ptr) ← ReadSLeb128 ptr;
  c ← sleb_bytes catch_count;
  '(bs, ptr) ← write_catches (length ptr) (Z.abs catch_count) ptr;
  if catch_count <? 1 then '(a, ptr) ← copy_uleb ptr; Some (c ++ bs ++ a, ptr)
  else Some (c ++ bs, ptr).

(** [handlers_list] is what has been pushed; [original_list] has [len] bytes. *)
Fixpoint write_handlers (fuel : nat) (len : nat) (count : Z) (ptr handlers_list : list byte) (offset_map : gmap Z Z) :
    option (list byte * gmap Z Z) :=
  if count <=? 0 then Some (handlers_list, offset_map)
  else
    match fuel with
    | O => None
    | S fuel =>
        let offset_map := <[u16 (Z.of_nat (len - length ptr)) := u16 (Z.of_nat (length handlers_list))]> offset_map in
        '(bs, ptr) ← write_handler ptr;
        write_handlers fuel len (count - 1) ptr (handlers_list ++ bs) offset_map
    end.

(** The last loop; [operator[]] gives 0 for an unknown offset. *)
Fixpoint relocate_tries (offset_map : gmap Z Z) (tries : list TryBlock) : option (list TryBlock) :=
  match tries with
  | [] => Some []
  | t :: tries =>
      let new_Handler_offset := default 0 (offset_map !! handler_off t) in
      SLICER_CHECK ndebug (negb (new_Handler_offset =? 0)) ;;
      tries ← relocate_tries offset_map tries;
      Some ({| start_addr := start_addr t; insn_count := insn_count t; handler_off := new_Handler_offset |} :: tries)
  end.

(** The try items and the handler list pushed to the code section. *)
Definition WriteTryBlocks (try_blocks : list TryBlock) (catch_handlers : list byte) :
    option (list TryBlock * list byte) :=
  SLICER_CHECK ndebug (negb (bool_decide (length try_blocks = 0%nat))) ;;
  '(handlers_count, ptr) ← ReadULeb128 catch_handlers;
  n ← uleb_bytes handlers_count;
  '(handlers_list, offset_map) ← write_handlers (length ptr) (length catch_handlers) handlers_count ptr n ∅;
  tries ← relocate_tries offset_map try_blocks;
  Some (tries, handlers_list).
End Write.

(** ** Encodings *)

(** The typed catches, each with its address, and the catch-all address. *)
Record handler := { catches : list (Z * Z); catch_all : option Z }.

Definition catch_count (h : handler) : Z :=
  let n := Z.of_nat (length (catches h)) in match catch_all h with Some _ => - n | None => n end.

Inductive catches_of : list byte -> list (Z * Z) -> Prop :=
  | catches_nil : catches_of [] []
  | catches_cons t a bs type addr cs : uleb_of t type -> uleb_of a addr -> catches_of bs cs ->
      catches_of (t ++ a ++ bs) ((type, addr) :: cs).

(** A handler has a typed catch or a catch-all. *)
Inductive handler_of : list byte -> handler -> Prop :=
  | handler_typed c bs cs : cs <> [] -> sleb_of c (Z.of_nat (length cs)) -> catches_of bs cs ->
      handler_of (c ++ bs) {| catches := cs; catch_all := None |}
  | handler_all c bs a cs addr : sleb_of c (- Z.of_nat (length cs)) -> catches_of bs cs -> uleb_of a addr ->
      handler_of (c ++ bs ++ a) {| catches := cs; catch_all := Some addr |}.

(** The list: the count's bytes and the bytes of each handler; the offset of the
    [k]-th one. *)
Definition list_of (n : list byte) (hbs : list (list byte)) (hs : list handler) : Prop :=
  uleb_of n (Z.of_nat (length hs)) /\ Forall2 handler_of hbs hs.
Definition handler_offset (n : list byte) (hbs : list (list byte)) (k : nat) : nat :=
  length n + length (concat (take k hbs)).

Definition handler_refs (h : handler) : list ref := map (fun c => (TypeItem, c.1)) (catches h).

(** ** Reading *)

Lemma sleb_nonempty bs v : sleb_of bs v -> (1 <= length bs)%nat.
Proof. intros H. destruct bs; [|cbn; lia]. specialize (H []). discriminate H. Qed.

Lemma handler_nonempty bs h : handler_of bs h -> (1 <= length bs)%nat.
Proof. intros []; rewrite length_app; match goal with H : sleb_of _ _ |- _ => pose proof (sleb_nonempty _ _ H) end; lia. Qed.

Lemma parse_catches_of bs cs : catches_of bs cs -> forall fuel rest, (length bs <= fuel)%nat ->
  parse_catches fuel (Z.of_nat (length cs)) (bs ++ rest) = Some (map (fun c => (TypeItem, c.1)) cs, rest).
Proof.
  induction 1 as [|t a bs type addr cs Ht Ha _ IH]; intros fuel rest Hf; [by destruct fuel|].
  rewrite !length_app in Hf. pose proof (uleb_nonempty _ _ Ht). destruct fuel as [|fuel]; [lia|].
  cbn [parse_catches length]. rewrite (proj2 (Z.leb_gt _ _)) by lia. rewrite <- !app_assoc, Ht. cbn [mbind option_bind].
  rewrite Ha. cbn [mbind option_bind]. replace (Z.of_nat (S (length cs)) - 1) with (Z.of_nat (length cs)) by lia.
  by rewrite IH by lia.
Qed.

Lemma parse_handler_of bs h rest : handler_of bs h -> parse_handler (bs ++ rest) = Some (handler_refs h, rest).
Proof.
  intros [c bs' cs Hne Hc Hcs|c bs' a cs addr Hc Hcs Ha]; unfold parse_handler; rewrite <- !app_assoc, Hc;
    cbn [mbind option_bind].
  - rewrite Z.abs_eq, (parse_catches_of bs' cs) by (lia || done || rewrite length_app; lia). cbn [mbind option_bind].
    destruct cs as [|]; [done|]. by rewrite (proj2 (Z.ltb_ge _ _)) by (cbn [length]; lia).
  - rewrite Z.abs_opp, Z.abs_eq, (parse_catches_of bs' cs) by (lia || done || rewrite !length_app; lia). cbn [mbind option_bind].
    rewrite (proj2 (Z.ltb_lt _ _)) by lia. by rewrite Ha.
Qed.

Lemma parse_handlers_of hbs hs : Forall2 handler_of hbs hs -> forall fuel rest, (length (concat hbs) <= fuel)%nat ->
  parse_handlers fuel (Z.of_nat (length hs)) (concat hbs ++ rest) = Some (concat (map handler_refs hs), rest).
Proof.
  induction 1 as [|bs h hbs hs Hh _ IH]; intros fuel rest Hf; [by destruct fuel|].
  cbn [concat map length] in *. rewrite length_app in Hf. pose proof (handler_nonempty _ _ Hh).
  destruct fuel as [|fuel]; [lia|]. cbn [parse_handlers]. rewrite (proj2 (Z.leb_gt _ _)) by lia.
  rewrite <- app_assoc, (parse_handler_of bs h) by done. cbn [mbind option_bind].
  replace (Z.of_nat (S (length hs)) - 1) with (Z.of_nat (length hs)) by lia. by rewrite IH by lia.
Qed.

Lemma extract_handlers n hbs hs rest : list_of n hbs hs ->
  ExtractHandlers (n ++ concat hbs ++ rest) = Some (concat (map handler_refs hs), n ++ concat hbs).
Proof.
  intros [Hn Hh]. unfold ExtractHandlers. rewrite Hn. cbn [mbind option_bind].
  rewrite (parse_handlers_of hbs hs) by (done || rewrite length_app; lia). cbn [mbind option_bind]. do 2 f_equal.
  rewrite app_assoc, (length_app (n ++ _)).
  replace (length (n ++ concat hbs) + length rest - length rest)%nat with (length (n ++ concat hbs)) by lia.
  apply take_app_length.
Qed.

(** ** Writing *)

Section Write.
Context (nd : bool) (ir : index_maps).

Definition catch_fits (c : Z * Z) : Prop :=
  c.1 <> kNoIndex /\ (exists n, types_map ir !! c.1 = Some n /\ 0 <= n < 2 ^ 28) /\ 0 <= c.2 < 2 ^ 28.
Definition handler_fits (h : handler) : Prop :=
  in_signed 28 (catch_count h) /\ Forall catch_fits (catches h) /\
  match catch_all h with Some addr => 0 <= addr < 2 ^ 28 | None => True end.
Definition catch_renamed (c : Z * Z) : Z * Z := (default c.1 (types_map ir !! c.1), c.2).
Definition handler_renamed (h : handler) : handler :=
  {| catches := map catch_renamed (catches h); catch_all := catch_all h |}.

(** What the renamed handler needs at most: four bytes a number. *)
Definition handler_room (h : handler) : nat := 8 + 8 * length (catches h).
Definition handlers_room (hs : list handler) : nat := 4 + list_sum (map handler_room hs).

Lemma uleb_bytes_length v bs : uleb_bytes v = Some bs -> (length bs <= 4)%nat.
Proof.
  unfold uleb_bytes. intros (x & _ & H)%bind_Some. destruct (Nat.leb_spec (length x) 4); [|discriminate H].
  by injection H as <-.
Qed.
Lemma sleb_bytes_length v bs : sleb_bytes v = Some bs -> (length bs <= 4)%nat.
Proof.
  unfold sleb_bytes. intros (x & _ & H)%bind_Some. destruct (Nat.leb_spec (length x) 4); [|discriminate H].
  by injection H as <-.
Qed.
Lemma copy_uleb_length ptr bs rest : copy_uleb ptr = Some (bs, rest) -> (length bs <= 4)%nat.
Proof.
  unfold copy_uleb. intros ([v p] & _ & H)%bind_Some. apply bind_Some in H as (x & Hx & [= <- _]).
  by eapply uleb_bytes_length.
Qed.

Lemma write_catches_of bs cs : catches_of bs cs -> Forall catch_fits cs -> forall fuel rest, (length bs <= fuel)%nat ->
  exists b, write_catches nd ir fuel (Z.of_nat (length cs)) (bs ++ rest) = Some (b, rest) /\
    catches_of b (map catch_renamed cs) /\ (length b <= 8 * length cs)%nat.
Proof.
  induction 1 as [|t a bs type addr cs Ht Ha _ IH]; intros Hfit fuel rest Hf.
  { exists []. split; [by destruct fuel|]. split; [constructor|cbn; lia]. }
  apply Forall_cons in Hfit as [(Hi & (m & Hm & Hr) & Had) Hfit]. cbn [fst snd] in *.
  rewrite !length_app in Hf. pose proof (uleb_nonempty _ _ Ht). destruct fuel as [|fuel]; [lia|].
  destruct (uleb_bytes_of m Hr) as (bt & Et & Ut). destruct (copy_uleb_of a addr (bs ++ rest) Ha Had) as (ba & Ea & Ua).
  destruct (IH Hfit fuel rest ltac:(lia)) as (b & Eb & Hb & Lb). exists (bt ++ ba ++ b). split.
  - cbn [write_catches length]. rewrite (proj2 (Z.leb_gt _ _)) by lia. rewrite <- !app_assoc, Ht. cbn [mbind option_bind].
    unfold MapTypeIndex. destruct (MapIndex_fits nd _ _ m (2 ^ 28) Hi Hm Hr) as [-> _]; [done|]. cbn [mbind option_bind].
    rewrite Et. cbn [mbind option_bind]. rewrite Ea. cbn [mbind option_bind].
    replace (Z.of_nat (S (length cs)) - 1) with (Z.of_nat (length cs)) by lia. by rewrite Eb.
  - apply uleb_bytes_length in Et. apply copy_uleb_length in Ea. rewrite !length_app. cbn [length map].
    split; [|lia]. unfold catch_renamed at 1. cbn [fst snd]. rewrite Hm. by constructor.
Qed.

Lemma write_handler_of bs h rest : handler_of bs h -> handler_fits h ->
  exists b, write_handler nd ir (bs ++ rest) = Some (b, rest) /\ handler_of b (handler_renamed h) /\
    (length b <= handler_room h)%nat.
Proof.
  intros H (Hn & Hc & Ha). unfold write_handler, handler_room, handler_renamed.
  destruct H as [c bs' cs Hne Hs Hcs|c bs' a cs addr Hs Hcs Hall]; cbn [catches catch_all catch_count] in *;
    unfold catch_count in Hn; cbn [catches catch_all] in Hn;
    destruct (sleb_bytes_of _ Hn) as (bc & Ec & Uc); rewrite <- !app_assoc, Hs; cbn [mbind option_bind];
    rewrite Ec; cbn [mbind option_bind]; apply sleb_bytes_length in Ec.
  - rewrite Z.abs_eq by lia. destruct (write_catches_of bs' cs Hcs Hc (length (bs' ++ rest)) rest) as (b & -> & Hb & Lb);
      [rewrite length_app; lia|]. cbn [mbind option_bind]. exists (bc ++ b). rewrite length_app.
    rewrite (proj2 (Z.ltb_ge _ _)) by (destruct cs; [done|cbn [length]; lia]). split; [done|]. split; [|lia].
    constructor; [by destruct cs|by rewrite length_map|done].
  - rewrite Z.abs_opp, Z.abs_eq by lia.
    destruct (write_catches_of bs' cs Hcs Hc (length (bs' ++ a ++ rest)) (a ++ rest)) as (b & -> & Hb & Lb);
      [rewrite length_app; lia|]. cbn [mbind option_bind]. rewrite (proj2 (Z.ltb_lt _ _)) by lia.
    destruct (copy_uleb_of a addr rest Hall Ha) as (ba & Ea & Ua). rewrite Ea. cbn [mbind option_bind].
    apply copy_uleb_length in Ea. exists (bc ++ b ++ ba). rewrite !length_app. split; [done|]. split; [|lia].
    constructor; [by rewrite length_map|done|done].
Qed.

(** The loop, from position [p] of the original list. *)
Lemma write_handlers_of hbs hs : Forall2 handler_of hbs hs -> Forall handler_fits hs ->
  forall fuel p out m, (length (concat hbs) <= fuel)%nat -> Z.of_nat (p + length (concat hbs)) < 2 ^ 16 ->
  Z.of_nat (length out + list_sum (map handler_room hs)) < 2 ^ 16 ->
  exists hbs' m', write_handlers nd ir fuel (p + length (concat hbs)) (Z.of_nat (length hs)) (concat hbs) out m =
      Some (out ++ concat hbs', m') /\
    Forall2 handler_of hbs' (map handler_renamed hs) /\
    (forall k, (k < length hs)%nat ->
       m' !! Z.of_nat (p + length (concat (take k hbs))) = Some (Z.of_nat (length out + length (concat (take k hbs'))))) /\
    (forall x, x < Z.of_nat p -> m' !! x = m !! x).
Proof.
  induction 1 as [|bs h hbs hs Hh _ IH]; intros Hfit fuel p out m Hf Hp Ho.
  { exists [], m. rewrite app_nil_r. split; [by destruct fuel|]. split; [constructor|]. split; [cbn; lia|done]. }
  apply Forall_cons in Hfit as [Hfh Hfit]. cbn [concat map list_sum fold_right length] in *.
  rewrite length_app in *. pose proof (handler_nonempty _ _ Hh). destruct fuel as [|fuel]; [lia|].
  destruct (write_handler_of bs h (concat hbs) Hh Hfh) as (b & Eb & Hb & Lb).
  change (fold_right Nat.add 0%nat (map handler_room hs)) with (list_sum (map handler_room hs)) in *.
  destruct (IH Hfit fuel (p + length bs)%nat (out ++ b) (<[Z.of_nat p := Z.of_nat (length out)]> m))
    as (hbs' & m' & Ew & Hhs & Hk & Hx); [lia|lia|rewrite length_app; lia|].
  exists (b :: hbs'), m'. split; [|split; [by constructor|split]].
  - cbn [write_handlers]. rewrite (proj2 (Z.leb_gt _ _)) by lia. cbv zeta. rewrite Eb. cbn [mbind option_bind].
    rewrite length_app. replace (p + (length bs + length (concat hbs)) - (length bs + length (concat hbs)))%nat with p by lia.
    rewrite !trunc_small by lia. replace (Z.of_nat (S (length hs)) - 1) with (Z.of_nat (length hs)) by lia.
    rewrite Nat.add_assoc, Ew. cbn [concat]. by rewrite app_assoc.
  - intros [|k] Hlt; cbn [take concat length].
    + rewrite !Nat.add_0_r, Hx by lia. apply lookup_insert_eq.
    + rewrite !length_app, !Nat.add_assoc, Hk by lia. rewrite length_app. f_equal; lia.
  - intros x Hlt. rewrite Hx by lia. apply lookup_insert_ne. lia.
Qed.

(** The try block [t] renamed to [t']: the same range, and the same handler. *)
Record try_relocated (n n' : list byte) (hbs hbs' : list (list byte)) (t t' : TryBlock) : Prop := {
  try_start : start_addr t' = start_addr t; try_count : insn_count t' = insn_count t;
  try_handler : forall k, (k < length hbs)%nat ->
    handler_off t = Z.of_nat (handler_offset n hbs k) -> handler_off t' = Z.of_nat (handler_offset n' hbs' k) }.
Definition has_handler (n : list byte) (hbs : list (list byte)) (t : TryBlock) : Prop :=
  exists k, (k < length hbs)%nat /\ handler_off t = Z.of_nat (handler_offset n hbs k).

Lemma relocate_tries_of n n' hbs hbs' m tries : (1 <= length n')%nat ->
  (forall k, (k < length hbs)%nat -> m !! Z.of_nat (handler_offset n hbs k) = Some (Z.of_nat (handler_offset n' hbs' k))) ->
  Forall (has_handler n hbs) tries ->
  exists tries', relocate_tries nd m tries = Some tries' /\ Forall2 (try_relocated n n' hbs hbs') tries tries'.
Proof.
  intros Hn Hm. induction 1 as [|t tries (k & Hk & Ho) _ (tries' & E & IH)]; [by exists []|].
  eexists. cbn [relocate_tries]. cbv zeta. rewrite Ho, Hm by done. cbn [default from_option id].
  rewrite SLICER_CHECK_true.
  2: { apply negb_true_iff, Z.eqb_neq. unfold handler_offset. lia. }
  cbn [mbind option_bind]. rewrite E. split; [reflexivity|]. constructor; [|done]. constructor; [done|done|].
  cbn [handler_off]. intros k' Hk' Ho'. pose proof (Hm k' Hk') as E'. rewrite <- Ho', Ho, Hm in E' by done. by injection E'.
Qed.

Lemma write_tries n hbs hs tries : list_of n hbs hs -> Forall handler_fits hs -> tries <> [] ->
  Z.of_nat (length (n ++ concat hbs)) < 2 ^ 16 -> Z.of_nat (handlers_room hs) < 2 ^ 16 ->
  Forall (has_handler n hbs) tries ->
  exists tries' n' hbs', WriteTryBlocks nd ir tries (n ++ concat hbs) = Some (tries', n' ++ concat hbs') /\
    list_of n' hbs' (map handler_renamed hs) /\ Forall2 (try_relocated n n' hbs hbs') tries tries'.
Proof.
  intros [Hn Hh] Hfit Hne Hlen Hroom Ht. rewrite length_app in Hlen. unfold handlers_room in Hroom.
  assert (Hcount : Z.of_nat (length hs) < 2 ^ 16).
  { assert (length hs <= list_sum (map handler_room hs))%nat; [|lia]. clear. induction hs as [|h hs IH]; [done|].
    cbn [map list_sum fold_right length]. unfold list_sum in IH. unfold handler_room at 1. lia. }
  destruct (uleb_bytes_of (Z.of_nat (length hs))) as (n' & En & Un); [lia|].
  pose proof (uleb_bytes_length _ _ En).
  destruct (write_handlers_of hbs hs Hh Hfit (length (concat hbs)) (length n) n' ∅) as (hbs' & m & Ew & Hh' & Hk & _);
    [lia|lia|lia|].
  destruct (relocate_tries_of n n' hbs hbs' m tries) as (tries' & Et & Hts).
  { by eapply uleb_nonempty. }
  { intros k Hlt. apply Hk. by rewrite <- (Forall2_length _ _ _ Hh). }
  { done. }
  exists tries', n', hbs'. split; [|split; [split; [by rewrite length_map|done]|done]].
  unfold WriteTryBlocks. rewrite SLICER_CHECK_true by (destruct tries; done). cbn [mbind option_bind].
  rewrite Hn. cbn [mbind option_bind]. rewrite En. cbn [mbind option_bind]. rewrite length_app, Ew. cbn [mbind option_bind].
  by rewrite Et.
Qed.
End Write.
