(* ===== verification/DexOrder.v ===== *)
(** Sorting as the dex library does it: [qsort] with a three-way comparator, and
    the lexicographic order that its comparators compute; then string order, as
    [slicer/dex_utf8.cc] has it, and the order of UTF-16 code units that dex string
    tables are sorted by.

    A C string is the list of the bytes from the pointer on; reading behind them is
    [None]. *)
From stdpp Require Import sorting.
From S2P Require Import Prelude.

(** ** Lexicographic comparison of integer lists *)

(** The first difference, or the shorter list first. *)
Fixpoint lex_cmp (a b : list Z) : Z :=
  match a, b with
  | [], [] => 0
  | [], _ => -1
  | _, [] => 1
  | x :: a, y :: b => if x =? y then lex_cmp a b else x - y
  end.

Ltac lex_step := match goal with
  | |- context [?x =? ?y] => destruct (Z.eqb_spec x y); subst
  | H : context [?x =? ?y] |- _ => destruct (Z.eqb_spec x y); subst
  end.

Lemma lex_cmp_refl a : lex_cmp a a = 0.
Proof. induction a as [|x a IH]; [done|]. cbn. by rewrite Z.eqb_refl. Qed.

Lemma lex_cmp_eq a b : lex_cmp a b = 0 <-> a = b.
Proof.
  split; [|intros ->; apply lex_cmp_refl]. revert b. induction a as [|x a IH]; intros [|y b]; try done.
  cbn. lex_step; [|lia]. intros H. f_equal. by apply IH.
Qed.

Lemma lex_cmp_flip a b : lex_cmp a b < 0 <-> 0 < lex_cmp b a.
Proof.
  revert b. induction a as [|x a IH]; intros [|y b]; cbn; try lia. repeat lex_step; first [lia | apply IH].
Qed.

Lemma lex_cmp_trans a b c : lex_cmp a b <= 0 -> lex_cmp b c <= 0 -> lex_cmp a c <= 0.
Proof.
  revert b c. induction a as [|x a IH]; intros [|y b] [|z c]; cbn; try lia; repeat lex_step; first [lia | apply IH].
Qed.

Lemma lex_cmp_lt_trans a b c : lex_cmp a b < 0 -> lex_cmp b c < 0 -> lex_cmp a c < 0.
Proof.
  revert b c. induction a as [|x a IH]; intros [|y b] [|z c]; cbn; try lia; repeat lex_step; first [lia | apply IH].
Qed.

Definition lex_lt (a b : list Z) : Prop := lex_cmp a b < 0.
Definition lex_le (a b : list Z) : Prop := lex_cmp a b <= 0.

#[export] Instance lex_lt_strict : StrictOrder lex_lt.
Proof.
  split.
  - intros a H. unfold lex_lt in H. rewrite lex_cmp_refl in H. lia.
  - intros a b c. apply lex_cmp_lt_trans.
Qed.
#[export] Instance lex_le_total : Total lex_le.
Proof. intros a b. unfold lex_le. pose proof (lex_cmp_flip a b). pose proof (lex_cmp_flip b a). lia. Qed.
#[export] Instance lex_le_preorder : PreOrder lex_le.
Proof. split; [intros a; unfold lex_le; by rewrite lex_cmp_refl|intros a b c; apply lex_cmp_trans]. Qed.

Lemma lex_le_lt a b : lex_le a b -> a <> b -> lex_lt a b.
Proof. unfold lex_le, lex_lt. intros H N. rewrite <- lex_cmp_eq in N. lia. Qed.

(** ** [qsort]

    The C library leaves the order of elements that compare equal open; here they
    keep theirs. *)
Fixpoint insert_sorted {A} (cmp : A -> A -> Z) (x : A) (l : list A) : list A :=
  match l with
  | [] => [x]
  | y :: l' => if cmp y x <? 0 then y :: insert_sorted cmp x l' else x :: l
  end.
Definition qsort {A} (cmp : A -> A -> Z) (l : list A) : list A := foldr (insert_sorted cmp) [] l.

(** On the elements of [l] the comparator orders by a key. *)
Definition compares_keys {A} (cmp : A -> A -> Z) (key : A -> list Z) (l : list A) : Prop :=
  forall a b, a ∈ l -> b ∈ l -> cmp a b < 0 <-> lex_lt (key a) (key b).

Section Qsort.
Context {A : Type} (cmp : A -> A -> Z) (key : A -> list Z).

Lemma insert_perm x l : insert_sorted cmp x l ≡ₚ x :: l.
Proof. induction l as [|y l IH]; [done|]. cbn. destruct (_ <? 0); [|done]. rewrite IH. apply Permutation_swap. Qed.

Lemma qsort_perm l : qsort cmp l ≡ₚ l.
Proof. induction l as [|x l IH]; [done|]. cbn. by rewrite insert_perm, IH. Qed.

Lemma lex_not_lt a b : ~ lex_lt a b -> lex_le b a.
Proof. unfold lex_lt, lex_le. pose proof (lex_cmp_flip b a). pose proof (lex_cmp_flip a b). lia. Qed.

Lemma insert_ordered x l : (forall y, y ∈ l -> cmp y x < 0 <-> lex_lt (key y) (key x)) ->
  StronglySorted (fun a b => lex_le (key a) (key b)) l ->
  StronglySorted (fun a b => lex_le (key a) (key b)) (insert_sorted cmp x l).
Proof.
  intros Hc Hs. induction Hs as [|y l Hs IH Hy]; cbn; [repeat constructor|].
  destruct (Z.ltb_spec (cmp y x) 0) as [Hl|Hl].
  - constructor; [apply IH; intros; apply Hc; by right|]. rewrite insert_perm. constructor; [|done].
    apply Hc in Hl; [|by left]. unfold lex_lt, lex_le in *. lia.
  - assert (Hxy : lex_le (key x) (key y)) by (apply lex_not_lt; rewrite <- Hc by (by left); lia).
    constructor; [by constructor|]. constructor; [done|]. eapply Forall_impl; [exact Hy|].
    intros z Hz. by transitivity (key y).
Qed.

Lemma qsort_sorted l : compares_keys cmp key l -> StronglySorted (fun a b => lex_le (key a) (key b)) (qsort cmp l).
Proof.
  induction l as [|x l IH]; [constructor|]. intros Hc.
  change (qsort cmp (x :: l)) with (insert_sorted cmp x (qsort cmp l)). apply insert_ordered.
  - intros y Hy. rewrite qsort_perm in Hy. apply Hc; [by right|by left].
  - apply IH. intros a b Ha Hb. apply Hc; by right.
Qed.

(** Distinct keys make the order strict. *)
Lemma qsort_strict l : compares_keys cmp key l -> NoDup (key <$> l) ->
  StronglySorted (fun a b => lex_lt (key a) (key b)) (qsort cmp l).
Proof.
  intros Hc Hn. pose proof (qsort_sorted l Hc) as Hs. rewrite <- (qsort_perm l) in Hn.
  induction Hs as [|a l' _ IH Ha]; [constructor|]. cbn in Hn. apply NoDup_cons in Hn as [Hna Hn].
  constructor; [by apply IH|]. rewrite Forall_forall in *. intros b Hb. apply lex_le_lt; [by apply Ha|].
  intros E. apply Hna. rewrite E. by apply list_elem_of_fmap_2.
Qed.
End Qsort.

Lemma sorted_impl {A} (R S : A -> A -> Prop) l : (forall a b, R a b -> S a b) -> StronglySorted R l -> StronglySorted S l.
Proof. intros H. induction 1 as [|a l _ IH Ha]; constructor; [done|]. eapply Forall_impl; [exact Ha|]. apply H. Qed.

(** What is strictly sorted is sorted by position. *)
Lemma sorted_positions {A} (R : A -> A -> Prop) `{!StrictOrder R} (l : list A) i j a b :
  StronglySorted R l -> l !! i = Some a -> l !! j = Some b -> R a b <-> (i < j)%nat.
Proof.
  intros Hs. revert i j. assert (H : forall i j a b, l !! i = Some a -> l !! j = Some b -> (i < j)%nat -> R a b).
  { induction Hs as [|x l Hs IH Hx]; intros [|i] [|j] a' b' Hi Hj Hlt; try lia; cbn in *; try done.
    - injection Hi as <-. rewrite Forall_forall in Hx. apply Hx. by eapply list_elem_of_lookup_2.
    - eapply IH; [exact Hi|exact Hj|lia]. }
  intros i j Hi Hj. split; [|by eapply H]. intros Hr. destruct (decide (i < j)%nat) as [|N]; [done|]. exfalso.
  destruct (decide (i = j)) as [->|Ne].
  - assert (a = b) by congruence. subst. by eapply (irreflexivity R).
  - apply (irreflexivity R a). etransitivity; [exact Hr|]. eapply (H j i); [done|done|lia].
Qed.

(** The masks make the signedness of [char] irrelevant. *)
Definition GetUtf16FromUtf8 (ptr : list byte) : option (Z * list byte) :=
  '(one, ptr) ← head_tail ptr;
  if negb (Z.land one 0x80 =? 0) then
    '(two, ptr) ← head_tail ptr;
    if negb (Z.land one 0x20 =? 0) then
      '(three, ptr) ← head_tail ptr;
      Some (u16 (Z.lor (Z.lor (Z.shiftl (Z.land one 0x0f) 12) (Z.shiftl (Z.land two 0x3f) 6)) (Z.land three 0x3f)), ptr)
    else Some (u16 (Z.lor (Z.shiftl (Z.land one 0x1f) 6) (Z.land two 0x3f)), ptr)
  else Some (u16 one, ptr).

(** Each round consumes a byte of both strings. *)
Fixpoint Utf8Cmp_loop (fuel : nat) (s1 s2 : list byte) : option Z :=
  match fuel with
  | O => None
  | S fuel =>
      c1 ← head s1; c2 ← head s2;
      if c1 =? 0 then if c2 =? 0 then Some 0 else Some (-1)
      else if c2 =? 0 then Some 1
      else
        '(utf1, s1) ← GetUtf16FromUtf8 s1;
        '(utf2, s2) ← GetUtf16FromUtf8 s2;
        let diff := utf1 - utf2 in
        if negb (diff =? 0) then Some diff else Utf8Cmp_loop fuel s1 s2
  end.
Definition Utf8Cmp (s1 s2 : list byte) : option Z := Utf8Cmp_loop (length s1) s1 s2.

(** ** The modified UTF-8 encoding *)

Definition encode_unit (u : Z) : list byte :=
  if (1 <=? u) && (u <? 0x80) then [u]
  else if u <? 0x800 then [Z.lor 0xC0 (Z.shiftr u 6); Z.lor 0x80 (Z.land u 0x3f)]
  else [Z.lor 0xE0 (Z.shiftr u 12); Z.lor 0x80 (Z.land (Z.shiftr u 6) 0x3f); Z.lor 0x80 (Z.land u 0x3f)].
Definition mutf8 (us : list Z) : list byte := concat (map encode_unit us) ++ [0].
Definition units_ok (us : list Z) : Prop := Forall (in_word 16) us.

Lemma get_utf16_app s rest v s' : GetUtf16FromUtf8 s = Some (v, s') ->
  GetUtf16FromUtf8 (s ++ rest) = Some (v, s' ++ rest).
Proof.
  unfold GetUtf16FromUtf8. destruct s as [|one s]; [done|]. cbn [app head_tail mbind option_bind].
  destruct (negb (Z.land one 0x80 =? 0)); [|by intros [= <- <-]].
  destruct s as [|two s]; [done|]. cbn [app head_tail mbind option_bind].
  destruct (negb (Z.land one 0x20 =? 0)); [|by intros [= <- <-]].
  destruct s as [|three s]; [done|]. cbn [app head_tail mbind option_bind]. by intros [= <- <-].
Qed.

(** Decoding an encoded unit, whose first byte is not the terminator. *)
Lemma decode_unit u rest : in_word 16 u ->
  GetUtf16FromUtf8 (encode_unit u ++ rest) = Some (u, rest) /\
  exists c, head (encode_unit u ++ rest) = Some c /\ (c =? 0) = false.
Proof.
  unfold in_word. intros Hu.
  pose (P := fun u => match GetUtf16FromUtf8 (encode_unit u), encode_unit u with
    | Some (v, []), c :: _ => (v =? u) && negb (c =? 0) | _, _ => false end).
  assert (H : forallb (fun h => forallb (fun l => P (256 * Z.of_nat h + Z.of_nat l)) (seq 0 256)) (seq 0 256) = true)
    by (vm_compute; reflexivity).
  rewrite forallb_forall in H. specialize (H (Z.to_nat (u / 256)) ltac:(apply in_seq; Z.to_euclidean_division_equations; lia)).
  cbv beta in H. rewrite forallb_forall in H.
  specialize (H (Z.to_nat (u mod 256)) ltac:(apply in_seq; Z.to_euclidean_division_equations; lia)). cbv beta in H.
  rewrite !Z2Nat.id in H by (Z.to_euclidean_division_equations; lia). rewrite <- Z.div_mod in H by done. unfold P in H.
  destruct (GetUtf16FromUtf8 (encode_unit u)) as [[v [|]]|] eqn:E; try discriminate H.
  destruct (encode_unit u) as [|c t] eqn:Eu; [discriminate H|].
  apply andb_true_iff in H as [->%Z.eqb_eq Hc%negb_true_iff]. split.
  - apply (get_utf16_app _ rest) in E. exact E.
  - exists c. by split.
Qed.

Lemma mutf8_cons u us : mutf8 (u :: us) = encode_unit u ++ mutf8 us.
Proof. unfold mutf8. cbn. by rewrite app_assoc. Qed.

Lemma length_mutf8 us : units_ok us -> (length us < length (mutf8 us))%nat.
Proof.
  induction 1 as [|u us Hu _ IH]; [cbn; lia|]. rewrite mutf8_cons, length_app.
  destruct (decode_unit u [] Hu) as [_ (c & Hc & _)]. rewrite app_nil_r in Hc.
  destruct (encode_unit u); [discriminate Hc|]. cbn [length]. lia.
Qed.

(** Comparing encodings compares the units; what follows is not read. *)
Lemma utf8cmp_units a b : units_ok a -> units_ok b -> forall fuel r1 r2, (length a < fuel)%nat ->
  Utf8Cmp_loop fuel (mutf8 a ++ r1) (mutf8 b ++ r2) = Some (lex_cmp a b).
Proof.
  intros Ha. revert b. induction Ha as [|x a Hx _ IH]; intros b Hb fuel r1 r2 Hf; (destruct fuel as [|fuel]; [lia|]);
    destruct Hb as [|y b Hy Hb]; cbn [Utf8Cmp_loop].
  - done.
  - rewrite mutf8_cons, <- app_assoc. destruct (decode_unit y (mutf8 b ++ r2) Hy) as [_ (c & -> & Hc)].
    cbn [mbind option_bind head mutf8 map concat app]. by rewrite Hc.
  - rewrite mutf8_cons, <- app_assoc. destruct (decode_unit x (mutf8 a ++ r1) Hx) as [_ (c & -> & Hc)].
    cbn [mbind option_bind head mutf8 map concat app]. by rewrite Hc.
  - rewrite !mutf8_cons, <- !app_assoc. destruct (decode_unit x (mutf8 a ++ r1) Hx) as [-> (c & -> & Hc)].
    destruct (decode_unit y (mutf8 b ++ r2) Hy) as [-> (c' & -> & Hc')]. cbn [mbind option_bind]. rewrite Hc, Hc'.
    cbn [lex_cmp]. destruct (Z.eqb_spec x y) as [->|N].
    + rewrite Z.sub_diag. cbn [Z.eqb negb]. apply IH; [done|]. cbn in Hf. lia.
    + by rewrite (proj2 (Z.eqb_neq _ _)) by lia.
Qed.

Lemma utf8cmp_mutf8 a b r1 r2 : units_ok a -> units_ok b ->
  Utf8Cmp (mutf8 a ++ r1) (mutf8 b ++ r2) = Some (lex_cmp a b).
Proof.
  intros Ha Hb. unfold Utf8Cmp. apply utf8cmp_units; [done|done|]. rewrite length_app.
  pose proof (length_mutf8 a Ha). lia.
Qed.
