(* ===== verification/DexIr.v ===== *)
(** The intermediate representation of a dex file and its normalisation:
    [slicer/dex_ir.h], [dex_ir.cc].

    A node that has an index in a table of the image (string, type, field, method,
    prototype, class) is named by its original index, which the reader and the
    builders map to nodes one to one. Any other node is named by its position in
    the vector that owns it; encoded values and the annotations nested in them are
    trees. A node that does not exist reads as the zeroed memory that [calloc]
    gives a new one. *)
From S2P Require Import Prelude Leb128 SlicerBuffer DexBytecode DexCode DexValue DexDebug DexTry DexOrder.

(** ** Nodes *)

Record Type_ := { descriptor : Z; class_def : option Z }.
Record Proto := { shorty : Z; return_type : Z; param_types : option nat }.
Record FieldDecl := { f_name : Z; f_type : Z; f_parent : Z }.
Record MethodDecl := { m_name : Z; m_prototype : Z; m_parent : Z }.
Record EncodedField := { f_decl : Z; f_access_flags : Z }.
Record EncodedMethod := { m_decl : Z; m_code : option nat; m_access_flags : Z }.

Record Code := {
  registers : Z; ins_count : Z; outs_count : Z;
  instructions : list Z; try_blocks : list TryBlock; catch_handlers : list byte;
  code_debug_info : option nat
}.

Record Annotation := { a_type : Z; elements : list (Z * EncodedValue); visibility : Z }.
(** The lists pair a declaration with an annotation set, or for parameters with a
    list of sets. *)
Record AnnotationsDirectory := {
  class_annotation : option nat;
  field_annotations : list (Z * nat); method_annotations : list (Z * nat); param_annotations : list (Z * nat)
}.

Record Class_ := {
  c_type : Z; c_access_flags : Z; super_class : option Z; interfaces : option nat; source_file : option Z;
  c_annotations : option nat; static_init : option nat;
  static_fields : list EncodedField; instance_fields : list EncodedField;
  direct_methods : list EncodedMethod; virtual_methods : list EncodedMethod
}.

(** The node behind each original index. A string is its ["string_data_item"]. *)
Record node_maps := {
  string_nodes : gmap Z (list byte); type_nodes : gmap Z Type_; proto_nodes : gmap Z Proto;
  field_nodes : gmap Z FieldDecl; method_nodes : gmap Z MethodDecl; class_nodes : gmap Z Class_
}.

(** The owning vectors of the other nodes. *)
Record data_nodes := {
  type_lists : list (list Z); codes : list Code; debug_infos : list DebugInfo;
  encoded_arrays : list (list EncodedValue); annotations : list Annotation;
  annotation_sets : list (list nat); annotation_set_ref_lists : list (list nat);
  annotations_directories : list AnnotationsDirectory
}.

(** The owning vectors of the indexed nodes. *)
Record tables := {
  strings : list Z; types : list Z; protos : list Z; fields : list Z; methods : list Z
}.

(** The [index] members are kept apart from the nodes. *)
Record DexFile := {
  tbl : tables; indexes : index_maps; classes : list Z; class_index : gmap Z Z;
  nodes : node_maps; data_ : data_nodes; magic : list byte
}.

Definition items_of (t : tables) (k : item) : list Z :=
  match k with
  | StringItem => strings t | TypeItem => types t | FieldItem => fields t
  | MethodItem => methods t | ProtoItem => protos t
  end.
Definition set_items (k : item) (v : list Z) (t : tables) : tables :=
  {| strings := if decide (k = StringItem) then v else strings t;
     types := if decide (k = TypeItem) then v else types t;
     protos := if decide (k = ProtoItem) then v else protos t;
     fields := if decide (k = FieldItem) then v else fields t;
     methods := if decide (k = MethodItem) then v else methods t |}.
Definition set_map (k : item) (m : gmap Z Z) (ix : index_maps) : index_maps :=
  {| strings_map := if decide (k = StringItem) then m else strings_map ix;
     types_map := if decide (k = TypeItem) then m else types_map ix;
     fields_map := if decide (k = FieldItem) then m else fields_map ix;
     methods_map := if decide (k = MethodItem) then m else methods_map ix;
     protos_map := if decide (k = ProtoItem) then m else protos_map ix |}.

Definition set_table (k : item) (v : list Z) (m : gmap Z Z) (ir : DexFile) : DexFile :=
  {| tbl := set_items k v (tbl ir); indexes := set_map k m (indexes ir); classes := classes ir;
     class_index := class_index ir; nodes := nodes ir; data_ := data_ ir; magic := magic ir |}.
Definition set_classes (v : list Z) (m : gmap Z Z) (ir : DexFile) : DexFile :=
  {| tbl := tbl ir; indexes := indexes ir; classes := v; class_index := m;
     nodes := nodes ir; data_ := data_ ir; magic := magic ir |}.
Definition set_nodes (n : node_maps) (d : data_nodes) (ir : DexFile) : DexFile :=
  {| tbl := tbl ir; indexes := indexes ir; classes := classes ir; class_index := class_index ir;
     nodes := n; data_ := d; magic := magic ir |}.

(** ** Access *)

Definition index_in (m : gmap Z Z) (x : Z) : Z := default 0 (m !! x).
Definition index_of (ix : index_maps) (k : item) (x : Z) : Z := index_in (map_of ix k) x.

Section Access.
Context (n : node_maps) (d : data_nodes).

(** [String::c_str]. *)
Definition c_str (s : Z) : list byte :=
  match ReadULeb128 (default [] (string_nodes n !! s)) with Some (_, str) => str | None => [] end.
Definition type_node (t : Z) : Type_ := default {| descriptor := 0; class_def := None |} (type_nodes n !! t).
Definition proto_node (p : Z) : Proto :=
  default {| shorty := 0; return_type := 0; param_types := None |} (proto_nodes n !! p).
Definition field_node (f : Z) : FieldDecl := default {| f_name := 0; f_type := 0; f_parent := 0 |} (field_nodes n !! f).
Definition method_node (m : Z) : MethodDecl :=
  default {| m_name := 0; m_prototype := 0; m_parent := 0 |} (method_nodes n !! m).
Definition class_node (c : Z) : Class_ :=
  default {| c_type := 0; c_access_flags := 0; super_class := None; interfaces := None; source_file := None;
             c_annotations := None; static_init := None; static_fields := []; instance_fields := [];
             direct_methods := []; virtual_methods := [] |} (class_nodes n !! c).
(** The types of a type list, none for a null one. *)
Definition types_in (l : option nat) : list Z :=
  match l with Some l => default [] (type_lists d !! l) | None => [] end.
End Access.

(** ** Comparators *)

Definition Comp (i j : Z) : Z := if i <? j then -1 else if j <? i then 1 else 0.

Fixpoint lexicographical_compare (less : Z -> Z -> bool) (a b : list Z) : bool :=
  match a, b with
  | _, [] => false
  | [], _ :: _ => true
  | x :: a, y :: b => if less x y then true else if less y x then false else lexicographical_compare less a b
  end.

Section Compare.
Context (n : node_maps) (d : data_nodes) (ix : index_maps).

Definition compare_strings (a b : Z) : Z := default 0 (Utf8Cmp (c_str n a) (c_str n b)).
Definition compare_types (a b : Z) : Z :=
  Comp (index_of ix StringItem (descriptor (type_node n a))) (index_of ix StringItem (descriptor (type_node n b))).
Definition compare_protos (a b : Z) : Z :=
  let ra := index_of ix TypeItem (return_type (proto_node n a)) in
  let rb := index_of ix TypeItem (return_type (proto_node n b)) in
  if negb (ra =? rb) then Comp ra rb
  else
    let less t1 t2 := index_of ix TypeItem t1 <? index_of ix TypeItem t2 in
    if lexicographical_compare less (types_in d (param_types (proto_node n a))) (types_in d (param_types (proto_node n b)))
    then -1 else 1.
Definition compare_fields (a b : Z) : Z :=
  let fa := field_node n a in let fb := field_node n b in
  let type := index_of ix TypeItem in let string := index_of ix StringItem in
  if negb (type (f_parent fa) =? type (f_parent fb)) then Comp (type (f_parent fa)) (type (f_parent fb))
  else if negb (string (f_name fa) =? string (f_name fb)) then Comp (string (f_name fa)) (string (f_name fb))
  else Comp (type (f_type fa)) (type (f_type fb)).
Definition compare_methods (a b : Z) : Z :=
  let ma := method_node n a in let mb := method_node n b in
  let type := index_of ix TypeItem in let string := index_of ix StringItem in
  if negb (type (m_parent ma) =? type (m_parent mb)) then Comp (type (m_parent ma)) (type (m_parent mb))
  else if negb (string (m_name ma) =? string (m_name mb)) then Comp (string (m_name ma)) (string (m_name mb))
  else Comp (index_of ix ProtoItem (m_prototype ma)) (index_of ix ProtoItem (m_prototype mb)).
Definition compare_encoded_fields (a b : EncodedField) : Z :=
  Comp (index_of ix FieldItem (f_decl a)) (index_of ix FieldItem (f_decl b)).
Definition compare_encoded_methods (a b : EncodedMethod) : Z :=
  Comp (index_of ix MethodItem (m_decl a)) (index_of ix MethodItem (m_decl b)).
Definition compare_elements (a b : Z * EncodedValue) : Z :=
  Comp (index_of ix StringItem a.1) (index_of ix StringItem b.1).
Definition compare_annotations (a b : nat) : Z :=
  let type a := default 0 (a_type <$> (annotations d !! a)) in
  Comp (index_of ix TypeItem (type a)) (index_of ix TypeItem (type b)).
(** [FieldAnnotation] by its field, the other two by their methods. *)
Definition compare_decls (k : item) (a b : Z * nat) : Z := Comp (index_of ix k a.1) (index_of ix k b.1).
End Compare.

(** ** Normalisation *)

(** Sort, and number in order. *)
Fixpoint number (i : Z) (items : list Z) (m : gmap Z Z) : gmap Z Z :=
  match items with
  | [] => m
  | x :: items => number (i + 1) items (<[x := u32 i]> m)
  end.
Definition compare_items (ir : DexFile) (k : item) : Z -> Z -> Z :=
  match k with
  | StringItem => compare_strings (nodes ir)
  | TypeItem => compare_types (nodes ir) (indexes ir)
  | ProtoItem => compare_protos (nodes ir) (data_ ir) (indexes ir)
  | FieldItem => compare_fields (nodes ir) (indexes ir)
  | MethodItem => compare_methods (nodes ir) (indexes ir)
  end.
Definition IndexItems (k : item) (ir : DexFile) : DexFile :=
  let items := qsort (compare_items ir k) (items_of (tbl ir) k) in
  set_table k items (number 0 items (map_of (indexes ir) k)) ir.

(** [dex::u4(-1)]. *)
Definition unvisited : Z := u32 (-1).

Section TopSort.
Context (ndebug : bool) (ir : DexFile).

(** The classes that must precede: those this file defines among the superclass
    and the interfaces, in order. *)
Definition class_deps (c : Z) : list Z :=
  let cl := class_node (nodes ir) c in
  omap (fun t => class_def (type_node (nodes ir) t))
    (match super_class cl with Some t => [t] | None => [] end ++ types_in (data_ ir) (interfaces cl)).

(** The indexes and [nextIndex]. The recursion is as deep as the class hierarchy. *)
Fixpoint TopSortClassIndex (fuel : nat) (irClass : Z) (st : gmap Z Z * Z) : option (gmap Z Z * Z) :=
  match fuel with
  | O => None
  | S fuel =>
      if index_in st.1 irClass =? unvisited then
        '(index, nextIndex) ← foldl (fun st dep => st ← st; TopSortClassIndex fuel dep st) (Some st) (class_deps irClass);
        SLICER_CHECK ndebug (nextIndex <? Z.of_nat (length (classes ir))) ;;
        Some (<[irClass := nextIndex]> index, u32 (nextIndex + 1))
      else Some st
  end.

Definition SortClassIndexes (fuel : nat) : option (gmap Z Z) :=
  let index := foldl (fun index c => <[c := unvisited]> index) (class_index ir) (classes ir) in
  '(index, _) ← foldl (fun st c => st ← st; TopSortClassIndex fuel c st) (Some (index, 0)) (classes ir);
  Some index.
End TopSort.

Definition compare_classes (index : gmap Z Z) (a b : Z) : Z := Comp (index_in index a) (index_in index b).

Definition NormalizeClass (ix : index_maps) (c : Class_) : Class_ :=
  {| c_type := c_type c; c_access_flags := c_access_flags c; super_class := super_class c;
     interfaces := interfaces c; source_file := source_file c; c_annotations := c_annotations c;
     static_init := static_init c;
     static_fields := qsort (compare_encoded_fields ix) (static_fields c);
     instance_fields := qsort (compare_encoded_fields ix) (instance_fields c);
     direct_methods := qsort (compare_encoded_methods ix) (direct_methods c);
     virtual_methods := qsort (compare_encoded_methods ix) (virtual_methods c) |}.

(** The nested annotations are owned by the same vector and sorted in the same
    loop. *)
Fixpoint normalize_value (ix : index_maps) (v : EncodedValue) : EncodedValue :=
  match v with
  | EArray vs => EArray (map (normalize_value ix) vs)
  | EAnnotation t es => EAnnotation t (qsort (compare_elements ix) (map (fun e => (e.1, normalize_value ix e.2)) es))
  | _ => v
  end.
Definition normalize_annotation (ix : index_maps) (a : Annotation) : Annotation :=
  {| a_type := a_type a; visibility := visibility a;
     elements := qsort (compare_elements ix) (map (fun e => (e.1, normalize_value ix e.2)) (elements a)) |}.
Definition normalize_directory (ix : index_maps) (dir : AnnotationsDirectory) : AnnotationsDirectory :=
  {| class_annotation := class_annotation dir;
     field_annotations := qsort (compare_decls ix FieldItem) (field_annotations dir);
     method_annotations := qsort (compare_decls ix MethodItem) (method_annotations dir);
     param_annotations := qsort (compare_decls ix MethodItem) (param_annotations dir) |}.

Definition normalize_nodes (ir : DexFile) : DexFile :=
  let n := nodes ir in let d := data_ ir in let ix := indexes ir in
  set_nodes
    {| string_nodes := string_nodes n; type_nodes := type_nodes n; proto_nodes := proto_nodes n;
       field_nodes := field_nodes n; method_nodes := method_nodes n;
       class_nodes := NormalizeClass ix <$> class_nodes n |}
    {| type_lists := type_lists d; codes := codes d; debug_infos := debug_infos d;
       encoded_arrays := map (map (normalize_value ix)) (encoded_arrays d);
       annotations := map (normalize_annotation ix) (annotations d);
       annotation_sets := map (qsort (compare_annotations d ix)) (annotation_sets d);
       annotation_set_ref_lists := annotation_set_ref_lists d;
       annotations_directories := map (normalize_directory ix) (annotations_directories d) |} ir.

(** One level of the hierarchy for each class, and one for the test that ends the
    recursion. *)
Definition Normalize (ndebug : bool) (ir : DexFile) : option DexFile :=
  let ir := IndexItems MethodItem (IndexItems FieldItem (IndexItems ProtoItem (IndexItems TypeItem (IndexItems StringItem ir)))) in
  index ← SortClassIndexes ndebug ir (S (length (classes ir)));
  let items := qsort (compare_classes index) (classes ir) in
  Some (normalize_nodes (set_classes items (number 0 items index) ir)).
