(* ===== verification/DexIrSpec.v ===== *)
(** What [Normalize] promises: the string, type, prototype, field and method
    tables in the order that the dex format demands, and the numbering by
    position. *)
From stdpp Require Import sorting.
From S2P Require Import Prelude Leb128 SlicerBuffer DexBytecode DexCode DexValue DexDebug DexTry.
From S2P Require Import DexOrder DexIr.

(** ** Keys *)

(** The code units up to the terminator. *)
Fixpoint decode_units (fuel : nat) (s : list byte) : list Z :=
  match fuel with
  | O => []
  | S fuel =>
      match head s, GetUtf16FromUtf8 s with
      | Some c, Some (u, s) => if c =? 0 then [] else u :: decode_units fuel s
      | _, _ => []
      end
  end.
Definition string_units (n : node_maps) (s : Z) : list Z := decode_units (length (c_str n s)) (c_str n s).
Definition string_ok (n : node_maps) (s : Z) : Prop := exists us rest, units_ok us /\ c_str n s = mutf8 us ++ rest.

(** What each table is sorted by. *)
Definition key (ir : DexFile) (k : item) (x : Z) : list Z :=
  let n := nodes ir in let idx := index_of (indexes ir) in
  match k with
  | StringItem => string_units n x
  | TypeItem => [idx StringItem (descriptor (type_node n x))]
  | ProtoItem =>
      idx TypeItem (return_type (proto_node n x)) ::
      map (idx TypeItem) (types_in (data_ ir) (param_types (proto_node n x)))
  | FieldItem =>
      let f := field_node n x in [idx TypeItem (f_parent f); idx StringItem (f_name f); idx TypeItem (f_type f)]
  | MethodItem =>
      let m := method_node n x in [idx TypeItem (m_parent m); idx StringItem (m_name m); idx ProtoItem (m_prototype m)]
  end.

(** A table sorted strictly by its key and numbered by position. *)
Record ordered (ir : DexFile) (k : item) : Prop := {
  ord_sorted : StronglySorted (fun a b => lex_lt (key ir k a) (key ir k b)) (items_of (tbl ir) k);
  ord_index : forall i x, items_of (tbl ir) k !! i = Some x -> index_of (indexes ir) k x = Z.of_nat i }.

(** References stay inside the tables, and no two nodes of a table are the same
    item. *)
Record ir_ok (ir : DexFile) : Prop := {
  ok_length : forall k, Z.of_nat (length (items_of (tbl ir) k)) < 2 ^ 32;
  ok_strings : Forall (string_ok (nodes ir)) (strings (tbl ir));
  ok_strings_nodup : NoDup (string_units (nodes ir) <$> strings (tbl ir));
  ok_types : Forall (fun t => descriptor (type_node (nodes ir) t) ∈ strings (tbl ir)) (types (tbl ir));
  ok_types_nodup : NoDup ((fun t => descriptor (type_node (nodes ir) t)) <$> types (tbl ir));
  ok_protos : Forall (fun p => let p := proto_node (nodes ir) p in
    return_type p ∈ types (tbl ir) /\ Forall (.∈ types (tbl ir)) (types_in (data_ ir) (param_types p))) (protos (tbl ir));
  ok_protos_nodup : NoDup ((fun p => let p := proto_node (nodes ir) p in
    return_type p :: types_in (data_ ir) (param_types p)) <$> protos (tbl ir));
  ok_fields : Forall (fun f => let f := field_node (nodes ir) f in
    f_parent f ∈ types (tbl ir) /\ f_name f ∈ strings (tbl ir) /\ f_type f ∈ types (tbl ir)) (fields (tbl ir));
  ok_fields_nodup : NoDup ((fun f => let f := field_node (nodes ir) f in [f_parent f; f_name f; f_type f]) <$> fields (tbl ir));
  ok_methods : Forall (fun m => let m := method_node (nodes ir) m in
    m_parent m ∈ types (tbl ir) /\ m_name m ∈ strings (tbl ir) /\ m_prototype m ∈ protos (tbl ir)) (methods (tbl ir));
  ok_methods_nodup :
    NoDup ((fun m => let m := method_node (nodes ir) m in [m_parent m; m_name m; m_prototype m]) <$> methods (tbl ir)) }.

Lemma decode_mutf8 us : units_ok us -> forall fuel rest, (length us < fuel)%nat -> decode_units fuel (mutf8 us ++ rest) = us.
Proof.
  induction 1 as [|u us Hu _ IH]; intros fuel rest Hf; (destruct fuel as [|fuel]; [lia|]); [done|].
  rewrite mutf8_cons, <- app_assoc. cbn [decode_units].
  destruct (decode_unit u (mutf8 us ++ rest) Hu) as [-> (c & -> & ->)]. cbn in Hf. by rewrite IH by lia.
Qed.

Lemma string_units_ok n s : string_ok n s -> exists rest, units_ok (string_units n s) /\ c_str n s = mutf8 (string_units n s) ++ rest.
Proof.
  intros (us & rest & Hu & E). unfold string_units. rewrite E.
  rewrite (decode_mutf8 us) by (done || (rewrite length_app; pose proof (length_mutf8 us Hu); lia)). by exists rest.
Qed.

(** ** The comparators compare keys *)

Lemma lex_lt_cons x a y b : lex_lt (x :: a) (y :: b) <-> x < y \/ x = y /\ lex_lt a b.
Proof. unfold lex_lt. cbn. destruct (Z.eqb_spec x y); lia. Qed.
Lemma lex_lt_nil a : ~ lex_lt a [].
Proof. destruct a; unfold lex_lt; cbn; lia. Qed.

Lemma Comp_lt i j : Comp i j < 0 <-> i < j.
Proof. unfold Comp. destruct (Z.ltb_spec i j), (Z.ltb_spec j i); lia. Qed.

Lemma lexicographical_compare_lt (f : Z -> Z) a b :
  lexicographical_compare (fun x y => f x <? f y) a b = true <-> lex_lt (map f a) (map f b).
Proof.
  revert b. induction a as [|x a IH]; intros [|y b]; cbn [lexicographical_compare map];
    try (unfold lex_lt; cbn; intuition (congruence || lia)).
  rewrite lex_lt_cons. destruct (Z.ltb_spec (f x) (f y)); [intuition lia|].
  destruct (Z.ltb_spec (f y) (f x)); [intuition (congruence || lia)|]. rewrite IH. intuition lia.
Qed.

Lemma compare_strings_key n l : Forall (string_ok n) l -> compares_keys (compare_strings n) (string_units n) l.
Proof.
  intros Hl a b Ha Hb. rewrite Forall_forall in Hl. unfold compare_strings, lex_lt.
  destruct (string_units_ok n a (Hl a Ha)) as (ra & Ua & ->). destruct (string_units_ok n b (Hl b Hb)) as (rb & Ub & ->).
  by rewrite utf8cmp_mutf8.
Qed.

Lemma compare_items_key ir k : ir_ok ir -> compares_keys (compare_items ir k) (key ir k) (items_of (tbl ir) k).
Proof.
  intros Hok. destruct k; cbn [items_of compare_items].
  - apply compare_strings_key, Hok.
  - intros a b _ _. unfold compare_types, key. rewrite Comp_lt, lex_lt_cons. pose proof (lex_lt_nil []). tauto.
  - intros a b _ _. unfold compare_fields, key. cbv zeta. rewrite !lex_lt_cons. pose proof (lex_lt_nil []) as N.
    repeat match goal with |- context [?x =? ?y] => destruct (Z.eqb_spec x y) end; cbn [negb]; rewrite Comp_lt; intuition lia.
  - intros a b _ _. unfold compare_methods, key. cbv zeta. rewrite !lex_lt_cons. pose proof (lex_lt_nil []) as N.
    repeat match goal with |- context [?x =? ?y] => destruct (Z.eqb_spec x y) end; cbn [negb]; rewrite Comp_lt; intuition lia.
  - intros a b _ _. unfold compare_protos, key. cbv zeta. rewrite lex_lt_cons.
    destruct (Z.eqb_spec (index_of (indexes ir) TypeItem (return_type (proto_node (nodes ir) a)))
      (index_of (indexes ir) TypeItem (return_type (proto_node (nodes ir) b)))); cbn [negb]; [|rewrite Comp_lt; lia].
    rewrite <- lexicographical_compare_lt. destruct (lexicographical_compare _ _ _); intuition lia.
Qed.

(** ** One table *)

Lemma number_index l : forall i m x, NoDup l ->
  index_in (number i l m) x = match list_find (x =.) l with Some (j, _) => u32 (i + Z.of_nat j) | None => index_in m x end.
Proof.
  induction l as [|y l IH]; intros i m x Hn; [done|]. apply NoDup_cons in Hn as [Hy Hn]. cbn [number]. rewrite IH by done.
  cbn [list_find]. destruct (decide (x = y)) as [->|N].
  - assert (E : list_find (y =.) l = None) by (apply list_find_None, Forall_forall; intros z Hz ->; done).
    rewrite E, Z.add_0_r. unfold index_in. by rewrite lookup_insert_eq.
  - destruct (list_find (x =.) l) as [[j z]|]; cbn; [f_equal; lia|]. unfold index_in. by rewrite lookup_insert_ne.
Qed.

Lemma number_position l m i x : NoDup l -> Z.of_nat (length l) < 2 ^ 32 -> l !! i = Some x ->
  index_in (number 0 l m) x = Z.of_nat i.
Proof.
  intros Hn Hl Hi. rewrite number_index by done. assert (E : list_find (x =.) l = Some (i, x)).
  { apply list_find_Some. split_and!; [done|done|]. intros j y Hj Hlt ->. pose proof (NoDup_lookup _ _ _ _ Hn Hi Hj). lia. }
  rewrite E. apply lookup_lt_Some in Hi. apply trunc_small. lia.
Qed.

Lemma items_set_same k v t : items_of (set_items k v t) k = v.
Proof. by destruct k. Qed.
Lemma items_set_other k k' v t : k <> k' -> items_of (set_items k v t) k' = items_of t k'.
Proof. by destruct k, k'. Qed.
Lemma map_set_same k m ix : map_of (set_map k m ix) k = m.
Proof. by destruct k. Qed.
Lemma map_set_other k k' m ix : k <> k' -> map_of (set_map k m ix) k' = map_of ix k'.
Proof. by destruct k, k'. Qed.

Lemma index_items_perm k k' ir : items_of (tbl (IndexItems k ir)) k' ≡ₚ items_of (tbl ir) k'.
Proof.
  unfold IndexItems. cbn [tbl set_table]. destruct (decide (k = k')) as [->|N].
  - rewrite items_set_same. apply qsort_perm.
  - by rewrite items_set_other.
Qed.

(** The order in which the tables are sorted; a key looks at earlier tables. *)
Definition stage (k : item) : nat :=
  match k with StringItem => 0 | TypeItem => 1 | ProtoItem => 2 | FieldItem => 3 | MethodItem => 4 end.
Lemma key_later k k' ir x : (stage k' <= stage k)%nat -> key (IndexItems k ir) k' x = key ir k' x.
Proof. destruct k, k'; cbn [stage]; intros H; solve [lia | reflexivity]. Qed.

Lemma ir_ok_index k ir : ir_ok ir -> ir_ok (IndexItems k ir).
Proof.
  intros Hok. pose proof (index_items_perm k) as Hp.
  pose proof (Hp StringItem ir) as Hs. pose proof (Hp TypeItem ir) as Ht. pose proof (Hp ProtoItem ir) as Hpr.
  pose proof (Hp FieldItem ir) as Hf. pose proof (Hp MethodItem ir) as Hm. cbn [items_of] in *.
  destruct Hok. constructor; cbn [nodes data_ IndexItems set_table]; try (setoid_rewrite Hs); try (setoid_rewrite Ht);
    try (setoid_rewrite Hpr); try (setoid_rewrite Hf); try (setoid_rewrite Hm); try done.
  intros k'. by rewrite Hp.
Qed.

Lemma NoDup_fmap_on {A B C} (f : A -> B) (g : A -> C) l :
  (forall x y, x ∈ l -> y ∈ l -> g x = g y -> f x = f y) -> NoDup (f <$> l) -> NoDup (g <$> l).
Proof.
  induction l as [|x l IH]; intros H Hn; [constructor|]. cbn in *. apply NoDup_cons in Hn as [Hx Hn]. constructor.
  - intros (y & E & Hy)%list_elem_of_fmap. apply Hx. rewrite (H x y) by (done || (by left) || by right).
    by apply list_elem_of_fmap_2.
  - apply IH; [|done]. intros; apply H; try (by right); done.
Qed.

(** Positions identify the items of an ordered table. *)
Lemma ordered_inj ir k x y : ordered ir k -> x ∈ items_of (tbl ir) k -> y ∈ items_of (tbl ir) k ->
  index_of (indexes ir) k x = index_of (indexes ir) k y -> x = y.
Proof.
  intros Ho (i & Hi)%list_elem_of_lookup (j & Hj)%list_elem_of_lookup E.
  rewrite (ord_index _ _ Ho i x Hi), (ord_index _ _ Ho j y Hj) in E. assert (i = j) by lia. congruence.
Qed.
Lemma ordered_inj_list ir k a b : ordered ir k -> Forall (.∈ items_of (tbl ir) k) a -> Forall (.∈ items_of (tbl ir) k) b ->
  map (index_of (indexes ir) k) a = map (index_of (indexes ir) k) b -> a = b.
Proof.
  intros Ho Ha. revert b. induction Ha as [|x a Hx _ IH]; intros [|y b] Hb E; try done.
  apply Forall_cons in Hb as [Hy Hb]. cbn in E. injection E as E1 E2. f_equal; [by eapply ordered_inj|by apply IH].
Qed.

Ltac table_elem := match goal with
  | H : Forall _ ?l, Hx : ?x ∈ ?l |- _ => rewrite Forall_forall in H; pose proof (H x Hx); clear Hx
  end.

Lemma key_nodup ir k : ir_ok ir -> (forall k', (stage k' < stage k)%nat -> ordered ir k') ->
  NoDup (key ir k <$> items_of (tbl ir) k).
Proof.
  intros Hok Hlow. pose proof (fun k' H x y => ordered_inj ir k' x y (Hlow k' H)) as Inj.
  pose proof (Inj StringItem) as Is. pose proof (Inj TypeItem) as It. pose proof (Inj ProtoItem) as Ip. clear Inj.
  destruct Hok. destruct k; cbn [stage items_of] in *.
  - done.
  - eapply NoDup_fmap_on; [|eassumption]. intros x y Hx Hy [= E]. rewrite Forall_forall in ok_types0.
    apply Is; [lia|by apply ok_types0|by apply ok_types0|done].
  - eapply NoDup_fmap_on; [|eassumption]. intros x y Hx Hy [= E1 E2 E3]. rewrite Forall_forall in ok_fields0.
    destruct (ok_fields0 x Hx) as (X1 & X2 & X3), (ok_fields0 y Hy) as (Y1 & Y2 & Y3).
    f_equal; [apply It; by try lia|]. f_equal; [apply Is; by try lia|]. f_equal. apply It; by try lia.
  - eapply NoDup_fmap_on; [|eassumption]. intros x y Hx Hy [= E1 E2 E3]. rewrite Forall_forall in ok_methods0.
    destruct (ok_methods0 x Hx) as (X1 & X2 & X3), (ok_methods0 y Hy) as (Y1 & Y2 & Y3).
    f_equal; [apply It; by try lia|]. f_equal; [apply Is; by try lia|]. f_equal. apply Ip; by try lia.
  - eapply NoDup_fmap_on; [|eassumption]. intros x y Hx Hy [= E1 E2]. rewrite Forall_forall in ok_protos0.
    destruct (ok_protos0 x Hx) as (X1 & X2), (ok_protos0 y Hy) as (Y1 & Y2).
    f_equal; [apply It; by try lia|]. eapply (ordered_inj_list ir TypeItem); [apply Hlow; cbn; lia|done|done|done].
Qed.

Lemma index_items_ordered k ir : ir_ok ir -> (forall k', (stage k' < stage k)%nat -> ordered ir k') ->
  ir_ok (IndexItems k ir) /\ forall k', (stage k' <= stage k)%nat -> ordered (IndexItems k ir) k'.
Proof.
  intros Hok Hlow. split; [by apply ir_ok_index|]. intros k' Hle.
  pose proof (key_nodup ir k Hok Hlow) as Hn. pose proof (compare_items_key ir k Hok) as Hc.
  destruct (decide (k' = k)) as [->|N].
  - constructor.
    + pose proof (qsort_strict _ _ _ Hc Hn) as Hs. cbn [tbl IndexItems set_table]. rewrite items_set_same.
      eapply sorted_impl; [|exact Hs]. intros a b. by rewrite !key_later.
    + intros i x. cbn [tbl IndexItems set_table indexes]. unfold index_of. rewrite items_set_same, map_set_same.
      apply number_position.
      * rewrite qsort_perm. by apply NoDup_fmap_1 in Hn.
      * rewrite qsort_perm. apply Hok.
  - assert (Hlt : (stage k' < stage k)%nat) by (destruct k, k'; cbn in *; (done || lia)).
    destruct (Hlow k' Hlt) as [Hs Hi]. constructor; cbn [tbl IndexItems set_table indexes]; rewrite items_set_other by done.
    + eapply sorted_impl; [|exact Hs]. intros a b. by rewrite !key_later.
    + intros i x E. unfold index_of. rewrite map_set_other by done. by apply Hi.
Qed.

(** The five tables together. *)
Definition index_tables (ir : DexFile) : DexFile :=
  IndexItems MethodItem (IndexItems FieldItem (IndexItems ProtoItem (IndexItems TypeItem (IndexItems StringItem ir)))).

Lemma index_tables_ordered ir : ir_ok ir ->
  ir_ok (index_tables ir) /\ (forall k, ordered (index_tables ir) k) /\
  (forall k, items_of (tbl (index_tables ir)) k ≡ₚ items_of (tbl ir) k).
Proof.
  intros H. unfold index_tables.
  destruct (index_items_ordered StringItem ir H) as [H1 O1]; [intros k' L; cbn in L; lia|].
  destruct (index_items_ordered TypeItem _ H1) as [H2 O2]; [intros k' L; apply O1; cbn in *; lia|].
  destruct (index_items_ordered ProtoItem _ H2) as [H3 O3]; [intros k' L; apply O2; cbn in *; lia|].
  destruct (index_items_ordered FieldItem _ H3) as [H4 O4]; [intros k' L; apply O3; cbn in *; lia|].
  destruct (index_items_ordered MethodItem _ H4) as [H5 O5]; [intros k' L; apply O4; cbn in *; lia|].
  split; [done|]. split; [intros k; apply O5; destruct k; cbn; lia|]. intros k. by rewrite !index_items_perm.
Qed.
