(* ===== verification/DexTopSort.v ===== *)
(** The numbering of the classes: a depth-first topological sort. *)
From stdpp Require Import sorting.
From S2P Require Import Prelude SlicerBuffer DexCode DexOrder DexIr DexIrSpec.

(** The list has every class behind the classes it depends on. *)
Definition topological (deps : Z -> list Z) (l : list Z) : Prop :=
  forall i c d, l !! i = Some c -> d ∈ deps c -> exists j, (j < i)%nat /\ l !! j = Some d.

(** [foldl] over a state that may fail. *)
Lemma fold_None {A B} (f : A -> B -> option A) l : foldl (fun st b => st ← st; f st b) None l = None.
Proof. by induction l. Qed.

Section TopSort.
Context (nd : bool) (ir : DexFile).

Local Abbreviation deps := (class_deps ir).
Local Abbreviation visit fuel l init := (foldl (fun st c => st ← st; TopSortClassIndex nd ir fuel c st) init l).

(** The classes numbered so far, in order. *)
Record numbered (st : gmap Z Z * Z) (order : list Z) : Prop := {
  num_nodup : NoDup order; num_classes : Forall (.∈ classes ir) order;
  num_next : st.2 = Z.of_nat (length order);
  num_index : forall i c, order !! i = Some c -> index_in st.1 c = Z.of_nat i;
  num_rest : forall c, c ∈ classes ir -> c ∉ order -> index_in st.1 c = unvisited;
  num_top : topological deps order }.

Section Order.
Context (o : list Z) (Ho : o ≡ₚ classes ir) (Hn : NoDup (classes ir)) (Htop : topological deps o)
  (Hl : Z.of_nat (length (classes ir)) < 2 ^ 32 - 1).

(** The position in [o]. *)
Definition rank (c : Z) : nat := match list_find (c =.) o with Some (i, _) => i | None => 0 end.

Lemma rank_spec i c : o !! i = Some c -> rank c = i.
Proof.
  intros Hi. assert (NoDup o) by (by rewrite Ho). unfold rank.
  assert (E : list_find (c =.) o = Some (i, c)); [|by rewrite E].
  apply list_find_Some. split_and!; [done|done|]. intros j y Hj Hlt ->.
  pose proof (NoDup_lookup _ _ _ _ H Hi Hj). lia.
Qed.

Lemma rank_dep c d : c ∈ classes ir -> d ∈ deps c -> d ∈ classes ir /\ (rank d < rank c)%nat.
Proof.
  rewrite <- Ho. intros (i & Hi)%list_elem_of_lookup Hd. destruct (Htop i c d Hi Hd) as (j & Hj & Ej).
  split; [by eapply list_elem_of_lookup_2|]. by rewrite (rank_spec i c Hi), (rank_spec j d Ej).
Qed.

Lemma rank_bound c : c ∈ classes ir -> (rank c < length (classes ir))%nat.
Proof.
  rewrite <- Ho. intros (i & Hi)%list_elem_of_lookup. rewrite (rank_spec i c Hi). by eapply lookup_lt_Some.
Qed.

Lemma numbered_length st order : numbered st order -> (length order <= length (classes ir))%nat.
Proof.
  intros H. apply NoDup_incl_length; [apply NoDup_ListNoDup, H|]. intros c Hc.
  pose proof (num_classes _ _ H) as F. rewrite Forall_forall in F. apply list_elem_of_In, F. by apply list_elem_of_In.
Qed.

Lemma numbered_in st order c : numbered st order -> c ∈ classes ir ->
  (index_in st.1 c =? unvisited) = negb (bool_decide (c ∈ order)).
Proof.
  intros H Hc. destruct (decide (c ∈ order)) as [E|E].
  - rewrite bool_decide_true by done. apply list_elem_of_lookup in E as (i & Hi). rewrite (num_index _ _ H i c Hi).
    apply Z.eqb_neq. apply lookup_lt_Some in Hi. pose proof (numbered_length st order H).
    change unvisited with 4294967295. lia.
  - rewrite bool_decide_false by done. by rewrite (num_rest _ _ H c Hc E).
Qed.

(** Numbering one more class whose dependencies are numbered. *)
Lemma numbered_snoc index next order c : numbered (index, next) order -> c ∈ classes ir -> c ∉ order ->
  Forall (.∈ order) (deps c) ->
  next < Z.of_nat (length (classes ir)) /\ numbered (<[c := next]> index, u32 (next + 1)) (order ++ [c]).
Proof.
  intros H Hc Hno Hd.
  assert (Hsnoc : NoDup (order ++ [c])).
  { apply NoDup_app. split_and!; [apply H| |apply NoDup_singleton]. intros x Hx ->%list_elem_of_singleton. done. }
  assert (Hle : (length (order ++ [c]) <= length (classes ir))%nat).
  { apply NoDup_incl_length; [by apply NoDup_ListNoDup|]. intros x [Hx|[<-|[]]]%in_app_iff; [|by apply list_elem_of_In].
    pose proof (num_classes _ _ H) as F. rewrite Forall_forall in F. apply list_elem_of_In, F. by apply list_elem_of_In. }
  rewrite length_app in Hle. cbn [length] in Hle. pose proof (num_next _ _ H) as En. cbn [snd] in En. split; [lia|].
  constructor; cbn [fst snd].
  - done.
  - apply Forall_app. split; [apply H|by apply Forall_singleton].
  - rewrite trunc_small by lia. rewrite length_app. cbn [length]. lia.
  - intros i x Hi. unfold index_in. destruct (decide (i < length order)%nat) as [L|L].
    + rewrite lookup_app_l in Hi by done. rewrite lookup_insert_ne by (intros ->; apply Hno; by eapply list_elem_of_lookup_2).
      by apply (num_index _ _ H).
    + rewrite lookup_app_r in Hi by lia. apply list_lookup_singleton_Some in Hi as [Hi <-].
      rewrite lookup_insert_eq. cbn. lia.
  - intros x Hx Hnot. assert (x <> c /\ x ∉ order) as [Nc No].
    { split; [intros ->|intros Hx']; apply Hnot; apply elem_of_app; [right; by apply list_elem_of_singleton|by left]. }
    unfold index_in. rewrite lookup_insert_ne by done. by apply (num_rest _ _ H).
  - intros i x d Hi Hdx. destruct (decide (i < length order)%nat) as [L|L].
    + rewrite lookup_app_l in Hi by done. destruct (num_top _ _ H i x d Hi Hdx) as (j & Hj & Ej). exists j.
      split; [done|]. by apply lookup_app_l_Some.
    + rewrite lookup_app_r in Hi by lia. apply list_lookup_singleton_Some in Hi as [Hi <-].
      rewrite Forall_forall in Hd. destruct (proj1 (list_elem_of_lookup _ _) (Hd d Hdx)) as (j & Ej). exists j.
      pose proof (lookup_lt_Some _ _ _ Ej). split; [lia|]. by apply lookup_app_l_Some.
Qed.

(** A list of classes below [r], if each call does its work. *)
Lemma visit_list fuel r l :
  (forall c st order, c ∈ l -> numbered st order -> exists st' new, TopSortClassIndex nd ir fuel c st = Some st' /\
     numbered st' (order ++ new) /\ c ∈ order ++ new /\ Forall (fun x => (rank x <= rank c)%nat) new) ->
  Forall (fun c => (rank c < r)%nat) l -> forall st order, numbered st order ->
  exists st' new, visit fuel l (Some st) = Some st' /\ numbered st' (order ++ new) /\ Forall (.∈ order ++ new) l /\
    Forall (fun x => (rank x < r)%nat) new.
Proof.
  intros IH Hr. revert IH. induction Hr as [|c l Hc _ IHl]; intros IH st order H.
  { exists st, []. rewrite app_nil_r. split_and!; [done|done|constructor|constructor]. }
  destruct (IH c st order) as (st1 & new1 & E1 & N1 & C1 & R1); [by left|done|].
  destruct (IHl (fun c' st' o' H' => IH c' st' o' (list_elem_of_further _ _ _ H')) st1 (order ++ new1) N1)
    as (st' & new & E & N' & C' & R').
  exists st', (new1 ++ new). rewrite app_assoc. cbn [foldl mbind option_bind]. rewrite E1.
  split_and!; [exact E|exact N'| |].
  - constructor; [by apply elem_of_app; left|done].
  - apply Forall_app. split; [|done]. eapply Forall_impl; [exact R1|]. intros x Hx. cbv beta in *. lia.
Qed.

Lemma top_sort_class fuel : forall c st order, c ∈ classes ir -> (rank c < fuel)%nat -> numbered st order ->
  exists st' new, TopSortClassIndex nd ir fuel c st = Some st' /\ numbered st' (order ++ new) /\ c ∈ order ++ new /\
    Forall (fun x => (rank x <= rank c)%nat) new.
Proof.
  induction fuel as [|fuel IH]; intros c st order Hc Hf H; [lia|]. cbn [TopSortClassIndex].
  rewrite (numbered_in st order c H Hc). destruct (decide (c ∈ order)) as [E|E].
  { rewrite bool_decide_true by done. exists st, []. rewrite app_nil_r. split_and!; [done|done|done|constructor]. }
  rewrite bool_decide_false by done. cbn [negb].
  assert (Hdeps : forall d, d ∈ deps c -> d ∈ classes ir /\ (rank d < rank c)%nat) by (intros d; by apply rank_dep).
  destruct (visit_list fuel (rank c) (deps c)) with (st := st) (order := order) as ([index next] & new & Ev & Nv & Cv & Rv).
  - intros d st' o' Hd H'. destruct (Hdeps d Hd). apply IH; [done|lia|done].
  - apply Forall_forall. intros d Hd. by apply Hdeps.
  - done.
  - rewrite Ev. cbn [mbind option_bind]. destruct (numbered_snoc index next (order ++ new) c Nv Hc) as [Hnext Hs].
    + intros [Hx|Hx]%elem_of_app; [done|]. rewrite Forall_forall in Rv. specialize (Rv c Hx). cbv beta in Rv. lia.
    + done.
    + rewrite SLICER_CHECK_true by (apply Z.ltb_lt; exact Hnext). cbn [mbind option_bind].
      eexists _, (new ++ [c]). split; [reflexivity|]. rewrite app_assoc. split_and!; [exact Hs| |].
      * apply elem_of_app. right. by apply list_elem_of_singleton.
      * apply Forall_app. split; [|by apply Forall_singleton]. eapply Forall_impl; [exact Rv|]. intros x Hx. cbv beta in *. lia.
Qed.

Lemma unvisited_all l m c : index_in (foldl (fun index c => <[c := unvisited]> index) m l) c =
  if bool_decide (c ∈ l) then unvisited else index_in m c.
Proof.
  revert m. induction l as [|x l IH]; intros m; [done|]. cbn [foldl]. rewrite IH.
  destruct (decide (c ∈ l)) as [E|E].
  - rewrite !bool_decide_true by (done || by right). done.
  - rewrite (bool_decide_false (c ∈ l)) by done. destruct (decide (c = x)) as [->|N].
    + rewrite bool_decide_true by (by left). unfold index_in. by rewrite lookup_insert_eq.
    + rewrite bool_decide_false by (intros [|]%elem_of_cons; done). unfold index_in. by rewrite lookup_insert_ne.
Qed.

Lemma sort_class_indexes fuel : (length (classes ir) <= fuel)%nat ->
  exists index order, SortClassIndexes nd ir fuel = Some index /\ order ≡ₚ classes ir /\ topological deps order /\
    forall i c, order !! i = Some c -> index_in index c = Z.of_nat i.
Proof.
  intros Hf. unfold SortClassIndexes. set (m := foldl _ (class_index ir) (classes ir)).
  assert (H0 : numbered (m, 0) []).
  { constructor; [apply NoDup_nil_2|apply Forall_nil_2|done|done| |done]. intros c Hc _. cbn [fst]. unfold m.
    rewrite unvisited_all. by rewrite bool_decide_true. }
  destruct (visit_list fuel (length (classes ir)) (classes ir)) with (st := (m, 0)) (order := @nil Z)
    as ([index next] & order & E & H & C & _).
  - intros c st order Hc H. apply top_sort_class; [done| |done]. pose proof (rank_bound c Hc). lia.
  - apply Forall_forall. intros c. apply rank_bound.
  - done.
  - rewrite E. cbn [mbind option_bind]. exists index, order. split; [done|]. cbn [app] in *. split_and!.
    + apply NoDup_Permutation; [apply H|done|]. intros c. pose proof (num_classes _ _ H) as F.
      rewrite Forall_forall in F, C. split; [apply F|apply C].
    + apply H.
    + apply H.
Qed.
End Order.

(** A set of classes each of which depends on one of the set is never numbered:
    the recursion does not end. *)
Section Cycle.
Context (C : list Z) (HC : forall c, c ∈ C -> exists d, d ∈ deps c /\ d ∈ C).

Definition pending (st : gmap Z Z * Z) : Prop := forall c, c ∈ C -> index_in st.1 c = unvisited.

Lemma visit_pending fuel l :
  (forall c st st', pending st -> TopSortClassIndex nd ir fuel c st = Some st' -> (c ∉ C) /\ pending st') ->
  forall st st', pending st -> visit fuel l (Some st) = Some st' -> Forall (.∉ C) l /\ pending st'.
Proof.
  intros IH. induction l as [|c l IHl]; intros st st' Hp; cbn [foldl mbind option_bind].
  - intros [= <-]. by split; [constructor|].
  - destruct (TopSortClassIndex nd ir fuel c st) as [st1|] eqn:E; [|by rewrite fold_None].
    destruct (IH c st st1 Hp E) as [Hc H1]. intros E'. destruct (IHl st1 st' H1 E'). by split; [constructor|].
Qed.

Lemma top_sort_pending fuel : forall c st st', pending st -> TopSortClassIndex nd ir fuel c st = Some st' ->
  (c ∉ C) /\ pending st'.
Proof.
  induction fuel as [|fuel IH]; intros c st st' Hp; cbn [TopSortClassIndex]; [done|].
  destruct (Z.eqb_spec (index_in st.1 c) unvisited) as [U|U].
  - intros ([index next] & Ev & H)%bind_Some. destruct (visit_pending fuel _ IH _ _ Hp Ev) as [Hd Hp1].
    assert (Hc : c ∉ C). { intros Hc. destruct (HC c Hc) as (d & D1 & D2). rewrite Forall_forall in Hd. by apply (Hd d). }
    apply bind_Some in H as (_ & _ & [= <-]). split; [done|]. intros x Hx. cbn [fst]. unfold index_in.
    rewrite lookup_insert_ne by (intros ->; done). by apply Hp1.
  - intros [= <-]. split; [|done]. intros Hc. by apply U, Hp.
Qed.

Lemma sort_cycle fuel c : c ∈ C -> C ⊆ classes ir -> SortClassIndexes nd ir fuel = None.
Proof.
  intros Hc Hsub. unfold SortClassIndexes. set (m := foldl _ (class_index ir) (classes ir)).
  destruct (visit fuel (classes ir) (Some (m, 0))) as [st|] eqn:E; [|done]. exfalso.
  destruct (visit_pending fuel (classes ir) (top_sort_pending fuel) (m, 0) st) as [Hd _]; [|done|].
  - intros x Hx. cbn [fst]. unfold m. rewrite unvisited_all. rewrite bool_decide_true; [done|]. by apply Hsub.
  - rewrite Forall_forall in Hd. by apply (Hd c); [apply Hsub|].
Qed.
End Cycle.
End TopSort.
