(* ===== verification/DexNormalize.v ===== *)
(** [Normalize] as a whole: what the normalised representation is. *)
From stdpp Require Import sorting.
From S2P Require Import Prelude SlicerBuffer DexBytecode DexCode DexValue DexValueSpec DexOrder DexIr DexIrSpec DexTopSort.

(** Sorted by an index, strictly or not. *)
Definition ascending {A} (f : A -> Z) (l : list A) : Prop := StronglySorted (fun a b => f a < f b) l.
Definition ascending_eq {A} (f : A -> Z) (l : list A) : Prop := StronglySorted (fun a b => f a <= f b) l.

Lemma qsort_ascending_eq {A} (cmp : A -> A -> Z) (f : A -> Z) l : (forall a b, cmp a b = Comp (f a) (f b)) ->
  ascending_eq f (qsort cmp l).
Proof.
  intros H. eapply sorted_impl; [|apply (qsort_sorted cmp (fun a => [f a]))].
  - intros a b. unfold lex_le. cbn. destruct (Z.eqb_spec (f a) (f b)); lia.
  - intros a b _ _. rewrite H, Comp_lt, lex_lt_cons. pose proof (lex_lt_nil []). tauto.
Qed.

Lemma qsort_ascending {A} (cmp : A -> A -> Z) (f : A -> Z) l : (forall a b, cmp a b = Comp (f a) (f b)) ->
  NoDup (f <$> l) -> ascending f (qsort cmp l).
Proof.
  intros H Hn. eapply sorted_impl; [|apply (qsort_strict cmp (fun a => [f a]))].
  - intros a b. rewrite lex_lt_cons. pose proof (lex_lt_nil []). tauto.
  - intros a b _ _. rewrite H, Comp_lt, lex_lt_cons. pose proof (lex_lt_nil []). tauto.
  - eapply NoDup_fmap_on; [|exact Hn]. intros x y _ _ [= E]. exact E.
Qed.

(** ** The class hierarchy and the members *)

(** A definition order exists, and class indexes do not reach the marker. *)
Record hierarchy_ok (ir : DexFile) : Prop := {
  hier_nodup : NoDup (classes ir);
  hier_length : Z.of_nat (length (classes ir)) < 2 ^ 32 - 1;
  hier_order : exists o, o ≡ₚ classes ir /\ topological (class_deps ir) o }.

(** Every class lists declarations of the tables, each once. *)
Definition decls_ok (ir : DexFile) (k : item) (l : list Z) : Prop := NoDup l /\ Forall (.∈ items_of (tbl ir) k) l.
Definition members_ok (ir : DexFile) : Prop := map_Forall (fun _ c =>
  decls_ok ir FieldItem (map f_decl (static_fields c)) /\ decls_ok ir FieldItem (map f_decl (instance_fields c)) /\
  decls_ok ir MethodItem (map m_decl (direct_methods c)) /\ decls_ok ir MethodItem (map m_decl (virtual_methods c)))
  (class_nodes (nodes ir)).

(** [c'] is [c] with its members sorted by their indexes. *)
Record class_sorted (ix : index_maps) (c c' : Class_) : Prop := {
  cs_type : c_type c' = c_type c; cs_flags : c_access_flags c' = c_access_flags c;
  cs_super : super_class c' = super_class c; cs_interfaces : interfaces c' = interfaces c;
  cs_source : source_file c' = source_file c; cs_annotations : c_annotations c' = c_annotations c;
  cs_static_init : static_init c' = static_init c;
  cs_static : static_fields c' ≡ₚ static_fields c /\
    ascending (fun f => index_of ix FieldItem (f_decl f)) (static_fields c');
  cs_instance : instance_fields c' ≡ₚ instance_fields c /\
    ascending (fun f => index_of ix FieldItem (f_decl f)) (instance_fields c');
  cs_direct : direct_methods c' ≡ₚ direct_methods c /\
    ascending (fun m => index_of ix MethodItem (m_decl m)) (direct_methods c');
  cs_virtual : virtual_methods c' ≡ₚ virtual_methods c /\
    ascending (fun m => index_of ix MethodItem (m_decl m)) (virtual_methods c') }.

(** Annotations, outermost or nested, have their elements sorted by name. *)
Fixpoint value_sorted (ix : index_maps) (v : EncodedValue) : Prop :=
  match v with
  | EArray vs => foldr and True (map (value_sorted ix) vs)
  | EAnnotation _ es =>
      ascending_eq (fun e => index_of ix StringItem e.1) es /\ foldr and True (map (fun e => value_sorted ix e.2) es)
  | _ => True
  end.

Record normalized (ir ir' : DexFile) : Prop := {
  nm_perm : forall k, items_of (tbl ir') k ≡ₚ items_of (tbl ir) k;
  nm_ordered : forall k, ordered ir' k;
  nm_classes : classes ir' ≡ₚ classes ir;
  nm_class_index : forall i c, classes ir' !! i = Some c -> index_in (class_index ir') c = Z.of_nat i;
  nm_topological : topological (class_deps ir') (classes ir');
  nm_members : map_Forall (fun k c => exists c', class_nodes (nodes ir') !! k = Some c' /\ class_sorted (indexes ir') c c')
    (class_nodes (nodes ir));
  nm_sets : Forall (ascending_eq (fun a => index_of (indexes ir') TypeItem (default 0 (a_type <$> (annotations (data_ ir') !! a)))))
    (annotation_sets (data_ ir'));
  nm_elements : Forall (fun a => value_sorted (indexes ir') (EAnnotation (a_type a) (elements a)))
    (annotations (data_ ir'));
  nm_values : Forall (fun vs => value_sorted (indexes ir') (EArray vs)) (encoded_arrays (data_ ir'));
  nm_directories : Forall (fun d => ascending_eq (fun e => index_of (indexes ir') FieldItem e.1) (field_annotations d) /\
      ascending_eq (fun e => index_of (indexes ir') MethodItem e.1) (method_annotations d) /\
      ascending_eq (fun e => index_of (indexes ir') MethodItem e.1) (param_annotations d))
    (annotations_directories (data_ ir')) }.

Lemma foldr_and (Ps : list Prop) : foldr and True Ps <-> Forall id Ps.
Proof. induction Ps as [|P Ps IH]; [split; [constructor|done]|]. cbn. by rewrite IH, Forall_cons. Qed.

Lemma elements_sorted ix t es : Forall (fun e => value_sorted ix (normalize_value ix e.2)) es ->
  value_sorted ix (EAnnotation t (qsort (compare_elements ix) (map (fun e => (e.1, normalize_value ix e.2)) es))).
Proof.
  intros H. cbn [value_sorted]. split; [by apply qsort_ascending_eq|].
  rewrite foldr_and, Forall_map, qsort_perm, Forall_map. exact H.
Qed.
Lemma normalize_value_sorted ix v : value_sorted ix (normalize_value ix v).
Proof.
  induction v using EncodedValue_ind; try exact I.
  - cbn [normalize_value value_sorted]. by rewrite foldr_and, !Forall_map.
  - by apply elements_sorted.
Qed.

Lemma sort_decls {A} ir k (decl : A -> Z) cmp l : ordered ir k -> decls_ok ir k (map decl l) ->
  (forall a b, cmp a b = Comp (index_of (indexes ir) k (decl a)) (index_of (indexes ir) k (decl b))) ->
  qsort cmp l ≡ₚ l /\ ascending (fun a => index_of (indexes ir) k (decl a)) (qsort cmp l).
Proof.
  intros Ho [Hn Hin] Hc. split; [apply qsort_perm|]. apply qsort_ascending; [exact Hc|].
  eapply NoDup_fmap_on; [|exact Hn]. intros x y Hx Hy E. rewrite Forall_forall in Hin.
  eapply (ordered_inj ir k); [exact Ho| | |exact E]; apply Hin; by apply list_elem_of_fmap_2.
Qed.

Lemma normalize_class_sorted ir c : (forall k, ordered ir k) ->
  decls_ok ir FieldItem (map f_decl (static_fields c)) /\ decls_ok ir FieldItem (map f_decl (instance_fields c)) /\
  decls_ok ir MethodItem (map m_decl (direct_methods c)) /\ decls_ok ir MethodItem (map m_decl (virtual_methods c)) ->
  class_sorted (indexes ir) c (NormalizeClass (indexes ir) c).
Proof.
  intros Ho (H1 & H2 & H3 & H4). constructor; try reflexivity; cbn [static_fields instance_fields direct_methods virtual_methods NormalizeClass].
  - by apply (sort_decls ir FieldItem f_decl).
  - by apply (sort_decls ir FieldItem f_decl).
  - by apply (sort_decls ir MethodItem m_decl).
  - by apply (sort_decls ir MethodItem m_decl).
Qed.

Lemma decls_ok_perm ir ir' k l : items_of (tbl ir') k ≡ₚ items_of (tbl ir) k -> decls_ok ir k l -> decls_ok ir' k l.
Proof. intros P [Hn Hl]. split; [done|]. eapply Forall_impl; [exact Hl|]. intros x. by rewrite P. Qed.

(** The classes in the order of their indexes. *)
Lemma classes_sorted ir index order : order ≡ₚ classes ir -> topological (class_deps ir) order -> NoDup (classes ir) ->
  Z.of_nat (length (classes ir)) < 2 ^ 32 -> (forall i c, order !! i = Some c -> index_in index c = Z.of_nat i) ->
  let items := qsort (compare_classes index) (classes ir) in
  items ≡ₚ classes ir /\ (forall i c, items !! i = Some c -> index_in (number 0 items index) c = Z.of_nat i) /\
  topological (class_deps ir) items.
Proof.
  intros Hp Ht Hn Hl Hi items. assert (P : items ≡ₚ classes ir) by apply qsort_perm.
  assert (Hord : forall c, c ∈ classes ir -> exists i, order !! i = Some c).
  { intros c. rewrite <- Hp. apply list_elem_of_lookup. }
  assert (Ha : ascending (index_in index) items).
  { apply qsort_ascending; [done|]. rewrite <- Hp. eapply NoDup_fmap_on; [|rewrite list_fmap_id; by rewrite Hp].
    intros x y (i & Ei)%list_elem_of_lookup (j & Ej)%list_elem_of_lookup E. rewrite (Hi i x Ei), (Hi j y Ej) in E.
    assert (i = j) by lia. cbn. congruence. }
  split; [done|]. split.
  - intros i c Hc. apply number_position; [by rewrite P|by rewrite P|done].
  - intros i c d Hc Hd. assert (Hcc : c ∈ classes ir) by (rewrite <- P; by eapply list_elem_of_lookup_2).
    destruct (Hord c Hcc) as (ic & Eic). destruct (Ht ic c d Eic Hd) as (jd & Hlt & Ejd).
    assert (Hdd : d ∈ items) by (rewrite P, <- Hp; by eapply list_elem_of_lookup_2).
    apply list_elem_of_lookup in Hdd as (j & Ej). exists j. split; [|done].
    assert (St : StrictOrder (fun a b => index_in index a < index_in index b)).
    { split; [intros a H; cbv beta in H; lia|intros a b e; cbv beta; lia]. }
    apply (sorted_positions (fun a b => index_in index a < index_in index b) items j i d c Ha Ej Hc).
    rewrite (Hi ic c Eic), (Hi jd d Ejd). lia.
Qed.

Lemma class_deps_normalized ir ir' : type_nodes (nodes ir') = type_nodes (nodes ir) ->
  type_lists (data_ ir') = type_lists (data_ ir) ->
  class_nodes (nodes ir') = NormalizeClass (indexes ir') <$> class_nodes (nodes ir) ->
  forall c, class_deps ir' c = class_deps ir c.
Proof.
  intros Ht Hl Hc c. unfold class_deps, types_in, type_node, class_node. rewrite Ht, Hl, Hc, lookup_fmap.
  by destruct (class_nodes (nodes ir) !! c).
Qed.

Lemma normalize_ok nd ir : ir_ok ir -> hierarchy_ok ir -> members_ok ir ->
  exists ir', Normalize nd ir = Some ir' /\ normalized ir ir'.
Proof.
  intros Hok [Hn Hl (o & Ho & Ht)] Hm. destruct (index_tables_ordered ir Hok) as (Hok1 & Hord & Hperm).
  unfold Normalize. fold (index_tables ir). cbv zeta. set (ir1 := index_tables ir) in *.
  destruct (sort_class_indexes nd ir1 o Ho Hn Ht Hl (S (length (classes ir1))) ltac:(lia)) as (index & order & E & Po & To & Io).
  rewrite E. cbn [mbind option_bind]. eexists. split; [reflexivity|].
  destruct (classes_sorted ir1 index order Po To Hn ltac:(change (classes ir1) with (classes ir); lia) Io) as (Pc & Ic & Tc).
  set (items := qsort (compare_classes index) (classes ir1)) in *.
  constructor; cbn [normalize_nodes set_nodes set_classes tbl indexes classes class_index nodes data_ class_nodes
    annotation_sets annotations annotations_directories encoded_arrays].
  - exact Hperm.
  - intros k. destruct (Hord k) as [Hs Hi]. constructor; [|exact Hi]. eapply sorted_impl; [|exact Hs].
    intros a b. by destruct k.
  - exact Pc.
  - exact Ic.
  - intros i c d Hc Hd. apply (Tc i c d Hc). erewrite <- class_deps_normalized; [exact Hd|reflexivity|reflexivity|reflexivity].
  - intros k c Hc. exists (NormalizeClass (indexes ir1) c). split.
    + change (class_nodes (nodes ir1)) with (class_nodes (nodes ir)). by rewrite lookup_fmap, Hc.
    + apply normalize_class_sorted; [exact Hord|]. destruct (Hm k c Hc) as (H1 & H2 & H3 & H4).
      pose proof (Hperm FieldItem) as Pf. pose proof (Hperm MethodItem) as Pm.
      split_and!; by eapply decls_ok_perm.
  - apply Forall_map, Forall_forall. intros l _. eapply sorted_impl; [|apply (qsort_ascending_eq _
      (fun a => index_of (indexes ir1) TypeItem (default 0 (a_type <$> (annotations (data_ ir1) !! a))))); reflexivity].
    intros a b. cbv beta. rewrite !list_lookup_fmap.
    by destruct (annotations (data_ ir1) !! a), (annotations (data_ ir1) !! b).
  - apply Forall_map, Forall_forall. intros a _. apply elements_sorted, Forall_forall. intros e _.
    apply normalize_value_sorted.
  - apply Forall_map, Forall_forall. intros vs _. apply (normalize_value_sorted (indexes ir1) (EArray vs)).
  - apply Forall_map, Forall_forall. intros d _. split_and!; apply qsort_ascending_eq; reflexivity.
Qed.

Lemma number_mapped x items : x ∈ items -> forall i m, is_Some (number i items m !! x).
Proof.
  intros Hx. assert (K : forall l i m, is_Some (m !! x) -> is_Some (number i l m !! x)).
  { induction l as [|y l IH]; intros i m H; [done|]. cbn [number]. apply IH. destruct (decide (y = x)) as [->|N];
      [rewrite lookup_insert_eq; eauto|by rewrite lookup_insert_ne]. }
  induction items as [|y l IH]; [by apply not_elem_of_nil in Hx|]. intros i m. cbn [number].
  apply elem_of_cons in Hx as [->|Hx]; [|by apply IH]. apply K. rewrite lookup_insert_eq. eauto.
Qed.
Lemma index_tables_mapped ir k x : x ∈ items_of (tbl (index_tables ir)) k -> is_Some (map_of (indexes (index_tables ir)) k !! x).
Proof. intros Hx. destruct k; apply number_mapped; exact Hx. Qed.
(** What [Normalize] leaves: tables in order, each entry with an index. *)
Lemma normalize_tables nd ir ir' : ir_ok ir -> Normalize nd ir = Some ir' ->
  ir_ok ir' /\ (forall k, ordered ir' k) /\ forall k x, x ∈ items_of (tbl ir') k -> is_Some (map_of (indexes ir') k !! x).
Proof.
  intros Hok H. destruct (index_tables_ordered ir Hok) as (Hok1 & Hord & _). pose proof (index_tables_mapped ir) as Hmap.
  unfold Normalize in H. fold (index_tables ir) in H. cbv zeta in H.
  revert Hok1 Hord Hmap H. generalize (index_tables ir) as ir1. clear ir Hok. intros ir [H1 H2 H3 H4 H5 H6 H7 H8 H9 H10 H11] Hord Hmap H.
  apply bind_Some in H as (index & _ & E). injection E as <-. split; [|split; [|exact Hmap]].
  - split; assumption.
  - intros k. destruct (Hord k) as [Hs Hi]. constructor; [|exact Hi]. eapply sorted_impl; [|exact Hs]. intros a b. by destruct k.
Qed.
