(* ===== verification/DexIrClaims.v ===== *)
(** Properties of the rewriting of dex data - encoded values, debug information and
    catch handlers - and of the intermediate representation: string order and
    normalisation. *)
From stdpp Require Import sorting.
From S2P Require Import Prelude Leb128 SlicerBuffer DexBytecode DexCode DexCodeSpec DexValue DexValueSpec DexDebug.
From S2P Require Import DexDebugSpec DexTry DexOrder DexIr DexIrSpec DexTopSort DexNormalize.

(** Two nodes of each kind: the old index 1 is the new 2, the old 2 the new 5. *)
Definition demo_map : gmap Z Z := <[1 := 2]> (<[2 := 5]> ∅).
Definition demo_ir : index_maps := {|
  strings_map := demo_map; types_map := demo_map; fields_map := demo_map;
  methods_map := demo_map; protos_map := demo_map |}.

(** C35: in a release build an encoded value is written whenever its numbers are in
    the ranges of their types and its indexes and counts in the ranges of their
    encodings; what is written reads back, whatever follows it, as the same value
    with the nodes' new indexes, and nothing behind it is read. Arrays and
    annotations nest without bound. *)
Theorem encoded_value_roundtrip index v : value_ok index v ->
  exists bs, WriteEncodedValue true index v = Some bs /\ (1 <= length bs)%nat /\
    forall nd fuel rest, (3 * length bs <= fuel)%nat ->
      ParseEncodedValue nd fuel (bs ++ rest) = Some (renumber index v, rest).
Proof. intros Hok. exact (value_roundtrip true index v Hok). Qed.

(** [{-300, "s", @T(n = 1.5f)}]: the array of an int, a string and an annotation. *)
Definition demo_value : EncodedValue :=
  EArray [EInt (-300); EString 7; EAnnotation 3 [(7, EFloat 0x3FC00000)]].

Lemma encoded_value_roundtrip_witness : exists bs,
  WriteEncodedValue true (fun _ i => i + 1) demo_value = Some bs /\
  ParseEncodedValue false (3 * length bs) (bs ++ [0xAA]) =
    Some (EArray [EInt (-300); EString 8; EAnnotation 4 [(8, EFloat 0x3FC00000)]], [0xAA]).
Proof.
  destruct (encoded_value_roundtrip (fun _ i => i + 1) demo_value) as (bs & Hw & _ & Hr).
  - repeat (constructor || (unfold indexed_as, in_signed, leb_count; cbn; lia)).
  - exists bs. split; [exact Hw|]. apply Hr. lia.
Defined.

(** C37: [Writer::WriteDebugInfo] renumbers debug information: when the line and
    the register numbers fit in 28 bits and every name and type that is present
    has a node with a new index that does, it writes an item with the same line,
    the same opcodes and the same operands, in which exactly the indexes are
    renumbered; [Reader::ExtractDebugInfo] takes that item back, stops at its end
    and visits the renumbered references. *)
Theorem debug_info_renumbers nd ir line names ops d :
  0 <= line < 2 ^ 28 -> leb_count (length names) -> stream_of d ops ->
  Forall (opt_fits ir StringItem) names -> Forall (op_fits ir) ops ->
  exists bs d', WriteDebugInfo nd ir {| line_start := line; param_names := names; data := d |} = Some bs /\
    stream_of d' (map (op_renamed ir) ops) /\
    forall rest, ExtractDebugInfo (bs ++ rest) =
      Some ({| line_start := line; param_names := map (opt_renamed ir StringItem) names; data := d' |},
            map (ref_renamed ir) (debug_refs names ops), rest).
Proof.
  intros Hl Hn Hd Hfn Hfo. destruct (write_debug nd ir line names ops d Hl Hn Hd Hfn Hfo) as (bs & d' & Hw & Hb).
  exists bs, d'. split; [exact Hw|]. split; [by inversion Hb|]. intros rest.
  rewrite (extract_debug _ _ _ _ _ rest Hb). by rewrite debug_renamed_refs.
Qed.

Lemma uleb_byte b : 0 <= b < 128 -> uleb_of [b] b.
Proof.
  intros H rest. by apply (proj1 (ReadULeb128_short rest)).
Qed.

(** A parameter without a name, [start_local v3, 1, 2], the special opcode 0x10. *)
Definition demo_ops : list dbg_op := [StartLocal 3 (Some 1) (Some 2); Plain 0x10].
Lemma demo_stream : stream_of [DBG_START_LOCAL; 3; 2; 3; 0x10; DBG_END_SEQUENCE] demo_ops.
Proof.
  apply (stream_op [DBG_START_LOCAL; 3; 2; 3] [0x10; DBG_END_SEQUENCE]).
  - apply (of_local [3] [2] [3]); [by apply uleb_byte| |]; (split; [by apply uleb_byte|]); change kNoIndex with 4294967295; lia.
  - apply (stream_op [0x10] [DBG_END_SEQUENCE]); [by apply of_plain|]. apply stream_end.
Qed.

Lemma debug_info_renumbers_witness : exists bs d',
  WriteDebugInfo false demo_ir {| line_start := 12; param_names := [None; Some 2];
    data := [DBG_START_LOCAL; 3; 2; 3; 0x10; DBG_END_SEQUENCE] |} = Some bs /\
  ExtractDebugInfo (bs ++ [1]) = Some ({| line_start := 12; param_names := [None; Some 5]; data := d' |},
    [(StringItem, 5); (StringItem, 2); (TypeItem, 5)], [1]).
Proof.
  destruct (debug_info_renumbers false demo_ir 12 [None; Some 2] demo_ops _ ltac:(lia) ltac:(unfold leb_count; cbn; lia) demo_stream)
    as (bs & d' & Hw & _ & Hr).
  - repeat (apply Forall_cons; split); [done| |by apply Forall_nil]. exists 5. split; [reflexivity|lia].
  - repeat (apply Forall_cons; split); [|done|by apply Forall_nil]. split; [lia|].
    split; [exists 2|exists 5]; (split; [reflexivity|lia]).
  - exists bs, d'. split; [exact Hw|]. exact (Hr [1]).
Defined.

(** C36: [Writer::WriteTryBlocks] keeps try blocks attached to their handlers:
    for a handler list as [Reader::ExtractCode] accepts it, whose types have
    nodes, and try blocks that point at handlers of it, it succeeds; the new list
    holds the same handlers with the types renumbered, each try block keeps its
    range and points at the same handler in the new list, and the reader visits
    the renumbered types. *)
Theorem try_blocks_relocated nd ir n hbs hs tries :
  list_of n hbs hs -> Forall (handler_fits ir) hs -> tries <> [] ->
  Z.of_nat (length (n ++ concat hbs)) < 2 ^ 16 -> Z.of_nat (handlers_room hs) < 2 ^ 16 ->
  Forall (has_handler n hbs) tries ->
  exists tries' n' hbs', WriteTryBlocks nd ir tries (n ++ concat hbs) = Some (tries', n' ++ concat hbs') /\
    list_of n' hbs' (map (handler_renamed ir) hs) /\ Forall2 (try_relocated n n' hbs hbs') tries tries' /\
    forall rest, ExtractHandlers (n' ++ concat hbs' ++ rest) =
      Some (concat (map handler_refs (map (handler_renamed ir) hs)), n' ++ concat hbs').
Proof.
  intros Hl Hf Hne Hlen Hroom Ht.
  destruct (write_tries nd ir n hbs hs tries Hl Hf Hne Hlen Hroom Ht) as (tries' & n' & hbs' & Hw & Hl' & Hr).
  exists tries', n', hbs'. split; [exact Hw|]. split; [exact Hl'|]. split; [exact Hr|]. intros rest.
  by apply extract_handlers.
Qed.

(** [catch (1) -> 9; catch all -> 17], and a try block on it. *)
Definition demo_handler : handler := {| catches := [(1, 9)]; catch_all := Some 17 |}.
Definition demo_handler_bytes : list byte := [0x7F] ++ ([1] ++ [9] ++ []) ++ [17].
Definition demo_try (off : Z) : TryBlock := {| start_addr := 4; insn_count := 3; handler_off := off |}.

Lemma demo_handler_of : handler_of demo_handler_bytes demo_handler.
Proof.
  apply handler_all; [|apply catches_cons; [by apply uleb_byte|by apply uleb_byte|apply catches_nil]|by apply uleb_byte].
  intros rest. reflexivity.
Qed.

Lemma try_blocks_relocated_witness : exists tries' n' hbs',
  WriteTryBlocks false demo_ir [demo_try 1] ([1] ++ concat [demo_handler_bytes]) = Some (tries', n' ++ concat hbs') /\
  list_of n' hbs' [{| catches := [(2, 9)]; catch_all := Some 17 |}].
Proof.
  destruct (try_blocks_relocated false demo_ir [1] [demo_handler_bytes] [demo_handler] [demo_try 1])
    as (tries' & n' & hbs' & Hw & Hl & _).
  - split; [by apply uleb_byte|]. apply Forall2_cons. split; [exact demo_handler_of|by apply Forall2_nil].
  - apply Forall_singleton. split; [unfold in_signed; cbn; lia|]. split; [|cbn; lia].
    apply Forall_singleton. split; [change kNoIndex with 4294967295; cbn; lia|]. split; [|cbn; lia].
    exists 2. split; [reflexivity|lia].
  - discriminate.
  - reflexivity.
  - reflexivity.
  - apply Forall_singleton. exists 0%nat. split; [cbn; lia|reflexivity].
  - exists tries', n', hbs'. split; [exact Hw|exact Hl].
Defined.

(** C40: [Utf8Cmp] is the comparison of UTF-16 code units: on the modified UTF-8
    encodings of two strings of units, embedded zeros and surrogates included, it
    terminates without reading behind either terminator and returns the first
    difference of the units, or tells the shorter string first; it is zero exactly
    on equal strings, and antisymmetric and transitive in its sign. *)
Theorem utf8cmp_utf16_order a b c r1 r2 r3 : units_ok a -> units_ok b -> units_ok c ->
  exists ab ba bc ac, Utf8Cmp (mutf8 a ++ r1) (mutf8 b ++ r2) = Some ab /\ Utf8Cmp (mutf8 b ++ r2) (mutf8 a ++ r1) = Some ba /\
    Utf8Cmp (mutf8 b ++ r2) (mutf8 c ++ r3) = Some bc /\ Utf8Cmp (mutf8 a ++ r1) (mutf8 c ++ r3) = Some ac /\
    ab = lex_cmp a b /\ (ab = 0 <-> a = b) /\ (ab < 0 <-> 0 < ba) /\ (ab < 0 -> bc < 0 -> ac < 0).
Proof.
  intros Ha Hb Hc. do 4 eexists. split_and!; try by apply utf8cmp_mutf8.
  - done.
  - apply lex_cmp_eq.
  - apply lex_cmp_flip.
  - apply lex_cmp_lt_trans.
Qed.

(** U+FFFD is behind the surrogate pair of U+1F600, which is before it in UTF-16
    although its code point is larger. *)
Lemma utf8cmp_utf16_order_witness : exists d, d < 0 /\
  Utf8Cmp (mutf8 [0xD83D; 0xDE00] ++ [1]) (mutf8 [0xFFFD] ++ [2]) = Some d.
Proof.
  destruct (utf8cmp_utf16_order [0xD83D; 0xDE00] [0xFFFD] [0xFFFD] [1] [2] []) as (ab & _ & _ & _ & H & _ & _ & _ & E & _).
  - repeat constructor; cbv; done.
  - repeat constructor; cbv; done.
  - repeat constructor; cbv; done.
  - exists ab. split; [rewrite E; reflexivity|exact H].
Defined.

(** Two classes, the second the superclass of the first; strings and types out of
    order. *)
Definition demo_file : DexFile := {|
  tbl := {| strings := [7; 3]; types := [0; 1]; protos := []; fields := []; methods := [] |};
  indexes := {| strings_map := ∅; types_map := ∅; fields_map := ∅; methods_map := ∅; protos_map := ∅ |};
  classes := [10; 11]; class_index := ∅;
  nodes := {| string_nodes := <[7 := [1; 66; 0]]> {[ 3 := [1; 65; 0] ]};
              type_nodes := <[0 := {| descriptor := 7; class_def := Some 10 |}]> {[ 1 := {| descriptor := 3; class_def := Some 11 |} ]};
              proto_nodes := ∅; field_nodes := ∅; method_nodes := ∅;
              class_nodes := <[10 := {| c_type := 0; c_access_flags := 1; super_class := Some 1; interfaces := None;
                source_file := None; c_annotations := None; static_init := None; static_fields := []; instance_fields := [];
                direct_methods := []; virtual_methods := [] |}]> ∅ |};
  data_ := {| type_lists := []; codes := []; debug_infos := []; encoded_arrays := []; annotations := [];
              annotation_sets := []; annotation_set_ref_lists := []; annotations_directories := [] |};
  magic := [] |}.

Lemma demo_file_ok : ir_ok demo_file.
Proof.
  constructor.
  - by intros [].
  - repeat (apply Forall_cons; split); [..|by apply Forall_nil].
    + exists [66], []. split; [repeat constructor; cbv; done|reflexivity].
    + exists [65], []. split; [repeat constructor; cbv; done|reflexivity].
  - by apply (bool_decide_unpack _).
  - by apply (bool_decide_unpack _).
  - by apply (bool_decide_unpack _).
  - by apply Forall_nil.
  - by apply NoDup_nil_2.
  - by apply Forall_nil.
  - by apply NoDup_nil_2.
  - by apply Forall_nil.
  - by apply NoDup_nil_2.
Qed.

Lemma demo_hierarchy_ok : hierarchy_ok demo_file.
Proof.
  constructor; [by apply (bool_decide_unpack _)|done|]. exists [11; 10]. split; [apply Permutation_swap|].
  intros [|[|[|i]]] c d Hc Hd; try discriminate Hc; injection Hc as <-.
  - vm_compute in Hd. by apply elem_of_nil in Hd.
  - change (class_deps demo_file 10) with [11] in Hd. apply list_elem_of_singleton in Hd as ->. exists 0%nat. split; [lia|reflexivity].
Qed.

(** C16: [DexFile::Normalize] brings the tables into the order that the dex format
    demands: for a file whose references stay inside its tables, whose items are
    distinct and whose classes can be defined in some order, it terminates without
    an abort; each table is a permutation of what it was, numbered by position and
    strictly sorted, strings by UTF-16 units, types by descriptor, prototypes by
    return and parameter types, fields and methods by class, name and type; each
    class stands behind its superclass and interfaces; the fields and methods of a
    class ascend strictly by index, and annotations, nested ones included, their
    sets and directories ascend. *)
Theorem normalize_sorts nd ir : ir_ok ir -> hierarchy_ok ir -> members_ok ir ->
  exists ir', Normalize nd ir = Some ir' /\ normalized ir ir'.
Proof. apply normalize_ok. Qed.

Lemma normalize_sorts_witness : exists ir', Normalize false demo_file = Some ir' /\ normalized demo_file ir'.
Proof.
  apply (normalize_sorts false demo_file demo_file_ok demo_hierarchy_ok).
  intros k c Hc. change (class_nodes (nodes demo_file)) with (<[10 := class_node (nodes demo_file) 10]> (∅ : gmap Z Class_)) in Hc.
  apply lookup_insert_Some in Hc as [[_ <-]|[_ Hc]]; [|done].
  split_and!; (split; [by apply NoDup_nil_2|by apply Forall_nil]).
Defined.

Definition demo_index_run : option (list Z * list Z * list Z) :=
  ir ← Normalize false demo_file; Some (strings (tbl ir), types (tbl ir), classes ir).
Example demo_index_run_result : demo_index_run = Some ([3; 7], [1; 0], [11; 10]).
Proof. vm_compute. reflexivity. Qed.

(** The numbering of classes terminates exactly when it can: if some order
    defines every class behind those it depends on, it returns such an order with
    one level of recursion for each class, and more do not change that it
    returns; if a set of classes exists each of which depends on a class of the
    set, a class that extends itself for one, it never returns, whatever the
    depth. *)
Theorem class_numbering_terminates nd ir :
  (forall fuel, hierarchy_ok ir -> (length (classes ir) <= fuel)%nat ->
     exists index order, SortClassIndexes nd ir fuel = Some index /\ order ≡ₚ classes ir /\
       topological (class_deps ir) order /\ forall i c, order !! i = Some c -> index_in index c = Z.of_nat i) /\
  (forall fuel C c, c ∈ C -> C ⊆ classes ir -> (forall c, c ∈ C -> exists d, d ∈ class_deps ir c /\ d ∈ C) ->
     SortClassIndexes nd ir fuel = None).
Proof.
  split.
  - intros fuel [Hn Hl (o & Ho & Ht)] Hf. by apply (sort_class_indexes nd ir o).
  - intros fuel C c Hc Hs HC. by apply (sort_cycle nd ir C HC fuel c).
Qed.

(** The superclass extends its subclass. *)
Definition cyclic_file : DexFile := set_nodes
  {| string_nodes := string_nodes (nodes demo_file); type_nodes := type_nodes (nodes demo_file);
     proto_nodes := ∅; field_nodes := ∅; method_nodes := ∅;
     class_nodes := <[11 := {| c_type := 1; c_access_flags := 1; super_class := Some 0; interfaces := None;
       source_file := None; c_annotations := None; static_init := None; static_fields := []; instance_fields := [];
       direct_methods := []; virtual_methods := [] |}]> (class_nodes (nodes demo_file)) |} (data_ demo_file) demo_file.

Lemma class_numbering_terminates_witness :
  (exists index order, SortClassIndexes false demo_file 2 = Some index /\ order ≡ₚ [10; 11] /\
     topological (class_deps demo_file) order /\ forall i c, order !! i = Some c -> index_in index c = Z.of_nat i) /\
  forall fuel, SortClassIndexes false cyclic_file fuel = None.
Proof.
  split.
  - apply (proj1 (class_numbering_terminates false demo_file) 2%nat demo_hierarchy_ok). cbn. lia.
  - intros fuel. apply (proj2 (class_numbering_terminates false cyclic_file) fuel [10; 11] 10).
    + by left.
    + by intros x.
    + intros c Hc. apply elem_of_cons in Hc as [->|Hc]; [|apply list_elem_of_singleton in Hc as ->].
      * exists 11. split; [apply list_elem_of_singleton; reflexivity|right; by left].
      * exists 10. split; [apply list_elem_of_singleton; reflexivity|by left].
Defined.
