(* ===== verification/ZygiskModule.v ===== *)
(** The Zygisk module: [zygisk/src/module.cpp].

    Files are a map from paths; the content of an open descriptor is a byte list,
    [None] for a descriptor that is not open. What the JNI and Zygisk calls answer
    is a parameter of the operations that make them. The calls that may fail where
    the code looks at the result, or should, have a switch in [faults].

    Then lemmas: paths, the copy loop, staging. *)
From stdpp Require Import strings.
From Stdlib Require Import String Ascii.
From S2P Require Import Prelude.

(** ** Which processes *)

Definition pkgs : list string := ["com.tencent.mobileqq"; "com.tencent.tim"]%string.

(** [isQQTarget], with the package it stores. *)
Fixpoint isQQTarget_in (pkgs : list string) (proc : string) : option string :=
  match pkgs with
  | [] => None
  | s :: pkgs =>
      if String.eqb proc s then Some s
      else if (String.length s + 1 <? String.length proc)%nat && String.prefix (s +:+ ":") proc then Some s
      else isQQTarget_in pkgs proc
  end.
Definition isQQTarget : string -> option string := isQQTarget_in pkgs.

(** The tests of [preAppSpecialize] on the process name. *)
Definition wants_process (proc : string) : bool :=
  match isQQTarget proc with
  | None => false
  | Some pkg =>
      if negb (String.eqb proc pkg) then
        let sfx := String.substring (String.length pkg) (String.length proc - String.length pkg) proc in
        negb (negb (String.eqb sfx ":MSF") && negb (String.eqb sfx ":peak"))
      else true
  end.

(** ** Files *)

Inductive node := File (content : list byte) | Dir.
Abbreviation fs := (gmap string node).

(** The path up to its last slash. *)
Fixpoint dirname_opt (path : string) : option string :=
  match path with
  | EmptyString => None
  | String c path =>
      match dirname_opt path with
      | Some d => Some (String c d)
      | None => if Ascii.eqb c "/" then Some EmptyString else None
      end
  end.
Definition parent_is_dir (path : string) (f : fs) : bool :=
  match dirname_opt path with
  | Some d => match f !! d with Some Dir => true | _ => false end
  | None => false
  end.

Definition mkdir (path : string) (f : fs) : fs :=
  match f !! path with
  | Some _ => f
  | None => if parent_is_dir path f then <[path := Dir]> f else f
  end.

(** [open(O_WRONLY | O_CREAT | O_TRUNC)]. *)
Definition open_trunc (path : string) (f : fs) : option fs :=
  match f !! path with
  | Some Dir => None
  | Some (File _) => Some (<[path := File []]> f)
  | None => if parent_is_dir path f then Some (<[path := File []]> f) else None
  end.

Record faults := { read_fails : nat -> bool; write_fails : nat -> bool; rename_fails : bool }.

Definition rename (fl : faults) (from to : string) (f : fs) : fs :=
  if rename_fails fl then f
  else
    match f !! from, f !! to with
    | Some (File c), Some Dir => f
    | Some n, _ => <[to := n]> (delete from f)
    | None, _ => f
    end.

(** ** Staging *)

(** [size > 512 ? 512 : size]. *)
Definition head_size (a : list byte) : nat := Nat.min (length a) 512.
Definition buf_size : nat := Z.to_nat 65536.

(** Whether the copy is needed: a directory at [dst] cannot be read. *)
Definition need_copy (src : option (list byte)) (dst : string) (f : fs) : bool :=
  match src, f !! dst with
  | Some a, Some (File b) =>
      if (length a =? length b)%nat then negb (bool_decide (take (head_size a) a = take (head_size a) b)) else true
  | _, _ => true
  end.

(** The copy loop from the [k]-th read on: whether it got to the end, and what it
    has written. *)
Fixpoint copy_loop (fuel : nat) (fl : faults) (k : nat) (src out : list byte) : bool * list byte :=
  match fuel with
  | O => (false, out)
  | S fuel =>
      if read_fails fl k then (false, out)
      else
        let buf := take buf_size src in
        match buf with
        | [] => (true, out)
        | _ =>
            if write_fails fl k then (false, out)
            else copy_loop fuel fl (S k) (drop buf_size src) (out ++ buf)
        end
  end.

(** Reading a descriptor that is not open fails at once. *)
Definition stageFile (fl : faults) (fd : option (list byte)) (dst : string) (f : fs) : bool * fs :=
  if negb (need_copy fd dst f) then (true, f)
  else
    let tmp := dst +:+ ".t" in
    match open_trunc tmp f with
    | None => (false, f)
    | Some f =>
        let '(ok, out) := match fd with
          | Some src => copy_loop (S (length src)) fl 0 src []
          | None => (false, [])
          end in
        let f := <[tmp := File out]> f in
        if ok then (true, rename fl tmp dst f) else (false, f)
    end.

(** ** The module *)

Record GbModule := {
  inject : bool; coreFd : option (list byte); libFd : option (list byte); payloadFd : option (list byte);
  appData : string
}.
Definition newModule : GbModule :=
  {| inject := false; coreFd := None; libFd := None; payloadFd := None; appData := "" |}.

(** What the runtime passes and answers: the two strings, null or not, and the
    files that can be opened in the module's directory. *)
Record specialize_env := {
  nice_name : option string; app_data_dir : option string;
  module_dir : option (string -> option (list byte)); abi : string
}.

Definition preAppSpecialize (e : specialize_env) (m : GbModule) : GbModule :=
  let m := {| inject := false; coreFd := coreFd m; libFd := libFd m; payloadFd := payloadFd m; appData := appData m |} in
  match nice_name e, app_data_dir e, module_dir e with
  | Some proc, Some dd, Some openat =>
      if wants_process proc then
        let lib := match openat ("libmq-core/" +:+ abi e +:+ "/libmq-core.so") with
          | Some l => Some l
          | None => openat "libmq-core.so"%string
          end in
        {| inject := true; coreFd := openat "core.dex"%string; libFd := lib; payloadFd := openat "glassbar.apk"%string;
           appData := dd |}
      else m
  | _, _, _ => m
  end.

Definition core_dir (m : GbModule) : string := appData m +:+ "/files/qfunqaux".
Definition libs_dir (m : GbModule) : string := appData m +:+ "/files/qfun_zygisk/libs".
Definition core_path (m : GbModule) : string := core_dir m +:+ "/core.dex".
Definition lib_path (m : GbModule) : string := libs_dir m +:+ "/libmq-core.so".
Definition payload_dir (m : GbModule) : string := appData m +:+ "/files/glassbar".
Definition payload_path (m : GbModule) : string := payload_dir m +:+ "/glassbar.apk".

Definition stageCore (fl : faults) (m : GbModule) (f : fs) : bool * fs :=
  match coreFd m with
  | None => (false, f)
  | Some _ =>
      let f := mkdir (core_dir m) f in
      let f := mkdir (libs_dir m) f in
      let '(ok, f) := stageFile fl (coreFd m) (core_path m) f in
      if ok then
        match libFd m with
        | Some _ => (true, (stageFile fl (libFd m) (lib_path m) f).2)
        | None => (true, f)
        end
      else (false, f)
  end.

(** [loadAndStart] creates the class loaders on these paths. *)
Inductive event := LoadAndStart (core libs apk : string).

(** [attached]: the thread could be attached to the VM. *)
Definition run (fl : faults) (attached : bool) (m : GbModule) (f : fs) : list event * fs :=
  if negb attached then ([], f)
  else
    let '(ok, f) := stageCore fl m f in
    if ok then
      let f := mkdir (payload_dir m) f in
      let '(ok, f) := stageFile fl (payloadFd m) (payload_path m) f in
      if ok then ([LoadAndStart (core_path m) (libs_dir m) (payload_path m)], f) else ([], f)
    else ([], f).

Definition preServerSpecialize (m : GbModule) : GbModule :=
  {| inject := false; coreFd := coreFd m; libFd := libFd m; payloadFd := payloadFd m; appData := appData m |}.

(** [None] when the library is unloaded instead. *)
Definition postAppSpecialize (fl : faults) (attached : bool) (m : GbModule) (f : fs) : option (list event * fs) :=
  if negb (inject m) then None else Some (run fl attached m f).

(** ** Strings *)

Lemma prefix_app s p : String.prefix s p = true -> exists t, p = s +:+ t.
Proof.
  revert p. induction s as [|a s IH]; intros p H; [by exists p|].
  destruct p as [|b p]; [done|]. cbn in H. destruct (ascii_dec a b) as [->|]; [|done].
  destruct (IH p H) as [t ->]. by exists t.
Qed.

Lemma string_length_app s t : String.length (s +:+ t) = (String.length s + String.length t)%nat.
Proof. induction s as [|a s IH]; [done|]. apply (f_equal S), IH. Qed.

Lemma substring_whole t : String.substring 0 (String.length t) t = t.
Proof. induction t as [|a t IH]; cbn; [done|]. by rewrite IH. Qed.

Lemma substring_app s t : String.substring (String.length s) (String.length t) (s +:+ t) = t.
Proof. induction s as [|a s IH]; [apply substring_whole|exact IH]. Qed.

Lemma string_app_assoc (a b c : string) : (a +:+ b) +:+ c = a +:+ b +:+ c.
Proof. induction a as [|x a IH]; [done|]. apply (f_equal (String x)), IH. Qed.

Lemma string_app_inj (a b c : string) : a +:+ b = a +:+ c -> b = c.
Proof. induction a as [|x a IH]; [done|]. intros [=]. by apply IH. Qed.

Lemma string_app_ne (a b : string) : b <> ""%string -> a <> a +:+ b.
Proof.
  intros Hb H. apply Hb. apply (string_app_inj a). rewrite <- H. clear.
  induction a as [|x a IH]; [done|]. apply (f_equal (String x)), IH.
Qed.

Lemma tmp_ne dst : dst +:+ ".t" <> dst.
Proof. intros H. symmetry in H. by apply string_app_ne in H. Qed.

Lemma string_app_cons c (a b : string) : String c a +:+ b = String c (a +:+ b).
Proof. reflexivity. Qed.

(** ** Paths *)

Lemma dirname_under d n : dirname_opt n = None -> dirname_opt (d +:+ String "/" n) = Some d.
Proof.
  intros Hn. induction d as [|c d IH].
  - change (("" +:+ ?x)%string) with x. cbn [dirname_opt]. by rewrite Hn.
  - rewrite string_app_cons. cbn [dirname_opt]. by rewrite IH.
Qed.

Lemma dirname_app_none p s : dirname_opt p = None -> dirname_opt s = None -> dirname_opt (p +:+ s) = None.
Proof.
  intros Hp Hs. induction p as [|c p IH]; [done|]. rewrite string_app_cons. cbn [dirname_opt] in *.
  destruct (dirname_opt p); [done|]. rewrite IH by done. by destruct (Ascii.eqb c "/").
Qed.

Lemma dirname_app p s d : dirname_opt s = None -> dirname_opt p = Some d -> dirname_opt (p +:+ s) = Some d.
Proof.
  intros Hs. revert d. induction p as [|c p IH]; intros d H; [done|].
  rewrite string_app_cons. cbn [dirname_opt] in *.
  destruct (dirname_opt p) as [d'|] eqn:E; [by rewrite (IH d' eq_refl)|].
  by rewrite dirname_app_none.
Qed.

Lemma parent_of_tmp dst f : parent_is_dir dst f = true -> parent_is_dir (dst +:+ ".t") f = true.
Proof.
  unfold parent_is_dir. destruct (dirname_opt dst) as [d|] eqn:E; [|done].
  by rewrite (dirname_app _ ".t" d).
Qed.

(** ** The copy loop *)

Definition no_faults : faults := {| read_fails _ := false; write_fails _ := false; rename_fails := false |}.

Lemma buf_size_pos : (0 < buf_size)%nat.
Proof. apply Nat2Z.inj_lt. unfold buf_size. rewrite Z2Nat.id; [reflexivity|discriminate]. Qed.

(** One round per started buffer is enough fuel: every read takes a byte at least. *)
Lemma copy_loop_complete fl fuel k src out :
  (forall n, read_fails fl n = false) -> (forall n, write_fails fl n = false) -> (length src < fuel)%nat ->
  copy_loop fuel fl k src out = (true, out ++ src).
Proof.
  intros Hr Hw. revert k src out. induction fuel as [|fuel IH]; intros k src out Hf; [lia|].
  cbn [copy_loop]. rewrite Hr. pose proof buf_size_pos as Hb.
  destruct src as [|b src]; [by rewrite take_nil, app_nil_r|].
  destruct (take buf_size (b :: src)) as [|c buf] eqn:E.
  { apply (f_equal length) in E. rewrite length_take in E. cbn in E. lia. }
  rewrite Hw. rewrite <- E. rewrite IH, <- app_assoc, take_drop; [done|].
  rewrite length_drop. cbn in *. lia.
Qed.

(** ** Staging *)

Section stage.
  Context (dst : string).
Abbreviation tmp := (dst +:+ ".t").

Lemma open_trunc_frame f f1 q : open_trunc tmp f = Some f1 -> q <> tmp -> f1 !! q = f !! q.
  Proof.
    intros Ho Hq. unfold open_trunc in Ho. destruct (f !! tmp) as [[c|]|]; [|done|];
      [injection Ho as <-|destruct (parent_is_dir tmp f); [injection Ho as <-|done]];
      by rewrite lookup_insert_ne by done.
  Qed.

  (** Whatever fails, only the destination and its temporary file change, and the
      destination only when the call reports success. *)
Lemma stageFile_frame fl fd f p :
    p <> tmp -> p <> dst \/ (stageFile fl fd dst f).1 = false -> (stageFile fl fd dst f).2 !! p = f !! p.
  Proof.
    intros Hp Hd. unfold stageFile in *. destruct (need_copy fd dst f); [|done]. cbn [negb fst snd] in *.
    destruct (open_trunc tmp f) as [f1|] eqn:Ho; [|done].
    pose proof (fun q => open_trunc_frame f f1 q Ho) as H1.
    destruct (match fd with Some src => _ | None => _ end) as [ok out]. destruct ok; cbn [fst snd] in *.
    - destruct Hd as [Hd|?]; [|done]. unfold rename.
      destruct (rename_fails fl); [by rewrite lookup_insert_ne, H1 by done|].
      rewrite lookup_insert_eq, (lookup_insert_ne f1) by apply tmp_ne.
      destruct (f1 !! dst) as [[c|]|];
        by rewrite ?lookup_insert_ne, ?lookup_delete_ne, ?lookup_insert_ne, ?H1 by done.
    - by rewrite lookup_insert_ne, H1 by done.
  Qed.

  (** The copy loop never reports the end with anything but the whole source. *)
Lemma copy_loop_true fuel fl k src out out' : copy_loop fuel fl k src out = (true, out') -> out' = out ++ src.
  Proof.
    revert k src out. induction fuel as [|fuel IH]; intros k src out; cbn [copy_loop]; [done|].
    destruct (read_fails fl k); [done|]. pose proof (take_drop buf_size src) as E.
    destruct (take buf_size src) as [|b buf] eqn:Ht.
    - intros [= <-]. pose proof buf_size_pos. destruct src as [|c src]; [by rewrite app_nil_r|].
      destruct buf_size; [lia|done].
    - destruct (write_fails fl k); [done|]. intros H. apply IH in H as ->. by rewrite <- app_assoc, E.
  Qed.

Lemma stageFile_true fl a f :
    (stageFile fl (Some a) dst f).1 = true ->
    (stageFile fl (Some a) dst f).2 !! dst = Some (File a) \/
    (need_copy (Some a) dst f = false /\ (stageFile fl (Some a) dst f).2 = f) \/
    ((rename_fails fl = true \/ f !! dst = Some Dir) /\ (stageFile fl (Some a) dst f).2 !! dst = f !! dst).
  Proof.
    unfold stageFile. destruct (need_copy (Some a) dst f); [|by right; left]. cbn [negb].
    destruct (open_trunc tmp f) as [f1|] eqn:Ho; [|done]. pose proof (open_trunc_frame f f1 dst Ho) as H1.
    destruct (copy_loop _ fl 0 a []) as [ok out] eqn:Hc. destruct ok; [|done]. cbn [fst snd]. intros _.
    apply copy_loop_true in Hc. cbn [app] in Hc. subst out. unfold rename.
    pose proof (tmp_ne dst) as Hne. specialize (H1 (not_eq_sym Hne)).
    destruct (rename_fails fl) eqn:Hr.
    { right; right. split; [by left|]. by rewrite lookup_insert_ne. }
    rewrite lookup_insert_eq, (lookup_insert_ne f1) by done. rewrite H1.
    destruct (f !! dst) as [[c|]|] eqn:Hd.
    - left. by rewrite lookup_insert_eq.
    - right; right. split; [by right|]. by rewrite lookup_insert_ne, H1.
    - left. by rewrite lookup_insert_eq.
  Qed.

Lemma open_tmp f : parent_is_dir dst f = true -> f !! tmp <> Some Dir -> open_trunc tmp f = Some (<[tmp := File []]> f).
  Proof.
    intros Hp Ht. unfold open_trunc. destruct (f !! tmp) as [[c|]|]; [done|by destruct Ht|].
    by rewrite parent_of_tmp.
  Qed.

  (** What is staged when nothing fails. *)
Lemma stageFile_complete a f :
    parent_is_dir dst f = true -> f !! tmp <> Some Dir -> f !! dst <> Some Dir -> need_copy (Some a) dst f = true ->
    stageFile no_faults (Some a) dst f = (true, <[dst := File a]> (delete tmp f)).
  Proof.
    intros Hp Ht Hd Hn. unfold stageFile. rewrite Hn, open_tmp by done. cbn [negb].
    rewrite copy_loop_complete by (done || lia). cbn [app]. unfold rename. cbn [rename_fails no_faults].
    rewrite insert_insert_eq, lookup_insert_eq, lookup_insert_ne, delete_insert_eq by apply tmp_ne.
    by destruct (f !! dst) as [[c|]|].
  Qed.

Lemma need_copy_false a f :
    need_copy (Some a) dst f = false <->
    exists b, f !! dst = Some (File b) /\ length b = length a /\ take 512 b = take 512 a.
  Proof.
    unfold need_copy, head_size. split.
    - destruct (f !! dst) as [[b|]|]; [|done..]. destruct (Nat.eqb_spec (length a) (length b)) as [E|]; [|done].
      intros H. apply negb_false_iff, bool_decide_eq_true in H. exists b. split_and!; [done..|].
      destruct (Nat.le_ge_cases (length a) 512) as [Hl|Hl].
      + rewrite Nat.min_l in H by done. rewrite !take_ge in H by lia. by subst.
      + by rewrite Nat.min_r in H by done.
    - intros (b & -> & E & H). rewrite E, Nat.eqb_refl. apply negb_false_iff, bool_decide_eq_true.
      assert (Hm : forall l : list byte, take (length a `min` 512) l = take (length a) (take 512 l)).
      { intros l. by rewrite take_take. }
      by rewrite !Hm, H.
  Qed.
End stage.

(** ** A start on fresh data *)

Lemma mkdir_fresh path f : parent_is_dir path f = true -> f !! path = None -> mkdir path f = <[path := Dir]> f.
Proof. unfold mkdir. by intros -> ->. Qed.

Lemma mkdir_no_parent path f : parent_is_dir path f = false -> mkdir path f = f.
Proof. unfold mkdir. intros ->. by destruct (f !! path). Qed.

Lemma stageFile_fresh dst a f :
  parent_is_dir dst f = true -> f !! dst = None -> f !! (dst +:+ ".t") = None ->
  stageFile no_faults (Some a) dst f = (true, <[dst := File a]> f).
Proof.
  intros Hp Hd Ht. rewrite stageFile_complete; [|done|by rewrite Ht|by rewrite Hd|by unfold need_copy; rewrite Hd].
  by rewrite delete_id.
Qed.

Lemma stageFile_no_parent fl fd dst f :
  parent_is_dir (dst +:+ ".t") f = false -> f !! dst = None -> f !! (dst +:+ ".t") = None ->
  stageFile fl fd dst f = (false, f).
Proof.
  intros Hp Hd Ht. unfold stageFile, need_copy, open_trunc. rewrite Hd, Ht, Hp. by destruct fd.
Qed.

Lemma parent_under d n f :
  dirname_opt n = None -> parent_is_dir (d +:+ String "/" n) f = match f !! d with Some Dir => true | _ => false end.
Proof. intros Hn. unfold parent_is_dir. by rewrite dirname_under. Qed.

(** Paths under the app's data differ when their tails do. *)
Lemma under_ne (a s t : string) : s <> t -> a +:+ s <> a +:+ t.
Proof. intros H E. by apply H, (string_app_inj a). Qed.

Definition files_dir (m : GbModule) : string := appData m +:+ "/files".
Definition zygisk_dir (m : GbModule) : string := appData m +:+ "/files/qfun_zygisk".

(** Every path of a module is [appData] and a constant. *)
Section paths.
  Context (m : GbModule).
Notation "'under' s" := (appData m +:+ s) (at level 10).

Ltac path := unfold core_path, lib_path, payload_path, core_dir, libs_dir, payload_dir;
    rewrite ?string_app_assoc; reflexivity.
Lemma core_path_eq : core_path m = under "/files/qfunqaux/core.dex".
  Proof. path. Qed.
Lemma lib_path_eq : lib_path m = under "/files/qfun_zygisk/libs/libmq-core.so".
  Proof. path. Qed.
Lemma payload_path_eq : payload_path m = under "/files/glassbar/glassbar.apk".
  Proof. path. Qed.
Lemma core_tmp_eq : core_path m +:+ ".t" = under "/files/qfunqaux/core.dex.t".
  Proof. path. Qed.
Lemma lib_tmp_eq : lib_path m +:+ ".t" = under "/files/qfun_zygisk/libs/libmq-core.so.t".
  Proof. path. Qed.
Lemma payload_tmp_eq : payload_path m +:+ ".t" = under "/files/glassbar/glassbar.apk.t".
  Proof. path. Qed.

Lemma core_dir_parent f : parent_is_dir (core_dir m) f = match f !! files_dir m with Some Dir => true | _ => false end.
  Proof.
    replace (core_dir m) with (files_dir m +:+ "/qfunqaux") by (unfold files_dir; rewrite string_app_assoc; reflexivity).
    by rewrite parent_under.
  Qed.
Lemma payload_dir_parent f :
    parent_is_dir (payload_dir m) f = match f !! files_dir m with Some Dir => true | _ => false end.
  Proof.
    replace (payload_dir m) with (files_dir m +:+ "/glassbar") by (unfold files_dir; rewrite string_app_assoc; reflexivity).
    by rewrite parent_under.
  Qed.
Lemma libs_dir_parent f :
    parent_is_dir (libs_dir m) f = match f !! zygisk_dir m with Some Dir => true | _ => false end.
  Proof.
    replace (libs_dir m) with (zygisk_dir m +:+ "/libs") by (unfold zygisk_dir; rewrite string_app_assoc; reflexivity).
    by rewrite parent_under.
  Qed.

  (** No file of the module is there yet; [files/qfun_zygisk] may be. *)
Definition fresh (f : fs) : Prop :=
    f !! files_dir m = Some Dir /\
    forall s, s <> ""%string -> s <> "/qfun_zygisk"%string -> f !! (files_dir m +:+ s) = None.

Lemma fresh_lookup f s : fresh f -> s <> ""%string -> s <> "/qfun_zygisk"%string -> f !! under ("/files" +:+ s) = None.
  Proof. intros [_ Hf] ??. rewrite <- string_app_assoc. by apply Hf. Qed.
End paths.

(** Lookups at constant tails in a map built by insertions at constant tails. *)
Ltac look m f Hf := unfold core_dir, libs_dir, payload_dir, files_dir, zygisk_dir;
  rewrite ?core_tmp_eq, ?core_path_eq, ?lib_tmp_eq, ?lib_path_eq, ?payload_tmp_eq, ?payload_path_eq;
  repeat first [rewrite lookup_insert_eq | rewrite lookup_insert_ne by (apply under_ne; discriminate)];
  try match goal with
  | |- f !! (_ +:+ ?p) = None =>
      let s := eval cbv in (String.substring 6 (String.length p - 6) p) in
      exact (fresh_lookup m f s Hf ltac:(discriminate) ltac:(discriminate))
  end.

Section start.
  Context (m : GbModule).
Notation "'under' s" := (appData m +:+ s) (at level 10).

Lemma core_path_parent f : parent_is_dir (core_path m) f = match f !! core_dir m with Some Dir => true | _ => false end.
  Proof. unfold core_path. by rewrite parent_under. Qed.
Lemma lib_path_parent f : parent_is_dir (lib_path m) f = match f !! libs_dir m with Some Dir => true | _ => false end.
  Proof. unfold lib_path. by rewrite parent_under. Qed.
Lemma lib_tmp_parent f :
    parent_is_dir (lib_path m +:+ ".t") f = match f !! libs_dir m with Some Dir => true | _ => false end.
  Proof. unfold lib_path. rewrite string_app_assoc. apply (parent_under _ "libmq-core.so.t"). done. Qed.
Lemma payload_path_parent f :
    parent_is_dir (payload_path m) f = match f !! payload_dir m with Some Dir => true | _ => false end.
  Proof. unfold payload_path. by rewrite parent_under. Qed.

Lemma stageCore_fresh c l f :
    coreFd m = Some c -> libFd m = Some l -> fresh m f ->
    stageCore no_faults m f =
      (true, match f !! zygisk_dir m with
             | Some Dir => <[lib_path m := File l]> (<[core_path m := File c]> (<[libs_dir m := Dir]> (<[core_dir m := Dir]> f)))
             | _ => <[core_path m := File c]> (<[core_dir m := Dir]> f)
             end).
  Proof.
    intros Hc Hl Hf. unfold stageCore. rewrite Hc, Hl.
    rewrite (mkdir_fresh (core_dir m) f) by (rewrite ?core_dir_parent, ?(proj1 Hf); look m f Hf; done).
    assert (Hz : <[core_dir m := Dir]> f !! zygisk_dir m = f !! zygisk_dir m) by by look m f Hf.
    assert (Hlibs : f !! under "/files/qfun_zygisk/libs" = None) by look m f Hf.
    destruct (f !! zygisk_dir m) as [[z|]|] eqn:E.
    2: { rewrite (mkdir_fresh (libs_dir m)) by (rewrite ?libs_dir_parent, ?Hz; look m f Hf; done).
      rewrite stageFile_fresh by (rewrite ?core_path_parent; look m f Hf; done).
      rewrite stageFile_fresh by (rewrite ?lib_path_parent; look m f Hf; done). done. }
    all: rewrite (mkdir_no_parent (libs_dir m)) by (by rewrite libs_dir_parent, Hz);
      rewrite stageFile_fresh by (rewrite ?core_path_parent; look m f Hf; done);
      rewrite stageFile_no_parent; [done|rewrite lib_tmp_parent; look m f Hf; by rewrite Hlibs|look m f Hf..].
  Qed.

  (** The payload is staged on top of that. *)
Lemma stage_payload_fresh p f :
    f !! files_dir m = Some Dir -> f !! payload_dir m = None -> f !! payload_path m = None ->
    f !! (payload_path m +:+ ".t") = None ->
    stageFile no_faults (Some p) (payload_path m) (mkdir (payload_dir m) f) =
      (true, <[payload_path m := File p]> (<[payload_dir m := Dir]> f)).
  Proof.
    intros Hd H1 H2 H3. rewrite (mkdir_fresh (payload_dir m)); [|by rewrite payload_dir_parent, Hd|done].
    assert (Hne : forall q, payload_dir m <> q -> f !! q = None -> <[payload_dir m := Dir]> f !! q = None).
    { intros q Hq. by rewrite lookup_insert_ne. }
    rewrite stageFile_fresh; [done|by rewrite payload_path_parent, lookup_insert_eq|apply Hne..]; try done.
    - rewrite payload_path_eq. by apply under_ne.
    - rewrite payload_tmp_eq. by apply under_ne.
  Qed.
End start.
