(* ===== verification/ZygiskClaims.v ===== *)
(** The properties of the Zygisk module. *)
From Stdlib Require Import String Ascii.
From stdpp Require Import strings.
From S2P Require Import Prelude ZygiskModule.

(** The module injects into exactly six processes: the two packages and, of each,
    the [:MSF] and [:peak] processes. *)
Theorem module_targets proc :
  wants_process proc = true <->
  proc ∈ ["com.tencent.mobileqq"; "com.tencent.mobileqq:MSF"; "com.tencent.mobileqq:peak";
          "com.tencent.tim"; "com.tencent.tim:MSF"; "com.tencent.tim:peak"]%string.
Proof.
  split.
  - assert (Hs : forall pkg, proc = pkg \/ (exists t, proc = (pkg +:+ ":") +:+ t) ->
      (if negb (String.eqb proc pkg) then
         let sfx := String.substring (String.length pkg) (String.length proc - String.length pkg) proc in
         negb (negb (String.eqb sfx ":MSF") && negb (String.eqb sfx ":peak")) else true) = true ->
      proc = pkg \/ proc = (pkg +:+ ":MSF")%string \/ proc = (pkg +:+ ":peak")%string).
    { intros pkg Hp. destruct (String.eqb_spec proc pkg) as [->|Hne]; [by left|]. destruct Hp as [|[t Ht]]; [done|].
      rewrite string_app_assoc in Ht. rewrite Ht, string_length_app. cbn zeta.
      replace (String.length pkg + String.length (":" +:+ t) - String.length pkg)%nat
        with (String.length (":" +:+ t)) by lia.
      rewrite substring_app. cbn [negb].
      destruct (String.eqb_spec (":" +:+ t) ":MSF") as [->|]; [by auto|].
      destruct (String.eqb_spec (":" +:+ t) ":peak") as [->|]; [by auto|done]. }
    assert (Hin : forall l, List.In proc l -> proc ∈ l) by (intros l; apply list_elem_of_In).
    unfold wants_process, isQQTarget, pkgs. cbn [isQQTarget_in].
    destruct (String.eqb_spec proc "com.tencent.mobileqq") as [E|_].
    { intros H. eapply Hs in H; [|by left]. apply Hin. cbn. intuition auto. }
    destruct (_ && String.prefix ("com.tencent.mobileqq" +:+ ":") proc) eqn:H1.
    { apply andb_true_iff in H1 as [_ H1]. apply prefix_app in H1. intros H. eapply Hs in H; [|by right]. apply Hin. cbn. intuition auto. }
    destruct (String.eqb_spec proc "com.tencent.tim") as [E|_].
    { intros H. eapply Hs in H; [|by left]. apply Hin. cbn. intuition auto. }
    destruct (_ && String.prefix ("com.tencent.tim" +:+ ":") proc) eqn:H2; [|done].
    apply andb_true_iff in H2 as [_ H2]. apply prefix_app in H2. intros H. eapply Hs in H; [|by right]. apply Hin. cbn. intuition auto.
  - intros H. rewrite !elem_of_cons in H. destruct H as [->|[->|[->|[->|[->|[->|H]]]]]]; [reflexivity..|].
    by apply not_elem_of_nil in H.
Qed.

(** Staging an open file, whatever fails: other files than the destination and
    its temporary file stay; a call that reports failure leaves the destination;
    one that reports success has put the source there, or has found it up to date,
    or could not rename the copy and left the destination as it was, which the
    code does not look at. *)
Theorem stage_file_outcomes fl a dst f :
  let '(ok, f') := stageFile fl (Some a) dst f in
  (forall p, p <> dst +:+ ".t" -> p <> dst -> f' !! p = f !! p) /\
  (ok = false -> f' !! dst = f !! dst) /\
  (ok = true ->
   f' !! dst = Some (File a) \/ (need_copy (Some a) dst f = false /\ f' = f) \/
   ((rename_fails fl = true \/ f !! dst = Some Dir) /\ f' !! dst = f !! dst)).
Proof.
  pose proof (stageFile_frame dst fl (Some a) f) as Hf.
  pose proof (stageFile_true dst fl a f) as Ht.
  destruct (stageFile fl (Some a) dst f) as [ok f']. cbn [fst snd] in *.
  pose proof (tmp_ne dst). naive_solver.
Qed.

(** When nothing fails, staging succeeds, and the destination is the source with
    no temporary file left, except that a destination of the same size with the same
    first 512 bytes is left alone, whatever the rest of it is. *)
Theorem stage_file a dst f :
  parent_is_dir dst f = true -> f !! (dst +:+ ".t") <> Some Dir -> f !! dst <> Some Dir ->
  ((exists b, f !! dst = Some (File b) /\ length b = length a /\ take 512 b = take 512 a) ->
   stageFile no_faults (Some a) dst f = (true, f)) /\
  (~ (exists b, f !! dst = Some (File b) /\ length b = length a /\ take 512 b = take 512 a) ->
   stageFile no_faults (Some a) dst f = (true, <[dst := File a]> (delete (dst +:+ ".t") f))).
Proof.
  intros Hp Ht Hd. rewrite <- need_copy_false. split.
  - intros Hn. unfold stageFile. by rewrite Hn.
  - intros Hn. apply stageFile_complete; [done..|]. by apply not_false_is_true.
Qed.

(** A file that differs from the destination in its last byte only. *)
Definition old_file : list byte := replicate 512 0 ++ [1].
Definition new_file : list byte := replicate 512 0 ++ [2].
Definition some_fs : fs := <["/d/a"%string := File old_file]> (<["/d"%string := Dir]> ∅).

Lemma stage_file_witness :
  stageFile no_faults (Some new_file) "/d/a" some_fs = (true, some_fs) /\
  stageFile no_faults (Some new_file) "/d/b" some_fs = (true, <["/d/b"%string := File new_file]> (delete "/d/b.t"%string some_fs)).
Proof.
  split.
  - apply (stage_file new_file "/d/a" some_fs); [by vm_compute..|]. exists old_file. by vm_compute.
  - apply (stage_file new_file "/d/b" some_fs); [by vm_compute..|]. intros (b & H & _). vm_compute in H. discriminate.
Defined.

(** C19: In a target process whose app has its [files] directory and none of the
    module's files yet, with the files of the module readable and no call failing,
    the dex and the payload are staged and the payload is started. The native
    library is staged only where [files/qfun_zygisk] exists, which nothing creates:
    [mkdir] makes one directory and its result is not looked at. *)
Theorem module_starts m c p l f :
  inject m = true -> coreFd m = Some c -> payloadFd m = Some p -> libFd m = Some l ->
  fresh m f ->
  exists f', postAppSpecialize no_faults true m f = Some ([LoadAndStart (core_path m) (libs_dir m) (payload_path m)], f') /\
    f' !! core_path m = Some (File c) /\ f' !! payload_path m = Some (File p) /\
    f' !! lib_path m = match f !! zygisk_dir m with Some Dir => Some (File l) | _ => None end.
Proof.
  intros Hi Hc Hp Hl Hf. unfold postAppSpecialize, run. rewrite Hi, (stageCore_fresh m c l) by done. cbn [negb].
  rewrite Hp. destruct (f !! zygisk_dir m) as [[z|]|] eqn:E;
    (rewrite stage_payload_fresh by (look m f Hf; done || apply Hf));
    (eexists; split; [done|]; cbv iota; split_and!; look m f Hf; done).
Qed.

(** A device: the module's directory, and an app with its [files] directory. *)
Definition qq_env : specialize_env := {|
  nice_name := Some "com.tencent.mobileqq:MSF"%string; app_data_dir := Some "/d"%string;
  module_dir := Some (fun p => if String.eqb p "core.dex" then Some [1; 2] else
    if String.eqb p "glassbar.apk" then Some [3] else if String.eqb p "libmq-core.so" then Some [4] else None);
  abi := "arm64-v8a" |}.
Definition qq_module : GbModule := preAppSpecialize qq_env newModule.
Definition qq_fs : fs := <["/d/files"%string := Dir]> (<["/d"%string := Dir]> ∅).

Lemma module_starts_witness :
  exists f', postAppSpecialize no_faults true qq_module qq_fs =
    Some ([LoadAndStart "/d/files/qfunqaux/core.dex" "/d/files/qfun_zygisk/libs" "/d/files/glassbar/glassbar.apk"], f') /\
    f' !! "/d/files/qfunqaux/core.dex"%string = Some (File [1; 2]) /\
    f' !! "/d/files/glassbar/glassbar.apk"%string = Some (File [3]) /\
    f' !! "/d/files/qfun_zygisk/libs/libmq-core.so"%string = None.
Proof.
  apply (module_starts qq_module [1; 2] [3] [4] qq_fs); [reflexivity..|]. split; [reflexivity|].
  intros s H1 H2. unfold qq_fs. rewrite !lookup_insert_ne; [reflexivity|discriminate|].
  apply (string_app_ne "/d/files" s H1).
Defined.
