(* ===== verification/Glue.v ===== *)
(** The native glue: [glue.cpp], for AArch64.

    The resolver maps the file of [libart.so] and looks names up in its symbol
    tables. A pointer into the mapping is an offset from its start; a read that
    leaves the file is [None]. The modules [dl_iterate_phdr] reports and the files
    that can be opened and mapped are the class [Linker]. *)
From S2P Require Import Prelude MemAlloc Platform Interceptor.

(** ** Reading the mapped file *)

(** An object of [n] bytes at an offset. *)
Definition rd (map : list byte) (off : Z) (n : nat) : option Z :=
  if (0 <=? off) && (off + Z.of_nat n <=? Z.of_nat (length map))
  then Some (le_val (slice (Z.to_nat off) n map)) else None.

Definition size_t : Z -> Z := u64.

(** [Elf64_Ehdr], [Elf64_Shdr], [Elf64_Sym]: sizes and fields. *)
Definition sizeof_QfEhdr := 64.
Definition sizeof_QfShdr := 64.
Definition sizeof_QfSym := 24.
Definition SHT_SYMTAB := 2.
Definition SHT_DYNSYM := 11.
Definition SHN_ABS := 0xfff1.
Definition ELFMAG : list byte := [0x7f; 0x45; 0x4c; 0x46].
Definition QF_ELF_CLASS := 2.
Definition EI_CLASS : nat := 4.

Definition e_shoff m := rd m 40 8.
Definition e_shentsize m := rd m 58 2.
Definition e_shnum m := rd m 60 2.
Definition sh_type m sh := rd m (sh + 4) 4.
Definition sh_offset m sh := rd m (sh + 24) 8.
Definition sh_size m sh := rd m (sh + 32) 8.
Definition sh_link m sh := rd m (sh + 40) 4.
Definition sh_entsize m sh := rd m (sh + 56) 8.
Definition st_name m s := rd m s 4.
Definition st_shndx m s := rd m (s + 6) 2.
Definition st_value m s := rd m (s + 8) 8.

(** ** The tables *)

Record ArtSymbolTables := {
  map : option (list byte); loadBias : Z;
  dynsym : option Z; dynsymCount : Z; dynstr : option Z;
  symtab : option Z; symtabCount : Z; strtab : option Z
}.
Definition noTables : ArtSymbolTables :=
  {| map := None; loadBias := 0; dynsym := None; dynsymCount := 0; dynstr := None;
     symtab := None; symtabCount := 0; strtab := None |}.

Class Linker := {
  phdr_modules : list (option (list byte) * Z);
  open_map : list byte -> option (list byte)
}.

(** [strstr]. *)
Fixpoint starts_with (s pat : list byte) : bool :=
  match pat, s with
  | [], _ => true
  | p :: pat, b :: s => (b =? p) && starts_with s pat
  | _ :: _, [] => false
  end.
Fixpoint strstr (s pat : list byte) : bool :=
  starts_with s pat || match s with [] => false | _ :: s => strstr s pat end.

Definition libart_so : list byte := [0x6c; 0x69; 0x62; 0x61; 0x72; 0x74; 0x2e; 0x73; 0x6f].

(** Both callbacks of [dl_iterate_phdr] stop at this module. *)
Fixpoint findArtModule (l : list (option (list byte) * Z)) : option (list byte * Z) :=
  match l with
  | [] => None
  | (Some (c :: name), addr) :: l =>
      if strstr (c :: name) libart_so then Some (c :: name, addr) else findArtModule l
  | _ :: l => findArtModule l
  end.

(** What one section header of either table type stores: the table, the number of
    its symbols, and its string section when the link is in range. *)
Definition table_of (m : list byte) (shOff shNum shEntSize sh : Z) (str : option Z) :
    option (option (Z * Z * option Z)) :=
  off ← sh_offset m sh;
  size ← sh_size m sh;
  if size_t (off + size) <=? Z.of_nat (length m) then
    ent ← sh_entsize m sh;
    let count := if ent =? 0 then 0 else size / ent in
    link ← sh_link m sh;
    str ← (if link <? shNum then so ← sh_offset m (size_t (shOff + link * shEntSize)); Some (Some so) else Some str);
    Some (Some (off, count, str))
  else Some None.

Definition visit_section (m : list byte) (shOff shNum shEntSize : Z) (i : Z) (t : ArtSymbolTables) :
    option ArtSymbolTables :=
  let sh := size_t (shOff + i * shEntSize) in
  type ← sh_type m sh;
  if type =? SHT_DYNSYM then
    r ← table_of m shOff shNum shEntSize sh (dynstr t);
    Some match r with
    | Some (off, n, str) =>
        {| map := map t; loadBias := loadBias t; dynsym := Some off; dynsymCount := n; dynstr := str;
           symtab := symtab t; symtabCount := symtabCount t; strtab := strtab t |}
    | None => t
    end
  else if type =? SHT_SYMTAB then
    r ← table_of m shOff shNum shEntSize sh (strtab t);
    Some match r with
    | Some (off, n, str) =>
        {| map := map t; loadBias := loadBias t; dynsym := dynsym t; dynsymCount := dynsymCount t; dynstr := dynstr t;
           symtab := Some off; symtabCount := n; strtab := str |}
    | None => t
    end
  else Some t.

Fixpoint visit_sections (n : nat) (m : list byte) (shOff shNum shEntSize i : Z) (t : ArtSymbolTables) :
    option ArtSymbolTables :=
  match n with
  | O => Some t
  | S n => t ← visit_section m shOff shNum shEntSize i t; visit_sections n m shOff shNum shEntSize (i + 1) t
  end.

Definition is_elf (m : list byte) : bool :=
  (sizeof_QfEhdr <=? Z.of_nat (length m)) && bool_decide (take 4 m = ELFMAG) &&
  bool_decide (m !! EI_CLASS = Some QF_ELF_CLASS).

Section Resolver.
Context `{Linker}.

Definition mapArtTables : option ArtSymbolTables :=
  match findArtModule phdr_modules with
  | None => Some noTables
  | Some (path, bias) =>
      let t := {| map := None; loadBias := bias; dynsym := None; dynsymCount := 0; dynstr := None;
                  symtab := None; symtabCount := 0; strtab := None |} in
      if bias =? 0 then Some t
      else
        match open_map path with
        | None => Some t
        | Some m =>
            if negb (is_elf m) then Some t
            else
              let t := {| map := Some m; loadBias := bias; dynsym := None; dynsymCount := 0; dynstr := None;
                          symtab := None; symtabCount := 0; strtab := None |} in
              shOff ← e_shoff m;
              shNum ← e_shnum m;
              ent ← e_shentsize m;
              let shEntSize := if ent =? 0 then sizeof_QfShdr else ent in
              if (shOff =? 0) || (shEntSize <? sizeof_QfShdr) ||
                 (Z.of_nat (length m) <? size_t (shOff + shNum * shEntSize)) then Some t
              else visit_sections (Z.to_nat shNum) m shOff shNum shEntSize 0 t
        end
  end.

(** ** Resolution *)

(** [strcmp(symName, name) == 0], and [strncmp] over the length of the name. *)
Fixpoint name_hit (m : list byte) (symName : Z) (name : list byte) (prefix : bool) : option bool :=
  match name with
  | [] => if prefix then Some true else b ← rd m symName 1; Some (b =? 0)
  | c :: name => b ← rd m symName 1; if b =? c then name_hit m (symName + 1) name prefix else Some false
  end.

(** The address of the symbol at [s]. *)
Definition symbol_address (m : list byte) (bias s : Z) : option Z :=
  value ← st_value m s;
  shndx ← st_shndx m s;
  Some (if negb (shndx =? SHN_ABS) then u64 (value + bias) else value).

Fixpoint resolve_loop (n : nat) (m : list byte) (bias : Z) (s str : Z) (name : list byte) (prefix : bool) : option Z :=
  match n with
  | O => Some 0
  | S n =>
      nm ← st_name m s;
      if nm =? 0 then resolve_loop n m bias (s + sizeof_QfSym) str name prefix
      else
        hit ← name_hit m (str + nm) name prefix;
        if negb hit then resolve_loop n m bias (s + sizeof_QfSym) str name prefix
        else symbol_address m bias s
  end.

Definition resolveInTable (t : ArtSymbolTables) (tab : option Z) (count : Z) (str : option Z)
    (name : list byte) (prefix : bool) : option Z :=
  match tab, str, map t with
  | Some tab, Some str, Some m => resolve_loop (Z.to_nat count) m (loadBias t) tab str name prefix
  | _, _, _ => Some 0
  end.

(** The two tables in turn. *)
Definition lookup_tables (t : ArtSymbolTables) (name : list byte) (prefix : bool) : option Z :=
  addr ← resolveInTable t (dynsym t) (dynsymCount t) (dynstr t) name prefix;
  if addr =? 0 then resolveInTable t (symtab t) (symtabCount t) (strtab t) name prefix else Some addr.

(** [gArt] once it is mapped, and [gCache]. *)
Record resolver := { gArt : option ArtSymbolTables; gCache : gmap (list byte) Z }.
Definition newResolver : resolver := {| gArt := None; gCache := ∅ |}.

Definition ensureArtTables (r : resolver) : option (ArtSymbolTables * resolver) :=
  match gArt r with
  | Some t => Some (t, r)
  | None => t ← mapArtTables; Some (t, {| gArt := Some t; gCache := gCache r |})
  end.

Definition ResolveArtSymbol (name : list byte) (r : resolver) : option (Z * resolver) :=
  '(t, r) ← ensureArtTables r;
  match gCache r !! name with
  | Some addr => Some (addr, r)
  | None =>
      addr ← lookup_tables t name false;
      Some (addr, if negb (addr =? 0) then {| gArt := gArt r; gCache := <[name := addr]> (gCache r) |} else r)
  end.

Definition ResolveArtSymbolPrefix (prefix : list byte) (r : resolver) : option (Z * resolver) :=
  '(t, r) ← ensureArtTables r;
  addr ← lookup_tables t prefix true;
  Some (addr, r).
End Resolver.

(** ** The inline hooker *)

Section Hooker.
Context `{Kernel}.
Context (near : option (Z -> Z -> MemoryAllocator -> option CodeBuffer.CodeBufferBase * MemoryAllocator)).

Definition InlineHook (target hooker : Z) (s : engine) : option (Z * engine) :=
  if target =? 0 then Some (0, s)
  else
    '(rc, origin, s) ← DobbyHook near target hooker s;
    Some (match origin with Some o => if (rc =? 0) && negb (o =? 0) then o else 0 | None => 0 end, s).

Definition InlineUnhook (func : Z) (s : engine) : option (bool * engine) :=
  if func =? 0 then Some (false, s)
  else '(rc, s) ← DobbyDestroy func s; Some (rc =? 0, s).
End Hooker.
