(* ===== verification/GlueClaims.v ===== *)
(** The tables of the symbol resolver as lists of symbols, and its properties. *)
From S2P Require Import Prelude Glue.

(** A symbol: its name ([None] when it has none), value and section index. *)
Record symbol := { s_name : option (list byte); s_value : Z; s_shndx : Z }.

(** The terminated string at an offset. *)
Fixpoint string_at (m : list byte) (off : Z) (s : list byte) : Prop :=
  match s with
  | [] => rd m off 1 = Some 0
  | c :: s => c <> 0 /\ rd m off 1 = Some c /\ string_at m (off + 1) s
  end.

Definition symbol_at (m : list byte) (str off : Z) (s : symbol) : Prop :=
  st_value m off = Some (s_value s) /\ st_shndx m off = Some (s_shndx s) /\
  match s_name s with
  | None => st_name m off = Some 0
  | Some name => exists nm, st_name m off = Some nm /\ nm <> 0 /\ string_at m (str + nm) name
  end.

Fixpoint symbols_at (m : list byte) (str off : Z) (l : list symbol) : Prop :=
  match l with
  | [] => True
  | s :: l => symbol_at m str off s /\ symbols_at m str (off + sizeof_QfSym) l
  end.

(** A table of [t]: absent or without strings, it has no symbols. *)
Definition table_symbols (t : ArtSymbolTables) (tab : option Z) (count : Z) (str : option Z) (l : list symbol) : Prop :=
  match tab, str, map t with
  | Some tab, Some str, Some m => symbols_at m str tab l /\ Z.to_nat count = length l
  | _, _, _ => l = []
  end.

Definition matches (prefix : bool) (name : list byte) (s : symbol) : bool :=
  match s_name s with
  | None => false
  | Some n => if prefix then bool_decide (take (length name) n = name) else bool_decide (n = name)
  end.

Definition address_of (bias : Z) (s : symbol) : Z :=
  if s_shndx s =? SHN_ABS then s_value s else u64 (s_value s + bias).

(** The address of the first match, 0 when there is none. *)
Fixpoint first_match (bias : Z) (prefix : bool) (name : list byte) (l : list symbol) : Z :=
  match l with
  | [] => 0
  | s :: l => if matches prefix name s then address_of bias s else first_match bias prefix name l
  end.

(** The dynamic table first, the other when that has nothing (or a null address). *)
Definition first_of_two (bias : Z) (prefix : bool) (name : list byte) (dyn sym : list symbol) : Z :=
  let a := first_match bias prefix name dyn in
  if a =? 0 then first_match bias prefix name sym else a.

Lemma name_hit_spec m prefix name : forall off s,
  string_at m off s -> Forall (fun c => c <> 0) name ->
  name_hit m off name prefix =
    Some (if prefix then bool_decide (take (length name) s = name) else bool_decide (s = name)).
Proof.
  induction name as [|c name IH]; intros off s Hs Hn.
  - cbn [name_hit length take]. destruct prefix; [by rewrite bool_decide_eq_true_2|].
    destruct s as [|b s]; cbn in Hs.
    + by rewrite Hs.
    + destruct Hs as (Hb & -> & _). cbn. rewrite (proj2 (Z.eqb_neq b 0) Hb). done.
  - apply Forall_cons in Hn as [Hc Hn]. cbn [name_hit]. destruct s as [|b s]; cbn in Hs.
    + rewrite Hs. cbn [mbind option_bind]. rewrite (proj2 (Z.eqb_neq 0 c)) by done. by destruct prefix.
    + destruct Hs as (Hb & -> & Hs). cbn [mbind option_bind]. destruct (Z.eqb_spec b c) as [->|Hne].
      * rewrite (IH _ s Hs Hn). f_equal. cbn [length take].
        destruct prefix; apply bool_decide_ext; (split; [by intros ->|by intros [=]]).
      * cbn [length take]. destruct prefix; by rewrite bool_decide_eq_false_2 by congruence.
Qed.

Lemma resolve_loop_spec m bias str prefix name l : forall off,
  symbols_at m str off l -> Forall (fun c => c <> 0) name ->
  resolve_loop (length l) m bias off str name prefix = Some (first_match bias prefix name l).
Proof.
  induction l as [|s l IH]; intros off Hl Hn; [done|]. destruct Hl as [(Hv & Hx & Hs) Hl].
  cbn [length resolve_loop first_match]. unfold matches. destruct (s_name s) as [n|].
  - destruct Hs as (nm & -> & Hnm & Hs). cbn [mbind option_bind]. rewrite (proj2 (Z.eqb_neq nm 0) Hnm).
    rewrite (name_hit_spec m prefix name _ n Hs Hn). cbn [mbind option_bind].
    destruct (if prefix then _ else _); cbn [negb]; [|by apply IH].
    unfold symbol_address, address_of. rewrite Hv, Hx. cbn [mbind option_bind]. by destruct (_ =? SHN_ABS).
  - rewrite Hs. cbn [mbind option_bind Z.eqb]. by apply IH.
Qed.

Lemma resolveInTable_spec t tab count str prefix name l :
  table_symbols t tab count str l -> Forall (fun c => c <> 0) name ->
  resolveInTable t tab count str name prefix = Some (first_match (loadBias t) prefix name l).
Proof.
  unfold table_symbols, resolveInTable. intros Hl Hn.
  destruct tab as [tab|]; [|by subst]. destruct str as [str|]; [|by subst]. destruct (map t) as [m|]; [|by subst].
  destruct Hl as [Hl ->]. by apply resolve_loop_spec.
Qed.

(** The tables of [t] are the lists [dyn] and [sym]. *)
Definition tables_symbols (t : ArtSymbolTables) (dyn sym : list symbol) : Prop :=
  table_symbols t (dynsym t) (dynsymCount t) (dynstr t) dyn /\ table_symbols t (symtab t) (symtabCount t) (strtab t) sym.

Lemma lookup_tables_spec t prefix name dyn sym :
  tables_symbols t dyn sym -> Forall (fun c => c <> 0) name ->
  lookup_tables t name prefix = Some (first_of_two (loadBias t) prefix name dyn sym).
Proof.
  intros [Hd Hs] Hn. unfold lookup_tables, first_of_two.
  rewrite (resolveInTable_spec _ _ _ _ _ _ _ Hd Hn). cbn [mbind option_bind].
  destruct (_ =? 0); [|done]. by rewrite (resolveInTable_spec _ _ _ _ _ _ _ Hs Hn).
Qed.

(** ** The resolver's state *)

(** Mapped or about to be; what the cache holds is what the tables give. *)
Definition resolver_ok `{Linker} (t : ArtSymbolTables) (r : resolver) : Prop :=
  (gArt r = Some t \/ (gArt r = None /\ mapArtTables = Some t)) /\
  forall name addr, gCache r !! name = Some addr -> lookup_tables t name false = Some addr.

Lemma ensureArtTables_ok `{Linker} t r :
  resolver_ok t r -> exists r', ensureArtTables r = Some (t, r') /\ resolver_ok t r' /\ gArt r' = Some t.
Proof.
  intros [[Hg|[Hg Hm]] Hc]; unfold ensureArtTables; rewrite Hg.
  - exists r. split_and!; [done|split; [by left|done]|done].
  - rewrite Hm. eexists. split; [done|]. split; [|done]. split; [by left|done].
Qed.

(** C20: Whatever was asked before, resolving a name or a prefix gives the first
    match of the dynamic symbol table or, failing that, of the full one: its value
    plus the load bias, the value alone when it is absolute, and null when no
    symbol matches. The cache never changes an answer. Undefined symbols match like
    the others: the name of an import resolves to the load bias. *)
Theorem ResolveArtSymbol_spec `{Linker} t r dyn sym name :
  resolver_ok t r -> tables_symbols t dyn sym -> Forall (fun c => c <> 0) name ->
  (exists r', ResolveArtSymbol name r = Some (first_of_two (loadBias t) false name dyn sym, r') /\ resolver_ok t r') /\
  (exists r', ResolveArtSymbolPrefix name r = Some (first_of_two (loadBias t) true name dyn sym, r') /\ resolver_ok t r').
Proof.
  intros Hr Ht Hn. destruct (ensureArtTables_ok t r Hr) as (r1 & E & Hr1 & Hg).
  unfold ResolveArtSymbol, ResolveArtSymbolPrefix. rewrite E. cbn [mbind option_bind].
  rewrite !(lookup_tables_spec t _ name dyn sym Ht Hn). cbn [mbind option_bind]. split; [|by exists r1].
  destruct (gCache r1 !! name) as [addr|] eqn:Hc.
  - apply (proj2 Hr1) in Hc. rewrite (lookup_tables_spec t _ name dyn sym Ht Hn) in Hc. injection Hc as <-. by exists r1.
  - destruct (_ =? 0) eqn:Hz; cbn [negb]; [by exists r1|]. eexists. split; [done|].
    destruct Hr1 as [_ Hca]. split; [by left|]. intros n a. cbn [gCache].
    destruct (decide (n = name)) as [->|Hne].
    + rewrite lookup_insert_eq. intros [= <-]. by rewrite (lookup_tables_spec t _ name dyn sym Ht Hn).
    + rewrite lookup_insert_ne by done. apply Hca.
Qed.

(** A small [libart.so]: [f] is imported, [g] is exported, and [f] also has a local
    definition. *)
Definition shdr (type off size link ent : Z) : list byte :=
  le_bytes 4 0 ++ le_bytes 4 type ++ le_bytes 8 0 ++ le_bytes 8 0 ++ le_bytes 8 off ++ le_bytes 8 size ++
  le_bytes 4 link ++ le_bytes 4 0 ++ le_bytes 8 0 ++ le_bytes 8 ent.
Definition elf_sym (name shndx value : Z) : list byte :=
  le_bytes 4 name ++ [0; 0] ++ le_bytes 2 shndx ++ le_bytes 8 value ++ le_bytes 8 0.
Definition small_elf : list byte :=
  (ELFMAG ++ [2; 1; 1; 0] ++ replicate 8 0) ++ le_bytes 8 0 ++ le_bytes 8 0 ++ le_bytes 8 0 ++
  le_bytes 8 64 ++ le_bytes 8 0 ++ le_bytes 2 0 ++ le_bytes 2 64 ++ le_bytes 2 5 ++ le_bytes 2 0 ++
  shdr 0 0 0 0 0 ++ shdr SHT_DYNSYM 384 72 2 24 ++ shdr 3 480 5 0 0 ++ shdr SHT_SYMTAB 456 24 2 24 ++ shdr 3 480 5 0 0 ++
  elf_sym 0 0 0 ++ elf_sym 1 0 0 ++ elf_sym 3 1 0x1000 ++ elf_sym 1 1 0x2000 ++ [0; 0x66; 0; 0x67; 0].
Definition small_path : list byte := 0x2f :: libart_so.
#[local] Instance small_linker : Linker :=
  {| phdr_modules := [(None, 1); (Some [0x61], 2); (Some small_path, 0x700000)];
     open_map p := if decide (p = small_path) then Some small_elf else None |}.
Definition small_tables : ArtSymbolTables :=
  {| map := Some small_elf; loadBias := 0x700000; dynsym := Some 384; dynsymCount := 3; dynstr := Some 480;
     symtab := Some 456; symtabCount := 1; strtab := Some 480 |}.

Lemma ResolveArtSymbol_spec_witness :
  mapArtTables = Some small_tables /\
  (exists r', ResolveArtSymbol [0x67] newResolver = Some (0x701000, r') /\ resolver_ok small_tables r') /\
  (exists r', ResolveArtSymbol [0x66] newResolver = Some (0x700000, r') /\ resolver_ok small_tables r').
Proof.
  assert (Hm : mapArtTables = Some small_tables) by (vm_compute; reflexivity).
  assert (Hr : resolver_ok small_tables newResolver).
  { split; [right; split; [reflexivity|exact Hm]|]. intros name addr H. discriminate. }
  pose (dyn := [{| s_name := None; s_value := 0; s_shndx := 0 |};
    {| s_name := Some [0x66]; s_value := 0; s_shndx := 0 |}; {| s_name := Some [0x67]; s_value := 0x1000; s_shndx := 1 |}]).
  pose (sym := [{| s_name := Some [0x66]; s_value := 0x2000; s_shndx := 1 |}]).
  assert (Ht : tables_symbols small_tables dyn sym).
  { split; (split; [|reflexivity]); cbn -[small_elf]; repeat split; try (vm_compute; reflexivity);
      first [exists 1; repeat split; vm_compute; (reflexivity || discriminate)
            |exists 3; repeat split; vm_compute; (reflexivity || discriminate)]. }
  split; [exact Hm|]. split.
  - apply (ResolveArtSymbol_spec small_tables newResolver dyn sym [0x67] Hr Ht). repeat constructor. discriminate.
  - apply (ResolveArtSymbol_spec small_tables newResolver dyn sym [0x66] Hr Ht). repeat constructor. discriminate.
Defined.
