(* ===== verification/ArtMethod.v ===== *)
(** ArtMethod objects: [lsplant_jni/art/runtime/art_method.cxx].

    A method is the address of an object of [art_method_size] bytes in the process
    memory; the static members of the class, which [Init] computes, are the record
    [art_globals]. ART's own functions, found by symbol, are optional arguments.

    Then what reading and writing methods does: which bytes an operation changes. *)
From S2P Require Import Prelude UtilityMacro Arm64Isa Platform.

Abbreviation memory := (Z -> byte).

(** [kSdk...] *)
Definition kSdkLollipop := 21.
Definition kSdkLollipopMr1 := 22.
Definition kSdkMarshmallow := 23.
Definition kSdkNougat := 24.
Definition kSdkOreo := 26.
Definition kSdkOreoMr1 := 27.
Definition kSdkPie := 28.
Definition kSdkQ := 29.
Definition kSdkR := 30.
Definition kSdkS := 31.
Definition kSdkTiramisu := 33.
Definition kSdkUpsideDownCake := 34.
Definition kSdkCinnamonBun := 37.

Definition kPointerSize := 8.
Definition kAccPublic := 0x0001.
Definition kAccPrivate := 0x0002.
Definition kAccProtected := 0x0004.
Definition kAccStatic := 0x0008.
Definition kAccFinal := 0x0010.
Definition kAccNative := 0x0100.
Definition kAccAbstract := 0x0400.
Definition kAccConstructor := 0x00010000.
Definition kAccDefaultConflict := 0x01000000.

Record art_globals := {
  art_method_size : Z; entry_point_offset : Z; interpreter_entry_point_offset : Z; data_offset : Z;
  access_flags_offset : Z; declaring_class_offset : Z;
  kAccFastInterpreterToInterpreterInvoke : Z; kAccPreCompiled : Z; kAccCompileDontBother : Z; kAccIntrinsic : Z
}.

(** ** Access *)

Definition load32 (m : memory) (a : Z) : Z := read m a 4.
Definition load64 (m : memory) (a : Z) : Z := read m a 8.
Definition store32 (a v : Z) (m : memory) : memory := write_bytes m a (le_bytes 4 v).
Definition store64 (a v : Z) (m : memory) : memory := write_bytes m a (le_bytes 8 v).

Section Methods.
Context (G : art_globals).
(** [SetNotIntrinsic_], and the address of [art_interpreter_to_compiled_code_bridge_]. *)
Context (SetNotIntrinsic_ : option (Z -> memory -> memory)) (bridge : Z).

Definition GetAccessFlags (this : Z) (m : memory) : Z := load32 m (this + access_flags_offset G).
Definition SetAccessFlags (this flags : Z) (m : memory) : memory := store32 (this + access_flags_offset G) flags m.

Definition clear_bits (x mask : Z) : Z := Z.land x (Z.lxor mask (2 ^ 32 - 1)).

Definition update_flags (f : Z -> Z) (this : Z) (m : memory) : memory := SetAccessFlags this (f (GetAccessFlags this m)) m.

Definition non_compilable (access_flags : Z) : Z :=
  clear_bits (Z.lor access_flags (kAccCompileDontBother G)) (kAccPreCompiled G).
Definition SetNonCompilable := update_flags non_compilable.
Definition ClearFastInterpretFlag := update_flags (fun f => clear_bits f (kAccFastInterpreterToInterpreterInvoke G)).
Definition make_private (f : Z) : Z := clear_bits (clear_bits (Z.lor f kAccPrivate) kAccProtected) kAccPublic.
Definition SetPrivate := update_flags make_private.
Definition SetPublic := update_flags (fun f => clear_bits (clear_bits (Z.lor f kAccPublic) kAccProtected) kAccPrivate).
Definition SetProtected := update_flags (fun f => clear_bits (clear_bits (Z.lor f kAccProtected) kAccPrivate) kAccPublic).
Definition SetNonFinal := update_flags (fun f => clear_bits f kAccFinal).
Definition SetNative := update_flags (fun f => Z.lor f kAccNative).
Definition SetNonNative := update_flags (fun f => clear_bits f kAccNative).
Definition SetNonIntrinsic (this : Z) (m : memory) : memory :=
  match SetNotIntrinsic_ with
  | Some set => set this m
  | None => if negb (kAccIntrinsic G =? 0) then update_flags (fun f => clear_bits f (kAccIntrinsic G)) this m else m
  end.

Definition has_flag (mask this : Z) (m : memory) : bool := negb (Z.land (GetAccessFlags this m) mask =? 0).
Definition IsPrivate := has_flag kAccPrivate.
Definition IsProtected := has_flag kAccProtected.
Definition IsPublic := has_flag kAccPublic.
Definition IsFinal := has_flag kAccFinal.
Definition IsStatic := has_flag kAccStatic.
Definition IsNative := has_flag kAccNative.
Definition IsAbstract := has_flag kAccAbstract.
Definition IsConstructor := has_flag kAccConstructor.

Definition CopyFrom (this other : Z) (m : memory) : memory :=
  write_bytes m this (read_bytes m other (Z.to_nat (art_method_size G))).

Definition SetEntryPoint (this entry_point : Z) (m : memory) : memory :=
  let m := store64 (this + entry_point_offset G) entry_point m in
  if negb (interpreter_entry_point_offset G =? 0) then store64 (this + interpreter_entry_point_offset G) bridge m else m.
Definition GetEntryPoint (this : Z) (m : memory) : Z := load64 m (this + entry_point_offset G).
Definition GetData (this : Z) (m : memory) : Z := load64 m (this + data_offset G).
Definition SetData (this data : Z) (m : memory) : memory := store64 (this + data_offset G) data m.
Definition GetDeclaringClass (this : Z) (m : memory) : Z := load32 m (this + declaring_class_offset G).

Definition BackupTo (this backup : Z) (m : memory) : memory :=
  let m := SetNonCompilable this m in
  let m := CopyFrom backup this m in
  let m := ClearFastInterpretFlag this m in
  if negb (IsStatic backup m) then SetPrivate backup m else m.
End Methods.

(** ** [ArtMethod::Init] *)

(** What JNI answers: the methods of [Throwable]'s first two constructors and the
    flags of the first, the fields of the old [ArtMethod] class, whether a lookup
    succeeds. [needs_default_conflict] is the outcome of the exception probe. *)
Record init_env := {
  sdk_int : Z; executable_found : bool; art_method_field_found : bool; throwable_found : bool; constructors_size : Z;
  first : Z; second : Z; real_flags : option Z;
  old_access_flags : Z; old_declaring_class : Z; old_entry_point : Z; old_interpreter : Z; old_data : Z;
  shorty_found : bool; abstract_error_found : bool; getName_found : bool; needs_default_conflict : bool;
  bridge_found : bool
}.

(** The first word of the object that equals the flags: fuel is the number of words. *)
Fixpoint find_flags (n : nat) (m : memory) (first flags size i : Z) : option Z :=
  match n with
  | O => None
  | S n =>
      if i <? size then
        if load32 m (first + i) =? flags then Some i else find_flags n m first flags size (i + 4)
      else None
  end.

Definition search_access_flags (e : init_env) (size : Z) (m : memory) : Z :=
  match real_flags e with
  | Some flags => match find_flags (Z.to_nat size) m (first e) flags size 0 with Some i => i | None => 0 end
  | None => 0
  end.

Definition init_offsets (e : init_env) (m : memory) : Z * Z * Z * Z * Z * Z :=
  let size := u64 (second e - first e) in
  let entry := u64 (size - kPointerSize) in
  let data := u64 (entry - kPointerSize) in
  if kSdkMarshmallow <=? sdk_int e then
    let i := search_access_flags e size m in
    (size, entry, 0, data, if i =? 0 then 4 else i, 0)
  else if sdk_int e =? kSdkLollipop then
    (size, old_entry_point e, old_interpreter e, old_data e, old_access_flags e, old_declaring_class e)
  else (size, entry, 0, data, old_access_flags e, old_declaring_class e).

Definition Init (e : init_env) (m : memory) : option art_globals :=
  if negb (executable_found e) then None
  else if (kSdkMarshmallow <=? sdk_int e) && negb (art_method_field_found e) then None
  else if negb (throwable_found e) || (constructors_size e <? 2) then None
  else
    let '(size, entry, interp, data, flags, decl) := init_offsets e m in
    let preCompiled := if sdk_int e <? kSdkR then 0 else if kSdkS <=? sdk_int e then 0x00800000 else 0x00200000 in
    let fast := if sdk_int e <? kSdkQ then 0 else 0x40000000 in
    let intrinsic := if sdk_int e <? kSdkOreo then 0 else 0x80000000 in
    if negb (shorty_found e) then None
    else if (sdk_int e <=? kSdkOreo) && negb (abstract_error_found e) then None
    else if (sdk_int e =? kSdkOreo) && negb (getName_found e) then None
    else
      let dont_bother := if (sdk_int e <=? kSdkOreo) && needs_default_conflict e then kAccDefaultConflict else 0x02000000 in
      if (sdk_int e =? kSdkMarshmallow) && negb (getName_found e) then None
      else
        let dont_bother := if sdk_int e <? kSdkNougat then 0 else dont_bother in
        if (sdk_int e <=? kSdkMarshmallow) && negb (bridge_found e) then None
        else
          let interp := if (sdk_int e <=? kSdkMarshmallow) && (kSdkLollipopMr1 <=? sdk_int e)
            then u64 (entry - 2 * kPointerSize) else interp in
          Some {| art_method_size := size; entry_point_offset := entry; interpreter_entry_point_offset := interp;
                  data_offset := data; access_flags_offset := flags; declaring_class_offset := decl;
                  kAccFastInterpreterToInterpreterInvoke := fast; kAccPreCompiled := preCompiled;
                  kAccCompileDontBother := dont_bother; kAccIntrinsic := intrinsic |}.

(** ** Memory *)

Lemma read_bytes_length m a n : length (read_bytes m a n) = n.
Proof. revert a. induction n; intros; cbn; auto. Qed.

Lemma read_bytes_lookup m a n i : (i < n)%nat -> read_bytes m a n !! i = Some (m (a + Z.of_nat i)).
Proof.
  revert a i. induction n as [|n IH]; intros a [|i] Hi; [lia..|cbn; f_equal; f_equal; lia|].
  cbn. rewrite IH by lia. f_equal. f_equal. lia.
Qed.

Lemma read_bytes_agree m m' a n :
  (forall x, a <= x < a + Z.of_nat n -> m x = m' x) -> read_bytes m a n = read_bytes m' a n.
Proof.
  revert a. induction n as [|n IH]; intros a H; [done|]. cbn. f_equal; [apply H; lia|].
  apply IH. intros. apply H. lia.
Qed.

Lemma read_agree m m' a n : (forall x, a <= x < a + Z.of_nat n -> m x = m' x) -> read m a n = read m' a n.
Proof. intros. unfold read. f_equal. by apply read_bytes_agree. Qed.

Lemma read_write_bytes m a bs : read_bytes (write_bytes m a bs) a (length bs) = bs.
Proof.
  apply list_eq. intros i. destruct (decide (i < length bs)%nat) as [Hi|Hi].
  - rewrite read_bytes_lookup by done. destruct (lookup_lt_is_Some_2 bs i Hi) as [x Hx].
    by rewrite (write_bytes_in _ _ _ _ _ Hx), Hx.
  - rewrite !lookup_ge_None_2; [done|lia|rewrite read_bytes_length; lia].
Qed.

Lemma load32_store m a v : load32 (store32 a v m) a = trunc 32 v.
Proof.
  unfold load32, store32, read. change 4%nat with (length (le_bytes 4 v)) at 2.
  rewrite read_write_bytes, le_val_bytes. done.
Qed.

Lemma load64_store m a v : load64 (store64 a v m) a = trunc 64 v.
Proof.
  unfold load64, store64, read. change 8%nat with (length (le_bytes 8 v)) at 2.
  rewrite read_write_bytes, le_val_bytes. done.
Qed.

Lemma store32_out a v m x : x < a \/ a + 4 <= x -> store32 a v m x = m x.
Proof. intros. unfold store32. apply write_bytes_out. rewrite length_le_bytes. lia. Qed.
Lemma store64_out a v m x : x < a \/ a + 8 <= x -> store64 a v m x = m x.
Proof. intros. unfold store64. apply write_bytes_out. rewrite length_le_bytes. lia. Qed.

(** Memory of bytes: what every read of a scalar needs to be put back. *)
Definition bytes_ok (m : memory) : Prop := forall a, is_byte (m a).

Lemma bytes_ok_write m a bs : bytes_ok m -> Forall is_byte bs -> bytes_ok (write_bytes m a bs).
Proof.
  intros Hm Hb x. unfold write_bytes. destruct (_ && _); [|done].
  destruct (bs !! Z.to_nat (x - a)) as [y|] eqn:E; [|cbn; unfold is_byte; lia].
  rewrite Forall_lookup in Hb. by apply (Hb _ _ E).
Qed.

Lemma read_bytes_byte m a n : bytes_ok m -> Forall is_byte (read_bytes m a n).
Proof. intros Hm. revert a. induction n; intros; cbn; constructor; auto. Qed.

Lemma load32_range m a : bytes_ok m -> 0 <= load32 m a < 2 ^ 32.
Proof.
  intros Hm. pose proof (le_val_range _ (read_bytes_byte m a 4 Hm)) as H.
  by rewrite read_bytes_length in H.
Qed.

(** ** Methods *)

(** The fields lie inside the object and apart from each other. *)
Record globals_ok (G : art_globals) : Prop := {
  go_size : 0 < art_method_size G < 2 ^ 32;
  go_entry : 0 <= entry_point_offset G /\ entry_point_offset G + 8 <= art_method_size G;
  go_flags : 0 <= access_flags_offset G /\ access_flags_offset G + 4 <= art_method_size G;
  go_apart : access_flags_offset G + 4 <= entry_point_offset G \/ entry_point_offset G + 8 <= access_flags_offset G;
  go_interp : interpreter_entry_point_offset G = 0;
  go_class : 0 <= declaring_class_offset G /\ declaring_class_offset G + 4 <= art_method_size G /\
    (declaring_class_offset G + 4 <= entry_point_offset G \/ entry_point_offset G + 8 <= declaring_class_offset G) /\
    (declaring_class_offset G + 4 <= access_flags_offset G \/ access_flags_offset G + 4 <= declaring_class_offset G)
}.

Section Methods.
Context (G : art_globals) (HG : globals_ok G).

Abbreviation size := (art_method_size G).
Abbreviation flags_at t := (t + access_flags_offset G).
Abbreviation entry_at t := (t + entry_point_offset G).

Definition in_flags (t x : Z) : Prop := flags_at t <= x < flags_at t + 4.
Definition in_entry (t x : Z) : Prop := entry_at t <= x < entry_at t + 8.
Definition in_method (t x : Z) : Prop := t <= x < t + size.

Lemma update_flags_out f t m x : ~ in_flags t x -> update_flags G f t m x = m x.
Proof. intros H. unfold update_flags, SetAccessFlags. apply store32_out. unfold in_flags in H. lia. Qed.

Lemma update_flags_flags f t m : GetAccessFlags G t (update_flags G f t m) = trunc 32 (f (GetAccessFlags G t m)).
Proof. unfold update_flags, SetAccessFlags, GetAccessFlags. by rewrite load32_store. Qed.

Lemma bytes_ok_update f t m : bytes_ok m -> bytes_ok (update_flags G f t m).
Proof. intros. apply bytes_ok_write; [done|]. apply le_bytes_Forall. Qed.

(** The flags of a method depend on its flags word only. *)
Lemma flags_agree t m m' : (forall x, in_flags t x -> m x = m' x) -> GetAccessFlags G t m = GetAccessFlags G t m'.
Proof. intros H. apply read_agree. intros x Hx. apply H. exact Hx. Qed.

Lemma entry_agree t m m' : (forall x, in_entry t x -> m x = m' x) -> GetEntryPoint G t m = GetEntryPoint G t m'.
Proof. intros H. apply read_agree. intros x Hx. apply H. exact Hx. Qed.

Lemma CopyFrom_in this other m i :
  0 <= i < size -> CopyFrom G this other m (this + i) = m (other + i).
Proof.
  intros Hi. unfold CopyFrom. replace (this + i) with (this + Z.of_nat (Z.to_nat i)) by lia.
  erewrite write_bytes_in; [done|]. rewrite read_bytes_lookup by lia. do 2 f_equal. lia.
Qed.

Lemma CopyFrom_out this other m x : ~ in_method this x -> CopyFrom G this other m x = m x.
Proof.
  intros H. unfold CopyFrom. apply write_bytes_out. rewrite read_bytes_length.
  unfold in_method in H. pose proof (go_size _ HG). lia.
Qed.

Lemma bytes_ok_copy this other m : bytes_ok m -> bytes_ok (CopyFrom G this other m).
Proof. intros. apply bytes_ok_write; [done|]. by apply read_bytes_byte. Qed.

Lemma in_flags_method t x : in_flags t x -> in_method t x.
Proof. unfold in_flags, in_method. pose proof (go_flags _ HG). lia. Qed.
Lemma in_entry_method t x : in_entry t x -> in_method t x.
Proof. unfold in_entry, in_method. pose proof (go_entry _ HG). lia. Qed.
Lemma in_entry_flags t x : in_entry t x -> ~ in_flags t x.
Proof. unfold in_entry, in_flags. pose proof (go_apart _ HG). lia. Qed.

Lemma SetEntryPoint_out bridge t v m x : ~ in_entry t x -> SetEntryPoint G bridge t v m x = m x.
Proof.
  intros H. unfold SetEntryPoint. rewrite (go_interp _ HG). apply store64_out. unfold in_entry in H. lia.
Qed.
Lemma SetEntryPoint_entry bridge t v m : GetEntryPoint G t (SetEntryPoint G bridge t v m) = trunc 64 v.
Proof. unfold SetEntryPoint. rewrite (go_interp _ HG). apply load64_store. Qed.
End Methods.

(** ** What [Init] finds *)

(** On a runtime of Android 8 or later whose methods have their flags at offset 4,
    as ART lays them out, the search finds them, or finds the first word equal to
    them and falls back to 4; the fields do not overlap. *)
Lemma Init_globals_ok e m G flags :
  Init e m = Some G -> kSdkOreo <= sdk_int e -> real_flags e = Some flags -> load32 m (first e + 4) = flags ->
  24 <= second e - first e < 2 ^ 32 ->
  globals_ok G /\ access_flags_offset G = 4 /\ entry_point_offset G = second e - first e - 8.
Proof.
  intros HI Hsdk Hf H4 Hsz. unfold Init in HI. unfold kSdkMarshmallow, kSdkNougat, kSdkLollipopMr1, kSdkOreo in *.
  destruct (executable_found e); [|done]. cbn [negb] in HI.
  destruct (_ && negb (art_method_field_found e)); [done|]. destruct (_ || _); [done|].
  assert (Eo : init_offsets e m = (second e - first e, second e - first e - 8, 0, second e - first e - 16, 4, 0)).
  { unfold init_offsets, kSdkMarshmallow, kPointerSize. rewrite (proj2 (Z.leb_le 23 (sdk_int e))) by lia.
    rewrite (trunc_small 64 (second e - first e)), (trunc_small 64 (_ - 8)), (trunc_small 64 (_ - 8 - 8)) by lia.
    assert (Es : search_access_flags e (second e - first e) m = 0 \/ search_access_flags e (second e - first e) m = 4).
    { unfold search_access_flags. rewrite Hf. destruct (Z.to_nat (second e - first e)) as [|[|n]] eqn:En; [lia..|].
      cbn [find_flags]. rewrite (proj2 (Z.ltb_lt 0 _)) by lia. destruct (_ =? flags); [by left|].
      rewrite (proj2 (Z.ltb_lt (0 + 4) _)) by lia. rewrite Z.add_0_l, H4, Z.eqb_refl. by right. }
    replace (second e - first e - 8 - 8) with (second e - first e - 16) by lia. by destruct Es as [-> | ->]. }
  rewrite Eo in HI. destruct (shorty_found e); [|done]. cbn [negb] in HI.
  destruct (_ && negb (abstract_error_found e)); [done|]. destruct (_ && negb (getName_found e)); [done|].
  rewrite (proj2 (Z.eqb_neq (sdk_int e) 23)), (proj2 (Z.leb_gt (sdk_int e) 23)) in HI by lia. cbn [andb] in HI.
  injection HI as <-. cbn. split; [|done]. split; cbn; lia.
Qed.
