(* ===== verification/LsTrampoline.v ===== *)
(** LSPlant's trampolines: [lsplant_jni/lsplant.cc], from [GetTrampoline] to
    [GenerateTrampolineFor].

    A trampoline loads an [ArtMethod] into the first argument register and jumps to
    its entry point. Trampolines are handed out from pages; the address of the
    current page and the number of slots used in it share one atomic word. The
    atomic operations are separate definitions, from which [GenerateTrampolineFor]
    is put together here for one thread and the step relation of several threads
    in LsPool.

    Then what an AArch64 trampoline does when it is executed, and where slots are. *)
From S2P Require Import Prelude UtilityMacro Arm64Kit Arm64Isa Arm64Run Platform ArtMethod.

(** ** The code *)

Inductive Arch := kArm | kAArch64 | kX86 | kAmd64 | kRiscv64.

(** The bytes, the bit at which the entry point's offset goes, and the byte at
    which the method goes. *)
Definition GetTrampoline (a : Arch) : list byte * Z * Z :=
  match a with
  | kArm => ([0x00; 0x00; 0x9f; 0xe5; 0x00; 0xf0; 0x90; 0xe5; 0x78; 0x56; 0x34; 0x12], 32, 8)
  | kAArch64 =>
      ([0x60; 0x00; 0x00; 0x58; 0x10; 0x00; 0x40; 0xf8; 0x00; 0x02; 0x1f; 0xd6;
        0x78; 0x56; 0x34; 0x12; 0x78; 0x56; 0x34; 0x12], 44, 12)
  | kX86 => ([0xb8; 0x78; 0x56; 0x34; 0x12; 0xff; 0x70; 0x00; 0xc3], 56, 1)
  | kAmd64 => ([0x48; 0xbf; 0x78; 0x56; 0x34; 0x12; 0x78; 0x56; 0x34; 0x12; 0xff; 0x77; 0x00; 0xc3], 96, 2)
  | kRiscv64 =>
      ([0x17; 0x05; 0x00; 0x00; 0x03; 0x35; 0x05; 0x01; 0x83; 0x3f; 0x05; 0x00; 0x67; 0x80; 0x0f; 0x00;
        0x78; 0x56; 0x34; 0x12; 0x78; 0x56; 0x34; 0x12], 84, 16)
  end.

Definition CHAR_BIT := 8.

(** [|=] on one byte of the array. *)
Definition or_byte (i : Z) (v : Z) (l : list byte) : list byte :=
  match l !! Z.to_nat i with
  | Some b => <[Z.to_nat i := u8 (Z.lor b v)]> l
  | None => l
  end.

(** The argument is a [uint8_t]. *)
Definition UpdateTrampoline (entry_point_offset offset : Z) (trampoline : list byte) : list byte :=
  let offset := u8 offset in
  let trampoline := or_byte (entry_point_offset / CHAR_BIT) (Z.shiftl offset (entry_point_offset mod CHAR_BIT)) trampoline in
  or_byte (entry_point_offset / CHAR_BIT + 1) (Z.shiftr offset (CHAR_BIT - entry_point_offset mod CHAR_BIT)) trampoline.

(** The size of a pointer is the architecture's. *)
Definition pointer_size (a : Arch) : nat := match a with kArm | kX86 => 4 | _ => 8 end.

(** The trampoline for a method: the data written at a slot. *)
Definition trampoline_for (a : Arch) (offset hook : Z) : list byte :=
  let '(bytes, bit, at_) := GetTrampoline a in
  splice (Z.to_nat at_) (le_bytes (pointer_size a) hook) (UpdateTrampoline bit offset bytes).

(** [__builtin_align_up(trampoline.size(), kPointerSize)] on AArch64, which is what
    the rest of the file is for. *)
Definition kTrampolineSize : Z := (20 + kPointerSize - 1) / kPointerSize * kPointerSize.

(** ** The pool *)

Section Pool.
(** The page size is [2 ^ shift]; the count is 14 bits wide when that is 16384 and
    12 bits otherwise. *)
Context (shift : Z).

Definition kPageSize : Z := 2 ^ shift.
Definition kPageMask : Z := kPageSize - 1.
Definition count_bits : Z := if kPageSize =? 16384 then 14 else 12.
Definition kTrampolineNumPerPage : Z := kPageSize / kTrampolineSize.

Definition tl_count (address : Z) : Z := trunc count_bits address.
Definition tl_address (address : Z) : Z := Z.land address (Z.lnot kPageMask).
(** The union's word with its count replaced. *)
Definition with_count (address count : Z) : Z := address - tl_count address + trunc count_bits count.

Definition fetch_add (pool : Z) : Z := u64 (pool + 1).
Definition is_full (tl : Z) : bool := (tl_address tl =? 0) || (kTrampolineNumPerPage <=? tl_count tl).
Definition slot_of (tl : Z) : Z := u64 (tl_address tl + tl_count tl * kTrampolineSize).
Definition new_pool (address : Z) : Z := with_count address (0 + 1).

(** ** Memory for the pages *)

(** Two mappings of the same file: reserved space and both [mmap]s. *)
Record dual_calls := { reserved : option Z; mapped : bool }.
(** What the system calls answer to one [AllocateMemory]. *)
Record alloc_calls := {
  memfd_create : bool; memfd_truncate : bool; memfd_maps : dual_calls;
  ashmem_open : bool; ashmem_set_size : bool; ashmem_maps : dual_calls;
  anonymous : option Z
}.

Record regions := { use_memfd : bool; use_ashmem : bool; mmap_regions : list Z; dual_regions : list Z }.

Definition CreateDualMapping (c : dual_calls) (r : regions) : option Z * regions :=
  match reserved c with
  | None => (None, r)
  | Some a =>
      if mapped c then
        (Some a, {| use_memfd := use_memfd r; use_ashmem := use_ashmem r; mmap_regions := mmap_regions r;
                    dual_regions := a :: dual_regions r |})
      else (None, r)
  end.

Definition AllocateMemoryFromMemfd (c : alloc_calls) (r : regions) : option Z * regions :=
  if negb (memfd_create c) then (None, r)
  else if negb (memfd_truncate c) then (None, r)
  else CreateDualMapping (memfd_maps c) r.

Definition AllocateMemoryFromAshmem (c : alloc_calls) (r : regions) : option Z * regions :=
  if negb (ashmem_open c) then (None, r)
  else if negb (ashmem_set_size c) then (None, r)
  else CreateDualMapping (ashmem_maps c) r.

(** A source that fails once is not tried again. *)
Definition AllocateMemory (c : alloc_calls) (r : regions) : option Z * regions :=
  let '(m, r) := if use_memfd r then AllocateMemoryFromMemfd c r else (None, r) in
  match m with
  | Some a => (Some a, r)
  | None =>
      let r := {| use_memfd := false; use_ashmem := use_ashmem r; mmap_regions := mmap_regions r; dual_regions := dual_regions r |} in
      let '(m, r) := if use_ashmem r then AllocateMemoryFromAshmem c r else (None, r) in
      match m with
      | Some a => (Some a, r)
      | None =>
          let r := {| use_memfd := use_memfd r; use_ashmem := false; mmap_regions := mmap_regions r; dual_regions := dual_regions r |} in
          match anonymous c with
          | Some a => (Some a, {| use_memfd := use_memfd r; use_ashmem := use_ashmem r;
                                  mmap_regions := a :: mmap_regions r; dual_regions := dual_regions r |})
          | None => (None, r)
          end
      end
  end.

(** ** Generation *)

Record trampolines := { pool : Z; lock : bool; areas : regions }.
Definition noTrampolines : trampolines :=
  {| pool := 0; lock := false;
     areas := {| use_memfd := true; use_ashmem := true; mmap_regions := []; dual_regions := [] |} |}.

(** The address of a slot, one thread: the lock is free, so that there is one round.
    [None] when no page could be had. *)
Definition take_slot (c : alloc_calls) (s : trampolines) : option Z * trampolines :=
  let tl := pool s in
  let s := {| pool := fetch_add (pool s); lock := lock s; areas := areas s |} in
  if is_full tl then
    let '(m, r) := AllocateMemory c (areas s) in
    match m with
    | None => (None, {| pool := pool s; lock := false; areas := r |})
    | Some address => (Some (u64 (address + 0 * kTrampolineSize)), {| pool := new_pool address; lock := false; areas := r |})
    end
  else (Some (slot_of tl), s).

(** The bytes go through the writable mapping of a page that has two, which shows
    them at both addresses. *)
Definition write_slot (r : regions) (address : Z) (data : list byte) (m : memory) : memory :=
  let page := address - address mod kPageSize in
  if bool_decide (page ∈ dual_regions r)
  then write_bytes (write_bytes m (address + kPageSize) data) address data
  else write_bytes m address data.

(** [executable_memory_allocator], when there is one, answers an address for the data. *)
Definition GenerateTrampolineFor (allocator : option (list byte -> memory -> option (Z * memory)))
    (data : list byte) (c : alloc_calls) (s : trampolines) (m : memory) : option Z * trampolines * memory :=
  match match allocator with Some f => f data m | None => None end with
  | Some (a, m) => (Some a, s, m)
  | None =>
      match take_slot c s with
      | (Some a, s) => (Some a, s, write_slot (areas s) a data m)
      | (None, s) => (None, s, m)
      end
  end.
End Pool.

(** [LDUR Xt, [Xn, #imm9]], which the instruction model leaves to its parameter. *)
Definition ldur (w : Z) (c : core) : option core :=
  if (bits w 21 31 =? 0x7C2) && (bits w 10 11 =? 0)
  then Some (set_x (bits w 0 4) (read (mem c) (u64 (get_xsp c (bits w 5 9) + sext 9 (bits w 12 20))) 8) c)
  else None.

Definition LDR_X0 := 0x58000060.
Definition LDUR_X16 (offset : Z) := 0xF8400010 + offset * 2 ^ 12.
Definition BR_X16 := 0xD61F0200.

Definition trampoline_words (offset : Z) : list byte :=
  le_bytes 4 LDR_X0 ++ le_bytes 4 (LDUR_X16 offset) ++ le_bytes 4 BR_X16.

Lemma below_256 (P : Z -> bool) : forallb P (List.map Z.of_nat (seq 0 256)) = true -> forall x, 0 <= x < 256 -> P x = true.
Proof.
  intros H x Hx. rewrite forallb_forall in H. apply H. rewrite List.in_map_iff. exists (Z.to_nat x).
  split; [lia|]. apply in_seq. lia.
Qed.

Lemma update_trampoline_words offset :
  0 <= offset < 256 ->
  take 12 (UpdateTrampoline 44 offset (GetTrampoline kAArch64).1.1) = trampoline_words offset /\
  length (UpdateTrampoline 44 offset (GetTrampoline kAArch64).1.1) = 20%nat.
Proof.
  intros H.
  assert (E : bool_decide (take 12 (UpdateTrampoline 44 offset (GetTrampoline kAArch64).1.1) = trampoline_words offset /\
    length (UpdateTrampoline 44 offset (GetTrampoline kAArch64).1.1) = 20%nat) = true).
  { revert offset H. apply below_256. vm_compute. reflexivity. }
  by apply bool_decide_eq_true in E.
Qed.

Lemma trampoline_for_words offset hook :
  0 <= offset < 256 -> trampoline_for kAArch64 offset hook = trampoline_words offset ++ le_bytes 8 hook.
Proof.
  intros H. destruct (update_trampoline_words offset H) as [E Hl]. unfold trampoline_for.
  set (t := UpdateTrampoline 44 offset (GetTrampoline kAArch64).1.1) in *.
  change (splice 12 (le_bytes 8 hook) t = trampoline_words offset ++ le_bytes 8 hook).
  unfold splice. rewrite E, length_le_bytes, (drop_ge t) by lia. by rewrite app_nil_r.
Qed.

Lemma decode_words offset :
  0 <= offset < 256 ->
  decode (u32 LDR_X0) = ILDRlit true 0 12 /\ decode (u32 (LDUR_X16 offset)) = IOther (LDUR_X16 offset) /\
  decode (u32 BR_X16) = IBR 16.
Proof.
  intros H. split; [reflexivity|split; [|reflexivity]].
  assert (E : (match decode (u32 (LDUR_X16 offset)) with IOther w => w =? LDUR_X16 offset | _ => false end) = true).
  { revert offset H. apply below_256. vm_compute. reflexivity. }
  destruct (decode _); try done. apply Z.eqb_eq in E. by subst.
Qed.

Lemma ldur_exec offset c :
  0 <= offset < 256 ->
  ldur (LDUR_X16 offset) c = Some (set_x 16 (read (mem c) (u64 (get_xsp c 0 + offset)) 8) c).
Proof.
  intros H. unfold ldur.
  assert (E : ((bits (LDUR_X16 offset) 21 31 =? 0x7C2) && (bits (LDUR_X16 offset) 10 11 =? 0) &&
    (bits (LDUR_X16 offset) 0 4 =? 16) && (bits (LDUR_X16 offset) 5 9 =? 0) &&
    (sext 9 (bits (LDUR_X16 offset) 12 20) =? offset)) = true).
  { revert offset H. apply below_256. vm_compute. reflexivity. }
  rewrite !andb_true_iff, !Z.eqb_eq in E. destruct E as [[[[-> ->] ->] ->] ->]. reflexivity.
Qed.

(** Executing a trampoline for [hook] at [a]. *)
Lemma trampoline_steps a offset hook c :
  0 <= a -> a + 20 < 2 ^ 64 -> 0 <= offset < 256 -> 0 <= hook -> hook + 256 < 2 ^ 64 ->
  code_at (mem c) a (trampoline_for kAArch64 offset hook) ->
  steps ldur (a, c)
    (load64 (mem c) (hook + offset), set_x 16 (load64 (mem c) (hook + offset)) (set_x 0 hook c)).
Proof.
  intros Ha Ha2 Ho Hh Hh2 Hc. rewrite trampoline_for_words in Hc by done.
  destruct (decode_words offset Ho) as (D0 & D1 & D2).
  set (t := trampoline_words offset ++ le_bytes 8 hook) in *.
  assert (Hl : length t = 20%nat) by (unfold t, trampoline_words; rewrite !length_app, !length_le_bytes; done).
  assert (R : forall o n x, t = take o t ++ le_bytes n x ++ drop (o + n) t -> (o + n <= 20)%nat ->
    read (mem c) (a + Z.of_nat o) n = trunc (8 * Z.of_nat n) x).
  { intros o n x E Hn. rewrite (code_at_read _ _ t _ _ Hc) by lia. rewrite Nat2Z.id, E.
    unfold slice. rewrite drop_app_length' by (rewrite length_take; lia).
    rewrite take_app_length' by (by rewrite length_le_bytes). apply le_val_bytes. }
  pose proof (R 0%nat 4%nat LDR_X0 eq_refl ltac:(lia)) as R0.
  pose proof (R 4%nat 4%nat (LDUR_X16 offset) eq_refl ltac:(lia)) as R1.
  pose proof (R 8%nat 4%nat BR_X16 eq_refl ltac:(lia)) as R2.
  pose proof (R 12%nat 8%nat hook eq_refl ltac:(lia)) as R3.
  change (8 * Z.of_nat 4) with 32 in *. change (8 * Z.of_nat 8) with 64 in *.
  change (Z.of_nat 4) with 4 in *. change (Z.of_nat 8) with 8 in *. change (Z.of_nat 12) with 12 in *.
  change (Z.of_nat 0) with 0 in *. rewrite Z.add_0_r in R0. rewrite (trunc_small 64 hook) in R3 by lia.
  eapply steps_step; [unfold step; cbn [fst snd]; rewrite R0, D0; cbn [exec]|].
  { rewrite (trunc_small 64 (a + 12)), R3, (trunc_small 64 (a + 4)) by lia. reflexivity. }
  eapply steps_step; [unfold step; cbn [fst snd]; rewrite mem_set_x, R1, D1; cbn [exec]|].
  { rewrite (ldur_exec offset) by done. rewrite get_xsp_set_x, mem_set_x by done.
    rewrite (trunc_small 64 (hook + offset)), (trunc_small 64 (a + 4 + 4)) by lia. reflexivity. }
  apply steps_one. unfold step. cbn [fst snd]. replace (a + 4 + 4) with (a + 8) by lia.
  rewrite !mem_set_x, R2, D2. cbn [exec]. by rewrite get_set_x by done.
Qed.
