(* ===== verification/LsPool.v ===== *)
(** Several threads in [GenerateTrampolineFor]: the loop of [lsplant.cc] as a step
    relation, one atomic operation at a time.

    A thread is where it is in the loop. The state also records the pages and the
    slots that have been handed out, which the code does not keep.

    Then the invariant of that relation. *)
From S2P Require Import Prelude LsTrampoline.

Inductive phase :=
| Idle                  (* before [fetch_add] *)
| Full                  (* no slot was left, before [test_and_set] *)
| Waiting               (* in [wait] *)
| Locked                (* holds the lock, before [AllocateMemory] *)
| Fresh (page : Z)      (* before [store] *)
| Stored (page : Z)     (* before [clear] *)
| NoPage                (* [AllocateMemory] failed, before [clear] *)
| Got (slot : Z)        (* out of the loop *)
| NoSlot.               (* returned null *)

Record pool_state := { word : Z; locked : bool; threads : list phase; pages : list Z; slots : list Z }.

Section Steps.
Context (shift : Z) (may_fail : bool).

(** A page that was not mapped. *)
Definition new_page (a : Z) (s : pool_state) : Prop :=
  0 < a /\ a < 2 ^ 63 /\ a mod kPageSize shift = 0 /\ a ∉ pages s.

Definition goes (i : nat) (ph : phase) (s : pool_state) : list phase := <[i := ph]> (threads s).

Inductive pool_step (i : nat) (s : pool_state) : pool_state -> Prop :=
| step_slot :
    threads s !! i = Some Idle -> is_full shift (word s) = false ->
    pool_step i s {| word := fetch_add (word s); locked := locked s; threads := goes i (Got (slot_of shift (word s))) s;
                     pages := pages s; slots := slot_of shift (word s) :: slots s |}
| step_full :
    threads s !! i = Some Idle -> is_full shift (word s) = true ->
    pool_step i s {| word := fetch_add (word s); locked := locked s; threads := goes i Full s;
                     pages := pages s; slots := slots s |}
| step_blocked :
    threads s !! i = Some Full -> locked s = true ->
    pool_step i s {| word := word s; locked := true; threads := goes i Waiting s; pages := pages s; slots := slots s |}
| step_lock :
    threads s !! i = Some Full -> locked s = false ->
    pool_step i s {| word := word s; locked := true; threads := goes i Locked s; pages := pages s; slots := slots s |}
| step_wake :
    threads s !! i = Some Waiting -> locked s = false ->
    pool_step i s {| word := word s; locked := false; threads := goes i Idle s; pages := pages s; slots := slots s |}
| step_allocate a :
    threads s !! i = Some Locked -> new_page a s ->
    pool_step i s {| word := word s; locked := locked s; threads := goes i (Fresh a) s; pages := a :: pages s; slots := slots s |}
| step_fail :
    threads s !! i = Some Locked -> may_fail = true ->
    pool_step i s {| word := word s; locked := locked s; threads := goes i NoPage s; pages := pages s; slots := slots s |}
| step_store a :
    threads s !! i = Some (Fresh a) ->
    pool_step i s {| word := new_pool shift a; locked := locked s; threads := goes i (Stored a) s;
                     pages := pages s; slots := u64 (a + 0 * kTrampolineSize) :: slots s |}
| step_clear a :
    threads s !! i = Some (Stored a) ->
    pool_step i s {| word := word s; locked := false; threads := goes i (Got (u64 (a + 0 * kTrampolineSize))) s;
                     pages := pages s; slots := slots s |}
| step_clear_fail :
    threads s !! i = Some NoPage ->
    pool_step i s {| word := word s; locked := false; threads := goes i NoSlot s; pages := pages s; slots := slots s |}
| step_return ph :
    threads s !! i = Some ph -> (ph = NoSlot \/ exists a, ph = Got a) ->
    pool_step i s {| word := word s; locked := locked s; threads := goes i Idle s; pages := pages s; slots := slots s |}.

Definition initial (n : nat) : pool_state :=
  {| word := 0; locked := false; threads := replicate n Idle; pages := []; slots := [] |}.

Inductive reachable (n : nat) : pool_state -> Prop :=
| reach_initial : reachable n (initial n)
| reach_step i s s' : reachable n s -> pool_step i s s' -> reachable n s'.
End Steps.

(** ** The word *)

Definition shift_ok (shift : Z) : Prop := shift = 12 \/ shift = 14.

Section Word.
Context (shift : Z) (Hs : shift_ok shift).

Lemma count_bits_shift : count_bits shift = shift.
Proof. destruct Hs as [-> | ->]; reflexivity. Qed.

Lemma page_pos : 0 < kPageSize shift.
Proof. unfold kPageSize. apply Z.pow_pos_nonneg; destruct Hs as [-> | ->]; lia. Qed.

Lemma page_small : kPageSize shift <= 2 ^ 14.
Proof. destruct Hs as [-> | ->]; unfold kPageSize; lia. Qed.

Lemma slots_fit i : 0 <= i < kTrampolineNumPerPage shift -> 0 <= i * kTrampolineSize /\ i * kTrampolineSize + kTrampolineSize <= kPageSize shift.
Proof.
  assert (H : kTrampolineNumPerPage shift * kTrampolineSize <= kPageSize shift).
  { destruct Hs as [-> | ->]; vm_compute; discriminate. }
  assert (kTrampolineSize = 24) by reflexivity. nia.
Qed.

(** A word made of a page and a count. *)
Lemma tl_count_split page count :
  page mod kPageSize shift = 0 -> 0 <= count < kPageSize shift -> tl_count shift (page + count) = count.
Proof.
  intros Hp Hc. unfold tl_count, trunc. rewrite count_bits_shift. fold (kPageSize shift).
  rewrite <- Zplus_mod_idemp_l, Hp. by apply Z.mod_small.
Qed.

Lemma tl_address_split page count :
  page mod kPageSize shift = 0 -> 0 <= count < kPageSize shift -> tl_address shift (page + count) = page.
Proof.
  intros Hp Hc. unfold tl_address, kPageMask, kPageSize. rewrite land_lnot_aligned by (destruct Hs; lia).
  fold (kPageSize shift). rewrite <- Zplus_mod_idemp_l, Hp, Z.mod_small by done. lia.
Qed.

Lemma new_pool_split page : page mod kPageSize shift = 0 -> new_pool shift page = page + 1.
Proof.
  intros Hp. unfold new_pool, with_count. pose proof page_pos. pose proof page_small.
  rewrite <- (Z.add_0_r page) at 2. rewrite tl_count_split by (done || lia).
  rewrite trunc_small; [lia|]. rewrite count_bits_shift. destruct Hs as [-> | ->]; lia.
Qed.
End Word.

(** ** The invariant *)

Inductive lock_phase := Free | Pre | Post.

(** How often a thread may have found the pool full since the last [store]. *)
Definition cap (lp : lock_phase) (ph : phase) : nat :=
  match lp, ph with
  | Post, (Full | Waiting) => 1
  | Post, _ => 0
  | Free, Full => 2
  | Free, _ => 1
  | Pre, (Full | Waiting | Locked | Fresh _) => 2
  | Pre, _ => 1
  end.

Definition holder (ph : phase) : bool := match ph with Locked | Fresh _ | Stored _ | NoPage => true | _ => false end.
Definition is_stored (ph : phase) : bool := match ph with Stored _ => true | _ => false end.

Section Inv.
Context (shift : Z) (n : nat).
Abbreviation K := (kTrampolineNumPerPage shift).
Abbreviation page_size := (kPageSize shift).

(** A slot of a page. *)
Definition slot_in (p i : Z) : Z := p + i * kTrampolineSize.

Record inv_lock (s : pool_state) : Prop := {
  il_len : length (threads s) = n;
  il_free : locked s = false -> forall i ph, threads s !! i = Some ph -> holder ph = false;
  il_one : forall i j ph ph', threads s !! i = Some ph -> threads s !! j = Some ph' -> holder ph = true -> holder ph' = true -> i = j;
  il_nofail : forall i, threads s !! i <> Some NoPage
}.

Record inv_slots (s : pool_state) (page count : Z) : Prop := {
  is_pages : Forall (fun p => 0 < p /\ p < 2 ^ 63 /\ p mod page_size = 0) (pages s);
  is_word : word s = page + count;
  is_count : 0 <= count;
  is_page : page = 0 \/ page ∈ pages s;
  is_slots : Forall (fun a => exists p i, a = slot_in p i /\ p ∈ pages s /\ 0 <= i < K /\ (p = page -> i < count)) (slots s);
  is_nodup : NoDup (slots s);
  is_fresh : forall i a, threads s !! i = Some (Fresh a) -> a ∈ pages s /\ a <> page /\
    (forall k, 0 <= k < K -> slot_in a k ∉ slots s) /\ forall j, threads s !! j = Some (Fresh a) -> j = i
}.

Record inv_count (s : pool_state) (count : Z) (lp : lock_phase) (fs : list nat) : Prop := {
  ic_bound : count <= K + Z.of_nat (sum_list fs);
  ic_cap : Forall2 (fun ph f => (f <= cap lp ph)%nat) (threads s) fs;
  ic_phase : match lp with
    | Free => locked s = false
    | Pre => locked s = true /\ forall i ph, threads s !! i = Some ph -> is_stored ph = false
    | Post => locked s = true /\ forall i ph, threads s !! i = Some ph -> holder ph = true -> is_stored ph = true
    end
}.

Definition pool_inv (s : pool_state) : Prop :=
  inv_lock s /\ exists page count lp fs, inv_slots s page count /\ inv_count s count lp fs.

(** ** Preservation: slots *)

Context (Hs : shift_ok shift).

Lemma goes_lookup i ph s j ph' :
  goes i ph s !! j = Some ph' -> (j = i /\ ph' = ph) \/ (j <> i /\ threads s !! j = Some ph').
Proof.
  unfold goes. intros H. destruct (decide (j = i)) as [->|Hne].
  - apply list_lookup_insert_Some in H as [(_ & <- & _)|[? _]]; [by left|done].
  - rewrite list_lookup_insert_ne in H by done. by right.
Qed.

Lemma goes_self i ph s : (i < length (threads s))%nat -> goes i ph s !! i = Some ph.
Proof. intros. by apply list_lookup_insert_eq. Qed.

(** A slot's page can be read off it. *)
Lemma slot_in_inj p i p' i' :
  p mod page_size = 0 -> p' mod page_size = 0 -> 0 <= i < K -> 0 <= i' < K ->
  slot_in p i = slot_in p' i' -> p = p' /\ i = i'.
Proof.
  unfold slot_in. intros Hp Hp' Hi Hi' E.
  pose proof (slots_fit shift Hs i Hi). pose proof (slots_fit shift Hs i' Hi'). pose proof (page_pos shift Hs).
  pose proof (Z.div_mod p page_size ltac:(lia)). pose proof (Z.div_mod p' page_size ltac:(lia)).
  assert (kTrampolineSize = 24) by reflexivity.
  assert (p / page_size = p' / page_size) by nia. split; nia.
Qed.

Lemma inv_slots_goes s page count i ph lk :
  inv_slots s page count -> (forall a, ph <> Fresh a) ->
  inv_slots {| word := word s; locked := lk; threads := goes i ph s; pages := pages s; slots := slots s |} page count.
Proof.
  intros [? ? ? ? ? ? Hf] Hph. split; cbn; try done. intros j a Hj.
  apply goes_lookup in Hj as [[_ E]|[Hne Hj]]; [by destruct (Hph a)|].
  destruct (Hf j a Hj) as (? & ? & ? & Hu). split_and!; try done. intros k Hk.
  apply goes_lookup in Hk as [[_ E]|[_ Hk]]; [by destruct (Hph a)|by apply Hu].
Qed.

Lemma page_range s page count :
  inv_slots s page count -> 0 <= page < 2 ^ 63 /\ page mod page_size = 0.
Proof.
  intros [Hp _ _ [->|H] _ _ _]; [split; [lia|apply Zmod_0_l]|]. rewrite Forall_forall in Hp.
  destruct (Hp page H) as (? & ? & ?). lia.
Qed.

Lemma fetch_word_apart s page count :
  inv_slots s page count -> count + 1 < page_size -> fetch_add (word s) = page + (count + 1).
Proof.
  intros H Hc. destruct (page_range _ _ _ H) as [? _]. pose proof (page_small shift Hs).
  destruct H as [_ -> ? _ _ _ _]. unfold fetch_add. rewrite trunc_small; lia.
Qed.

Lemma inv_slots_full s page count i :
  inv_slots s page count -> count + 1 < page_size ->
  inv_slots {| word := fetch_add (word s); locked := locked s; threads := goes i Full s; pages := pages s; slots := slots s |}
    page (count + 1).
Proof.
  intros H Hc. rewrite (fetch_word_apart _ _ _ H Hc).
  destruct (inv_slots_goes s page count i Full (locked s) H ltac:(done)) as [? _ ? ? Hsl ? ?].
  split; cbn in *; try done; [lia|]. eapply Forall_impl; [exact Hsl|]. intros a (p & k & ? & ? & ? & Hk).
  exists p, k. split_and!; try done; [lia|lia|]. intros E. specialize (Hk E). lia.
Qed.

Lemma inv_slots_slot s page count i :
  inv_slots s page count -> is_full shift (word s) = false -> count + 1 < page_size ->
  slot_of shift (word s) = slot_in page count /\ count < K /\
  inv_slots {| word := fetch_add (word s); locked := locked s; threads := goes i (Got (slot_of shift (word s))) s;
               pages := pages s; slots := slot_of shift (word s) :: slots s |} page (count + 1).
Proof.
  intros H Hf Hc. destruct (page_range _ _ _ H) as [Hr Hm]. pose proof (is_word _ _ _ H) as Hw.
  pose proof (is_count _ _ _ H) as H0. pose proof (is_page _ _ _ H) as Hpg.
  rewrite Hw in Hf. unfold is_full in Hf. rewrite tl_address_split, tl_count_split in Hf by (done || lia).
  apply orb_false_iff in Hf as [Hz%Z.eqb_neq Hk%Z.leb_gt].
  assert (Hpp : page ∈ pages s) by (by destruct Hpg).
  assert (E : slot_of shift (word s) = slot_in page count).
  { rewrite Hw. unfold slot_of. rewrite tl_address_split, tl_count_split by (done || lia).
    pose proof (slots_fit shift Hs count ltac:(lia)). pose proof (page_small shift Hs).
    assert (kTrampolineSize = 24) by reflexivity. rewrite trunc_small; [done|]. lia. }
  split_and!; [done|done|]. rewrite (fetch_word_apart _ _ _ H Hc), E.
  pose proof (inv_slots_goes s page count i (Got (slot_of shift (word s))) (locked s) H ltac:(done)) as H'.
  rewrite E in H'. destruct H' as [? _ ? ? Hsl Hnd Hfr]. cbn in *. split; cbn; try done.
  - lia.
  - constructor; [exists page, count; split_and!; (done || lia)|].
    eapply Forall_impl; [exact Hsl|]. intros a (p & k & ? & ? & ? & Hkc).
    exists p, k. split_and!; (done || lia).
  - apply NoDup_cons. split; [|done]. intros Hin. rewrite Forall_forall in Hsl.
    destruct (Hsl _ Hin) as (p & k & Ep & Hp & Hkr & Hkc).
    assert (Hpm : p mod page_size = 0) by (rewrite Forall_forall in *; naive_solver).
    destruct (slot_in_inj page count p k Hm Hpm ltac:(lia) Hkr Ep) as [<- <-]. specialize (Hkc eq_refl). lia.
  - intros j a Hj. destruct (Hfr j a Hj) as (Ha & Hap & Hno & Hu). split_and!; try done.
    intros k Hkr. apply not_elem_of_cons. split; [|by apply Hno]. intros Es.
    assert (Ham : a mod page_size = 0) by (rewrite Forall_forall in *; naive_solver).
    by destruct (slot_in_inj a k page count Ham Hm Hkr ltac:(lia) Es) as [? _].
Qed.

Lemma inv_slots_allocate s page count i a :
  inv_slots s page count -> new_page shift a s -> (forall j b, threads s !! j = Some (Fresh b) -> j = i) ->
  inv_slots {| word := word s; locked := locked s; threads := goes i (Fresh a) s; pages := a :: pages s; slots := slots s |}
    page count.
Proof.
  intros H (Ha0 & Ha1 & Ham & Hnew) Hone. pose proof (is_page _ _ _ H) as Hpg.
  destruct H as [Hp Hw Hc _ Hsl Hnd Hfr]. split; cbn; try done.
  - by constructor.
  - destruct Hpg; [by left|right; by right].
  - eapply Forall_impl; [exact Hsl|]. intros b (p & k & ? & ? & ?). exists p, k. split_and!; try done; [by right|lia..].
  - intros j b Hj. apply goes_lookup in Hj as [[-> [= ->]]|[Hne Hj]]; [|by destruct Hne; eapply Hone].
    split_and!; [by left| | |].
    + destruct Hpg as [->|?]; [lia|]. by intros ->.
    + intros k Hk Hin. rewrite Forall_forall in Hsl, Hp. destruct (Hsl _ Hin) as (p & k' & E & Hpp & Hk' & _).
      destruct (Hp p Hpp) as (_ & _ & Hpm). destruct (slot_in_inj a k p k' Ham Hpm Hk Hk' E) as [-> _]. done.
    + intros k Hk. apply goes_lookup in Hk as [[-> _]|[_ Hk]]; [done|by eapply Hone].
Qed.

Lemma inv_slots_store s page count i a :
  inv_slots s page count -> threads s !! i = Some (Fresh a) ->
  inv_slots {| word := new_pool shift a; locked := locked s; threads := goes i (Stored a) s; pages := pages s;
               slots := u64 (a + 0 * kTrampolineSize) :: slots s |} a 1.
Proof.
  intros H Hi. destruct (is_fresh _ _ _ H i a Hi) as (Ha & Hap & Hno & Hu).
  destruct (inv_slots_goes s page count i (Stored a) (locked s) H ltac:(done)) as [Hp _ _ _ Hsl Hnd Hfr]. cbn in *.
  assert (Hr : 0 < a /\ a < 2 ^ 63 /\ a mod page_size = 0) by (rewrite Forall_forall in Hp; by apply Hp).
  assert (HK : 1 <= K) by (destruct Hs as [-> | ->]; vm_compute; discriminate).
  assert (E : u64 (a + 0 * kTrampolineSize) = slot_in a 0) by (unfold slot_in; rewrite trunc_small; lia).
  rewrite E. split; cbn; try done.
  - rewrite new_pool_split by (done || tauto). reflexivity.
  - by right.
  - constructor; [exists a, 0; split_and!; (done || lia)|]. rewrite Forall_forall in Hsl |- *. intros b Hb.
    destruct (Hsl b Hb) as (p & k & -> & Hpp & Hk & _). exists p, k. split_and!; try done; try lia.
    intros ->. by destruct (Hno k Hk).
  - apply NoDup_cons. split; [|done]. apply Hno. lia.
  - intros j b Hj. destruct (Hfr j b Hj) as (Hb & Hbp & Hnob & Hub).
    assert (Hj' : threads s !! j = Some (Fresh b)) by (apply goes_lookup in Hj as [[_ ?]|[_ ?]]; done).
    assert (Hba : b <> a).
    { intros ->. assert (j = i) as -> by (by apply Hu). apply goes_lookup in Hj as [[_ ?]|[? _]]; done. }
    split_and!; try done. intros k Hk. apply not_elem_of_cons. split; [|by apply Hnob]. intros Es.
    assert (Hbm : b mod page_size = 0) by (rewrite Forall_forall in Hp; by apply Hp).
    by destruct (slot_in_inj b k a 0 Hbm ltac:(tauto) Hk ltac:(lia) Es) as [? _].
Qed.

(** ** Preservation: the count *)

Lemma sum_list_insert (fs : list nat) i f f' :
  fs !! i = Some f -> (sum_list (<[i := f']> fs) + f = sum_list fs + f')%nat.
Proof.
  revert i. induction fs as [|g fs IH]; intros [|i] H; try done; simpl in *.
  - injection H as ->. lia.
  - specialize (IH i H). unfold insert in *. lia.
Qed.

Lemma cap_two lp ph : (cap lp ph <= 2)%nat.
Proof. destruct lp, ph; cbn; lia. Qed.

Lemma sum_caps lp ths fs : Forall2 (fun ph f => (f <= cap lp ph)%nat) ths fs -> (sum_list fs <= 2 * length ths)%nat.
Proof. induction 1 as [|ph f ths fs Hf _ IH]; cbn; [lia|]. pose proof (cap_two lp ph). lia. Qed.

Lemma caps_goes lp lp' s fs i ph ph' f' :
  Forall2 (fun ph f => (f <= cap lp ph)%nat) (threads s) fs -> threads s !! i = Some ph -> (f' <= cap lp' ph')%nat ->
  (forall j ph f, j <> i -> threads s !! j = Some ph -> (f <= cap lp ph)%nat -> (f <= cap lp' ph)%nat) ->
  Forall2 (fun ph f => (f <= cap lp' ph)%nat) (goes i ph' s) (<[i := f']> fs).
Proof.
  intros HF Hi Hf' Hmono. apply Forall2_same_length_lookup. split.
  { unfold goes. rewrite !length_insert. by apply Forall2_length in HF. }
  intros j p f Hp Hf. apply goes_lookup in Hp as [[-> ->]|[Hne Hp]].
  - apply list_lookup_insert_Some in Hf as [(_ & <- & _)|[? _]]; done.
  - rewrite list_lookup_insert_ne in Hf by done. apply (Hmono j p f Hne Hp).
    by eapply (Forall2_lookup_lr _ _ _ _ _ _ HF).
Qed.

(** A thread that moves within one phase of the lock. *)
Lemma inv_count_goes s count lp fs i ph ph' f w' lk' pg' sl' c' f' :
  inv_count s count lp fs -> threads s !! i = Some ph -> fs !! i = Some f ->
  (f' <= cap lp ph')%nat -> c' - Z.of_nat f' <= count - Z.of_nat f \/ c' <= K ->
  match lp with
  | Free => lk' = false
  | Pre => lk' = true /\ is_stored ph' = false
  | Post => lk' = true /\ (holder ph' = true -> is_stored ph' = true)
  end ->
  inv_count {| word := w'; locked := lk'; threads := goes i ph' s; pages := pg'; slots := sl' |} c' lp (<[i := f']> fs).
Proof.
  intros [Hb Hc Hp] Hi Hf Hf' Hc' Hlp. split; cbn.
  - pose proof (sum_list_insert fs i f f' Hf). destruct Hc'; lia.
  - by eapply caps_goes.
  - destruct lp; [done|..]; destruct Hlp as [-> Hlp]; destruct Hp as [_ Hp]; (split; [done|]);
      intros j p Hj; apply goes_lookup in Hj as [[_ ->]|[_ Hj]]; eauto.
Qed.

(** ** Preservation: the lock *)

Lemma inv_lock_goes s i ph ph' w' lk' pg' sl' :
  inv_lock s -> threads s !! i = Some ph -> ph' <> NoPage ->
  (lk' = locked s /\ holder ph' = holder ph \/
   lk' = true /\ locked s = false \/
   lk' = false /\ holder ph = true /\ holder ph' = false) ->
  inv_lock {| word := w'; locked := lk'; threads := goes i ph' s; pages := pg'; slots := sl' |}.
Proof.
  intros [Hlen Hfree Hone Hnf] Hi Hnp Hcase. split; cbn.
  - unfold goes. by rewrite length_insert.
  - intros Hl j p Hj. apply goes_lookup in Hj as [[-> ->]|[Hne Hj]].
    + destruct Hcase as [[-> ->]|[[-> _]|(_ & _ & ->)]]; [by eapply Hfree|done|done].
    + destruct Hcase as [[-> _]|[[-> _]|(_ & Hh & _)]]; [by eapply Hfree|done|].
      destruct (holder p) eqn:E; [|done]. by destruct Hne; eapply Hone.
  - intros j k p q Hj Hk Hp Hq. apply goes_lookup in Hj as [[-> ->]|[Hnj Hj]]; apply goes_lookup in Hk as [[-> ->]|[Hnk Hk]]; try done.
    + destruct Hcase as [[_ E]|[[_ Hf]|(_ & _ & E)]]; [|by rewrite (Hfree Hf k q Hk) in Hq|by rewrite E in Hp].
      rewrite E in Hp. by eapply Hone.
    + destruct Hcase as [[_ E]|[[_ Hf]|(_ & _ & E)]]; [|by rewrite (Hfree Hf j p Hj) in Hp|by rewrite E in Hq].
      rewrite E in Hq. by eapply Hone.
    + by eapply Hone.
  - intros j Hj. apply goes_lookup in Hj as [[_ E]|[_ Hj]]; [by destruct Hnp|by eapply Hnf].
Qed.

(** ** Every step *)

Context (Hn : K + 2 * Z.of_nat n + 1 < page_size).

Lemma count_small s count lp fs : inv_lock s -> inv_count s count lp fs -> count + 1 < page_size.
Proof. intros [Hl _ _ _] [Hb Hc _]. apply sum_caps in Hc. rewrite Hl in Hc. lia. Qed.

Lemma count_ghost s count lp fs i ph :
  inv_count s count lp fs -> threads s !! i = Some ph -> exists f, fs !! i = Some f /\ (f <= cap lp ph)%nat.
Proof. intros [_ Hc _] Hi. destruct (Forall2_lookup_l _ _ _ _ _ Hc Hi) as (f & ? & ?). by exists f. Qed.

(** The lock's phase agrees with what a thread does. *)
Lemma phase_of s count lp fs i ph :
  inv_lock s -> inv_count s count lp fs -> threads s !! i = Some ph ->
  (locked s = false -> lp = Free) /\ (holder ph = true -> lp = if is_stored ph then Post else Pre).
Proof.
  intros [_ Hfree _ _] [_ _ Hp] Hi. split.
  - intros Hl. destruct lp; [done|destruct Hp; congruence..].
  - intros Hh. destruct lp.
    + by rewrite (Hfree Hp i ph Hi) in Hh.
    + destruct Hp as [_ Hp]. by rewrite (Hp i ph Hi).
    + destruct Hp as [_ Hp]. by rewrite (Hp i ph Hi Hh).
Qed.

Lemma pool_inv_store s i a page count fs :
  inv_lock s -> inv_slots s page count -> inv_count s count Pre fs -> threads s !! i = Some (Fresh a) ->
  pool_inv {| word := new_pool shift a; locked := locked s; threads := goes i (Stored a) s; pages := pages s;
              slots := u64 (a + 0 * kTrampolineSize) :: slots s |}.
Proof.
  intros HL HS HC Hi. split; [by apply (inv_lock_goes s i (Fresh a)); [..|by left]|].
  exists a, 1, Post, (replicate (length (threads s)) 0%nat). split; [by eapply inv_slots_store|].
  destruct HC as [_ _ [Hlk _]]. split; cbn.
  - assert (1 <= K) by (destruct Hs as [-> | ->]; vm_compute; discriminate). lia.
  - apply Forall2_same_length_lookup. split; [unfold goes; by rewrite length_insert, length_replicate|].
    intros j p f _ Hf. apply lookup_replicate in Hf as [-> _]. lia.
  - split; [done|]. intros j p Hj Hh. apply goes_lookup in Hj as [[_ ->]|[Hne Hj]]; [done|].
    destruct Hne. by eapply (il_one s HL).
Qed.

Lemma pool_inv_step i s s' : pool_step shift false i s s' -> pool_inv s -> pool_inv s'.
Proof.
  intros Hstep (HL & page & count & lp & fs & HS & HC). pose proof (count_small _ _ _ _ HL HC) as Hsm.
  destruct Hstep as [Hi Hf|Hi Hf|Hi Hl|Hi Hl|Hi Hl|a Hi Hnew|Hi Hf|a Hi|a Hi|Hi|ph Hi Hph];
    destruct (count_ghost _ _ _ _ _ _ HC Hi) as (f & Hfi & Hcap);
    destruct (phase_of _ _ _ _ _ _ HL HC Hi) as [Hlf Hlh].
  - (* a slot *)
    destruct (inv_slots_slot s page count i HS Hf Hsm) as (_ & HK & HS').
    split; [by apply (inv_lock_goes s i Idle); [..|by left]|]. exists page, (count + 1), lp, (<[i := f]> fs).
    split; [done|]. apply (inv_count_goes s count lp fs i Idle _ f); try done; [lia|].
    destruct HC as [_ _ Hp]. destruct lp; naive_solver.
  - (* full *)
    split; [by apply (inv_lock_goes s i Idle); [..|by left]|]. exists page, (count + 1), lp, (<[i := S f]> fs).
    split; [by apply inv_slots_full|]. apply (inv_count_goes s count lp fs i Idle _ f); try done.
    + destruct lp; cbn in *; lia.
    + lia.
    + destruct HC as [_ _ Hp]. destruct lp; naive_solver.
  - (* blocked *)
    split; [apply (inv_lock_goes s i Full); [done..|by left]|]. exists page, count, lp, (<[i := f]> fs).
    split; [by apply inv_slots_goes|]. apply (inv_count_goes s count lp fs i Full _ f); try done; [|lia|].
    + destruct HC as [_ _ Hp]. destruct lp; cbn in *; try lia. by rewrite Hl in Hp.
    + destruct HC as [_ _ Hp]. destruct lp; naive_solver.
  - (* lock *)
    rewrite (Hlf Hl) in *. split; [apply (inv_lock_goes s i Full); [done..|by right; left]|].
    exists page, count, Pre, (<[i := f]> fs). split; [by apply inv_slots_goes|].
    destruct HC as [Hb Hc Hp]. split; cbn.
    + pose proof (sum_list_insert fs i f f Hfi). lia.
    + eapply (caps_goes Free Pre); [done|done|by cbn in *|]. intros j p g _ _. destruct p; cbn; lia.
    + split; [done|]. intros j p Hj. apply goes_lookup in Hj as [[_ ->]|[_ Hj]]; [done|].
      pose proof (il_free _ HL Hl j p Hj). by destruct p.
  - (* wake *)
    rewrite (Hlf Hl) in *. split; [apply (inv_lock_goes s i Waiting); [done..|left; by rewrite Hl]|].
    exists page, count, Free, (<[i := f]> fs). split; [by apply inv_slots_goes|].
    apply (inv_count_goes s count Free fs i Waiting _ f); try done. lia.
  - (* allocate *)
    specialize (Hlh eq_refl). cbn in Hlh. subst lp.
    assert (Hone : forall j b, threads s !! j = Some (Fresh b) -> j = i) by (intros j b Hj; by eapply (il_one s HL)).
    split; [by apply (inv_lock_goes s i Locked); [..|by left]|]. exists page, count, Pre, (<[i := f]> fs).
    split; [by apply inv_slots_allocate|]. apply (inv_count_goes s count Pre fs i Locked _ f); try done; [lia|].
    destruct HC as [_ _ [-> _]]. done.
  - done.
  - (* store *)
    specialize (Hlh eq_refl). cbn in Hlh. subst lp. by eapply pool_inv_store.
  - (* clear *)
    specialize (Hlh eq_refl). cbn in Hlh. subst lp.
    split; [apply (inv_lock_goes s i (Stored a)); [done..|by right; right]|]. exists page, count, Free, (<[i := f]> fs).
    split; [by apply inv_slots_goes|]. destruct HC as [Hb Hc Hp]. split; cbn; [|..|done].
    + pose proof (sum_list_insert fs i f f Hfi). lia.
    + eapply (caps_goes Post Free); [done|done|cbn in *; lia|]. intros j p g _ _. destruct p; cbn; lia.
  - by destruct (il_nofail _ HL i).
  - (* return *)
    assert (Hh : holder ph = false) by (destruct Hph as [->|[a ->]]; done).
    split; [apply (inv_lock_goes s i ph); [done..|by left]|]. exists page, count, lp, (<[i := f]> fs).
    split; [by apply inv_slots_goes|]. apply (inv_count_goes s count lp fs i ph _ f); try done; [|lia|].
    + destruct Hph as [->|[a ->]]; by destruct lp.
    + destruct HC as [_ _ Hp]. destruct lp; naive_solver.
Qed.

Lemma pool_inv_initial : pool_inv (initial n).
Proof.
  split.
  { split; cbn; [apply length_replicate|..].
    - intros _ i ph H. by apply lookup_replicate in H as [-> _].
    - intros i j ph ph' H _ Hh. by apply lookup_replicate in H as [-> _].
    - intros i H. by apply lookup_replicate in H as [H _]. }
  exists 0, 0, Free, (replicate n 0%nat). split.
  { split; cbn; try done; [by left|constructor|]. intros i a H. by apply lookup_replicate in H as [H _]. }
  split; cbn; try done.
  - assert (0 <= K) by (destruct Hs as [-> | ->]; vm_compute; discriminate). lia.
  - apply Forall2_same_length_lookup. rewrite !length_replicate. split; [done|].
    intros j p f _ Hf. apply lookup_replicate in Hf as [-> _]. lia.
Qed.

Lemma pool_inv_reachable s : reachable shift false n s -> pool_inv s.
Proof. induction 1 as [|i s s' _ IH Hstep]; [apply pool_inv_initial|by eapply pool_inv_step]. Qed.
End Inv.

(** ** What is handed out *)

(** Two slots do not overlap. *)
Definition apart (a b : Z) : Prop := a + kTrampolineSize <= b \/ b + kTrampolineSize <= a.

Section Slots.
Context (shift : Z) (Hs : shift_ok shift).

Lemma apart_slots p i p' i' :
  p mod kPageSize shift = 0 -> p' mod kPageSize shift = 0 ->
  0 <= i < kTrampolineNumPerPage shift -> 0 <= i' < kTrampolineNumPerPage shift ->
  slot_in p i <> slot_in p' i' -> apart (slot_in p i) (slot_in p' i').
Proof.
  unfold slot_in, apart. intros Hp Hp' Hi Hi' Hne.
  pose proof (slots_fit shift Hs i Hi). pose proof (slots_fit shift Hs i' Hi'). pose proof (page_pos shift Hs).
  pose proof (Z.div_mod p (kPageSize shift) ltac:(lia)). pose proof (Z.div_mod p' (kPageSize shift) ltac:(lia)).
  assert (E : kTrampolineSize = 24) by reflexivity. rewrite E in *.
  destruct (Z.lt_trichotomy (p / kPageSize shift) (p' / kPageSize shift)) as [?|[Eq|?]]; [left; nia| |right; nia].
  assert (p = p') as <- by lia. lia.
Qed.

(** A thread out of the loop has a slot that was handed out. *)
Lemma got_handed_out n fail s :
  reachable shift fail n s ->
  forall i a, threads s !! i = Some (Got a) \/ (exists p, a = u64 (p + 0 * kTrampolineSize) /\ threads s !! i = Some (Stored p)) ->
  a ∈ slots s.
Proof.
  induction 1 as [|j s s' _ IH Hstep]; intros i a Ha.
  { destruct Ha as [H|(p & _ & H)]; cbn in H; by apply lookup_replicate in H as [H _]. }
  assert (Hold : forall ph, goes j ph s !! i = Some (Got a) \/
      (exists p, a = u64 (p + 0 * kTrampolineSize) /\ goes j ph s !! i = Some (Stored p)) ->
    a ∈ slots s \/ ph = Got a \/ exists p, a = u64 (p + 0 * kTrampolineSize) /\ ph = Stored p).
  { intros ph [H|(p & E & H)]; apply goes_lookup in H as [[-> H]|[Hne H]]; subst; eauto.
    left. eapply IH. right. by exists p. }
  destruct Hstep as [Hi Hf|Hi Hf|Hi Hl|Hi Hl|Hi Hl|b Hi Hnew|Hi Hf|b Hi|b Hi|Hi|ph Hi Hph]; cbn in Ha |- *;
    destruct (Hold _ Ha) as [Hin|[E|(p & E & E')]]; simplify_eq; try done; try (by right); try (by left).
  eapply IH. right. by exists b.
Qed.

(** One thread alone does what [take_slot] does. *)
Inductive run (i : nat) (fail : bool) : pool_state -> pool_state -> Prop :=
| run_refl s : run i fail s s
| run_step s s' s'' : pool_step shift fail i s s' -> run i fail s' s'' -> run i fail s s''.

Lemma run_keeps_reachable n i fail s s' : reachable shift fail n s -> run i fail s s' -> reachable shift fail n s'.
Proof. intros Hr H. revert Hr. induction H as [|s s' s'' Hst _ IH]; [done|]. intros Hr. apply IH. by eapply reach_step. Qed.

Lemma take_slot_run c st ps i a st' :
  take_slot shift c st = (Some a, st') -> threads ps !! i = Some Idle -> locked ps = false -> word ps = pool st ->
  (forall m r, AllocateMemory c (areas st) = (Some m, r) -> new_page shift m ps) ->
  exists ps', run i false ps ps' /\ word ps' = pool st' /\ locked ps' = false /\ threads ps' = <[i := Got a]> (threads ps).
Proof.
  intros Ht Hi Hl Hw Hnew. unfold take_slot in Ht. cbn [pool areas] in Ht. rewrite <- Hw in Ht.
  pose proof (lookup_lt_Some _ _ _ Hi) as Hlt.
  destruct (is_full shift (word ps)) eqn:Hf.
  - destruct (AllocateMemory c (areas st)) as [[m|] r] eqn:Ha; [|done]. injection Ht as <- <-.
    eexists. split.
    + assert (Hin : forall ph s0, length (threads s0) = length (threads ps) -> goes i ph s0 !! i = Some ph).
      { intros ph s0 E. apply goes_self. by rewrite E. }
      eapply run_step; [by apply step_full|].
      eapply run_step; [by apply step_lock; [apply Hin|]|].
      eapply run_step; [apply (step_allocate _ _ i _ m); [apply Hin; cbn; unfold goes; by rewrite length_insert|]|].
      { destruct (Hnew m r eq_refl) as (? & ? & ? & ?). by split_and!. }
      eapply run_step; [apply (step_store _ _ i _ m); apply Hin; cbn; unfold goes; cbn; by rewrite !length_insert|].
      eapply run_step; [apply (step_clear _ _ i _ m); apply Hin; cbn; unfold goes; cbn; by rewrite !length_insert|].
      apply run_refl.
    + cbn. split_and!; try done. unfold goes. cbn. by rewrite !list_insert_insert_eq.
  - injection Ht as <- <-. eexists. split; [eapply run_step; [by apply step_slot|apply run_refl]|]. done.
Qed.

(** ** Failed allocations *)

Definition no_memory : alloc_calls :=
  {| memfd_create := false; memfd_truncate := false; memfd_maps := {| reserved := None; mapped := false |};
     ashmem_open := false; ashmem_set_size := false; ashmem_maps := {| reserved := None; mapped := false |};
     anonymous := None |}.

Fixpoint fail_calls (n : nat) (s : trampolines) : trampolines :=
  match n with O => s | S n => fail_calls n (take_slot shift no_memory s).2 end.

Lemma AllocateMemory_none r : (AllocateMemory no_memory r).1 = None.
Proof. destruct r as [[] [] mr dr]; reflexivity. Qed.

(** While the pool is full every failed call only counts up. *)
Lemma fail_calls_count n page count s :
  page mod kPageSize shift = 0 -> 0 <= page < 2 ^ 63 -> pool s = page + count -> 0 <= count ->
  (page = 0 \/ kTrampolineNumPerPage shift <= count) -> count + Z.of_nat n <= kPageSize shift ->
  pool (fail_calls n s) = page + count + Z.of_nat n.
Proof.
  intros Hm Hp. revert count s. induction n as [|n IH]; intros count s Hw Hc Hfull Hn; [cbn; lia|].
  cbn [fail_calls]. pose proof (page_small shift Hs).
  assert (E : pool (take_slot shift no_memory s).2 = page + (count + 1)).
  { unfold take_slot. cbn [pool areas]. rewrite Hw.
    assert (Hf : is_full shift (page + count) = true).
    { unfold is_full. rewrite tl_address_split, tl_count_split by (done || lia). apply orb_true_iff.
      destruct Hfull as [->|?]; [left; apply Z.eqb_refl|right; by apply Z.leb_le]. }
    rewrite Hf. destruct (AllocateMemory no_memory (areas s)) as [m r] eqn:Ea.
    pose proof (AllocateMemory_none (areas s)) as Hnone. rewrite Ea in Hnone. cbn in Hnone. subst m.
    cbn. unfold fetch_add. rewrite trunc_small; lia. }
  rewrite (IH (count + 1)); [lia|done|lia|destruct Hfull; [by left|right; lia]|lia].
Qed.
End Slots.
