(* ===== verification/LsCommon.v ===== *)
(** LSPlant's records of hooked methods: [lsplant_jni/common.cxx].

    Methods, classes' definitions and JNI references are addresses, 0 being null.
    The parallel hash maps are maps; their locks make each operation one step. *)
From S2P Require Import Prelude.

Record registry := {
  hooked_methods_ : gmap Z (Z * Z);
  hooked_classes_ : gmap Z (gset Z);
  deoptimized_methods_set_ : gset Z;
  deoptimized_classes_ : gmap Z (gset Z);
  proxied_backup_methods_ : gset Z;
  jit_movements_ : list (Z * Z)
}.
Definition noRecords : registry :=
  {| hooked_methods_ := ∅; hooked_classes_ := ∅; deoptimized_methods_set_ := ∅; deoptimized_classes_ := ∅;
     proxied_backup_methods_ := ∅; jit_movements_ := [] |}.

Definition with_hooked (hm : gmap Z (Z * Z)) (hc : gmap Z (gset Z)) (r : registry) : registry :=
  {| hooked_methods_ := hm; hooked_classes_ := hc; deoptimized_methods_set_ := deoptimized_methods_set_ r;
     deoptimized_classes_ := deoptimized_classes_ r; proxied_backup_methods_ := proxied_backup_methods_ r;
     jit_movements_ := jit_movements_ r |}.
Definition with_deoptimized (ds : gset Z) (dc : gmap Z (gset Z)) (r : registry) : registry :=
  {| hooked_methods_ := hooked_methods_ r; hooked_classes_ := hooked_classes_ r; deoptimized_methods_set_ := ds;
     deoptimized_classes_ := dc; proxied_backup_methods_ := proxied_backup_methods_ r; jit_movements_ := jit_movements_ r |}.
Definition with_proxied (p : gset Z) (r : registry) : registry :=
  {| hooked_methods_ := hooked_methods_ r; hooked_classes_ := hooked_classes_ r;
     deoptimized_methods_set_ := deoptimized_methods_set_ r; deoptimized_classes_ := deoptimized_classes_ r;
     proxied_backup_methods_ := p; jit_movements_ := jit_movements_ r |}.
Definition with_movements (l : list (Z * Z)) (r : registry) : registry :=
  {| hooked_methods_ := hooked_methods_ r; hooked_classes_ := hooked_classes_ r;
     deoptimized_methods_set_ := deoptimized_methods_set_ r; deoptimized_classes_ := deoptimized_classes_ r;
     proxied_backup_methods_ := proxied_backup_methods_ r; jit_movements_ := l |}.

(** [insert]: an entry that is there stays. *)
Definition insert_new {A} (k : Z) (v : A) (m : gmap Z A) : gmap Z A :=
  match m !! k with Some _ => m | None => <[k := v]> m end.

(** A set under a key, created when missing. *)
Definition add_under (k x : Z) (m : gmap Z (gset Z)) : gmap Z (gset Z) :=
  <[k := {[x]} ∪ default ∅ (m !! k)]> m.

Definition IsHooked (art_method : Z) (including_backup : bool) (r : registry) : Z :=
  match hooked_methods_ r !! art_method with
  | Some (reflected, other) => if including_backup || negb (reflected =? 0) then other else 0
  | None => 0
  end.

Definition IsBackup (art_method : Z) (r : registry) : Z :=
  match hooked_methods_ r !! art_method with
  | Some (reflected, other) => if reflected =? 0 then other else 0
  | None => 0
  end.

Definition IsDeoptimized (art_method : Z) (r : registry) : bool :=
  bool_decide (art_method ∈ deoptimized_methods_set_ r).

Definition GetJitMovements (r : registry) : list (Z * Z) * registry := (jit_movements_ r, with_movements [] r).

Definition RecordHooked (target class_def reflected_backup backup : Z) (r : registry) : registry :=
  with_hooked (insert_new backup (0, target) (insert_new target (reflected_backup, backup) (hooked_methods_ r)))
    (add_under class_def target (hooked_classes_ r)) r.

Definition RecordDeoptimized (class_def art_method : Z) (r : registry) : registry :=
  with_deoptimized ({[art_method]} ∪ deoptimized_methods_set_ r) (add_under class_def art_method (deoptimized_classes_ r)) r.

Definition RecordJitMovement (target backup : Z) (r : registry) : registry :=
  with_movements (jit_movements_ r ++ [(target, backup)]) r.
