(* ===== verification/LsHook.v ===== *)
(** Hooking and unhooking a method: [DoHook], [DoUnHook], [Hook], [UnHook] and
    [IsHooked] of [lsplant_jni/lsplant.cc].

    What JNI and the class built for a hook answer is the class [JNI].

    Then what hooking and unhooking do to methods, and the hooks as a map. *)
From S2P Require Import Prelude Arm64Isa Platform ArtMethod LsTrampoline LsCommon.

(** The process as the library sees it. *)
Record lsplant := { mem : memory; tramp : trampolines; reg : registry; kInternalMethods : list Z }.

Definition with_mem (m : memory) (s : lsplant) : lsplant :=
  {| mem := m; tramp := tramp s; reg := reg s; kInternalMethods := kInternalMethods s |}.
Definition with_reg (r : registry) (s : lsplant) : lsplant :=
  {| mem := mem s; tramp := tramp s; reg := r; kInternalMethods := kInternalMethods s |}.
Definition with_internal (l : list Z) (s : lsplant) : lsplant :=
  {| mem := mem s; tramp := tramp s; reg := reg s; kInternalMethods := l |}.

Class JNI := {
  is_executable : Z -> bool;                    (* [IsInstanceOf(_, Executable)] *)
  art_method_of : Z -> Z;                       (* [ArtMethod::FromReflectedMethod] *)
  method_id_of : Z -> Z;                        (* [env->FromReflectedMethod] *)
  is_proxy_class : Z -> bool;                   (* the access flags of a method's class *)
  is_member : Z -> Z -> bool;                   (* the hooker is an instance of the callback's class *)
  GetClassDef : Z -> Z;                         (* [mirror::Class::GetClassDef] *)
  NewGlobalRef : Z -> Z
}.

(** The generated class: its two methods, reflected, and the id of the backup. *)
Record built_class := { reflected_hook : Z; reflected_backup : Z; backup_method : Z }.

Section Hook.
Context `{JNI} (G : art_globals) (SetNotIntrinsic_ : option (Z -> memory -> memory)) (bridge : Z).
Context (shift : Z) (executable_memory_allocator : option (list byte -> memory -> option (Z * memory))).
Context (executable_memory_recycler : option (Z -> memory -> memory)).

Definition class_def_of (method : Z) (m : memory) : Z := GetClassDef (GetDeclaringClass G method m).

Definition DoHook (c : alloc_calls) (target hook backup : Z) (s : lsplant) : bool * lsplant :=
  let '(entrypoint, t, m) := GenerateTrampolineFor shift executable_memory_allocator
    (trampoline_for kAArch64 (entry_point_offset G) hook) c (tramp s) (mem s) in
  let s := {| mem := m; tramp := t; reg := reg s; kInternalMethods := kInternalMethods s |} in
  match entrypoint with
  | None => (false, s)
  | Some entrypoint =>
      let m := SetNonIntrinsic G SetNotIntrinsic_ target (mem s) in
      let m := BackupTo G target backup m in
      let m := SetNonCompilable G target m in
      let m := SetEntryPoint G bridge target entrypoint m in
      (true, with_mem m s)
  end.

Definition DoUnHook (target backup : Z) (s : lsplant) : bool * lsplant :=
  let access_flags := GetAccessFlags G target (mem s) in
  let entry_point := GetEntryPoint G target (mem s) in
  let m := CopyFrom G target backup (mem s) in
  let m := SetAccessFlags G target access_flags m in
  let start := entry_point - entry_point mod kPageSize shift in
  let m := match executable_memory_recycler with
    | Some recycle =>
        if negb (bool_decide (start ∈ mmap_regions (areas (tramp s)))) && negb (bool_decide (start ∈ dual_regions (areas (tramp s))))
        then recycle entry_point m else m
    | None => m
    end in
  (true, with_mem m s).

(** The first of the library's own method ids that equals [old] becomes [new]. *)
Fixpoint propagate (old new : Z) (ids : list Z) : list Z :=
  match ids with
  | [] => []
  | v :: ids => if v =? old then new :: ids else v :: propagate old new ids
  end.

(** The global reference to the backup, null when the hook fails. *)
Definition Hook (c : alloc_calls) (target_method hooker_object callback_method : Z) (built : option built_class) (s : lsplant) :
    Z * lsplant :=
  if (target_method =? 0) || negb (is_executable target_method) then (0, s)
  else if (callback_method =? 0) || negb (is_executable callback_method) then (0, s)
  else
    let target := art_method_of target_method in
    if negb (IsHooked target true (reg s) =? 0) then (0, s)
    else if negb (is_member hooker_object callback_method) then (0, s)
    else
      match built with
      | None => (0, s)
      | Some b =>
          let hook := art_method_of (reflected_hook b) in
          let backup := art_method_of (reflected_backup b) in
          let '(ok, s) := DoHook c target hook backup s in
          if ok then
            let s := with_internal (propagate (method_id_of target_method) (backup_method b) (kInternalMethods s)) s in
            let global_backup := NewGlobalRef (reflected_backup b) in
            let r := RecordHooked target (class_def_of target (mem s)) global_backup backup (reg s) in
            let r := if negb (is_proxy_class target_method) then RecordJitMovement target backup r
                     else with_proxied ({[backup]} ∪ proxied_backup_methods_ r) r in
            let r := RecordDeoptimized (class_def_of hook (mem s)) backup r in
            (global_backup, with_reg r s)
          else (0, s)
      end.

(** The two maps without a hooked method; an emptied class goes too. *)
Definition forget_hook (target backup class_def : Z) (r : registry) : registry :=
  let hm := delete backup (delete target (hooked_methods_ r)) in
  let hc := match hooked_classes_ r !! class_def with
    | Some ms => let ms := ms ∖ {[target]} in
        if bool_decide (ms = ∅) then delete class_def (hooked_classes_ r) else <[class_def := ms]> (hooked_classes_ r)
    | None => hooked_classes_ r
    end in
  with_proxied (proxied_backup_methods_ r ∖ {[backup]}) (with_hooked hm hc r).

Definition UnHook (target_method : Z) (s : lsplant) : bool * lsplant :=
  if (target_method =? 0) || negb (is_executable target_method) then (false, s)
  else
    let target := art_method_of target_method in
    match hooked_methods_ (reg s) !! target with
    | Some (reflected_backup, backup) =>
        if reflected_backup =? 0 then (false, s)
        else
          let s := with_reg (forget_hook target backup (class_def_of target (mem s)) (reg s)) s in
          let backup_method := method_id_of reflected_backup in
          let '(ok, s) := DoUnHook target backup s in
          if ok then (true, with_internal (propagate backup_method (method_id_of target_method) (kInternalMethods s)) s)
          else (false, s)
    | None => (false, s)
    end.

(** The exported [IsHooked]. *)
Definition IsMethodHooked (method : Z) (s : lsplant) : bool :=
  if (method =? 0) || negb (is_executable method) then false
  else negb (IsHooked (art_method_of method) false (reg s) =? 0).

Definition GetNativeFunction (method : Z) (s : lsplant) : Z :=
  if (method =? 0) || negb (is_executable method) then 0
  else
    let art_method := art_method_of method in
    if negb (IsNative G art_method (mem s)) then 0 else GetData G art_method (mem s).

(** One constructor of [MakeClassInheritable]. *)
Definition make_inheritable (method : Z) (m : memory) : memory :=
  if method =? 0 then m
  else
    let m := if negb (IsPublic G method m) && negb (IsProtected G method m) then SetProtected G method m else m in
    if IsFinal G method m then SetNonFinal G method m else m.

(** The class's access flags, which are its Java field, and its constructors. *)
Definition MakeClassInheritable (target : Z) (constructors : list Z) (access_flags : Z) (m : memory) : bool * Z * memory :=
  if target =? 0 then (false, access_flags, m)
  else (true, Z.land access_flags (Z.lnot 0x0010), fold_left (fun m c => make_inheritable (art_method_of c) m) constructors m).
End Hook.

(** ** Flags *)

Lemma clear_bits_range x mask : 0 <= x < 2 ^ 32 -> 0 <= clear_bits x mask < 2 ^ 32.
Proof. intros. unfold clear_bits. rewrite Z.land_comm. by apply land_range. Qed.

Section Methods.
Context (G : art_globals) (HG : globals_ok G).
Context (SetNotIntrinsic_ : option (Z -> memory -> memory)) (bridge shift : Z).
(** ART's function changes the flags of the method it is given, to bytes. *)
Context (HN : forall f, SetNotIntrinsic_ = Some f -> forall t m,
  (forall x, ~ in_flags G t x -> f t m x = m x) /\ (bytes_ok m -> bytes_ok (f t m))).
Context (Hdont : 0 <= kAccCompileDontBother G < 2 ^ 32).

Lemma non_compilable_range x : 0 <= x < 2 ^ 32 -> 0 <= non_compilable G x < 2 ^ 32.
Proof. intros. apply clear_bits_range, lor_range; lia. Qed.

Lemma make_private_range x : 0 <= x < 2 ^ 32 -> 0 <= make_private x < 2 ^ 32.
Proof. intros. apply clear_bits_range, clear_bits_range, lor_range; unfold kAccPrivate; lia. Qed.

Lemma SetNonIntrinsic_out t m x : ~ in_flags G t x -> SetNonIntrinsic G SetNotIntrinsic_ t m x = m x.
Proof.
  intros H. unfold SetNonIntrinsic. destruct SetNotIntrinsic_ as [f|] eqn:E; [by apply (HN f eq_refl)|].
  destruct (negb _); [|done]. by apply update_flags_out.
Qed.

Lemma SetNonIntrinsic_bytes t m : bytes_ok m -> bytes_ok (SetNonIntrinsic G SetNotIntrinsic_ t m).
Proof.
  intros H. unfold SetNonIntrinsic. destruct SetNotIntrinsic_ as [f|] eqn:E; [by apply (HN f eq_refl)|].
  destruct (negb _); [|done]. by apply bytes_ok_update.
Qed.

(** The part of [DoHook] that changes the two methods. *)
Definition hook_methods (target backup entrypoint : Z) (m : memory) : memory :=
  SetEntryPoint G bridge target entrypoint
    (SetNonCompilable G target (BackupTo G target backup (SetNonIntrinsic G SetNotIntrinsic_ target m))).

(** The flags after [SetNonIntrinsic], which both methods' flags come from. *)
Definition plain_flags (target : Z) (m : memory) : Z :=
  GetAccessFlags G target (SetNonIntrinsic G SetNotIntrinsic_ target m).
Definition hooked_flags (target : Z) (m : memory) : Z :=
  non_compilable G (clear_bits (non_compilable G (plain_flags target m)) (kAccFastInterpreterToInterpreterInvoke G)).
Definition backup_flags (target : Z) (m : memory) : Z :=
  let f := non_compilable G (plain_flags target m) in
  if Z.land f kAccStatic =? 0 then make_private f else f.

Definition methods_apart (t b : Z) : Prop := t + art_method_size G <= b \/ b + art_method_size G <= t.

Lemma apart_not_in t b x : methods_apart t b -> in_method G t x -> ~ in_method G b x.
Proof. unfold methods_apart, in_method. lia. Qed.

Section Two.
Context (t b : Z) (Hap : methods_apart t b) (m : memory) (Hm : bytes_ok m) (ep : Z) (Hep : 0 <= ep < 2 ^ 64).

Let m1 := SetNonIntrinsic G SetNotIntrinsic_ t m.
Let m2 := SetNonCompilable G t m1.
Let m3 := CopyFrom G b t m2.
Let m4 := ClearFastInterpretFlag G t m3.
Let m5 := BackupTo G t b m1.
Let m6 := SetNonCompilable G t m5.

Lemma plain_range : 0 <= plain_flags t m < 2 ^ 32.
Proof. apply load32_range. by apply SetNonIntrinsic_bytes. Qed.

Lemma m2_flags : GetAccessFlags G t m2 = non_compilable G (plain_flags t m).
Proof.
  unfold m2, SetNonCompilable. rewrite (update_flags_flags G), trunc_small; [done|].
  apply non_compilable_range, plain_range.
Qed.

Lemma m3_flags_t : GetAccessFlags G t m3 = GetAccessFlags G t m2.
Proof.
  apply flags_agree. intros x Hx. apply CopyFrom_out; [done|].
  apply (apart_not_in t b x Hap). by apply in_flags_method.
Qed.

Lemma m3_copy i : 0 <= i < art_method_size G -> m3 (b + i) = m2 (t + i).
Proof. apply CopyFrom_in. Qed.

Lemma m3_flags_b : GetAccessFlags G b m3 = GetAccessFlags G t m2.
Proof.
  unfold GetAccessFlags, load32, read. f_equal. apply list_eq. intros i.
  destruct (decide (i < 4)%nat) as [Hi|Hi].
  - rewrite !read_bytes_lookup by done. f_equal. pose proof (go_flags G HG).
    rewrite <- !Z.add_assoc. apply m3_copy. lia.
  - rewrite !lookup_ge_None_2; [done|rewrite read_bytes_length; lia..].
Qed.

Lemma m4_flags_b : GetAccessFlags G b m4 = non_compilable G (plain_flags t m).
Proof.
  rewrite <- m2_flags, <- m3_flags_b. apply flags_agree. intros x Hx. apply update_flags_out.
  intros Hx'. by eapply (apart_not_in t b x Hap); apply in_flags_method.
Qed.

Lemma m5_flags_b : GetAccessFlags G b m5 = backup_flags t m.
Proof.
  unfold m5, BackupTo. fold m2 m3 m4. unfold backup_flags, IsStatic, has_flag. rewrite m4_flags_b.
  rewrite negb_involutive. destruct (_ =? 0); [|apply m4_flags_b].
  unfold SetPrivate. rewrite (update_flags_flags G), m4_flags_b, trunc_small; [done|].
  apply make_private_range, non_compilable_range, plain_range.
Qed.

Lemma m5_other x : ~ in_flags G b x -> m5 x = m4 x.
Proof.
  intros Hx. unfold m5, BackupTo. fold m2 m3 m4. destruct (negb _); [|done]. by apply update_flags_out.
Qed.

Lemma not_flags_b_t x : in_flags G t x -> ~ in_flags G b x.
Proof. intros Hx Hx'. by eapply (apart_not_in t b x Hap); apply in_flags_method. Qed.

Lemma m6_flags_t : GetAccessFlags G t m6 = hooked_flags t m.
Proof.
  unfold m6, SetNonCompilable. rewrite (update_flags_flags G), trunc_small.
  - unfold hooked_flags. f_equal. rewrite (flags_agree G t m5 m4) by (intros; apply m5_other; by apply not_flags_b_t).
    unfold m4, ClearFastInterpretFlag. rewrite (update_flags_flags G), m3_flags_t, m2_flags, trunc_small; [done|].
    apply clear_bits_range, non_compilable_range, plain_range.
  - apply non_compilable_range, load32_range. unfold m5, BackupTo. fold m2 m3 m4.
    assert (bytes_ok m4).
    { apply bytes_ok_update, bytes_ok_copy. apply bytes_ok_update. by apply SetNonIntrinsic_bytes. }
    destruct (negb _); [by apply bytes_ok_update|done].
Qed.

(** What [hook_methods] leaves. *)
Lemma hook_methods_entry : GetEntryPoint G t (hook_methods t b ep m) = ep.
Proof. unfold hook_methods. rewrite SetEntryPoint_entry by done. by apply trunc_small. Qed.

Lemma hook_methods_flags : GetAccessFlags G t (hook_methods t b ep m) = hooked_flags t m.
Proof.
  rewrite <- m6_flags_t. apply flags_agree. intros x Hx. apply SetEntryPoint_out; [done|].
  intros He. by eapply in_entry_flags.
Qed.

Lemma hook_methods_backup_flags : GetAccessFlags G b (hook_methods t b ep m) = backup_flags t m.
Proof.
  rewrite <- m5_flags_b. apply flags_agree. intros x Hx.
  assert (Hb : in_method G b x) by by apply in_flags_method.
  assert (Ht : ~ in_method G t x) by (intros Hx'; by eapply (apart_not_in t b x Hap)).
  unfold hook_methods. rewrite SetEntryPoint_out by (try done; intros ?; apply Ht; by apply in_entry_method).
  apply update_flags_out. intros ?. apply Ht. by apply in_flags_method.
Qed.

(** The backup is the method as it was, but for its flags. *)
Lemma hook_methods_backup i :
  0 <= i < art_method_size G -> ~ in_flags G t (t + i) -> hook_methods t b ep m (b + i) = m (t + i).
Proof.
  intros Hi Hf.
  assert (Hb : in_method G b (b + i)) by (unfold in_method; lia).
  assert (Ht : ~ in_method G t (b + i)) by (intros Hx'; by eapply (apart_not_in t b)).
  assert (Hfb : ~ in_flags G b (b + i)) by (unfold in_flags in *; lia).
  assert (Hft : ~ in_flags G t (b + i)) by (intros ?; apply Ht; by apply in_flags_method).
  unfold hook_methods. rewrite SetEntryPoint_out by (try done; intros ?; apply Ht; by apply in_entry_method).
  unfold SetNonCompilable. rewrite update_flags_out by done. fold m1. fold m5. rewrite m5_other by done.
  unfold m4, ClearFastInterpretFlag. rewrite update_flags_out by done. rewrite m3_copy by done.
  unfold m2, SetNonCompilable. rewrite update_flags_out by done. by apply SetNonIntrinsic_out.
Qed.

Lemma hook_methods_out x :
  ~ in_flags G t x -> ~ in_entry G t x -> ~ in_method G b x -> hook_methods t b ep m x = m x.
Proof.
  intros Hf He Hb.
  assert (Hfb : ~ in_flags G b x) by (intros ?; apply Hb; by apply in_flags_method).
  unfold hook_methods. rewrite SetEntryPoint_out by done.
  unfold SetNonCompilable. rewrite update_flags_out by done. fold m1. fold m5. rewrite m5_other by done.
  unfold m4, ClearFastInterpretFlag. rewrite update_flags_out by done.
  unfold m3. rewrite CopyFrom_out by done.
  unfold m2, SetNonCompilable. rewrite update_flags_out by done. by apply SetNonIntrinsic_out.
Qed.
End Two.

(** The part of [DoUnHook] that changes the target. *)
Definition unhook_methods (target backup : Z) (m : memory) : memory :=
  SetAccessFlags G target (GetAccessFlags G target m) (CopyFrom G target backup m).

Lemma unhook_methods_in t b m i :
  0 <= i < art_method_size G -> ~ in_flags G t (t + i) -> unhook_methods t b m (t + i) = m (b + i).
Proof.
  intros Hi Hf. unfold unhook_methods, SetAccessFlags. rewrite store32_out by (unfold in_flags in Hf; lia).
  by apply CopyFrom_in.
Qed.

Lemma unhook_methods_flags t b m : bytes_ok m -> GetAccessFlags G t (unhook_methods t b m) = GetAccessFlags G t m.
Proof.
  intros Hm. unfold unhook_methods, SetAccessFlags. unfold GetAccessFlags at 1. rewrite load32_store.
  apply trunc_small. by apply load32_range.
Qed.

Lemma unhook_methods_out t b m x : ~ in_method G t x -> unhook_methods t b m x = m x.
Proof.
  intros Hx. unfold unhook_methods, SetAccessFlags. rewrite store32_out.
  - by apply CopyFrom_out.
  - assert (~ in_flags G t x) by (intros ?; apply Hx; by apply in_flags_method). unfold in_flags in *. lia.
Qed.
End Methods.

(** ** [DoHook] and [DoUnHook] *)

(** Where a trampoline is written: at its address and, in a page that is mapped
    twice, one page further. *)
Definition in_slot (shift a x : Z) : Prop :=
  a <= x < a + 20 \/ a + kPageSize shift <= x < a + kPageSize shift + 20.

Definition slot_apart (G : art_globals) (shift a t : Z) : Prop := forall x, in_slot shift a x -> ~ in_method G t x.

Lemma write_slot_out shift r a data m x :
  length data = 20%nat -> ~ in_slot shift a x -> write_slot shift r a data m x = m x.
Proof.
  intros Hl Hx. unfold in_slot in Hx. unfold write_slot.
  destruct (bool_decide _); rewrite !write_bytes_out by (rewrite Hl; lia); done.
Qed.

Lemma bytes_ok_write_slot shift r a data m :
  bytes_ok m -> Forall is_byte data -> bytes_ok (write_slot shift r a data m).
Proof. intros. unfold write_slot. destruct (bool_decide _); repeat apply bytes_ok_write; done. Qed.

Lemma write_slot_in shift r a data m :
  code_at (write_slot shift r a data m) a data.
Proof.
  intros i x Hi. unfold write_slot. destruct (bool_decide _); by apply write_bytes_in.
Qed.

Section DoHook.
Context (G : art_globals) (SetNotIntrinsic_ : option (Z -> memory -> memory)) (bridge shift : Z).

Lemma DoHook_mem c t h b s s' a :
  DoHook G SetNotIntrinsic_ bridge shift None c t h b s = (true, s') -> (take_slot shift c (tramp s)).1 = Some a ->
  mem s' = hook_methods G SetNotIntrinsic_ bridge t b a
    (write_slot shift (areas (tramp s')) a (trampoline_for kAArch64 (entry_point_offset G) h) (mem s)) /\
  reg s' = reg s /\ kInternalMethods s' = kInternalMethods s.
Proof.
  unfold DoHook, GenerateTrampolineFor. destruct (take_slot shift c (tramp s)) as [[a'|] tr]; [|done].
  intros H [= ->]. cbn in H. injection H as <-. done.
Qed.

Lemma DoHook_false c t h b s s' :
  DoHook G SetNotIntrinsic_ bridge shift None c t h b s = (false, s') ->
  mem s' = mem s /\ reg s' = reg s /\ kInternalMethods s' = kInternalMethods s.
Proof.
  unfold DoHook, GenerateTrampolineFor. destruct (take_slot shift c (tramp s)) as [[a'|] tr]; [done|].
  intros H. cbn in H. injection H as <-. done.
Qed.

Lemma DoHook_slot c t h b s s' :
  DoHook G SetNotIntrinsic_ bridge shift None c t h b s = (true, s') -> exists a, (take_slot shift c (tramp s)).1 = Some a.
Proof.
  unfold DoHook, GenerateTrampolineFor. destruct (take_slot shift c (tramp s)) as [[a'|] tr]; [by exists a'|done].
Qed.

Lemma DoUnHook_mem t b s s' ok :
  DoUnHook G shift None t b s = (ok, s') -> ok = true /\ mem s' = unhook_methods G t b (mem s) /\ reg s' = reg s.
Proof. unfold DoUnHook. intros [= <- <-]. done. Qed.
End DoHook.

Lemma trampoline_for_bytes offset hook : 0 <= offset < 256 ->
  length (trampoline_for kAArch64 offset hook) = 20%nat /\ Forall is_byte (trampoline_for kAArch64 offset hook).
Proof.
  intros H. rewrite trampoline_for_words by done. unfold trampoline_words. rewrite !length_app, !length_le_bytes.
  split; [done|]. repeat apply Forall_app_2; apply le_bytes_Forall.
Qed.

(** ** The hooks as a map *)

(** [hooks] maps a hooked method to the reference to its backup and the backup;
    [cls] gives the definition of a method's class. *)
Abbreviation hooks_map := (gmap Z (Z * Z)).

Record hooks_ok (cls : Z -> Z) (hooks : hooks_map) (r : registry) : Prop := {
  ho_ref : forall t ref b, hooks !! t = Some (ref, b) -> ref <> 0 /\ b <> 0 /\ t <> 0;
  ho_inj : forall t t' ref ref' b, hooks !! t = Some (ref, b) -> hooks !! t' = Some (ref', b) -> t = t';
  ho_apart : forall t ref b, hooks !! t = Some (ref, b) -> hooks !! b = None;
  ho_target : forall t ref b, hooks !! t = Some (ref, b) ->
    hooked_methods_ r !! t = Some (ref, b) /\ hooked_methods_ r !! b = Some (0, t);
  ho_only : forall k ref o, hooked_methods_ r !! k = Some (ref, o) ->
    hooks !! k = Some (ref, o) \/ (ref = 0 /\ exists ref', hooks !! o = Some (ref', k));
  ho_class : forall c, match hooked_classes_ r !! c with
    | Some ms => ms <> ∅ /\ forall t, t ∈ ms <-> is_Some (hooks !! t) /\ cls t = c
    | None => forall t, is_Some (hooks !! t) -> cls t <> c
    end
}.

(** A method that is neither a target nor a backup. *)
Definition unknown (hooks : hooks_map) (m : Z) : Prop :=
  hooks !! m = None /\ forall t ref, hooks !! t <> Some (ref, m).

Section Hooks.
Context (cls : Z -> Z).

Lemma hooks_ok_empty : hooks_ok cls ∅ noRecords.
Proof.
  split; cbn; intros *; rewrite ?lookup_empty; try done. intros t [x H]. by rewrite lookup_empty in H.
Qed.

Lemma hooks_unknown hooks r m : hooks_ok cls hooks r -> unknown hooks m <-> hooked_methods_ r !! m = None.
Proof.
  intros H. split.
  - intros [Hn Hb]. destruct (hooked_methods_ r !! m) as [[ref o]|] eqn:E; [|done].
    destruct (ho_only _ _ _ H _ _ _ E) as [E'|(_ & ref' & E')]; [congruence|by destruct (Hb _ _ E')].
  - intros Hn. split.
    + destruct (hooks !! m) as [[ref b]|] eqn:E; [|done]. destruct (ho_target _ _ _ H _ _ _ E). congruence.
    + intros t ref E. destruct (ho_target _ _ _ H _ _ _ E). congruence.
Qed.

Lemma IsHooked_spec hooks r m :
  hooks_ok cls hooks r -> IsHooked m false r = match hooks !! m with Some (_, b) => b | None => 0 end.
Proof.
  intros H. unfold IsHooked. destruct (hooks !! m) as [[ref b]|] eqn:E.
  - destruct (ho_target _ _ _ H _ _ _ E) as [-> _]. destruct (ho_ref _ _ _ H _ _ _ E) as (Hr & _).
    by rewrite (proj2 (Z.eqb_neq ref 0) Hr).
  - destruct (hooked_methods_ r !! m) as [[ref o]|] eqn:E'; [|done].
    destruct (ho_only _ _ _ H _ _ _ E') as [?|(-> & _)]; [congruence|done].
Qed.

Lemma IsHooked_known hooks r m : hooks_ok cls hooks r -> IsHooked m true r = 0 <-> unknown hooks m.
Proof.
  intros H. rewrite (hooks_unknown hooks r m H). unfold IsHooked.
  destruct (hooked_methods_ r !! m) as [[ref o]|] eqn:E; [|done]. cbn. split; [|done]. intros ->. exfalso.
  destruct (ho_only _ _ _ H _ _ _ E) as [E'|(_ & ref' & E')]; destruct (ho_ref _ _ _ H _ _ _ E') as (? & ? & ?); done.
Qed.

Lemma IsBackup_spec hooks r m t :
  hooks_ok cls hooks r -> t <> 0 -> IsBackup m r = t <-> exists ref, hooks !! t = Some (ref, m).
Proof.
  intros H Ht. unfold IsBackup. split.
  - destruct (hooked_methods_ r !! m) as [[ref o]|] eqn:E; [|by intros <-].
    destruct (Z.eqb_spec ref 0) as [->|]; [|by intros <-]. intros ->.
    destruct (ho_only _ _ _ H _ _ _ E) as [E'|(_ & ref' & E')]; [|by exists ref'].
    by destruct (ho_ref _ _ _ H _ _ _ E').
  - intros [ref E]. by destruct (ho_target _ _ _ H _ _ _ E) as [_ ->].
Qed.

Lemma insert_new_fresh {A} k (v : A) m : m !! k = None -> insert_new k v m = <[k := v]> m.
Proof. unfold insert_new. by intros ->. Qed.

Lemma add_under_lookup k x (m : gmap Z (gset Z)) c :
  add_under k x m !! c = if decide (c = k) then Some ({[x]} ∪ default ∅ (m !! k)) else m !! c.
Proof. unfold add_under. case_decide; subst; [by rewrite lookup_insert_eq|by rewrite lookup_insert_ne]. Qed.

(** Recording a hook. *)
Lemma RecordHooked_ok hooks r t ref b :
  hooks_ok cls hooks r -> unknown hooks t -> unknown hooks b -> t <> b -> ref <> 0 -> t <> 0 -> b <> 0 ->
  hooks_ok cls (<[t := (ref, b)]> hooks) (RecordHooked t (cls t) ref b r).
Proof.
  intros H Ht Hb Hne Hr Ht0 Hb0.
  pose proof (proj1 (hooks_unknown hooks r t H) Ht) as Ut. pose proof (proj1 (hooks_unknown hooks r b H) Hb) as Ub.
  assert (Em : hooked_methods_ (RecordHooked t (cls t) ref b r) = <[b := (0, t)]> (<[t := (ref, b)]> (hooked_methods_ r))).
  { cbn. rewrite (insert_new_fresh t), insert_new_fresh; [done|by rewrite lookup_insert_ne|done]. }
  split.
  - intros t' ref' b' E. apply lookup_insert_Some in E as [[<- [= <- <-]]|[_ E]]; [done|by eapply ho_ref].
  - intros t1 t2 r1 r2 b' E1 E2.
    apply lookup_insert_Some in E1 as [[<- E1]|[_ E1]]; apply lookup_insert_Some in E2 as [[<- E2]|[_ E2]]; simplify_eq; try done.
    + by destruct (proj2 Hb _ _ E2).
    + by destruct (proj2 Hb _ _ E1).
    + by eapply ho_inj.
  - intros t' ref' b' E. apply lookup_insert_Some in E as [[<- [= <- <-]]|[_ E]].
    + rewrite lookup_insert_ne by done. apply Hb.
    + rewrite lookup_insert_ne; [by eapply ho_apart|]. intros <-. by destruct (proj2 Ht _ _ E).
  - rewrite Em. intros t' ref' b' E. apply lookup_insert_Some in E as [[<- [= <- <-]]|[Hnt E]].
    + rewrite lookup_insert_eq, lookup_insert_ne, lookup_insert_eq by done. done.
    + destruct (ho_target _ _ _ H _ _ _ E) as [E1 E2].
      rewrite !lookup_insert_ne; [done|by intros <-; congruence..].
  - rewrite Em. intros k ref' o E. apply lookup_insert_Some in E as [[<- [= <- <-]]|[Hnb E]].
    + right. split; [done|]. exists ref. by rewrite lookup_insert_eq.
    + apply lookup_insert_Some in E as [[<- [= <- <-]]|[Hnt E]]; [left; by rewrite lookup_insert_eq|].
      destruct (ho_only _ _ _ H _ _ _ E) as [E'|(-> & ref'' & E')]; [left; by rewrite lookup_insert_ne|].
      right. split; [done|]. exists ref''. rewrite lookup_insert_ne; [done|]. intros ->. by rewrite (proj1 Ht) in E'.
  - intros c. cbn. rewrite add_under_lookup. pose proof (ho_class _ _ _ H) as Hc.
    assert (Hsome : forall t', is_Some (<[t := (ref, b)]> hooks !! t') <-> t' = t \/ is_Some (hooks !! t')).
    { intros t'. destruct (decide (t = t')) as [<-|Hd]; [rewrite lookup_insert_eq|rewrite lookup_insert_ne by done]; naive_solver. }
    case_decide as Hd.
    + subst c. split; [set_solver|]. intros t'. rewrite Hsome, elem_of_union, elem_of_singleton.
      specialize (Hc (cls t)). destruct (hooked_classes_ r !! cls t) as [ms|]; cbn.
      * rewrite (proj2 Hc). naive_solver.
      * specialize (Hc t'). set_solver.
    + specialize (Hc c). destruct (hooked_classes_ r !! c) as [ms|].
      * split; [apply Hc|]. intros t'. rewrite Hsome, (proj2 Hc). naive_solver.
      * intros t'. rewrite Hsome. naive_solver.
Qed.

(** Forgetting one. *)
Lemma forget_hook_ok hooks r t ref b :
  hooks_ok cls hooks r -> hooks !! t = Some (ref, b) -> hooks_ok cls (delete t hooks) (forget_hook t b (cls t) r).
Proof.
  intros H Ht. pose proof (ho_apart _ _ _ H _ _ _ Ht) as Hb.
  assert (Em : hooked_methods_ (forget_hook t b (cls t) r) = delete b (delete t (hooked_methods_ r))) by done.
  split.
  - intros t' ref' b' E. apply lookup_delete_Some in E as [_ E]. by eapply ho_ref.
  - intros t1 t2 r1 r2 b' E1 E2. apply lookup_delete_Some in E1 as [_ E1]. apply lookup_delete_Some in E2 as [_ E2].
    by eapply ho_inj.
  - intros t' ref' b' E. apply lookup_delete_Some in E as [_ E]. apply lookup_delete_None. right. by eapply ho_apart.
  - rewrite Em. intros t' ref' b' E. apply lookup_delete_Some in E as [Hne E].
    destruct (ho_target _ _ _ H _ _ _ E) as [E1 E2].
    assert (t' <> b) by congruence. assert (b' <> t) by (intros ->; apply (ho_apart _ _ _ H) in E; congruence).
    assert (b' <> b) by (intros ->; by destruct Hne; eapply ho_inj).
    by rewrite !lookup_delete_ne by done.
  - rewrite Em. intros k ref' o E. apply lookup_delete_Some in E as [Hnb E]. apply lookup_delete_Some in E as [Hnt E].
    destruct (ho_only _ _ _ H _ _ _ E) as [E'|(-> & ref'' & E')]; [left; by rewrite lookup_delete_ne|].
    right. split; [done|]. exists ref''. rewrite lookup_delete_ne; [done|]. intros ->. congruence.
  - intros c. pose proof (ho_class _ _ _ H) as Hc.
    assert (Hsome : forall t', is_Some (delete t hooks !! t') <-> t' <> t /\ is_Some (hooks !! t')).
    { intros t'. destruct (decide (t = t')) as [<-|Hd]; [rewrite lookup_delete_eq|rewrite lookup_delete_ne by done]; naive_solver. }
    assert (Hother : c <> cls t -> match hooked_classes_ r !! c with
      | Some ms => ms <> ∅ /\ forall t', t' ∈ ms <-> is_Some (delete t hooks !! t') /\ cls t' = c
      | None => forall t', is_Some (delete t hooks !! t') -> cls t' <> c end).
    { intros Hd. specialize (Hc c). destruct (hooked_classes_ r !! c) as [ms|].
      - split; [apply Hc|]. intros t'. rewrite Hsome, (proj2 Hc). naive_solver.
      - intros t'. rewrite Hsome. naive_solver. }
    specialize (Hc (cls t)). cbn. destruct (hooked_classes_ r !! cls t) as [ms|] eqn:Ems.
    + destruct Hc as [_ Hms].
      assert (Hdiff : forall t', t' ∈ ms ∖ {[t]} <-> is_Some (delete t hooks !! t') /\ cls t' = cls t).
      { intros t'. rewrite elem_of_difference, elem_of_singleton, Hsome, Hms. naive_solver. }
      case_bool_decide as Hempty; (destruct (decide (c = cls t)) as [->|Hd];
        [rewrite ?lookup_delete_eq, ?lookup_insert_eq|rewrite ?lookup_delete_ne, ?lookup_insert_ne by done; by apply Hother]).
      * intros t' Ht' E. assert (Hin : t' ∈ ms ∖ {[t]}) by by apply Hdiff. set_solver.
      * done.
    + by destruct (Hc t); [rewrite Ht|].
Qed.

Lemma hooks_ok_ext hooks r r' :
  hooked_methods_ r' = hooked_methods_ r -> hooked_classes_ r' = hooked_classes_ r -> hooks_ok cls hooks r -> hooks_ok cls hooks r'.
Proof. intros E1 E2 [? ? ? ? ? Hc]. split; rewrite ?E1; try done. intros c. rewrite E2. apply Hc. Qed.
End Hooks.

(** ** A call that finds everything it needs *)

Section Calls.
Context `{JNI} (G : art_globals) (HG : globals_ok G).
Context (SetNotIntrinsic_ : option (Z -> memory -> memory)) (bridge shift : Z).
Context (HN : forall f, SetNotIntrinsic_ = Some f -> forall t m,
  (forall x, ~ in_flags G t x -> f t m x = m x) /\ (bytes_ok m -> bytes_ok (f t m))).

(** A slot for the trampoline, and three methods, apart from each other. *)
Record hook_ready (s : lsplant) (c : alloc_calls) (t h b a : Z) : Prop := {
  hr_bytes : bytes_ok (mem s);
  hr_dont : 0 <= kAccCompileDontBother G < 2 ^ 32;
  hr_offset : entry_point_offset G < 256;
  hr_slot : (take_slot shift c (tramp s)).1 = Some a;
  hr_addr : 0 <= a /\ a + 20 < 2 ^ 64;
  hr_hook : 0 <= h /\ h + 256 < 2 ^ 64;
  hr_tb : methods_apart G t b;
  hr_th : methods_apart G t h;
  hr_hb : methods_apart G h b;
  hr_st : slot_apart G shift a t;
  hr_sh : slot_apart G shift a h;
  hr_sb : slot_apart G shift a b
}.

Lemma offset_range : entry_point_offset G < 256 -> 0 <= entry_point_offset G < 256.
Proof. pose proof (go_entry G HG). lia. Qed.

(** The memory with only the trampoline written. *)
Definition with_trampoline (s s' : lsplant) (a h : Z) : memory :=
  write_slot shift (areas (tramp s')) a (trampoline_for kAArch64 (entry_point_offset G) h) (mem s).

Lemma with_trampoline_ok s s' c t h b a :
  hook_ready s c t h b a ->
  bytes_ok (with_trampoline s s' a h) /\ (forall x, ~ in_slot shift a x -> with_trampoline s s' a h x = mem s x) /\
  (forall u x, slot_apart G shift a u -> in_method G u x -> with_trampoline s s' a h x = mem s x).
Proof.
  intros Hr. destruct (trampoline_for_bytes (entry_point_offset G) h (offset_range (hr_offset _ _ _ _ _ _ Hr))) as [Hl Hb].
  split; [apply bytes_ok_write_slot; [apply (hr_bytes _ _ _ _ _ _ Hr)|done]|].
  assert (Hout : forall x, ~ in_slot shift a x -> with_trampoline s s' a h x = mem s x) by (intros; by apply write_slot_out).
  split; [done|]. intros u x Hu Hx. apply Hout. intros Hs. by apply (Hu x).
Qed.

(** What a hook changes. *)
Record hooked (s s' : lsplant) (t h b a : Z) : Prop := {
  hk_entry : GetEntryPoint G t (mem s') = a;
  hk_flags : GetAccessFlags G t (mem s') = hooked_flags G SetNotIntrinsic_ t (with_trampoline s s' a h);
  hk_backup_flags : GetAccessFlags G b (mem s') = backup_flags G SetNotIntrinsic_ t (with_trampoline s s' a h);
  hk_backup : forall i, 0 <= i < art_method_size G -> ~ in_flags G t (t + i) -> mem s' (b + i) = mem s (t + i);
  hk_code : code_at (mem s') a (trampoline_for kAArch64 (entry_point_offset G) h);
  hk_frame : forall x, ~ in_flags G t x -> ~ in_entry G t x -> ~ in_method G b x -> ~ in_slot shift a x -> mem s' x = mem s x;
  hk_bytes : bytes_ok (mem s')
}.

Lemma bytes_ok_hook_methods t b ep m : bytes_ok m -> bytes_ok (hook_methods G SetNotIntrinsic_ bridge t b ep m).
Proof.
  intros Hm. unfold hook_methods, SetEntryPoint. rewrite (go_interp G HG).
  apply bytes_ok_write; [|apply le_bytes_Forall]. apply bytes_ok_update. unfold BackupTo.
  assert (bytes_ok (ClearFastInterpretFlag G t (CopyFrom G b t (SetNonCompilable G t (SetNonIntrinsic G SetNotIntrinsic_ t m))))).
  { apply bytes_ok_update, bytes_ok_copy, bytes_ok_update. by apply (SetNonIntrinsic_bytes G SetNotIntrinsic_ HN). }
  destruct (negb _); [by apply bytes_ok_update|done].
Qed.

Lemma DoHook_hooked s c t h b a s' :
  hook_ready s c t h b a -> DoHook G SetNotIntrinsic_ bridge shift None c t h b s = (true, s') -> hooked s s' t h b a.
Proof.
  intros Hr Hd. destruct (DoHook_mem _ _ _ _ _ _ _ _ _ _ _ Hd (hr_slot _ _ _ _ _ _ Hr)) as (Em & _ & _).
  fold (with_trampoline s s' a h) in Em. destruct (with_trampoline_ok s s' c t h b a Hr) as (Hwb & Hwo & Hwm).
  destruct Hr as [Hm Hdont Hoff Hsl Ha Hh Htb Hth Hhb Hst Hsh Hsb].
  split; fold (with_trampoline s s' a h); set (w := with_trampoline s s' a h) in *.
  - rewrite Em. apply hook_methods_entry; [done|lia].
  - rewrite Em. by apply hook_methods_flags.
  - rewrite Em. by apply hook_methods_backup_flags.
  - intros i Hi Hf. rewrite Em, hook_methods_backup by done. apply (Hwm t); [done|]. unfold in_method. lia.
  - assert (Hc : code_at w a (trampoline_for kAArch64 (entry_point_offset G) h)) by apply write_slot_in.
    destruct (trampoline_for_bytes (entry_point_offset G) h ltac:(by apply offset_range)) as [Hl _].
    intros i x Hi. rewrite <- (Hc i x Hi), Em. pose proof (lookup_lt_Some _ _ _ Hi) as Hlt.
    assert (Hin : in_slot shift a (a + Z.of_nat i)) by (left; lia).
    apply hook_methods_out; try done.
    + intros Hx. apply (Hst _ Hin). by apply in_flags_method.
    + intros Hx. apply (Hst _ Hin). by apply in_entry_method.
    + by apply Hsb.
  - intros x ? ? ? ?. rewrite Em, hook_methods_out by done. by apply Hwo.
  - rewrite Em. by apply bytes_ok_hook_methods.
Qed.

Lemma DoHook_succeeds s c t h b a :
  hook_ready s c t h b a -> exists s', DoHook G SetNotIntrinsic_ bridge shift None c t h b s = (true, s').
Proof.
  intros Hr. pose proof (hr_slot _ _ _ _ _ _ Hr) as Hs. unfold DoHook, GenerateTrampolineFor.
  destruct (take_slot shift c (tramp s)) as [[a'|] tr]; [by eexists|done].
Qed.

(** A method's class is not touched. *)
Lemma hooked_class s c s' t h b a u :
  hook_ready s c t h b a -> hooked s s' t h b a -> (u = t \/ methods_apart G t u /\ methods_apart G u b /\ slot_apart G shift a u) ->
  class_def_of G u (mem s') = class_def_of G u (mem s).
Proof.
  intros Hr Hk Hu. unfold class_def_of, GetDeclaringClass, load32. f_equal. apply read_agree.
  intros x Hx. pose proof (go_class G HG) as (H0 & H1 & H2 & H3).
  assert (Hin : in_method G u x) by (unfold in_method; lia).
  destruct Hr as [_ _ _ _ _ _ Htb _ _ Hst _ _].
  destruct Hu as [->|(Ht & Hb & Hs)].
  - apply (hk_frame _ _ _ _ _ _ Hk); unfold in_flags, in_entry; try lia.
    + by apply (apart_not_in G t b).
    + intros Hs. by apply (Hst x).
  - apply (hk_frame _ _ _ _ _ _ Hk).
    + intros Hf. apply (apart_not_in G t u x Ht); [by apply in_flags_method|done].
    + intros Hf. apply (apart_not_in G t u x Ht); [by apply in_entry_method|done].
    + by apply (apart_not_in G u b).
    + intros Hs'. by apply (Hs x).
Qed.

(** ** The exported operations on the map of hooks *)

Context (cls : Z -> Z).

Lemma RecordDeoptimized_keeps c m r :
  hooked_methods_ (RecordDeoptimized c m r) = hooked_methods_ r /\ hooked_classes_ (RecordDeoptimized c m r) = hooked_classes_ r.
Proof. done. Qed.

Abbreviation Hook_ := (Hook G SetNotIntrinsic_ bridge shift None).
Abbreviation UnHook_ := (UnHook G shift None).

(** The checks of [Hook] that are not about the registry. *)
Definition may_hook (tm ho cm : Z) : bool :=
  negb (tm =? 0) && is_executable tm && negb (cm =? 0) && is_executable cm && is_member ho cm.

Lemma Hook_refine hooks c tm ho cm bc a s :
  let t := art_method_of tm in let b := art_method_of (reflected_backup bc) in
  let h := art_method_of (reflected_hook bc) in let ref := NewGlobalRef (reflected_backup bc) in
  hooks_ok cls hooks (reg s) -> hook_ready s c t h b a -> class_def_of G t (mem s) = cls t ->
  unknown hooks b -> t <> b -> t <> 0 -> b <> 0 -> ref <> 0 ->
  let '(g, s') := Hook_ c tm ho cm (Some bc) s in
  (g = 0 /\ s' = s /\ (may_hook tm ho cm = false \/ ~ unknown hooks t)) \/
  (g = ref /\ may_hook tm ho cm = true /\ unknown hooks t /\ hooked s s' t h b a /\ hooks_ok cls (<[t := (g, b)]> hooks) (reg s')).
Proof.
  intros t b h ref Hok Hr Hcl Hb Hne Ht0 Hb0 Hr0. unfold Hook, may_hook. fold t b h ref.
  destruct (Z.eqb_spec tm 0); [by left; split_and!; [..|left]|].
  destruct (is_executable tm); cbn [orb negb andb]; [|by left; split_and!; [..|left]].
  destruct (Z.eqb_spec cm 0); [by left; split_and!; [..|left]|].
  destruct (is_executable cm); cbn [orb negb andb]; [|by left; split_and!; [..|left]].
  destruct (Z.eqb_spec (IsHooked t true (reg s)) 0) as [Hu|Hu]; cbn [negb].
  2: { left. split_and!; [done..|right]. intros U. apply Hu. by apply (IsHooked_known cls hooks). }
  apply (IsHooked_known cls hooks) in Hu; [|done].
  destruct (is_member ho cm); cbn [negb]; [|by left; split_and!; [..|left]].
  destruct (DoHook_succeeds s c t h b a Hr) as [s' Hd]. rewrite Hd.
  pose proof (DoHook_hooked s c t h b a s' Hr Hd) as Hk.
  destruct (DoHook_mem _ _ _ _ _ _ _ _ _ _ _ Hd (hr_slot _ _ _ _ _ _ Hr)) as (_ & Er & _).
  right. split_and!; try done; [destruct Hk; by split|]. cbn [reg with_reg with_internal mem]. rewrite Er.
  rewrite (hooked_class s c s' t h b a t Hr Hk ltac:(by left)), Hcl.
  eapply (hooks_ok_ext cls _ (RecordHooked t (cls t) ref b (reg s))); [..|by apply RecordHooked_ok]; by destruct (negb _).
Qed.

Lemma UnHook_refine hooks tm s :
  let t := art_method_of tm in
  hooks_ok cls hooks (reg s) -> class_def_of G t (mem s) = cls t ->
  let '(ok, s') := UnHook_ tm s in
  (ok = false /\ s' = s /\ (tm = 0 \/ is_executable tm = false \/ hooks !! t = None)) \/
  (ok = true /\ exists ref b, hooks !! t = Some (ref, b) /\ mem s' = unhook_methods G t b (mem s) /\
     hooks_ok cls (delete t hooks) (reg s')).
Proof.
  intros t Hok Hcl. unfold UnHook. fold t.
  destruct (Z.eqb_spec tm 0); [by left; split_and!; [..|left]|].
  destruct (is_executable tm); cbn [orb negb]; [|by left; split_and!; [..|right; left]].
  destruct (hooked_methods_ (reg s) !! t) as [[ref b]|] eqn:E.
  - destruct (ho_only _ _ _ Hok _ _ _ E) as [E'|(-> & ref' & E')].
    + destruct (ho_ref _ _ _ Hok _ _ _ E') as (Hr & _). rewrite (proj2 (Z.eqb_neq ref 0) Hr).
      destruct (DoUnHook G shift None t b _) as [ok s'] eqn:Hd. apply DoUnHook_mem in Hd as (-> & Em & Er).
      right. split; [done|]. exists ref, b. split_and!; [done|exact Em|].
      cbn [reg with_internal]. rewrite Er. cbn [reg with_reg]. rewrite Hcl. by eapply forget_hook_ok.
    + rewrite Z.eqb_refl. left. split_and!; [done..|]. right; right. by eapply ho_apart.
  - left. split_and!; [done..|]. right; right. destruct (hooks !! t) as [[ref b]|] eqn:E'; [|done].
    destruct (ho_target _ _ _ Hok _ _ _ E'). congruence.
Qed.
End Calls.
