(* ===== verification/LsClassLinker.v ===== *)
(** What LSPlant puts before ART's own functions: [art/mirror/class.cxx],
    [art/runtime/class_linker.cxx], [instrumentation.cxx], [jit/jit.cxx],
    [jit/jit_code_cache.cxx] and [jni/jni_id_manager.cxx], and [Deoptimize].

    A replaced function gets ART's function as the argument [backup].

    Then entry points across the initialization of a class. *)
From S2P Require Import Prelude Arm64Isa Platform ArtMethod LsTrampoline LsCommon LsHook.

(** Entry points saved while a class is being initialized: by thread, then by class. *)
Record state := { ls : lsplant; backup_methods_ : gmap Z (gmap Z (gmap Z Z)) }.

Definition with_ls (l : lsplant) (s : state) : state := {| ls := l; backup_methods_ := backup_methods_ s |}.
Definition with_backups (b : gmap Z (gmap Z (gmap Z Z))) (s : state) : state := {| ls := ls s; backup_methods_ := b |}.
Definition map_mem (f : memory -> memory) (s : state) : state := with_ls (with_mem (f (mem (ls s))) (ls s)) s.

(** [Class::Init]: the status that ART sets when it has initialized a class. *)
Definition initialized_status (sdk_int : Z) : Z :=
  if kSdkR <=? sdk_int then 15 else if kSdkPie <=? sdk_int then 14 else if sdk_int =? kSdkOreoMr1 then 11 else 10.

Section ClassLinker.
Context `{JNI} (G : art_globals) (bridge : Z) (sdk_int : Z).
(** [SetEntryPointsToInterpreter_] and [art_quick_to_interpreter_bridge_], null when not found. *)
Context (SetEntryPointsToInterpreter_ : option (Z -> memory -> memory)) (art_quick_to_interpreter_bridge_ : Z).

(** ** [mirror::Class] *)

(** [out.emplace] of the static methods among [methods]. *)
Definition backup_static (methods : option (gset Z)) (m : memory) (out : gmap Z Z) : gmap Z Z :=
  match methods with
  | Some ms => fold_left (fun out method => if IsStatic G method m then insert_new method (GetEntryPoint G method m) out else out)
      (elements ms) out
  | None => out
  end.

Definition BackupClassMethods (class_def self : Z) (s : state) : state :=
  if class_def =? 0 then s
  else
    let m := mem (ls s) in
    let out := backup_static (hooked_classes_ (reg (ls s)) !! class_def) m ∅ in
    let out := backup_static (deoptimized_classes_ (reg (ls s)) !! class_def) m out in
    if bool_decide (out = ∅) then s
    else with_backups (<[self := insert_new class_def out (default ∅ (backup_methods_ s !! self))]> (backup_methods_ s)) s.

(** All four [SetStatus]. *)
Definition SetStatus (backup : state -> state) (class_def new_status self : Z) (s : state) : state :=
  backup (if new_status =? initialized_status sdk_int then BackupClassMethods class_def self s else s).

(** [methods.merge]: what is there stays. *)
Definition merge_new (methods found : gmap Z Z) : gmap Z Z := methods ∪ found.

Definition pop_class (class_def : Z) (l : list (Z * gmap Z (gmap Z Z))) (methods : gmap Z Z) : gmap Z Z :=
  fold_left (fun methods it => match it.2 !! class_def with Some found => merge_new methods found | None => methods end) l methods.

Definition PopBackup (class_def self : Z) (s : state) : gmap Z Z * state :=
  if bool_decide (backup_methods_ s = ∅) then (∅, s)
  else if negb (class_def =? 0) then
    (pop_class class_def (map_to_list (backup_methods_ s)) ∅,
     with_backups (omap (fun classes => let classes := delete class_def classes in
                         if bool_decide (classes = ∅) then None else Some classes) (backup_methods_ s)) s)
  else if negb (self =? 0) then
    match backup_methods_ s !! self with
    | Some classes =>
        (fold_left (fun methods it => merge_new methods it.2) (map_to_list classes) ∅,
         with_backups (delete self (backup_methods_ s)) s)
    | None => (∅, s)
    end
  else (∅, s).

(** ** [ClassLinker] *)

Definition SetEntryPointsToInterpreter (art_method : Z) (m : memory) : bool * memory :=
  if IsNative G art_method m then (false, m)
  else
    match SetEntryPointsToInterpreter_ with
    | Some f => (true, f art_method m)
    | None =>
        if negb (art_quick_to_interpreter_bridge_ =? 0)
        then (true, SetEntryPoint G bridge art_method art_quick_to_interpreter_bridge_ m) else (false, m)
    end.

(** One method of [RestoreBackup]. *)
Definition restore_method (r : registry) (it : Z * Z) (m : memory) : memory :=
  let '(art_method, old_trampoline) := it in
  let new_trampoline := GetEntryPoint G art_method m in
  let m := SetEntryPoint G bridge art_method old_trampoline m in
  let deoptimized := IsDeoptimized art_method r in
  let backup_method := IsHooked art_method false r in
  if negb (backup_method =? 0) then
    if negb deoptimized && negb (new_trampoline =? old_trampoline)
    then SetEntryPoint G bridge backup_method new_trampoline m else m
  else if deoptimized then
    if negb (new_trampoline =? art_quick_to_interpreter_bridge_) && negb (IsNative G art_method m)
    then (SetEntryPointsToInterpreter art_method m).2 else m
  else m.

Definition restore_methods (r : registry) (l : list (Z * Z)) (m : memory) : memory :=
  fold_left (fun m it => restore_method r it m) l m.

Definition RestoreBackup (class_def self : Z) (s : state) : state :=
  let '(methods, s) := PopBackup class_def self s in
  map_mem (restore_methods (reg (ls s)) (map_to_list methods)) s.

(** The three [FixupStaticTrampolines], the first and last without a thread. *)
Definition FixupStaticTrampolines (backup : state -> state) (class_def self : Z) (s : state) : state :=
  RestoreBackup class_def self (backup s).
(** [AdjustThreadVisibilityCounter] and [MarkVisiblyInitialized]. *)
Definition MarkVisiblyInitialized (backup : state -> state) (self : Z) (s : state) : state :=
  RestoreBackup 0 self (backup s).

Definition MayGetBackup (method : Z) (r : registry) : Z :=
  let backup := IsHooked method false r in if negb (backup =? 0) then backup else method.

(** The eight functions that register or unregister a native method. *)
Definition RegisterNative (backup : Z -> state -> state) (method : Z) (s : state) : state :=
  backup (MayGetBackup method (reg (ls s))) s.

Definition ShouldUseInterpreterEntrypoint (backup : Z -> Z -> state -> bool) (art_method quick_code : Z) (s : state) : bool :=
  if negb (quick_code =? 0) && negb (IsHooked art_method false (reg (ls s)) =? 0) then false
  else backup art_method quick_code s.

(** ** [Instrumentation] *)

Definition MaybeUseBackupMethod (art_method quick_code : Z) (s : state) : Z :=
  let backup := IsHooked art_method false (reg (ls s)) in
  if negb (backup =? 0) && negb (GetEntryPoint G art_method (mem (ls s)) =? quick_code) then backup else art_method.

Definition UpdateMethodsCode (backup : Z -> Z -> state -> state) (art_method quick_code : Z) (s : state) : state :=
  if IsDeoptimized art_method (reg (ls s)) then s
  else backup (MaybeUseBackupMethod art_method quick_code s) quick_code s.
Definition InitializeMethodsCode := UpdateMethodsCode.
Definition ReinitializeMethodsCode (backup : Z -> state -> state) (art_method : Z) (s : state) : state :=
  UpdateMethodsCode (fun m _ => backup m) art_method 0 s.

(** ** The compiler *)

Definition EnqueueOptimizedCompilation (backup : Z -> state -> state) (method : Z) (s : state) : state :=
  let target := IsBackup method (reg (ls s)) in
  backup (if negb (target =? 0) then target else method) s.

Definition kOptimized (baseline_found : bool) : Z := if (kSdkCinnamonBun <=? sdk_int) || baseline_found then 3 else 2.

Definition AddCompileTask (backup : Z -> state -> state) (baseline_found : bool) (method compilation_kind : Z) (precompile : bool)
    (s : state) : state :=
  let b := IsHooked method false (reg (ls s)) in
  backup (if (compilation_kind =? kOptimized baseline_found) && negb precompile && negb (b =? 0) then b else method) s.

(** [MoveObsoleteMethod_] takes the target and the backup. *)
Definition MoveObsoleteMethods (MoveObsoleteMethod_ : option (Z -> Z -> memory -> memory)) (s : state) : state :=
  let '(movements, r) := GetJitMovements (reg (ls s)) in
  let s := with_ls (with_reg r (ls s)) s in
  map_mem (fun m => fold_left (fun m it =>
    match MoveObsoleteMethod_ with
    | Some move => move it.1 it.2 m
    | None => SetData G it.1 0 (SetData G it.2 (GetData G it.2 m) m)
    end) movements m) s.
Definition GarbageCollectCache (move : option (Z -> Z -> memory -> memory)) (backup : state -> state) (s : state) : state :=
  backup (MoveObsoleteMethods move s).

(** [JniIdManager]: the handle is set to the target. *)
Definition EncodeGenericId (backup : Z -> state -> Z) (method : Z) (s : state) : Z :=
  let target := IsBackup method (reg (ls s)) in
  backup (if negb (target =? 0) then target else method) s.

(** ** [Deoptimize] *)

Definition Deoptimize (method : Z) (s : state) : bool * state :=
  if (method =? 0) || negb (is_executable method) then (false, s)
  else
    let art_method := art_method_of method in
    let r := RecordDeoptimized (class_def_of G art_method (mem (ls s))) art_method (reg (ls s)) in
    let s := with_ls (with_reg r (ls s)) s in
    let backup := IsHooked art_method false (reg (ls s)) in
    let art_method := if negb (backup =? 0) then backup else art_method in
    if (art_method =? 0) || IsNative G art_method (mem (ls s)) then (false, s)
    else let '(ok, m) := SetEntryPointsToInterpreter art_method (mem (ls s)) in (ok, with_ls (with_mem m (ls s)) s).
End ClassLinker.

(** ** What is saved *)

Section Saved.
Context (G : art_globals).

Lemma insert_new_lookup {A} k (v : A) m k' :
  insert_new k v m !! k' = match m !! k' with Some w => Some w | None => if decide (k' = k) then Some v else None end.
Proof.
  unfold insert_new. destruct (m !! k) as [w|] eqn:E.
  - destruct (m !! k') eqn:E'; [done|]. case_decide; [congruence|done].
  - case_decide as Hd; [subst; by rewrite lookup_insert_eq, E|]. rewrite lookup_insert_ne by done. by destruct (m !! k').
Qed.

Lemma backup_static_lookup ms m out t :
  backup_static G ms m out !! t =
    match out !! t with
    | Some e => Some e
    | None => if bool_decide (t ∈ default ∅ ms) && IsStatic G t m then Some (GetEntryPoint G t m) else None
    end.
Proof.
  destruct ms as [ms|]; cbn [backup_static]; [|by destruct (out !! t)].
  change (default ∅ (Some ms)) with ms.
  assert (E : forall l : list Z, (forall x : Z, x ∈ l <-> x ∈ elements ms) -> bool_decide (t ∈ ms) = bool_decide (t ∈ l)).
  { intros l Hl. apply bool_decide_ext. by rewrite Hl, elem_of_elements. }
  rewrite (E (elements ms)) by done. clear E. revert out. induction (elements ms) as [|x l IH]; intros out; cbn [fold_left].
  - by destruct (out !! t).
  - rewrite IH. destruct (IsStatic G x m) eqn:Hx.
    + rewrite insert_new_lookup. destruct (out !! t); [done|]. destruct (decide (t = x)) as [Hd|Hd].
      * subst. rewrite bool_decide_eq_true_2 by apply list_elem_of_here. cbn. by rewrite Hx.
      * rewrite (bool_decide_ext (t ∈ x :: l) (t ∈ l)); [done|]. rewrite elem_of_cons. naive_solver.
    + destruct (out !! t); [done|]. destruct (decide (t = x)) as [->|Hd].
      * by rewrite Hx, !andb_false_r.
      * rewrite (bool_decide_ext (t ∈ x :: l) (t ∈ l)); [done|]. rewrite elem_of_cons. naive_solver.
Qed.

(** The methods of the class that have an entry. *)
Definition saved_of (c : Z) (s : state) : gmap Z Z :=
  backup_static G (deoptimized_classes_ (reg (ls s)) !! c) (mem (ls s))
    (backup_static G (hooked_classes_ (reg (ls s)) !! c) (mem (ls s)) ∅).

(** No entry points of the class are saved. *)
Definition none_saved (c : Z) (s : state) : Prop :=
  forall self classes, backup_methods_ s !! self = Some classes -> classes !! c = None.

Lemma BackupClassMethods_ls c self s : ls (BackupClassMethods G c self s) = ls s.
Proof. unfold BackupClassMethods. destruct (_ =? 0); [done|]. by destruct (bool_decide _). Qed.

Lemma pop_class_spec c l acc out :
  (forall it, it ∈ l -> it.2 !! c = None \/ it.2 !! c = Some out) -> acc = ∅ \/ acc = out ->
  (pop_class c l acc = acc \/ pop_class c l acc = out) /\
  ((exists it, it ∈ l /\ it.2 !! c = Some out) -> pop_class c l acc = out).
Proof.
  unfold pop_class. revert acc. induction l as [|it l IH]; intros acc Hl Hacc; cbn [fold_left].
  - split; [by left|]. intros (it & Hin & _). by apply not_elem_of_nil in Hin.
  - assert (Hl' : forall it, it ∈ l -> it.2 !! c = None \/ it.2 !! c = Some out) by (intros; apply Hl; by right).
    destruct (Hl it ltac:(left)) as [E|E]; rewrite E.
    + destruct (IH acc Hl' Hacc) as [H1 H2]. split; [done|]. intros (it' & Hin & E').
      apply elem_of_cons in Hin as [->|Hin]; [congruence|]. apply H2. by exists it'.
    + assert (Hu : merge_new acc out = out).
      { unfold merge_new. destruct Hacc as [->| ->]; [by rewrite map_empty_union|].
        apply map_eq. intros k. rewrite lookup_union. by destruct (out !! k). }
      rewrite Hu. destruct (IH out Hl' ltac:(by right)) as [[H1|H1] H2]; by rewrite H1; split; [right|].
Qed.

(** What is saved for a class is what is taken out for it, by any thread. *)
Lemma saved_popped c self self' s :
  c <> 0 -> none_saved c s ->
  (PopBackup c self' (BackupClassMethods G c self s)).1 = saved_of c s /\
  none_saved c (PopBackup c self' (BackupClassMethods G c self s)).2 /\
  ls (PopBackup c self' (BackupClassMethods G c self s)).2 = ls s.
Proof.
  intros Hc Hn. unfold BackupClassMethods. rewrite (proj2 (Z.eqb_neq c 0) Hc). fold (saved_of c s).
  assert (Hpop : forall s0 out, backup_methods_ s0 <> ∅ ->
    (forall th classes, backup_methods_ s0 !! th = Some classes -> classes !! c = None \/ classes !! c = Some out) ->
    (out = ∅ \/ exists th classes, backup_methods_ s0 !! th = Some classes /\ classes !! c = Some out) ->
    (PopBackup c self' s0).1 = out /\ none_saved c (PopBackup c self' s0).2 /\ ls (PopBackup c self' s0).2 = ls s0).
  { intros s0 out Hne Hall Hex. unfold PopBackup. rewrite bool_decide_eq_false_2 by done.
    rewrite (proj2 (Z.eqb_neq c 0) Hc). cbn [negb fst snd].
    destruct (pop_class_spec c (map_to_list (backup_methods_ s0)) ∅ out) as [H1 H2].
    { intros [th classes] Hin%elem_of_map_to_list. by eapply Hall. }
    { by left. }
    split_and!; [|..|done].
    - destruct Hex as [->|(th & classes & E & E')]; [by destruct H1|]. apply H2. exists (th, classes).
      split; [by apply elem_of_map_to_list|done].
    - intros th classes E. cbn in E. rewrite lookup_omap in E. destruct (backup_methods_ s0 !! th) as [cs|]; [|done].
      cbn in E. case_bool_decide; [done|]. injection E as <-. apply lookup_delete_eq. }
  case_bool_decide as He.
  - rewrite He. destruct (decide (backup_methods_ s = ∅)) as [E|E].
    + unfold PopBackup. rewrite bool_decide_eq_true_2 by done. done.
    + apply Hpop; [done| |by left]. intros th classes E'. left. by eapply Hn.
  - apply (Hpop (with_backups _ s)); cbn.
    + apply insert_non_empty.
    + intros th classes E. apply lookup_insert_Some in E as [[<- <-]|[_ E]]; [|left; by eapply Hn].
      right. rewrite insert_new_lookup, decide_True by done.
      destruct (backup_methods_ s !! self) as [cs|] eqn:E; cbn; [by rewrite (Hn _ _ E)|by rewrite lookup_empty].
    + right. exists self, (insert_new c (saved_of c s) (default ∅ (backup_methods_ s !! self))).
      split; [by rewrite lookup_insert_eq|]. rewrite insert_new_lookup, decide_True by done.
      destruct (backup_methods_ s !! self) as [cs|] eqn:E; cbn; [by rewrite (Hn _ _ E)|by rewrite lookup_empty].
Qed.
End Saved.

(** ** What is restored *)

Section Restore.
Context (G : art_globals) (HG : globals_ok G) (bridge : Z).
Context (SetEntryPointsToInterpreter_ : option (Z -> memory -> memory)) (art_bridge : Z).
(** ART's function changes the entry point of the method it is given. *)
Context (HE : forall f, SetEntryPointsToInterpreter_ = Some f -> forall t m x, ~ in_entry G t x -> f t m x = m x).

Abbreviation restore_method_ := (restore_method G bridge SetEntryPointsToInterpreter_ art_bridge).
Abbreviation restore_methods_ := (restore_methods G bridge SetEntryPointsToInterpreter_ art_bridge).

Lemma SetEntryPoint_other u v ep m :
  methods_apart G u v -> GetEntryPoint G u (SetEntryPoint G bridge v ep m) = GetEntryPoint G u m.
Proof.
  intros Ha. apply entry_agree. intros x Hx. apply SetEntryPoint_out; [done|]. intros Hv.
  by eapply (apart_not_in G u v x Ha); apply in_entry_method.
Qed.

Lemma to_interpreter_other u v m :
  methods_apart G u v ->
  GetEntryPoint G u (SetEntryPointsToInterpreter G bridge SetEntryPointsToInterpreter_ art_bridge v m).2 = GetEntryPoint G u m.
Proof.
  intros Ha. unfold SetEntryPointsToInterpreter. destruct (IsNative G v m); [done|].
  destruct SetEntryPointsToInterpreter_ as [f|] eqn:E.
  - apply entry_agree. intros x Hx. apply (HE f eq_refl). intros Hv.
    by eapply (apart_not_in G u v x Ha); apply in_entry_method.
  - destruct (negb _); [by apply SetEntryPoint_other|done].
Qed.

(** A step leaves the methods alone that are neither restored nor backups of it. *)
Lemma restore_method_other r it u m :
  methods_apart G u it.1 -> (IsHooked it.1 false r <> 0 -> methods_apart G u (IsHooked it.1 false r)) ->
  GetEntryPoint G u (restore_method_ r it m) = GetEntryPoint G u m.
Proof.
  destruct it as [v old]. cbn [fst]. intros Ha Hb. unfold restore_method.
  destruct (Z.eqb_spec (IsHooked v false r) 0) as [E|E]; cbn [negb].
  - destruct (IsDeoptimized v r); [|by apply SetEntryPoint_other].
    destruct (_ && _); [|by apply SetEntryPoint_other]. rewrite to_interpreter_other by done. by apply SetEntryPoint_other.
  - destruct (_ && _); [|by apply SetEntryPoint_other]. rewrite SetEntryPoint_other by auto. by apply SetEntryPoint_other.
Qed.

Lemma restore_methods_other r l u m :
  (forall it, it ∈ l -> methods_apart G u it.1 /\ (IsHooked it.1 false r <> 0 -> methods_apart G u (IsHooked it.1 false r))) ->
  GetEntryPoint G u (restore_methods_ r l m) = GetEntryPoint G u m.
Proof.
  unfold restore_methods. revert m. induction l as [|it l IH]; intros m H; [done|]. cbn [fold_left].
  rewrite IH by (intros; apply H; by right). apply restore_method_other; apply H; by left.
Qed.

(** The hooked method gets its old entry point and its backup the new one. *)
Lemma restore_method_hooked r t b old m :
  IsHooked t false r = b -> b <> 0 -> methods_apart G t b -> 0 <= old < 2 ^ 64 -> bytes_ok m ->
  GetEntryPoint G t (restore_method_ r (t, old) m) = old /\
  (IsDeoptimized t r = false -> GetEntryPoint G t m <> old ->
   GetEntryPoint G b (restore_method_ r (t, old) m) = GetEntryPoint G t m).
Proof.
  intros Hh Hb0 Hap Hold Hm. unfold restore_method. rewrite Hh, (proj2 (Z.eqb_neq b 0) Hb0). cbn [negb].
  assert (Hnew : 0 <= GetEntryPoint G t m < 2 ^ 64).
  { pose proof (le_val_range _ (read_bytes_byte m (t + entry_point_offset G) 8 Hm)) as H.
    rewrite read_bytes_length in H. exact H. }
  split.
  - destruct (_ && _); [rewrite SetEntryPoint_other by done|]; rewrite SetEntryPoint_entry by done; by apply trunc_small.
  - intros -> Hne. rewrite (proj2 (Z.eqb_neq _ _) Hne). cbn [negb andb]. rewrite SetEntryPoint_entry by done.
    by apply trunc_small.
Qed.

Lemma bytes_ok_entry t ep m : bytes_ok m -> bytes_ok (SetEntryPoint G bridge t ep m).
Proof.
  intros Hm. unfold SetEntryPoint. rewrite (go_interp G HG). apply bytes_ok_write; [done|apply le_bytes_Forall].
Qed.

Context (HB : forall f, SetEntryPointsToInterpreter_ = Some f -> forall t m, bytes_ok m -> bytes_ok (f t m)).

Lemma bytes_ok_restore r l m : bytes_ok m -> bytes_ok (restore_methods_ r l m).
Proof.
  unfold restore_methods. revert m. induction l as [|[t old] l IH]; intros m Hm; [done|]. cbn [fold_left]. apply IH.
  pose proof (bytes_ok_entry t old m Hm) as H1. unfold restore_method.
  destruct (negb (_ =? 0)); [destruct (_ && _); [by apply bytes_ok_entry|done]|].
  destruct (IsDeoptimized t r); [|done]. destruct (_ && _); [|done]. unfold SetEntryPointsToInterpreter.
  destruct (IsNative G t _); [done|]. destruct SetEntryPointsToInterpreter_ as [f|] eqn:E; [by apply (HB f eq_refl)|].
  destruct (negb _); [by apply bytes_ok_entry|done].
Qed.

(** A hooked method among those restored. *)
Lemma restore_methods_hooked r l t b old m :
  NoDup (l.*1) -> (t, old) ∈ l -> IsHooked t false r = b -> b <> 0 -> methods_apart G t b -> 0 <= old < 2 ^ 64 -> bytes_ok m ->
  (forall it, it ∈ l -> it.1 <> t -> methods_apart G t it.1 /\ methods_apart G b it.1 /\
     (IsHooked it.1 false r <> 0 -> methods_apart G t (IsHooked it.1 false r) /\ methods_apart G b (IsHooked it.1 false r))) ->
  GetEntryPoint G t (restore_methods_ r l m) = old /\
  (IsDeoptimized t r = false -> GetEntryPoint G t m <> old -> GetEntryPoint G b (restore_methods_ r l m) = GetEntryPoint G t m).
Proof.
  intros Hnd Hin Hh Hb0 Hap Hold Hm Hother. apply list_elem_of_split in Hin as (l1 & l2 & ->).
  rewrite fmap_app, fmap_cons in Hnd. apply NoDup_app in Hnd as (_ & Hd1 & Hnd2). apply NoDup_cons in Hnd2 as [Hd2 _].
  assert (H1 : forall it, it ∈ l1 -> it.1 <> t).
  { intros it Hit ->%eq_sym. apply (Hd1 it.1); [apply list_elem_of_fmap; by exists it|by left]. }
  assert (H2 : forall it, it ∈ l2 -> it.1 <> t).
  { intros it Hit ->%eq_sym. apply Hd2. apply list_elem_of_fmap. by exists it. }
  unfold restore_methods. rewrite fold_left_app. cbn [fold_left].
  fold (restore_methods_ r l1 m). set (m1 := restore_methods_ r l1 m).
  fold (restore_methods_ r l2 (restore_method_ r (t, old) m1)).
  assert (E1 : GetEntryPoint G t m1 = GetEntryPoint G t m).
  { apply restore_methods_other. intros it Hit. destruct (Hother it ltac:(set_solver) (H1 it Hit)) as (? & ? & ?). naive_solver. }
  destruct (restore_method_hooked r t b old m1 Hh Hb0 Hap Hold ltac:(by apply bytes_ok_restore)) as [R1 R2].
  rewrite !restore_methods_other; [by rewrite <- E1| |];
    intros it Hit; destruct (Hother it ltac:(set_solver) (H2 it Hit)) as (? & ? & ?); naive_solver.
Qed.
End Restore.

(** ** Across a class initialization *)

Lemma PopBackup_saved c self s s' :
  backup_methods_ s = backup_methods_ s' -> (PopBackup c self s).1 = (PopBackup c self s').1.
Proof.
  unfold PopBackup. intros ->. destruct (bool_decide _); [done|]. destruct (negb _); [done|].
  destruct (negb _); [|done]. by destruct (backup_methods_ s' !! self).
Qed.

Lemma PopBackup_ls c self s : ls (PopBackup c self s).2 = ls s.
Proof.
  unfold PopBackup. destruct (bool_decide _); [done|]. destruct (negb _); [done|].
  destruct (negb _); [|done]. by destruct (backup_methods_ s !! self).
Qed.

(** ART's part of a replaced function may do anything to the memory. *)
Definition art_function (f : state -> state) : Prop :=
  forall s, reg (ls (f s)) = reg (ls s) /\ backup_methods_ (f s) = backup_methods_ s /\
    (bytes_ok (mem (ls s)) -> bytes_ok (mem (ls (f s)))).

(** The methods whose entry points the initialization of class [c] may change. *)
Definition involved (hooks : hooks_map) (c : Z) (r : registry) (u : Z) : Prop :=
  is_Some (hooks !! u) \/ (exists t ref, hooks !! t = Some (ref, u)) \/ u ∈ default ∅ (deoptimized_classes_ r !! c).

Section Initialization.
Context (G : art_globals) (HG : globals_ok G) (bridge : Z).
Context (SetEntryPointsToInterpreter_ : option (Z -> memory -> memory)) (art_bridge : Z).
Context (HE : forall f, SetEntryPointsToInterpreter_ = Some f -> forall t m x, ~ in_entry G t x -> f t m x = m x).
Context (HB : forall f, SetEntryPointsToInterpreter_ = Some f -> forall t m, bytes_ok m -> bytes_ok (f t m)).
Context (cls : Z -> Z) (hooks : hooks_map) (c : Z).

Lemma saved_of_hooked s t ref b :
  hooks_ok cls hooks (reg (ls s)) -> hooks !! t = Some (ref, b) -> cls t = c -> IsStatic G t (mem (ls s)) = true ->
  saved_of G c s !! t = Some (GetEntryPoint G t (mem (ls s))).
Proof.
  intros Hok Ht Hc Hst. unfold saved_of. rewrite backup_static_lookup, backup_static_lookup, lookup_empty, Hst, andb_true_r.
  pose proof (ho_class _ _ _ Hok c) as Hcl. destruct (hooked_classes_ (reg (ls s)) !! c) as [ms|].
  - by rewrite bool_decide_eq_true_2 by (apply (proj2 Hcl); rewrite Ht; split; [eauto|done]).
  - by destruct (Hcl t); [rewrite Ht; eauto|].
Qed.

Lemma saved_of_involved s u e :
  hooks_ok cls hooks (reg (ls s)) -> saved_of G c s !! u = Some e ->
  (is_Some (hooks !! u) \/ u ∈ default ∅ (deoptimized_classes_ (reg (ls s)) !! c)).
Proof.
  intros Hok. unfold saved_of. rewrite backup_static_lookup, backup_static_lookup, lookup_empty.
  pose proof (ho_class _ _ _ Hok c) as Hcl. destruct (hooked_classes_ (reg (ls s)) !! c) as [ms|].
  - change (default ∅ (Some ms)) with ms. case_bool_decide as Hu; cbn [andb].
    + intros _. left. by apply (proj2 Hcl).
    + case_bool_decide as Hd; [by right|done].
  - change (default ∅ None) with (∅ : gset Z). rewrite bool_decide_eq_false_2 by set_solver. cbn [andb].
    case_bool_decide as Hd; [by right|done].
Qed.

Lemma initialization_restores s s' self self' t ref b :
  hooks_ok cls hooks (reg (ls s)) -> hooks !! t = Some (ref, b) -> cls t = c -> c <> 0 -> none_saved c s ->
  IsStatic G t (mem (ls s)) = true -> bytes_ok (mem (ls s)) -> bytes_ok (mem (ls s')) ->
  reg (ls s') = reg (ls s) -> backup_methods_ s' = backup_methods_ (BackupClassMethods G c self s) ->
  (forall u v, involved hooks c (reg (ls s)) u -> involved hooks c (reg (ls s)) v -> u <> v -> methods_apart G u v) ->
  b ∉ (default ∅ (deoptimized_classes_ (reg (ls s)) !! c) : gset Z) ->
  let m := mem (ls (RestoreBackup G bridge SetEntryPointsToInterpreter_ art_bridge c self' s')) in
  GetEntryPoint G t m = GetEntryPoint G t (mem (ls s)) /\
  (IsDeoptimized t (reg (ls s)) = false -> GetEntryPoint G t (mem (ls s')) <> GetEntryPoint G t (mem (ls s)) ->
   GetEntryPoint G b m = GetEntryPoint G t (mem (ls s'))).
Proof.
  intros Hok Ht Hct Hc Hn Hst Hm Hm' Hreg Hbk Hap Hbd m.
  set (r := reg (ls s)) in *. set (l := map_to_list (saved_of G c s)).
  assert (Em : m = restore_methods G bridge SetEntryPointsToInterpreter_ art_bridge r l (mem (ls s'))).
  { unfold m, RestoreBackup. pose proof (PopBackup_ls c self' s') as El.
    pose proof (PopBackup_saved c self' _ _ Hbk) as Ep. rewrite (proj1 (saved_popped G c self self' s Hc Hn)) in Ep.
    destruct (PopBackup c self' s') as [ms s'']. cbn [fst snd] in *. subst ms. unfold map_mem. cbn [ls with_ls mem with_mem].
    by rewrite El, Hreg. }
  destruct (ho_ref _ _ _ Hok _ _ _ Ht) as (_ & Hb0 & _). pose proof (ho_apart _ _ _ Hok _ _ _ Ht) as Hbt.
  assert (It : involved hooks c r t) by (left; rewrite Ht; eauto).
  assert (Ib : involved hooks c r b) by (right; left; eauto).
  assert (Hh : forall u, IsHooked u false r <> 0 -> exists ref', hooks !! u = Some (ref', IsHooked u false r)).
  { intros u Hu. rewrite (IsHooked_spec cls hooks r u Hok) in *. destruct (hooks !! u) as [[ref' b']|]; [by exists ref'|done]. }
  rewrite Em. apply restore_methods_hooked; try done.
  - apply NoDup_fst_map_to_list.
  - apply elem_of_map_to_list. by eapply saved_of_hooked.
  - by rewrite (IsHooked_spec cls hooks r t Hok), Ht.
  - apply Hap; [done..|]. congruence.
  - pose proof (le_val_range _ (read_bytes_byte (mem (ls s)) (t + entry_point_offset G) 8 Hm)) as H.
    rewrite read_bytes_length in H. exact H.
  - intros [u e] Hin Hne. cbn [fst] in *. apply elem_of_map_to_list in Hin.
    pose proof (saved_of_involved s u e Hok Hin) as Hu.
    assert (Iu : involved hooks c r u) by (destruct Hu; [by left|by right; right]).
    assert (Hub : u <> b).
    { intros ->. destruct Hu as [[x Hx]|Hu]; [congruence|done]. }
    split_and!; [apply Hap; try done; by apply not_eq_sym|apply Hap; try done; by apply not_eq_sym|].
    intros Hu0. destruct (Hh u Hu0) as [ref' Hu'].
    assert (Iu' : involved hooks c r (IsHooked u false r)) by (right; left; eauto).
    split; apply Hap; try done.
    + intros E. apply (ho_apart _ _ _ Hok) in Hu'. rewrite <- E in Hu'. congruence.
    + intros E. rewrite <- E in Hu'. apply Hne. by eapply (ho_inj _ _ _ Hok).
Qed.
End Initialization.
