(* ===== verification/LsDebug.v ===== *)
(** [JavaDebuggableGuard]: [lsplant_jni/art/runtime/runtime.cxx].

    A counter shared by all threads makes the runtime debuggable while any guard is
    alive. 1 marks a change under way; with [n] guards the counter is [n + 1]. Each
    atomic operation is a step; a thread is where it is in the constructor or the
    destructor.

    Then the invariant of that relation. *)
From S2P Require Import Prelude.

Inductive RuntimeDebugState := kNonJavaDebuggable | kJavaDebuggable | kJavaDebuggableAtInit.

Inductive place :=
| Out                    (* no guard *)
| CLoop                  (* constructor, before the first exchange *)
| CWait                  (* in [wait(1)] *)
| CTry (expected : Z)    (* before the second exchange *)
| CSet                   (* counter is 1, before [SetJavaDebuggable] *)
| CAdd                   (* before [fetch_add] *)
| Alive                  (* the guard exists *)
| DLoop | DWait | DTry (expected : Z)
| DSet | DSub.

Record guard_state := { count : Z; debug_state : RuntimeDebugState; places : list place }.

Section Steps.
Context (i : nat).

Definition moves (p : place) (s : guard_state) : list place := <[i := p]> (places s).
Definition moved (p : place) (s : guard_state) : guard_state :=
  {| count := count s; debug_state := debug_state s; places := moves p s |}.
Definition counted (c : Z) (p : place) (s : guard_state) : guard_state :=
  {| count := c; debug_state := debug_state s; places := moves p s |}.
Definition set_debug (d : RuntimeDebugState) (p : place) (s : guard_state) : guard_state :=
  {| count := count s; debug_state := d; places := moves p s |}.

Inductive guard_step (s : guard_state) : guard_state -> Prop :=
| guard_enter : places s !! i = Some Out -> guard_step s (moved CLoop s)
| guard_first : places s !! i = Some CLoop -> count s = 0 -> guard_step s (counted 1 CSet s)
| guard_busy : places s !! i = Some CLoop -> count s = 1 -> guard_step s (moved CWait s)
| guard_seen : places s !! i = Some CLoop -> count s <> 0 -> count s <> 1 -> guard_step s (moved (CTry (count s)) s)
| guard_woken : places s !! i = Some CWait -> count s <> 1 -> guard_step s (moved CLoop s)
| guard_share v : places s !! i = Some (CTry v) -> count s = v -> guard_step s (counted (v + 1) Alive s)
| guard_retry v : places s !! i = Some (CTry v) -> count s <> v -> guard_step s (moved CLoop s)
| guard_enable : places s !! i = Some CSet -> guard_step s (set_debug kJavaDebuggableAtInit CAdd s)
| guard_publish : places s !! i = Some CAdd -> guard_step s (counted (count s + 1) Alive s)
| guard_leave : places s !! i = Some Alive -> guard_step s (moved DLoop s)
| guard_last : places s !! i = Some DLoop -> count s = 2 -> guard_step s (counted 1 DSet s)
| guard_dbusy : places s !! i = Some DLoop -> count s = 1 -> guard_step s (moved DWait s)
| guard_dseen : places s !! i = Some DLoop -> count s <> 2 -> count s <> 1 -> guard_step s (moved (DTry (count s)) s)
| guard_dwoken : places s !! i = Some DWait -> count s <> 1 -> guard_step s (moved DLoop s)
| guard_drop v : places s !! i = Some (DTry v) -> count s = v -> guard_step s (counted (v - 1) Out s)
| guard_dretry v : places s !! i = Some (DTry v) -> count s <> v -> guard_step s (moved DLoop s)
| guard_disable : places s !! i = Some DSet -> guard_step s (set_debug kNonJavaDebuggable DSub s)
| guard_hide : places s !! i = Some DSub -> guard_step s (counted (count s - 1) Out s).
End Steps.

Definition guard_initial (n : nat) : guard_state :=
  {| count := 0; debug_state := kNonJavaDebuggable; places := replicate n Out |}.

Inductive guard_reachable (n : nat) : guard_state -> Prop :=
| guard_start : guard_reachable n (guard_initial n)
| guard_more i s s' : guard_reachable n s -> guard_step i s s' -> guard_reachable n s'.

(** A guard that is alive, or whose destructor has not taken effect. *)
Definition holds (p : place) : Z := match p with Alive | DLoop | DWait | DTry _ => 1 | _ => 0 end.
(** A change under way. *)
Definition changes (p : place) : Z := match p with CSet | CAdd | DSet | DSub => 1 | _ => 0 end.

Fixpoint total (f : place -> Z) (l : list place) : Z := match l with [] => 0 | p :: l => f p + total f l end.

Lemma total_insert f l i p q : l !! i = Some p -> total f (<[i := q]> l) = total f l - f p + f q.
Proof.
  revert i. induction l as [|r l IH]; intros [|i] H; try done; simpl in *.
  - injection H as ->. lia.
  - rewrite (IH i H). lia.
Qed.

Lemma total_nonneg f l : (forall p, 0 <= f p) -> 0 <= total f l.
Proof. intros H. induction l as [|p l IH]; cbn; [lia|]. specialize (H p). lia. Qed.

Lemma total_ge f l i p : (forall q, 0 <= f q) -> l !! i = Some p -> f p <= total f l.
Proof.
  intros H. revert i. induction l as [|q l IH]; intros [|i] Hi; try done; cbn in *.
  - injection Hi as ->. pose proof (total_nonneg f l H). lia.
  - specialize (IH i Hi). specialize (H q). lia.
Qed.

Lemma holds_nonneg p : 0 <= holds p.
Proof. destruct p; cbn; lia. Qed.
Lemma changes_nonneg p : 0 <= changes p.
Proof. destruct p; cbn; lia. Qed.

(** One change at most; without one, as many guards as the counter says. *)
Record guard_inv (s : guard_state) : Prop := {
  gi_changes : total changes (places s) = if count s =? 1 then 1 else 0;
  gi_holds : total holds (places s) = if count s =? 0 then 0 else count s - 1;
  gi_count : 0 <= count s;
  gi_debug : 2 <= count s -> debug_state s = kJavaDebuggableAtInit;
  gi_none : count s = 0 -> debug_state s = kNonJavaDebuggable;
  gi_set : forall i, places s !! i = Some CAdd -> debug_state s = kJavaDebuggableAtInit;
  gi_unset : forall i, places s !! i = Some DSub -> debug_state s = kNonJavaDebuggable;
  gi_tries : forall i v, places s !! i = Some (CTry v) -> 2 <= v;
  gi_dtries : forall i v, places s !! i = Some (DTry v) -> 3 <= v
}.

Lemma guard_inv_initial n : guard_inv (guard_initial n).
Proof.
  assert (H : forall f, f Out = 0 -> total f (replicate n Out) = 0) by (intros f E; induction n; cbn; lia).
  split; cbn; try done; try (by apply H); intros i *; intros E; by apply lookup_replicate in E as [E _].
Qed.

Lemma moves_lookup i p s j q : moves i p s !! j = Some q -> (j = i /\ q = p) \/ (j <> i /\ places s !! j = Some q).
Proof.
  unfold moves. intros H. destruct (decide (j = i)) as [->|Hne].
  - apply list_lookup_insert_Some in H as [(_ & <- & _)|[? _]]; [by left|done].
  - rewrite list_lookup_insert_ne in H by done. by right.
Qed.

(** A thread that changes: there is no other. *)
Lemma only_change s i j p q :
  guard_inv s -> places s !! i = Some p -> places s !! j = Some q -> changes p = 1 -> changes q = 1 -> i = j.
Proof.
  intros [Hc _ _ _ _ _ _ _ _] Hi Hj Hp Hq. destruct (decide (i = j)) as [|Hne]; [done|].
  pose proof (total_insert changes _ i p Out Hi) as E. rewrite Hp in E. change (changes Out) with 0 in E.
  assert (Hj' : <[i := Out]> (places s) !! j = Some q) by by rewrite list_lookup_insert_ne.
  pose proof (total_ge changes _ j q changes_nonneg Hj'). destruct (count s =? 1); lia.
Qed.

Lemma guard_inv_step i s s' : guard_step i s s' -> guard_inv s -> guard_inv s'.
Proof.
  intros Hst Hinv. pose proof (only_change s i) as Honly.
  assert (Hupd : forall p q c d, places s !! i = Some p ->
    total changes (places s) - changes p + changes q = (if c =? 1 then 1 else 0) ->
    total holds (places s) - holds p + holds q = (if c =? 0 then 0 else c - 1) ->
    0 <= c -> (2 <= c -> d = kJavaDebuggableAtInit) -> (c = 0 -> d = kNonJavaDebuggable) ->
    (q = CAdd -> d = kJavaDebuggableAtInit) -> (q = DSub -> d = kNonJavaDebuggable) ->
    (forall v, q = CTry v -> 2 <= v) -> (forall v, q = DTry v -> 3 <= v) ->
    (d = debug_state s \/ changes p = 1) ->
    guard_inv {| count := c; debug_state := d; places := moves i q s |}).
  { intros p q c d Hi Hc Hh H0 Hd Hn Hq1 Hq2 Hq3 Hq4 Hdd. destruct Hinv as [Ic Ih I0 Id In Is Iu It Idt] eqn:Ei.
    assert (Hdeq : forall j r, j <> i -> places s !! j = Some r -> changes r = 1 -> d = debug_state s).
    { intros j r Hne Hj Hr. destruct Hdd as [->|Hp]; [done|]. by destruct Hne; symmetry; eapply Honly. }
    split; cbn [count debug_state places]; try done.
    - unfold moves. by rewrite (total_insert _ _ _ _ _ Hi).
    - unfold moves. by rewrite (total_insert _ _ _ _ _ Hi).
    - intros j Hj. apply moves_lookup in Hj as [[_ <-]|[Hne Hj]]; [by apply Hq1|].
      rewrite (Hdeq j CAdd) by done. by eapply Is.
    - intros j Hj. apply moves_lookup in Hj as [[_ <-]|[Hne Hj]]; [by apply Hq2|].
      rewrite (Hdeq j DSub) by done. by eapply Iu.
    - intros j v Hj. apply moves_lookup in Hj as [[_ <-]|[Hne Hj]]; [by apply Hq3|by eapply It].
    - intros j v Hj. apply moves_lookup in Hj as [[_ <-]|[Hne Hj]]; [by apply Hq4|by eapply Idt]. }
  pose proof Hinv as [Ic Ih I0 Id In Is Iu It Idt].
  assert (Hge : forall p, places s !! i = Some p -> changes p <= total changes (places s) /\ holds p <= total holds (places s)).
  { intros p Hi. split; by eapply total_ge; [intros []; cbn; lia|]. }
  destruct Hst as [Hi|Hi E|Hi E|Hi E E'|Hi E|v Hi E|v Hi E|Hi|Hi|Hi|Hi E|Hi E|Hi E E'|Hi E|v Hi E|v Hi E|Hi|Hi];
    destruct (Hge _ Hi) as [G1 G2];
    try pose proof (It _ _ Hi); try pose proof (Idt _ _ Hi); try pose proof (Is _ Hi); try pose proof (Iu _ Hi);
    eapply (Hupd _ _ _ _ Hi); cbn [changes holds] in *;
    rewrite ?Ic, ?Ih in *; try (intros; discriminate); try (by left); try (by right); try assumption;
    try (intros; simplify_eq);
    repeat match goal with |- context [Z.eqb ?a ?b] => destruct (Z.eqb_spec a b) | H : context [Z.eqb ?a ?b] |- _ => destruct (Z.eqb_spec a b) end;
    try lia; eauto; apply Id; lia.
Qed.

Lemma guard_inv_reachable n s : guard_reachable n s -> guard_inv s.
Proof. induction 1 as [|i s s' _ IH Hst]; [apply guard_inv_initial|by eapply guard_inv_step]. Qed.

(** Some thread changes when the sum says so. *)
Lemma total_witness f l : 0 < total f l -> exists i p, l !! i = Some p /\ 0 < f p.
Proof.
  induction l as [|p l IH]; cbn; [lia|]. intros H. destruct (Z.lt_ge_cases 0 (f p)); [by exists 0%nat, p|].
  destruct IH as (i & q & Hi & Hq); [lia|]. by exists (S i), q.
Qed.

(** In the middle of a constructor or destructor. *)
Definition busy (p : place) : bool := match p with Out | Alive => false | _ => true end.

(** A busy thread can go on unless it waits; then another can. *)
Lemma guard_progress s i p :
  guard_inv s -> places s !! i = Some p -> busy p = true ->
  exists j q s', places s !! j = Some q /\ busy q = true /\ guard_step j s s'.
Proof.
  intros Hinv Hi Hb. destruct (Z.eq_dec (count s) 1) as [E1|E1].
  - destruct (total_witness changes (places s)) as (j & q & Hj & Hq).
    { rewrite (gi_changes s Hinv), E1. reflexivity. }
    exists j, q. destruct q; cbn in Hq; try lia; eexists; (split; [done|split; [done|]]);
      [by apply guard_enable|by apply guard_publish|by apply guard_disable|by apply guard_hide].
  - exists i, p. destruct p as [| | |v| | | | | |v| |]; try done.
    + destruct (Z.eq_dec (count s) 0); eexists; (split; [done|split; [done|]]); [by apply guard_first|by apply guard_seen].
    + eexists; split; [done|split; [done|]]. by apply guard_woken.
    + destruct (Z.eq_dec (count s) v); eexists; (split; [done|split; [done|]]); [by apply guard_share|by eapply guard_retry].
    + eexists; split; [done|split; [done|]]. by apply guard_enable.
    + eexists; split; [done|split; [done|]]. by apply guard_publish.
    + destruct (Z.eq_dec (count s) 2); eexists; (split; [done|split; [done|]]); [by apply guard_last|by apply guard_dseen].
    + eexists; split; [done|split; [done|]]. by apply guard_dwoken.
    + destruct (Z.eq_dec (count s) v); eexists; (split; [done|split; [done|]]); [by apply guard_drop|by eapply guard_dretry].
    + eexists; split; [done|split; [done|]]. by apply guard_disable.
    + eexists; split; [done|split; [done|]]. by apply guard_hide.
Qed.
