(* ===== verification/LsClaims.v ===== *)
(** The guarantees of LSPlant: hooked methods, the records of hooks, trampolines
    under concurrency, class initialization and the debuggable guard. *)
From S2P Require Import Prelude Arm64Isa Platform ArtMethod LsTrampoline.
From S2P Require Import LsPool LsCommon LsHook LsClassLinker LsDebug.

(** ART's functions found by symbol only do what their names say: [SetNotIntrinsic]
    changes the flags of the method it is given, [SetEntryPointsToInterpreter] its
    entry point. *)
Definition only_flags (G : art_globals) (f : option (Z -> memory -> memory)) : Prop :=
  forall g, f = Some g -> forall t m, (forall x, ~ in_flags G t x -> g t m x = m x) /\ (bytes_ok m -> bytes_ok (g t m)).
Definition only_entry (G : art_globals) (f : option (Z -> memory -> memory)) : Prop :=
  forall g, f = Some g -> forall t m, (forall x, ~ in_entry G t x -> g t m x = m x) /\ (bytes_ok m -> bytes_ok (g t m)).

(** C4: A hook that finds a slot succeeds. The target's entry point is then the
    trampoline: a call of the target arrives at the hook method's entry point with
    the hook method in the argument register and only x16 changed besides. The
    backup is the target as it was but for its flags: not compiled, and private
    unless static. The target is not compiled either, and nothing but its flags,
    its entry point, the backup and the slot has changed. *)
Theorem hooked_method_runs_hook G SetNotIntrinsic_ bridge shift s c t h b a :
  globals_ok G -> only_flags G SetNotIntrinsic_ -> hook_ready G shift s c t h b a ->
  exists s', DoHook G SetNotIntrinsic_ bridge shift None c t h b s = (true, s') /\
    hooked G SetNotIntrinsic_ shift s s' t h b a /\
    forall k, Arm64Isa.mem k = mem s' ->
      steps ldur (GetEntryPoint G t (mem s'), k)
        (GetEntryPoint G h (mem s), set_x 16 (GetEntryPoint G h (mem s)) (set_x 0 h k)).
Proof.
  intros HG HN Hr. destruct (DoHook_succeeds G SetNotIntrinsic_ bridge shift s c t h b a Hr) as [s' Hd].
  pose proof (DoHook_hooked G HG SetNotIntrinsic_ bridge shift HN s c t h b a s' Hr Hd) as Hk.
  exists s'. split; [done|]. split; [done|]. intros k Hmem.
  rewrite (hk_entry _ _ _ _ _ _ _ _ _ Hk).
  assert (Eh : GetEntryPoint G h (mem s) = load64 (Arm64Isa.mem k) (h + entry_point_offset G)).
  { rewrite Hmem. symmetry. apply (entry_agree G h). intros x Hx. apply in_entry_method in Hx; [|done].
    apply (hk_frame _ _ _ _ _ _ _ _ _ Hk).
    - intros Hf. apply (apart_not_in G t h x (hr_th _ _ _ _ _ _ _ _ Hr)); [by apply in_flags_method|done].
    - intros Hf. apply (apart_not_in G t h x (hr_th _ _ _ _ _ _ _ _ Hr)); [by apply in_entry_method|done].
    - by apply (apart_not_in G h b x (hr_hb _ _ _ _ _ _ _ _ Hr)).
    - intros Hs. by apply (hr_sh _ _ _ _ _ _ _ _ Hr x). }
  rewrite Eh. pose proof (hr_addr _ _ _ _ _ _ _ _ Hr). pose proof (hr_hook _ _ _ _ _ _ _ _ Hr).
  pose proof (offset_range G HG (hr_offset _ _ _ _ _ _ _ _ Hr)).
  apply trampoline_steps; try lia. rewrite Hmem. apply (hk_code _ _ _ _ _ _ _ _ _ Hk).
Qed.

(** C5: Unhooking undoes hooking: outside the backup and the slot every byte is what
    it was before the hook, but for the target's flags, which stay those of a hooked
    method. *)
Theorem unhook_restores G SetNotIntrinsic_ bridge shift s c t h b a s' ok s'' :
  globals_ok G -> only_flags G SetNotIntrinsic_ -> hook_ready G shift s c t h b a ->
  DoHook G SetNotIntrinsic_ bridge shift None c t h b s = (true, s') ->
  DoUnHook G shift None t b s' = (ok, s'') ->
  ok = true /\
  (forall x, ~ in_flags G t x -> ~ in_method G b x -> ~ in_slot shift a x -> mem s'' x = mem s x) /\
  GetEntryPoint G t (mem s'') = GetEntryPoint G t (mem s) /\
  GetAccessFlags G t (mem s'') = GetAccessFlags G t (mem s').
Proof.
  intros HG HN Hr Hd Hu. destruct (DoUnHook_mem G shift t b s' s'' ok Hu) as (-> & Em & _).
  pose proof (DoHook_hooked G HG SetNotIntrinsic_ bridge shift HN s c t h b a s' Hr Hd) as Hk.
  assert (Hx : forall x, ~ in_flags G t x -> ~ in_method G b x -> ~ in_slot shift a x -> mem s'' x = mem s x).
  { intros x Hf Hb Hs. rewrite Em. destruct (decide (t <= x < t + art_method_size G)) as [Hin|Hin].
    - replace x with (t + (x - t)) in * by lia. rewrite unhook_methods_in by (done || lia).
      apply (hk_backup _ _ _ _ _ _ _ _ _ Hk); [lia|done].
    - rewrite unhook_methods_out by done.
      apply (hk_frame _ _ _ _ _ _ _ _ _ Hk); [done| |done..]. intros He. by apply Hin, (in_entry_method G HG). }
  split_and!; [done|done| |].
  - apply entry_agree. intros x He. assert (Hin : in_method G t x) by by apply in_entry_method.
    apply Hx; [by apply in_entry_flags|by apply (apart_not_in G t b x (hr_tb _ _ _ _ _ _ _ _ Hr))|].
    intros Hs. by apply (hr_st _ _ _ _ _ _ _ _ Hr x).
  - rewrite Em. apply unhook_methods_flags. apply (hk_bytes _ _ _ _ _ _ _ _ _ Hk).
Qed.

(** C7: The records implement a map from hooked methods to their backups. [Hook] on
    a method that is neither hooked nor a backup, with valid arguments, adds it and
    returns the reference to the backup; otherwise it returns null and changes
    nothing. [UnHook] removes a hooked method and reports it, and changes nothing
    for another. The queries look the map up, in both directions. *)
Theorem hooks_refine `{JNI} G SetNotIntrinsic_ bridge shift cls hooks c tm ho cm bc a s :
  let t := art_method_of tm in let b := art_method_of (reflected_backup bc) in
  let h := art_method_of (reflected_hook bc) in let ref := NewGlobalRef (reflected_backup bc) in
  globals_ok G -> only_flags G SetNotIntrinsic_ -> hooks_ok cls hooks (reg s) ->
  hook_ready G shift s c t h b a -> class_def_of G t (mem s) = cls t ->
  unknown hooks b -> t <> b -> t <> 0 -> b <> 0 -> ref <> 0 ->
  (let '(g, s') := Hook G SetNotIntrinsic_ bridge shift None c tm ho cm (Some bc) s in
   if may_hook tm ho cm && (IsHooked t true (reg s) =? 0)
   then g = ref /\ unknown hooks t /\ hooks_ok cls (<[t := (ref, b)]> hooks) (reg s')
   else g = 0 /\ s' = s /\ (may_hook tm ho cm = false \/ ~ unknown hooks t)) /\
  (let '(ok, s') := UnHook G shift None tm s in
   if ok then is_Some (hooks !! t) /\ hooks_ok cls (delete t hooks) (reg s')
   else s' = s /\ (tm = 0 \/ is_executable tm = false \/ hooks !! t = None)) /\
  (forall m, IsHooked m false (reg s) = match hooks !! m with Some (_, b) => b | None => 0 end) /\
  (forall m u, u <> 0 -> IsBackup m (reg s) = u <-> exists ref, hooks !! u = Some (ref, m)).
Proof.
  intros t b h ref HG HN Hok Hr Hcl Hb Hne Ht0 Hb0 Href0.
  pose proof (Hook_refine G HG SetNotIntrinsic_ bridge shift HN cls hooks c tm ho cm bc a s Hok Hr Hcl Hb Hne Ht0 Hb0 Href0) as H1.
  pose proof (UnHook_refine G shift cls hooks tm s Hok Hcl) as H2. cbv zeta in H1, H2. fold t b h ref in H1, H2.
  pose proof (IsHooked_known cls hooks (reg s) t Hok) as Hun.
  split; [|split].
  - destruct (Hook _ _ _ _ _ _ _ _ _ _) as [g s']. destruct H1 as [(-> & -> & Hwhy)|(-> & -> & Hu & _ & Hok')].
    + destruct (may_hook tm ho cm && (IsHooked t true (reg s) =? 0)) eqn:E; [|done].
      apply andb_true_iff in E as [E1 E2%Z.eqb_eq]. exfalso. destruct Hwhy as [E|Hwhy]; [congruence|]. by apply Hwhy, Hun.
    + apply Hun in Hu as E. rewrite E. cbn. split_and!; try done; by apply Hu.
  - destruct (UnHook _ _ _ _ _) as [ok s']. destruct H2 as [(-> & -> & Hwhy)|(-> & ref' & b' & E & _ & Hok')]; [done|].
    rewrite E. split; [eauto|done].
  - split; intros m; [by apply IsHooked_spec with cls|]. intros u Hu. by apply IsBackup_spec with cls.
Qed.

(** C8: Whatever the interleaving of the threads that generate trampolines, no two
    slots handed out overlap and each lies in one allocated page, as long as
    allocations succeed and the threads are not so many that the count could leave
    its 12 or 14 bits: up to 1962 threads with pages of 4096 bytes, up to 7850 with
    16384. *)
Theorem trampoline_slots_disjoint shift n s :
  shift_ok shift -> kTrampolineNumPerPage shift + 2 * Z.of_nat n + 1 < kPageSize shift -> reachable shift false n s ->
  (forall i j a b, slots s !! i = Some a -> slots s !! j = Some b -> i <> j -> apart a b) /\
  (forall a, a ∈ slots s -> exists p, p ∈ pages s /\ p <= a /\ a + kTrampolineSize <= p + kPageSize shift) /\
  (forall i a, threads s !! i = Some (Got a) -> a ∈ slots s).
Proof.
  intros Hs Hn Hr. destruct (pool_inv_reachable shift n Hs Hn s Hr) as (_ & page & count & lp & fs & HI & _).
  pose proof (is_slots _ _ _ _ HI) as Hsl. pose proof (is_pages _ _ _ _ HI) as Hpg. rewrite Forall_forall in Hsl, Hpg.
  split; [|split].
  - intros i j a b Hi Hj Hne.
    destruct (Hsl a ltac:(by eapply list_elem_of_lookup_2)) as (p & k & -> & Hp & Hk & _).
    destruct (Hsl b ltac:(by eapply list_elem_of_lookup_2)) as (p' & k' & -> & Hp' & Hk' & _).
    apply (apart_slots shift Hs); [by apply Hpg..|done|done|]. intros E. apply Hne.
    eapply NoDup_lookup; [apply (is_nodup _ _ _ _ HI)|exact Hi|]. by rewrite E.
  - intros a Ha. destruct (Hsl a Ha) as (p & k & -> & Hp & Hk & _). exists p.
    pose proof (slots_fit shift Hs k Hk). unfold slot_in. split_and!; [done|lia|lia].
  - intros i a Hi. eapply got_handed_out; [exact Hr|]. left. exact Hi.
Qed.

(** A failed allocation only counts up. From a pool that is empty or full, enough
    failed calls in a row carry into the address: the next call succeeds without
    allocating, and returns the page after the current one, which was never
    allocated for code (0x1000 when there was no page at all). *)
Theorem pool_counts_failures shift page count s c :
  shift_ok shift -> page mod kPageSize shift = 0 -> 0 <= page < 2 ^ 63 -> pool s = page + count -> 0 <= count <= kPageSize shift ->
  page = 0 \/ kTrampolineNumPerPage shift <= count ->
  (take_slot shift c (fail_calls shift (Z.to_nat (kPageSize shift - count)) s)).1 = Some (page + kPageSize shift).
Proof.
  intros Hs Hm Hp Hw Hc Hf. pose proof (page_small shift Hs). pose proof (page_pos shift Hs).
  set (s' := fail_calls shift _ s).
  assert (E : pool s' = page + kPageSize shift + 0).
  { unfold s'. rewrite (fail_calls_count shift Hs (Z.to_nat (kPageSize shift - count)) page count s); lia. }
  assert (Hm' : (page + kPageSize shift) mod kPageSize shift = 0).
  { rewrite <- Zplus_mod_idemp_r, Z_mod_same_full, Z.add_0_r. done. }
  unfold take_slot. rewrite E. unfold is_full. rewrite tl_address_split, tl_count_split by (done || lia).
  rewrite (proj2 (Z.eqb_neq (page + kPageSize shift) 0)) by lia.
  assert (HK : 0 < kTrampolineNumPerPage shift) by (destruct Hs as [-> | ->]; vm_compute; reflexivity).
  rewrite (proj2 (Z.leb_gt _ 0)) by lia. cbn [orb fst]. unfold slot_of.
  rewrite tl_address_split, tl_count_split by (done || lia). rewrite trunc_small; [f_equal; lia|lia].
Qed.

(** C9: Hooks survive the initialization of a class: ART resets the entry points of
    its static methods, and after it each hooked one has the trampoline again and,
    unless it was deoptimized, its backup the entry point that ART meant for it. *)
Theorem hooks_survive_initialization `{JNI} G bridge sdk_int to_interpreter art_bridge cls hooks c f1 f2 s self self' t ref b :
  globals_ok G -> only_entry G to_interpreter -> art_function f1 -> art_function f2 -> bytes_ok (mem (ls s)) ->
  hooks_ok cls hooks (reg (ls s)) -> hooks !! t = Some (ref, b) -> cls t = c -> c <> 0 -> none_saved c s ->
  IsStatic G t (mem (ls s)) = true ->
  (forall u v, involved hooks c (reg (ls s)) u -> involved hooks c (reg (ls s)) v -> u <> v -> methods_apart G u v) ->
  b ∉ (default ∅ (deoptimized_classes_ (reg (ls s)) !! c) : gset Z) ->
  let before := f2 (SetStatus G sdk_int f1 c (initialized_status sdk_int) self s) in
  let after := FixupStaticTrampolines G bridge to_interpreter art_bridge f2 c self'
                 (SetStatus G sdk_int f1 c (initialized_status sdk_int) self s) in
  GetEntryPoint G t (mem (ls after)) = GetEntryPoint G t (mem (ls s)) /\
  (IsDeoptimized t (reg (ls s)) = false -> GetEntryPoint G t (mem (ls before)) <> GetEntryPoint G t (mem (ls s)) ->
   GetEntryPoint G b (mem (ls after)) = GetEntryPoint G t (mem (ls before))).
Proof.
  intros HG HE Hf1 Hf2 Hm Hok Ht Hc Hc0 Hn Hst Hap Hbd. cbv zeta.
  assert (Es : SetStatus G sdk_int f1 c (initialized_status sdk_int) self s = f1 (BackupClassMethods G c self s)).
  { unfold SetStatus. by rewrite Z.eqb_refl. }
  unfold FixupStaticTrampolines. rewrite Es. clear Es.
  pose proof (BackupClassMethods_ls G c self s) as E0. set (s0 := BackupClassMethods G c self s) in *.
  destruct (Hf1 s0) as (R1 & B1 & M1). destruct (Hf2 (f1 s0)) as (R2 & B2 & M2).
  eapply initialization_restores; try done.
  - intros g Hg. apply (HE g Hg).
  - intros g Hg u m. apply (HE g Hg).
  - apply M2, M1. by rewrite E0.
  - by rewrite R2, R1, E0.
  - by rewrite B2, B1.
Qed.

(** C18: In every interleaving the runtime is debuggable while a guard is alive and not
    debuggable when there is none and no thread is creating or dropping one; and a
    thread in a constructor or destructor is never stuck: it or another such thread
    can go on. *)
Theorem debuggable_while_guarded n s :
  guard_reachable n s ->
  (forall i, places s !! i = Some Alive -> debug_state s = kJavaDebuggableAtInit) /\
  ((forall i p, places s !! i = Some p -> p = Out) -> debug_state s = kNonJavaDebuggable /\ count s = 0) /\
  (forall i p, places s !! i = Some p -> busy p = true ->
     exists j q s', places s !! j = Some q /\ busy q = true /\ guard_step j s s').
Proof.
  intros Hr. pose proof (guard_inv_reachable n s Hr) as Hinv. split; [|split].
  - intros i Hi. apply (gi_debug s Hinv). pose proof (total_ge holds _ _ _ holds_nonneg Hi) as Hh.
    rewrite (gi_holds s Hinv) in Hh. cbn in Hh. destruct (count s =? 0); lia.
  - intros Hout. assert (Ht : forall f, f Out = 0 -> total f (places s) = 0).
    { intros f Hf. clear -Hout Hf. revert Hout. induction (places s) as [|p l IH]; intros H; [done|]. cbn.
      rewrite (H 0%nat p eq_refl), Hf, IH; [done|]. intros i q Hi. by apply (H (S i)). }
    pose proof (gi_holds s Hinv) as Hh. pose proof (gi_changes s Hinv) as Hc. rewrite Ht in Hh, Hc by done.
    assert (E : count s = 0).
    { destruct (Z.eqb_spec (count s) 0); [done|]. destruct (Z.eqb_spec (count s) 1); lia. }
    split; [by apply (gi_none s Hinv)|done].
  - intros i p. by apply guard_progress.
Qed.

(** ** Instances *)

(** Android 12's method layout; a public static method at 0x1000, a hook method at
    0x2000 and room for the backup at 0x3000. *)
Definition demo_globals : art_globals :=
  {| art_method_size := 32; entry_point_offset := 24; interpreter_entry_point_offset := 0; data_offset := 16;
     access_flags_offset := 4; declaring_class_offset := 0;
     kAccFastInterpreterToInterpreterInvoke := 0x40000000; kAccPreCompiled := 0x00800000;
     kAccCompileDontBother := 0x02000000; kAccIntrinsic := 0x80000000 |}.
Definition demo_mem : memory := fun a =>
  if a =? 0x1004 then 9 else if a =? 0x1018 then 0x11 else if a =? 0x2018 then 0x22 else 0.
Definition demo_calls : alloc_calls :=
  {| memfd_create := true; memfd_truncate := true; memfd_maps := {| reserved := Some 0x100000; mapped := true |};
     ashmem_open := false; ashmem_set_size := false; ashmem_maps := {| reserved := None; mapped := false |};
     anonymous := None |}.
Definition demo : lsplant := {| mem := demo_mem; tramp := noTrampolines; reg := noRecords; kInternalMethods := [] |}.
#[local] Instance demo_jni : JNI :=
  {| is_executable _ := true; art_method_of x := x; method_id_of x := x; is_proxy_class _ := false;
     is_member _ _ := true; GetClassDef _ := 7; NewGlobalRef x := x + 1 |}.

Lemma demo_globals_ok : globals_ok demo_globals.
Proof. split; cbn; lia. Qed.

Lemma demo_bytes : bytes_ok demo_mem.
Proof. intros a. unfold demo_mem, is_byte. repeat destruct (_ =? _); lia. Qed.

Lemma ls_demo_ready : hook_ready demo_globals 12 demo demo_calls 0x1000 0x2000 0x3000 0x100000.
Proof.
  split; [apply demo_bytes|cbn; lia|cbn; lia|reflexivity|lia|lia|unfold methods_apart; cbn; lia|unfold methods_apart; cbn; lia|
    unfold methods_apart; cbn; lia| | | ];
    intros x; unfold in_slot, in_method; change (kPageSize 12) with 4096; cbn; lia.
Qed.

Lemma demo_only f : only_flags demo_globals None /\ only_entry f None.
Proof. split; intros g; discriminate. Qed.

Lemma hooked_method_runs_hook_witness :
  exists s', DoHook demo_globals None 0 12 None demo_calls 0x1000 0x2000 0x3000 demo = (true, s') /\
    hooked demo_globals None 12 demo s' 0x1000 0x2000 0x3000 0x100000 /\
    forall k, Arm64Isa.mem k = mem s' ->
      steps ldur (GetEntryPoint demo_globals 0x1000 (mem s'), k) (0x22, set_x 16 0x22 (set_x 0 0x2000 k)).
Proof.
  apply (hooked_method_runs_hook demo_globals None 0 12 demo demo_calls 0x1000 0x2000 0x3000 0x100000);
    [apply demo_globals_ok|apply (demo_only demo_globals)|apply ls_demo_ready].
Defined.

Lemma unhook_restores_witness :
  exists s' s'', DoHook demo_globals None 0 12 None demo_calls 0x1000 0x2000 0x3000 demo = (true, s') /\
    DoUnHook demo_globals 12 None 0x1000 0x3000 s' = (true, s'') /\ GetEntryPoint demo_globals 0x1000 (mem s'') = 0x11.
Proof.
  destruct (DoHook demo_globals None 0 12 None demo_calls 0x1000 0x2000 0x3000 demo) as [ok s'] eqn:E.
  assert (ok = true) as -> by (apply (f_equal fst) in E; vm_compute in E; congruence).
  destruct (DoUnHook demo_globals 12 None 0x1000 0x3000 s') as [ok s''] eqn:E'.
  destruct (unhook_restores demo_globals None 0 12 demo demo_calls 0x1000 0x2000 0x3000 0x100000 s' ok s''
    demo_globals_ok (proj1 (demo_only demo_globals)) ls_demo_ready E E') as (-> & _ & H & _).
  exists s', s''. split; [reflexivity|]. split; [exact E'|]. rewrite H. reflexivity.
Defined.

Lemma hooks_refine_witness :
  exists s', Hook demo_globals None 0 12 None demo_calls 0x1000 1 5
      (Some {| reflected_hook := 0x2000; reflected_backup := 0x3000; backup_method := 0x3000 |}) demo = (0x3001, s') /\
    hooks_ok (fun _ => 7) {[0x1000 := (0x3001, 0x3000)]} (reg s').
Proof.
  destruct (hooks_refine demo_globals None 0 12 (fun _ => 7) ∅ demo_calls 0x1000 1 5
      {| reflected_hook := 0x2000; reflected_backup := 0x3000; backup_method := 0x3000 |} 0x100000 demo) as (H & _).
  - apply demo_globals_ok.
  - apply (demo_only demo_globals).
  - apply hooks_ok_empty.
  - apply ls_demo_ready.
  - reflexivity.
  - split; [reflexivity|]. intros t ref E. discriminate.
  - discriminate.
  - discriminate.
  - discriminate.
  - discriminate.
  - destruct (Hook _ _ _ _ _ _ _ _ _ _ _) as [g s']. exists s'. destruct H as (-> & _ & H). split; [reflexivity|exact H].
Defined.

(** Two threads: the first gets a page and its first slot, the second the next slot. *)
Definition two_threads : pool_state :=
  {| word := 0x100002; locked := false; threads := [Got 0x100000; Got 0x100018]; pages := [0x100000];
     slots := [0x100018; 0x100000] |}.

Lemma two_threads_reachable : reachable 12 false 2 two_threads.
Proof.
  pose proof (reach_initial 12 false 2) as R.
  eapply reach_step in R; [|apply (step_full 12 false 0%nat); reflexivity].
  eapply reach_step in R; [|apply (step_lock 12 false 0%nat); reflexivity].
  eapply reach_step in R; [|apply (step_allocate 12 false 0%nat _ 0x100000); [reflexivity|];
    split; [reflexivity|split; [reflexivity|split; [reflexivity|apply not_elem_of_nil]]]].
  eapply reach_step in R; [|apply (step_store 12 false 0%nat _ 0x100000); reflexivity].
  eapply reach_step in R; [|apply (step_clear 12 false 0%nat _ 0x100000); reflexivity].
  eapply reach_step in R; [|apply (step_slot 12 false 1%nat); reflexivity].
  exact R.
Qed.

Lemma trampoline_slots_disjoint_witness :
  reachable 12 false 2 two_threads /\ apart 0x100018 0x100000.
Proof.
  split; [apply two_threads_reachable|].
  refine (proj1 (trampoline_slots_disjoint 12 2 two_threads _ _ two_threads_reachable) 0%nat 1%nat _ _ _ _ _);
    [left; reflexivity|reflexivity|reflexivity|reflexivity|discriminate].
Defined.

Lemma pool_counts_failures_witness :
  (take_slot 12 demo_calls (fail_calls 12 (Z.to_nat (kPageSize 12 - 0)) noTrampolines)).1 = Some 0x1000.
Proof.
  apply (pool_counts_failures 12 0 0 noTrampolines demo_calls); [left; reflexivity|reflexivity|lia|reflexivity| |left; reflexivity].
  split; [lia|discriminate].
Defined.

Definition hooked_demo : state :=
  {| ls := {| mem := demo_mem; tramp := noTrampolines; reg := RecordHooked 0x1000 7 1 0x3000 noRecords; kInternalMethods := [] |};
     backup_methods_ := ∅ |}.
(** ART resets the entry point to 0x55. *)
Definition reset_entry : state -> state := map_mem (SetEntryPoint demo_globals 0 0x1000 0x55).

Lemma hooks_survive_initialization_witness :
  let after := FixupStaticTrampolines demo_globals 0 None 0 reset_entry 7 0
                 (SetStatus demo_globals 31 (fun s => s) 7 (initialized_status 31) 0 hooked_demo) in
  GetEntryPoint demo_globals 0x1000 (mem (ls after)) = 0x11 /\ GetEntryPoint demo_globals 0x3000 (mem (ls after)) = 0x55.
Proof.
  assert (Hok : hooks_ok (fun _ => 7) (<[0x1000 := (1, 0x3000)]> ∅) (reg (ls hooked_demo))).
  { apply (RecordHooked_ok (fun _ => 7)); [apply hooks_ok_empty|..]; try discriminate;
      (split; [reflexivity|intros t ref E; discriminate]). }
  destruct (hooks_survive_initialization demo_globals 0 31 None 0 (fun _ => 7) (<[0x1000 := (1, 0x3000)]> ∅) 7
    (fun s => s) reset_entry hooked_demo 0 0 0x1000 1 0x3000) as [H1 H2].
  - apply demo_globals_ok.
  - apply (demo_only demo_globals).
  - intros s. split; [reflexivity|]. split; [reflexivity|]. intros H; exact H.
  - intros s. split; [reflexivity|]. split; [reflexivity|]. intros H. apply bytes_ok_entry; [apply demo_globals_ok|exact H].
  - apply demo_bytes.
  - exact Hok.
  - reflexivity.
  - reflexivity.
  - discriminate.
  - intros self classes E. discriminate.
  - reflexivity.
  - assert (Hin : forall u, involved (<[0x1000 := (1, 0x3000)]> ∅) 7 (reg (ls hooked_demo)) u -> u = 0x1000 \/ u = 0x3000).
    { intros u [[x E]|[(t & ref & E)|E]].
      - apply lookup_insert_Some in E as [[-> _]|[_ E]]; [left; reflexivity|discriminate].
      - apply lookup_insert_Some in E as [[_ E]|[_ E]]; [right; congruence|discriminate].
      - apply not_elem_of_empty in E as []. }
    intros u v Hu Hv Hne. unfold methods_apart. cbn [art_method_size demo_globals].
    destruct (Hin u Hu) as [-> | ->], (Hin v Hv) as [-> | ->]; try (destruct Hne; reflexivity); lia.
  - apply not_elem_of_empty.
  - split; [exact H1|]. apply H2; [reflexivity|]. vm_compute. discriminate.
Defined.

(** One thread that has created a guard. *)
Lemma debuggable_while_guarded_witness :
  exists s, guard_reachable 1 s /\ places s = [Alive] /\ debug_state s = kJavaDebuggableAtInit.
Proof.
  pose (s := {| count := 2; debug_state := kJavaDebuggableAtInit; places := [Alive] |}).
  assert (Hr : guard_reachable 1 s).
  { pose proof (guard_start 1) as R.
    eapply guard_more in R; [|apply (guard_enter 0%nat); reflexivity].
    eapply guard_more in R; [|apply (guard_first 0%nat); reflexivity].
    eapply guard_more in R; [|apply (guard_enable 0%nat); reflexivity].
    eapply guard_more in R; [|apply (guard_publish 0%nat); reflexivity].
    exact R. }
  exists s. split; [exact Hr|]. split; [reflexivity|].
  apply (proj1 (debuggable_while_guarded 1 s Hr) 0%nat). reflexivity.
Defined.
