(* ===== verification/DexBuilder.v ===== *)
(** The dex builder: [dex_builder.h], [dex_builder.cc] of
    [lsplant_jni/external/dex_builder].

    A [DexBuilder] adds nodes to an IR file (DexIr.v) and keeps maps that find a
    node again; a [MethodBuilder] collects virtual instructions and encodes them.
    Their operations are in a state monad whose failure stands for a failed
    [assert] of a debug build, an exception, or a stray access.

    The builder gives a prototype and a class no original index: both are named by
    their position in the vector that owns them, which for the other nodes is what
    [AllocateIndex] returns. *)
From stdpp Require Import strings.
From Stdlib Require Import Ascii String.
From S2P Require Import Prelude Leb128 SlicerBuffer DexBytecode DexCode DexDebug DexIr.

(** ** The monad *)

Definition M (S A : Type) : Type := S -> option (A * S).
#[export] Instance M_ret S : MRet (M S) := fun A a s => Some (a, s).
#[export] Instance M_bind S : MBind (M S) := fun A B f m s => '(a, s) ← m s; f a s.
Definition get {S} : M S S := fun s => Some (s, s).
Definition put {S} (s : S) : M S unit := fun _ => Some (tt, s).
Definition gets {S A} (f : S -> A) : M S A := fun s => Some (f s, s).
Definition modify {S} (f : S -> S) : M S unit := fun s => Some (tt, f s).
Definition lift {S A} (a : option A) : M S A := fun s => a ← a; Some (a, s).

Fixpoint mapM_ {S A B} (f : A -> M S B) (l : list A) : M S (list B) :=
  match l with
  | [] => mret []
  | a :: l => b ← f a; bs ← mapM_ f l; mret (b :: bs)
  end.
Definition whenM {S} (b : bool) (m : M S unit) : M S unit := if b then m else mret tt.

(** [std::string] and string literals, as bytes. *)
Definition lit (s : string) : list byte := map (fun c => Z.of_nat (nat_of_ascii c)) (list_ascii_of_string s).

(** ** [TypeDescriptor] *)

Record TypeDescriptor := { descriptor_ : list byte; wide_ : bool }.
Definition basic (s : string) : TypeDescriptor := {| descriptor_ := lit s; wide_ := false |}.
Definition TypeDescriptor_Int := basic "I".
Definition TypeDescriptor_Void := basic "V".
Definition TypeDescriptor_Boolean := basic "Z".
Definition TypeDescriptor_Byte := basic "B".
Definition TypeDescriptor_Char := basic "C".
Definition TypeDescriptor_Double := {| descriptor_ := lit "D"; wide_ := true |}.
Definition TypeDescriptor_Float := basic "F".
Definition TypeDescriptor_Long := {| descriptor_ := lit "J"; wide_ := true |}.
Definition TypeDescriptor_Short := basic "S".
Definition TypeDescriptor_Object := basic "Ljava/lang/Object;".
Definition TypeDescriptor_String := basic "Ljava/lang/String;".
Definition ObjectInt := basic "Ljava/lang/Integer;".
Definition ObjectBoolean := basic "Ljava/lang/Boolean;".
Definition ObjectByte := basic "Ljava/lang/Byte;".
Definition ObjectChar := basic "Ljava/lang/Character;".
Definition ObjectDouble := basic "Ljava/lang/Double;".
Definition ObjectFloat := basic "Ljava/lang/Float;".
Definition ObjectLong := basic "Ljava/lang/Long;".
Definition ObjectShort := basic "Ljava/lang/Short;".

(** [operator==]. *)
Definition same_type (a b : TypeDescriptor) : bool := bool_decide (descriptor_ a = descriptor_ b).

Definition find_type {A} (m : list (TypeDescriptor * A)) (t : TypeDescriptor) : option A :=
  snd <$> find (fun e => same_type t e.1) m.

Definition unbox_map : list (TypeDescriptor * TypeDescriptor) :=
  [(ObjectInt, TypeDescriptor_Int); (ObjectBoolean, TypeDescriptor_Boolean); (ObjectByte, TypeDescriptor_Byte);
   (ObjectChar, TypeDescriptor_Char); (ObjectDouble, TypeDescriptor_Double); (ObjectFloat, TypeDescriptor_Float);
   (ObjectLong, TypeDescriptor_Long); (ObjectShort, TypeDescriptor_Short)].
Definition value_method_map : list (TypeDescriptor * list byte) :=
  [(ObjectInt, lit "intValue"); (ObjectBoolean, lit "booleanValue"); (ObjectByte, lit "byteValue");
   (ObjectChar, lit "charValue"); (ObjectDouble, lit "doubleValue"); (ObjectFloat, lit "floatValue");
   (ObjectLong, lit "longValue"); (ObjectShort, lit "shortValue")].

(** [descriptor_[0]]; the terminator of an empty one. *)
Definition first_char (d : list byte) : Z := default 0 (head d).
Definition char_of (c : ascii) : Z := Z.of_nat (nat_of_ascii c).
Definition is_object (t : TypeDescriptor) : bool := first_char (descriptor_ t) =? char_of "L".
Definition is_array (t : TypeDescriptor) : bool := first_char (descriptor_ t) =? char_of "[".
Definition is_primitive (t : TypeDescriptor) : bool := negb (is_object t) && negb (is_array t).
Definition short_descriptor (t : TypeDescriptor) : Z :=
  if first_char (descriptor_ t) =? char_of "[" then char_of "L" else first_char (descriptor_ t).
Definition ToArray (t : TypeDescriptor) : TypeDescriptor :=
  {| descriptor_ := char_of "[" :: descriptor_ t; wide_ := false |}.

Definition ToBoxType (ndebug : bool) (t : TypeDescriptor) : option TypeDescriptor :=
  SLICER_CHECK ndebug (is_primitive t) ;;
  let c := first_char (descriptor_ t) in
  if c =? char_of "I" then Some ObjectInt
  else if c =? char_of "Z" then Some ObjectBoolean
  else if c =? char_of "C" then Some ObjectChar
  else if c =? char_of "J" then Some ObjectLong
  else if c =? char_of "S" then Some ObjectShort
  else if c =? char_of "F" then Some ObjectFloat
  else if c =? char_of "D" then Some ObjectDouble
  else if c =? char_of "B" then Some ObjectByte
  else SLICER_CHECK ndebug false ;; Some TypeDescriptor_Object.

(** A release build dereferences [end()]. *)
Definition ToUnBoxType (ndebug : bool) (t : TypeDescriptor) : option TypeDescriptor :=
  SLICER_CHECK ndebug (is_object t) ;; find_type unbox_map t.

(** The cases that the two functions [FromDescriptor] share. *)
Definition primitive_of (c : Z) : option TypeDescriptor :=
  if c =? char_of "I" then Some TypeDescriptor_Int
  else if c =? char_of "Z" then Some TypeDescriptor_Boolean
  else if c =? char_of "C" then Some TypeDescriptor_Char
  else if c =? char_of "J" then Some TypeDescriptor_Long
  else if c =? char_of "S" then Some TypeDescriptor_Short
  else if c =? char_of "F" then Some TypeDescriptor_Float
  else if c =? char_of "D" then Some TypeDescriptor_Double
  else if c =? char_of "B" then Some TypeDescriptor_Byte
  else if c =? char_of "V" then Some TypeDescriptor_Void
  else None.
Definition FromDescriptor_char (c : Z) : TypeDescriptor := default TypeDescriptor_Object (primitive_of c).
Definition FromDescriptor (d : list byte) : TypeDescriptor :=
  default {| descriptor_ := d; wide_ := false |} (primitive_of (first_char d)).

Definition DotToDescriptor (class_name : list byte) : list byte :=
  let descriptor := map (fun c => if c =? char_of "." then char_of "/" else c) class_name in
  if (0 <? Z.of_nat (length descriptor)) && negb (first_char descriptor =? char_of "[")
  then char_of "L" :: descriptor ++ lit ";" else descriptor.
Definition FromClassname (name : list byte) : TypeDescriptor :=
  {| descriptor_ := DotToDescriptor name; wide_ := false |}.

(** ** [Prototype] *)

Record Prototype := { return_type_ : TypeDescriptor; param_types_ : list TypeDescriptor }.
Definition Shorty (p : Prototype) : list byte :=
  short_descriptor (return_type_ p) :: map short_descriptor (param_types_ p).
(** What [operator<] compares: the descriptors. *)
Abbreviation proto_key := (list byte * list (list byte))%type.
Definition key_of_proto (p : Prototype) : proto_key :=
  (descriptor_ (return_type_ p), map descriptor_ (param_types_ p)).

(** ** [Value] and [Instruction] *)

Inductive Kind := kInvalid | kLocalRegister | kParameter | kImmediate | kString | kLabel | kType.
#[export] Instance Kind_eq_dec : EqDecision Kind.
Proof. solve_decision. Defined.
Record Value := { value_ : Z; kind_ : Kind }.
#[export] Instance Value_eq_dec : EqDecision Value.
Proof. solve_decision. Defined.
Definition Local_ (id : Z) : Value := {| value_ := id; kind_ := kLocalRegister |}.
Definition Parameter_ (id : Z) : Value := {| value_ := id; kind_ := kParameter |}.
Definition Immediate (v : Z) : Value := {| value_ := v; kind_ := kImmediate |}.
Definition String_ (v : Z) : Value := {| value_ := v; kind_ := kString |}.
Definition Label (id : Z) : Value := {| value_ := id; kind_ := kLabel |}.
Definition Type__ (id : Z) : Value := {| value_ := id; kind_ := kType |}.
Definition has_kind (k : Kind) (v : Value) : bool := bool_decide (kind_ v = k).
Definition is_register := has_kind kLocalRegister.
Definition is_parameter := has_kind kParameter.
Definition is_variable (v : Value) : bool := is_register v || is_parameter v.
Definition is_immediate := has_kind kImmediate.
Definition is_string := has_kind kString.
Definition is_label := has_kind kLabel.
Definition is_type := has_kind kType.
Definition WidePair (ndebug : bool) (v : Value) : option Value :=
  SLICER_CHECK ndebug (is_variable v) ;; Some {| value_ := u64 (value_ v + 1); kind_ := kind_ v |}.

Inductive Op :=
| kBindLabel | kBranchEqz | kBranchNEqz | kCheckCast | kGetInstanceField | kGetStaticField | kGetStaticObjectField
| kInvokeDirect | kInvokeInterface | kInvokeStatic | kInvokeVirtual
| kInvokeDirectRange | kInvokeInterfaceRange | kInvokeStaticRange | kInvokeVirtualRange
| kMove | kMoveObject | kMoveWide | kNew | kNewArray | kReturnOp | kReturnObject | kReturnWide
| kSetInstanceField | kSetStaticField | kSetStaticObjectField | kAputObject.
#[export] Instance Op_eq_dec : EqDecision Op.
Proof. solve_decision. Defined.

Record Instruction := {
  opcode_ : Op; index_argument_ : Z; result_is_object_ : bool; result_is_wide_ : bool;
  dest_ : option Value; args_ : list Value
}.
Definition OpNoArgs (op : Op) : Instruction := Build_Instruction op 0 false false None [].
Definition OpWithArgs (op : Op) (dest : option Value) (args : list Value) : Instruction :=
  Build_Instruction op 0 false false dest args.
Definition OpWithArgsWide (op : Op) (dest : option Value) (args : list Value) : Instruction :=
  Build_Instruction op 0 false true dest args.
Definition Cast (ndebug : bool) (val type : Value) : option Instruction :=
  SLICER_CHECK ndebug (is_type type) ;; Some (OpWithArgs kCheckCast (Some val) [type]).
Definition InvokeVirtual (index : Z) (dest : option Value) (this_arg : Value) (args : list Value) : Instruction :=
  Build_Instruction kInvokeVirtual index false false dest (this_arg :: args).
Definition InvokeVirtualWide (index : Z) (dest : option Value) (this_arg : Value) (args : list Value) : Instruction :=
  Build_Instruction kInvokeVirtual index false true dest (this_arg :: args).
Definition InvokeVirtualObject (index : Z) (dest : option Value) (this_arg : Value) (args : list Value) : Instruction :=
  Build_Instruction kInvokeVirtual index true false dest (this_arg :: args).
Definition InvokeDirect (index : Z) (dest : option Value) (this_arg : Value) (args : list Value) : Instruction :=
  Build_Instruction kInvokeDirect index false false dest (this_arg :: args).
Definition InvokeDirectObject (index : Z) (dest : option Value) (this_arg : Value) (args : list Value) : Instruction :=
  Build_Instruction kInvokeDirect index true false dest (this_arg :: args).
Definition InvokeStatic (index : Z) (dest : option Value) (args : list Value) : Instruction :=
  Build_Instruction kInvokeStatic index false false dest args.
Definition InvokeStaticWide (index : Z) (dest : option Value) (args : list Value) : Instruction :=
  Build_Instruction kInvokeStatic index false true dest args.
Definition InvokeStaticRange (index : Z) (dest : option Value) (first : Value) (length : Z) : Instruction :=
  Build_Instruction kInvokeStaticRange index false false dest [first; Immediate length].
Definition InvokeStaticRangeWide (index : Z) (dest : option Value) (first : Value) (length : Z) : Instruction :=
  Build_Instruction kInvokeStaticRange index false true dest [first; Immediate length].
Definition InvokeStaticObject (index : Z) (dest : option Value) (args : list Value) : Instruction :=
  Build_Instruction kInvokeStatic index true false dest args.
Definition InvokeStaticObjectRange (index : Z) (dest : option Value) (first : Value) (length : Z) : Instruction :=
  Build_Instruction kInvokeStaticRange index true false dest [first; Immediate length].
Definition GetStaticField (field_id : Z) (dest : Value) (wide : bool) : Instruction :=
  Build_Instruction kGetStaticField field_id false wide (Some dest) [].
Definition GetStaticObjectField (field_id : Z) (dest : Value) : Instruction :=
  Build_Instruction kGetStaticObjectField field_id false false (Some dest) [].
Definition SetStaticField (field_id : Z) (value : Value) (wide : bool) : Instruction :=
  Build_Instruction kSetStaticField field_id false wide None [value].
Definition SetStaticObjectField (field_id : Z) (value : Value) : Instruction :=
  Build_Instruction kSetStaticObjectField field_id false false None [value].
Definition GetField (field_id : Z) (dest object : Value) (wide : bool) : Instruction :=
  Build_Instruction kGetInstanceField field_id false wide (Some dest) [object].
Definition SetField (field_id : Z) (object value : Value) (wide : bool) : Instruction :=
  Build_Instruction kSetInstanceField field_id false wide None [object; value].

(** ** [DexBuilder] *)

Record DexBuilder := {
  dex_file_ : DexFile;
  strings_indexes : IndexMap; types_indexes : IndexMap; fields_indexes : IndexMap; methods_indexes : IndexMap;
  strings_ : gmap (list byte) Z;
  types_by_descriptor_ : gmap (list byte) Z;
  method_id_map_ : gmap (list byte * list byte * proto_key) (Z * Z);
  proto_map_ : gmap proto_key Z;
  field_decls_by_key_ : gmap (list byte * list byte) Z
}.

Definition kDexFileMagic : list byte := [0x64; 0x65; 0x78; 0x0a; 0x30; 0x33; 0x35; 0x00].
Definition empty_file (magic_ : list byte) : DexFile :=
  {| tbl := {| strings := []; types := []; protos := []; fields := []; methods := [] |};
     indexes := {| strings_map := ∅; types_map := ∅; fields_map := ∅; methods_map := ∅; protos_map := ∅ |};
     classes := []; class_index := ∅;
     nodes := {| string_nodes := ∅; type_nodes := ∅; proto_nodes := ∅; field_nodes := ∅; method_nodes := ∅; class_nodes := ∅ |};
     data_ := {| type_lists := []; codes := []; debug_infos := []; encoded_arrays := []; annotations := [];
                 annotation_sets := []; annotation_set_ref_lists := []; annotations_directories := [] |};
     magic := magic_ |}.
Definition newDexBuilder : DexBuilder :=
  {| dex_file_ := empty_file kDexFileMagic;
     strings_indexes := newIndexMap; types_indexes := newIndexMap; fields_indexes := newIndexMap; methods_indexes := newIndexMap;
     strings_ := ∅; types_by_descriptor_ := ∅; method_id_map_ := ∅; proto_map_ := ∅; field_decls_by_key_ := ∅ |}.

Definition with_file (ir : DexFile) (d : DexBuilder) : DexBuilder :=
  {| dex_file_ := ir; strings_indexes := strings_indexes d; types_indexes := types_indexes d;
     fields_indexes := fields_indexes d; methods_indexes := methods_indexes d; strings_ := strings_ d;
     types_by_descriptor_ := types_by_descriptor_ d; method_id_map_ := method_id_map_ d; proto_map_ := proto_map_ d;
     field_decls_by_key_ := field_decls_by_key_ d |}.
Definition with_indexes (s t f m : IndexMap) (d : DexBuilder) : DexBuilder :=
  {| dex_file_ := dex_file_ d; strings_indexes := s; types_indexes := t; fields_indexes := f; methods_indexes := m;
     strings_ := strings_ d; types_by_descriptor_ := types_by_descriptor_ d; method_id_map_ := method_id_map_ d;
     proto_map_ := proto_map_ d; field_decls_by_key_ := field_decls_by_key_ d |}.
Definition with_strings (m : gmap (list byte) Z) (d : DexBuilder) : DexBuilder :=
  {| dex_file_ := dex_file_ d; strings_indexes := strings_indexes d; types_indexes := types_indexes d;
     fields_indexes := fields_indexes d; methods_indexes := methods_indexes d; strings_ := m;
     types_by_descriptor_ := types_by_descriptor_ d; method_id_map_ := method_id_map_ d; proto_map_ := proto_map_ d;
     field_decls_by_key_ := field_decls_by_key_ d |}.
Definition with_types (m : gmap (list byte) Z) (d : DexBuilder) : DexBuilder :=
  {| dex_file_ := dex_file_ d; strings_indexes := strings_indexes d; types_indexes := types_indexes d;
     fields_indexes := fields_indexes d; methods_indexes := methods_indexes d; strings_ := strings_ d;
     types_by_descriptor_ := m; method_id_map_ := method_id_map_ d; proto_map_ := proto_map_ d;
     field_decls_by_key_ := field_decls_by_key_ d |}.
Definition with_methods (m : gmap (list byte * list byte * proto_key) (Z * Z)) (d : DexBuilder) : DexBuilder :=
  {| dex_file_ := dex_file_ d; strings_indexes := strings_indexes d; types_indexes := types_indexes d;
     fields_indexes := fields_indexes d; methods_indexes := methods_indexes d; strings_ := strings_ d;
     types_by_descriptor_ := types_by_descriptor_ d; method_id_map_ := m; proto_map_ := proto_map_ d;
     field_decls_by_key_ := field_decls_by_key_ d |}.
Definition with_protos (m : gmap proto_key Z) (d : DexBuilder) : DexBuilder :=
  {| dex_file_ := dex_file_ d; strings_indexes := strings_indexes d; types_indexes := types_indexes d;
     fields_indexes := fields_indexes d; methods_indexes := methods_indexes d; strings_ := strings_ d;
     types_by_descriptor_ := types_by_descriptor_ d; method_id_map_ := method_id_map_ d; proto_map_ := m;
     field_decls_by_key_ := field_decls_by_key_ d |}.
Definition with_fields (m : gmap (list byte * list byte) Z) (d : DexBuilder) : DexBuilder :=
  {| dex_file_ := dex_file_ d; strings_indexes := strings_indexes d; types_indexes := types_indexes d;
     fields_indexes := fields_indexes d; methods_indexes := methods_indexes d; strings_ := strings_ d;
     types_by_descriptor_ := types_by_descriptor_ d; method_id_map_ := method_id_map_ d; proto_map_ := proto_map_ d;
     field_decls_by_key_ := m |}.

Definition indexes_of (k : item) (d : DexBuilder) : IndexMap :=
  match k with
  | StringItem => strings_indexes d | TypeItem => types_indexes d | FieldItem => fields_indexes d
  | MethodItem | ProtoItem => methods_indexes d
  end.
Definition set_indexes (k : item) (m : IndexMap) (d : DexBuilder) : DexBuilder :=
  match k with
  | StringItem => with_indexes m (types_indexes d) (fields_indexes d) (methods_indexes d) d
  | TypeItem => with_indexes (strings_indexes d) m (fields_indexes d) (methods_indexes d) d
  | FieldItem => with_indexes (strings_indexes d) (types_indexes d) m (methods_indexes d) d
  | MethodItem | ProtoItem => with_indexes (strings_indexes d) (types_indexes d) (fields_indexes d) m d
  end.

Definition add_node_maps (n : node_maps -> node_maps) (ir : DexFile) : DexFile := set_nodes (n (nodes ir)) (data_ ir) ir.
Definition set_string (i : Z) (v : list byte) (n : node_maps) : node_maps :=
  {| string_nodes := <[i := v]> (string_nodes n); type_nodes := type_nodes n; proto_nodes := proto_nodes n;
     field_nodes := field_nodes n; method_nodes := method_nodes n; class_nodes := class_nodes n |}.
Definition set_type (i : Z) (v : Type_) (n : node_maps) : node_maps :=
  {| string_nodes := string_nodes n; type_nodes := <[i := v]> (type_nodes n); proto_nodes := proto_nodes n;
     field_nodes := field_nodes n; method_nodes := method_nodes n; class_nodes := class_nodes n |}.
Definition set_proto (i : Z) (v : Proto) (n : node_maps) : node_maps :=
  {| string_nodes := string_nodes n; type_nodes := type_nodes n; proto_nodes := <[i := v]> (proto_nodes n);
     field_nodes := field_nodes n; method_nodes := method_nodes n; class_nodes := class_nodes n |}.
Definition set_field (i : Z) (v : FieldDecl) (n : node_maps) : node_maps :=
  {| string_nodes := string_nodes n; type_nodes := type_nodes n; proto_nodes := proto_nodes n;
     field_nodes := <[i := v]> (field_nodes n); method_nodes := method_nodes n; class_nodes := class_nodes n |}.
Definition set_method (i : Z) (v : MethodDecl) (n : node_maps) : node_maps :=
  {| string_nodes := string_nodes n; type_nodes := type_nodes n; proto_nodes := proto_nodes n;
     field_nodes := field_nodes n; method_nodes := <[i := v]> (method_nodes n); class_nodes := class_nodes n |}.
Definition set_class (i : Z) (v : Class_) (n : node_maps) : node_maps :=
  {| string_nodes := string_nodes n; type_nodes := type_nodes n; proto_nodes := proto_nodes n;
     field_nodes := field_nodes n; method_nodes := method_nodes n; class_nodes := <[i := v]> (class_nodes n) |}.

(** [Alloc], [AllocateIndex] and the entry in the index-to-node map, for a node
    whose [index] member is [index i]. The builder's node enters its owning vector
    before its parts are looked up; no part is of the same kind. *)
Definition add_node (ndebug : bool) (k : item) (index : Z -> Z) (node : Z -> node_maps -> node_maps) : M DexBuilder Z := fun d =>
  '(i, ix) ← AllocateIndex ndebug (indexes_of k d);
  let i := Z.of_nat i in
  let ir := dex_file_ d in
  let ir := set_table k (items_of (tbl ir) k ++ [i]) (<[i := index i]> (map_of (indexes ir) k)) ir in
  Some (i, with_file (add_node_maps (node i) ir) (set_indexes k ix d)).

Definition add_type_list (ts : list Z) (data : data_nodes) : data_nodes :=
  {| type_lists := type_lists data ++ [ts]; codes := codes data; debug_infos := debug_infos data;
     encoded_arrays := encoded_arrays data; annotations := annotations data;
     annotation_sets := annotation_sets data; annotation_set_ref_lists := annotation_set_ref_lists data;
     annotations_directories := annotations_directories data |}.

Section Builder.
Context (ndebug : bool).

(** The string up to a terminator inside it, if there is one. *)
Fixpoint until_nul (s : list byte) : list byte :=
  match s with
  | [] => []
  | c :: s => if c =? 0 then [] else c :: until_nul s
  end.
Definition actual_len (s : list byte) : Z :=
  Z.of_nat (length (filter (fun c => Z.land c 0xc0 <> 0x80) (until_nul s))).
Definition string_data (s : list byte) : option (list byte) :=
  header ← WriteULeb128 5 (u32 (actual_len s)); Some (header ++ s ++ [0]).

Definition GetOrAddString (s : list byte) : M DexBuilder Z :=
  d ← get;
  match strings_ d !! s with
  | Some entry => mret entry
  | None =>
      data ← lift (string_data s);
      entry ← add_node ndebug StringItem (fun _ => 0) (fun i => set_string i data);
      d ← get;
      match strings_ d !! until_nul s with
      | Some entry => mret entry
      | None => modify (with_strings (<[until_nul s := entry]> (strings_ d))) ;; mret entry
      end
  end.

(** The key of the new entry is the descriptor's C string. *)
Definition GetOrAddType (descriptor : list byte) : M DexBuilder Z :=
  d ← get;
  match types_by_descriptor_ d !! descriptor with
  | Some t => mret t
  | None =>
      s ← GetOrAddString descriptor;
      t ← add_node ndebug TypeItem (fun _ => 0) (fun i => set_type i {| DexIr.descriptor := s; class_def := None |});
      d ← get;
      modify (with_types (<[until_nul descriptor := t]> (types_by_descriptor_ d))) ;; mret t
  end.

Definition GetOrAddField (parent : TypeDescriptor) (name : list byte) (type : TypeDescriptor) : M DexBuilder Z :=
  d ← get;
  match field_decls_by_key_ d !! (descriptor_ parent, name) with
  | Some f => mret f
  | None =>
      p ← GetOrAddType (descriptor_ parent);
      n ← GetOrAddString name;
      t ← GetOrAddType (descriptor_ type);
      f ← add_node ndebug FieldItem (fun _ => 0) (fun i => set_field i {| f_name := n; f_type := t; f_parent := p |});
      d ← get;
      modify (with_fields (<[(descriptor_ parent, name) := f]> (field_decls_by_key_ d))) ;; mret f
  end.

(** [Prototype::Encode]. *)
Definition Prototype_Encode (p : Prototype) : M DexBuilder Z :=
  s ← GetOrAddString (Shorty p);
  r ← GetOrAddType (descriptor_ (return_type_ p));
  ts ← mapM_ (fun t => GetOrAddType (descriptor_ t)) (param_types_ p);
  d ← get;
  let ir := dex_file_ d in
  let i := Z.of_nat (length (protos (tbl ir))) in
  let '(l, data) := match ts with
    | [] => (None, data_ ir)
    | _ => (Some (length (type_lists (data_ ir))), add_type_list ts (data_ ir))
    end in
  let ir := set_table ProtoItem (protos (tbl ir) ++ [i]) (protos_map (indexes ir)) ir in
  let node := {| shorty := s; return_type := r; param_types := l |} in
  put (with_file (set_nodes (set_proto i node (nodes ir)) data ir) d) ;; mret i.

Definition GetOrEncodeProto (p : Prototype) : M DexBuilder Z :=
  d ← get;
  match proto_map_ d !! key_of_proto p with
  | Some i => mret i
  | None =>
      i ← Prototype_Encode p;
      d ← get;
      modify (with_protos (<[key_of_proto p := i]> (proto_map_ d))) ;; mret i
  end.

(** The pair is [MethodDeclData]: the id and the declaration. *)
Definition GetOrDeclareMethod (type : TypeDescriptor) (name : list byte) (prototype : Prototype) : M DexBuilder (Z * Z) :=
  d ← get;
  let key := (descriptor_ type, name, key_of_proto prototype) in
  match method_id_map_ d !! key with
  | Some entry => mret entry
  | None =>
      let id := Z.of_nat (length (methods (tbl (dex_file_ d)))) in
      n ← GetOrAddString name;
      t ← GetOrAddType (descriptor_ type);
      p ← GetOrEncodeProto prototype;
      decl ← add_node ndebug MethodItem (fun i => i)
        (fun i => set_method i {| m_name := n; m_prototype := p; m_parent := t |});
      d ← get;
      modify (with_methods (<[key := (id, decl)]> (method_id_map_ d))) ;; mret (id, decl)
  end.

(** ** [ClassBuilder] and [FieldBuilder] *)

Record ClassBuilder := { type_descriptor_ : TypeDescriptor; class_ : Z }.

Definition update_file (f : DexFile -> DexFile) : M DexBuilder unit :=
  d ← get; put (with_file (f (dex_file_ d)) d).
Definition update_class (c : Z) (f : Class_ -> Class_) : M DexBuilder unit :=
  update_file (fun ir => add_node_maps (set_class c (f (class_node (nodes ir) c))) ir).

Definition new_class (type super : Z) : Class_ :=
  {| c_type := type; c_access_flags := 0x0001; super_class := Some super; interfaces := None; source_file := None;
     c_annotations := None; static_init := None; static_fields := []; instance_fields := [];
     direct_methods := []; virtual_methods := [] |}.

Definition MakeClass (name : list byte) : M DexBuilder ClassBuilder :=
  d ← get;
  let c := Z.of_nat (length (classes (dex_file_ d))) in
  t ← GetOrAddType (DotToDescriptor name);
  update_file (fun ir => add_node_maps (set_type t
    {| DexIr.descriptor := DexIr.descriptor (type_node (nodes ir) t); class_def := Some c |}) ir) ;;
  s ← GetOrAddType (descriptor_ TypeDescriptor_Object);
  update_file (fun ir => add_node_maps (set_class c (new_class t s)) (set_classes (classes ir ++ [c]) (class_index ir) ir)) ;;
  mret {| type_descriptor_ := FromClassname name; class_ := c |}.

Definition set_source_file (source : list byte) (c : ClassBuilder) : M DexBuilder unit :=
  s ← GetOrAddString source;
  update_class (class_ c) (fun k =>
    {| c_type := c_type k; c_access_flags := c_access_flags k; super_class := super_class k; interfaces := interfaces k;
       source_file := Some s; c_annotations := c_annotations k; static_init := static_init k;
       static_fields := static_fields k; instance_fields := instance_fields k;
       direct_methods := direct_methods k; virtual_methods := virtual_methods k |}).
Definition setSuperClass (type : TypeDescriptor) (c : ClassBuilder) : M DexBuilder unit :=
  s ← GetOrAddType (descriptor_ type);
  update_class (class_ c) (fun k =>
    {| c_type := c_type k; c_access_flags := c_access_flags k; super_class := Some s; interfaces := interfaces k;
       source_file := source_file k; c_annotations := c_annotations k; static_init := static_init k;
       static_fields := static_fields k; instance_fields := instance_fields k;
       direct_methods := direct_methods k; virtual_methods := virtual_methods k |}).

(** [CreateField(name, type).access_flags(flags).Encode()]. *)
Definition CreateField (name : list byte) (type : TypeDescriptor) (c : ClassBuilder) : M DexBuilder Z :=
  GetOrAddField (type_descriptor_ c) name type.
Definition FieldBuilder_Encode (decl access_flags : Z) (c : ClassBuilder) : M DexBuilder EncodedField :=
  let field := {| f_decl := decl; f_access_flags := access_flags |} in
  update_class (class_ c) (fun k =>
    {| c_type := c_type k; c_access_flags := c_access_flags k; super_class := super_class k; interfaces := interfaces k;
       source_file := source_file k; c_annotations := c_annotations k; static_init := static_init k;
       static_fields := static_fields k ++ [field]; instance_fields := instance_fields k;
       direct_methods := direct_methods k; virtual_methods := virtual_methods k |}) ;;
  mret field.
End Builder.
