(* ===== verification/MethodBuilder.v ===== *)
(** [MethodBuilder] of [dex_builder.h] and [dex_builder.cc]: registers, labels,
    the virtual instructions and their encoding. *)
From stdpp Require Import strings.
From Stdlib Require Import Ascii String.
From S2P Require Import Prelude Leb128 SlicerBuffer DexBytecode DexCode DexDebug DexIr DexBuilder.

Record LabelData := { bound_address : option Z; references : list (Z * Z) }.
Record MethodBuilder := {
  builder_class : Z; decl_ : Z; instructions_ : list Instruction; buffer_ : list Z; labels_ : list LabelData;
  max_args_ : Z; register_liveness_ : list bool; access_flags_ : Z
}.
Definition newMethodBuilder (class decl : Z) : MethodBuilder :=
  {| builder_class := class; decl_ := decl; instructions_ := []; buffer_ := []; labels_ := []; max_args_ := 0;
     register_liveness_ := []; access_flags_ := Z.lor 0x0001 0x0008 |}.
Definition kMaxScratchRegisters : Z := 0.
Definition DBG_FIRST_SPECIAL : Z := 0x0a.

Definition with_instructions (l : list Instruction) (m : MethodBuilder) : MethodBuilder :=
  {| builder_class := builder_class m; decl_ := decl_ m; instructions_ := l; buffer_ := buffer_ m; labels_ := labels_ m;
     max_args_ := max_args_ m; register_liveness_ := register_liveness_ m; access_flags_ := access_flags_ m |}.
Definition with_buffer (l : list Z) (m : MethodBuilder) : MethodBuilder :=
  {| builder_class := builder_class m; decl_ := decl_ m; instructions_ := instructions_ m; buffer_ := l; labels_ := labels_ m;
     max_args_ := max_args_ m; register_liveness_ := register_liveness_ m; access_flags_ := access_flags_ m |}.
Definition with_labels (l : list LabelData) (m : MethodBuilder) : MethodBuilder :=
  {| builder_class := builder_class m; decl_ := decl_ m; instructions_ := instructions_ m; buffer_ := buffer_ m; labels_ := l;
     max_args_ := max_args_ m; register_liveness_ := register_liveness_ m; access_flags_ := access_flags_ m |}.
Definition with_max_args (n : Z) (m : MethodBuilder) : MethodBuilder :=
  {| builder_class := builder_class m; decl_ := decl_ m; instructions_ := instructions_ m; buffer_ := buffer_ m;
     labels_ := labels_ m; max_args_ := n; register_liveness_ := register_liveness_ m; access_flags_ := access_flags_ m |}.
Definition with_registers (l : list bool) (m : MethodBuilder) : MethodBuilder :=
  {| builder_class := builder_class m; decl_ := decl_ m; instructions_ := instructions_ m; buffer_ := buffer_ m;
     labels_ := labels_ m; max_args_ := max_args_ m; register_liveness_ := l; access_flags_ := access_flags_ m |}.

(** ** Registers and labels *)

Definition NumRegisters (m : MethodBuilder) : Z := Z.of_nat (length (register_liveness_ m)).
Fixpoint free_register (l : list bool) : option nat :=
  match l with
  | [] => None
  | live :: l => if live then S <$> free_register l else Some O
  end.
Definition AllocRegister : M MethodBuilder Value :=
  m ← get;
  let l := register_liveness_ m in
  match free_register l with
  | Some i => modify (with_registers (<[i := true]> l)) ;; mret (Local_ (Z.of_nat i))
  | None => modify (with_registers (l ++ [true])) ;; mret (Local_ (Z.of_nat (length l)))
  end.
(** [~LiveRegister]. *)
Definition FreeRegister (v : Value) : M MethodBuilder unit :=
  modify (fun m => with_registers (<[Z.to_nat (value_ v) := false]> (register_liveness_ m)) m).
Definition MakeLabel : M MethodBuilder Value :=
  m ← get;
  modify (with_labels (labels_ m ++ [{| bound_address := None; references := [] |}])) ;;
  mret (Label (Z.of_nat (length (labels_ m)))).
Definition AddInstruction (i : Instruction) : M MethodBuilder unit :=
  modify (fun m => with_instructions (instructions_ m ++ [i]) m).

(** The enumerators the encoder uses. *)
Definition OP (name : string) : Z := default 0 (OP_ name).
Definition OP_MOVE_16 := Eval vm_compute in OP "MOVE_16".
Definition OP_MOVE_WIDE_16 := Eval vm_compute in OP "MOVE_WIDE_16".
Definition OP_MOVE_OBJECT_16 := Eval vm_compute in OP "MOVE_OBJECT_16".
Definition OP_MOVE_RESULT := Eval vm_compute in OP "MOVE_RESULT".
Definition OP_MOVE_RESULT_WIDE := Eval vm_compute in OP "MOVE_RESULT_WIDE".
Definition OP_MOVE_RESULT_OBJECT := Eval vm_compute in OP "MOVE_RESULT_OBJECT".
Definition OP_RETURN_VOID := Eval vm_compute in OP "RETURN_VOID".
Definition OP_RETURN := Eval vm_compute in OP "RETURN".
Definition OP_RETURN_WIDE := Eval vm_compute in OP "RETURN_WIDE".
Definition OP_RETURN_OBJECT := Eval vm_compute in OP "RETURN_OBJECT".
Definition OP_CONST_4 := Eval vm_compute in OP "CONST_4".
Definition OP_CONST_16 := Eval vm_compute in OP "CONST_16".
Definition OP_CONST := Eval vm_compute in OP "CONST".
Definition OP_CONST_WIDE_16 := Eval vm_compute in OP "CONST_WIDE_16".
Definition OP_CONST_WIDE_32 := Eval vm_compute in OP "CONST_WIDE_32".
Definition OP_CONST_STRING := Eval vm_compute in OP "CONST_STRING".
Definition OP_CHECK_CAST := Eval vm_compute in OP "CHECK_CAST".
Definition OP_NEW_INSTANCE := Eval vm_compute in OP "NEW_INSTANCE".
Definition OP_NEW_ARRAY := Eval vm_compute in OP "NEW_ARRAY".
Definition OP_IF_EQZ := Eval vm_compute in OP "IF_EQZ".
Definition OP_IF_NEZ := Eval vm_compute in OP "IF_NEZ".
Definition OP_APUT_OBJECT := Eval vm_compute in OP "APUT_OBJECT".
Definition OP_IGET := Eval vm_compute in OP "IGET".
Definition OP_IPUT := Eval vm_compute in OP "IPUT".
Definition OP_SGET := Eval vm_compute in OP "SGET".
Definition OP_SGET_OBJECT := Eval vm_compute in OP "SGET_OBJECT".
Definition OP_SPUT := Eval vm_compute in OP "SPUT".
Definition OP_SPUT_OBJECT := Eval vm_compute in OP "SPUT_OBJECT".
Definition OP_INVOKE_VIRTUAL := Eval vm_compute in OP "INVOKE_VIRTUAL".
Definition OP_INVOKE_DIRECT := Eval vm_compute in OP "INVOKE_DIRECT".
Definition OP_INVOKE_STATIC := Eval vm_compute in OP "INVOKE_STATIC".
Definition OP_INVOKE_INTERFACE := Eval vm_compute in OP "INVOKE_INTERFACE".
Definition OP_INVOKE_VIRTUAL_RANGE := Eval vm_compute in OP "INVOKE_VIRTUAL_RANGE".
Definition OP_INVOKE_DIRECT_RANGE := Eval vm_compute in OP "INVOKE_DIRECT_RANGE".
Definition OP_INVOKE_STATIC_RANGE := Eval vm_compute in OP "INVOKE_STATIC_RANGE".
Definition OP_INVOKE_INTERFACE_RANGE := Eval vm_compute in OP "INVOKE_INTERFACE_RANGE".

(** The builders together. *)
Abbreviation BM := (M (DexBuilder * MethodBuilder)).

Section Method.
Context (ndebug : bool).

(** [assert]. *)
Definition assert {S} (b : bool) : M S unit := lift (SLICER_CHECK ndebug b).
Definition reject {S A} : M S A := fun _ => None.

(** [RegisterValue], whose last case is reached only when asserts are off. *)
Definition RegisterValue_of (m : MethodBuilder) (v : Value) : option Z :=
  if is_register v then Some (value_ v)
  else if is_parameter v then Some (u64 (value_ v + NumRegisters m))
  else SLICER_CHECK ndebug false ;; Some 0.
Definition RegisterValue (v : Value) : M MethodBuilder Z := m ← get; lift (RegisterValue_of m v).

(** ** Formats *)

Definition push_back (u : Z) : M MethodBuilder unit := modify (fun m => with_buffer (buffer_ m ++ [u16 u]) m).
Definition IsShortRegister (register_value : Z) : bool := register_value <? 16.

Definition Encode10x (opcode : Z) : M MethodBuilder unit := push_back opcode.
Definition Encode11x (opcode a : Z) : M MethodBuilder unit :=
  push_back (Z.lor (Z.shiftl (u8 a) 8) opcode).
Definition Encode11n (opcode a b : Z) : M MethodBuilder unit :=
  let a := u8 a in let b := s8 b in
  assert (a <? 16) ;; assert (-8 <? b) ;; assert (b <? 8) ;;
  push_back (Z.lor (Z.lor (Z.shiftl (Z.land b 0xf) 12) (Z.shiftl a 8)) opcode).
Definition Encode21c (opcode a b : Z) : M MethodBuilder unit :=
  push_back (Z.lor (Z.shiftl (u8 a) 8) opcode) ;; push_back (u16 b).
Definition Encode22c (opcode a b c : Z) : M MethodBuilder unit :=
  let a := u8 a in let b := u8 b in
  assert (IsShortRegister a) ;; assert (IsShortRegister b) ;;
  push_back (Z.lor (Z.lor (Z.shiftl b 12) (Z.shiftl a 8)) opcode) ;; push_back (u16 c).
Definition Encode21s (opcode a b : Z) : M MethodBuilder unit :=
  assert (u16 b <? 32768) ;; Encode21c opcode a b.
Definition Encode23x (opcode a b c : Z) : M MethodBuilder unit :=
  push_back (Z.lor (Z.shiftl (u8 a) 8) opcode) ;; push_back (Z.lor (Z.shiftl (u8 c) 8) (u8 b)).
Definition Encode32x (opcode a b : Z) : M MethodBuilder unit :=
  push_back opcode ;; push_back (u16 a) ;; push_back (u16 b).
Definition Encode31i (opcode a b : Z) : M MethodBuilder unit :=
  push_back (Z.lor (Z.shiftl (u8 a) 8) opcode) ;; push_back (u16 (u32 b)) ;; push_back (Z.shiftr (u32 b) 16).
Definition Encode35c (opcode a b c d e f g : Z) : M MethodBuilder unit :=
  let c := u8 c in let d := u8 d in let e := u8 e in let f := u8 f in let g := u8 g in
  assert (a <? 5) ;;
  assert (IsShortRegister c) ;; assert (IsShortRegister d) ;; assert (IsShortRegister e) ;;
  assert (IsShortRegister f) ;; assert (IsShortRegister g) ;;
  push_back (Z.lor (Z.lor (Z.shiftl a 12) (Z.shiftl g 8)) opcode) ;;
  push_back (u16 b) ;;
  push_back (Z.lor (Z.lor (Z.lor (Z.shiftl f 12) (Z.shiftl e 8)) (Z.shiftl d 4)) c).
Definition Encode3rc (opcode a b c : Z) : M MethodBuilder unit :=
  assert (a <? 255) ;;
  push_back (Z.lor (Z.shiftl a 8) opcode) ;; push_back (u16 b) ;; push_back (u16 c).

(** ** Labels *)

Definition label_at (m : MethodBuilder) (label_id : Value) : M MethodBuilder LabelData :=
  assert (is_label label_id) ;; lift (labels_ m !! Z.to_nat (value_ label_id)).
Definition set_label (label_id : Value) (l : LabelData) : M MethodBuilder unit :=
  modify (fun m => with_labels (<[Z.to_nat (value_ label_id) := l]> (labels_ m)) m).
Definition patch_ref (bound : Z) (buffer : list Z) (ref : Z * Z) : list Z :=
  <[Z.to_nat ref.2 := u16 (bound - ref.1)]> buffer.

Definition BindLabel (label_id : Value) : M MethodBuilder unit :=
  m ← get;
  label ← label_at m label_id;
  assert (match bound_address label with None => true | Some _ => false end) ;;
  let bound := Z.of_nat (length (buffer_ m)) in
  modify (with_buffer (foldl (patch_ref bound) (buffer_ m) (references label))) ;;
  set_label label_id {| bound_address := Some bound; references := [] |}.

Definition LabelValue (label_id : Value) (instruction_offset field_offset : Z) : M MethodBuilder Z :=
  m ← get;
  label ← label_at m label_id;
  match bound_address label with
  | Some bound => mret (u16 (bound - instruction_offset))
  | None =>
      set_label label_id
        {| bound_address := None; references := (instruction_offset, field_offset) :: references label |} ;;
      mret 0
  end.

(** ** Instructions *)

Definition has_dest (i : Instruction) : bool := match dest_ i with Some _ => true | None => false end.
Definition dest_variable (i : Instruction) : bool := match dest_ i with Some d => is_variable d | None => false end.
Definition dest (i : Instruction) : M MethodBuilder Value := lift (dest_ i).
Definition arg (n : nat) (i : Instruction) : M MethodBuilder Value := lift (args_ i !! n).
Definition num_args (i : Instruction) : Z := Z.of_nat (length (args_ i)).

Definition EncodeReturn (i : Instruction) (opcode : Z) : M MethodBuilder unit :=
  assert (negb (has_dest i)) ;;
  if num_args i =? 0 then Encode10x OP_RETURN_VOID
  else
    assert (1 =? num_args i) ;;
    a ← arg 0 i; source ← RegisterValue a; Encode11x opcode source.

Definition is_move (op : Op) : bool := match op with kMove | kMoveObject | kMoveWide => true | _ => false end.

Definition EncodeMove (i : Instruction) : M MethodBuilder unit :=
  assert (is_move (opcode_ i)) ;;
  assert (dest_variable i) ;;
  assert (1 =? num_args i) ;;
  source ← arg 0 i;
  if is_immediate source && bool_decide (opcode_ i = kMove) then
    d ← dest i; r ← RegisterValue d;
    if (r <? 16) && (value_ source <? 8) then Encode11n OP_CONST_4 r (value_ source)
    else if value_ source <=? 65535 then Encode21s OP_CONST_16 r (value_ source)
    else Encode31i OP_CONST r (value_ source)
  else if is_immediate source && bool_decide (opcode_ i = kMoveWide) then
    if value_ source <=? 65535 then
      d ← dest i; r ← RegisterValue d; Encode21s OP_CONST_WIDE_16 r (value_ source)
    else if value_ source <=? 4294967295 then
      d ← dest i; r ← RegisterValue d; Encode31i OP_CONST_WIDE_32 r (value_ source)
    else assert false
  else if is_string source then
    d ← dest i; r ← RegisterValue d;
    assert (r <? 256) ;; assert (value_ source <? 65536) ;;
    Encode21c OP_CONST_STRING r (value_ source)
  else if is_variable source then
    let opcode := match opcode_ i with kMove => OP_MOVE_16 | kMoveWide => OP_MOVE_WIDE_16 | _ => OP_MOVE_OBJECT_16 end in
    d ← dest i; r ← RegisterValue d; s ← RegisterValue source; Encode32x opcode r s
  else assert false.

(** The move of a result that follows an invocation, and [max_args_]. *)
Definition move_result (i : Instruction) : M MethodBuilder unit :=
  match dest_ i with
  | Some d =>
      r ← RegisterValue d;
      Encode11x (if result_is_object_ i then OP_MOVE_RESULT_OBJECT
                 else if result_is_wide_ i then OP_MOVE_RESULT_WIDE else OP_MOVE_RESULT) r
  | None => mret tt
  end.
Definition count_args (i : Instruction) : M MethodBuilder unit :=
  modify (fun m => with_max_args (Z.max (max_args_ m) (num_args i)) m).

Definition kMaxArgs : Z := 5.
(** [arguments[i] = RegisterValue(args[i])]. *)
Definition argument (v : Value) : M MethodBuilder Z :=
  assert (is_variable v) ;; r ← RegisterValue v; mret (u8 r).

Definition EncodeInvoke (i : Instruction) (opcode : Z) : M MethodBuilder unit :=
  assert (num_args i <? kMaxArgs) ;;
  if kMaxArgs <? num_args i then reject
  else
    registers ← mapM_ argument (args_ i);
    let arguments := registers ++ repeat 0 (5 - length registers) in
    let at_ n := default 0 (arguments !! n) in
    (if forallb IsShortRegister registers
     then Encode35c opcode (num_args i) (index_argument_ i) (at_ 0%nat) (at_ 1%nat) (at_ 2%nat) (at_ 3%nat) (at_ 4%nat)
     else assert false) ;;
    move_result i ;; count_args i.

Definition EncodeInvokeRange (i : Instruction) (opcode : Z) : M MethodBuilder unit :=
  assert (num_args i =? 2) ;;
  n ← arg 1 i;
  assert (is_immediate n) ;;
  a ← arg 0 i; first ← RegisterValue a;
  Encode3rc opcode (value_ n) (index_argument_ i) first ;;
  move_result i ;; count_args i.

Definition EncodeBranch (op : Z) (i : Instruction) : M MethodBuilder unit :=
  test_value ← arg 0 i; branch_target ← arg 1 i;
  assert (2 =? num_args i) ;; assert (is_variable test_value) ;; assert (is_label branch_target) ;;
  m ← get;
  let instruction_offset := Z.of_nat (length (buffer_ m)) in
  let field_offset := Z.of_nat (length (buffer_ m)) + 1 in
  r ← RegisterValue test_value;
  b ← LabelValue branch_target instruction_offset field_offset;
  Encode21c op r b.

(** [EncodeNew] and [EncodeCast]. *)
Definition EncodeTyped (op : Op) (opcode : Z) (i : Instruction) : M MethodBuilder unit :=
  assert (bool_decide (op = opcode_ i)) ;;
  assert (dest_variable i) ;; assert (1 =? num_args i) ;;
  type ← arg 0 i; d ← dest i; r ← RegisterValue d;
  assert (r <? 256) ;; assert (is_type type) ;;
  Encode21c opcode r (value_ type).
Definition EncodeNew := EncodeTyped kNew OP_NEW_INSTANCE.
Definition EncodeCast := EncodeTyped kCheckCast OP_CHECK_CAST.

Definition EncodeNewArray (i : Instruction) : M MethodBuilder unit :=
  assert (bool_decide (kNewArray = opcode_ i)) ;;
  assert (dest_variable i) ;; assert (2 =? num_args i) ;;
  size ← arg 0 i; type ← arg 1 i; d ← dest i; r ← RegisterValue d; s ← RegisterValue size;
  Encode22c OP_NEW_ARRAY r s (value_ type).

Definition EncodeAput (i : Instruction) : M MethodBuilder unit :=
  assert (bool_decide (kAputObject = opcode_ i)) ;;
  assert (dest_variable i) ;; assert (2 =? num_args i) ;;
  match opcode_ i with
  | kAputObject =>
      array ← arg 0 i; index ← arg 1 i; d ← dest i;
      r ← RegisterValue d; a ← RegisterValue array; x ← RegisterValue index;
      Encode23x OP_APUT_OBJECT r a x
  | _ => assert false
  end.

Definition EncodeFieldOp (i : Instruction) : M MethodBuilder unit :=
  match opcode_ i with
  | kGetStaticObjectField | kGetStaticField =>
      assert (dest_variable i) ;; assert (0 =? num_args i) ;;
      d ← dest i; r ← RegisterValue d;
      Encode21c (if bool_decide (opcode_ i = kGetStaticField) then OP_SGET else OP_SGET_OBJECT) r (index_argument_ i)
  | kSetStaticObjectField | kSetStaticField =>
      assert (negb (has_dest i)) ;; assert (1 =? num_args i) ;;
      v ← arg 0 i; assert (is_variable v) ;; r ← RegisterValue v;
      Encode21c (if bool_decide (opcode_ i = kSetStaticField) then OP_SPUT else OP_SPUT_OBJECT) r (index_argument_ i)
  | kGetInstanceField =>
      assert (dest_variable i) ;; assert (1 =? num_args i) ;;
      d ← dest i; o ← arg 0 i; r ← RegisterValue d; x ← RegisterValue o;
      Encode22c OP_IGET r x (index_argument_ i)
  | kSetInstanceField =>
      assert (negb (has_dest i)) ;; assert (2 =? num_args i) ;;
      o ← arg 0 i; v ← arg 1 i; assert (is_variable o) ;; assert (is_variable v) ;;
      r ← RegisterValue v; x ← RegisterValue o;
      Encode22c OP_IPUT r x (index_argument_ i)
  | _ => assert false
  end.

Definition EncodeInstruction (i : Instruction) : M MethodBuilder unit :=
  match opcode_ i with
  | kReturnOp => EncodeReturn i OP_RETURN
  | kReturnObject => EncodeReturn i OP_RETURN_OBJECT
  | kReturnWide => EncodeReturn i OP_RETURN_WIDE
  | kMove | kMoveObject | kMoveWide => EncodeMove i
  | kInvokeVirtual => EncodeInvoke i OP_INVOKE_VIRTUAL
  | kInvokeDirect => EncodeInvoke i OP_INVOKE_DIRECT
  | kInvokeStatic => EncodeInvoke i OP_INVOKE_STATIC
  | kInvokeInterface => EncodeInvoke i OP_INVOKE_INTERFACE
  | kInvokeVirtualRange => EncodeInvokeRange i OP_INVOKE_VIRTUAL_RANGE
  | kInvokeDirectRange => EncodeInvokeRange i OP_INVOKE_DIRECT_RANGE
  | kInvokeStaticRange => EncodeInvokeRange i OP_INVOKE_STATIC_RANGE
  | kInvokeInterfaceRange => EncodeInvokeRange i OP_INVOKE_INTERFACE_RANGE
  | kBindLabel => l ← arg 0 i; BindLabel l
  | kBranchEqz => EncodeBranch OP_IF_EQZ i
  | kBranchNEqz => EncodeBranch OP_IF_NEZ i
  | kNew => EncodeNew i
  | kNewArray => EncodeNewArray i
  | kCheckCast => EncodeCast i
  | kGetStaticField | kGetStaticObjectField | kSetStaticField | kSetStaticObjectField
  | kGetInstanceField | kSetInstanceField => EncodeFieldOp i
  | kAputObject => EncodeAput i
  end.

Definition EncodeInstructions : M MethodBuilder unit :=
  m ← get;
  put (with_buffer [] m) ;; _ ← mapM_ EncodeInstruction (instructions_ m); mret tt.

(** ** Builders of instructions

    They may add declarations to the file: the state is the pair of the builders. *)

Definition on_dex {A} (m : M DexBuilder A) : BM A := fun s => '(a, d) ← m s.1; Some (a, (d, s.2)).
Definition on_method {A} (m : M MethodBuilder A) : BM A := fun s => '(a, b) ← m s.2; Some (a, (s.1, b)).
Definition add (i : Instruction) : BM unit := on_method (AddInstruction i).

Definition BuildReturnVoid : BM unit := add (OpNoArgs kReturnOp).
Definition BuildReturn (src : Value) (is_object is_wide : bool) : BM unit :=
  if is_wide then add (OpWithArgsWide kReturnWide None [src])
  else add (OpWithArgs (if is_object then kReturnObject else kReturnOp) None [src]).
(** An [int] becomes a [size_t]. *)
Definition BuildConst (target : Value) (value : Z) : BM unit :=
  assert (value <=? 65535) ;; add (OpWithArgs kMove (Some target) [Immediate (u64 value)]).
Definition BuildConstWide (target : Value) (value : Z) : BM unit :=
  add (OpWithArgs kMoveWide (Some target) [Immediate (u64 value)]).
Definition BuildConstString (target : Value) (value : list byte) : BM unit :=
  s ← on_dex (GetOrAddString ndebug value); add (OpWithArgs kMove (Some target) [String_ s]).
Definition BuildNew (target : Value) (type : TypeDescriptor) (constructor : Prototype) (args : list Value) : BM unit :=
  '(id, _) ← on_dex (GetOrDeclareMethod ndebug type (lit "<init>") constructor);
  t ← on_dex (GetOrAddType ndebug (descriptor_ type));
  add (OpWithArgs kNew (Some target) [Type__ t]) ;;
  add (InvokeDirect id None target args).
Definition BuildNewArray (target : Value) (type : TypeDescriptor) (size : Value) : BM unit :=
  t ← on_dex (GetOrAddType ndebug (descriptor_ (ToArray type)));
  add (OpWithArgs kNewArray (Some target) [size; Type__ t]).
Definition BuildAput (op : Op) (target_array value index : Value) : BM unit :=
  add (OpWithArgs op (Some value) [target_array; index]).

Definition BuildBoxIfPrimitive (target : Value) (type : TypeDescriptor) (src : Value) : BM unit :=
  if is_primitive type then
    box_type ← lift (ToBoxType ndebug type);
    '(id, _) ← on_dex (GetOrDeclareMethod ndebug box_type (lit "valueOf") {| return_type_ := box_type; param_types_ := [type] |});
    if wide_ type then
      wide_pair ← lift (WidePair ndebug src);
      r ← on_method (RegisterValue src); r2 ← on_method (RegisterValue wide_pair);
      if (16 <=? r) || (16 <=? r2) then add (InvokeStaticObjectRange id (Some target) src 2)
      else add (InvokeStaticObject id (Some target) [src; wide_pair])
    else
      r ← on_method (RegisterValue src);
      if 16 <=? r then add (InvokeStaticObjectRange id (Some target) src 1)
      else add (InvokeStaticObject id (Some target) [src])
  else whenM (negb (bool_decide (target = src))) (add (OpWithArgs kMoveObject (Some target) [src])).

Definition BuildUnBoxIfPrimitive (target : Value) (type : TypeDescriptor) (src : Value) : BM unit :=
  if is_object type then
    unbox_type ← lift (ToUnBoxType ndebug type);
    name ← lift (find_type value_method_map type);
    '(id, _) ← on_dex (GetOrDeclareMethod ndebug type name {| return_type_ := unbox_type; param_types_ := [] |});
    if wide_ unbox_type then add (InvokeVirtualWide id (Some target) src [])
    else add (InvokeVirtual id (Some target) src [])
  else whenM (negb (bool_decide (target = src))) (add (OpWithArgs kMove (Some target) [src])).

(** ** [MethodBuilder::Encode] *)

Inductive Category := Void | Scalar | WideScalar | Reference.
(** [ir::Type::GetCategory]. *)
Definition GetCategory (descriptor : list byte) : Category :=
  let c := first_char descriptor in
  if (c =? char_of "L") || (c =? char_of "[") then Reference
  else if c =? char_of "V" then Void
  else if (c =? char_of "D") || (c =? char_of "J") then WideScalar
  else Scalar.

Definition type_words (n : node_maps) (t : Z) : Z :=
  match GetCategory (c_str n (DexIr.descriptor (type_node n t))) with WideScalar => 2 | _ => 1 end.

Definition add_code (c : Code) (data : data_nodes) : data_nodes :=
  {| type_lists := type_lists data; codes := codes data ++ [c]; debug_infos := debug_infos data;
     encoded_arrays := encoded_arrays data; annotations := annotations data; annotation_sets := annotation_sets data;
     annotation_set_ref_lists := annotation_set_ref_lists data; annotations_directories := annotations_directories data |}.
Definition add_debug_info (i : DebugInfo) (data : data_nodes) : data_nodes :=
  {| type_lists := type_lists data; codes := codes data; debug_infos := debug_infos data ++ [i];
     encoded_arrays := encoded_arrays data; annotations := annotations data; annotation_sets := annotation_sets data;
     annotation_set_ref_lists := annotation_set_ref_lists data; annotations_directories := annotations_directories data |}.
Definition set_data (data : data_nodes) (ir : DexFile) : DexFile := set_nodes (nodes ir) data ir.

Definition Encode_code : BM nat :=
  '(_, m) ← get;
  d ← on_dex get;
  let n := nodes (dex_file_ d) in
  let decl := method_node n (decl_ m) in
  let proto := proto_node n (m_prototype decl) in
  let this := if Z.land (access_flags_ m) 0x0008 =? 0 then 1 else 0 in
  let num_args := this + foldr Z.add 0 (map (type_words n) (types_in (data_ (dex_file_ d)) (param_types proto))) in
  on_method EncodeInstructions ;;
  m ← on_method get;
  void ← on_dex (GetOrAddType ndebug (descriptor_ TypeDescriptor_Void));
  let return_count := if return_type proto =? void then 0 else 1 in
  d ← on_dex get;
  let ir := dex_file_ d in
  let has_source := match source_file (class_node (nodes ir) (builder_class m)) with Some _ => true | None => false end in
  let info := {| line_start := 0; param_names := []; data := [DBG_FIRST_SPECIAL; DBG_END_SEQUENCE] |} in
  let code := {|
    registers := u16 (NumRegisters m + num_args + kMaxScratchRegisters); ins_count := u16 num_args;
    outs_count := u16 (Z.max return_count (max_args_ m)); instructions := buffer_ m; try_blocks := []; catch_handlers := [];
    code_debug_info := if has_source then Some (length (debug_infos (data_ ir))) else None |} in
  let data := if has_source then add_debug_info info (data_ ir) else data_ ir in
  on_dex (update_file (set_data (add_code code data))) ;;
  mret (length (codes (data_ ir))).

Definition Encode : BM EncodedMethod :=
  '(_, m) ← get;
  let flags := access_flags_ m in
  code ← (if Z.land flags (Z.lor 0x0400 0x0100) =? 0 then c ← Encode_code; mret (Some c) else mret None);
  let method := {| m_decl := decl_ m; m_code := code; m_access_flags := flags |} in
  let is_direct := negb (Z.land flags (Z.lor (Z.lor 0x0008 0x0002) 0x00010000) =? 0) in
  on_dex (update_class (builder_class m) (fun k =>
    {| c_type := c_type k; c_access_flags := c_access_flags k; super_class := super_class k; interfaces := interfaces k;
       source_file := source_file k; c_annotations := c_annotations k; static_init := static_init k;
       static_fields := static_fields k; instance_fields := instance_fields k;
       direct_methods := if is_direct then direct_methods k ++ [method] else direct_methods k;
       virtual_methods := if is_direct then virtual_methods k else virtual_methods k ++ [method] |})) ;;
  mret method.

(** [ClassBuilder::CreateMethod]. *)
Definition CreateMethod (name : list byte) (prototype : Prototype) (c : ClassBuilder) : M DexBuilder MethodBuilder :=
  '(_, decl) ← GetOrDeclareMethod ndebug (type_descriptor_ c) name prototype;
  mret (newMethodBuilder (class_ c) decl).
End Method.
