(* ===== verification/DexBuilderSpec.v ===== *)
(** What the dex builder keeps: a node for every key it was asked for, one key for
    every node, and original indexes that are positions. *)
From stdpp Require Import strings.
From S2P Require Import Prelude Leb128 SlicerBuffer DexBytecode DexCode DexDebug DexIr DexIrSpec DexBuilder DexOrder.

(** ** Index maps without gaps *)

Definition dense (m : IndexMap) (n : nat) : Prop := index_ok m /\ forall i, used m i <-> (i < n)%nat.

Lemma dense_new : dense newIndexMap 0.
Proof. split; [intros i H; cbn in H; lia|]. intros i. unfold used. cbn. rewrite lookup_nil. split; [done|lia]. Qed.

Lemma AllocateIndex_dense ndebug m n : dense m n ->
  exists m', AllocateIndex ndebug m = Some (n, m') /\ dense m' (S n).
Proof.
  intros [Hok Hu]. destruct (AllocateIndex_ok ndebug m Hok) as (i & m' & E & N & B & U & Hok').
  assert (i = n) as ->.
  { rewrite Hu in N. destruct (decide (n < i)%nat) as [H|H]; [|lia]. apply B, Hu in H. lia. }
  exists m'. split; [exact E|]. split; [exact Hok'|]. intros j. rewrite U, Hu. lia.
Qed.

(** ** Strings *)

Definition nul_free (s : list byte) : Prop := Forall (.≠ 0) s.

Lemma until_nul_free s : nul_free s -> until_nul s = s.
Proof.
  induction 1 as [|c s Hc _ IH]; [done|]. cbn. destruct (Z.eqb_spec c 0); [done|]. by rewrite IH.
Qed.
Lemma until_nul_app s t : nul_free s -> until_nul (s ++ 0 :: t) = s.
Proof.
  induction 1 as [|c s Hc _ IH]; [done|]. cbn. destruct (Z.eqb_spec c 0); [done|]. by rewrite IH.
Qed.

Lemma string_data_total s : exists data, string_data s = Some data.
Proof.
  unfold string_data. destruct (uleb_roundtrip (u32 (actual_len s)) [] (trunc_range 32 _ ltac:(lia))) as (bs & E & _).
  change leb_fuel with 5%nat in E. rewrite E. by eexists.
Qed.

(** The C string of a node, as JNI and the VM see it. *)
Definition string_at (n : node_maps) (i : Z) : list byte := until_nul (c_str n i).

(** Strings in modified UTF-8, as JNI has them; no byte is a terminator. *)
Definition text (s : list byte) : Prop := exists us, units_ok us /\ s = concat (map encode_unit us).

Lemma encode_unit_nonzero u : in_word 16 u -> nul_free (encode_unit u).
Proof.
  intros [Hu _]. unfold encode_unit. destruct (Z.leb_spec 1 u), (Z.ltb_spec u 0x80), (Z.ltb_spec u 0x800); cbn [andb];
    repeat apply Forall_cons_2; try apply Forall_nil_2; try lia; intros [E _]%Z.lor_eq_0_iff; discriminate E.
Qed.
Lemma text_nul_free s : text s -> nul_free s.
Proof.
  intros (us & Hu & ->). induction Hu as [|u us Hu _ IH]; [constructor|]. apply Forall_app. split; [by apply encode_unit_nonzero|done].
Qed.
Lemma text_app a b : text a -> text b -> text (a ++ b).
Proof.
  intros (us & Hu & ->) (vs & Hv & ->). exists (us ++ vs). split; [by apply Forall_app|]. by rewrite map_app, concat_app.
Qed.
Definition ascii_char (c : Z) : bool := (1 <=? c) && (c <? 0x80).
Lemma text_lit l : forallb ascii_char l = true -> text l.
Proof.
  intros H. exists l. unfold ascii_char in H. induction l as [|c l IH]; [split; [constructor|done]|].
  cbn in H. apply andb_true_iff in H as [Hc Hl]. destruct (IH Hl) as [IH1 IH2]. split.
  - constructor; [|done]. apply andb_true_iff in Hc as [H1%Z.leb_le H2%Z.ltb_lt]. unfold in_word. lia.
  - cbn [map concat]. unfold encode_unit at 1. rewrite Hc. cbn. by rewrite <- IH2.
Qed.
Lemma text_cons c s : ascii_char c = true -> text s -> text (c :: s).
Proof. intros Hc. apply (text_app [c]), text_lit. cbn. by rewrite Hc. Qed.

Lemma string_at_data n i s data : text s -> string_nodes n !! i = Some data -> string_data s = Some data ->
  string_at n i = s.
Proof.
  intros Hs Hn Hd. unfold string_at, c_str. rewrite Hn. cbn [default]. unfold string_data in Hd.
  destruct (uleb_roundtrip (u32 (actual_len s)) (s ++ [0]) (trunc_range 32 _ ltac:(lia))) as (bs & E & _ & R & _).
  change leb_fuel with 5%nat in E. rewrite E in Hd. cbn in Hd. injection Hd as <-. unfold from_option, id. rewrite R.
  by apply until_nul_app, text_nul_free.
Qed.

(** ** The invariant *)

Definition table_positions (l : list Z) : Prop := l = map Z.of_nat (seq 0 (length l)).

(** A type list that exists and is not empty, or none. *)
Definition list_ok (data : data_nodes) (l : option nat) : Prop :=
  match l with Some l => exists ts, type_lists data !! l = Some ts /\ ts <> [] | None => True end.

Section Invariant.
Context (d : DexBuilder).
Let ir := dex_file_ d.
Let n := nodes ir.
Let t := tbl ir.

Record builder_ok : Prop := {
  bo_dense : forall k, k <> ProtoItem -> dense (indexes_of k d) (length (items_of t k));
  bo_positions : forall k, table_positions (items_of t k);
  bo_string s i : strings_ d !! s = Some i ->
    i ∈ strings t /\ text s /\ exists data, string_data s = Some data /\ string_nodes n !! i = Some data;
  bo_type s i : types_by_descriptor_ d !! s = Some i ->
    i ∈ types t /\ exists j c, type_nodes n !! i = Some {| DexIr.descriptor := j; class_def := c |} /\ strings_ d !! s = Some j;
  bo_proto r ps i : proto_map_ d !! (r, ps) = Some i ->
    i ∈ protos t /\ exists sh j l, proto_nodes n !! i = Some {| shorty := sh; return_type := j; param_types := l |} /\
      types_by_descriptor_ d !! r = Some j /\ list_ok (data_ ir) l /\
      Forall2 (fun s x => types_by_descriptor_ d !! s = Some x) ps (types_in (data_ ir) l);
  bo_field p s i : field_decls_by_key_ d !! (p, s) = Some i ->
    i ∈ fields t /\ exists pi si ti ty, field_nodes n !! i = Some {| f_name := si; f_type := ti; f_parent := pi |} /\
      types_by_descriptor_ d !! p = Some pi /\ strings_ d !! s = Some si /\ types_by_descriptor_ d !! ty = Some ti;
  bo_method p s k i j : method_id_map_ d !! (p, s, k) = Some (i, j) ->
    i = j /\ i ∈ methods t /\ exists pi si ki, method_nodes n !! i = Some {| m_name := si; m_prototype := ki; m_parent := pi |} /\
      types_by_descriptor_ d !! p = Some pi /\ strings_ d !! s = Some si /\ proto_map_ d !! k = Some ki;
  bo_strings_all i : i ∈ strings t -> exists s, strings_ d !! s = Some i;
  bo_types_all i : i ∈ types t -> exists s, types_by_descriptor_ d !! s = Some i;
  bo_protos_all i : i ∈ protos t -> exists k, proto_map_ d !! k = Some i;
  bo_fields_all i : i ∈ fields t -> exists k, field_decls_by_key_ d !! k = Some i;
  bo_methods_all i : i ∈ methods t -> exists k, method_id_map_ d !! k = Some (i, i)
}.
End Invariant.

(** ** Growth *)

Definition size (d : DexBuilder) : nat :=
  let t := tbl (dex_file_ d) in length (strings t) + length (types t) + length (protos t) + length (fields t) + length (methods t).

(** The nodes of the types asked for so far. *)
Definition keeps_types (d d' : DexBuilder) : Prop := forall s t, types_by_descriptor_ d !! s = Some t ->
  type_nodes (nodes (dex_file_ d')) !! t = type_nodes (nodes (dex_file_ d)) !! t.
Lemma keeps_trans d1 d2 d3 : types_by_descriptor_ d1 ⊆ types_by_descriptor_ d2 -> keeps_types d1 d2 -> keeps_types d2 d3 -> keeps_types d1 d3.
Proof. intros Hs H1 H2 s t Ht. rewrite (H2 s t (lookup_weaken _ _ _ _ Ht Hs)). exact (H1 s t Ht). Qed.

(** [d'] has at most [n] more nodes, no key lost, and the same classes and code. *)
Record grows (n : nat) (d d' : DexBuilder) : Prop := {
  gr_strings : strings_ d ⊆ strings_ d';
  gr_types : types_by_descriptor_ d ⊆ types_by_descriptor_ d';
  gr_protos : proto_map_ d ⊆ proto_map_ d';
  gr_fields : field_decls_by_key_ d ⊆ field_decls_by_key_ d';
  gr_methods : method_id_map_ d ⊆ method_id_map_ d';
  gr_size : (size d' <= size d + n)%nat;
  gr_type_nodes : keeps_types d d';
  gr_class_nodes : class_nodes (nodes (dex_file_ d')) = class_nodes (nodes (dex_file_ d));
  gr_classes : classes (dex_file_ d') = classes (dex_file_ d);
  gr_codes : codes (data_ (dex_file_ d')) = codes (data_ (dex_file_ d));
  gr_infos : debug_infos (data_ (dex_file_ d')) = debug_infos (data_ (dex_file_ d))
}.

Lemma grows_refl n d : grows n d d.
Proof. constructor; (done || lia). Qed.
Lemma grows_trans n1 n2 d1 d2 d3 : grows n1 d1 d2 -> grows n2 d2 d3 -> grows (n1 + n2) d1 d3.
Proof. intros [] []. constructor; first [by etrans | lia | by eapply keeps_trans | congruence]. Qed.
Lemma grows_le n m d d' : (n <= m)%nat -> grows n d d' -> grows m d d'.
Proof. intros H []. constructor; try done. lia. Qed.

(** ** Tables of positions *)

Lemma positions_fresh l : table_positions l -> Z.of_nat (length l) ∉ l.
Proof. intros -> H. rewrite length_map, length_seq in H. apply list_elem_of_In, in_map_iff in H as (x & E & H%in_seq). lia. Qed.

Lemma positions_snoc l : table_positions l -> table_positions (l ++ [Z.of_nat (length l)]).
Proof.
  unfold table_positions. intros H. rewrite List.length_app, Nat.add_comm. cbn [length Nat.add]. rewrite seq_S, map_app, <- H. done.
Qed.

Lemma positions_bound l x : table_positions l -> x ∈ l -> 0 <= x < Z.of_nat (length l).
Proof. intros -> H. rewrite length_map, length_seq. apply list_elem_of_In, in_map_iff in H as (y & <- & H%in_seq). lia. Qed.

Lemma elem_snoc {A} (x y : A) l : x ∈ l ++ [y] <-> x ∈ l \/ x = y.
Proof. by rewrite elem_of_app, list_elem_of_singleton. Qed.

Lemma insert_fresh_weaken {K A} `{Countable K} (m : gmap K A) k v k' v' :
  m !! k = None -> m !! k' = Some v' -> <[k := v]> m !! k' = Some v'.
Proof. intros N E. rewrite lookup_insert_ne; congruence. Qed.

Section Operations.
Context (ndebug : bool).

Lemma add_node_eq k index node d : k <> ProtoItem -> builder_ok d ->
  exists ix, let i := Z.of_nat (length (items_of (tbl (dex_file_ d)) k)) in
    dense ix (S (length (items_of (tbl (dex_file_ d)) k))) /\
    add_node ndebug k index node d =
      Some (i, with_file (add_node_maps (node i)
        (set_table k (items_of (tbl (dex_file_ d)) k ++ [i]) (<[i := index i]> (map_of (indexes (dex_file_ d)) k)) (dex_file_ d)))
        (set_indexes k ix d)).
Proof.
  intros Hk Hok. destruct (AllocateIndex_dense ndebug _ _ (bo_dense d Hok k Hk)) as (ix & E & Hd).
  exists ix. cbv zeta. split; [exact Hd|]. unfold add_node. rewrite E. reflexivity.
Qed.

(** The tables and the index maps after a node of kind [k]. *)
Lemma dense_set k ix d k' : k <> ProtoItem -> k' <> ProtoItem -> builder_ok d ->
  dense ix (S (length (items_of (tbl (dex_file_ d)) k))) ->
  dense (indexes_of k' (set_indexes k ix d))
    (length (items_of (set_items k (items_of (tbl (dex_file_ d)) k ++ [Z.of_nat (length (items_of (tbl (dex_file_ d)) k))])
      (tbl (dex_file_ d))) k')).
Proof.
  intros Hk Hk' Hok Hd. pose proof (bo_dense d Hok k' Hk') as Hd'.
  destruct (decide (k = k')) as [->|N].
  - rewrite items_set_same, List.length_app, Nat.add_comm. by destruct k'.
  - rewrite items_set_other by done. destruct k, k'; try done.
Qed.

Lemma positions_set k d k' : builder_ok d ->
  table_positions (items_of (set_items k (items_of (tbl (dex_file_ d)) k ++ [Z.of_nat (length (items_of (tbl (dex_file_ d)) k))])
      (tbl (dex_file_ d))) k').
Proof.
  intros Hok. destruct (decide (k = k')) as [->|N].
  - rewrite items_set_same. apply positions_snoc, Hok.
  - rewrite items_set_other by done. apply Hok.
Qed.

Ltac destruct_ok H :=
  let Hd := fresh "Hdense" in
  pose proof (bo_string _ H) as Bs; pose proof (bo_type _ H) as Bt; pose proof (bo_proto _ H) as Bp;
  pose proof (bo_field _ H) as Bf; pose proof (bo_method _ H) as Bm;
  pose proof (bo_strings_all _ H) as As; pose proof (bo_types_all _ H) as At; pose proof (bo_protos_all _ H) as Ap;
  pose proof (bo_fields_all _ H) as Af; pose proof (bo_methods_all _ H) as Am.

(** Unfolds a changed builder down to its members. *)
Ltac node_view :=
  cbn [dex_file_ with_strings with_types with_fields with_methods with_protos with_file set_indexes with_indexes
       add_node_maps set_nodes set_table tbl nodes data_ set_string set_type set_proto set_field set_method
       string_nodes type_nodes proto_nodes field_nodes method_nodes strings_ types_by_descriptor_
       proto_map_ field_decls_by_key_ method_id_map_ set_items strings types protos fields methods decide].

Ltac fresh_node H k := pose proof (positions_fresh _ (bo_positions _ H k)) as Hfresh; cbn [items_of] in Hfresh.

Lemma add_string_ok d s data ix : builder_ok d -> text s -> strings_ d !! s = None -> string_data s = Some data ->
  dense ix (S (length (strings (tbl (dex_file_ d))))) ->
  let i := Z.of_nat (length (strings (tbl (dex_file_ d)))) in
  let d' := with_strings (<[s := i]> (strings_ d))
    (with_file (add_node_maps (set_string i data)
      (set_table StringItem (strings (tbl (dex_file_ d)) ++ [i]) (<[i := 0]> (strings_map (indexes (dex_file_ d)))) (dex_file_ d)))
      (set_indexes StringItem ix d)) in
  builder_ok d' /\ grows 1 d d'.
Proof.
  intros Hok Hs Hnone Hdata Hix i d'. subst d'. destruct_ok Hok. fresh_node Hok StringItem. fold i in Hfresh.
  pose proof (insert_fresh_weaken (strings_ d) s i) as W. specialize (fun k v => W k v Hnone).
  split.
  - constructor; node_view.
    + intros k Hk. exact (dense_set StringItem ix d k ltac:(done) Hk Hok Hix).
    + intros k. exact (positions_set StringItem d k Hok).
    + intros s0 j [[<- <-]|[N E]]%lookup_insert_Some.
      * split_and!; [apply elem_snoc; by right|done|]. exists data. by rewrite lookup_insert_eq.
      * destruct (Bs _ _ E) as (Hj & Hf & dt & E1 & E2). split_and!; [apply elem_snoc; by left|done|].
        exists dt. rewrite lookup_insert_ne; [done|]. intros ->. by apply Hfresh.
    + intros s0 j E. destruct (Bt _ _ E) as (Hj & x & c & E1 & E2). split; [done|]. exists x, c. split; [done|]. by apply W.
    + intros r ps j E. exact (Bp _ _ _ E).
    + intros p s0 j E. destruct (Bf _ _ _ E) as (Hj & pi & si & ti & ty & E1 & E2 & E3 & E4). split; [done|].
      exists pi, si, ti, ty. split_and!; try done. by apply W.
    + intros p s0 k i0 j E. destruct (Bm _ _ _ _ _ E) as (-> & Hj & pi & si & ki & E1 & E2 & E3 & E4). split_and!; [done|done|].
      exists pi, si, ki. split_and!; try done. by apply W.
    + intros j [Hj| ->]%elem_snoc; [|exists s; by rewrite lookup_insert_eq].
      destruct (As _ Hj) as [s0 E]. exists s0. by apply W.
    + done.
    + done.
    + done.
    + done.
  - constructor; cbn; try done; [by apply insert_subseteq|]. unfold size. simpl. rewrite List.length_app. cbn. lia.
Qed.

Lemma add_type_ok d s j ix : builder_ok d -> types_by_descriptor_ d !! s = None -> strings_ d !! s = Some j ->
  dense ix (S (length (types (tbl (dex_file_ d))))) ->
  let i := Z.of_nat (length (types (tbl (dex_file_ d)))) in
  let d' := with_types (<[s := i]> (types_by_descriptor_ d))
    (with_file (add_node_maps (set_type i {| DexIr.descriptor := j; class_def := None |})
      (set_table TypeItem (types (tbl (dex_file_ d)) ++ [i]) (<[i := 0]> (types_map (indexes (dex_file_ d)))) (dex_file_ d)))
      (set_indexes TypeItem ix d)) in
  builder_ok d' /\ grows 1 d d'.
Proof.
  intros Hok Hnone Hj Hix i d'. subst d'. destruct_ok Hok. fresh_node Hok TypeItem. fold i in Hfresh.
  pose proof (insert_fresh_weaken (types_by_descriptor_ d) s i) as W. specialize (fun k v => W k v Hnone).
  split.
  - constructor; node_view.
    + intros k Hk. exact (dense_set TypeItem ix d k ltac:(done) Hk Hok Hix).
    + intros k. exact (positions_set TypeItem d k Hok).
    + done.
    + intros s0 x [[<- <-]|[N E]]%lookup_insert_Some.
      * split; [apply elem_snoc; by right|]. exists j, None. by rewrite lookup_insert_eq.
      * destruct (Bt _ _ E) as (Hx & y & c & E1 & E2). split; [apply elem_snoc; by left|].
        exists y, c. rewrite lookup_insert_ne; [done|]. intros ->. by apply Hfresh.
    + intros r ps x E. destruct (Bp _ _ _ E) as (Hx & sh & y & l & E1 & E2 & El & E3). split; [done|].
      exists sh, y, l. split_and!; [done|by apply W|done|]. eapply Forall2_impl; [exact E3|]. intros; by apply W.
    + intros p s0 x E. destruct (Bf _ _ _ E) as (Hx & pi & si & ti & ty & E1 & E2 & E3 & E4). split; [done|].
      exists pi, si, ti, ty. split_and!; try done; by apply W.
    + intros p s0 k i0 x E. destruct (Bm _ _ _ _ _ E) as (-> & Hx & pi & si & ki & E1 & E2 & E3 & E4). split_and!; [done|done|].
      exists pi, si, ki. split_and!; try done. by apply W.
    + done.
    + intros x [Hx| ->]%elem_snoc; [|exists s; by rewrite lookup_insert_eq].
      destruct (At _ Hx) as [s0 E]. exists s0. by apply W.
    + done.
    + done.
    + done.
  - constructor; cbn; try done; [by apply insert_subseteq| |].
    + unfold size. simpl. rewrite List.length_app. cbn. lia.
    + intros s0 t E. cbn. rewrite lookup_insert_ne; [done|]. intros ->. by apply Hfresh, (Bt _ _ E).
Qed.

Lemma add_field_ok d p s ty pi si ti ix : builder_ok d -> field_decls_by_key_ d !! (p, s) = None ->
  types_by_descriptor_ d !! p = Some pi -> strings_ d !! s = Some si -> types_by_descriptor_ d !! ty = Some ti ->
  dense ix (S (length (fields (tbl (dex_file_ d))))) ->
  let i := Z.of_nat (length (fields (tbl (dex_file_ d)))) in
  let d' := with_fields (<[(p, s) := i]> (field_decls_by_key_ d))
    (with_file (add_node_maps (set_field i {| f_name := si; f_type := ti; f_parent := pi |})
      (set_table FieldItem (fields (tbl (dex_file_ d)) ++ [i]) (<[i := 0]> (fields_map (indexes (dex_file_ d)))) (dex_file_ d)))
      (set_indexes FieldItem ix d)) in
  builder_ok d' /\ grows 1 d d'.
Proof.
  intros Hok Hnone Hp Hs Hty Hix i d'. subst d'. destruct_ok Hok. fresh_node Hok FieldItem. fold i in Hfresh.
  split.
  - constructor; node_view; try done.
    + intros k Hk. exact (dense_set FieldItem ix d k ltac:(done) Hk Hok Hix).
    + intros k. exact (positions_set FieldItem d k Hok).
    + intros p0 s0 x [[[= <- <-] <-]|[N E]]%lookup_insert_Some.
      * split; [apply elem_snoc; by right|]. exists pi, si, ti, ty. by rewrite lookup_insert_eq.
      * destruct (Bf _ _ _ E) as (Hx & E'). split; [apply elem_snoc; by left|].
        rewrite lookup_insert_ne; [done|]. intros ->. by apply Hfresh.
    + intros x [Hx| ->]%elem_snoc; [|exists (p, s); by rewrite lookup_insert_eq].
      destruct (Af _ Hx) as [k E]. exists k. by apply insert_fresh_weaken.
  - constructor; cbn; try done; [by apply insert_subseteq|]. unfold size. simpl. rewrite List.length_app. cbn. lia.
Qed.

Lemma add_method_ok d p s k pi si ki ix : builder_ok d -> method_id_map_ d !! (p, s, k) = None ->
  types_by_descriptor_ d !! p = Some pi -> strings_ d !! s = Some si -> proto_map_ d !! k = Some ki ->
  dense ix (S (length (methods (tbl (dex_file_ d))))) ->
  let i := Z.of_nat (length (methods (tbl (dex_file_ d)))) in
  let d' := with_methods (<[(p, s, k) := (i, i)]> (method_id_map_ d))
    (with_file (add_node_maps (set_method i {| m_name := si; m_prototype := ki; m_parent := pi |})
      (set_table MethodItem (methods (tbl (dex_file_ d)) ++ [i]) (<[i := i]> (methods_map (indexes (dex_file_ d)))) (dex_file_ d)))
      (set_indexes MethodItem ix d)) in
  builder_ok d' /\ grows 1 d d'.
Proof.
  intros Hok Hnone Hp Hs Hk Hix i d'. subst d'. destruct_ok Hok. fresh_node Hok MethodItem. fold i in Hfresh.
  split.
  - constructor; node_view; try done.
    + intros k' Hk'. exact (dense_set MethodItem ix d k' ltac:(done) Hk' Hok Hix).
    + intros k'. exact (positions_set MethodItem d k' Hok).
    + intros p0 s0 k0 x y [[[= <- <- <-] [= <- <-]]|[N E]]%lookup_insert_Some.
      * split_and!; [done|apply elem_snoc; by right|]. exists pi, si, ki. by rewrite lookup_insert_eq.
      * destruct (Bm _ _ _ _ _ E) as (-> & Hx & E'). split_and!; [done|apply elem_snoc; by left|].
        rewrite lookup_insert_ne; [done|]. intros ->. by apply Hfresh.
    + intros x [Hx| ->]%elem_snoc; [|exists (p, s, k); by rewrite lookup_insert_eq].
      destruct (Am _ Hx) as [k0 E]. exists k0. by apply insert_fresh_weaken.
  - constructor; cbn; try done; [by apply insert_subseteq|]. unfold size. simpl. rewrite List.length_app. cbn. lia.
Qed.

Lemma types_in_snoc data l ts : list_ok data l ->
  types_in (add_type_list ts data) l = types_in data l /\ list_ok (add_type_list ts data) l.
Proof.
  destruct l as [l|]; [|done]. intros (x & E & N). cbn.
  assert (E' : (type_lists data ++ [ts]) !! l = Some x) by (rewrite lookup_app_l; [done|by eapply lookup_lt_Some]).
  rewrite E, E'. split; [done|]. by exists x.
Qed.

Lemma add_proto_ok d p r ts l data sh j : builder_ok d -> proto_map_ d !! key_of_proto p = None ->
  types_by_descriptor_ d !! descriptor_ (return_type_ p) = Some j ->
  Forall2 (fun t x => types_by_descriptor_ d !! descriptor_ t = Some x) (param_types_ p) ts ->
  r = Z.of_nat (length (protos (tbl (dex_file_ d)))) ->
  (l, data) = match ts with [] => (None, data_ (dex_file_ d)) | _ =>
    (Some (length (type_lists (data_ (dex_file_ d)))), add_type_list ts (data_ (dex_file_ d))) end ->
  let ir := set_table ProtoItem (protos (tbl (dex_file_ d)) ++ [r]) (protos_map (indexes (dex_file_ d))) (dex_file_ d) in
  let d' := with_protos (<[key_of_proto p := r]> (proto_map_ d))
    (with_file (set_nodes (set_proto r {| shorty := sh; return_type := j; param_types := l |} (nodes ir)) data ir) d) in
  builder_ok d' /\ grows 1 d d'.
Proof.
  intros Hok Hnone Hr Hts -> Hl ir d'. subst d'. destruct_ok Hok. fresh_node Hok ProtoItem.
  set (i := Z.of_nat _) in *.
  assert (Hlist : list_ok data l /\ types_in data l = ts /\
    forall l', list_ok (data_ (dex_file_ d)) l' -> types_in data l' = types_in (data_ (dex_file_ d)) l' /\ list_ok data l').
  { destruct ts as [|t ts]; injection Hl as -> ->; [done|]. split_and!.
    - cbn. exists (t :: ts). by rewrite lookup_app_r, Nat.sub_diag by lia.
    - cbn. by rewrite lookup_app_r, Nat.sub_diag by lia.
    - intros l' Hl'. by apply types_in_snoc. }
  destruct Hlist as (L1 & L2 & L3).
  assert (C : codes data = codes (data_ (dex_file_ d)) /\ debug_infos data = debug_infos (data_ (dex_file_ d)))
    by (destruct ts; by injection Hl as -> ->).
  split.
  - subst ir. constructor; node_view; try done.
    + intros k Hk. rewrite items_set_other by congruence. pose proof (bo_dense d Hok k Hk). by destruct k.
    + intros k'. exact (positions_set ProtoItem d k' Hok).
    + intros r0 ps x [[E <-]|[N E]]%lookup_insert_Some.
      * unfold key_of_proto in E. injection E as <- <-. split; [apply elem_snoc; by right|]. exists sh, j, l.
        rewrite lookup_insert_eq, L2. split_and!; try done. by apply Forall2_fmap_l.
      * destruct (Bp _ _ _ E) as (Hx & sh' & y & l' & E1 & E2 & El & E3). split; [apply elem_snoc; by left|].
        exists sh', y, l'. destruct (L3 _ El) as [-> El']. rewrite lookup_insert_ne; [done|]. intros ->. by apply Hfresh.
    + intros p0 s0 k0 x y E. destruct (Bm _ _ _ _ _ E) as (-> & Hx & pi & si & ki & E1 & E2 & E3 & E4). split_and!; [done|done|].
      exists pi, si, ki. split_and!; try done. by apply insert_fresh_weaken.
    + intros x [Hx| ->]%elem_snoc; [|exists (key_of_proto p); by rewrite lookup_insert_eq].
      destruct (Ap _ Hx) as [k0 E]. exists k0. by apply insert_fresh_weaken.
  - constructor; cbn; try done; [by apply insert_subseteq|..|apply C|apply C]. unfold size. simpl. rewrite List.length_app. cbn. lia.
Qed.

(** ** The operations *)

(** [m] succeeds from [d], adds at most [n] nodes and establishes [Q]. *)
Definition runs {A} (n : nat) (m : M DexBuilder A) (d : DexBuilder) (Q : A -> DexBuilder -> Prop) : Prop :=
  exists a d', m d = Some (a, d') /\ builder_ok d' /\ grows n d d' /\ Q a d'.

Lemma runs_ret {A} n (a : A) d (Q : A -> DexBuilder -> Prop) : builder_ok d -> Q a d -> runs n (mret a) d Q.
Proof. intros H HQ. exists a, d. split_and!; [done|done|apply grows_refl|done]. Qed.

Lemma runs_bind {A B} n1 n2 n (m : M DexBuilder A) (f : A -> M DexBuilder B) d Q :
  (n1 + n2 <= n)%nat -> runs n1 m d (fun a d' => grows n1 d d' -> runs n2 (f a) d' Q) -> runs n (m ≫= f) d Q.
Proof.
  intros Hn (a & d1 & E1 & H1 & G1 & b & d2 & E2 & H2 & G2 & HQ); [done|].
  exists b, d2. split_and!; [|done|by eapply grows_le, grows_trans|done].
  unfold mbind, M_bind. rewrite E1. cbn. by rewrite E2.
Qed.

Lemma runs_weaken {A} n (m : M DexBuilder A) d (Q R : A -> DexBuilder -> Prop) :
  runs n m d Q -> (forall a d', Q a d' -> R a d') -> runs n m d R.
Proof. intros (a & d' & E & H & G & HQ) HR. exists a, d'. eauto. Qed.

Lemma grows_string n d d' s i : grows n d d' -> strings_ d !! s = Some i -> strings_ d' !! s = Some i.
Proof. intros G H. eapply lookup_weaken; [done|]. by eapply gr_strings. Qed.
Lemma grows_type n d d' s i : grows n d d' -> types_by_descriptor_ d !! s = Some i -> types_by_descriptor_ d' !! s = Some i.
Proof. intros G H. eapply lookup_weaken; [done|]. by eapply gr_types. Qed.
Lemma grows_proto n d d' s i : grows n d d' -> proto_map_ d !! s = Some i -> proto_map_ d' !! s = Some i.
Proof. intros G H. eapply lookup_weaken; [done|]. by eapply gr_protos. Qed.
Lemma grows_method n d d' s i : grows n d d' -> method_id_map_ d !! s = Some i -> method_id_map_ d' !! s = Some i.
Proof. intros G H. eapply lookup_weaken; [done|]. by eapply gr_methods. Qed.
Lemma grows_field n d d' s i : grows n d d' -> field_decls_by_key_ d !! s = Some i -> field_decls_by_key_ d' !! s = Some i.
Proof. intros G H. eapply lookup_weaken; [done|]. by eapply gr_fields. Qed.

(** What looking up strings, types and prototypes leaves alone. *)
Definition same_decls (d d' : DexBuilder) : Prop :=
  proto_map_ d' = proto_map_ d /\ field_decls_by_key_ d' = field_decls_by_key_ d /\ method_id_map_ d' = method_id_map_ d /\
  protos (tbl (dex_file_ d')) = protos (tbl (dex_file_ d)) /\ fields (tbl (dex_file_ d')) = fields (tbl (dex_file_ d)) /\
  methods (tbl (dex_file_ d')) = methods (tbl (dex_file_ d)).
Definition same_methods (d d' : DexBuilder) : Prop :=
  method_id_map_ d' = method_id_map_ d /\ methods (tbl (dex_file_ d')) = methods (tbl (dex_file_ d)).

Lemma same_decls_trans d1 d2 d3 : same_decls d1 d2 -> same_decls d2 d3 -> same_decls d1 d3.
Proof. unfold same_decls. intuition congruence. Qed.

Lemma run_get {A} (f : DexBuilder -> M DexBuilder A) d : (get ≫= f) d = f d d.
Proof. done. Qed.
Lemma run_bind {A B} (m : M DexBuilder A) (f : A -> M DexBuilder B) d a d' :
  m d = Some (a, d') -> (m ≫= f) d = f a d'.
Proof. unfold mbind at 1, M_bind. by intros ->. Qed.
Lemma run_lift {A B} (m : option A) (f : A -> M DexBuilder B) d a : m = Some a -> (lift m ≫= f) d = f a d.
Proof. by intros ->. Qed.

Lemma GetOrAddString_ok s d : builder_ok d -> text s ->
  runs 1 (GetOrAddString ndebug s) d (fun i d' => strings_ d' !! s = Some i /\
    types_by_descriptor_ d' = types_by_descriptor_ d /\ types (tbl (dex_file_ d')) = types (tbl (dex_file_ d)) /\ same_decls d d').
Proof.
  intros Hok Hs. unfold GetOrAddString, runs. rewrite run_get.
  destruct (strings_ d !! s) as [i|] eqn:E; [by apply runs_ret|].
  destruct (string_data_total s) as [data Hdata].
  destruct (add_node_eq StringItem (fun _ => 0) (fun i => set_string i data) d ltac:(done) Hok) as (ix & Hix & Ea).
  destruct (add_string_ok d s data ix Hok Hs E Hdata Hix) as [Hok' G].
  rewrite (run_lift _ _ _ _ Hdata), (run_bind _ _ _ _ _ Ea), run_get, until_nul_free by (by apply text_nul_free).
  cbn [strings_ with_file set_indexes with_indexes]. rewrite E.
  do 2 eexists. split_and!; [reflexivity|exact Hok'|exact G|cbn; by rewrite lookup_insert_eq|done..].
Qed.

Lemma GetOrAddType_ok s d : builder_ok d -> text s ->
  runs 2 (GetOrAddType ndebug s) d (fun i d' => types_by_descriptor_ d' !! s = Some i /\ same_decls d d').
Proof.
  intros Hok Hs. unfold GetOrAddType, runs. rewrite run_get.
  destruct (types_by_descriptor_ d !! s) as [i|] eqn:E; [by apply runs_ret|].
  destruct (GetOrAddString_ok s d Hok Hs) as (j & d1 & E1 & Hok1 & G1 & Hj & Et & Ett & Es).
  rewrite (run_bind _ _ _ _ _ E1). rewrite <- Et in E.
  destruct (add_node_eq TypeItem (fun _ => 0) (fun i => set_type i {| DexIr.descriptor := j; class_def := None |}) d1 ltac:(done) Hok1)
    as (ix & Hix & Ea).
  destruct (add_type_ok d1 s j ix Hok1 E Hj Hix) as [Hok' G].
  rewrite (run_bind _ _ _ _ _ Ea), run_get, until_nul_free by (by apply text_nul_free).
  do 2 eexists. split_and!; [reflexivity|exact Hok'|exact (grows_trans _ _ _ _ _ G1 G)|cbn; by rewrite lookup_insert_eq|exact Es].
Qed.

(** What a type lookup adds: the type itself, without a class. *)
Lemma GetOrAddType_new s d i d' : builder_ok d -> text s -> GetOrAddType ndebug s d = Some (i, d') ->
  (forall s', s' <> s -> types_by_descriptor_ d' !! s' = types_by_descriptor_ d !! s') /\
  (types_by_descriptor_ d !! s = None -> exists j, type_nodes (nodes (dex_file_ d')) !! i = Some {| DexIr.descriptor := j; class_def := None |}).
Proof.
  intros Hok Hs. unfold GetOrAddType. rewrite run_get. destruct (types_by_descriptor_ d !! s) as [t|] eqn:E; [by intros [= <- <-]|].
  destruct (GetOrAddString_ok s d Hok Hs) as (j & d1 & E1 & Hok1 & G1 & Hj & T1 & _ & _). rewrite (run_bind _ _ _ _ _ E1).
  destruct (add_node_eq TypeItem (fun _ => 0) (fun i => set_type i {| DexIr.descriptor := j; class_def := None |}) d1 ltac:(done) Hok1)
    as (ix & Hix & Ea).
  rewrite (run_bind _ _ _ _ _ Ea), run_get, until_nul_free by (by apply text_nul_free). intros [= <- <-]. cbn. rewrite T1. split.
  - intros s' Hn. by rewrite lookup_insert_ne.
  - intros _. exists j. by rewrite lookup_insert_eq.
Qed.

Lemma GetOrAddField_ok p s ty d : builder_ok d -> text (descriptor_ p) -> text s -> text (descriptor_ ty) ->
  runs 6 (GetOrAddField ndebug p s ty) d (fun i d' => field_decls_by_key_ d' !! (descriptor_ p, s) = Some i /\ same_methods d d').
Proof.
  intros Hok Hp Hs Hty. unfold GetOrAddField, runs. rewrite run_get.
  destruct (field_decls_by_key_ d !! (descriptor_ p, s)) as [i|] eqn:E; [by apply runs_ret|].
  destruct (GetOrAddType_ok _ d Hok Hp) as (pi & d1 & E1 & Hok1 & G1 & H1 & S1).
  destruct (GetOrAddString_ok s d1 Hok1 Hs) as (si & d2 & E2 & Hok2 & G2 & H2 & T2 & _ & S2).
  destruct (GetOrAddType_ok _ d2 Hok2 Hty) as (ti & d3 & E3 & Hok3 & G3 & H3 & S3).
  rewrite (run_bind _ _ _ _ _ E1), (run_bind _ _ _ _ _ E2), (run_bind _ _ _ _ _ E3).
  pose proof (same_decls_trans _ _ _ S1 (same_decls_trans _ _ _ S2 S3)) as S.
  destruct (add_node_eq FieldItem (fun _ => 0) (fun i => set_field i {| f_name := si; f_type := ti; f_parent := pi |}) d3 ltac:(done) Hok3)
    as (ix & Hix & Ea).
  destruct (add_field_ok d3 (descriptor_ p) s (descriptor_ ty) pi si ti ix Hok3) as [Hok' G]; [..|done|done|].
  { destruct S as (_ & -> & _). done. }
  { eapply grows_type; [exact G3|]. by rewrite T2. }
  { by eapply grows_string. }
  rewrite (run_bind _ _ _ _ _ Ea), run_get.
  do 2 eexists. split_and!; [reflexivity|exact Hok'| |cbn; by rewrite lookup_insert_eq|split; apply S].
  pose proof (grows_trans _ _ _ _ _ (grows_trans _ _ _ _ _ (grows_trans _ _ _ _ _ G1 G2) G3) G) as GG. exact GG.
Qed.

Lemma types_ok ts : forall d, builder_ok d -> Forall (fun t => text (descriptor_ t)) ts ->
  runs (2 * length ts) (mapM_ (fun t => GetOrAddType ndebug (descriptor_ t)) ts) d (fun xs d' =>
    Forall2 (fun t x => types_by_descriptor_ d' !! descriptor_ t = Some x) ts xs /\ same_decls d d').
Proof.
  induction ts as [|t ts IH]; intros d Hok Hts; cbn [mapM_].
  - apply runs_ret; [done|]. by split.
  - apply Forall_cons in Hts as [Ht Hts].
    destruct (GetOrAddType_ok _ d Hok Ht) as (i & d1 & E1 & Hok1 & G1 & H1 & S1).
    destruct (IH d1 Hok1 Hts) as (xs & d2 & E2 & Hok2 & G2 & H2 & S2).
    exists (i :: xs), d2. rewrite (run_bind _ _ _ _ _ E1), (run_bind _ _ _ _ _ E2).
    split_and!; [done|done| | |by eapply same_decls_trans].
    + eapply grows_le; [|exact (grows_trans _ _ _ _ _ G1 G2)]. cbn. lia.
    + constructor; [by eapply grows_type|done].
Qed.

Definition proto_text (p : Prototype) : Prop :=
  text (Shorty p) /\ text (descriptor_ (return_type_ p)) /\ Forall (fun t => text (descriptor_ t)) (param_types_ p).

Definition proto_cost (p : Prototype) : nat := 4 + 2 * length (param_types_ p).

Lemma GetOrEncodeProto_ok p d : builder_ok d -> proto_text p ->
  runs (proto_cost p) (GetOrEncodeProto ndebug p) d (fun i d' => proto_map_ d' !! key_of_proto p = Some i /\ same_methods d d').
Proof.
  intros Hok (Hs & Hr & Hts). unfold GetOrEncodeProto, runs. rewrite run_get.
  destruct (proto_map_ d !! key_of_proto p) as [i|] eqn:E; [by apply runs_ret|].
  destruct (GetOrAddString_ok _ d Hok Hs) as (si & d1 & E1 & Hok1 & G1 & H1 & T1 & _ & S1).
  destruct (GetOrAddType_ok _ d1 Hok1 Hr) as (ri & d2 & E2 & Hok2 & G2 & H2 & S2).
  destruct (types_ok _ d2 Hok2 Hts) as (ts & d3 & E3 & Hok3 & G3 & H3 & S3).
  pose proof (same_decls_trans _ _ _ S1 (same_decls_trans _ _ _ S2 S3)) as S.
  set (ld := match ts with [] => (None, data_ (dex_file_ d3)) | _ =>
    (Some (length (type_lists (data_ (dex_file_ d3)))), add_type_list ts (data_ (dex_file_ d3))) end).
  destruct (add_proto_ok d3 p _ ts ld.1 ld.2 si ri Hok3 ltac:(by destruct S as (-> & _)) ltac:(by eapply grows_type) H3 eq_refl
    ltac:(by destruct ts)) as [Hok' G].
  assert (En : Prototype_Encode ndebug p d = Some (Z.of_nat (length (protos (tbl (dex_file_ d3)))),
     with_file (set_nodes (set_proto (Z.of_nat (length (protos (tbl (dex_file_ d3)))))
       {| shorty := si; return_type := ri; param_types := ld.1 |} (nodes (dex_file_ d3))) ld.2
       (set_table ProtoItem (protos (tbl (dex_file_ d3)) ++ [Z.of_nat (length (protos (tbl (dex_file_ d3))))])
         (protos_map (indexes (dex_file_ d3))) (dex_file_ d3))) d3)).
  { unfold Prototype_Encode. rewrite (run_bind _ _ _ _ _ E1), (run_bind _ _ _ _ _ E2), (run_bind _ _ _ _ _ E3), run_get.
    subst ld. by destruct ts. }
  rewrite (run_bind _ _ _ _ _ En), run_get.
  do 2 eexists. split_and!; [reflexivity|exact Hok'| |cbn; by rewrite lookup_insert_eq|split; apply S].
  eapply grows_le; [|exact (grows_trans _ _ _ _ _ (grows_trans _ _ _ _ _ (grows_trans _ _ _ _ _ G1 G2) G3) G)].
  unfold proto_cost. lia.
Qed.

Lemma GetOrDeclareMethod_ok type name p d : builder_ok d -> text (descriptor_ type) -> text name -> proto_text p ->
  runs (4 + proto_cost p) (GetOrDeclareMethod ndebug type name p) d (fun e d' => e.1 = e.2 /\
    method_id_map_ d' !! (descriptor_ type, name, key_of_proto p) = Some e).
Proof.
  intros Hok Ht Hn Hp. unfold GetOrDeclareMethod, runs. rewrite run_get.
  destruct (method_id_map_ d !! _) as [[i j]|] eqn:E.
  { apply runs_ret; [done|]. by destruct (bo_method _ Hok _ _ _ _ _ E) as (-> & _). }
  destruct (GetOrAddString_ok _ d Hok Hn) as (si & d1 & E1 & Hok1 & G1 & H1 & _ & _ & S1).
  destruct (GetOrAddType_ok _ d1 Hok1 Ht) as (ti & d2 & E2 & Hok2 & G2 & H2 & S2).
  destruct (GetOrEncodeProto_ok _ d2 Hok2 Hp) as (pi & d3 & E3 & Hok3 & G3 & H3 & S3).
  pose proof (same_decls_trans _ _ _ S1 S2) as (_ & _ & S & _ & _ & Sm).
  destruct (add_node_eq MethodItem (fun i => i) (fun i => set_method i {| m_name := si; m_prototype := pi; m_parent := ti |}) d3
    ltac:(done) Hok3) as (ix & Hix & Ea).
  destruct (add_method_ok d3 (descriptor_ type) name (key_of_proto p) ti si pi ix Hok3) as [Hok' G]; [..|done|done|].
  { destruct S3 as [-> _]. by rewrite S. }
  { by eapply grows_type. }
  { by eapply grows_string, grows_string. }
  rewrite (run_bind _ _ _ _ _ E1), (run_bind _ _ _ _ _ E2), (run_bind _ _ _ _ _ E3), (run_bind _ _ _ _ _ Ea), run_get.
  assert (El : Z.of_nat (length (methods (tbl (dex_file_ d)))) = Z.of_nat (length (methods (tbl (dex_file_ d3))))).
  { destruct S3 as [_ ->]. by rewrite Sm. }
  rewrite El. do 2 eexists. split_and!; [reflexivity|exact Hok'| |done|cbn; by rewrite lookup_insert_eq].
  eapply grows_le; [|exact (grows_trans _ _ _ _ _ (grows_trans _ _ _ _ _ (grows_trans _ _ _ _ _ G1 G2) G3) G)]. lia.
Qed.
End Operations.
