(* ===== verification/DalvikSem.v ===== *)
(** Specification: the part of the Dalvik virtual machine that generated methods
    use, from the documentation of the bytecode. Instructions are decoded with the
    diagrams of DexIsa.v; what an index names is looked up in the IR.

    A register holds a word, a half of a wide value, or a reference; the word zero
    is also the null reference. Methods other than those that box and unbox are the
    environment's: a call is recorded and answered by it. *)
From stdpp Require Import strings.
From Stdlib Require Import Ascii String.
From S2P Require Import Prelude SlicerBuffer DexBytecode DexIsa DexCode DexIr DexIrSpec DexBuilder DexBuilderSpec.

(** ** What indexes name *)

Record mref := { mr_class : list byte; mr_name : list byte; mr_params : list (list byte); mr_return : list byte }.
#[export] Instance mref_eq_dec : EqDecision mref.
Proof. solve_decision. Defined.
Record fref := { fr_class : list byte; fr_name : list byte; fr_type : list byte }.

Section Names.
Context (ir : DexFile).
Let n := nodes ir.

Definition type_name (t : Z) : list byte := string_at n (DexIr.descriptor (type_node n t)).
Definition method_name (m : Z) : mref :=
  let decl := method_node n m in
  let proto := proto_node n (m_prototype decl) in
  {| mr_class := type_name (m_parent decl); mr_name := string_at n (m_name decl);
     mr_params := map type_name (types_in (data_ ir) (param_types proto)); mr_return := type_name (return_type proto) |}.
Definition field_name (f : Z) : fref :=
  let decl := field_node n f in
  {| fr_class := type_name (f_parent decl); fr_name := string_at n (f_name decl); fr_type := type_name (f_type decl) |}.
End Names.

(** The names behind the indexes of a code item. *)
Record refs := { ref_type : Z -> option (list byte); ref_method : Z -> option mref; ref_field : Z -> option fref }.
Definition in_table {A} (l : list Z) (name : Z -> A) (i : Z) : option A := if bool_decide (i ∈ l) then Some (name i) else None.
(** Before the file is written, indexes are the original ones. *)
Definition original_refs (ir : DexFile) : refs :=
  {| ref_type := in_table (types (tbl ir)) (type_name ir); ref_method := in_table (methods (tbl ir)) (method_name ir);
     ref_field := in_table (fields (tbl ir)) (field_name ir) |}.

(** ** Values *)

Inductive obj := Null | Boxed (class : list byte) (v : Z) | Array (a : nat) | Foreign (id : Z).
Inductive value := VWord (w : Z) | VWide (w : Z) | VRef (o : obj).
Inductive reg := Undefined | Word (w : Z) | WideLow (w : Z) | WideHigh (w : Z) | Ref (o : obj).
#[export] Instance obj_eq_dec : EqDecision obj.
Proof. solve_decision. Defined.
Inductive exn := ClassCast | NullPointer | NegativeArraySize | ArrayIndex | Thrown (id : Z).

Definition regs_of (v : value) : list reg :=
  match v with VWord w => [Word w] | VWide w => [WideLow w; WideHigh w] | VRef o => [Ref o] end.

(** Primitive type, its wrapper class and the wrapper's accessor. *)
Definition wrappers : list (list byte * list byte * list byte) :=
  [(lit "Z", lit "Ljava/lang/Boolean;", lit "booleanValue"); (lit "B", lit "Ljava/lang/Byte;", lit "byteValue");
   (lit "S", lit "Ljava/lang/Short;", lit "shortValue"); (lit "C", lit "Ljava/lang/Character;", lit "charValue");
   (lit "I", lit "Ljava/lang/Integer;", lit "intValue"); (lit "J", lit "Ljava/lang/Long;", lit "longValue");
   (lit "F", lit "Ljava/lang/Float;", lit "floatValue"); (lit "D", lit "Ljava/lang/Double;", lit "doubleValue")].
Definition is_wide_type (t : list byte) : bool := bool_decide (t = lit "J" \/ t = lit "D").
Definition is_ref_type (t : list byte) : bool := (first_char t =? char_of "L") || (first_char t =? char_of "[").
Definition is_wrapper (c : list byte) : bool := existsb (fun w => bool_decide (w.1.2 = c)) wrappers.
(** [valueOf] of a wrapper, and its accessor. *)
Definition boxes (m : mref) : bool :=
  existsb (fun w => bool_decide (m = {| mr_class := w.1.2; mr_name := lit "valueOf"; mr_params := [w.1.1]; mr_return := w.1.2 |})) wrappers.
Definition unboxes (m : mref) : bool :=
  existsb (fun w => bool_decide (m = {| mr_class := w.1.2; mr_name := w.2; mr_params := []; mr_return := w.1.1 |})) wrappers.

(** ** Instructions *)

Inductive call_kind := Virtual | Direct | Static | Interface.
Inductive dinsn :=
| DMove (a b : Z) | DMoveWide (a b : Z) | DMoveObject (a b : Z)
| DMoveResult (a : Z) | DMoveResultWide (a : Z) | DMoveResultObject (a : Z)
| DReturnVoid | DReturn (a : Z) | DReturnWide (a : Z) | DReturnObject (a : Z)
| DConst (a w : Z) | DConstWide (a w : Z)
| DCheckCast (a t : Z) | DNewArray (a size t : Z) | DAputObject (v array index : Z) | DSgetObject (a f : Z)
| DIfEqz (a target : Z) | DIfNez (a target : Z)
| DInvoke (k : call_kind) (m : Z) (args : list Z).

Definition call_of (op base : Z) : option call_kind :=
  if op =? base then Some Virtual else if op =? base + 2 then Some Direct
  else if op =? base + 3 then Some Static else if op =? base + 4 then Some Interface else None.

(** The format of an opcode, and the instruction that its fields [g] make. *)
Definition dinsn_of (op : Z) : option (InstructionFormat * ((ascii -> Z) -> dinsn)) :=
  match op with
  | 0x03 => Some (k32x, fun g => DMove (g "A") (g "B"))
  | 0x06 => Some (k32x, fun g => DMoveWide (g "A") (g "B"))
  | 0x09 => Some (k32x, fun g => DMoveObject (g "A") (g "B"))
  | 0x0a => Some (k11x, fun g => DMoveResult (g "A"))
  | 0x0b => Some (k11x, fun g => DMoveResultWide (g "A"))
  | 0x0c => Some (k11x, fun g => DMoveResultObject (g "A"))
  | 0x0e => Some (k10x, fun _ => DReturnVoid)
  | 0x0f => Some (k11x, fun g => DReturn (g "A"))
  | 0x10 => Some (k11x, fun g => DReturnWide (g "A"))
  | 0x11 => Some (k11x, fun g => DReturnObject (g "A"))
  | 0x12 => Some (k11n, fun g => DConst (g "A") (g "B"))
  | 0x13 => Some (k21s, fun g => DConst (g "A") (g "B"))
  | 0x14 => Some (k31i, fun g => DConst (g "A") (g "B"))
  | 0x16 => Some (k21s, fun g => DConstWide (g "A") (u64 (s32 (g "B"))))
  | 0x17 => Some (k31i, fun g => DConstWide (g "A") (u64 (s32 (g "B"))))
  | 0x1f => Some (k21c, fun g => DCheckCast (g "A") (g "B"))
  | 0x23 => Some (k22c, fun g => DNewArray (g "A") (g "B") (g "C"))
  | 0x38 => Some (k21t, fun g => DIfEqz (g "A") (s32 (g "B")))
  | 0x39 => Some (k21t, fun g => DIfNez (g "A") (s32 (g "B")))
  | 0x4d => Some (k23x, fun g => DAputObject (g "A") (g "B") (g "C"))
  | 0x62 => Some (k21c, fun g => DSgetObject (g "A") (g "B"))
  | _ =>
      match call_of op 0x6e, call_of op 0x74 with
      | Some k, _ =>
          Some (k35c, fun g => DInvoke k (g "B") (take (Z.to_nat (g "A")) [g "C"; g "D"; g "E"; g "F"; g "G"]))
      | _, Some k =>
          Some (k3rc, fun g => DInvoke k (g "B") (map (fun i => g "C" + Z.of_nat i) (seq 0 (Z.to_nat (g "A")))))
      | _, _ => None
      end
  end%char.

(** A decoded instruction and its units. *)
Definition decode_insn (code : list Z) : option (dinsn * nat) :=
  u ← head code;
  '(f, mk) ← dinsn_of (u mod 256);
  if (List.length (layout f) <=? List.length code)%nat then Some (mk (fun c => field c f code), List.length (layout f)) else None.

(** ** Execution *)

(** [answer] is what a call returns or throws; it may change arrays. *)
Record env := {
  env_refs : refs;
  static_field : fref -> option obj;
  foreign_instance : Z -> list byte -> bool;
  answer : mref -> list value -> list (list obj) -> (option value + exn) * list (list obj)
}.

Record machine := {
  frame : list reg; heap : list (list obj); result : option value; trace : list (mref * list value * list (list obj))
}.
Inductive outcome := Returned (v : option value) | Threw (e : exn).

Section Run.
Context (E : env).

Definition object_class : list byte := lit "Ljava/lang/Object;".
Definition is_instance (o : obj) (t : list byte) : bool :=
  match o with
  | Null => true
  | Boxed c _ => bool_decide (t = c) || bool_decide (t = object_class)
  | Array _ => bool_decide (t = lit "[Ljava/lang/Object;") || bool_decide (t = object_class)
  | Foreign id => bool_decide (t = object_class) || (negb (is_wrapper t) && foreign_instance E id t)
  end.

Definition read_word (s : machine) (a : Z) : option Z :=
  match frame s !! Z.to_nat a with Some (Word w) => Some w | _ => None end.
Definition read_ref (s : machine) (a : Z) : option obj :=
  match frame s !! Z.to_nat a with
  | Some (Ref o) => Some o
  | Some (Word w) => if w =? 0 then Some Null else None
  | _ => None
  end.
Definition read_wide (s : machine) (a : Z) : option Z :=
  match frame s !! Z.to_nat a, frame s !! S (Z.to_nat a) with
  | Some (WideLow w), Some (WideHigh w') => if w =? w' then Some w else None
  | _, _ => None
  end.

(** A write outside the frame is stuck. *)
Definition write (v : value) (a : Z) (s : machine) : option machine :=
  let n := Z.to_nat a in
  if (n + length (regs_of v) <=? length (frame s))%nat then
    Some {| frame := list_inserts n (regs_of v) (frame s); heap := heap s; result := None; trace := trace s |}
  else None.

(** The values of a call's argument registers, by the types of the parameters. *)
Fixpoint arguments (s : machine) (types : list (list byte)) (rs : list Z) : option (list value) :=
  match types, rs with
  | [], [] => Some []
  | t :: types, r :: rs =>
      if is_wide_type t then
        match rs with
        | r2 :: rs => if r2 =? r + 1 then w ← read_wide s r; vs ← arguments s types rs; Some (VWide w :: vs) else None
        | [] => None
        end
      else if is_ref_type t then o ← read_ref s r; vs ← arguments s types rs; Some (VRef o :: vs)
      else w ← read_word s r; vs ← arguments s types rs; Some (VWord w :: vs)
  | _, _ => None
  end.

Definition returns (v : option value) (s : machine) : machine :=
  {| frame := frame s; heap := heap s; result := v; trace := trace s |}.

(** A call the environment answers. *)
Definition ask (m : mref) (args : list value) (s : machine) : machine * option exn :=
  let '(r, h) := answer E m args (heap s) in
  let v := match r with inl v => v | inr _ => None end in
  ({| frame := frame s; heap := h; result := v; trace := trace s ++ [(m, args, heap s)] |},
   match r with inl _ => None | inr e => Some e end).

Definition call (k : call_kind) (m : mref) (args : list value) (s : machine) : option (machine * option exn) :=
  match k, args with
  | Static, _ =>
      if boxes m then
        match args with
        | [VWord w] | [VWide w] => Some (returns (Some (VRef (Boxed (mr_class m) w))) s, None)
        | _ => None
        end
      else
        Some (ask m args s)
  | _, VRef Null :: _ => Some (s, Some NullPointer)
  | _, VRef o :: rest =>
      if unboxes m then
        match o, rest with
        | Boxed c w, [] =>
            if bool_decide (c = mr_class m) then
              Some (returns (Some (if is_wide_type (mr_return m) then VWide w else VWord w)) s, None)
            else None
        | _, _ => None
        end
      else
        Some (ask m args s)
  | _, _ => None
  end.

Inductive progress := Next (pc : nat) (s : machine) | Done (o : outcome) (s : machine).

Definition branch (pc next : nat) (taken : bool) (target : Z) (s : machine) : option progress :=
  let t := if taken then Z.of_nat pc + target else Z.of_nat next in
  if 0 <=? t then Some (Next (Z.to_nat t) s) else None.

Definition exec_insn (pc next : nat) (i : dinsn) (s : machine) : option progress :=
  match i with
  | DMove a b => w ← read_word s b; s ← write (VWord w) a s; Some (Next next s)
  | DMoveWide a b => w ← read_wide s b; s ← write (VWide w) a s; Some (Next next s)
  | DMoveObject a b => o ← read_ref s b; s ← write (VRef o) a s; Some (Next next s)
  | DMoveResult a => match result s with Some (VWord w) => s ← write (VWord w) a s; Some (Next next s) | _ => None end
  | DMoveResultWide a => match result s with Some (VWide w) => s ← write (VWide w) a s; Some (Next next s) | _ => None end
  | DMoveResultObject a => match result s with Some (VRef o) => s ← write (VRef o) a s; Some (Next next s) | _ => None end
  | DReturnVoid => Some (Done (Returned None) s)
  | DReturn a => w ← read_word s a; Some (Done (Returned (Some (VWord w))) s)
  | DReturnWide a => w ← read_wide s a; Some (Done (Returned (Some (VWide w))) s)
  | DReturnObject a => o ← read_ref s a; Some (Done (Returned (Some (VRef o))) s)
  | DConst a w => s ← write (VWord w) a s; Some (Next next s)
  | DConstWide a w => s ← write (VWide w) a s; Some (Next next s)
  | DCheckCast a t =>
      o ← read_ref s a; t ← ref_type (env_refs E) t;
      if is_instance o t then Some (Next next s) else Some (Done (Threw ClassCast) s)
  | DNewArray a size t =>
      n ← read_word s size; t ← ref_type (env_refs E) t;
      if bool_decide (t = lit "[Ljava/lang/Object;") then
        if s32 n <? 0 then Some (Done (Threw NegativeArraySize) s)
        else
          s ← write (VRef (Array (length (heap s)))) a
            {| frame := frame s; heap := heap s ++ [repeat Null (Z.to_nat n)]; result := result s; trace := trace s |};
          Some (Next next s)
      else None
  | DAputObject v array index =>
      o ← read_ref s v; x ← read_ref s array; i ← read_word s index;
      match x with
      | Null => Some (Done (Threw NullPointer) s)
      | Array a =>
          l ← heap s !! a;
          if (Z.to_nat i <? length l)%nat then
            Some (Next next {| frame := frame s; heap := <[a := <[Z.to_nat i := o]> l]> (heap s); result := None; trace := trace s |})
          else Some (Done (Threw ArrayIndex) s)
      | _ => None
      end
  | DSgetObject a f => f ← ref_field (env_refs E) f; o ← static_field E f; s ← write (VRef o) a s; Some (Next next s)
  | DIfEqz a target => w ← read_word s a; branch pc next (w =? 0) target s
  | DIfNez a target => w ← read_word s a; branch pc next (negb (w =? 0)) target s
  | DInvoke k m rs =>
      m ← ref_method (env_refs E) m;
      args ← arguments s (match k with Static => [] | _ => [mr_class m] end ++ mr_params m) rs;
      '(s, e) ← call k m args s;
      match e with None => Some (Next next s) | Some e => Some (Done (Threw e) s) end
  end.

Fixpoint run_code (fuel : nat) (code : list Z) (pc : nat) (s : machine) : option (outcome * machine) :=
  match fuel with
  | O => None
  | S fuel =>
      '(i, n) ← decode_insn (drop pc code);
      p ← exec_insn pc (pc + n) i s;
      match p with
      | Next pc s => run_code fuel code pc s
      | Done o s => Some (o, s)
      end
  end.

(** A call of the method: its arguments are in the last registers of the frame. *)
Definition invoke_method (fuel : nat) (c : Code) (args : list value) (h : list (list obj)) : option (outcome * machine) :=
  let ins := concat (map regs_of args) in
  if Z.of_nat (length ins) =? ins_count c then
    run_code fuel (instructions c) 0
      {| frame := repeat Undefined (Z.to_nat (registers c - ins_count c)) ++ ins; heap := h; result := None; trace := [] |}
  else None.
End Run.

Section Names.
Context (d : DexBuilder) (Hok : builder_ok d).
Local Abbreviation ir := (dex_file_ d).
Local Abbreviation n := (nodes (dex_file_ d)).

Lemma string_named s i : strings_ d !! s = Some i -> string_at n i = s.
Proof. intros H. destruct (bo_string _ Hok _ _ H) as (_ & Hs & data & Hd & Hn). by eapply string_at_data. Qed.

Lemma type_named s t : types_by_descriptor_ d !! s = Some t -> type_name ir t = s.
Proof.
  intros H. destruct (bo_type _ Hok _ _ H) as (_ & j & c & Hn & Hj). unfold type_name, type_node. rewrite Hn. cbn.
  by apply string_named.
Qed.

Lemma types_named ss ts : Forall2 (fun s x => types_by_descriptor_ d !! s = Some x) ss ts -> map (type_name ir) ts = ss.
Proof. induction 1 as [|s t ss ts H _ IH]; [done|]. cbn. by rewrite IH, (type_named _ _ H). Qed.

Lemma ref_type_named s t : types_by_descriptor_ d !! s = Some t -> ref_type (original_refs ir) t = Some s.
Proof.
  intros H. cbn. unfold in_table. rewrite bool_decide_true by apply (bo_type _ Hok _ _ H). by rewrite (type_named _ _ H).
Qed.

Lemma method_named c s r ps i j : method_id_map_ d !! (c, s, (r, ps)) = Some (i, j) ->
  method_name ir i = {| mr_class := c; mr_name := s; mr_params := ps; mr_return := r |}.
Proof.
  intros H. destruct (bo_method _ Hok _ _ _ _ _ H) as (_ & _ & ci & si & ki & Hn & Hc & Hs & Hk).
  destruct (bo_proto _ Hok _ _ _ Hk) as (_ & sh & ri & l & Hp & Hr & _ & Hl).
  unfold method_name, method_node, proto_node. rewrite Hn. cbn. rewrite Hp. cbn.
  by rewrite (type_named _ _ Hc), (string_named _ _ Hs), (types_named _ _ Hl), (type_named _ _ Hr).
Qed.

Lemma ref_method_named c s r ps i j : method_id_map_ d !! (c, s, (r, ps)) = Some (i, j) ->
  ref_method (original_refs ir) i = Some {| mr_class := c; mr_name := s; mr_params := ps; mr_return := r |}.
Proof.
  intros H. cbn. unfold in_table. rewrite bool_decide_true by apply (bo_method _ Hok _ _ _ _ _ H).
  by rewrite (method_named _ _ _ _ _ _ H).
Qed.

Lemma ref_field_named p s i : field_decls_by_key_ d !! (p, s) = Some i ->
  exists t, ref_field (original_refs ir) i = Some {| fr_class := p; fr_name := s; fr_type := t |}.
Proof.
  intros H. destruct (bo_field _ Hok _ _ _ H) as (Hi & pi & si & ti & ty & Hn & Hp & Hs & Ht). exists ty. cbn.
  unfold in_table. rewrite bool_decide_true by exact Hi. unfold field_name, field_node. rewrite Hn. cbn.
  by rewrite (type_named _ _ Hp), (string_named _ _ Hs), (type_named _ _ Ht).
Qed.

(** Indexes are below the number of nodes. *)
Lemma method_bound k i j : method_id_map_ d !! k = Some (i, j) -> 0 <= i < Z.of_nat (size d).
Proof.
  destruct k as [[c s] pk]. intros H. destruct (bo_method _ Hok _ _ _ _ _ H) as (_ & Hi & _).
  pose proof (positions_bound _ _ (bo_positions _ Hok MethodItem) Hi). cbn in *. unfold size. lia.
Qed.
Lemma type_bound s i : types_by_descriptor_ d !! s = Some i -> 0 <= i < Z.of_nat (size d).
Proof.
  intros H. destruct (bo_type _ Hok _ _ H) as (Hi & _).
  pose proof (positions_bound _ _ (bo_positions _ Hok TypeItem) Hi). cbn in *. unfold size. lia.
Qed.
Lemma field_bound k i : field_decls_by_key_ d !! k = Some i -> 0 <= i < Z.of_nat (size d).
Proof.
  destruct k as [p s]. intros H. destruct (bo_field _ Hok _ _ _ H) as (Hi & _).
  pose proof (positions_bound _ _ (bo_positions _ Hok FieldItem) Hi). cbn in *. unfold size. lia.
Qed.
End Names.
