(* ===== verification/MethodBuilderSpec.v ===== *)
(** What the method builder encodes: the units of each virtual instruction decode,
    by the documented formats, to the instructions it stands for. *)
From stdpp Require Import strings.
From Stdlib Require Import Ascii String.
From S2P Require Import Prelude Leb128 SlicerBuffer DexBytecode DexIsa DexCode DexIr DexBuilder MethodBuilder DexBuilderSpec DalvikSem.

(** ** Units *)

Definition unit2 (a op : Z) : Z := a * 256 + op.

Lemma unit2_lor a op : 0 <= a < 256 -> 0 <= op < 256 -> u16 (Z.lor (Z.shiftl a 8) op) = unit2 a op.
Proof.
  intros Ha Ho. unfold unit2. rewrite Z.lor_comm, (lor_add _ _ 8) by lia. change (2 ^ 8) with 256.
  rewrite Z.add_comm. apply trunc_small. lia.
Qed.

Lemma unit2_is a op : 0 <= a < 256 -> 0 <= op < 256 -> is_unit (unit2 a op).
Proof. unfold is_unit, unit2. lia. Qed.

(** A register list of units that decode to [l] whatever follows them. *)
Inductive insns : list Z -> list dinsn -> Prop :=
| insns_nil : insns [] []
| insns_cons u us i l : (forall rest, decode_insn (u ++ rest) = Some (i, List.length u)) -> insns us l -> insns (u ++ us) (i :: l).

Lemma insns_app us l us' l' : insns us l -> insns us' l' -> insns (us ++ us') (l ++ l').
Proof. induction 1 as [|u us i l Hd _ IH]; intros H; [done|]. rewrite <- app_assoc. cbn. constructor; [done|by apply IH]. Qed.

Lemma insns_one u i : (forall rest, decode_insn (u ++ rest) = Some (i, List.length u)) -> insns u [i].
Proof. intros H. rewrite <- (app_nil_r u). by constructor; [|constructor]. Qed.

Lemma unit2_op a op : 0 <= op < 256 -> unit2 a op mod 256 = op.
Proof. intros. unfold unit2. rewrite Z.add_comm, Z.mod_add by lia. apply Z.mod_small. lia. Qed.

Lemma unit2_AA a op : 0 <= a < 256 -> 0 <= op < 256 -> nibble (unit2 a op) 2 + 16 * nibble (unit2 a op) 3 = a.
Proof.
  intros Ha Ho. rewrite <- shiftr_8 by by apply unit2_is. rewrite Z.shiftr_div_pow2 by lia. unfold unit2.
  change (2 ^ 8) with 256. rewrite Z.add_comm, Z.div_add by lia. rewrite Z.div_small by lia. lia.
Qed.

(** [b|a|op] is a unit of the first kind. *)
Lemma unit2_BA b a op : 0 <= a < 16 -> 0 <= b < 16 -> 0 <= op < 256 ->
  nibble (unit2 (16 * b + a) op) 2 = a /\ nibble (unit2 (16 * b + a) op) 3 = b.
Proof.
  intros Ha Hb Ho. pose proof (unit2_AA (16 * b + a) op ltac:(lia) Ho) as E.
  pose proof (nibbles _ (unit2_is (16 * b + a) op ltac:(lia) Ho)) as (_ & _ & _ & N2 & N3). lia.
Qed.

Lemma u4_lor b a op : 0 <= a < 16 -> 0 <= b < 16 -> 0 <= op < 256 ->
  u16 (Z.lor (Z.lor (Z.shiftl b 12) (Z.shiftl a 8)) op) = unit2 (16 * b + a) op.
Proof.
  intros Ha Hb Ho.
  assert (E : Z.lor (Z.shiftl b 12) (Z.shiftl a 8) = Z.shiftl (16 * b + a) 8).
  { change 12 with (4 + 8). rewrite <- Z.shiftl_shiftl, <- Z.shiftl_lor by lia. f_equal.
    rewrite Z.lor_comm, lor_add by lia. change (2 ^ 4) with 16. lia. }
  rewrite E. apply unit2_lor; lia.
Qed.

Lemma decode_at u us f mk rest op : u mod 256 = op -> dinsn_of op = Some (f, mk) ->
  List.length (layout f) = List.length (u :: us) ->
  decode_insn ((u :: us) ++ rest) = Some (mk (fun c => field c f ((u :: us) ++ rest)), List.length (u :: us)).
Proof.
  intros Hu Hd Hl. unfold decode_insn. cbn [app head mbind option_bind]. rewrite Hu, Hd. cbn [mbind option_bind].
  rewrite Hl. destruct (Nat.leb_spec (List.length (u :: us)) (List.length (u :: us ++ rest))) as [|H]; [done|].
  cbn in H. rewrite List.length_app in H. lia.
Qed.

Lemma insns_11x a op mk : 0 <= a < 256 -> 0 <= op < 256 -> dinsn_of op = Some (k11x, fun g => mk (g "A"%char)) ->
  insns [unit2 a op] [mk a].
Proof.
  intros Ha Ho Hd. apply insns_one. intros rest. erewrite decode_at; [|by apply unit2_op|exact Hd|reflexivity].
  cbv beta. do 2 f_equal. f_equal. unfold field, raw_field. cbn [app]. layout_eqs. pose proof (unit2_AA a op Ha Ho). lia.
Qed.

Lemma insns_21c a op b mk : 0 <= a < 256 -> 0 <= op < 256 -> is_unit b ->
  dinsn_of op = Some (k21c, fun g => mk (g "A"%char) (g "B"%char)) -> insns [unit2 a op; b] [mk a b].
Proof.
  intros Ha Ho Hb Hd. apply insns_one. intros rest. erewrite decode_at; [|by apply unit2_op|exact Hd|reflexivity].
  cbv beta. do 2 f_equal. pose proof (unit2_AA a op Ha Ho). pose proof (nibbles b Hb).
  f_equal; unfold field, raw_field; cbn [app]; layout_eqs; lia.
Qed.

Lemma insns_22c b a op c mk : 0 <= a < 16 -> 0 <= b < 16 -> 0 <= op < 256 -> is_unit c ->
  dinsn_of op = Some (k22c, fun g => mk (g "A"%char) (g "B"%char) (g "C"%char)) -> insns [unit2 (16 * b + a) op; c] [mk a b c].
Proof.
  intros Ha Hb Ho Hc Hd. apply insns_one. intros rest. erewrite decode_at; [|by apply unit2_op|exact Hd|reflexivity].
  cbv beta. do 2 f_equal. pose proof (unit2_BA b a op Ha Hb Ho). pose proof (nibbles c Hc).
  f_equal; unfold field, raw_field; cbn [app]; layout_eqs; lia.
Qed.

Lemma insns_23x a b c op mk : 0 <= a < 256 -> 0 <= b < 256 -> 0 <= c < 256 -> 0 <= op < 256 ->
  dinsn_of op = Some (k23x, fun g => mk (g "A"%char) (g "B"%char) (g "C"%char)) -> insns [unit2 a op; unit2 c b] [mk a b c].
Proof.
  intros Ha Hb Hc Ho Hd. apply insns_one. intros rest. erewrite decode_at; [|by apply unit2_op|exact Hd|reflexivity].
  cbv beta. do 2 f_equal. pose proof (unit2_AA a op Ha Ho). pose proof (unit2_AA c b Hc Hb).
  pose proof (nibbles (unit2 c b) (unit2_is c b Hc Hb)) as [E _]. unfold unit2 at 1 in E.
  f_equal; unfold field, raw_field; cbn [app]; layout_eqs; lia.
Qed.

Lemma insns_3rc n op m c k : 0 <= n < 256 -> 0 <= op < 256 -> is_unit m -> is_unit c ->
  dinsn_of op = Some (k3rc, fun g => DInvoke k (g "B"%char)
    (map (fun i => g "C"%char + Z.of_nat i) (seq 0 (Z.to_nat (g "A"%char))))) ->
  insns [unit2 n op; m; c] [DInvoke k m (map (fun i => c + Z.of_nat i) (seq 0 (Z.to_nat n)))].
Proof.
  intros Hn Ho Hm Hc Hd. apply insns_one. intros rest. erewrite decode_at; [|by apply unit2_op|exact Hd|reflexivity].
  cbv beta. pose proof (unit2_AA n op Hn Ho). pose proof (nibbles m Hm). pose proof (nibbles c Hc).
  assert (E : forall rest, field "A"%char k3rc (unit2 n op :: m :: c :: rest) = n /\
    field "B"%char k3rc (unit2 n op :: m :: c :: rest) = m /\ field "C"%char k3rc (unit2 n op :: m :: c :: rest) = c)
    by (intros; unfold field, raw_field; layout_eqs; lia).
  cbn [app]. by destruct (E rest) as (-> & -> & ->).
Qed.

(** A register list: count, [G], index, [F E D C]. *)
Definition regs_unit (c d e f : Z) : Z := f * 4096 + e * 256 + d * 16 + c.
Lemma regs_unit_spec c d e f : 0 <= c < 16 -> 0 <= d < 16 -> 0 <= e < 16 -> 0 <= f < 16 ->
  let u := regs_unit c d e f in nibble u 0 = c /\ nibble u 1 = d /\ nibble u 2 = e /\ nibble u 3 = f.
Proof.
  intros Hc Hd He Hf u. assert (is_unit u) as Hu by (unfold is_unit, u, regs_unit; lia).
  pose proof (nibbles u Hu) as (E & N). unfold u at 1, regs_unit in E. lia.
Qed.
Lemma regs_unit_lor c d e f : 0 <= c < 16 -> 0 <= d < 16 -> 0 <= e < 16 -> 0 <= f < 16 ->
  u16 (Z.lor (Z.lor (Z.lor (Z.shiftl f 12) (Z.shiftl e 8)) (Z.shiftl d 4)) c) = regs_unit c d e f.
Proof.
  intros Hc Hd He Hf.
  assert (E : Z.lor (Z.lor (Z.lor (Z.shiftl f 12) (Z.shiftl e 8)) (Z.shiftl d 4)) c =
    c + Z.shiftl (d + Z.shiftl (e + Z.shiftl f 4) 4) 4).
  { rewrite !Z.shiftl_mul_pow2 by lia.
    rewrite <- (lor_add e f 4), <- (lor_add d _ 4), <- (lor_add c _ 4) by lia.
    rewrite <- !Z.shiftl_mul_pow2 by lia. rewrite !Z.shiftl_lor, !Z.shiftl_shiftl by lia.
    change (4 + 4) with 8. change (4 + 8) with 12. bitwise. }
  rewrite E, !Z.shiftl_mul_pow2 by lia. change (2 ^ 4) with 16. unfold regs_unit.
  replace (c + (d + (e + f * 16) * 16) * 16) with (f * 4096 + e * 256 + d * 16 + c) by lia.
  apply trunc_small. lia.
Qed.

Lemma insns_35c n op m c d e f g k : 0 <= n <= 5 -> 0 <= op < 256 -> is_unit m ->
  0 <= c < 16 -> 0 <= d < 16 -> 0 <= e < 16 -> 0 <= f < 16 -> 0 <= g < 16 ->
  dinsn_of op = Some (k35c, fun x => DInvoke k (x "B"%char)
    (take (Z.to_nat (x "A"%char)) [x "C"; x "D"; x "E"; x "F"; x "G"]%char)) ->
  insns [unit2 (16 * n + g) op; m; regs_unit c d e f] [DInvoke k m (take (Z.to_nat n) [c; d; e; f; g])].
Proof.
  intros Hn Ho Hm Hc Hd He Hf Hg Hop. apply insns_one. intros rest.
  erewrite decode_at; [|by apply unit2_op|exact Hop|reflexivity]. cbv beta.
  pose proof (unit2_BA n g op Hg ltac:(lia) Ho). pose proof (nibbles m Hm). pose proof (regs_unit_spec c d e f Hc Hd He Hf).
  cbv zeta in *.
  assert (E : forall rest, let code := unit2 (16 * n + g) op :: m :: regs_unit c d e f :: rest in
    field "A"%char k35c code = n /\ field "B"%char k35c code = m /\ field "C"%char k35c code = c /\
    field "D"%char k35c code = d /\ field "E"%char k35c code = e /\ field "F"%char k35c code = f /\ field "G"%char k35c code = g)
    by (intros; unfold code, field, raw_field; layout_eqs; lia).
  cbn [app]. by destruct (E rest) as (-> & -> & -> & -> & -> & -> & ->).
Qed.

Lemma insns_10x op i : 0 <= op < 256 -> dinsn_of op = Some (k10x, fun _ => i) -> insns [op] [i].
Proof.
  intros Ho Hd. apply insns_one. intros rest. by rewrite (decode_at op [] k10x (fun _ => i) rest op) by (done || by apply Z.mod_small).
Qed.

Lemma insns_11n b a op mk : 0 <= a < 16 -> 0 <= b < 8 -> 0 <= op < 256 ->
  dinsn_of op = Some (k11n, fun g => mk (g "A"%char) (g "B"%char)) -> insns [unit2 (16 * b + a) op] [mk a b].
Proof.
  intros Ha Hb Ho Hd. apply insns_one. intros rest. erewrite decode_at; [|by apply unit2_op|exact Hd|reflexivity].
  cbv beta. do 2 f_equal. pose proof (unit2_BA b a op Ha ltac:(lia) Ho) as [E2 E3].
  f_equal; unfold field, raw_field; cbn [app signed_width]; layout_eqs; [lia|]. rewrite E3.
  replace (0 + 1 * b + _) with b by lia. rewrite sext_small by lia. apply trunc_small. lia.
Qed.

Lemma insns_21s a op b mk : 0 <= a < 256 -> 0 <= op < 256 -> 0 <= b < 32768 ->
  dinsn_of op = Some (k21s, fun g => mk (g "A"%char) (g "B"%char)) -> insns [unit2 a op; b] [mk a b].
Proof.
  intros Ha Ho Hb Hd. apply insns_one. intros rest. erewrite decode_at; [|by apply unit2_op|exact Hd|reflexivity].
  cbv beta. do 2 f_equal. pose proof (unit2_AA a op Ha Ho). assert (is_unit b) as Hu by (unfold is_unit; lia).
  pose proof (nibbles b Hu) as (E & _).
  f_equal; unfold field, raw_field; cbn [app signed_width]; layout_eqs; [lia|].
  match goal with |- u32 (sext 16 ?x) = _ => replace x with b by lia end. rewrite sext_small by lia. apply trunc_small. lia.
Qed.

(** ** The encoder *)

Section Encoder.
Context (ndebug : bool).

(** [i] is encoded, in a method of [n] local registers, as the instructions [l], and
    counts [args] arguments. *)
Definition encodes (n : Z) (i : Instruction) (l : list dinsn) (args : Z) : Prop :=
  forall m, NumRegisters m = n -> 0 <= max_args_ m -> exists us, insns us l /\
    EncodeInstruction ndebug i m =
      Some (tt, with_max_args (Z.max (max_args_ m) args) (with_buffer (buffer_ m ++ us) m)).

Lemma run_assert {A} b (f : unit -> M MethodBuilder A) m : b = true -> (assert ndebug b ≫= f) m = f tt m.
Proof. intros ->. unfold assert, mbind at 1, M_bind, lift. by rewrite SLICER_CHECK_true. Qed.
Lemma run_register {A} v r (f : Z -> M MethodBuilder A) m : RegisterValue_of ndebug m v = Some r -> (RegisterValue ndebug v ≫= f) m = f r m.
Proof. intros H. unfold RegisterValue, mbind, M_bind, get, lift. cbn [mbind option_bind]. by rewrite H. Qed.
Lemma run_some {A B} a (f : A -> M MethodBuilder B) m : (lift (Some a) ≫= f) m = f a m.
Proof. done. Qed.
Lemma run_assoc {A B C} (a : M MethodBuilder A) (f : A -> M MethodBuilder B) (g : B -> M MethodBuilder C) m :
  ((a ≫= f) ≫= g) m = (a ≫= fun x => f x ≫= g) m.
Proof. unfold mbind, M_bind. by destruct (a m) as [[x m']|]. Qed.

Lemma register_local m k : RegisterValue_of ndebug m (Local_ k) = Some k.
Proof. done. Qed.
Lemma register_parameter m n k : NumRegisters m = n -> 0 <= k + n < 2 ^ 64 -> RegisterValue_of ndebug m (Parameter_ k) = Some (k + n).
Proof. intros <- H. unfold RegisterValue_of. cbn. by rewrite trunc_small. Qed.

Lemma push_eq u v m : u16 u = v -> push_back u m = Some (tt, with_buffer (buffer_ m ++ [v]) m).
Proof. by intros <-. Qed.
Lemma push_more u v l (k : M MethodBuilder unit) m : u16 u = v ->
  k (with_buffer (buffer_ m ++ [v]) m) = Some (tt, with_buffer ((buffer_ m ++ [v]) ++ l) m) ->
  (push_back u ;; k) m = Some (tt, with_buffer (buffer_ m ++ v :: l) m).
Proof. intros Hu Hk. unfold mbind, M_bind. rewrite (push_eq u v m Hu). cbn [mbind option_bind]. by rewrite Hk, <- app_assoc. Qed.
Lemma push2_eq u u' v v' m : u16 u = v -> u16 u' = v' ->
  (push_back u ;; push_back u') m = Some (tt, with_buffer (buffer_ m ++ [v; v']) m).
Proof. intros H H'. apply push_more; [done|]. by rewrite (push_eq _ _ _ H'). Qed.
Lemma push3_eq u u' u'' v v' v'' m : u16 u = v -> u16 u' = v' -> u16 u'' = v'' ->
  (push_back u ;; push_back u' ;; push_back u'') m = Some (tt, with_buffer (buffer_ m ++ [v; v'; v'']) m).
Proof. intros H H' H''. apply push_more; [done|]. by rewrite (push2_eq _ _ _ _ _ H' H''). Qed.

(** The formats on operands in range. *)
Lemma u8_small a : 0 <= a < 256 -> u8 a = a.
Proof. intros H. by apply trunc_small. Qed.
Lemma u16_small a : is_unit a -> u16 a = a.
Proof. intros H. by apply trunc_small. Qed.

Lemma Encode11x_eq op a m : 0 <= a < 256 -> 0 <= op < 256 ->
  Encode11x op a m = Some (tt, with_buffer (buffer_ m ++ [unit2 a op]) m).
Proof. intros. unfold Encode11x. rewrite u8_small by done. apply push_eq. by apply unit2_lor. Qed.

Lemma Encode21c_eq op a b m : 0 <= a < 256 -> 0 <= op < 256 -> is_unit b ->
  Encode21c op a b m = Some (tt, with_buffer (buffer_ m ++ [unit2 a op; b]) m).
Proof.
  intros. unfold Encode21c. rewrite u8_small by done. apply push2_eq; [by apply unit2_lor|]. by rewrite !u16_small by (rewrite ?u16_small; done).
Qed.

Lemma Encode22c_eq op a b c m : 0 <= a < 16 -> 0 <= b < 16 -> 0 <= op < 256 -> is_unit c ->
  Encode22c ndebug op a b c m = Some (tt, with_buffer (buffer_ m ++ [unit2 (16 * b + a) op; c]) m).
Proof.
  intros. unfold Encode22c. rewrite !u8_small by lia. unfold IsShortRegister. rewrite !run_assert by lia.
  apply push2_eq; [by apply u4_lor|]. by rewrite !u16_small by (rewrite ?u16_small; done).
Qed.

Lemma Encode23x_eq op a b c m : 0 <= a < 256 -> 0 <= b < 256 -> 0 <= c < 256 -> 0 <= op < 256 ->
  Encode23x op a b c m = Some (tt, with_buffer (buffer_ m ++ [unit2 a op; unit2 c b]) m).
Proof. intros. unfold Encode23x. rewrite !u8_small by done. apply push2_eq; by apply unit2_lor. Qed.

Lemma Encode3rc_eq op n i c m : 0 <= n < 255 -> 0 <= op < 256 -> is_unit i -> is_unit c ->
  Encode3rc ndebug op n i c m = Some (tt, with_buffer (buffer_ m ++ [unit2 n op; i; c]) m).
Proof.
  intros. unfold Encode3rc. rewrite run_assert by lia. apply push3_eq; [apply unit2_lor; lia|..];
    by rewrite !u16_small by (rewrite ?u16_small; done).
Qed.

Lemma Encode35c_eq op n i c d e f g m : 0 <= n < 5 -> 0 <= op < 256 -> is_unit i ->
  0 <= c < 16 -> 0 <= d < 16 -> 0 <= e < 16 -> 0 <= f < 16 -> 0 <= g < 16 ->
  Encode35c ndebug op n i c d e f g m = Some (tt, with_buffer (buffer_ m ++ [unit2 (16 * n + g) op; i; regs_unit c d e f]) m).
Proof.
  intros. unfold Encode35c. rewrite !u8_small by lia. unfold IsShortRegister. rewrite !run_assert by lia.
  apply push3_eq; [apply u4_lor; lia| |apply regs_unit_lor; lia]. by rewrite !u16_small by (rewrite ?u16_small; done).
Qed.

Lemma run_opt {A B} (o : option A) a (f : A -> M MethodBuilder B) m : o = Some a -> (lift o ≫= f) m = f a m.
Proof. by intros ->. Qed.

(** Runs an encoder on a given instruction: asserts, operands, and the tests that
    the instruction decides. *)
Ltac decided :=
  match goal with |- context [if ?b then _ else _] =>
    let v := eval vm_compute in b in
    match v with true => idtac | false => idtac end; change b with v; cbv iota
  end.
Ltac register := first [by apply register_local | apply register_parameter; [done|lia]].
Ltac enc :=
  repeat first
    [ progress cbv beta
    | rewrite run_assert by first [reflexivity | lia]
    | erewrite run_opt by reflexivity
    | erewrite run_register by register
    | decided ].
Ltac enc_start H := intros H; intros m Hn Hm; unfold EncodeInstruction; cbn [opcode_ OpWithArgs OpWithArgsWide OpNoArgs].
Ltac enc_done :=
  eexists; split; [|first [reflexivity | unfold with_max_args; cbn; by rewrite Z.max_l by lia]].

Ltac rng := first [lia | done | unfold is_unit; lia | vm_compute; split; congruence].
Ltac settle := unfold with_max_args; cbn; by rewrite Z.max_l by lia.

Lemma encodes_const n k : 0 <= k < 32768 -> encodes n (OpWithArgs kMove (Some (Local_ 0)) [Immediate k]) [DConst 0 k] 0.
Proof.
  intros Hk m Hn Hm. unfold EncodeInstruction. cbn [opcode_ OpWithArgs]. unfold EncodeMove, arg, dest. enc.
  cbn [value_ Immediate]. change (0 <? 16) with true. cbn [andb].
  destruct (Z.ltb_spec k 8).
  - unfold Encode11n. cbv zeta. change (u8 0) with 0. assert (s8 k = k) as -> by (apply sext_small; lia).
    rewrite !run_assert by lia. exists [unit2 (16 * k + 0) OP_CONST_4]. split; [by apply insns_11n; rng|].
    rewrite (push_eq _ (unit2 (16 * k + 0) OP_CONST_4)); [settle|].
    change 0xf with (Z.ones 4). rewrite Z.land_ones, Z.mod_small by lia. by apply u4_lor; rng.
  - assert ((k <=? 65535) = true) as -> by lia. unfold Encode21s. rewrite u16_small by rng.
    rewrite run_assert by lia. rewrite Encode21c_eq by rng.
    exists [unit2 0 OP_CONST_16; k]. split; [by apply insns_21s; rng|settle].
Qed.

Lemma encodes_const_wide n : encodes n (OpWithArgs kMoveWide (Some (Local_ 0)) [Immediate 0]) [DConstWide 0 0] 0.
Proof.
  intros m Hn Hm. unfold EncodeInstruction. cbn [opcode_ OpWithArgs]. unfold EncodeMove, arg, dest. enc.
  cbn [value_ Immediate]. change (0 <=? 65535) with true. cbv iota. enc.
  unfold Encode21s. rewrite u16_small by rng. rewrite run_assert by lia. rewrite Encode21c_eq by rng.
  exists [unit2 0 OP_CONST_WIDE_16; 0]. split; [|settle].
  by apply (insns_21s 0 OP_CONST_WIDE_16 0 (fun a b => DConstWide a (u64 (s32 b)))); rng.
Qed.
Lemma encodes_new_array n t : is_unit t ->
  encodes n (OpWithArgs kNewArray (Some (Local_ 1)) [Local_ 0; Type__ t]) [DNewArray 1 0 t] 0.
Proof.
  intros Ht m Hn Hm. unfold EncodeInstruction. cbn [opcode_ OpWithArgs]. unfold EncodeNewArray, arg, dest. enc.
  cbn [value_ Type__]. rewrite Encode22c_eq by rng. exists [unit2 (16 * 0 + 1) OP_NEW_ARRAY; t].
  split; [by apply (insns_22c 0 1 OP_NEW_ARRAY t DNewArray); rng|settle].
Qed.

(** The register operand is a byte: a register beyond 255 wraps. *)
Lemma Encode23x_wraps op a b c m : 0 <= b < 256 -> 0 <= c < 256 -> 0 <= op < 256 ->
  Encode23x op a b c m = Some (tt, with_buffer (buffer_ m ++ [unit2 (u8 a) op; unit2 c b]) m).
Proof.
  intros Hb Hc Ho. unfold Encode23x. rewrite !(u8_small b), !(u8_small c) by done.
  pose proof (trunc_range 8 a ltac:(lia)). apply push2_eq; by apply unit2_lor.
Qed.
Lemma encodes_aput_wraps n j : 0 <= j -> 0 <= n -> j + n < 2 ^ 64 ->
  encodes n (OpWithArgs kAputObject (Some (Parameter_ j)) [Local_ 1; Local_ 0]) [DAputObject (u8 (j + n)) 1 0] 0.
Proof.
  intros Hj Hn0 Hjn m Hn Hm. unfold EncodeInstruction. cbn [opcode_ OpWithArgs]. unfold EncodeAput, arg, dest. enc.
  cbn [opcode_ OpWithArgs]. enc. rewrite Encode23x_wraps by rng. pose proof (trunc_range 8 (j + n) ltac:(lia)).
  eexists. split; [by apply (insns_23x (u8 (j + n)) 1 0 OP_APUT_OBJECT DAputObject); rng|settle].
Qed.
Lemma encodes_aput n j : 0 <= j -> 0 <= n -> j + n < 256 ->
  encodes n (OpWithArgs kAputObject (Some (Parameter_ j)) [Local_ 1; Local_ 0]) [DAputObject (j + n) 1 0] 0.
Proof. intros Hj Hn Hjn. rewrite <- (u8_small (j + n)) by lia. apply encodes_aput_wraps; lia. Qed.

Lemma encodes_sget n f : is_unit f -> encodes n (GetStaticObjectField f (Local_ 0)) [DSgetObject 0 f] 0.
Proof.
  intros Hf m Hn Hm. unfold EncodeInstruction. cbn [opcode_ GetStaticObjectField]. unfold EncodeFieldOp, arg, dest.
  cbn [opcode_ GetStaticObjectField]. enc. rewrite Encode21c_eq by rng.
  eexists. split; [by apply (insns_21c 0 OP_SGET_OBJECT f DSgetObject); rng|settle].
Qed.

Lemma encodes_cast n t : is_unit t -> encodes n (OpWithArgs kCheckCast (Some (Local_ 0)) [Type__ t]) [DCheckCast 0 t] 0.
Proof.
  intros Ht m Hn Hm. unfold EncodeInstruction. cbn [opcode_ OpWithArgs]. unfold EncodeCast, EncodeTyped, arg, dest. enc.
  rewrite Encode21c_eq by rng.
  eexists. split; [by apply (insns_21c 0 OP_CHECK_CAST t DCheckCast); rng|settle].
Qed.

Lemma encodes_return_void n : encodes n (OpNoArgs kReturnOp) [DReturnVoid] 0.
Proof.
  intros m Hn Hm. unfold EncodeInstruction. cbn [opcode_ OpNoArgs]. unfold EncodeReturn. enc.
  exists [OP_RETURN_VOID]. split; [by apply insns_10x; rng|]. unfold Encode10x. rewrite (push_eq _ OP_RETURN_VOID) by done. settle.
Qed.

Lemma encodes_return n : encodes n (OpWithArgs kReturnOp None [Local_ 0]) [DReturn 0] 0.
Proof.
  intros m Hn Hm. unfold EncodeInstruction. cbn [opcode_ OpWithArgs]. unfold EncodeReturn, arg. enc. rewrite Encode11x_eq by rng.
  eexists. split; [by apply (insns_11x 0 OP_RETURN DReturn); rng|settle].
Qed.
Lemma encodes_return_object n : encodes n (OpWithArgs kReturnObject None [Local_ 0]) [DReturnObject 0] 0.
Proof.
  intros m Hn Hm. unfold EncodeInstruction. cbn [opcode_ OpWithArgs]. unfold EncodeReturn, arg. enc. rewrite Encode11x_eq by rng.
  eexists. split; [by apply (insns_11x 0 OP_RETURN_OBJECT DReturnObject); rng|settle].
Qed.
Lemma encodes_return_wide n : encodes n (OpWithArgsWide kReturnWide None [Local_ 0]) [DReturnWide 0] 0.
Proof.
  intros m Hn Hm. unfold EncodeInstruction. cbn [opcode_ OpWithArgsWide]. unfold EncodeReturn, arg. enc. rewrite Encode11x_eq by rng.
  eexists. split; [by apply (insns_11x 0 OP_RETURN_WIDE DReturnWide); rng|settle].
Qed.

(** *** Invocations *)

Definition regs_are (m : MethodBuilder) (v : Value) (r : Z) : Prop :=
  is_variable v = true /\ RegisterValue_of ndebug m v = Some r /\ 0 <= r < 256.

Lemma arguments_eq m vs rs : Forall2 (regs_are m) vs rs -> mapM_ (argument ndebug) vs m = Some (rs, m).
Proof.
  induction 1 as [|v r vs rs (Hv & Hr & Hb) _ IH]; [done|]. cbn [mapM_].
  assert (E : argument ndebug v m = Some (r, m)).
  { unfold argument. rewrite run_assert by done. rewrite (run_register _ _ _ _ Hr), u8_small by done. done. }
  unfold mbind at 1, M_bind. rewrite E. cbn [mbind option_bind]. unfold mbind, M_bind. by rewrite IH.
Qed.

Definition result_op (i : Instruction) : Z :=
  if result_is_object_ i then OP_MOVE_RESULT_OBJECT else if result_is_wide_ i then OP_MOVE_RESULT_WIDE else OP_MOVE_RESULT.
Definition result_insn (i : Instruction) (r : Z) : dinsn :=
  if result_is_object_ i then DMoveResultObject r else if result_is_wide_ i then DMoveResultWide r else DMoveResult r.

Lemma insns_result i r : 0 <= r < 256 -> insns [unit2 r (result_op i)] [result_insn i r].
Proof.
  intros Hr. unfold result_op, result_insn. destruct (result_is_object_ i); [|destruct (result_is_wide_ i)].
  - by apply (insns_11x r OP_MOVE_RESULT_OBJECT DMoveResultObject); rng.
  - by apply (insns_11x r OP_MOVE_RESULT_WIDE DMoveResultWide); rng.
  - by apply (insns_11x r OP_MOVE_RESULT DMoveResult); rng.
Qed.

Lemma result_eq i d r m : dest_ i = Some d -> regs_are m d r ->
  (move_result ndebug i ;; count_args i) m =
    Some (tt, with_max_args (Z.max (max_args_ m) (num_args i)) (with_buffer (buffer_ m ++ [unit2 r (result_op i)]) m)).
Proof.
  intros Hd (_ & Hr & Hb). unfold move_result. rewrite Hd, run_assoc, (run_register _ _ _ _ Hr). fold (result_op i).
  unfold mbind, M_bind. rewrite Encode11x_eq by (unfold result_op; repeat case_match; rng). done.
Qed.

Definition at_ (rs : list Z) (k : nat) : Z := default 0 ((rs ++ repeat 0 (5 - length rs)) !! k).

Lemma at_range rs : Forall (fun r => 0 <= r < 16) rs -> forall k, 0 <= at_ rs k < 16.
Proof.
  intros H k. unfold at_. destruct ((rs ++ repeat 0 (5 - length rs)) !! k) as [x|] eqn:E; cbn; [|lia].
  apply list_elem_of_lookup_2 in E. apply elem_of_app in E as [E|E%list_elem_of_In%repeat_spec]; [|lia].
  rewrite Forall_forall in H. by apply H.
Qed.

Lemma EncodeInvoke_eq i op rs d r m : 0 <= op < 256 -> is_unit (index_argument_ i) ->
  Forall2 (regs_are m) (args_ i) rs -> Forall (fun r => 0 <= r < 16) rs -> (length rs < 5)%nat ->
  dest_ i = Some d -> regs_are m d r ->
  EncodeInvoke ndebug i op m = Some (tt, with_max_args (Z.max (max_args_ m) (num_args i)) (with_buffer (buffer_ m ++
    [unit2 (16 * num_args i + at_ rs 4) op; index_argument_ i; regs_unit (at_ rs 0) (at_ rs 1) (at_ rs 2) (at_ rs 3)] ++
    [unit2 r (result_op i)]) m)).
Proof.
  intros Hop Hi Hrs H16 Hl Hd Hr. pose proof (Forall2_length _ _ _ Hrs) as HL. unfold EncodeInvoke, num_args, kMaxArgs.
  rewrite run_assert by lia. destruct (Z.ltb_spec 5 (Z.of_nat (length (args_ i)))); [lia|].
  unfold mbind at 1, M_bind. rewrite (arguments_eq m _ rs Hrs). cbn [mbind option_bind]. cbv zeta.
  assert (forallb IsShortRegister rs = true) as ->.
  { apply forallb_forall. intros x Hx%list_elem_of_In. rewrite Forall_forall in H16. specialize (H16 x Hx). unfold IsShortRegister. lia. }
  pose proof (at_range rs H16) as B.
  unfold mbind at 1, M_bind. fold (at_ rs 0) (at_ rs 1) (at_ rs 2) (at_ rs 3) (at_ rs 4).
  rewrite Encode35c_eq by (apply B || rng). cbn [mbind option_bind].
  rewrite (result_eq i d r) by done. cbn [max_args_ buffer_ with_buffer]. unfold with_max_args, with_buffer. cbn [builder_class decl_ instructions_ labels_ register_liveness_ access_flags_ buffer_ max_args_].
  by rewrite <- app_assoc.
Qed.

Lemma insns_invoke i op k rs r : 0 <= op < 256 -> is_unit (index_argument_ i) -> Forall (fun r => 0 <= r < 16) rs ->
  (length rs < 5)%nat -> num_args i = Z.of_nat (length rs) -> 0 <= r < 256 ->
  dinsn_of op = Some (k35c, fun x => DInvoke k (x "B"%char)
    (take (Z.to_nat (x "A"%char)) [x "C"; x "D"; x "E"; x "F"; x "G"]%char)) ->
  insns ([unit2 (16 * num_args i + at_ rs 4) op; index_argument_ i; regs_unit (at_ rs 0) (at_ rs 1) (at_ rs 2) (at_ rs 3)] ++
    [unit2 r (result_op i)]) [DInvoke k (index_argument_ i) rs; result_insn i r].
Proof.
  intros Hop Hi Hrs Hl Hn Hr Hk. change [DInvoke k (index_argument_ i) rs; result_insn i r] with
    ([DInvoke k (index_argument_ i) rs] ++ [result_insn i r]). apply insns_app; [|by apply insns_result].
  assert (E : rs = take (Z.to_nat (num_args i)) [at_ rs 0; at_ rs 1; at_ rs 2; at_ rs 3; at_ rs 4]).
  { rewrite Hn, Nat2Z.id. destruct rs as [|? [|? [|? [|? [|? ?]]]]]; try done. cbn in Hl. lia. }
  rewrite E at 6. rewrite Hn.
  pose proof (at_range rs Hrs) as B.
  apply insns_35c; (apply B || rng).
Qed.

Lemma invoke_encodes n i op k d rs r : 0 <= op < 256 -> is_unit (index_argument_ i) ->
  (forall m, NumRegisters m = n -> Forall2 (regs_are m) (args_ i) rs /\ regs_are m d r) ->
  Forall (fun r => 0 <= r < 16) rs -> (length rs < 5)%nat -> dest_ i = Some d -> 0 <= r < 256 ->
  (forall m, EncodeInstruction ndebug i m = EncodeInvoke ndebug i op m) ->
  dinsn_of op = Some (k35c, fun x => DInvoke k (x "B"%char)
    (take (Z.to_nat (x "A"%char)) [x "C"; x "D"; x "E"; x "F"; x "G"]%char)) ->
  encodes n i [DInvoke k (index_argument_ i) rs; result_insn i r] (num_args i).
Proof.
  intros Hop Hi Hregs H16 Hl Hd Hr Hop' Hk m Hn Hm. destruct (Hregs m Hn) as [Hrs Hdr]. rewrite Hop'.
  rewrite (EncodeInvoke_eq i op rs d r) by done. eexists. split; [|reflexivity].
  apply insns_invoke; try done. unfold num_args. by rewrite (Forall2_length _ _ _ Hrs).
Qed.

Lemma reg_param m n k : NumRegisters m = n -> 0 <= k -> 0 <= n -> k + n < 256 -> regs_are m (Parameter_ k) (k + n).
Proof. intros Hn Hk Hn0 H. split_and!; [done| |lia|lia]. by apply register_parameter; [done|lia]. Qed.
Lemma reg_local m k : 0 <= k < 256 -> regs_are m (Local_ k) k.
Proof. intros H. unfold regs_are. auto. Qed.

(** The side conditions of [invoke_encodes] for a given instruction, but for the
    registers. *)
Ltac invoke_side Hi :=
  lazymatch goal with
  | |- is_unit _ => exact Hi
  | |- Forall _ _ => repeat constructor; lia
  | |- forall m, EncodeInstruction _ _ _ = _ => reflexivity
  | |- dinsn_of _ = _ => reflexivity
  | |- dest_ _ = _ => reflexivity
  | |- (_ < _)%nat => cbn; lia
  | |- 0 <= OP_INVOKE_STATIC < _ => vm_compute; split; congruence
  | |- 0 <= OP_INVOKE_VIRTUAL < _ => vm_compute; split; congruence
  | |- 0 <= _ < _ => lia
  | |- forall m, NumRegisters m = _ -> _ =>
      let m := fresh "m" in let Hm := fresh "Hm" in
      intros m Hm; split; [repeat (apply Forall2_nil_2 || apply Forall2_cons_2)|]; first [apply (reg_param m _ _ Hm); lia | apply reg_local; lia]
  end.

Lemma encodes_box n id j : is_unit id -> 0 <= j -> 0 <= n -> j + n < 16 ->
  encodes n (InvokeStaticObject id (Some (Parameter_ j)) [Parameter_ j]) [DInvoke Static id [j + n]; DMoveResultObject (j + n)] 1.
Proof.
  intros Hi Hj Hn Hjn. apply (invoke_encodes n (InvokeStaticObject id (Some (Parameter_ j)) [Parameter_ j])
    OP_INVOKE_STATIC Static (Parameter_ j) [j + n] (j + n)); invoke_side Hi.
Qed.

Lemma encodes_box_wide n id j : is_unit id -> 0 <= j -> 0 <= n -> j + 1 + n < 16 ->
  encodes n (InvokeStaticObject id (Some (Parameter_ j)) [Parameter_ j; Parameter_ (j + 1)])
    [DInvoke Static id [j + n; j + 1 + n]; DMoveResultObject (j + n)] 2.
Proof.
  intros Hi Hj Hn Hjn. apply (invoke_encodes n (InvokeStaticObject id (Some (Parameter_ j)) [Parameter_ j; Parameter_ (j + 1)])
    OP_INVOKE_STATIC Static (Parameter_ j) [j + n; j + 1 + n] (j + n)); invoke_side Hi.
Qed.

Lemma encodes_callback n id : is_unit id ->
  encodes n (InvokeVirtualObject id (Some (Local_ 0)) (Local_ 0) [Local_ 1]) [DInvoke Virtual id [0; 1]; DMoveResultObject 0] 2.
Proof.
  intros Hi. apply (invoke_encodes n (InvokeVirtualObject id (Some (Local_ 0)) (Local_ 0) [Local_ 1])
    OP_INVOKE_VIRTUAL Virtual (Local_ 0) [0; 1] 0); invoke_side Hi.
Qed.

Lemma encodes_unbox n id : is_unit id ->
  encodes n (InvokeVirtual id (Some (Local_ 0)) (Local_ 0) []) [DInvoke Virtual id [0]; DMoveResult 0] 1.
Proof.
  intros Hi. apply (invoke_encodes n (InvokeVirtual id (Some (Local_ 0)) (Local_ 0) [])
    OP_INVOKE_VIRTUAL Virtual (Local_ 0) [0] 0); invoke_side Hi.
Qed.
Lemma encodes_unbox_wide n id : is_unit id ->
  encodes n (InvokeVirtualWide id (Some (Local_ 0)) (Local_ 0) []) [DInvoke Virtual id [0]; DMoveResultWide 0] 1.
Proof.
  intros Hi. apply (invoke_encodes n (InvokeVirtualWide id (Some (Local_ 0)) (Local_ 0) [])
    OP_INVOKE_VIRTUAL Virtual (Local_ 0) [0] 0); invoke_side Hi.
Qed.

Lemma encodes_box_range n id j k : is_unit id -> 0 <= j -> 0 <= n -> j + n < 256 -> 1 <= k <= 2 ->
  encodes n (InvokeStaticObjectRange id (Some (Parameter_ j)) (Parameter_ j) k)
    [DInvoke Static id (map (fun i => j + n + Z.of_nat i) (seq 0 (Z.to_nat k))); DMoveResultObject (j + n)] 2.
Proof.
  intros Hi Hj Hn0 Hjn Hk m Hn Hm. set (i := InvokeStaticObjectRange _ _ _ _).
  change (EncodeInstruction ndebug i) with (EncodeInvokeRange ndebug i OP_INVOKE_STATIC_RANGE). unfold EncodeInvokeRange, arg. enc.
  cbn [value_ Immediate index_argument_ i InvokeStaticObjectRange]. unfold mbind at 1, M_bind.
  rewrite Encode3rc_eq by rng. cbn [mbind option_bind]. fold i.
  rewrite (result_eq i (Parameter_ j) (j + n)) by (done || apply reg_param; (done || lia)).
  eexists. split; [|].
  2: { unfold with_max_args, with_buffer. cbn [builder_class decl_ instructions_ labels_ register_liveness_ access_flags_ buffer_ max_args_].
       by rewrite <- app_assoc. }
  apply (insns_app _ [_] _ [_]); [apply insns_3rc; rng|by apply (insns_result i (j + n)); lia].
Qed.
End Encoder.

(** ** Whole methods *)

Section Methods.
Context (ndebug : bool).

(** A sequence of instructions and the most arguments that one of them has. *)
Inductive encodes_all (n : Z) : list Instruction -> list dinsn -> Z -> Prop :=
| encodes_none : encodes_all n [] [] 0
| encodes_more i vs l ls a b : encodes ndebug n i l a -> encodes_all n vs ls b -> encodes_all n (i :: vs) (l ++ ls) (Z.max a b).

Lemma encodes_all_app n vs ls a vs' ls' b :
  encodes_all n vs ls a -> encodes_all n vs' ls' b -> 0 <= b -> encodes_all n (vs ++ vs') (ls ++ ls') (Z.max a b).
Proof.
  induction 1 as [|i vs l ls a1 a2 Hi _ IH]; intros H' Hb; [by rewrite Z.max_r by lia|].
  rewrite <- app_assoc, <- Z.max_assoc. cbn. constructor; [done|by apply IH].
Qed.

Lemma encodes_all_one n i l a : 0 <= a -> encodes ndebug n i l a -> encodes_all n [i] l a.
Proof. intros Ha H. pose proof (encodes_more n i [] l [] a 0 H (encodes_none n)) as E. rewrite app_nil_r, Z.max_l in E by lia. done. Qed.

Lemma encode_each n vs ls a : encodes_all n vs ls a -> forall m, NumRegisters m = n -> 0 <= max_args_ m ->
  exists us x, insns us ls /\ mapM_ (EncodeInstruction ndebug) vs m =
    Some (x, with_max_args (Z.max (max_args_ m) a) (with_buffer (buffer_ m ++ us) m)).
Proof.
  induction 1 as [|i vs l ls a b Hi _ IH]; intros m Hn Hm; cbn [mapM_].
  - exists [], []. split; [constructor|]. rewrite app_nil_r. cbn. rewrite Z.max_l by lia. by destruct m.
  - destruct (Hi m Hn Hm) as (us & Hus & E).
    set (m1 := with_max_args _ _) in E.
    destruct (IH m1) as (us' & x & Hus' & E'); [exact Hn|cbn; lia|].
    exists (us ++ us'), (tt :: x). split; [by apply insns_app|].
    unfold mbind at 1, M_bind. rewrite E. cbn [mbind option_bind]. unfold mbind at 1, M_bind. rewrite E'. cbn.
    by rewrite Z.max_assoc, app_assoc.
Qed.

Lemma EncodeInstructions_ok n m ls a : NumRegisters m = n -> 0 <= max_args_ m -> encodes_all n (instructions_ m) ls a ->
  exists us, insns us ls /\ EncodeInstructions ndebug m = Some (tt, with_max_args (Z.max (max_args_ m) a) (with_buffer us m)).
Proof.
  intros Hn Hm H. destruct (encode_each n _ _ _ H (with_buffer [] m) Hn Hm) as (us & x & Hus & E).
  exists us. split; [done|]. unfold EncodeInstructions, mbind, M_bind, get, put. cbn [mbind option_bind]. by rewrite E.
Qed.
End Methods.
