(* ===== verification/BuildDex.v ===== *)
(** The class LSPlant builds for a hook: [BuildDex] in [lsplant_jni/lsplant.cc],
    up to the image of the file, which it loads through JNI.

    The class has a static field for the hooker object, the hook method, which
    passes its boxed arguments to the callback of that object, and a backup method
    whose code is replaced by the target's.

    Then what its instructions are, and what they do: [arg_code] and [hook_code] give the
    decoded instructions with the methods and types that their indexes name; the builder
    emits them, and the virtual machine of DalvikSem.v executes them. *)
From stdpp Require Import strings.
From Stdlib Require Import Ascii String.
From S2P Require Import Prelude Leb128 SlicerBuffer DexBytecode DexIsa DexCode DexIr DexIrSpec DexBuilder MethodBuilder.
From S2P Require Import DexBuilderSpec DalvikSem MethodBuilderSpec.

(** The names of [InitInfo]. *)
Record names := {
  generated_class_name : list byte; generated_source_name : list byte;
  generated_field_name : list byte; generated_method_name : list byte
}.
Definition default_names : names :=
  {| generated_class_name := lit "LSPHooker_"; generated_source_name := lit "LSP";
     generated_field_name := lit "hooker"; generated_method_name := lit "{target}" |}.

Section BuildDex.
Context (ndebug : bool) (nm : names).

Definition type_of_char (c : Z) : TypeDescriptor :=
  if c =? char_of "L" then TypeDescriptor_Object else FromDescriptor_char c.

(** The return type and the parameters, the receiver first. *)
Definition hook_types (shorty : list byte) (is_static : bool) : option (TypeDescriptor * list TypeDescriptor) :=
  match shorty with
  | [] => None
  | r :: ps => Some (type_of_char r, (if is_static then [] else [TypeDescriptor_Object]) ++ map type_of_char ps)
  end.

(** The loop over the parameters: [i] counts them, [j] their registers. *)
Fixpoint box_parameters (tmp hook_params_array : Value) (types : list TypeDescriptor) (i j : Z) : BM unit :=
  match types with
  | [] => mret tt
  | t :: types =>
      BuildBoxIfPrimitive ndebug (Parameter_ j) t (Parameter_ j) ;;
      BuildConst ndebug tmp i ;;
      BuildAput kAputObject hook_params_array (Parameter_ j) tmp ;;
      box_parameters tmp hook_params_array types (i + 1) ((if wide_ t then j + 1 else j) + 1)
  end.

Definition return_result (tmp : Value) (return_type : TypeDescriptor) : BM unit :=
  if same_type return_type TypeDescriptor_Void then BuildReturnVoid
  else if is_primitive return_type then
    box_type ← lift (ToBoxType ndebug return_type);
    t ← on_dex (GetOrAddType ndebug (descriptor_ box_type));
    cast ← lift (Cast ndebug tmp (Type__ t));
    add cast ;;
    BuildUnBoxIfPrimitive ndebug tmp box_type tmp ;;
    BuildReturn tmp false (wide_ return_type)
  else
    t ← on_dex (GetOrAddType ndebug (descriptor_ return_type));
    cast ← lift (Cast ndebug tmp (Type__ t));
    add cast ;;
    BuildReturn tmp true false.

Definition hook_body (return_type : TypeDescriptor) (parameter_types : list TypeDescriptor)
    (hooker_type : TypeDescriptor) (hooker_field : Z) (callback_name : list byte) : BM unit :=
  tmp ← on_method AllocRegister;
  BuildConst ndebug tmp (Z.of_nat (length parameter_types)) ;;
  hook_params_array ← on_method AllocRegister;
  BuildNewArray ndebug hook_params_array TypeDescriptor_Object tmp ;;
  box_parameters tmp hook_params_array parameter_types 0 0 ;;
  '(id, _) ← on_dex (GetOrDeclareMethod ndebug hooker_type callback_name
    {| return_type_ := TypeDescriptor_Object; param_types_ := [ToArray TypeDescriptor_Object] |});
  add (GetStaticObjectField hooker_field tmp) ;;
  add (InvokeVirtualObject id (Some tmp) tmp [hook_params_array]) ;;
  return_result tmp return_type.

Definition backup_body (return_type : TypeDescriptor) : BM unit :=
  if same_type return_type TypeDescriptor_Void then BuildReturnVoid
  else if wide_ return_type then
    zero ← on_method AllocRegister;
    zero_wide ← on_method AllocRegister;
    BuildConstWide zero 0 ;;
    BuildReturn zero false true ;;
    on_method (FreeRegister zero_wide) ;; on_method (FreeRegister zero)
  else
    zero ← on_method AllocRegister;
    BuildConst ndebug zero 0 ;;
    BuildReturn zero (negb (is_primitive return_type)) false ;;
    on_method (FreeRegister zero).

(** A method builder's life: from [CreateMethod] to [Encode]. *)
Definition build_method (cbuilder : ClassBuilder) (name : list byte) (prototype : Prototype) (body : BM unit) :
    M DexBuilder EncodedMethod := fun d =>
  '(m, d) ← CreateMethod ndebug name prototype cbuilder d;
  '(e, (d, _)) ← (body ;; Encode ndebug) (d, m);
  Some (e, d).

Record built := { hooker_field_decl : Z; hook_method : EncodedMethod; backup_method : EncodedMethod }.

Definition BuildDex (shorty : list byte) (is_static : bool) (method_name hooker_class callback_name : list byte) :
    M DexBuilder (option built) :=
  match hook_types shorty is_static with
  | None => mret None
  | Some (return_type, parameter_types) =>
      cbuilder ← MakeClass ndebug (generated_class_name nm);
      whenM (0 <? Z.of_nat (length (generated_source_name nm)))
        (set_source_file ndebug (generated_source_name nm) cbuilder) ;;
      let hooker_type := FromClassname hooker_class in
      field ← CreateField ndebug (generated_field_name nm) hooker_type cbuilder;
      hooker_field ← FieldBuilder_Encode field 0x0008 cbuilder;
      let name := if bool_decide (generated_method_name nm = lit "{target}") then method_name
                  else generated_method_name nm in
      let prototype := {| return_type_ := return_type; param_types_ := parameter_types |} in
      hook ← build_method cbuilder name prototype
        (hook_body return_type parameter_types hooker_type (f_decl hooker_field) callback_name);
      backup ← build_method cbuilder (lit "backup") prototype (backup_body return_type);
      mret (Some {| hooker_field_decl := f_decl hooker_field; hook_method := hook; backup_method := backup |})
  end.
End BuildDex.

(** ** Straight-line code *)

Definition straight (i : dinsn) : bool := match i with DIfEqz _ _ | DIfNez _ _ => false | _ => true end.

Section Straight.
Context (E : env).

Fixpoint exec_list (l : list dinsn) (s : machine) : option (machine * option outcome) :=
  match l with
  | [] => Some (s, None)
  | i :: l =>
      match exec_insn E 0 0 i s with
      | Some (Next _ s) => exec_list l s
      | Some (Done o s) => Some (s, Some o)
      | None => None
      end
  end.

Lemma exec_straight pc next i s : straight i = true ->
  exec_insn E pc next i s = match exec_insn E 0 0 i s with Some (Next _ s) => Some (Next next s) | x => x end.
Proof.
  destruct i; intros H; try discriminate H; cbn [exec_insn];
    repeat (match goal with |- context [?m ≫= _] => destruct m as [[]|] eqn:?; cbn [mbind option_bind] | _ => case_match end); try done;
    simplify_eq; done.
Qed.

Lemma exec_app l1 l2 s s' : exec_list l1 s = Some (s', None) -> exec_list (l1 ++ l2) s = exec_list l2 s'.
Proof.
  revert s. induction l1 as [|i l1 IH]; intros s; cbn; [by intros [= ->]|].
  destruct (exec_insn E 0 0 i s) as [[]|]; [apply IH|discriminate|discriminate].
Qed.

Lemma run_straight us l : insns us l -> forall pre fuel s s' o, forallb straight l = true -> (length l <= fuel)%nat ->
  exec_list l s = Some (s', Some o) -> run_code E fuel (pre ++ us) (length pre) s = Some (o, s').
Proof.
  induction 1 as [|u us i l Hd _ IH]; intros pre fuel s s' o Hst Hf He; [discriminate He|].
  destruct fuel as [|fuel]; [cbn in Hf; lia|]. cbn in Hst. apply andb_true_iff in Hst as [Hi Hst].
  cbn [run_code]. rewrite drop_app_length, Hd. cbn [mbind option_bind]. rewrite exec_straight by done. cbn [exec_list] in He.
  destruct (exec_insn E 0 0 i s) as [[pc s1|o1 s1]|]; cbn [mbind option_bind]; [| |discriminate He].
  - rewrite app_assoc. replace (length pre + length u)%nat with (length (pre ++ u)) by apply List.length_app.
    apply IH; [done|cbn in Hf; lia|done].
  - by injection He as -> ->.
Qed.
End Straight.

(** ** Types *)

(** The primitive types with their wrapper classes. *)
Definition boxings : list (TypeDescriptor * TypeDescriptor) := map (fun e => (e.2, e.1)) unbox_map.

(** A parameter of a hooked method: every reference type is [Object]. *)
Definition stub_type (t : TypeDescriptor) : Prop := t = TypeDescriptor_Object \/ exists b, (t, b) ∈ boxings.

Lemma boxings_cases (P : TypeDescriptor -> TypeDescriptor -> Prop) :
  Forall (fun e => P e.1 e.2) boxings -> forall t b, (t, b) ∈ boxings -> P t b.
Proof. intros H t b Hin. rewrite Forall_forall in H. exact (H _ Hin). Qed.

(** Checks a property of each row. *)
Ltac each_boxing :=
  apply boxings_cases; repeat (apply Forall_cons; split); try apply Forall_nil_2; cbv [fst snd]; intros.

Lemma type_of_char_stub c : c <> char_of "V" -> stub_type (type_of_char c).
Proof.
  intros Hc. unfold type_of_char, FromDescriptor_char, primitive_of.
  repeat match goal with |- context [?x =? ?y] => destruct (Z.eqb_spec x y) end; try contradiction; cbn [default];
    first [by left | right; eexists; unfold boxings, unbox_map; cbn [map fst snd];
      repeat first [by apply list_elem_of_here | apply elem_of_cons; right]].
Qed.

Definition words (t : TypeDescriptor) : Z := if wide_ t then 2 else 1.
Definition total_words (ts : list TypeDescriptor) : Z := foldr (fun t n => words t + n) 0 ts.

Lemma total_words_length ts : Z.of_nat (length ts) <= total_words ts.
Proof. induction ts as [|t ts IH]; [done|]. change (total_words (t :: ts)) with (words t + total_words ts).
  cbn [length]. unfold words. destruct (wide_ t); lia. Qed.

Definition value_of_mref (b t : TypeDescriptor) : mref :=
  {| mr_class := descriptor_ b; mr_name := lit "valueOf"; mr_params := [descriptor_ t]; mr_return := descriptor_ b |}.

Record boxing_facts (ndebug : bool) (t b : TypeDescriptor) : Prop := {
  bf_primitive : is_primitive t = true;
  bf_box : ToBoxType ndebug t = Some b;
  bf_wide : is_wide_type (descriptor_ t) = wide_ t;
  bf_ref : is_ref_type (descriptor_ t) = false;
  bf_boxes : boxes (value_of_mref b t) = true;
  bf_wrapper : is_wrapper (descriptor_ b) = true;
  bf_object : is_object b = true;
  bf_unbox : ToUnBoxType ndebug b = Some t;
  bf_accessor : exists name, find_type value_method_map b = Some name /\ text name /\
    unboxes {| mr_class := descriptor_ b; mr_name := name; mr_params := []; mr_return := descriptor_ t |} = true;
  bf_nul : text (descriptor_ t) /\ text (descriptor_ b);
  bf_proto : proto_text {| return_type_ := t; param_types_ := [] |};
  bf_value_of : proto_text {| return_type_ := b; param_types_ := [t] |};
  bf_void : same_type t TypeDescriptor_Void = false;
  bf_not_object : descriptor_ b <> object_class;
  bf_box_ref : is_ref_type (descriptor_ b) = true /\ is_wide_type (descriptor_ b) = false
}.

Lemma boxing_ok ndebug t b : (t, b) ∈ boxings -> boxing_facts ndebug t b.
Proof.
  revert t b. each_boxing; (constructor;
    [reflexivity|by destruct ndebug|reflexivity|reflexivity|reflexivity|reflexivity|reflexivity|by destruct ndebug
    |eexists; split_and!; [reflexivity|by apply text_lit|reflexivity]
    |split; by apply text_lit
    |split_and!; [by apply text_lit|by apply text_lit|by apply Forall_nil_2]
    |split_and!; [by apply text_lit|by apply text_lit|apply Forall_cons_2; [by apply text_lit|by apply Forall_nil_2]]
    |reflexivity|discriminate|split; reflexivity]).
Qed.

(** ** The code *)

Definition arg_regs (t : TypeDescriptor) (j : Z) : list Z := if wide_ t then [j + 2; j + 3] else [j + 2].
Definition value_of_key (t b : TypeDescriptor) : list byte * list byte * proto_key :=
  (descriptor_ b, lit "valueOf", (descriptor_ b, [descriptor_ t])).

(** Boxing the parameters from the [i]-th on, whose first register is [j]. *)
Inductive arg_code (d : DexBuilder) : list TypeDescriptor -> Z -> Z -> list dinsn -> Prop :=
| arg_none i j : arg_code d [] i j []
| arg_box t b ts i j id l : (t, b) ∈ boxings -> method_id_map_ d !! value_of_key t b = Some (id, id) ->
    arg_code d ts (i + 1) (j + words t) l ->
    arg_code d (t :: ts) i j
      ([DInvoke Static id (arg_regs t j); DMoveResultObject (j + 2); DConst 0 i; DAputObject (j + 2) 1 0] ++ l)
| arg_ref ts i j l : arg_code d ts (i + 1) (j + 1) l ->
    arg_code d (TypeDescriptor_Object :: ts) i j ([DConst 0 i; DAputObject (j + 2) 1 0] ++ l).

(** What follows the callback: the result, by the return type. *)
Inductive result_code (d : DexBuilder) (r : TypeDescriptor) : list dinsn -> Prop :=
| result_void : r = TypeDescriptor_Void -> result_code d r [DReturnVoid]
| result_box b name t id : (r, b) ∈ boxings -> types_by_descriptor_ d !! descriptor_ b = Some t ->
    find_type value_method_map b = Some name ->
    method_id_map_ d !! (descriptor_ b, name, (descriptor_ r, [])) = Some (id, id) ->
    result_code d r ([DCheckCast 0 t; DInvoke Virtual id [0]] ++
      if wide_ r then [DMoveResultWide 0; DReturnWide 0] else [DMoveResult 0; DReturn 0])
| result_ref t : r = TypeDescriptor_Object -> types_by_descriptor_ d !! descriptor_ r = Some t ->
    result_code d r [DCheckCast 0 t; DReturnObject 0].

Definition callback_key (hooker_type : TypeDescriptor) (callback_name : list byte) : list byte * list byte * proto_key :=
  (descriptor_ hooker_type, callback_name,
   (descriptor_ TypeDescriptor_Object, [descriptor_ (ToArray TypeDescriptor_Object)])).

Inductive hook_code (d : DexBuilder) (r : TypeDescriptor) (ts : list TypeDescriptor) (hooker_type : TypeDescriptor)
    (field : Z) (callback_name : list byte) : list dinsn -> Prop :=
| hook_code_intro t id args res :
    types_by_descriptor_ d !! descriptor_ (ToArray TypeDescriptor_Object) = Some t ->
    arg_code d ts 0 0 args ->
    method_id_map_ d !! callback_key hooker_type callback_name = Some (id, id) ->
    result_code d r res ->
    hook_code d r ts hooker_type field callback_name
      ([DConst 0 (Z.of_nat (length ts)); DNewArray 1 0 t] ++ args ++
       [DSgetObject 0 field; DInvoke Virtual id [0; 1]; DMoveResultObject 0] ++ res).

Lemma arg_code_grows n d d' ts i j l : grows n d d' -> arg_code d ts i j l -> arg_code d' ts i j l.
Proof. intros G. induction 1; econstructor; (done || by eapply grows_method). Qed.

(** ** The builder emits it *)

Section Emit.
Context (ndebug : bool).

(** In a method with two local registers, [c] appends instructions that encode as
    [R] says, none with more than two arguments. *)
Definition emits (n : nat) (c : BM unit) (d : DexBuilder) (R : DexBuilder -> list dinsn -> Z -> Prop) : Prop :=
  forall b, NumRegisters b = 2 -> exists d' vs ls a,
    c (d, b) = Some (tt, (d', with_instructions (instructions_ b ++ vs) b)) /\
    builder_ok d' /\ grows n d d' /\ encodes_all ndebug 2 vs ls a /\ 0 <= a <= 2 /\ R d' ls a.

Lemma emits_bind n1 n2 n c1 c2 d (R1 R : DexBuilder -> list dinsn -> Z -> Prop) : (n1 + n2 <= n)%nat ->
  emits n1 c1 d R1 ->
  (forall d1 l1 a1, R1 d1 l1 a1 -> 0 <= a1 <= 2 -> builder_ok d1 -> grows n1 d d1 ->
    emits n2 c2 d1 (fun d2 l2 a2 => R d2 (l1 ++ l2) (Z.max a1 a2))) ->
  emits n (c1 ;; c2) d R.
Proof.
  intros Hn H1 H2 b Hb. destruct (H1 b Hb) as (d1 & v1 & l1 & a1 & E1 & Hok1 & G1 & He1 & Ha1 & HR1).
  destruct (H2 d1 l1 a1 HR1 Ha1 Hok1 G1 (with_instructions (instructions_ b ++ v1) b) Hb)
    as (d2 & v2 & l2 & a2 & E2 & Hok2 & G2 & He2 & Ha2 & HR2).
  exists d2, (v1 ++ v2), (l1 ++ l2), (Z.max a1 a2). split_and!; try done; try lia.
  - unfold mbind, M_bind. rewrite E1. cbn [mbind option_bind]. rewrite E2. cbn. by rewrite app_assoc.
  - by eapply grows_le, grows_trans.
  - apply encodes_all_app; (done || lia).
Qed.

Lemma emits_weaken n n' c d (R R' : DexBuilder -> list dinsn -> Z -> Prop) : (n <= n')%nat -> emits n c d R ->
  (forall d' l a, grows n d d' -> R d' l a -> R' d' l a) -> emits n' c d R'.
Proof.
  intros Hn H HR b Hb. destruct (H b Hb) as (d' & vs & ls & a & E & Hok & G & He & Ha & Hr).
  exists d', vs, ls, a. split_and!; try done; try lia; [by eapply grows_le|by eapply HR].
Qed.

(** One instruction. *)
Lemma emits_add i l a d : builder_ok d -> encodes ndebug 2 i l a -> 0 <= a <= 2 ->
  emits 0 (add i) d (fun d' l' a' => d' = d /\ l' = l /\ a' = a).
Proof.
  intros Hok Hi Ha b Hb. exists d, [i], l, a. split_and!; try done; try lia; [apply grows_refl|by apply encodes_all_one; [lia|]].
Qed.

(** A declaration in the file, then the rest. *)
Lemma emits_on_dex {A} n1 n2 n (m : M DexBuilder A) (f : A -> BM unit) d (Q : A -> DexBuilder -> Prop) R : (n1 + n2 <= n)%nat ->
  runs n1 m d Q -> (forall x d1, Q x d1 -> builder_ok d1 -> grows n1 d d1 -> emits n2 (f x) d1 R) -> emits n (on_dex m ≫= f) d R.
Proof.
  intros Hn (x & d1 & E1 & Hok1 & G1 & HQ) H b Hb.
  destruct (H x d1 HQ Hok1 G1 b Hb) as (d2 & v2 & l2 & a2 & E2 & Hok2 & G2 & He2 & Ha2 & HR2).
  exists d2, v2, l2, a2. split_and!; try done; try lia.
  - unfold mbind, M_bind, on_dex. cbn [fst snd]. rewrite E1. cbn [mbind option_bind]. exact E2.
  - by eapply grows_le, grows_trans.
Qed.

Lemma emits_lift {A} n (o : option A) x (f : A -> BM unit) d R : o = Some x -> emits n (f x) d R -> emits n (lift o ≫= f) d R.
Proof. intros -> H b Hb. exact (H b Hb). Qed.

Lemma emits_register n v r (f : Z -> BM unit) d R : (forall b, NumRegisters b = 2 -> RegisterValue_of ndebug b v = Some r) ->
  emits n (f r) d R -> emits n (on_method (RegisterValue ndebug v) ≫= f) d R.
Proof.
  intros Hr H b Hb. specialize (Hr b Hb). destruct (H b Hb) as (d2 & v2 & l2 & a2 & E2 & H').
  exists d2, v2, l2, a2. split; [|exact H']. unfold mbind, M_bind, on_method, RegisterValue, mbind, M_bind, get, lift.
  cbn [fst snd mbind option_bind]. rewrite Hr. cbn [mbind option_bind]. exact E2.
Qed.

Lemma emits_assert n p (c : BM unit) d R : p = true -> emits n c d R -> emits n (assert ndebug p ;; c) d R.
Proof. intros -> H b Hb. destruct (H b Hb) as (d2 & v2 & l2 & a2 & E2 & H'). exists d2, v2, l2, a2. split; [|exact H'].
  unfold mbind, M_bind, assert, lift. by rewrite SLICER_CHECK_true. Qed.

Lemma range_regs j k (w : bool) : k = (if w then 2 else 1) ->
  map (fun i => j + 2 + Z.of_nat i) (seq 0 (Z.to_nat k)) = if w then [j + 2; j + 3] else [j + 2].
Proof.
  intros ->. destruct w.
  - change (seq 0 (Z.to_nat 2)) with [0%nat; 1%nat]. cbn [map]. f_equal; [lia|]. f_equal. lia.
  - change (seq 0 (Z.to_nat 1)) with [0%nat]. cbn [map]. f_equal. lia.
Qed.

(** Boxing one parameter. *)
Definition box_emitted (t : TypeDescriptor) (j : Z) (d : DexBuilder) (l : list dinsn) : Prop :=
  (t = TypeDescriptor_Object /\ l = []) \/
  (exists b id, (t, b) ∈ boxings /\ method_id_map_ d !! value_of_key t b = Some (id, id) /\
    l = [DInvoke Static id (arg_regs t j); DMoveResultObject (j + 2)]).

Lemma emits_box t j d : stub_type t -> builder_ok d -> 0 <= j -> j + words t <= 254 -> Z.of_nat (size d) + 10 <= 2 ^ 16 ->
  emits 10 (BuildBoxIfPrimitive ndebug (Parameter_ j) t (Parameter_ j)) d (fun d' l _ => box_emitted t j d' l).
Proof.
  intros [->|[b Htb]] Hok Hj Hw Hsize.
  { intros m Hm. exists d, [], [], 0. split_and!; try done; try (by left); try apply grows_refl; try constructor.
    unfold BuildBoxIfPrimitive. change (is_primitive TypeDescriptor_Object) with false. cbv iota.
    rewrite bool_decide_true, app_nil_r by done. by destruct m. }
  destruct (boxing_ok ndebug t b Htb). unfold BuildBoxIfPrimitive. rewrite bf_primitive0.
  apply (emits_lift 10 _ _ _ _ _ bf_box0). destruct bf_nul0 as [Hnt Hnb].
  apply (emits_on_dex 10 0 10 _ _ d _ _ ltac:(lia)
    (GetOrDeclareMethod_ok ndebug b (lit "valueOf") _ d Hok Hnb ltac:(by apply text_lit) bf_value_of0)).
  intros [id id'] d1 [E Hid] Hok1 G. cbn in E. subst id'. cbv beta iota.
  assert (Hu : is_unit id).
  { pose proof (method_bound d1 Hok1 _ _ _ Hid). pose proof (gr_size _ _ _ G) as Hs. cbn in Hs. unfold is_unit. lia. }
  assert (Hr : forall k, 0 <= k < 300 -> forall m, NumRegisters m = 2 -> RegisterValue_of ndebug m (Parameter_ k) = Some (k + 2))
    by (intros k Hk m Hm; apply register_parameter; [done|lia]).
  unfold words in Hw. unfold box_emitted, arg_regs. destruct (wide_ t) eqn:Et.
  - apply (emits_lift 0 _ (Parameter_ (j + 1))).
    { unfold WidePair. rewrite SLICER_CHECK_true by done. cbn. by rewrite trunc_small by lia. }
    apply (emits_register 0 _ (j + 2)); [by apply Hr; lia|].
    apply (emits_register 0 _ (j + 1 + 2)); [by apply Hr; lia|].
    replace (j + 1 + 2) with (j + 3) by lia.
    destruct (Z.leb_spec 16 (j + 3)) as [H|H].
    + rewrite orb_true_r. eapply emits_weaken; [reflexivity|apply emits_add; [done|apply (encodes_box_range ndebug 2 id j 2); (done || lia)|lia]|].
      intros d' l a _ (-> & -> & _). right. exists b, id. split_and!; [done|done|]. by rewrite (range_regs j 2 true eq_refl).
    + destruct (Z.leb_spec 16 (j + 2)); [lia|]. cbn [orb].
      eapply emits_weaken; [reflexivity|apply emits_add; [done|apply (encodes_box_wide ndebug 2 id j); (done || lia)|lia]|].
      intros d' l a _ (-> & -> & _). right. exists b, id. split_and!; [done|done|]. by replace (j + 1 + 2) with (j + 3) by lia.
  - apply (emits_register 0 _ (j + 2)); [by apply Hr; lia|].
    destruct (Z.leb_spec 16 (j + 2)) as [H|H].
    + eapply emits_weaken; [reflexivity|apply emits_add; [done|apply (encodes_box_range ndebug 2 id j 1); (done || lia)|lia]|].
      intros d' l a _ (-> & -> & _). right. exists b, id. split_and!; [done|done|]. by rewrite (range_regs j 1 false eq_refl).
    + eapply emits_weaken; [reflexivity|apply emits_add; [done|apply (encodes_box ndebug 2 id j); (done || lia)|lia]|].
      intros d' l a _ (-> & -> & _). right. exists b, id. split_and!; done.
Qed.

Lemma emits_const i d : builder_ok d -> 0 <= i < 32768 ->
  emits 0 (BuildConst ndebug (Local_ 0) i) d (fun d' l a => d' = d /\ l = [DConst 0 i] /\ a = 0).
Proof.
  intros Hok Hi. unfold BuildConst. apply emits_assert; [lia|]. rewrite trunc_small by lia.
  apply emits_add; [done|by apply encodes_const|lia].
Qed.

Lemma emits_parameters ts : forall i j d, Forall stub_type ts -> builder_ok d -> 0 <= i -> 0 <= j ->
  i + Z.of_nat (length ts) <= 32768 -> j + total_words ts <= 254 -> Z.of_nat (size d) + 10 * Z.of_nat (length ts) <= 2 ^ 16 ->
  emits (10 * length ts) (box_parameters ndebug (Local_ 0) (Local_ 1) ts i j) d (fun d' l _ => arg_code d' ts i j l).
Proof.
  induction ts as [|t ts IH]; intros i j d Hts Hok Hi Hj Hil Hjw Hsz; cbn [box_parameters].
  { intros b Hb. exists d, [], [], 0. split_and!; try done; try apply grows_refl; try constructor.
    cbn. rewrite app_nil_r. by destruct b. }
  apply Forall_cons in Hts as [Ht Hts].
  change (total_words (t :: ts)) with (words t + total_words ts) in Hjw. cbn [length] in *.
  pose proof (total_words_length ts) as Hlen. assert (Hw : 1 <= words t <= 2) by (unfold words; destruct (wide_ t); lia).
  apply (emits_bind 10 (10 * length ts) (10 * S (length ts)) _ _ _ (fun d' l _ => box_emitted t j d' l) _ ltac:(lia)).
  { apply emits_box; (done || lia). }
  intros d1 l1 a1 Hbox _ Hok1 G1. pose proof (gr_size _ _ _ G1) as Hs1.
  apply (emits_bind 0 (10 * length ts) (10 * length ts) _ _ _ _ _ ltac:(lia) (emits_const i d1 Hok1 ltac:(lia))).
  intros ? ? ? (-> & -> & ->) _ _ _.
  apply (emits_bind 0 (10 * length ts) (10 * length ts) _ _ _ _ _ ltac:(lia)
    (emits_add _ _ 0 d1 Hok1 (encodes_aput ndebug 2 j ltac:(lia) ltac:(lia) ltac:(lia)) ltac:(lia))).
  intros ? ? ? (-> & -> & ->) _ _ _.
  assert (Ej : (if wide_ t then j + 1 else j) + 1 = j + words t) by (unfold words; destruct (wide_ t); lia). rewrite Ej.
  eapply emits_weaken; [reflexivity|apply IH; (done || lia)|].
  intros d' l a G Hcode. cbn [app].
  destruct Hbox as [[-> ->]|(b & id & Htb & Hid & ->)].
  - by apply arg_ref.
  - apply (arg_box d' t b ts i j id l Htb); [|done]. by eapply grows_method.
Qed.

Definition return_type_ok (r : TypeDescriptor) : Prop := r = TypeDescriptor_Void \/ stub_type r.

Lemma type_of_char_return c : return_type_ok (type_of_char c).
Proof.
  destruct (decide (c = char_of "V")) as [->|H]; [by left|]. right. by apply type_of_char_stub.
Qed.

Lemma emits_result r d : return_type_ok r -> builder_ok d -> Z.of_nat (size d) + 10 <= 2 ^ 16 ->
  emits 10 (return_result ndebug (Local_ 0) r) d (fun d' l a => result_code d' r l /\ a <= 1).
Proof.
  intros Hr Hok Hsz. unfold return_result.
  assert (Htype : forall t d1 n, types_by_descriptor_ d1 !! t = Some n -> builder_ok d1 -> grows 2 d d1 -> is_unit n).
  { intros t d1 n Hn Hok1 G. pose proof (type_bound d1 Hok1 _ _ Hn). pose proof (gr_size _ _ _ G). unfold is_unit. lia. }
  destruct Hr as [->|[->|[b Hrb]]].
  - change (same_type _ _) with true. cbv iota.
    eapply emits_weaken; [|apply emits_add; [done|apply encodes_return_void|lia]|]; [lia|].
    intros d' l a _ (-> & -> & ->). split; [by apply result_void|lia].
  - change (same_type _ _) with false. change (is_primitive _) with false. cbv iota.
    apply (emits_on_dex 2 8 10 _ _ d _ _ ltac:(lia) (GetOrAddType_ok ndebug (descriptor_ TypeDescriptor_Object) d Hok ltac:(by apply text_lit))).
    intros t d1 [Ht _] Hok1 G1. apply (emits_lift 8 _ (OpWithArgs kCheckCast (Some (Local_ 0)) [Type__ t])).
    { unfold Cast. by rewrite SLICER_CHECK_true. }
    apply (emits_bind 0 8 8 _ _ _ _ _ ltac:(lia) (emits_add _ _ 0 d1 Hok1 (encodes_cast ndebug 2 t ltac:(by eapply Htype)) ltac:(lia))).
    intros ? ? ? (-> & -> & ->) _ _ _.
    eapply emits_weaken; [|apply emits_add; [done|apply encodes_return_object|lia]|]; [lia|].
    intros d' l a _ (-> & -> & ->). split; [by apply result_ref|lia].
  - destruct (boxing_ok ndebug r b Hrb). rewrite bf_void0, bf_primitive0.
    apply (emits_lift _ _ b _ _ _ bf_box0). destruct bf_nul0 as [Hnr Hnb].
    apply (emits_on_dex 2 8 10 _ _ d _ _ ltac:(lia) (GetOrAddType_ok ndebug _ d Hok Hnb)).
    intros t d1 [Ht _] Hok1 G1. apply (emits_lift 8 _ (OpWithArgs kCheckCast (Some (Local_ 0)) [Type__ t])).
    { unfold Cast. by rewrite SLICER_CHECK_true. }
    apply (emits_bind 0 8 8 _ _ _ _ _ ltac:(lia) (emits_add _ _ 0 d1 Hok1 (encodes_cast ndebug 2 t ltac:(by eapply Htype)) ltac:(lia))).
    intros ? ? ? (-> & -> & ->) _ _ _. destruct bf_accessor0 as (name & Hname & Hnn & Hun).
    apply (emits_bind 8 0 8 _ _ _ (fun d' l a => exists id, a = 1 /\ method_id_map_ d' !! (descriptor_ b, name, (descriptor_ r, [])) = Some (id, id) /\
      l = [DInvoke Virtual id [0]; if wide_ r then DMoveResultWide 0 else DMoveResult 0]) _ ltac:(lia)).
    + unfold BuildUnBoxIfPrimitive. rewrite bf_object0.
      apply (emits_lift _ _ r _ _ _ bf_unbox0). apply (emits_lift _ _ name _ _ _ Hname).
      apply (emits_on_dex 8 0 8 _ _ d1 _ _ ltac:(lia) (GetOrDeclareMethod_ok ndebug b name {| return_type_ := r; param_types_ := [] |} d1 Hok1 Hnb Hnn bf_proto0)).
      intros [id id'] d2 [E Hid] Hok2 G2. cbn in E. subst id'. cbv beta iota.
      assert (Hu : is_unit id).
      { pose proof (method_bound d2 Hok2 _ _ _ Hid). pose proof (gr_size _ _ _ G2) as Hs. pose proof (gr_size _ _ _ G1). unfold is_unit. cbn in Hs. lia. }
      destruct (wide_ r).
      * eapply emits_weaken; [reflexivity|apply emits_add; [done|by apply (encodes_unbox_wide ndebug 2 id)|lia]|].
        intros d' l a _ (-> & -> & ->). by exists id.
      * eapply emits_weaken; [reflexivity|apply emits_add; [done|by apply (encodes_unbox ndebug 2 id)|lia]|].
        intros d' l a _ (-> & -> & ->). by exists id.
    + intros d2 l2 a2 (id & -> & Hid & ->) _ Hok2 G2. unfold BuildReturn.
      assert (Ht2 : types_by_descriptor_ d2 !! descriptor_ b = Some t) by (by eapply grows_type).
      pose proof (result_box d2 r b name t id Hrb Ht2 Hname Hid) as Hres.
      destruct (wide_ r).
      * eapply emits_weaken; [reflexivity|apply emits_add; [done|apply encodes_return_wide|lia]|].
        intros d' l a _ (-> & -> & ->). split; [exact Hres|lia].
      * eapply emits_weaken; [reflexivity|apply emits_add; [done|apply encodes_return|lia]|].
        intros d' l a _ (-> & -> & ->). split; [exact Hres|lia].
Qed.

(** The hook method after its two registers and its first instruction. *)
Definition hook_rest (r : TypeDescriptor) (ts : list TypeDescriptor) (hooker_type : TypeDescriptor) (field : Z)
    (callback_name : list byte) : BM unit :=
  BuildNewArray ndebug (Local_ 1) TypeDescriptor_Object (Local_ 0) ;;
  box_parameters ndebug (Local_ 0) (Local_ 1) ts 0 0 ;;
  '(id, _) ← on_dex (GetOrDeclareMethod ndebug hooker_type callback_name
    {| return_type_ := TypeDescriptor_Object; param_types_ := [ToArray TypeDescriptor_Object] |});
  add (GetStaticObjectField field (Local_ 0)) ;;
  add (InvokeVirtualObject id (Some (Local_ 0)) (Local_ 0) [Local_ 1]) ;;
  return_result ndebug (Local_ 0) r.

Lemma proto_object_array : proto_text {| return_type_ := TypeDescriptor_Object; param_types_ := [ToArray TypeDescriptor_Object] |}.
Proof. split_and!; [by apply text_lit|by apply text_lit|apply Forall_cons_2; [by apply text_lit|by apply Forall_nil_2]]. Qed.

Lemma emits_hook_rest r ts hooker_type field callback_name d : return_type_ok r -> Forall stub_type ts -> builder_ok d ->
  total_words ts <= 254 -> Z.of_nat (size d) + 10 * Z.of_nat (length ts) + 22 <= 2 ^ 16 -> is_unit field ->
  text (descriptor_ hooker_type) -> text callback_name ->
  emits (10 * length ts + 22) (hook_rest r ts hooker_type field callback_name) d (fun d' l a => a = 2 /\
    hook_code d' r ts hooker_type field callback_name (DConst 0 (Z.of_nat (length ts)) :: l)).
Proof.
  intros Hr Hts Hok Hw Hsz Hf Hht Hcn. unfold hook_rest. pose proof (total_words_length ts) as Hlen.
  apply (emits_bind 2 (10 * length ts + 20) (10 * length ts + 22) _ _ _ (fun d' l a => a = 0 /\ exists t,
    types_by_descriptor_ d' !! descriptor_ (ToArray TypeDescriptor_Object) = Some t /\ l = [DNewArray 1 0 t]) _ ltac:(lia)).
  { unfold BuildNewArray. apply (emits_on_dex 2 0 2 _ _ d _ _ ltac:(lia)
      (GetOrAddType_ok ndebug (descriptor_ (ToArray TypeDescriptor_Object)) d Hok ltac:(by apply text_lit))).
    intros t d1 [Ht _] Hok1 G1. eapply emits_weaken; [reflexivity|apply (emits_add _ [DNewArray 1 0 t] 0); [done| |lia]|].
    - apply encodes_new_array. pose proof (type_bound d1 Hok1 _ _ Ht). pose proof (gr_size _ _ _ G1). unfold is_unit. lia.
    - intros d' l a _ (-> & -> & ->). split; [done|]. by exists t. }
  intros d1 l1 a1 (-> & t & Ht & ->) _ Hok1 G1. pose proof (gr_size _ _ _ G1) as Hs1.
  apply (emits_bind (10 * length ts) 20 (10 * length ts + 20) _ _ _ _ _ ltac:(lia)
    (emits_parameters ts 0 0 d1 Hts Hok1 ltac:(lia) ltac:(lia) ltac:(lia) ltac:(lia) ltac:(lia))).
  intros d2 l2 a2 Hargs Ha2 Hok2 G2. pose proof (gr_size _ _ _ G2) as Hs2.
  apply (emits_on_dex 10 10 20 _ _ d2 _ _ ltac:(lia)
    (GetOrDeclareMethod_ok ndebug hooker_type callback_name _ d2 Hok2 Hht Hcn proto_object_array)).
  intros [id id'] d3 [E Hid] Hok3 G3. cbn in E. subst id'. cbv beta iota. pose proof (gr_size _ _ _ G3) as Hs3. cbn in Hs3.
  pose proof (method_bound d3 Hok3 _ _ _ Hid) as Hb.
  apply (emits_bind 0 10 10 _ _ _ _ _ ltac:(lia) (emits_add _ _ 0 d3 Hok3 (encodes_sget ndebug 2 field Hf) ltac:(lia))).
  intros ? ? ? (-> & -> & ->) _ _ _.
  apply (emits_bind 0 10 10 _ _ _ _ _ ltac:(lia)
    (emits_add _ _ 2 d3 Hok3 (encodes_callback ndebug 2 id ltac:(unfold is_unit; lia)) ltac:(lia))).
  intros ? ? ? (-> & -> & ->) _ _ _.
  intros b Hbn. destruct (emits_result r d3 Hr Hok3 ltac:(lia) b Hbn) as (d4 & vs & ls & a & Hrun & Hok4 & G4 & He & Ha & Hres & Ha1).
  exists d4, vs, ls, a. split_and!; try done; try lia.
  - pose proof (grows_trans _ _ _ _ _ G2 (grows_trans _ _ _ _ _ G3 G4)) as G24.
    pose proof (hook_code_intro d4 r ts hooker_type field callback_name t id l2 ls) as H. cbn [app] in *.
    apply H; [exact (grows_type _ _ _ _ _ G24 Ht)| |exact (grows_method _ _ _ _ _ G4 Hid)|done].
    exact (arg_code_grows _ _ _ _ _ _ _ (grows_trans _ _ _ _ _ G3 G4) Hargs).
Qed.
End Emit.
