(* ===== verification/HookFileSpec.v ===== *)
(** The file that [BuildDex] makes: it succeeds, and its class holds the field, the
    hook and the backup with the code that BuildDex.v describes. *)
From stdpp Require Import strings.
From Stdlib Require Import Ascii String.
From S2P Require Import Prelude Leb128 SlicerBuffer DexBytecode DexIsa DexCode DexDebug DexIr DexIrSpec DexOrder.
From S2P Require Import DexBuilder MethodBuilder DexBuilderSpec DalvikSem MethodBuilderSpec BuildDex.

(** ** Growth that may add classes and code *)

Record later (n : nat) (d d' : DexBuilder) : Prop := {
  la_strings : strings_ d ⊆ strings_ d';
  la_types : types_by_descriptor_ d ⊆ types_by_descriptor_ d';
  la_protos : proto_map_ d ⊆ proto_map_ d';
  la_fields : field_decls_by_key_ d ⊆ field_decls_by_key_ d';
  la_methods : method_id_map_ d ⊆ method_id_map_ d';
  la_size : (size d' <= size d + n)%nat;
  la_type_nodes : keeps_types d d';
  la_codes : codes (data_ (dex_file_ d)) `prefix_of` codes (data_ (dex_file_ d'))
}.

Lemma grows_later n d d' : grows n d d' -> later n d d'.
Proof. intros []. constructor; try done. by rewrite gr_codes. Qed.
Lemma later_trans n1 n2 d1 d2 d3 : later n1 d1 d2 -> later n2 d2 d3 -> later (n1 + n2) d1 d3.
Proof. intros [] []. constructor; first [by etrans | lia | by eapply keeps_trans]. Qed.

(** Parts of the file that no key depends on. *)
Record same_items (ir ir' : DexFile) : Prop := {
  si_tbl : tbl ir' = tbl ir;
  si_strings : string_nodes (nodes ir') = string_nodes (nodes ir);
  si_types : forall i t, type_nodes (nodes ir) !! i = Some t ->
    exists c, type_nodes (nodes ir') !! i = Some {| DexIr.descriptor := DexIr.descriptor t; class_def := c |};
  si_protos : proto_nodes (nodes ir') = proto_nodes (nodes ir);
  si_fields : field_nodes (nodes ir') = field_nodes (nodes ir);
  si_methods : method_nodes (nodes ir') = method_nodes (nodes ir);
  si_lists : type_lists (data_ ir') = type_lists (data_ ir)
}.

Lemma same_items_ok d ir' : builder_ok d -> same_items (dex_file_ d) ir' -> builder_ok (with_file ir' d).
Proof.
  intros Hok [Et Es Ety Ep Ef Em El].
  assert (Hl : forall l, types_in (data_ ir') l = types_in (data_ (dex_file_ d)) l /\
    (list_ok (data_ (dex_file_ d)) l -> list_ok (data_ ir') l)) by (intros [l|]; cbn; rewrite ?El; done).
  constructor; cbn [dex_file_ with_file strings_ types_by_descriptor_ proto_map_ field_decls_by_key_ method_id_map_];
    rewrite ?Et, ?Es, ?Ep, ?Ef, ?Em; try apply Hok.
  - intros s i H. destruct (bo_type d Hok s i H) as (Hi & j & c & Hn & Hj). split; [done|].
    destruct (Ety _ _ Hn) as [c' Hc]. by exists j, c'.
  - intros r ps i H. destruct (bo_proto d Hok r ps i H) as (Hi & sh & j & l & Hn & Hj & Hlo & Hf). split; [done|].
    exists sh, j, l. destruct (Hl l) as [-> Hlo']. split_and!; auto.
Qed.

(** Dots and slashes are single bytes. *)
Lemma text_slashes name : text name -> text (map (fun c => if c =? char_of "." then char_of "/" else c) name).
Proof.
  intros (us & Hu & ->). set (f := fun c => if c =? char_of "." then char_of "/" else c). exists (map f us).
  induction Hu as [|u us Hu _ [IH1 IH2]]; [split; [constructor|done]|]. cbn [map concat]. rewrite map_app, IH2. split.
  - constructor; [|done]. unfold f. by case_match.
  - f_equal. unfold f, encode_unit. change (char_of ".") with 46. change (char_of "/") with 47. unfold in_word in Hu.
    assert (Hb : forall a, 0x80 <= a -> (if a =? 46 then 47 else a) = a) by (intros a Ha; destruct (Z.eqb_spec a 46); lia).
    assert (Hl : forall k v, 0x80 <= k -> 0 <= v -> 0x80 <= Z.lor k v) .
    { intros k v Hk Hv. assert (0 < Z.lor k v) by (pose proof (proj2 (Z.lor_nonneg k v)); pose proof (Z.lor_eq_0_iff k v); lia).
      apply (Z.log2_le_pow2 (Z.lor k v) 7); [done|]. rewrite Z.log2_lor by lia.
      pose proof (proj1 (Z.log2_le_pow2 k 7 ltac:(lia)) ltac:(lia)). lia. }
    destruct (Z.eqb_spec u 46) as [->|Hn]; [done|].
    destruct (Z.leb_spec 1 u), (Z.ltb_spec u 0x80), (Z.ltb_spec u 0x800); cbn [andb map];
      rewrite ?(Hb (Z.lor _ _)) by (apply Hl; [lia|]; first [apply Z.shiftr_nonneg | apply Z.land_nonneg]; lia); try done;
      try (destruct (Z.eqb_spec u 46); [lia|done]).
Qed.
Lemma text_descriptor name : text name -> text (DotToDescriptor name).
Proof.
  intros H. unfold DotToDescriptor. cbv zeta.
  assert (Hm : text (map (fun c => if c =? char_of "." then char_of "/" else c) name)) by by apply text_slashes.
  case_match; [|done]. apply text_cons; [done|]. apply text_app; [done|by apply text_lit].
Qed.

Lemma later_same n d ir' : tbl ir' = tbl (dex_file_ d) -> type_nodes (nodes ir') = type_nodes (nodes (dex_file_ d)) -> codes (data_ (dex_file_ d)) `prefix_of` codes (data_ ir') ->
  later n d (with_file ir' d).
Proof.
  intros Ht Hn Hc. constructor; cbn; try done.
  - unfold size. cbn. rewrite Ht. lia.
  - intros s t _. cbn. by rewrite Hn.
Qed.

(** The classes of the file. *)
Abbreviation class_map d := (class_nodes (nodes (dex_file_ d))).

Section Class.
Context (ndebug : bool).

(** ** Words of a parameter list *)

Lemma c_str_data n i s data : string_nodes n !! i = Some data -> string_data s = Some data -> c_str n i = s ++ [0].
Proof.
  intros Hn Hd. unfold c_str. rewrite Hn. unfold string_data in Hd.
  destruct (uleb_roundtrip (u32 (actual_len s)) (s ++ [0]) (trunc_range 32 _ ltac:(lia))) as (bs & E & _ & R & _).
  change leb_fuel with 5%nat in E. rewrite E in Hd. cbn in Hd. injection Hd as <-. unfold from_option, id. by rewrite R.
Qed.

Definition descr_words (s : list byte) : Z := match GetCategory s with WideScalar => 2 | _ => 1 end.

Lemma type_words_named d s t : builder_ok d -> types_by_descriptor_ d !! s = Some t -> s <> [] ->
  type_words (nodes (dex_file_ d)) t = descr_words s.
Proof.
  intros Hok Ht Hs. destruct (bo_type _ Hok _ _ Ht) as (_ & j & c & Hn & Hj).
  destruct (bo_string _ Hok _ _ Hj) as (_ & _ & data & Hd & Hn').
  unfold type_words, type_node, descr_words. rewrite Hn. cbn. rewrite (c_str_data _ _ s data Hn' Hd).
  destruct s as [|c0 s]; [done|]. reflexivity.
Qed.

Lemma param_words d ps ts : builder_ok d -> Forall2 (fun s x => types_by_descriptor_ d !! s = Some x) ps ts ->
  Forall (.≠ []) ps -> foldr Z.add 0 (map (type_words (nodes (dex_file_ d))) ts) = foldr Z.add 0 (map descr_words ps).
Proof.
  intros Hok. induction 1 as [|s t ps ts H _ IH]; [done|]. intros [Hs Hps]%Forall_cons. cbn.
  by rewrite IH, (type_words_named d s t).
Qed.

Lemma stub_words ts : Forall stub_type ts -> foldr Z.add 0 (map descr_words (map descriptor_ ts)) = total_words ts.
Proof.
  induction 1 as [|t ts Ht _ IH]; [done|]. cbn. unfold total_words in IH. rewrite IH. f_equal.
  destruct Ht as [->|[b Hb]]; [done|]. revert t b Hb. each_boxing; done.
Qed.

(** ** [Encode] *)

Definition with_direct (e : EncodedMethod) (k : Class_) : Class_ :=
  {| c_type := c_type k; c_access_flags := c_access_flags k; super_class := super_class k; interfaces := interfaces k;
     source_file := source_file k; c_annotations := c_annotations k; static_init := static_init k;
     static_fields := static_fields k; instance_fields := instance_fields k;
     direct_methods := direct_methods k ++ [e]; virtual_methods := virtual_methods k |}.

Definition with_source (i : Z) (k : Class_) : Class_ :=
  {| c_type := c_type k; c_access_flags := c_access_flags k; super_class := super_class k; interfaces := interfaces k;
     source_file := Some i; c_annotations := c_annotations k; static_init := static_init k;
     static_fields := static_fields k; instance_fields := instance_fields k;
     direct_methods := direct_methods k; virtual_methods := virtual_methods k |}.
Definition with_static (f : EncodedField) (k : Class_) : Class_ :=
  {| c_type := c_type k; c_access_flags := c_access_flags k; super_class := super_class k; interfaces := interfaces k;
     source_file := source_file k; c_annotations := c_annotations k; static_init := static_init k;
     static_fields := static_fields k ++ [f]; instance_fields := instance_fields k;
     direct_methods := direct_methods k; virtual_methods := virtual_methods k |}.

Definition class_at (d : DexBuilder) (c : Z) : Class_ := class_node (nodes (dex_file_ d)) c.

Lemma class_at_only d c k : class_map d = {[c := k]} -> class_at d c = k.
Proof. intros H. unfold class_at, class_node. rewrite H. by rewrite lookup_singleton_eq. Qed.
Lemma class_at_grows n d d' c : grows n d d' -> class_at d' c = class_at d c.
Proof. intros G. unfold class_at, class_node. by rewrite (gr_class_nodes _ _ _ G). Qed.

(** Instructions [us] in a frame of [n] locals and [w] words of parameters. *)
Record code_is (us : list Z) (n w a : Z) (c : Code) : Prop := {
  ci_registers : registers c = u16 (n + w); ci_ins : ins_count c = u16 w; ci_instructions : instructions c = us;
  ci_outs : exists rc, 0 <= rc <= 1 /\ outs_count c = u16 (Z.max rc a);
  ci_tries : try_blocks c = [] /\ catch_handlers c = []
}.

Lemma run_M {S A B} (c : M S A) (f : A -> M S B) s x s' : c s = Some (x, s') -> (c ≫= f) s = f x s'.
Proof. intros H. unfold mbind, M_bind. by rewrite H. Qed.
Lemma run_dex {A B} (m : M DexBuilder A) (f : A -> BM B) d b x d' :
  m d = Some (x, d') -> (on_dex m ≫= f) (d, b) = f x (d', b).
Proof. intros H. unfold mbind, M_bind, on_dex. cbn [fst snd]. by rewrite H. Qed.
Lemma run_method {A B} (m : M MethodBuilder A) (f : A -> BM B) d b x b' :
  m b = Some (x, b') -> (on_method m ≫= f) (d, b) = f x (d, b').
Proof. intros H. unfold mbind, M_bind, on_method. cbn [fst snd]. by rewrite H. Qed.

Lemma Encode_code_ok d m n ls a c s r ps : builder_ok d -> method_id_map_ d !! (c, s, (r, ps)) = Some (decl_ m, decl_ m) ->
  access_flags_ m = 9 -> max_args_ m = 0 -> NumRegisters m = n -> encodes_all ndebug n (instructions_ m) ls a -> 0 <= a ->
  Forall (.≠ []) ps ->
  exists us d' m' code, Encode_code ndebug (d, m) = Some (length (codes (data_ (dex_file_ d))), (d', m')) /\
    insns us ls /\ builder_ok d' /\ later 2 d d' /\ codes (data_ (dex_file_ d')) = codes (data_ (dex_file_ d)) ++ [code] /\
    code_is us n (foldr Z.add 0 (map descr_words ps)) a code /\
    class_nodes (nodes (dex_file_ d')) = class_nodes (nodes (dex_file_ d)) /\ classes (dex_file_ d') = classes (dex_file_ d).
Proof.
  intros Hok Hdecl Hflags Hmax Hn He Ha Hps.
  destruct (bo_method _ Hok _ _ _ _ _ Hdecl) as (_ & _ & ci & si & ki & Hm & _ & _ & Hk).
  destruct (bo_proto _ Hok _ _ _ Hk) as (_ & sh & ri & l & Hp & Hr & _ & Hl).
  destruct (EncodeInstructions_ok ndebug n m ls a Hn ltac:(lia) He) as (us & Hus & HE).
  destruct (GetOrAddType_ok ndebug (descriptor_ TypeDescriptor_Void) d Hok ltac:(by apply text_lit)) as (v & d1 & Ev & Hok1 & G1 & _).
  unfold Encode_code. change ((get ≫= ?f) (d, m)) with (f (d, m) (d, m)). cbv beta iota.
  rewrite (run_dex get _ d m d d) by done. rewrite Hflags. change (Z.land 9 8 =? 0) with false. cbv iota.
  unfold method_node, proto_node. rewrite Hm. cbn [from_option id m_prototype default]. rewrite Hp.
  cbn [from_option id param_types DexIr.return_type default].
  rewrite (param_words d ps _ Hok Hl Hps). set (w := foldr Z.add 0 (map descr_words ps)).
  rewrite (run_method _ _ _ _ _ _ HE). rewrite (run_method get _ _ _ _ _ eq_refl). rewrite (run_dex _ _ _ _ _ _ Ev).
  rewrite (run_dex get _ _ _ _ _ eq_refl). cbv zeta. rewrite (gr_codes _ _ _ G1).
  set (ir := dex_file_ d1). set (src := match source_file _ with Some _ => true | None => false end).
  set (data := if src then add_debug_info _ _ else _). set (code := {| registers := _ |}).
  exists us, (with_file (set_data (add_code code data) ir) d1). eexists. exists code.
  assert (Hdata : type_lists data = type_lists (data_ ir) /\ codes data = codes (data_ ir)) by (unfold data; by destruct src).
  destruct Hdata as [Hd1 Hd2].
  assert (Hcodes : codes (data_ (set_data (add_code code data) ir)) = codes (data_ (dex_file_ d)) ++ [code]).
  { cbn. rewrite Hd2. unfold ir. by rewrite (gr_codes _ _ _ G1). }
  split_and!; [reflexivity|exact Hus| | |exact Hcodes| |exact (gr_class_nodes _ _ _ G1)|exact (gr_classes _ _ _ G1)].
  - apply same_items_ok; [done|]. constructor; cbn; try done. intros i [dd cc] Hi. by exists cc.
  - apply (later_trans 2 0 _ d1); [by apply grows_later|]. apply later_same; [done|done|].
    rewrite Hcodes, (gr_codes _ _ _ G1). by apply prefix_app_r.
  - constructor; try done.
    + cbn. unfold kMaxScratchRegisters. f_equal. change (NumRegisters _) with (NumRegisters m). rewrite Hn. lia.
    + exists (if ri =? v then 0 else 1). split; [destruct (ri =? v); lia|]. cbn. f_equal. rewrite Hmax. lia.
Qed.

Lemma update_class_ok c f d : builder_ok d ->
  exists d', update_class c f d = Some (tt, d') /\ builder_ok d' /\ later 0 d d' /\ class_map d' = <[c := f (class_at d c)]> (class_map d) /\
    classes (dex_file_ d') = classes (dex_file_ d) /\ codes (data_ (dex_file_ d')) = codes (data_ (dex_file_ d)).
Proof.
  intros Hok. eexists. split; [reflexivity|]. split_and!; try done.
  - apply same_items_ok; [done|]. constructor; cbn; try done. intros i [dd cc] Hi. by exists cc.
  - by apply later_same.
Qed.

Lemma Encode_ok d m n ls a c s r ps : builder_ok d -> method_id_map_ d !! (c, s, (r, ps)) = Some (decl_ m, decl_ m) ->
  access_flags_ m = 9 -> max_args_ m = 0 -> NumRegisters m = n -> encodes_all ndebug n (instructions_ m) ls a -> 0 <= a ->
  Forall (.≠ []) ps ->
  let e := {| m_decl := decl_ m; m_code := Some (length (codes (data_ (dex_file_ d)))); m_access_flags := 9 |} in
  exists us d' m' code, Encode ndebug (d, m) = Some (e, (d', m')) /\ insns us ls /\ builder_ok d' /\ later 2 d d' /\
    codes (data_ (dex_file_ d')) = codes (data_ (dex_file_ d)) ++ [code] /\
    code_is us n (foldr Z.add 0 (map descr_words ps)) a code /\
    class_map d' = <[builder_class m := with_direct e (class_at d (builder_class m))]> (class_map d) /\ classes (dex_file_ d') = classes (dex_file_ d).
Proof.
  intros Hok Hdecl Hflags Hmax Hn He Ha Hps e.
  destruct (Encode_code_ok d m n ls a c s r ps Hok Hdecl Hflags Hmax Hn He Ha Hps)
    as (us & d1 & m1 & code & E & Hus & Hok1 & L1 & Hcodes & Hcode & Hcl & Hcls).
  destruct (update_class_ok (builder_class m) (with_direct e) d1 Hok1) as (d2 & E2 & Hok2 & L2 & Hc2 & Hcls2 & Hcodes2).
  exists us, d2, m1, code. split_and!; try done.
  - unfold Encode. change ((get ≫= ?f) (d, m)) with (f (d, m) (d, m)). cbv beta iota. rewrite Hflags.
    change (Z.land 9 (Z.lor 0x0400 0x0100) =? 0) with true. change (Z.land 9 (Z.lor (Z.lor 0x0008 0x0002) 0x00010000) =? 0) with false.
    cbn [negb]. cbv iota.
    rewrite (run_M _ _ _ (Some (length (codes (data_ (dex_file_ d))))) (d1, m1)); [|by rewrite (run_M _ _ _ _ _ E)].
    cbv beta. fold e.
    match goal with |- context [update_class ?c ?f] => change (update_class c f) with (update_class c (with_direct e)) end.
    by rewrite (run_dex _ _ _ _ _ _ E2).
  - exact (later_trans 2 0 _ _ _ L1 L2).
  - by rewrite Hcodes2.
  - rewrite Hc2. unfold class_at, class_node. by rewrite Hcl.
  - by rewrite Hcls2.
Qed.

(** ** The class and its field *)

Lemma MakeClass_ok name d : builder_ok d -> text name ->
  let c := Z.of_nat (length (classes (dex_file_ d))) in
  exists d' t s, MakeClass ndebug name d = Some ({| type_descriptor_ := FromClassname name; class_ := c |}, d') /\
    builder_ok d' /\ (size d' <= size d + 4)%nat /\ class_map d' = <[c := new_class t s]> (class_map d) /\ classes (dex_file_ d') = classes (dex_file_ d) ++ [c] /\
    types_by_descriptor_ d' !! DotToDescriptor name = Some t /\
    types_by_descriptor_ d' !! descriptor_ TypeDescriptor_Object = Some s /\
    codes (data_ (dex_file_ d')) = codes (data_ (dex_file_ d)) /\
    (types_by_descriptor_ d !! descriptor_ TypeDescriptor_Object = None -> DotToDescriptor name <> descriptor_ TypeDescriptor_Object ->
      exists j, type_nodes (nodes (dex_file_ d')) !! s = Some {| DexIr.descriptor := j; class_def := None |}).
Proof.
  intros Hok Hn c.
  pose proof (text_descriptor name Hn) as Hd.
  destruct (GetOrAddType_ok ndebug _ d Hok Hd) as (t & d1 & E1 & Hok1 & G1 & Ht & _).
  set (ir2 := add_node_maps (set_type t {| DexIr.descriptor := DexIr.descriptor (type_node (nodes (dex_file_ d1)) t); class_def := Some c |}) (dex_file_ d1)).
  assert (Hok2 : builder_ok (with_file ir2 d1)).
  { apply same_items_ok; [done|]. constructor; cbn; try done. intros i [dd cc] Hi.
    destruct (decide (i = t)) as [->|Hne]; [|exists cc; by rewrite lookup_insert_ne].
    exists (Some c). unfold type_node. by rewrite lookup_insert_eq, Hi. }
  destruct (GetOrAddType_ok ndebug (descriptor_ TypeDescriptor_Object) _ Hok2 ltac:(by apply text_lit))
    as (s & d3 & E3 & Hok3 & G3 & Hs & _).
  set (ir4 := add_node_maps (set_class c (new_class t s)) (set_classes (classes (dex_file_ d3) ++ [c]) (class_index (dex_file_ d3)) (dex_file_ d3))).
  exists (with_file ir4 d3), t, s.
  split_and!.
  - unfold MakeClass. rewrite run_get. rewrite (run_bind _ _ _ _ _ E1). fold c.
    rewrite (run_M _ _ d1 tt (with_file ir2 d1)) by reflexivity. rewrite (run_M _ _ _ _ _ E3). reflexivity.
  - apply same_items_ok; [done|]. constructor; cbn; try done. intros i [dd cc] Hi. by exists cc.
  - change (size (with_file ir4 d3)) with (size d3). pose proof (gr_size _ _ _ G1). pose proof (gr_size _ _ _ G3) as S3.
    change (size (with_file ir2 d1)) with (size d1) in S3. lia.
  - cbn. rewrite (gr_class_nodes _ _ _ G3). cbn. by rewrite (gr_class_nodes _ _ _ G1).
  - cbn. rewrite (gr_classes _ _ _ G3). cbn. by rewrite (gr_classes _ _ _ G1).
  - cbn. by eapply grows_type.
  - done.
  - cbn. rewrite (gr_codes _ _ _ G3). cbn. by rewrite (gr_codes _ _ _ G1).
  - intros Hnone Hne. destruct (GetOrAddType_new ndebug _ d t d1 Hok Hd E1) as [Hother _].
    destruct (GetOrAddType_new ndebug (descriptor_ TypeDescriptor_Object) _ s d3 Hok2 ltac:(by apply text_lit) E3) as [_ Hnew].
    apply Hnew. cbn [types_by_descriptor_ with_file]. rewrite Hother by congruence. exact Hnone.
Qed.
End Class.

Lemma builder_ok_new : builder_ok newDexBuilder.
Proof.
  constructor; try (intros *; cbn; rewrite ?lookup_empty; intros H; by (inversion H || apply not_elem_of_nil in H)).
  - intros [] H; try contradiction; apply dense_new.
  - by intros [].
Qed.

(** ** Keys are kept *)

Lemma later_method n d d' k i : later n d d' -> method_id_map_ d !! k = Some i -> method_id_map_ d' !! k = Some i.
Proof. intros H1 H2. exact (lookup_weaken _ _ _ _ H2 (la_methods _ _ _ H1)). Qed.
Lemma later_type n d d' k i : later n d d' -> types_by_descriptor_ d !! k = Some i -> types_by_descriptor_ d' !! k = Some i.
Proof. intros H1 H2. exact (lookup_weaken _ _ _ _ H2 (la_types _ _ _ H1)). Qed.
Lemma later_field n d d' k i : later n d d' -> field_decls_by_key_ d !! k = Some i -> field_decls_by_key_ d' !! k = Some i.
Proof. intros H1 H2. exact (lookup_weaken _ _ _ _ H2 (la_fields _ _ _ H1)). Qed.

Lemma arg_code_later n d d' ts i j l : later n d d' -> arg_code d ts i j l -> arg_code d' ts i j l.
Proof. intros L. induction 1; econstructor; (done || by eapply later_method). Qed.
Lemma result_code_later n d d' r l : later n d d' -> result_code d r l -> result_code d' r l.
Proof.
  intros L [H|b name t id Hb Ht Hn Hm|t H Ht]; [by apply result_void|eapply result_box; try done|eapply result_ref; try done].
  - by eapply later_type.
  - by eapply later_method.
  - by eapply later_type.
Qed.
Lemma hook_code_later n d d' r ts ht f cb l : later n d d' -> hook_code d r ts ht f cb l -> hook_code d' r ts ht f cb l.
Proof.
  intros L [t id args res Ht Ha Hm Hr].
  constructor; [by eapply later_type|by eapply arg_code_later|by eapply later_method|by eapply result_code_later].
Qed.

(** ** The bodies *)

Section Bodies.
Context (ndebug : bool).

(** A method builder that has its instructions. *)
Record body_built (class decl n : Z) (ls : list dinsn) (a : Z) (m : MethodBuilder) : Prop := {
  bb_class : builder_class m = class; bb_decl : decl_ m = decl; bb_flags : access_flags_ m = 9; bb_args : max_args_ m = 0;
  bb_registers : NumRegisters m = n; bb_code : encodes_all ndebug n (instructions_ m) ls a; bb_range : 0 <= a
}.

Lemma hook_body_ok r ts hooker_type field callback_name d class decl : return_type_ok r -> Forall stub_type ts -> builder_ok d ->
  total_words ts <= 254 -> Z.of_nat (size d) + 10 * Z.of_nat (length ts) + 22 <= 2 ^ 16 -> is_unit field ->
  text (descriptor_ hooker_type) -> text callback_name ->
  exists d' m' ls, hook_body ndebug r ts hooker_type field callback_name (d, newMethodBuilder class decl) = Some (tt, (d', m')) /\
    builder_ok d' /\ grows (10 * length ts + 22) d d' /\ body_built class decl 2 ls 2 m' /\
    hook_code d' r ts hooker_type field callback_name ls.
Proof.
  intros Hr Hts Hok Hw Hsz Hf Hht Hcn. pose proof (total_words_length ts) as Hlen.
  set (len := Z.of_nat (length ts)) in *.
  set (b := with_instructions [OpWithArgs kMove (Some (Local_ 0)) [Immediate len]] (with_registers [true; true] (newMethodBuilder class decl))).
  destruct (emits_hook_rest ndebug r ts hooker_type field callback_name d Hr Hts Hok Hw Hsz Hf Hht Hcn b eq_refl)
    as (d' & vs & ls & a & E & Hok' & G & He & Ha & -> & Hcode).
  eexists d', _, (DConst 0 len :: ls). split_and!; [|exact Hok'|exact G| |exact Hcode].
  - unfold hook_body. rewrite (run_method _ _ d _ (Local_ 0) (with_registers [true] (newMethodBuilder class decl))) by done.
    rewrite (run_M _ _ _ tt (d, with_instructions [OpWithArgs kMove (Some (Local_ 0)) [Immediate len]] (with_registers [true] (newMethodBuilder class decl)))).
    2: { unfold BuildConst. fold len. rewrite (run_M _ _ _ tt (d, with_registers [true] (newMethodBuilder class decl))).
      - change (u64 len) with (trunc 64 len). rewrite trunc_small by lia. reflexivity.
      - unfold assert, lift. rewrite SLICER_CHECK_true by lia. reflexivity. }
    rewrite (run_method _ _ d _ (Local_ 1) b) by done. exact E.
  - constructor; try done. apply (encodes_more ndebug 2 _ _ [DConst 0 len] ls 0 2); [apply encodes_const; lia|done].
Qed.

(** The backup returns at once; the target's code replaces its own. *)
Definition backup_code (r : TypeDescriptor) : list dinsn :=
  if same_type r TypeDescriptor_Void then [DReturnVoid]
  else if wide_ r then [DConstWide 0 0; DReturnWide 0]
  else [DConst 0 0; if is_primitive r then DReturn 0 else DReturnObject 0].
Definition backup_locals (r : TypeDescriptor) : Z :=
  if same_type r TypeDescriptor_Void then 0 else if wide_ r then 2 else 1.

Lemma backup_body_ok r d class decl :
  exists m', backup_body ndebug r (d, newMethodBuilder class decl) = Some (tt, (d, m')) /\
    body_built class decl (backup_locals r) (backup_code r) 0 m'.
Proof.
  unfold backup_body, backup_code, backup_locals. destruct (same_type r TypeDescriptor_Void).
  { eexists. split; [reflexivity|]. constructor; try done. apply encodes_all_one; [done|apply encodes_return_void]. }
  destruct (wide_ r).
  { eexists. split; [by destruct ndebug|]. constructor; try done.
    apply (encodes_more ndebug 2 _ _ [_] [_] 0 0); [apply encodes_const_wide|].
    apply encodes_all_one; [done|apply encodes_return_wide]. }
  destruct (is_primitive r).
  - eexists. split; [by destruct ndebug|]. constructor; try done.
    apply (encodes_more ndebug 1 _ _ [_] [_] 0 0); [by apply encodes_const|].
    apply encodes_all_one; [done|apply encodes_return].
  - eexists. split; [by destruct ndebug|]. constructor; try done.
    apply (encodes_more ndebug 1 _ _ [_] [_] 0 0); [by apply encodes_const|].
    apply encodes_all_one; [done|apply encodes_return_object].
Qed.

(** ** A method of the class *)

Lemma stub_facts t : stub_type t -> descriptor_ t <> [] /\ text (descriptor_ t) /\ ascii_char (short_descriptor t) = true.
Proof.
  intros [->|[b Hb]]; [split_and!; [done|by apply text_lit|done]|]. revert t b Hb.
  each_boxing; split_and!; try done; by apply text_lit.
Qed.

Definition prototype_of (r : TypeDescriptor) (ts : list TypeDescriptor) : Prototype := {| return_type_ := r; param_types_ := ts |}.

Lemma prototype_text r ts : return_type_ok r -> Forall stub_type ts -> proto_text (prototype_of r ts).
Proof.
  intros Hr Hts. assert (Hr' : text (descriptor_ r) /\ ascii_char (short_descriptor r) = true).
  { destruct Hr as [->|Hr]; [split; [by apply text_lit|done]|]. split; by apply stub_facts. }
  split_and!; cbn; [|apply Hr'|].
  - apply text_cons; [apply Hr'|]. cbn. clear Hr'. induction Hts as [|t ts Ht _ IH]; [by apply text_lit|].
    apply text_cons; [by apply stub_facts|done].
  - eapply Forall_impl; [exact Hts|]. intros t Ht. by apply stub_facts.
Qed.

(** [class] is [class_ cb]; [e] the method that [build_method] returns. *)
Lemma build_method_ok cb name r ts body d n a k (R : DexBuilder -> list dinsn -> Prop) : builder_ok d -> text name -> text (descriptor_ (type_descriptor_ cb)) ->
  return_type_ok r -> Forall stub_type ts ->
  (forall d1 decl, builder_ok d1 -> grows (8 + 2 * length ts) d d1 ->
    exists d2 m2 ls, body (d1, newMethodBuilder (class_ cb) decl) = Some (tt, (d2, m2)) /\ builder_ok d2 /\ grows k d1 d2 /\
      body_built (class_ cb) decl n ls a m2 /\ R d2 ls) ->
  exists e us d' code d2 ls, build_method ndebug cb name (prototype_of r ts) body d = Some (e, d') /\
    method_id_map_ d' !! (descriptor_ (type_descriptor_ cb), name, key_of_proto (prototype_of r ts)) = Some (m_decl e, m_decl e) /\
    e = {| m_decl := m_decl e; m_code := Some (length (codes (data_ (dex_file_ d)))); m_access_flags := 9 |} /\
    insns us ls /\ R d2 ls /\ later 2 d2 d' /\ builder_ok d' /\ later (10 + 2 * length ts + k) d d' /\
    codes (data_ (dex_file_ d')) = codes (data_ (dex_file_ d)) ++ [code] /\ code_is us n (total_words ts) a code /\
    class_map d' = <[class_ cb := with_direct e (class_at d (class_ cb))]> (class_map d) /\ classes (dex_file_ d') = classes (dex_file_ d).
Proof.
  intros Hok Hn Hc Hr Hts Hbody.
  destruct (GetOrDeclareMethod_ok ndebug (type_descriptor_ cb) name _ d Hok Hc Hn (prototype_text r ts Hr Hts))
    as ([id decl] & d1 & E1 & Hok1 & G1 & Eid & Hid). cbn in Eid. subst decl.
  change (4 + proto_cost (prototype_of r ts))%nat with (8 + 2 * length ts)%nat in G1.
  destruct (Hbody d1 id Hok1 G1) as (d2 & m2 & ls & E2 & Hok2 & G2 & [Hcl Hdecl Hfl Hmax Hnr Hcode Ha] & HR).
  pose proof (grows_method _ _ _ _ _ G2 Hid) as Hid2. rewrite <- Hdecl in Hid2.
  destruct (Encode_ok ndebug d2 m2 n ls a _ _ _ _ Hok2 Hid2 Hfl Hmax Hnr Hcode Ha) as
    (us & d3 & m3 & code & E3 & Hus & Hok3 & L3 & Hcodes & Hcd & Hclass & Hclasses).
  { apply Forall_map. eapply Forall_impl; [exact Hts|]. intros t Ht. by apply stub_facts. }
  set (e := {| m_decl := decl_ m2; m_code := _; m_access_flags := 9 |}) in *.
  pose proof (later_trans _ _ _ _ _ (later_trans _ _ _ _ _ (grows_later _ _ _ G1) (grows_later _ _ _ G2)) L3) as L.
  exists e, us, d3, code, d2, ls. split_and!; try done.
  - assert (EC : CreateMethod ndebug name (prototype_of r ts) cb d = Some (newMethodBuilder (class_ cb) id, d1))
      by (unfold CreateMethod; by rewrite (run_M _ _ _ _ _ E1)).
    unfold build_method. rewrite EC. cbn [mbind option_bind]. rewrite (run_M _ _ _ _ _ E2), E3. reflexivity.
  - exact (later_method _ _ _ _ _ L3 Hid2).
  - unfold e. cbn. rewrite (gr_codes _ _ _ G2), (gr_codes _ _ _ G1). done.
  - destruct L. constructor; try done. lia.
  - by rewrite Hcodes, (gr_codes _ _ _ G2), (gr_codes _ _ _ G1).
  - by rewrite stub_words in Hcd.
  - rewrite <- Hcl, Hclass, (class_at_grows _ _ _ _ G2), (class_at_grows _ _ _ _ G1). by rewrite (gr_class_nodes _ _ _ G2), (gr_class_nodes _ _ _ G1).
  - by rewrite Hclasses, (gr_classes _ _ _ G2), (gr_classes _ _ _ G1).
Qed.

(** ** The class *)

Lemma set_source_file_ok source cb d : builder_ok d -> text source ->
  exists d' i, set_source_file ndebug source cb d = Some (tt, d') /\ builder_ok d' /\ later 1 d d' /\
    strings_ d' !! source = Some i /\ class_map d' = <[class_ cb := with_source i (class_at d (class_ cb))]> (class_map d) /\
    classes (dex_file_ d') = classes (dex_file_ d) /\ codes (data_ (dex_file_ d')) = codes (data_ (dex_file_ d)).
Proof.
  intros Hok Hs. destruct (GetOrAddString_ok ndebug source d Hok Hs) as (i & d1 & E1 & Hok1 & G1 & Hi & _).
  destruct (update_class_ok (class_ cb) (with_source i) d1 Hok1) as (d2 & E2 & Hok2 & L2 & Hc & Hcls & Hcodes).
  exists d2, i. rewrite Hc, Hcls, Hcodes. split_and!; try done.
  - unfold set_source_file. by rewrite (run_M _ _ _ _ _ E1).
  - exact (later_trans _ _ _ _ _ (grows_later _ _ _ G1) L2).
  - exact (lookup_weaken _ _ _ _ Hi (la_strings _ _ _ L2)).
  - by rewrite (class_at_grows _ _ _ _ G1), (gr_class_nodes _ _ _ G1).
  - apply (gr_classes _ _ _ G1).
  - apply (gr_codes _ _ _ G1).
Qed.

Lemma static_field_ok name type cb d : builder_ok d -> text name -> text (descriptor_ type) ->
  text (descriptor_ (type_descriptor_ cb)) ->
  exists d1 d' f, CreateField ndebug name type cb d = Some (f, d1) /\
    FieldBuilder_Encode f 8 cb d1 = Some ({| f_decl := f; f_access_flags := 8 |}, d') /\ builder_ok d' /\ later 6 d d' /\
    field_decls_by_key_ d' !! (descriptor_ (type_descriptor_ cb), name) = Some f /\
    class_map d' = <[class_ cb := with_static {| f_decl := f; f_access_flags := 8 |} (class_at d (class_ cb))]> (class_map d) /\
    classes (dex_file_ d') = classes (dex_file_ d) /\ codes (data_ (dex_file_ d')) = codes (data_ (dex_file_ d)).
Proof.
  intros Hok Hn Ht Hc.
  destruct (GetOrAddField_ok ndebug (type_descriptor_ cb) name type d Hok Hc Hn Ht) as (f & d1 & E1 & Hok1 & G1 & Hf & _).
  destruct (update_class_ok (class_ cb) (with_static {| f_decl := f; f_access_flags := 8 |}) d1 Hok1)
    as (d2 & E2 & Hok2 & L2 & Hcl & Hcls & Hcodes).
  exists d1, d2, f. rewrite Hcl, Hcls, Hcodes. split_and!; try done.
  - change (FieldBuilder_Encode f 8 cb) with
      (update_class (class_ cb) (with_static {| f_decl := f; f_access_flags := 8 |}) ;; mret {| f_decl := f; f_access_flags := 8 |}).
    by rewrite (run_M _ _ _ _ _ E2).
  - exact (later_trans _ _ _ _ _ (grows_later _ _ _ G1) L2).
  - exact (later_field _ _ _ _ _ L2 Hf).
  - by rewrite (class_at_grows _ _ _ _ G1), (gr_class_nodes _ _ _ G1).
  - apply (gr_classes _ _ _ G1).
  - apply (gr_codes _ _ _ G1).
Qed.

(** ** The file *)

Record names_ok (nm : names) : Prop := {
  no_class : text (generated_class_name nm); no_source : text (generated_source_name nm);
  no_field : text (generated_field_name nm); no_method : text (generated_method_name nm)
}.

Lemma names_ok_default : names_ok default_names.
Proof. constructor; by apply text_lit. Qed.

(** The name of the hook method. *)
Definition hook_name (nm : names) (method_name : list byte) : list byte :=
  if bool_decide (generated_method_name nm = lit "{target}") then method_name else generated_method_name nm.

Definition method_key (nm : names) (name : list byte) (r : TypeDescriptor) (ts : list TypeDescriptor) :
    list byte * list byte * proto_key :=
  (DotToDescriptor (generated_class_name nm), name, key_of_proto (prototype_of r ts)).

(** What the file has: one class with the field of the hooker, the hook and the
    backup, and the code of the two methods. *)
Record hook_file (nm : names) (r : TypeDescriptor) (ts : list TypeDescriptor) (method_name hooker_class callback_name : list byte)
    (b : built) (d : DexBuilder) : Prop := {
  hf_ok : builder_ok d;
  hf_classes : classes (dex_file_ d) = [0];
  hf_size : (size d <= 53 + 14 * length ts)%nat;
  hf_class : exists t s source, class_map d = {[0 := {| c_type := t; c_access_flags := 1; super_class := Some s; interfaces := None;
      source_file := source; c_annotations := None; static_init := None;
      static_fields := [{| f_decl := hooker_field_decl b; f_access_flags := 8 |}]; instance_fields := [];
      direct_methods := [hook_method b; backup_method b]; virtual_methods := [] |}]} /\
    types_by_descriptor_ d !! DotToDescriptor (generated_class_name nm) = Some t /\
    types_by_descriptor_ d !! descriptor_ TypeDescriptor_Object = Some s /\
    (DotToDescriptor (generated_class_name nm) <> descriptor_ TypeDescriptor_Object -> class_def (type_node (nodes (dex_file_ d)) s) = None);
  hf_field : field_decls_by_key_ d !! (DotToDescriptor (generated_class_name nm), generated_field_name nm) = Some (hooker_field_decl b);
  hf_hook_id : method_id_map_ d !! method_key nm (hook_name nm method_name) r ts = Some (m_decl (hook_method b), m_decl (hook_method b));
  hf_backup_id : method_id_map_ d !! method_key nm (lit "backup") r ts = Some (m_decl (backup_method b), m_decl (backup_method b));
  hf_code : exists hook backup us vs ls, codes (data_ (dex_file_ d)) = [hook; backup] /\
    m_code (hook_method b) = Some 0%nat /\ m_code (backup_method b) = Some 1%nat /\
    code_is us 2 (total_words ts) 2 hook /\ insns us ls /\
    hook_code d r ts (FromClassname hooker_class) (hooker_field_decl b) callback_name ls /\
    code_is vs (backup_locals r) (total_words ts) 0 backup /\ insns vs (backup_code r)
}.

Lemma hook_types_ok c cs is_static : char_of "V" ∉ cs ->
  exists r ts, hook_types (c :: cs) is_static = Some (r, ts) /\ return_type_ok r /\ Forall stub_type ts.
Proof.
  intros Hv. eexists _, _. split; [reflexivity|]. split; [apply type_of_char_return|].
  apply Forall_app. split; [destruct is_static; repeat constructor|].
  apply Forall_map, Forall_forall. intros x Hx. apply type_of_char_stub. by intros ->.
Qed.

Lemma BuildDex_ok nm c cs is_static r ts method_name hooker_class callback_name : names_ok nm -> text method_name ->
  text hooker_class -> text callback_name -> hook_types (c :: cs) is_static = Some (r, ts) -> return_type_ok r ->
  Forall stub_type ts -> total_words ts <= 254 ->
  exists b d, BuildDex ndebug nm (c :: cs) is_static method_name hooker_class callback_name newDexBuilder = Some (Some b, d) /\
    hook_file nm r ts method_name hooker_class callback_name b d.
Proof.
  intros [Hn1 Hn2 Hn3 Hn4] Hmn Hhc Hcn Htypes Hr Hts Hw. pose proof (total_words_length ts) as Hlen.
  destruct (MakeClass_ok ndebug (generated_class_name nm) newDexBuilder builder_ok_new Hn1)
    as (d1 & t & s & E1 & Hok1 & S1 & Hc1 & Hcls1 & Ht1 & Hs1 & Hcodes1 & Hobj1).
  change (Z.of_nat (length (classes (dex_file_ newDexBuilder)))) with 0 in *.
  set (cb := {| type_descriptor_ := FromClassname (generated_class_name nm); class_ := 0 |}) in E1.
  change (class_map newDexBuilder) with (∅ : gmap Z Class_) in Hc1. rewrite insert_empty in Hc1.
  assert (exists d2 src, whenM (0 <? Z.of_nat (length (generated_source_name nm))) (set_source_file ndebug (generated_source_name nm) cb) d1 = Some (tt, d2) /\
    builder_ok d2 /\ later 1 d1 d2 /\ class_map d2 = {[0 := {| c_type := t; c_access_flags := 1; super_class := Some s; interfaces := None;
      source_file := src; c_annotations := None; static_init := None; static_fields := []; instance_fields := [];
      direct_methods := []; virtual_methods := [] |}]} /\
    classes (dex_file_ d2) = [0] /\ codes (data_ (dex_file_ d2)) = []) as (d2 & src & E2 & Hok2 & L2 & Hc2 & Hcls2 & Hcodes2).
  { destruct (0 <? Z.of_nat (length (generated_source_name nm))).
    - destruct (set_source_file_ok _ cb d1 Hok1 Hn2) as (d2 & i & E2 & Hok2 & L2 & _ & Hc2 & Hcls2 & Hcodes2).
      exists d2, (Some i). change (class_ cb) with 0 in *. rewrite (class_at_only _ _ _ Hc1), Hc1, insert_singleton_eq in Hc2.
      rewrite Hcls2, Hcodes2, Hcls1, Hcodes1. by split_and!.
    - exists d1, None. rewrite Hc1, Hcls1, Hcodes1. split_and!; try done. constructor; (done || lia). }
  pose proof (text_descriptor _ Hn1) as Hcd. pose proof (text_descriptor _ Hhc) as Hhd.
  destruct (static_field_ok (generated_field_name nm) (FromClassname hooker_class) cb d2 Hok2 Hn3 Hhd Hcd)
    as (d3 & d4 & f & E3 & E4 & Hok4 & L4 & Hf4 & Hc4 & Hcls4 & Hcodes4).
  change (class_ cb) with 0 in *. rewrite (class_at_only _ _ _ Hc2), Hc2, insert_singleton_eq in Hc4. rewrite Hcodes2 in Hcodes4. rewrite Hcls2 in Hcls4.
  assert (Hsz4 : (size d4 <= 11)%nat).
  { pose proof (la_size _ _ _ L2). pose proof (la_size _ _ _ L4).
    change (size newDexBuilder) with 0%nat in S1. lia. }
  assert (Hfu : is_unit f). { pose proof (field_bound d4 Hok4 _ _ Hf4). unfold is_unit. lia. }
  assert (Hname : text (hook_name nm method_name)) by (unfold hook_name; by case_bool_decide).
  destruct (build_method_ok cb (hook_name nm method_name) r ts (hook_body ndebug r ts (FromClassname hooker_class) f callback_name)
    d4 2 2 (10 * length ts + 22) (fun d ls => hook_code d r ts (FromClassname hooker_class) f callback_name ls) Hok4 Hname Hcd Hr Hts)
    as (e & us & d5 & code & d5' & ls & E5 & Hid5 & He & Hus & Hcode & L5' & Hok5 & L5 & Hcodes5 & Hci & Hcl5 & Hcls5).
  { intros d' decl Hok' G'. pose proof (gr_size _ _ _ G').
    destruct (hook_body_ok r ts (FromClassname hooker_class) f callback_name d' 0 decl) as (d2' & m2 & ls & H'); try done; try lia.
    exists d2', m2, ls. destruct H' as (? & ? & ? & ? & ?). by split_and!. }
  destruct (build_method_ok cb (lit "backup") r ts (backup_body ndebug r) d5 (backup_locals r) 0 0
    (fun _ l => l = backup_code r) Hok5 ltac:(by apply text_lit) Hcd Hr Hts)
    as (e' & vs & d6 & code' & d6' & ls' & E6 & Hid6 & He' & Hvs & -> & L6' & Hok6 & L6 & Hcodes6 & Hci' & Hcl6 & Hcls6).
  { intros d' decl Hok' G'. destruct (backup_body_ok r d' 0 decl) as (m2 & Hb & Hbb).
    exists d', m2, (backup_code r). split_and!; try done. apply grows_refl. }
  change (class_ cb) with 0 in *.
  exists {| hooker_field_decl := f; hook_method := e; backup_method := e' |}, d6. split.
  - unfold BuildDex. rewrite Htypes. rewrite (run_M _ _ _ _ _ E1). rewrite (run_M _ _ _ _ _ E2). cbv zeta.
    rewrite (run_M _ _ _ _ _ E3), (run_M _ _ _ _ _ E4). cbn [f_decl]. fold (hook_name nm method_name). fold (prototype_of r ts).
    rewrite (run_M _ _ _ _ _ E5), (run_M _ _ _ _ _ E6). reflexivity.
  - rewrite Hcodes4 in *. constructor; cbn [hooker_field_decl hook_method backup_method]; try done.
    + by rewrite Hcls6, Hcls5.
    + pose proof (la_size _ _ _ L5). pose proof (la_size _ _ _ L6). lia.
    + rewrite (class_at_only _ _ _ Hc4), Hc4, insert_singleton_eq in Hcl5.
      rewrite (class_at_only _ _ _ Hcl5), Hcl5, insert_singleton_eq in Hcl6. exists t, s, src.
      pose proof (later_trans _ _ _ _ _ (later_trans _ _ _ _ _ L2 L4) (later_trans _ _ _ _ _ L5 L6)) as L.
      split_and!; [exact Hcl6|exact (later_type _ _ _ _ _ L Ht1)|exact (later_type _ _ _ _ _ L Hs1)|].
      intros Hne. destruct (Hobj1 (lookup_empty _) Hne) as [j Hj]. unfold type_node.
      rewrite (la_type_nodes _ _ _ L _ _ Hs1), Hj. done.
    + exact (later_field _ _ _ _ _ (later_trans _ _ _ _ _ L5 L6) Hf4).
    + exact (later_method _ _ _ _ _ L6 Hid5).
    + exists code, code', us, vs, ls. rewrite He, He', Hcodes6, Hcodes5. split_and!; try done.
      exact (hook_code_later _ _ _ _ _ _ _ _ _ (later_trans _ _ _ _ _ L5' L6) Hcode).
Qed.
End Bodies.
