(* ===== verification/HookStubSpec.v ===== *)
(** What the code of BuildDex.v does on the virtual machine of DalvikSem.v:
    the arguments are boxed into an array, the callback runs once, and its result
    is unboxed. *)
From stdpp Require Import strings.
From Stdlib Require Import Ascii String.
From S2P Require Import Prelude DexBytecode DexIsa DexCode DexIr DexBuilder MethodBuilder BuildDex.
From S2P Require Import DexBuilderSpec DalvikSem MethodBuilderSpec HookFileSpec.

(** ** What a hook does, without the code *)

Definition wrapper_of (t : list byte) : list byte :=
  match List.find (fun w => bool_decide (w.1.1 = t)) wrappers with Some w => w.1.2 | None => [] end.

(** An argument of a type, and the object it is boxed as. *)
Definition value_of (t : TypeDescriptor) (v : value) : Prop :=
  match v with
  | VWord _ => is_primitive t = true /\ wide_ t = false
  | VWide _ => is_primitive t = true /\ wide_ t = true
  | VRef _ => t = TypeDescriptor_Object
  end.
Definition box_value (t : TypeDescriptor) (v : value) : obj :=
  match v with VRef o => o | VWord w | VWide w => Boxed (wrapper_of (descriptor_ t)) w end.
Definition box_values (ts : list TypeDescriptor) (args : list value) : list obj := zip_with box_value ts args.

(** The result of a hook whose callback returns [o]. *)
Definition unbox_result (r : TypeDescriptor) (o : obj) : outcome :=
  if same_type r TypeDescriptor_Void then Returned None
  else if is_primitive r then
    match o with
    | Null => Threw NullPointer
    | Boxed c w =>
        if bool_decide (c = wrapper_of (descriptor_ r)) then Returned (Some (if wide_ r then VWide w else VWord w))
        else Threw ClassCast
    | _ => Threw ClassCast
    end
  else Returned (Some (VRef o)).

Lemma descriptor_class name : name <> [] ->
  is_wide_type (DotToDescriptor name) = false /\ is_ref_type (DotToDescriptor name) = true.
Proof.
  intros Hn. unfold DotToDescriptor. cbv zeta. set (l := map _ name).
  assert (exists x l', l = x :: l') as (x & l' & El) by (destruct name; [done|by do 2 eexists]). rewrite El.
  change (first_char (x :: l')) with x. replace (0 <? Z.of_nat (length (x :: l'))) with true by (symmetry; apply Z.ltb_lt; cbn; lia).
  unfold is_wide_type, is_ref_type.
  destruct (Z.eqb_spec x (char_of "[")) as [->|Hx]; cbn [negb andb];
    (split; [apply bool_decide_false; by intros [[=]|[=]]|done]).
Qed.

Lemma value_of_boxing t b v : (t, b) ∈ boxings -> value_of t v ->
  exists w, v = (if wide_ t then VWide w else VWord w) /\ box_value t v = Boxed (descriptor_ b) w.
Proof.
  intros Hin. assert (Hw : wrapper_of (descriptor_ t) = descriptor_ b) by (revert t b Hin; each_boxing; reflexivity).
  assert (Ho : t <> TypeDescriptor_Object) by (clear -Hin; revert t b Hin; each_boxing; discriminate).
  destruct v as [w|w|o]; cbn; [intros [_ ->]|intros [_ ->]|done]; exists w; by rewrite Hw.
Qed.

Lemma value_of_object v : value_of TypeDescriptor_Object v -> exists o, v = VRef o.
Proof. destruct v as [w|w|o]; cbn; [by intros []|by intros []|by exists o]. Qed.

Lemma value_of_words t v : stub_type t -> value_of t v -> Z.of_nat (length (regs_of v)) = words t.
Proof.
  intros [->|[b Hb]] Hv; [by destruct (value_of_object v Hv) as [o ->]|].
  destruct (value_of_boxing t b v Hb Hv) as (w & -> & _). unfold words. by destruct (wide_ t).
Qed.

Lemma arguments_words ts args : Forall stub_type ts -> Forall2 value_of ts args ->
  Z.of_nat (length (concat (map regs_of args))) = total_words ts.
Proof.
  intros Hts. induction 1 as [|t v ts args Hv _ IH]; [done|]. apply Forall_cons in Hts as [Ht Hts].
  cbn [map concat]. rewrite List.length_app, Nat2Z.inj_add, (value_of_words t v Ht Hv), (IH Hts). done.
Qed.

(** Calls of the environment, with the heap before each. *)
Abbreviation calls := (list (mref * list value * list (list obj))).

(** Calling [callback] on the hooker with the array [a]: the outcome of the hook,
    the heap after it and the call. *)
Definition callback_run (E : env) (r : TypeDescriptor) (callback : mref) (hooker : obj) (a : nat) (h : list (list obj)) :
    outcome * list (list obj) * calls :=
  if bool_decide (hooker = Null) then (Threw NullPointer, h, [])
  else
    let vs := [VRef hooker; VRef (Array a)] in
    let '(answer, h') := answer E callback vs h in
    (match answer with
     | inr e => Threw e
     | inl (Some (VRef o)) => unbox_result r o
     | inl _ => Returned None
     end, h', [(callback, vs, h)]).
(** A hook: the array has the boxed arguments. *)
Definition hook_run (E : env) (r : TypeDescriptor) (ts : list TypeDescriptor) (callback : mref) (hooker : obj)
    (args : list value) (h : list (list obj)) : outcome * list (list obj) * calls :=
  callback_run E r callback hooker (length h) (h ++ [box_values ts args]).
(** The callback's contract: it returns an object, or throws. *)
Definition returns_object (E : env) (callback : mref) : Prop :=
  forall vs h v h', answer E callback vs h = (inl v, h') -> exists o, v = Some (VRef o).
Definition callback_of (hooker_type : TypeDescriptor) (callback_name : list byte) : mref :=
  {| mr_class := descriptor_ hooker_type; mr_name := callback_name;
     mr_params := [descriptor_ (ToArray TypeDescriptor_Object)]; mr_return := descriptor_ TypeDescriptor_Object |}.

(** ** The loop over the parameters *)

Section Run.
Context (E : env) (d : DexBuilder) (Hok : builder_ok d) (HE : env_refs E = original_refs (dex_file_ d)).

(** The registers: [x], the array, those of the arguments. *)
Lemma parameter_at {A} (x y z : A) done rest j : j = Z.of_nat (length done) ->
  (x :: y :: done ++ z :: rest) !! Z.to_nat (j + 2) = Some z.
Proof. intros ->. replace (Z.to_nat _) with (S (S (length done))) by lia. by apply (list_lookup_middle done). Qed.
Lemma parameter_next {A} (x y z z' : A) done rest j : j = Z.of_nat (length done) ->
  (x :: y :: done ++ z :: z' :: rest) !! S (Z.to_nat (j + 2)) = Some z'.
Proof.
  intros ->. replace (Z.to_nat _) with (S (S (length done))) by lia.
  change ((done ++ z :: z' :: rest) !! S (length done) = Some z').
  rewrite lookup_app_r by lia. by replace (S (length done) - length done)%nat with 1%nat by lia.
Qed.
Lemma parameter_set {A} (x y z z' : A) done rest j : j = Z.of_nat (length done) ->
  <[Z.to_nat (j + 2) := z']> (x :: y :: done ++ z :: rest) = x :: y :: done ++ z' :: rest.
Proof.
  intros ->. replace (Z.to_nat _) with (S (S (length done))) by lia.
  change (x :: y :: <[length done := z']> (done ++ z :: rest) = x :: y :: done ++ z' :: rest). do 2 f_equal.
  rewrite insert_app_r_alt by lia. by rewrite Nat.sub_diag.
Qed.

Lemma write_parameter x y z done rest j v h res tr : j = Z.of_nat (length done) ->
  write (VRef v) (j + 2) {| frame := x :: y :: done ++ z :: rest; heap := h; result := res; trace := tr |} =
    Some {| frame := x :: y :: done ++ Ref v :: rest; heap := h; result := None; trace := tr |}.
Proof.
  intros Hj. unfold write. cbn [frame regs_of heap trace length].
  replace (_ <=? _)%nat with true by (symmetry; apply Nat.leb_le; cbn; rewrite List.length_app; cbn; lia).
  cbn [list_inserts]. by rewrite parameter_set.
Qed.
Lemma write_first x rest v h res tr :
  write (VWord v) 0 {| frame := x :: rest; heap := h; result := res; trace := tr |} =
    Some {| frame := Word v :: rest; heap := h; result := None; trace := tr |}.
Proof. done. Qed.

(** [const v0, i; aput-object vj, v1, v0]. *)
Lemma exec_store i j x a o done rest h res tr objs l : j = Z.of_nat (length done) -> h !! a = Some objs ->
  0 <= i < Z.of_nat (length objs) ->
  exec_list E ([DConst 0 i; DAputObject (j + 2) 1 0] ++ l)
    {| frame := x :: Ref (Array a) :: done ++ Ref o :: rest; heap := h; result := res; trace := tr |} =
  exec_list E l {| frame := Word i :: Ref (Array a) :: done ++ Ref o :: rest;
                   heap := <[a := <[Z.to_nat i := o]> objs]> h; result := None; trace := tr |}.
Proof.
  intros Hj Ha Hi. cbn [app exec_list exec_insn]. rewrite write_first. cbn [mbind option_bind].
  unfold read_ref, read_word. cbn [frame heap trace]. rewrite parameter_at by done. cbn [mbind option_bind].
  change (Z.to_nat 1) with 1%nat. change (Z.to_nat 0) with 0%nat. cbn [lookup list_lookup mbind option_bind].
  rewrite Ha. cbn [mbind option_bind].
  replace (_ <? _)%nat with true by (symmetry; apply Nat.ltb_lt; lia). done.
Qed.

Lemma ref_method_of c s r ps id : method_id_map_ d !! (c, s, (r, ps)) = Some (id, id) ->
  ref_method (env_refs E) id = Some {| mr_class := c; mr_name := s; mr_params := ps; mr_return := r |}.
Proof. intros H. rewrite HE. by eapply ref_method_named. Qed.

(** [invoke-static valueOf; move-result-object vj]. *)
Lemma exec_box t b v j id x y done rest h res tr l : j = Z.of_nat (length done) -> (t, b) ∈ boxings -> value_of t v ->
  method_id_map_ d !! value_of_key t b = Some (id, id) ->
  exec_list E ([DInvoke Static id (arg_regs t j); DMoveResultObject (j + 2)] ++ l)
    {| frame := x :: y :: done ++ regs_of v ++ rest; heap := h; result := res; trace := tr |} =
  exec_list E l {| frame := x :: y :: done ++ Ref (box_value t v) :: tail (regs_of v) ++ rest; heap := h; result := None; trace := tr |}.
Proof.
  intros Hj Htb Hv Hid. destruct (value_of_boxing t b v Htb Hv) as (w & Hvw & ->).
  destruct (boxing_ok true t b Htb). cbn [app exec_list exec_insn]. rewrite (ref_method_of _ _ _ _ _ Hid).
  cbn [mbind option_bind app mr_params]. fold (value_of_mref b t).
  set (s := {| frame := _; heap := h; result := res; trace := tr |}).
  assert (Ha : arguments s [descriptor_ t] (arg_regs t j) = Some [if wide_ t then VWide w else VWord w]).
  { unfold arguments, arg_regs. rewrite bf_wide, bf_ref. subst v. destruct (wide_ t).
    - replace (j + 3 =? j + 2 + 1) with true by lia. unfold read_wide. unfold s. cbn [frame regs_of app].
      rewrite (parameter_at _ _ _ _ _ _ Hj), (parameter_next _ _ _ _ _ _ _ Hj), Z.eqb_refl. done.
    - unfold read_word, s. cbn [frame regs_of app]. by rewrite (parameter_at _ _ _ _ _ _ Hj). }
  rewrite Ha. cbn [mbind option_bind]. unfold call. rewrite bf_boxes.
  replace (match (if wide_ t then VWide w else VWord w) with VWord w0 | VWide w0 => _ | VRef _ => _ end)
    with (Some (returns (Some (VRef (Boxed (descriptor_ b) w))) s, @None exn)) by (by destruct (wide_ t)).
  cbn [mbind option_bind returns result]. unfold returns, s. subst v. cbn [frame heap trace].
  destruct (wide_ t); cbn [regs_of app tail]; by rewrite write_parameter.
Qed.

Lemma zip_box t ts v args : box_values (t :: ts) (v :: args) = box_value t v :: box_values ts args.
Proof. done. Qed.

(** Storing the next element of the array. *)
Lemma store_next a (h : list (list obj)) objs o n i : i = Z.of_nat (length objs) -> h !! a = Some (objs ++ repeat Null (S n)) ->
  <[a := <[Z.to_nat i := o]> (objs ++ repeat Null (S n))]> h = <[a := (objs ++ [o]) ++ repeat Null n]> h /\
  <[a := (objs ++ [o]) ++ repeat Null n]> h !! a = Some ((objs ++ [o]) ++ repeat Null n).
Proof.
  intros -> Ha. rewrite Nat2Z.id, insert_app_r_alt, Nat.sub_diag by lia. cbn. rewrite <- app_assoc. split; [done|].
  apply list_lookup_insert_eq. by apply lookup_lt_Some in Ha.
Qed.

Lemma exec_args ts i j l : arg_code d ts i j l -> forall args, Forall2 value_of ts args ->
  forall x a done h res tr objs, j = Z.of_nat (length done) -> i = Z.of_nat (length objs) ->
  h !! a = Some (objs ++ repeat Null (length ts)) ->
  exists x' done' res', exec_list E l {| frame := x :: Ref (Array a) :: done ++ concat (map regs_of args); heap := h; result := res; trace := tr |} =
    Some ({| frame := x' :: Ref (Array a) :: done'; heap := <[a := objs ++ box_values ts args]> h; result := res'; trace := tr |}, None).
Proof.
  induction 1 as [i j|t b ts i j id l Htb Hid _ IH|ts i j l _ IH]; intros args Hargs x a done h res tr objs Hj Hi Ha.
  - inversion Hargs; subst. cbn in *. rewrite !app_nil_r in *. rewrite list_insert_id by done. by do 3 eexists.
  - inversion Hargs as [|? v ? args' Hv Hargs']; subst args. cbn [length] in Ha. cbn [map concat].
    change (?p ++ l) with ([DInvoke Static id (arg_regs t j); DMoveResultObject (j + 2)] ++ [DConst 0 i; DAputObject (j + 2) 1 0] ++ l).
    rewrite (exec_box t b v) by done.
    rewrite (exec_store i j x a _ done _ h None tr _ _ Hj Ha) by (rewrite List.length_app; cbn; lia).
    destruct (store_next a h objs (box_value t v) (length ts) i Hi Ha) as [Hset Hnext]. rewrite Hset.
    destruct (value_of_boxing t b v Htb Hv) as (w & Hw & _).
    destruct (IH args' Hargs' (Word i) a (done ++ Ref (box_value t v) :: tail (regs_of v)) (<[a := (objs ++ [box_value t v]) ++ repeat Null (length ts)]> h) None tr (objs ++ [box_value t v])) as (x' & done' & res' & E1);
      [|rewrite List.length_app; cbn; lia|exact Hnext|].
    { rewrite List.length_app. cbn. unfold words. subst v. destruct (wide_ t); cbn; lia. }
    exists x', done', res'. rewrite zip_box. rewrite <- app_assoc in E1. cbn [app] in E1. rewrite E1.
    by rewrite list_insert_insert_eq, <- app_assoc.
  - inversion Hargs as [|? v ? args' Hv Hargs']; subst args. cbn [length] in Ha. destruct (value_of_object v Hv) as [o ->]. cbn [map concat regs_of].
    change (?p ++ l) with ([DConst 0 i; DAputObject (j + 2) 1 0] ++ l).
    change ([Ref o] ++ concat (map regs_of args')) with (Ref o :: concat (map regs_of args')).
    rewrite (exec_store i j x a o done _ h res tr _ l Hj Ha) by (rewrite List.length_app; cbn; lia).
    destruct (store_next a h objs o (length ts) i Hi Ha) as [Hset Hnext]. rewrite Hset.
    destruct (IH args' Hargs' (Word i) a (done ++ [Ref o]) (<[a := (objs ++ [o]) ++ repeat Null (length ts)]> h) None tr (objs ++ [o])) as (x' & done' & res' & E1);
      [rewrite List.length_app; cbn; lia|rewrite List.length_app; cbn; lia|exact Hnext|].
    exists x', done', res'. rewrite zip_box. rewrite <- app_assoc in E1. cbn [app] in E1. rewrite E1.
    by rewrite list_insert_insert_eq, <- app_assoc.
Qed.

(** ** The callback and its result *)

Lemma boxing_wrapper r b : (r, b) ∈ boxings ->
  wrapper_of (descriptor_ r) = descriptor_ b /\ descriptor_ b <> lit "[Ljava/lang/Object;".
Proof. revert r b. each_boxing; (split; [by vm_compute|discriminate]). Qed.

Lemma is_instance_wrapper r b o : (r, b) ∈ boxings ->
  is_instance E o (descriptor_ b) = match o with Null => true | Boxed c _ => bool_decide (c = descriptor_ b) | _ => false end.
Proof.
  intros Hrb. destruct (boxing_wrapper r b Hrb) as [_ Ha]. destruct (boxing_ok true r b Hrb).
  destruct o as [|c w|a|id]; unfold is_instance; [done| | |].
  - rewrite (bool_decide_false (descriptor_ b = object_class)) by done. rewrite orb_false_r.
    apply bool_decide_ext. split; by intros ->.
  - by rewrite !bool_decide_false.
  - rewrite bool_decide_false by done. by rewrite bf_wrapper.
Qed.

Lemma exec_wide_result w x y rest h tr :
  exec_list E [DMoveResultWide 0; DReturnWide 0] {| frame := x :: y :: rest; heap := h; result := Some (VWide w); trace := tr |} =
    Some ({| frame := WideLow w :: WideHigh w :: rest; heap := h; result := None; trace := tr |}, Some (Returned (Some (VWide w)))).
Proof. lazy -[Z.eqb]. by rewrite Z.eqb_refl. Qed.

Lemma exec_result r res o y rest h rs tr : return_type_ok r -> result_code d r res ->
  exists s', exec_list E res {| frame := Ref o :: y :: rest; heap := h; result := rs; trace := tr |} =
    Some (s', Some (unbox_result r o)) /\ heap s' = h /\ trace s' = tr.
Proof.
  intros Hr [->|b name t id Hrb Ht Hname Hid|t -> Ht].
  - (eexists; split_and!; reflexivity).
  - destruct (boxing_ok true r b Hrb). destruct bf_accessor as (name' & Hname' & _ & Hun). rewrite Hname in Hname'.
    injection Hname' as <-. destruct bf_box_ref as [Href Hwide]. destruct (boxing_wrapper r b Hrb) as [Hw _].
    unfold unbox_result. rewrite bf_void, bf_primitive, Hw.
    cbn [app exec_list exec_insn]. unfold read_ref at 1. change (Z.to_nat 0) with 0%nat. cbn [frame lookup list_lookup mbind option_bind].
    assert (ref_type (env_refs E) t = Some (descriptor_ b)) as -> by (rewrite HE; by apply ref_type_named).
    cbn [mbind option_bind]. rewrite (is_instance_wrapper r b o Hrb).
    set (s := {| frame := _; heap := h; result := rs; trace := tr |}).
    set (m := {| mr_class := descriptor_ b; mr_name := name; mr_params := []; mr_return := descriptor_ r |}) in *.
    assert (Ha : arguments s [descriptor_ b] [0] = Some [VRef o]) by (unfold arguments; by rewrite Hwide, Href).
    destruct o as [|c w|a|fid]; [|case_bool_decide as Hc|(eexists; split_and!; reflexivity)|(eexists; split_and!; reflexivity)]; cbn [mbind option_bind];
      rewrite ?(ref_method_of _ _ _ _ _ Hid); cbn [mbind option_bind app mr_params mr_class]; rewrite ?Ha; cbn [mbind option_bind call].
    + (eexists; split_and!; reflexivity).
    + fold m. rewrite Hun, (bool_decide_true (c = mr_class m)) by done. cbn [mbind option_bind].
      change (mr_return m) with (descriptor_ r). rewrite bf_wide. unfold s, returns.
      destruct (wide_ r); [|eexists; split_and!; reflexivity].
      eexists. split_and!; [exact (exec_wide_result w _ _ _ _ _)|reflexivity..].
    + (eexists; split_and!; reflexivity).
  - eexists. cbn [exec_list exec_insn]. unfold read_ref at 1. change (Z.to_nat 0) with 0%nat. cbn [frame lookup list_lookup mbind option_bind].
    assert (ref_type (env_refs E) t = Some object_class) as -> by (rewrite HE; by apply ref_type_named).
    cbn [mbind option_bind]. replace (is_instance E o object_class) with true; [done|].
    destruct o; cbn; try done. by rewrite orb_true_r.
Qed.

(** ** The whole method *)

Lemma arg_code_straight ts i j l : arg_code d ts i j l -> forallb straight l = true /\ (length l <= 4 * length ts)%nat.
Proof. induction 1 as [|t b ts i j id l Htb Hid _ [IH1 IH2]|ts i j l _ [IH1 IH2]]; cbn; (split; [done|lia]). Qed.

Lemma hook_code_straight r ts ht f cb l : hook_code d r ts ht f cb l -> forallb straight l = true /\ (length l <= 4 * length ts + 9)%nat.
Proof.
  intros [t id args res Ht Ha Hm Hr]. destruct (arg_code_straight ts 0 0 args Ha) as [S1 S2].
  assert (forallb straight res = true /\ (length res <= 4)%nat) as [S3 S4].
  { destruct Hr; cbn; [split; [done|lia]| |split; [done|lia]]. destruct (wide_ r); cbn; (split; [done|lia]). }
  split.
  - rewrite !forallb_app. cbn. by rewrite S1, S3.
  - rewrite !List.length_app. cbn. lia.
Qed.

Lemma call_ask m o rest s : unboxes m = false -> o <> Null -> call E Virtual m (VRef o :: rest) s = Some (ask E m (VRef o :: rest) s).
Proof. intros Hu Ho. unfold call. rewrite Hu. by destruct o. Qed.

Lemma exec_callback r ht field fr cb hooker id x a rest h rs res : return_type_ok r -> result_code d r res ->
  is_wide_type (descriptor_ ht) = false -> is_ref_type (descriptor_ ht) = true ->
  method_id_map_ d !! callback_key ht cb = Some (id, id) ->
  ref_field (env_refs E) field = Some fr -> static_field E fr = Some hooker -> returns_object E (callback_of ht cb) ->
  exists out s', exec_list E ([DSgetObject 0 field; DInvoke Virtual id [0; 1]; DMoveResultObject 0] ++ res)
      {| frame := x :: Ref (Array a) :: rest; heap := h; result := rs; trace := [] |} = Some (s', Some out) /\
    callback_run E r (callback_of ht cb) hooker a h = (out, heap s', trace s').
Proof.
  intros Hr Hres Hw Hf Hid Hfr Hst Hret. cbn [app exec_list exec_insn]. rewrite Hfr. cbn [mbind option_bind].
  rewrite Hst. cbn [mbind option_bind]. assert (ref_method (env_refs E) id = Some (callback_of ht cb)) as -> by exact (ref_method_of _ _ _ _ _ Hid).
  set (s := {| frame := Ref hooker :: Ref (Array a) :: rest; heap := h; result := None; trace := [] |}).
  change (write (VRef hooker) 0 _) with (Some s). cbn [mbind option_bind].
  assert (Ha : arguments s (mr_class (callback_of ht cb) :: mr_params (callback_of ht cb)) [0; 1] = Some [VRef hooker; VRef (Array a)]).
  { cbn [callback_of mr_class mr_params arguments]. by rewrite Hw, Hf. }
  rewrite Ha. cbn [mbind option_bind]. unfold callback_run.
  assert (Hu : unboxes (callback_of ht cb) = false).
  { unfold unboxes, wrappers. cbn [existsb fst snd]. by rewrite !bool_decide_false. }
  case_bool_decide as Hn; [subst hooker; eexists _, _; split; reflexivity|].
  rewrite call_ask by done. unfold ask. cbn [mbind option_bind heap frame trace s].
  specialize (Hret [VRef hooker; VRef (Array a)] h).
  destruct (answer E (callback_of ht cb) _ _) as [[v'|e] h']; [|eexists _, _; split; reflexivity].
  destruct (Hret v' h' eq_refl) as [o ->].
  destruct (exec_result r res o (Ref (Array a)) rest h' None [(callback_of ht cb, [VRef hooker; VRef (Array a)], h)] Hr Hres)
    as (s' & Es & Eh & Et).
  exists (unbox_result r o), s'. rewrite Eh, Et. split; [exact Es|done].
Qed.

Lemma box_values_length ts args : Forall2 value_of ts args -> length (box_values ts args) = length ts.
Proof. intros H. unfold box_values. rewrite length_zip_with. apply Forall2_length in H. lia. Qed.

Lemma hook_code_runs r ts ht field fr cb hooker ls args h : return_type_ok r -> Forall2 value_of ts args ->
  hook_code d r ts ht field cb ls -> is_wide_type (descriptor_ ht) = false -> is_ref_type (descriptor_ ht) = true ->
  ref_field (env_refs E) field = Some fr -> static_field E fr = Some hooker -> returns_object E (callback_of ht cb) ->
  Z.of_nat (length ts) < 32768 ->
  exists out s', exec_list E ls {| frame := Undefined :: Undefined :: concat (map regs_of args); heap := h; result := None; trace := [] |} =
      Some (s', Some out) /\
    hook_run E r ts (callback_of ht cb) hooker args h = (out, heap s', trace s').
Proof.
  intros Hr Hargs [t id code res Ht Hcode Hid Hres] Hw Hf Hfr Hst Hret Hlen.
  set (n := Z.of_nat (length ts)). change ([DConst 0 n; DNewArray 1 0 t] ++ ?l) with (DConst 0 n :: DNewArray 1 0 t :: l).
  cbn [exec_list exec_insn]. rewrite write_first. cbn [mbind option_bind]. unfold read_word at 1.
  change (Z.to_nat 0) with 0%nat. cbn [frame lookup list_lookup mbind option_bind heap result trace].
  assert (ref_type (env_refs E) t = Some (descriptor_ (ToArray TypeDescriptor_Object))) as ->
    by (rewrite HE; by apply ref_type_named).
  cbn [mbind option_bind]. rewrite bool_decide_true by done.
  assert (s32 n = n) as -> by (apply sext_small; lia). replace (n <? 0) with false by lia.
  set (h1 := h ++ [repeat Null (Z.to_nat n)]).
  change (write (VRef (Array (length h))) 1 _) with
    (Some {| frame := Word n :: Ref (Array (length h)) :: concat (map regs_of args); heap := h1; result := None; trace := [] |}).
  cbn [mbind option_bind].
  destruct (exec_args ts 0 0 code Hcode args Hargs (Word n) (length h) [] h1 None [] []) as (x & done' & rs & E1); [done|done| |].
  { unfold h1, n. rewrite Nat2Z.id. by rewrite list_lookup_middle. }
  cbn [app] in E1. rewrite (exec_app E _ _ _ _ E1). unfold hook_run.
  assert (Hheap : <[length h := box_values ts args]> h1 = h ++ [box_values ts args]).
  { unfold h1. rewrite insert_app_r_alt by lia. by rewrite Nat.sub_diag. }
  rewrite Hheap. by apply (exec_callback r ht field fr cb hooker id).
Qed.

Lemma backup_code_straight r : forallb straight (backup_code r) = true /\ (length (backup_code r) <= 2)%nat /\ 0 <= backup_locals r <= 2.
Proof.
  unfold backup_code, backup_locals. destruct (same_type r TypeDescriptor_Void); [cbn; split_and!; (done || lia)|].
  destruct (wide_ r); [cbn; split_and!; (done || lia)|]. destruct (is_primitive r); cbn; split_and!; (done || lia).
Qed.

Lemma exec_backup r ins h :
  exists s, exec_list E (backup_code r) {| frame := repeat Undefined (Z.to_nat (backup_locals r)) ++ ins; heap := h; result := None; trace := [] |} =
    Some (s, Some (Returned (if same_type r TypeDescriptor_Void then None else
      Some (if wide_ r then VWide 0 else if is_primitive r then VWord 0 else VRef Null)))) /\ heap s = h /\ trace s = [].
Proof.
  unfold backup_code, backup_locals. destruct (same_type r TypeDescriptor_Void); [eexists; split_and!; reflexivity|].
  destruct (wide_ r); [eexists; split_and!; reflexivity|]. destruct (is_primitive r); (eexists; split_and!; reflexivity).
Qed.

Lemma invoke_straight n w a code us ls args h s' out fuel : code_is us n w a code -> insns us ls -> 0 <= n -> n + w < 65536 ->
  forallb straight ls = true -> (length ls <= fuel)%nat -> Z.of_nat (length (concat (map regs_of args))) = w ->
  exec_list E ls {| frame := repeat Undefined (Z.to_nat n) ++ concat (map regs_of args); heap := h; result := None; trace := [] |} =
    Some (s', Some out) ->
  invoke_method E fuel code args h = Some (out, s').
Proof.
  intros [Hreg Hins Hcode _ _] Hus Hn Hnw Hst Hfuel Hlen Hrun. unfold invoke_method. rewrite Hins, Hreg, Hcode.
  rewrite !(trunc_small 16) by lia. rewrite Hlen, Z.eqb_refl. replace (n + w - w) with n by lia.
  by apply (run_straight E us ls Hus [] fuel).
Qed.
End Run.
