(* ===== verification/BuilderIrSpec.v ===== *)
(** A builder's file is one that the writer's [Normalize] accepts: no two nodes of
    a table are the same item. *)
From stdpp Require Import strings.
From Stdlib Require Import Ascii String.
From S2P Require Import Prelude Leb128 SlicerBuffer DexBytecode DexCode DexIr DexIrSpec DexTopSort DexNormalize DexBuilder BuildDex DexOrder.
From S2P Require Import DexBuilderSpec DalvikSem HookFileSpec.

(** A table whose entries [f] maps to data that the keys can be read from. *)
Lemma nodup_by_key {A K} `{Countable K} (m : gmap K Z) (l : list Z) (f : Z -> A) (g : A -> K) :
  NoDup l -> (forall i, i ∈ l -> exists k, m !! k = Some i /\ g (f i) = k) -> NoDup (f <$> l).
Proof.
  intros Hl Hk. apply NoDup_fmap_2_strong; [|done]. intros i j Hi Hj E.
  destruct (Hk i Hi) as (k & Hm & Hg). destruct (Hk j Hj) as (k' & Hm' & Hg'). rewrite E in Hg. congruence.
Qed.

Lemma positions_nodup l : table_positions l -> NoDup l.
Proof. unfold table_positions. intros ->. apply NoDup_fmap_2; [intros x y; lia|apply NoDup_ListNoDup, seq_NoDup]. Qed.

Section Builder.
Context (d : DexBuilder) (Hok : builder_ok d).
Local Abbreviation ir := (dex_file_ d).
Local Abbreviation n := (nodes (dex_file_ d)).

Lemma text_units s : text s -> exists us, units_ok us /\ s ++ [0] = mutf8 us /\ s = concat (map encode_unit us).
Proof. intros (us & Hu & ->). by exists us. Qed.

Lemma string_mutf8 s i : strings_ d !! s = Some i ->
  exists us, units_ok us /\ s = concat (map encode_unit us) /\ c_str n i = mutf8 us /\ string_units n i = us.
Proof.
  intros Hs. destruct (bo_string _ Hok _ _ Hs) as (_ & Ht & data & Hd & Hn). destruct (text_units s Ht) as (us & Hu & E & Es).
  exists us. assert (Ec : c_str n i = mutf8 us) by (rewrite <- E; by eapply c_str_data). split_and!; try done.
  unfold string_units. rewrite Ec. rewrite <- (app_nil_r (mutf8 us)) at 2. apply decode_mutf8; [done|by apply length_mutf8].
Qed.

Lemma builder_ir_ok : Z.of_nat (size d) < 2 ^ 32 -> ir_ok ir.
Proof.
  intros Hsz. assert (Hnd : forall k, NoDup (items_of (tbl ir) k)) by (intros k; apply positions_nodup, (bo_positions _ Hok)).
  constructor.
  - intros []; cbn; unfold size in Hsz; cbn in Hsz; lia.
  - apply Forall_forall. intros i Hi. destruct (bo_strings_all _ Hok _ Hi) as [s Hs].
    destruct (string_mutf8 s i Hs) as (us & Hu & _ & E & _). exists us, []. by rewrite app_nil_r.
  - apply (nodup_by_key (strings_ d) _ _ (fun us => concat (map encode_unit us)) (Hnd StringItem)).
    intros i Hi. destruct (bo_strings_all _ Hok _ Hi) as [s Hs]. destruct (string_mutf8 s i Hs) as (us & _ & -> & _ & Eu).
    eexists. split; [exact Hs|]. by rewrite Eu.
  - apply Forall_forall. intros i Hi. destruct (bo_types_all _ Hok _ Hi) as [s Hs].
    destruct (bo_type _ Hok _ _ Hs) as (_ & j & c & Hn & Hj). unfold type_node. rewrite Hn. apply (bo_string _ Hok _ _ Hj).
  - apply (nodup_by_key (types_by_descriptor_ d) _ _ (string_at n) (Hnd TypeItem)).
    intros i Hi. destruct (bo_types_all _ Hok _ Hi) as [s Hs]. exists s. split; [exact Hs|]. exact (type_named d Hok s i Hs).
  - apply Forall_forall. intros i Hi. destruct (bo_protos_all _ Hok _ Hi) as [[r ps] Hs].
    destruct (bo_proto _ Hok _ _ _ Hs) as (_ & sh & j & l & Hn & Hr & _ & Hl). unfold proto_node. rewrite Hn. cbn.
    split; [apply (bo_type _ Hok _ _ Hr)|]. apply Forall_forall. intros x Hx.
    apply list_elem_of_lookup in Hx as [q Hq]. destruct (Forall2_lookup_r _ _ _ _ _ Hl Hq) as (s & _ & Hsx).
    apply (bo_type _ Hok _ _ Hsx).
  - apply (nodup_by_key (proto_map_ d) _ _ (fun l => (type_name ir (default 0 (head l)), map (type_name ir) (tail l))) (Hnd ProtoItem)).
    intros i Hi. destruct (bo_protos_all _ Hok _ Hi) as [[r ps] Hs]. exists (r, ps). split; [exact Hs|].
    destruct (bo_proto _ Hok _ _ _ Hs) as (_ & sh & j & l & Hn & Hr & _ & Hl). unfold proto_node. rewrite Hn. cbn.
    by rewrite (type_named d Hok _ _ Hr), (types_named d Hok _ _ Hl).
  - apply Forall_forall. intros i Hi. destruct (bo_fields_all _ Hok _ Hi) as [[p s] Hs].
    destruct (bo_field _ Hok _ _ _ Hs) as (_ & pi & si & ti & ty & Hn & Hp & Hsi & Hty). unfold field_node. rewrite Hn. cbn.
    split_and!; [apply (bo_type _ Hok _ _ Hp)|apply (bo_string _ Hok _ _ Hsi)|apply (bo_type _ Hok _ _ Hty)].
  - apply (nodup_by_key (field_decls_by_key_ d) _ _ (fun l => (type_name ir (nth 0 l 0), string_at n (nth 1 l 0))) (Hnd FieldItem)).
    intros i Hi. destruct (bo_fields_all _ Hok _ Hi) as [[p s] Hs]. exists (p, s). split; [exact Hs|].
    destruct (bo_field _ Hok _ _ _ Hs) as (_ & pi & si & ti & ty & Hn & Hp & Hsi & Hty). unfold field_node. rewrite Hn. cbn.
    by rewrite (type_named d Hok _ _ Hp), (string_named d Hok _ _ Hsi).
  - apply Forall_forall. intros i Hi. destruct (bo_methods_all _ Hok _ Hi) as [[[c s] [r ps]] Hs].
    destruct (bo_method _ Hok _ _ _ _ _ Hs) as (_ & _ & ci & si & ki & Hn & Hc & Hsi & Hk). unfold method_node. rewrite Hn. cbn.
    split_and!; [apply (bo_type _ Hok _ _ Hc)|apply (bo_string _ Hok _ _ Hsi)|apply (bo_proto _ Hok _ _ _ Hk)].
  - apply NoDup_fmap_2_strong; [|apply (Hnd MethodItem)]. intros i j Hi Hj E.
    destruct (bo_methods_all _ Hok _ Hi) as [[[c s] [r ps]] Hs]. destruct (bo_methods_all _ Hok _ Hj) as [[[c' s'] [r' ps']] Hs'].
    assert (En : method_name ir i = method_name ir j).
    { unfold method_name. injection E as E1 E2 E3. by rewrite E1, E2, E3. }
    rewrite (method_named d Hok _ _ _ _ _ _ Hs), (method_named d Hok _ _ _ _ _ _ Hs') in En. congruence.
Qed.
End Builder.

(** The file of a hook. *)
Section Hook.
Context (nm : names) (r : TypeDescriptor) (ts : list TypeDescriptor) (mname hclass cbname : list byte) (b : built) (d : DexBuilder).
Context (HF : hook_file nm r ts mname hclass cbname b d).

Lemma hook_hierarchy_ok : DotToDescriptor (generated_class_name nm) <> descriptor_ TypeDescriptor_Object ->
  hierarchy_ok (dex_file_ d).
Proof.
  intros Hne. destruct HF as [_ Hcls _ (t & s & src & Hc & _ & _ & Hs) _ _ _ _]. constructor; rewrite Hcls.
  - apply NoDup_singleton.
  - done.
  - exists [0]. split; [done|]. intros i c x Hi Hx. apply list_lookup_singleton_Some in Hi as [-> <-]. exfalso.
    unfold class_deps, class_node in Hx. rewrite Hc, lookup_singleton_eq in Hx. cbn in Hx. rewrite (Hs Hne) in Hx.
    by apply not_elem_of_nil in Hx.
Qed.

Lemma hook_members_ok : m_decl (hook_method b) <> m_decl (backup_method b) -> members_ok (dex_file_ d).
Proof.
  intros Hne. destruct HF as [Hok _ _ (t & s & src & Hc & _) Hf Hh Hb _]. unfold members_ok. rewrite Hc.
  apply map_Forall_singleton. cbn. split_and!; (split; [|]); try apply NoDup_nil_2; try apply Forall_nil_2.
  - apply NoDup_singleton.
  - apply Forall_singleton, (bo_field _ Hok _ _ _ Hf).
  - apply NoDup_cons. split; [|apply NoDup_singleton]. by intros E%list_elem_of_singleton.
  - repeat apply Forall_cons_2; [apply (bo_method _ Hok _ _ _ _ _ Hh)|apply (bo_method _ Hok _ _ _ _ _ Hb)|apply Forall_nil_2].
Qed.

Lemma hook_decls_differ : hook_name nm mname <> lit "backup" -> m_decl (hook_method b) <> m_decl (backup_method b).
Proof.
  destruct HF as [Hok _ _ _ _ Hid Hid' _]. intros Hn He.
  pose proof (method_named d Hok _ _ _ _ _ _ Hid) as N1. pose proof (method_named d Hok _ _ _ _ _ _ Hid') as N2.
  rewrite He, N2 in N1. congruence.
Qed.
End Hook.
