(* ===== verification/Sha1.v ===== *)
(** SHA-1: [slicer/sha1.cpp], on a little-endian target.

    A context is the record [SHA1_CTX]. A block is the list of its sixteen words;
    the five working variables are a list whose [j]-th element is the [j]-th of
    [a] .. [e].

    Then SHA-1 as its standard has it, and that the code computes it. *)
From S2P Require Import Prelude.

Definition rol (value bits : Z) : Z := Z.lor (u32 (Z.shiftl value bits)) (Z.shiftr value (32 - bits)).

Definition word (block : list Z) (i : nat) : Z := nth i block 0.

(** [blk0] and [blk]: the value, and the block it is stored in. *)
Definition blk0 (block : list Z) (i : nat) : Z * list Z :=
  let l := word block i in
  let v := Z.lor (Z.land (rol l 24) 0xFF00FF00) (Z.land (rol l 8) 0x00FF00FF) in
  (v, <[i := v]> block).
Definition blk (block : list Z) (i : nat) : Z * list Z :=
  let at_ k := word block (Nat.modulo k 16) in
  let v := rol (Z.lxor (Z.lxor (Z.lxor (at_ (i + 13)%nat) (at_ (i + 8)%nat)) (at_ (i + 2)%nat)) (at_ i)) 1 in
  (v, <[Nat.modulo i 16 := v]> block).

(** What the five macros add to [z] besides [blk(i)] and [rol(v,5)]. *)
Definition mix (i : nat) (w x y : Z) : Z :=
  if (i <? 20)%nat then Z.lxor (Z.land w (Z.lxor x y)) y + 0x5A827999
  else if (i <? 40)%nat then Z.lxor (Z.lxor w x) y + 0x6ED9EBA1
  else if (i <? 60)%nat then Z.lor (Z.land (Z.lor w x) y) (Z.land w x) + 0x8F1BBCDC
  else Z.lxor (Z.lxor w x) y + 0xCA62C1D6.

(** The macro call number [i], R0 to R4: its arguments are the variables rotated
    [i] times, [v] being the variable number [role i 0]. *)
Definition role (i k : nat) : nat := Nat.modulo (80 - i + k) 5.
Definition R (i : nat) (st : list Z * list Z) : list Z * list Z :=
  let '(vars, block) := st in
  let var k := word vars (role i k) in
  let '(b, block) := if (i <? 16)%nat then blk0 block i else blk block i in
  let z := u32 (var 4%nat + mix i (var 1%nat) (var 2%nat) (var 3%nat) + b + rol (var 0%nat) 5) in
  (<[role i 1 := rol (var 1%nat) 30]> (<[role i 4 := z]> vars), block).

(** [memcpy] into the union: little-endian words. *)
Fixpoint block_words (n : nat) (buffer : list byte) : list Z :=
  match n with
  | O => []
  | S n => le_val (take 4 buffer) :: block_words n (drop 4 buffer)
  end.

Definition SHA1Transform (state : list Z) (buffer : list byte) : list Z :=
  let '(vars, _) := foldl (fun st i => R i st) (state, block_words 16 buffer) (seq 0 80) in
  zip_with (fun s v => u32 (s + v)) state vars.

Record SHA1_CTX := { state : list Z; count0 : Z; count1 : Z; buffer : list byte }.

(** The buffer that an uninitialised context has is [fresh]. *)
Definition SHA1Init (fresh : list byte) : SHA1_CTX :=
  {| state := [0x67452301; 0xEFCDAB89; 0x98BADCFE; 0x10325476; 0xC3D2E1F0];
     count0 := 0; count1 := 0; buffer := fresh |}.

(** The loop over whole blocks: the state, and the data from [i] on. [remaining] is
    [len - i]. *)
Fixpoint transform_blocks (fuel : nat) (st : list Z) (data : list byte) (remaining : Z) : list Z * list byte * Z :=
  match fuel with
  | O => (st, data, remaining)
  | S fuel =>
      if 63 <? remaining then transform_blocks fuel (SHA1Transform st (take 64 data)) (drop 64 data) (remaining - 64)
      else (st, data, remaining)
  end.

(** [memcpy] of [n] bytes to [buffer[j]]; [None] if it leaves the buffer. *)
Definition fill_buffer (j n : Z) (data buf : list byte) : option (list byte) :=
  if (j + n <=? 64) then Some (splice (Z.to_nat j) (take (Z.to_nat n) data) buf) else None.

Definition SHA1Update (context : SHA1_CTX) (data : list byte) (len : Z) : option SHA1_CTX :=
  let j := count0 context in
  let c0 := u32 (j + u32 (Z.shiftl len 3)) in
  let c1 := if c0 <? j then u32 (count1 context + 1) else count1 context in
  let c1 := u32 (c1 + Z.shiftr len 29) in
  let j := Z.land (Z.shiftr j 3) 63 in
  if 63 <? u32 (j + len) then
    buf ← fill_buffer j (64 - j) data (buffer context);
    let '(st, rest, remaining) := transform_blocks (Z.to_nat (len / 64)) (SHA1Transform (state context) buf)
                               (drop (Z.to_nat (64 - j)) data) (len - (64 - j)) in
    buf ← fill_buffer 0 remaining rest buf;
    Some {| state := st; count0 := c0; count1 := c1; buffer := buf |}
  else
    buf ← fill_buffer j len data (buffer context);
    Some {| state := state context; count0 := c0; count1 := c1; buffer := buf |}.

(** The words' bytes, most significant first. *)
Definition be_bytes (w : Z) : list byte := map (fun i => Z.land (Z.shiftr w (8 * (3 - i))) 255) [0; 1; 2; 3].

(** The loop that pads up to 56 bytes modulo 64. *)
Fixpoint pad_zeros (fuel : nat) (context : SHA1_CTX) : option SHA1_CTX :=
  if negb (Z.land (count0 context) 504 =? 448) then
    match fuel with
    | O => None
    | S fuel => context ← SHA1Update context [0] 1; pad_zeros fuel context
    end
  else Some context.

(** Sixty-four steps go through every value of the seven bits tested. *)
Definition SHA1Final (context : SHA1_CTX) : option (list byte) :=
  let finalcount := be_bytes (count1 context) ++ be_bytes (count0 context) in
  context ← SHA1Update context [128] 1;
  context ← pad_zeros 64 context;
  context ← SHA1Update context finalcount 8;
  Some (concat (map be_bytes (state context))).

Definition sha1 (fresh data : list byte) : option (list byte) :=
  context ← SHA1Update (SHA1Init fresh) data (Z.of_nat (length data)); SHA1Final context.


(** ** The digest's length *)

Lemma length_R i st : length (fst (R i st)) = length (fst st).
Proof. destruct st as [vars block]. unfold R. destruct (if (i <? 16)%nat then _ else _). cbn. by rewrite !length_insert. Qed.
Lemma length_rounds l : forall st, length (fst (foldl (fun st i => R i st) st l)) = length (fst st).
Proof. induction l as [|i l IH]; intros st; [done|]. cbn [foldl]. by rewrite IH, length_R. Qed.
Lemma length_SHA1Transform st buf : length (SHA1Transform st buf) = length st.
Proof.
  unfold SHA1Transform. pose proof (length_rounds (seq 0 80) (st, block_words 16 buf)) as H.
  destruct (foldl _ _ _) as [vars block]. cbn [fst] in H. rewrite length_zip_with, H. lia.
Qed.
Lemma length_transform_blocks fuel : forall st data n, length (transform_blocks fuel st data n).1.1 = length st.
Proof.
  induction fuel as [|fuel IH]; intros st data n; [done|]. cbn [transform_blocks]. destruct (63 <? n); [|done].
  by rewrite IH, length_SHA1Transform.
Qed.
Lemma length_SHA1Update c data len c' : SHA1Update c data len = Some c' -> length (state c') = length (state c).
Proof.
  unfold SHA1Update. cbv zeta. destruct (63 <? _).
  - intros (buf & _ & H)%bind_Some.
    pose proof (length_transform_blocks (Z.to_nat (len / 64)) (SHA1Transform (state c) buf)
      (drop (Z.to_nat (64 - Z.land (Z.shiftr (count0 c) 3) 63)) data) (len - (64 - Z.land (Z.shiftr (count0 c) 3) 63))) as Hl.
    destruct (transform_blocks _ _ _ _) as [[st rest] n]. apply bind_Some in H as (buf' & _ & [= <-]). cbn [state fst] in *.
    by rewrite Hl, length_SHA1Transform.
  - by intros (buf & _ & [= <-])%bind_Some.
Qed.
Lemma length_pad_zeros fuel : forall c c', pad_zeros fuel c = Some c' -> length (state c') = length (state c).
Proof.
  induction fuel as [|fuel IH]; intros c c'; cbn [pad_zeros]; destruct (negb _); try done; try (by intros [= <-]).
  intros (c1 & E & H)%bind_Some. by rewrite (IH _ _ H), (length_SHA1Update _ _ _ _ E).
Qed.
Lemma length_sha1 fresh data digest : sha1 fresh data = Some digest -> length digest = 20%nat.
Proof.
  unfold sha1, SHA1Final. intros (c & E & H)%bind_Some. apply bind_Some in H as (c1 & E1 & H). apply bind_Some in H as (c2 & E2 & H).
  apply bind_Some in H as (c3 & E3 & [= <-]).
  apply length_SHA1Update in E, E1, E3. apply length_pad_zeros in E2. rewrite E2, E1, E in E3. cbn [SHA1Init state length] in E3.
  destruct (state c3) as [|a [|b [|c' [|d [|e [|f l]]]]]]; cbn in E3; lia || done.
Qed.

(** ** The standard

    SHA-1 as FIPS 180-4 has it. *)

Definition be_val (bs : list byte) : Z := foldl (fun v b => v * 256 + b) 0 bs.

Definition Ch (x y z : Z) : Z := Z.lxor (Z.land x y) (Z.land (Z.lnot x) z).
Definition Parity (x y z : Z) : Z := Z.lxor (Z.lxor x y) z.
Definition Maj (x y z : Z) : Z := Z.lxor (Z.lxor (Z.land x y) (Z.land x z)) (Z.land y z).
Definition round_function (t : nat) : Z -> Z -> Z -> Z :=
  if (t <? 20)%nat then Ch else if (t <? 40)%nat then Parity else if (t <? 60)%nat then Maj else Parity.
Definition round_constant (t : nat) : Z :=
  if (t <? 20)%nat then 0x5A827999 else if (t <? 40)%nat then 0x6ED9EBA1 else if (t <? 60)%nat then 0x8F1BBCDC else 0xCA62C1D6.

(** The message schedule: sixteen big-endian words, and sixty-four more. *)
Definition schedule_next (ws : list Z) : list Z :=
  let at_ k := word ws (length ws - k) in
  ws ++ [rol (Z.lxor (Z.lxor (Z.lxor (at_ 3%nat) (at_ 8%nat)) (at_ 14%nat)) (at_ 16%nat)) 1].
Fixpoint be_words (n : nat) (block : list byte) : list Z :=
  match n with O => [] | S n => be_val (take 4 block) :: be_words n (drop 4 block) end.
Definition schedule (block : list byte) : list Z := Nat.iter 64 schedule_next (be_words 16 block).

Definition round (ws : list Z) (t : nat) (vars : list Z) : list Z :=
  match vars with
  | [a; b; c; d; e] => [u32 (rol a 5 + round_function t b c d + e + round_constant t + word ws t); a; rol b 30; c; d]
  | _ => vars
  end.
Definition compress (hash : list Z) (block : list byte) : list Z :=
  zip_with (fun h v => u32 (h + v)) hash (foldl (fun vars t => round (schedule block) t vars) hash (seq 0 80)).

(** [n] blocks of the message. *)
Fixpoint hash_blocks (n : nat) (hash : list Z) (message : list byte) : list Z :=
  match n with O => hash | S n => hash_blocks n (compress hash (take 64 message)) (drop 64 message) end.
(** A bit one, zeros, and the length in bits. *)
Definition pad_message (message : list byte) : list byte :=
  let l := Z.of_nat (length message) in
  message ++ [128] ++ repeat 0 (Z.to_nat ((55 - l) mod 64)) ++ be_bytes (Z.shiftr (8 * l) 32) ++ be_bytes (8 * l).
Definition SHA1_standard (message : list byte) : list byte :=
  let padded := pad_message message in
  concat (map be_bytes (hash_blocks (length padded / 64) [0x67452301; 0xEFCDAB89; 0x98BADCFE; 0x10325476; 0xC3D2E1F0] padded)).

(** *** One block *)

Lemma lor_bytes b x : 0 <= b < 256 -> b + 256 * x = Z.lor b (Z.shiftl x 8).
Proof. intros H. rewrite (lor_add b x 8) by lia. lia. Qed.
Lemma land_byte b c x y : is_byte b -> is_byte c -> Z.land (b + 256 * x) (c + 256 * y) = Z.land b c + 256 * Z.land x y.
Proof.
  unfold is_byte. intros Hb Hc. rewrite !lor_bytes by (try apply (land_range 8); lia). bitwise.
Qed.
Lemma lor_byte b c x y : is_byte b -> is_byte c -> Z.lor (b + 256 * x) (c + 256 * y) = Z.lor b c + 256 * Z.lor x y.
Proof.
  unfold is_byte. intros Hb Hc. rewrite !lor_bytes by (try apply (lor_range 8); lia). bitwise.
Qed.

(** Rotating by bytes. *)
Lemma rol_8 a b c d : is_byte a -> is_byte b -> is_byte c -> is_byte d ->
  rol (le_val [a; b; c; d]) 8 = le_val [d; a; b; c] /\ rol (le_val [a; b; c; d]) 24 = le_val [b; c; d; a].
Proof.
  unfold is_byte, rol. cbn [le_val]. intros Ha Hb Hc Hd. rewrite !Z.shiftl_mul_pow2, !Z.shiftr_div_pow2 by lia.
  split.
  - replace ((a + _) * 2 ^ 8) with (256 * (a + 256 * (b + 256 * c)) + d * 2 ^ 32) by lia. unfold trunc.
    rewrite Z.mod_add, Z.mod_small by lia.
    replace (_ / 2 ^ (32 - 8)) with d by (apply Z.div_unique with (a + 256 * (b + 256 * c)); lia).
    rewrite Z.lor_comm. replace (256 * (a + _)) with (Z.shiftl (a + 256 * (b + 256 * c)) 8) by (rewrite Z.shiftl_mul_pow2; lia).
    rewrite lor_add by lia. lia.
  - replace ((a + _) * 2 ^ 24) with (a * 2 ^ 24 + (b + 256 * (c + 256 * d)) * 2 ^ 32) by lia. unfold trunc.
    rewrite Z.mod_add, Z.mod_small by lia.
    replace (_ / 2 ^ (32 - 24)) with (b + 256 * (c + 256 * d)) by (apply Z.div_unique with a; lia).
    rewrite Z.lor_comm. replace (a * 2 ^ 24) with (Z.shiftl a 24) by (rewrite Z.shiftl_mul_pow2; lia).
    rewrite lor_add by lia. lia.
Qed.
Lemma byte_swap bs : Forall is_byte bs -> length bs = 4%nat ->
  Z.lor (Z.land (rol (le_val bs) 24) 0xFF00FF00) (Z.land (rol (le_val bs) 8) 0x00FF00FF) = be_val bs.
Proof.
  destruct bs as [|a [|b [|c [|d [|]]]]]; try done. intros H _.
  apply Forall_cons in H as [Ha H]. apply Forall_cons in H as [Hb H]. apply Forall_cons in H as [Hc H]. apply Forall_cons in H as [Hd _].
  destruct (rol_8 a b c d Ha Hb Hc Hd) as [-> ->].
  change 0xFF00FF00 with (le_val [0; 255; 0; 255]). change 0x00FF00FF with (le_val [255; 0; 255; 0]). cbn [le_val].
  assert (H0 : is_byte 0) by (unfold is_byte; lia). assert (H1 : is_byte 255) by (unfold is_byte; lia).
  rewrite !land_byte, !Z.land_0_r by done. change 255 with (Z.ones 8). rewrite !land_ones_trunc by lia.
  rewrite !trunc_small by done. rewrite !lor_byte by done. rewrite !Z.lor_0_l, !Z.lor_0_r. cbn. lia.
Qed.

Lemma mix_round i w x y : mix i w x y = round_function i w x y + round_constant i.
Proof.
  unfold mix, round_function, round_constant. destruct (i <? 20)%nat; [|destruct (i <? 40)%nat; [done|destruct (i <? 60)%nat; [|done]]];
    f_equal; unfold Ch, Maj; bitwise.
Qed.

(** The schedule only grows, and follows its recurrence. *)
Lemma be_words_length n block : length (be_words n block) = n.
Proof. revert block. induction n as [|n IH]; intros block; [done|]. cbn. by rewrite IH. Qed.
Lemma schedule_grows n ws : ws `prefix_of` Nat.iter n schedule_next ws /\ length (Nat.iter n schedule_next ws) = (length ws + n)%nat.
Proof.
  induction n as [|n [IH1 IH2]]; [split; [done|cbn; lia]|]. cbn [Nat.iter nat_rect]. split.
  - eapply transitivity; [exact IH1|]. by eexists.
  - unfold schedule_next at 1. rewrite List.length_app. cbn. fold (Nat.iter n schedule_next ws). lia.
Qed.
Lemma word_prefix ws ws' t : ws `prefix_of` ws' -> (t < length ws)%nat -> word ws' t = word ws t.
Proof. intros [k ->] H. by apply app_nth1. Qed.

Lemma schedule_low block t : (t < 16)%nat -> word (schedule block) t = word (be_words 16 block) t.
Proof. intros H. apply word_prefix; [apply schedule_grows|by rewrite be_words_length]. Qed.
Lemma schedule_step block t : (16 <= t < 80)%nat -> let at_ k := word (schedule block) (t - k) in
  word (schedule block) t = rol (Z.lxor (Z.lxor (Z.lxor (at_ 3%nat) (at_ 8%nat)) (at_ 14%nat)) (at_ 16%nat)) 1.
Proof.
  intros Ht at_. subst at_. set (w0 := be_words 16 block). assert (H0 : length w0 = 16%nat) by apply be_words_length.
  set (ws := Nat.iter (t - 16) schedule_next w0). destruct (schedule_grows (t - 16) w0) as [_ Hl]. fold ws in Hl.
  assert (Hnext : schedule_next ws `prefix_of` schedule block).
  { unfold schedule. fold w0. replace 64%nat with ((64 - S (t - 16)) + S (t - 16))%nat by lia. rewrite Nat.iter_add. apply schedule_grows. }
  assert (Hlow : forall k, (0 < k <= t)%nat -> word (schedule block) (t - k) = word ws (t - k)).
  { intros k Hk. apply word_prefix; [|lia]. eapply transitivity; [|exact Hnext]. by eexists. }
  rewrite !Hlow by lia. rewrite (word_prefix _ _ t Hnext) by (unfold schedule_next; rewrite List.length_app; cbn; lia).
  unfold schedule_next. cbv zeta. replace (length ws) with t by lia. unfold word at 1. rewrite app_nth2 by lia.
  replace (t - length ws)%nat with 0%nat by lia. done.
Qed.

(** The roles that the variables have in two rounds. *)
Lemma roles i : (i < 80)%nat ->
  NoDup (map (role i) (seq 0 5)) /\ (forall k, (k < 5)%nat -> (role i k < 5)%nat) /\ role (S i) 0 = role i 4 /\
  (forall k, (k < 4)%nat -> role (S i) (S k) = role i k).
Proof.
  intros Hi. split_and!.
  - assert (H : forallb (fun i => bool_decide (NoDup (map (role i) (seq 0 5)))) (seq 0 80) = true) by (vm_compute; reflexivity).
    rewrite forallb_forall in H. specialize (H i ltac:(apply in_seq; lia)). by apply bool_decide_eq_true in H.
  - intros k _. apply Nat.mod_upper_bound. done.
  - unfold role. replace (80 - i + 4)%nat with (80 - S i + 0 + 1 * 5)%nat by lia. by rewrite Nat.Div0.mod_add.
  - intros k _. unfold role. f_equal. lia.
Qed.

(** The code's state before round [i]: the variables in their places, the last
    sixteen words of the schedule and what is left of the block. *)
Record in_round (data : list byte) (i : nat) (spec : list Z) (st : list Z * list Z) : Prop := {
  ir_spec : length spec = 5%nat;
  ir_vars : length st.1 = 5%nat;
  ir_roles : forall k, (k < 5)%nat -> word st.1 (role i k) = word spec k;
  ir_block : length st.2 = 16%nat;
  ir_words : forall t, (t < i <= t + 16)%nat -> word st.2 (t mod 16) = word (schedule data) t;
  ir_rest : forall t, (i <= t < 16)%nat -> word st.2 t = word (block_words 16 data) t }.

Lemma word_insert_eq l i x : (i < length l)%nat -> word (<[i := x]> l) i = x.
Proof. intros H. unfold word. rewrite nth_lookup, list_lookup_insert_eq by done. done. Qed.
Lemma word_insert_ne l i j x : i <> j -> word (<[i := x]> l) j = word l j.
Proof. intros H. unfold word. by rewrite !nth_lookup, list_lookup_insert_ne. Qed.

Lemma block_words_be n : forall data, Forall is_byte data -> length data = (4 * n)%nat -> forall t, (t < n)%nat ->
  let l := word (block_words n data) t in Z.lor (Z.land (rol l 24) 0xFF00FF00) (Z.land (rol l 8) 0x00FF00FF) = word (be_words n data) t.
Proof.
  induction n as [|n IH]; intros data Hd Hl t Ht; [lia|]. destruct t as [|t].
  - apply byte_swap; [by apply Forall_take|rewrite length_take; lia].
  - apply (IH (drop 4 data)); [by apply Forall_drop|rewrite length_drop; lia|lia].
Qed.

(** What a round reads and stores in the block. *)
Lemma block_step data i spec st : Forall is_byte data -> length data = 64%nat -> (i < 80)%nat -> in_round data i spec st ->
  (if (i <? 16)%nat then blk0 st.2 i else blk st.2 i) =
    (word (schedule data) i, <[(i mod 16)%nat := word (schedule data) i]> st.2).
Proof.
  intros Hd Hl Hi [_ _ _ _ Hw Hr]. destruct (Nat.ltb_spec i 16) as [H|H].
  - unfold blk0. rewrite Hr, (block_words_be 16), Nat.mod_small, schedule_low by (try done; lia). done.
  - unfold blk. assert (E : forall k, (k < 16)%nat -> word st.2 ((i + k) mod 16) = word (schedule data) (i - (16 - k))).
    { intros k Hk. rewrite <- Hw by lia. f_equal. replace (i + k)%nat with (i - (16 - k) + 1 * 16)%nat by lia. by rewrite Nat.Div0.mod_add. }
    pose proof (E 0%nat ltac:(lia)) as E0. rewrite Nat.add_0_r in E0. rewrite E0, !E by lia.
    rewrite (schedule_step data i) by lia. done.
Qed.

Lemma R_round data i spec st : Forall is_byte data -> length data = 64%nat -> (i < 80)%nat -> in_round data i spec st ->
  in_round data (S i) (round (schedule data) i spec) (R i st).
Proof.
  intros Hd Hl Hi Hin. pose proof (block_step data i spec st Hd Hl Hi Hin) as Hb. destruct Hin as [Hs Hv Hroles Hbl Hw Hr].
  destruct st as [vars block]. cbn [fst snd] in *. unfold R. rewrite Hb. clear Hb.
  destruct spec as [|a [|b [|c [|d [|e [|]]]]]]; try done.
  pose proof (Hroles 0%nat ltac:(lia)) as R0. pose proof (Hroles 1%nat ltac:(lia)) as R1. pose proof (Hroles 2%nat ltac:(lia)) as R2.
  pose proof (Hroles 3%nat ltac:(lia)) as R3. pose proof (Hroles 4%nat ltac:(lia)) as R4. rewrite R0, R1, R2, R3, R4.
  destruct (roles i Hi) as (Hnd & Hlt & Hr0 & HrS). cbn [word nth] in *. cbn [round].
  assert (Hne : forall j k, (j < 5)%nat -> (k < 5)%nat -> j <> k -> role i j <> role i k).
  { intros j k Hj Hk Hjk E. apply Hjk. change (map (role i)) with (fmap (M := list) (role i)) in Hnd.
    apply (NoDup_lookup _ j k (role i j) Hnd); rewrite list_lookup_fmap, lookup_seq_lt by lia; cbn [fmap option_fmap option_map Nat.add]; congruence. }
  constructor; cbn [fst snd].
  - done.
  - by rewrite !length_insert.
  - intros [|k] Hk.
    + rewrite Hr0, word_insert_ne by (apply Hne; lia). rewrite word_insert_eq by (rewrite Hv; apply Hlt; lia).
      cbn [word nth]. f_equal. rewrite mix_round. lia.
    + rewrite HrS by lia. destruct k as [|[|[|[|k]]]]; [| | | |lia].
      * rewrite !word_insert_ne by (apply Hne; lia). exact R0.
      * rewrite word_insert_eq by (rewrite length_insert, Hv; apply Hlt; lia). done.
      * rewrite !word_insert_ne by (apply Hne; lia). exact R2.
      * rewrite !word_insert_ne by (apply Hne; lia). exact R3.
  - by rewrite length_insert.
  - intros t Ht. destruct (decide (t = i)) as [->|Hti]; [apply word_insert_eq; rewrite Hbl; by apply Nat.mod_upper_bound|].
    rewrite word_insert_ne; [apply Hw; lia|]. intros E. pose proof (Nat.div_mod_eq t 16). pose proof (Nat.div_mod_eq i 16). lia.
  - intros t Ht. rewrite word_insert_ne; [apply Hr; lia|]. rewrite Nat.mod_small; lia.
Qed.

Lemma block_words_length n data : length (block_words n data) = n.
Proof. revert data. induction n as [|n IH]; intros data; [done|]. cbn. by rewrite IH. Qed.
Lemma rounds_agree data hash n : Forall is_byte data -> length data = 64%nat -> length hash = 5%nat -> (n <= 80)%nat ->
  in_round data n (foldl (fun vars t => round (schedule data) t vars) hash (seq 0 n))
    (foldl (fun st i => R i st) (hash, block_words 16 data) (seq 0 n)).
Proof.
  intros Hd Hl Hh. induction n as [|n IH]; intros Hn.
  - constructor; cbn [fst snd foldl seq]; try done.
    + intros k Hk. unfold role. do 5 (destruct k as [|k]; [done|]). lia.
    + intros t Ht. lia.
  - rewrite seq_S, !foldl_app. cbn [foldl Nat.add]. apply R_round; [done|done|lia|apply IH; lia].
Qed.
Lemma rounds_end vars spec : length vars = 5%nat -> length spec = 5%nat ->
  (forall k, (k < 5)%nat -> word vars (role 80 k) = word spec k) -> vars = spec.
Proof.
  intros Hv Hs H. pose proof (H 0%nat ltac:(lia)) as H0. pose proof (H 1%nat ltac:(lia)) as H1.
  pose proof (H 2%nat ltac:(lia)) as H2. pose proof (H 3%nat ltac:(lia)) as H3. pose proof (H 4%nat ltac:(lia)) as H4. clear H.
  destruct vars as [|a [|b [|c [|d [|e [|]]]]]]; try done. destruct spec as [|a' [|b' [|c' [|d' [|e' [|]]]]]]; try done.
  cbn in *. congruence.
Qed.
Lemma SHA1Transform_compress data hash : Forall is_byte data -> length data = 64%nat -> length hash = 5%nat ->
  SHA1Transform hash data = compress hash data.
Proof.
  intros Hd Hl Hh. unfold SHA1Transform, compress.
  pose proof (rounds_agree data hash 80 Hd Hl Hh (le_n 80)) as H. revert H.
  generalize (foldl (fun st i => R i st) (hash, block_words 16 data) (seq 0 80)).
  generalize (foldl (fun vars t => round (schedule data) t vars) hash (seq 0 80)).
  intros spec [vars block] [Hs Hv Hr _ _ _]. cbn [fst snd] in *. by rewrite (rounds_end vars spec Hv Hs Hr).
Qed.

(** *** The stream *)

Definition initial_hash : list Z := [0x67452301; 0xEFCDAB89; 0x98BADCFE; 0x10325476; 0xC3D2E1F0].
Lemma length_compress h b : Forall is_byte b -> length b = 64%nat -> length h = 5%nat -> length (compress h b) = 5%nat.
Proof. intros H1 H2 H3. by rewrite <- SHA1Transform_compress, length_SHA1Transform. Qed.
Lemma hash_blocks_length n : forall h m, Forall is_byte m -> (64 * n <= length m)%nat -> length h = 5%nat -> length (hash_blocks n h m) = 5%nat.
Proof.
  induction n as [|n IH]; intros h m Hm Hl Hh; [done|]. cbn [hash_blocks]. apply IH; [by apply Forall_drop|rewrite length_drop; lia|].
  apply length_compress; [by apply Forall_take|rewrite length_take; lia|done].
Qed.
Lemma hash_blocks_add a b : forall h m, hash_blocks (a + b) h m = hash_blocks b (hash_blocks a h m) (drop (64 * a) m).
Proof.
  induction a as [|a IH]; intros h m; [done|]. cbn [Nat.add hash_blocks]. rewrite IH, drop_drop. do 2 f_equal. lia.
Qed.
Lemma hash_blocks_app n : forall h m x, (64 * n <= length m)%nat -> hash_blocks n h (m ++ x) = hash_blocks n h m.
Proof.
  induction n as [|n IH]; intros h m x Hl; [done|]. cbn [hash_blocks]. rewrite take_app_le, drop_app_le by lia.
  apply IH. rewrite length_drop. lia.
Qed.
Lemma transform_blocks_hash fuel : forall st data n, Forall is_byte data -> length st = 5%nat -> length data = n -> (n / 64 <= fuel)%nat ->
  transform_blocks fuel st data (Z.of_nat n) = (hash_blocks (n / 64) st data, drop (64 * (n / 64)) data, Z.of_nat (n mod 64)).
Proof.
  induction fuel as [|fuel IH]; intros st data n Hd Hs Hl Hf; pose proof (Nat.div_mod_eq n 64) as E;
    pose proof (Nat.mod_upper_bound n 64 ltac:(done)) as Hm; cbn [transform_blocks].
  - replace (n / 64)%nat with 0%nat in * by lia. cbn [hash_blocks Nat.mul]. rewrite drop_0. f_equal. lia.
  - destruct (Z.ltb_spec 63 (Z.of_nat n)) as [H|H].
    + destruct (n / 64)%nat as [|q] eqn:Eq; [lia|]. rewrite SHA1Transform_compress; [|by apply Forall_take|rewrite length_take; lia|done].
      replace (Z.of_nat n - 64) with (Z.of_nat (n - 64)) by lia.
      assert (E1 : ((n - 64) / 64)%nat = q) by (symmetry; apply (Nat.div_unique _ _ _ (n mod 64)); lia).
      assert (E2 : ((n - 64) mod 64)%nat = (n mod 64)%nat) by (symmetry; apply (Nat.mod_unique _ _ q); lia).
      rewrite IH; [|by apply Forall_drop|apply length_compress; [by apply Forall_take|rewrite length_take; lia|done]|rewrite length_drop; lia|lia].
      rewrite E1, E2, drop_drop. cbn [hash_blocks]. do 3 f_equal. lia.
    + replace (n / 64)%nat with 0%nat in * by lia. cbn [hash_blocks Nat.mul]. rewrite drop_0. f_equal. lia.
Qed.

(** A context that has taken the message [m] so far. *)
Record absorbed (m : list byte) (c : SHA1_CTX) : Prop := {
  ab_state : state c = hash_blocks (length m / 64) initial_hash m;
  ab_count0 : count0 c = u32 (8 * Z.of_nat (length m));
  ab_count1 : count1 c = u32 (8 * Z.of_nat (length m) / 2 ^ 32);
  ab_length : length (buffer c) = 64%nat;
  ab_buffer : take (length m mod 64) (buffer c) = drop (64 * (length m / 64)) m;
  ab_bytes : Forall is_byte m }.

Lemma count_add lo hi l n : 0 <= l -> 0 <= n -> lo = u32 (8 * l) -> hi = u32 (8 * l / 2 ^ 32) ->
  let c0 := u32 (lo + u32 (Z.shiftl n 3)) in
  c0 = u32 (8 * (l + n)) /\
  u32 ((if c0 <? lo then u32 (hi + 1) else hi) + Z.shiftr n 29) = u32 (8 * (l + n) / 2 ^ 32).
Proof.
  intros Hl Hn -> ->. cbv zeta. rewrite Z.shiftl_mul_pow2, Z.shiftr_div_pow2 by lia.
  set (a := 8 * l). set (b := n * 2 ^ 3). replace (8 * (l + n)) with (a + b) by lia.
  assert (Hc : n / 2 ^ 29 = b / 2 ^ 32) by (unfold b; replace (2 ^ 32) with (2 ^ 29 * 2 ^ 3) by lia; by rewrite Z.div_mul_cancel_r by lia).
  rewrite Hc. split; [by rewrite trunc_add_l, trunc_add_r|].
  pose proof (Z.div_mod a (2 ^ 32) ltac:(lia)) as Ea. pose proof (Z.div_mod b (2 ^ 32) ltac:(lia)) as Eb.
  pose proof (Z.mod_pos_bound a (2 ^ 32) ltac:(lia)). pose proof (Z.mod_pos_bound b (2 ^ 32) ltac:(lia)).
  unfold trunc in *. set (la := a mod 2 ^ 32) in *. set (lb := b mod 2 ^ 32) in *. set (qa := a / 2 ^ 32) in *. set (qb := b / 2 ^ 32) in *.
  destruct (Z.ltb_spec ((la + lb) mod 2 ^ 32) la) as [H1|H1].
  - assert (2 ^ 32 <= la + lb) by (destruct (Z.lt_ge_cases (la + lb) (2 ^ 32)); [rewrite Z.mod_small in H1 by lia; lia|done]).
    replace ((a + b) / 2 ^ 32) with (qa + 1 + qb) by (apply Z.div_unique with (la + lb - 2 ^ 32); lia).
    rewrite !Z.add_mod_idemp_l by lia. rewrite <- Z.add_assoc, Z.add_mod_idemp_l, Z.add_assoc by lia. done.
  - assert (la + lb < 2 ^ 32).
    { destruct (Z.lt_ge_cases (la + lb) (2 ^ 32)); [done|]. rewrite <- (Z.mod_add _ (-1)), Z.mod_small in H1 by lia. lia. }
    replace ((a + b) / 2 ^ 32) with (qa + qb) by (apply Z.div_unique with (la + lb); lia).
    by rewrite Z.add_mod_idemp_l by lia.
Qed.

Lemma buffered l : 0 <= l -> Z.land (Z.shiftr (u32 (8 * l)) 3) 63 = l mod 64.
Proof.
  intros Hl. change 63 with (Z.ones 6). rewrite Z.land_ones, Z.shiftr_div_pow2 by lia. unfold trunc.
  replace (2 ^ 32) with (8 * 2 ^ 29) by lia. rewrite Z.mul_mod_distr_l by lia.
  change (2 ^ 3) with 8. rewrite Z.mul_comm, Z.div_mul by lia. change (2 ^ 6) with 64. change (2 ^ 29) with (64 * 2 ^ 23).
  rewrite Z.rem_mul_r by lia. rewrite Z.mul_comm, Z.mod_add by lia. by rewrite Z.mod_mod by lia.
Qed.
Lemma fill_buffer_ok (j n : nat) data buf : (j + n <= 64)%nat -> fill_buffer (Z.of_nat j) (Z.of_nat n) data buf = Some (splice j (take n data) buf).
Proof. intros H. unfold fill_buffer. rewrite (proj2 (Z.leb_le _ _)) by lia. by rewrite !Nat2Z.id. Qed.

(** Where the position in the block goes. *)
Lemma same_block l n : (l mod 64 + n <= 63)%nat -> ((l + n) / 64 = l / 64 /\ (l + n) mod 64 = l mod 64 + n)%nat.
Proof.
  intros H. pose proof (Nat.div_mod_eq l 64). split; [symmetry; apply (Nat.div_unique _ _ _ (l mod 64 + n)); lia|].
  symmetry. apply (Nat.mod_unique _ _ (l / 64)); lia.
Qed.
Lemma next_block l n : (64 <= l mod 64 + n)%nat -> let rest := (n - (64 - l mod 64))%nat in
  ((l + n) / 64 = l / 64 + 1 + rest / 64 /\ (l + n) mod 64 = rest mod 64)%nat.
Proof.
  intros H rest. pose proof (Nat.div_mod_eq l 64). pose proof (Nat.mod_upper_bound l 64 ltac:(done)).
  pose proof (Nat.div_mod_eq rest 64). pose proof (Nat.mod_upper_bound rest 64 ltac:(done)). subst rest.
  split; [symmetry; eapply Nat.div_unique; [eassumption|lia]|].
  symmetry. eapply (Nat.mod_unique _ _ (l / 64 + 1 + (n - (64 - l mod 64)) / 64)); [eassumption|lia].
Qed.

Lemma SHA1Update_absorbs m c data : absorbed m c -> Forall is_byte data -> Z.of_nat (length data) < 2 ^ 32 - 64 ->
  exists c', SHA1Update c data (Z.of_nat (length data)) = Some c' /\ absorbed (m ++ data) c'.
Proof.
  intros [Hs Hc0 Hc1 Hbl Hb Hm] Hd Hn. unfold SHA1Update. cbv zeta.
  destruct (count_add _ _ (Z.of_nat (length m)) (Z.of_nat (length data)) ltac:(lia) ltac:(lia) Hc0 Hc1) as [E0 E1]. cbv zeta in E0, E1.
  rewrite E1, E0. clear E0 E1. rewrite Hc0, buffered by lia.
  set (l := length m) in *. set (n := length data) in *.
  assert (HJ : Z.of_nat l mod 64 = Z.of_nat (l mod 64)) by (by rewrite Nat2Z.inj_mod). rewrite !HJ. pose proof (Nat.mod_upper_bound l 64 ltac:(done)) as Hj. pose proof (Nat.div_mod_eq l 64) as El.
  assert (Hall : Forall is_byte (m ++ data)) by (by apply Forall_app). assert (Hlen : length (m ++ data) = (l + n)%nat) by (by rewrite List.length_app).
  rewrite (trunc_small 32) by lia. destruct (Z.ltb_spec 63 (Z.of_nat (l mod 64) + Z.of_nat n)) as [H|H].
  - destruct (next_block l n ltac:(lia)) as [Eq Er]. set (rest := (n - (64 - l mod 64))%nat) in *.
    replace (64 - Z.of_nat (l mod 64)) with (Z.of_nat (64 - l mod 64)) by lia.
    rewrite fill_buffer_ok by lia. cbn [mbind option_bind]. rewrite Nat2Z.id.
    set (buf := splice _ _ _).
    assert (Ebuf : buf = take 64 (drop (64 * (l / 64)) (m ++ data))).
    { unfold buf, splice. rewrite length_take, drop_app_le, <- Hb by lia. rewrite take_app_ge by (rewrite length_take; lia).
      rewrite length_take, Hbl. rewrite (drop_ge (buffer c)) by lia. rewrite app_nil_r. do 2 f_equal; lia. }
    replace (Z.of_nat n - Z.of_nat (64 - l mod 64)) with (Z.of_nat rest) by lia.
    assert (Hblk : Forall is_byte buf) by (rewrite Ebuf; by apply Forall_take, Forall_drop).
    assert (Hblen : length buf = 64%nat) by (rewrite Ebuf, length_take, length_drop; lia).
    assert (Hst : length (state c) = 5%nat) by (rewrite Hs; apply hash_blocks_length; [done|lia|done]).
    rewrite SHA1Transform_compress by done.
    assert (Edrop : drop (64 - l mod 64) data = drop (64 * (l / 64 + 1)) (m ++ data)).
    { rewrite drop_app_ge by lia. f_equal. lia. }
    rewrite (transform_blocks_hash _ _ (drop (64 - l mod 64) data) rest);
      [|by apply Forall_drop|by apply length_compress|rewrite length_drop; lia|].
    2: { change 64 with (Z.of_nat 64) at 1. rewrite <- Nat2Z.inj_div, Nat2Z.id. apply Nat.Div0.div_le_mono. lia. }
    pose proof (Nat.mod_upper_bound rest 64 ltac:(done)) as Hrj. pose proof (Nat.div_mod_eq rest 64) as Erest.
    rewrite (fill_buffer_ok 0 (rest mod 64)) by lia. cbn [mbind option_bind]. eexists. split; [reflexivity|].
    rewrite Edrop, drop_drop in *. constructor; cbn [state count0 count1 buffer]; rewrite ?Hlen; try done.
    + rewrite Eq, !hash_blocks_add. cbn [hash_blocks]. rewrite hash_blocks_app by lia. by rewrite <- Hs, Ebuf.
    + by rewrite Nat2Z.inj_add.
    + by rewrite Nat2Z.inj_add.
    + rewrite length_splice; [done|]. rewrite length_take. lia.
    + rewrite Eq, Er. unfold splice. rewrite take_0. cbn [app]. rewrite take_app_le by (rewrite length_take, length_drop; lia).
      rewrite take_take, Nat.min_id. rewrite take_ge by (rewrite length_drop; lia). f_equal. lia.
  - destruct (same_block l n ltac:(lia)) as [Eq Er]. rewrite fill_buffer_ok by lia. cbn [mbind option_bind].
    eexists. split; [reflexivity|]. constructor; cbn [state count0 count1 buffer]; rewrite ?Hlen; try done.
    + rewrite Eq, hash_blocks_app by lia. done.
    + by rewrite Nat2Z.inj_add.
    + by rewrite Nat2Z.inj_add.
    + rewrite length_splice; [done|]. rewrite length_take. lia.
    + rewrite Eq, Er, drop_app_le, <- Hb by lia. unfold splice. rewrite (take_ge data) by lia.
      rewrite app_assoc. apply take_app_length'. rewrite List.length_app, length_take. lia.
Qed.

Lemma land_504 a : Z.land a 504 = Z.shiftl (Z.land (Z.shiftr a 3) 63) 3.
Proof. change 504 with (Z.shiftl (Z.ones 6) 3). change 63 with (Z.ones 6). bitwise. Qed.
Lemma pad_zeros_absorbs fuel : forall m c, absorbed m c -> let k := Z.to_nat ((56 - Z.of_nat (length m)) mod 64) in (k <= fuel)%nat ->
  exists c', pad_zeros fuel c = Some c' /\ absorbed (m ++ repeat 0 k) c'.
Proof.
  assert (Htest : forall m c, absorbed m c -> (Z.land (count0 c) 504 =? 448) = ((56 - Z.of_nat (length m)) mod 64 =? 0)).
  { intros m c Hc. rewrite (ab_count0 _ _ Hc). set (L := Z.of_nat (length m)).
    rewrite land_504, buffered, Z.shiftl_mul_pow2 by lia.
    pose proof (Z.div_mod L 64 ltac:(lia)). pose proof (Z.mod_pos_bound L 64 ltac:(lia)).
    pose proof (Z.div_mod (56 - L) 64 ltac:(lia)). pose proof (Z.mod_pos_bound (56 - L) 64 ltac:(lia)). lia. }
  induction fuel as [|fuel IH]; intros m c Hc k Hk; cbn [pad_zeros]; rewrite (Htest m c Hc); subst k;
    destruct (Z.eqb_spec ((56 - Z.of_nat (length m)) mod 64) 0) as [H|H]; cbn [negb].
  - exists c. rewrite H. cbn. by rewrite app_nil_r.
  - pose proof (Z.mod_pos_bound (56 - Z.of_nat (length m)) 64 ltac:(lia)). lia.
  - exists c. rewrite H. cbn. by rewrite app_nil_r.
  - destruct (SHA1Update_absorbs m c [0] Hc ltac:(repeat constructor; done) ltac:(done)) as (c1 & E & H1).
    change (Z.of_nat (length [0])) with 1 in E. rewrite E. cbn [mbind option_bind].
    assert (Ek : (56 - Z.of_nat (length (m ++ [0]))) mod 64 = (56 - Z.of_nat (length m)) mod 64 - 1).
    { rewrite List.length_app. cbn [length]. pose proof (Z.div_mod (56 - Z.of_nat (length m)) 64 ltac:(lia)).
      pose proof (Z.mod_pos_bound (56 - Z.of_nat (length m)) 64 ltac:(lia)). symmetry.
      apply (Z.mod_unique_pos _ _ ((56 - Z.of_nat (length m)) / 64)); lia. }
    destruct (IH (m ++ [0]) c1 H1) as (c' & E' & H'); [rewrite Ek; lia|]. exists c'. split; [exact E'|].
    rewrite Ek, <- app_assoc in H'. replace (Z.to_nat ((56 - Z.of_nat (length m)) mod 64)) with
      (S (Z.to_nat ((56 - Z.of_nat (length m)) mod 64 - 1))) by (pose proof (Z.mod_pos_bound (56 - Z.of_nat (length m)) 64 ltac:(lia)); lia).
    exact H'.
Qed.

Lemma be_bytes_u32 x : be_bytes (u32 x) = be_bytes x.
Proof.
  unfold be_bytes. change 255 with (Z.ones 8). apply map_ext_in. intros i Hi. repeat (destruct Hi as [<-|Hi]; [bitwise|]). done.
Qed.
Lemma be_bytes_ok x : Forall is_byte (be_bytes x) /\ length (be_bytes x) = 4%nat.
Proof.
  split; [|done]. unfold be_bytes. apply Forall_forall. intros b (i & -> & _)%list_elem_of_fmap. change 255 with (Z.ones 8).
  rewrite land_ones_trunc by lia. by apply trunc_range.
Qed.

Lemma sha1_standard fresh data : length fresh = 64%nat -> Forall is_byte data -> Z.of_nat (length data) < 2 ^ 32 - 64 ->
  sha1 fresh data = Some (SHA1_standard data).
Proof.
  intros Hf Hd Hn. assert (H0 : absorbed [] (SHA1Init fresh)) by (constructor; try done; by rewrite Hf).
  destruct (SHA1Update_absorbs [] _ data H0 Hd Hn) as (c1 & E1 & H1). cbn [app] in H1.
  unfold sha1. rewrite E1. cbn [mbind option_bind]. unfold SHA1Final.
  destruct (SHA1Update_absorbs data c1 [128] H1 ltac:(repeat constructor; done) ltac:(done)) as (c2 & E2 & H2).
  change (Z.of_nat (length [128])) with 1 in E2. rewrite E2. cbn [mbind option_bind].
  destruct (pad_zeros_absorbs 64 _ c2 H2) as (c3 & E3 & H3).
  { pose proof (Z.mod_pos_bound (56 - Z.of_nat (length (data ++ [128]))) 64 ltac:(lia)). lia. }
  rewrite E3. cbn [mbind option_bind]. rewrite (ab_count0 _ _ H1), (ab_count1 _ _ H1), !be_bytes_u32.
  set (count := be_bytes _ ++ be_bytes _). assert (Hcount : Forall is_byte count) by (apply Forall_app; split; apply be_bytes_ok).
  destruct (SHA1Update_absorbs _ c3 count H3 Hcount ltac:(done)) as (c4 & E4 & H4).
  change (Z.of_nat (length count)) with 8 in E4. rewrite E4. cbn [mbind option_bind]. rewrite (ab_state _ _ H4).
  unfold SHA1_standard. fold initial_hash.
  assert (Hp : ((data ++ [128]) ++ repeat 0 (Z.to_nat ((56 - Z.of_nat (length (data ++ [128]))) mod 64))) ++ count = pad_message data); [|by rewrite Hp].
  unfold pad_message, count. rewrite Z.shiftr_div_pow2 by lia. rewrite List.length_app. cbn [length].
  replace (56 - Z.of_nat (length data + 1)) with (55 - Z.of_nat (length data)) by lia. by rewrite <- !app_assoc.
Qed.
