(* ===== verification/DexWriter.v ===== *)
(** The image of a dex file: [Writer::CreateImage] ([slicer/writer.cc]) with the
    sections of [writer.h], the structures of [dex_format.h], and
    [ComputeChecksum] of [dex_format.cc].

    A section's buffer is its contents, which is what the operations of
    SlicerBuffer.v append to. The nodes of the IR are named as in DexIr.v, and
    [node_offset_] is a map for each kind of them. The operations are in the state
    monad [M] of DexBuilder.v. *)
From S2P Require Import Prelude Leb128 SlicerBuffer DexBytecode DexCode DexValue DexDebug DexTry DexOrder DexIr DexBuilder Sha1.

(** ** The structures *)

Record ProtoId := { shorty_idx : Z; return_type_idx : Z; parameters_off : Z }.
Record FieldId := { fi_class_idx : Z; fi_type_idx : Z; fi_name_idx : Z }.
Record MethodId := { mi_class_idx : Z; mi_proto_idx : Z; mi_name_idx : Z }.
Record ClassDef := {
  class_idx : Z; access_flags : Z; superclass_idx : Z; interfaces_off : Z; source_file_idx : Z;
  annotations_off : Z; class_data_off : Z; static_values_off : Z
}.
Record MapItem := { mp_type : Z; mp_size : Z; mp_offset : Z }.

(** Their bytes; the compiler's layout has no padding. *)
Definition u2_bytes : Z -> list byte := le_bytes 2.
Definition u4_bytes : Z -> list byte := le_bytes 4.
Definition proto_id_bytes (p : ProtoId) : list byte :=
  u4_bytes (shorty_idx p) ++ u4_bytes (return_type_idx p) ++ u4_bytes (parameters_off p).
Definition field_id_bytes (f : FieldId) : list byte :=
  u2_bytes (fi_class_idx f) ++ u2_bytes (fi_type_idx f) ++ u4_bytes (fi_name_idx f).
Definition method_id_bytes (m : MethodId) : list byte :=
  u2_bytes (mi_class_idx m) ++ u2_bytes (mi_proto_idx m) ++ u4_bytes (mi_name_idx m).
Definition class_def_bytes (c : ClassDef) : list byte :=
  concat (map u4_bytes [class_idx c; access_flags c; superclass_idx c; interfaces_off c; source_file_idx c;
                        annotations_off c; class_data_off c; static_values_off c]).
Definition map_item_bytes (i : MapItem) : list byte :=
  u2_bytes (mp_type i) ++ u2_bytes 0 ++ u4_bytes (mp_size i) ++ u4_bytes (mp_offset i).
Definition try_bytes (t : TryBlock) : list byte :=
  u4_bytes (start_addr t) ++ u2_bytes (insn_count t) ++ u2_bytes (handler_off t).

(** ** [Section] and [Index] *)

Record Section_ := { bytes_ : list byte; count_ : Z; offset_ : Z; sealed : bool }.
Definition newSection : Section_ := {| bytes_ := []; count_ := 0; offset_ := 0; sealed := false |}.
Definition section_size (s : Section_) : Z := u32 (Z.of_nat (length (bytes_ s))).

(** The elements of an index section. *)
Record Index (T : Type) := { ix_offset : Z; ix_count : Z; values_ : list T }.
Arguments ix_offset {T}.
Arguments ix_count {T}.
Arguments values_ {T}.

Inductive section_id :=
| string_data_sec | type_lists_sec | debug_info_sec | encoded_arrays_sec | code_sec | class_data_sec
| ann_directories_sec | ann_set_ref_lists_sec | ann_sets_sec | ann_items_sec | map_list_sec.
#[export] Instance section_id_eq : EqDecision section_id.
Proof. solve_decision. Defined.

(** The kinds of nodes that have file offsets. *)
Inductive node_kind := TypeListNode | CodeNode | DebugInfoNode | EncodedArrayNode
| AnnotationNode | AnnotationSetNode | AnnotationSetRefListNode | AnnotationsDirectoryNode.
#[export] Instance node_kind_eq : EqDecision node_kind.
Proof. solve_decision. Defined.

(** [DexImage], with the writer's [node_offset_]. *)
Record Image := {
  string_ids : Index Z; type_ids : Index Z; proto_ids : Index ProtoId; field_ids : Index FieldId;
  method_ids : Index MethodId; class_defs : Index ClassDef;
  sections : section_id -> Section_; node_offset_ : node_kind -> gmap nat Z
}.

Definition set_section (s : section_id) (x : Section_) (im : Image) : Image :=
  {| string_ids := string_ids im; type_ids := type_ids im; proto_ids := proto_ids im; field_ids := field_ids im;
     method_ids := method_ids im; class_defs := class_defs im;
     sections := fun s' => if decide (s' = s) then x else sections im s'; node_offset_ := node_offset_ im |}.
Definition set_node_offset (k : node_kind) (i : nat) (offset : Z) (im : Image) : Image :=
  {| string_ids := string_ids im; type_ids := type_ids im; proto_ids := proto_ids im; field_ids := field_ids im;
     method_ids := method_ids im; class_defs := class_defs im; sections := sections im;
     node_offset_ := fun k' => if decide (k' = k) then <[i := offset]> (node_offset_ im k) else node_offset_ im k' |}.
Definition set_ids (s t : Index Z) (p : Index ProtoId) (f : Index FieldId) (m : Index MethodId) (c : Index ClassDef)
    (im : Image) : Image :=
  {| string_ids := s; type_ids := t; proto_ids := p; field_ids := f; method_ids := m; class_defs := c;
     sections := sections im; node_offset_ := node_offset_ im |}.
Definition set_string_ids (x : Index Z) (im : Image) : Image :=
  set_ids x (type_ids im) (proto_ids im) (field_ids im) (method_ids im) (class_defs im) im.
Definition set_type_ids (x : Index Z) (im : Image) : Image :=
  set_ids (string_ids im) x (proto_ids im) (field_ids im) (method_ids im) (class_defs im) im.
Definition set_proto_ids (x : Index ProtoId) (im : Image) : Image :=
  set_ids (string_ids im) (type_ids im) x (field_ids im) (method_ids im) (class_defs im) im.
Definition set_field_ids (x : Index FieldId) (im : Image) : Image :=
  set_ids (string_ids im) (type_ids im) (proto_ids im) x (method_ids im) (class_defs im) im.
Definition set_method_ids (x : Index MethodId) (im : Image) : Image :=
  set_ids (string_ids im) (type_ids im) (proto_ids im) (field_ids im) x (class_defs im) im.
Definition set_class_defs (x : Index ClassDef) (im : Image) : Image :=
  set_ids (string_ids im) (type_ids im) (proto_ids im) (field_ids im) (method_ids im) x im.

Section Writer.
Context (ndebug : bool).

Definition check {S} (b : bool) : M S unit := lift (SLICER_CHECK ndebug b).

(** An operation on one section. *)
Definition on {A} (s : section_id) (m : M Section_ A) : M Image A := fun im =>
  '(a, x) ← m (sections im s); Some (a, set_section s x im).

Definition put_bytes (bs : list byte) (s : Section_) : Section_ :=
  {| bytes_ := bytes_ s ++ bs; count_ := count_ s; offset_ := offset_ s; sealed := sealed s |}.

(** [Buffer::Push], [Align] and [Seal]. *)
Definition Push (bs : list byte) : M Section_ unit :=
  s ← get; check (negb (sealed s)) ;; put (put_bytes bs s).
Definition Align (alignment : Z) : M Section_ unit :=
  s ← get;
  let rem := Z.of_nat (length (bytes_ s)) mod alignment in
  whenM (negb (rem =? 0)) (Push (repeat 0 (Z.to_nat (alignment - rem)))).
Definition Seal (alignment : Z) : M Section_ Z :=
  s ← get; check (negb (sealed s)) ;;
  Align alignment ;;
  modify (fun s => {| bytes_ := bytes_ s; count_ := count_ s; offset_ := offset_ s; sealed := true |}) ;;
  gets section_size.

Definition SetOffset (offset : Z) : M Section_ unit :=
  check ((0 <? offset) && (offset mod 4 =? 0)) ;;
  modify (fun s => {| bytes_ := bytes_ s; count_ := count_ s; offset_ := offset; sealed := sealed s |}).
Definition SectionOffset (s : Section_) : option Z :=
  SLICER_CHECK ndebug ((0 <? offset_ s) && (offset_ s mod 4 =? 0)) ;;
  Some (if 0 <? count_ s then offset_ s else 0).
Definition AbsoluteOffset (itemOffset : Z) : M Section_ Z :=
  s ← get;
  check (0 <? offset_ s) ;; check (itemOffset <? Z.of_nat (length (bytes_ s))) ;;
  mret (u32 (offset_ s + itemOffset)).
Definition AddItem (alignment : Z) : M Section_ Z :=
  modify (fun s => {| bytes_ := bytes_ s; count_ := u32 (count_ s + 1); offset_ := offset_ s; sealed := sealed s |}) ;;
  Align alignment ;;
  gets section_size.

(** What most items do: [AddItem], the item, [AbsoluteOffset]. *)
Definition add_item (s : section_id) (alignment : Z) (item : M Image unit) : M Image Z :=
  offset ← on s (AddItem alignment); item ;; on s (AbsoluteOffset offset).

(** [Index]: [zero] stands for the values of the new array, which nothing reads
    before they are set. *)
Definition Init {T} (zero : T) (offset : Z) (count : nat) : Index T :=
  {| ix_offset := offset; ix_count := u32 (Z.of_nat count); values_ := repeat zero count |}.
Definition index_size {T} (sizeof : Z) (x : Index T) : Z := u32 (ix_count x * sizeof).
Definition IndexOffset {T} (x : Index T) : option Z :=
  SLICER_CHECK ndebug ((0 <? ix_offset x) && (ix_offset x mod 4 =? 0)) ;;
  Some (if 0 <? ix_count x then ix_offset x else 0).
(** [index[i] = f(index[i])]; beyond the array is a stray access. *)
Definition update_at {T} (i : nat) (f : T -> T) (x : Index T) : option (Index T) :=
  SLICER_CHECK ndebug (Z.of_nat i <? ix_count x) ;;
  v ← values_ x !! i;
  Some {| ix_offset := ix_offset x; ix_count := ix_count x; values_ := <[i := f v]> (values_ x) |}.

(** ** Nodes and file offsets *)

Definition FilePointer (k : node_kind) (ir_node : option nat) : M Image Z :=
  match ir_node with
  | None => mret 0
  | Some i =>
      im ← get;
      offset ← lift (node_offset_ im k !! i);
      check (0 <? offset) ;; mret offset
  end.

Fixpoint forM_ {St A} (i : nat) (f : nat -> A -> M St unit) (l : list A) : M St unit :=
  match l with
  | [] => mret tt
  | a :: l => f i a ;; forM_ (S i) f l
  end.

(** The loop that six of the sections share: write the nodes and note their
    offsets. *)
Definition write_nodes {A} (k : node_kind) (write : A -> M Image Z) (l : list A) : M Image unit :=
  forM_ 0 (fun i a =>
    im ← get;
    check (default 0 (node_offset_ im k !! i) =? 0) ;;
    offset ← write a;
    modify (set_node_offset k i offset)) l.

(** [PushULeb128] of a [u4]. *)
Definition PushULeb128 (s : section_id) (value : Z) : M Image unit :=
  bs ← lift (uleb_bytes (u32 value)); on s (Push bs).
Definition PushU4 (s : section_id) (value : Z) : M Image unit := on s (Push (u4_bytes value)).

Section File.
Context (ir : DexFile).

(** A node's [index] member. *)
Definition index (k : item) (x : Z) : Z := u32 (index_of (indexes ir) k x).
(** [OptIndex]. *)
Definition opt_index (k : item) (x : option Z) : Z := match x with Some x => index k x | None => kNoIndex end.

(** ** Items *)

Definition WriteTypeList (types : list Z) : M Image Z :=
  match types with
  | [] => mret 0
  | _ =>
      add_item type_lists_sec 4 (
        PushU4 type_lists_sec (Z.of_nat (length types)) ;;
        on type_lists_sec (Push (concat (map (fun t => u2_bytes (index TypeItem t)) types))))
  end.

Definition kVisibilityEncoded : Z := 0xff.

Definition WriteAnnotationItem (a : Annotation) : M Image Z :=
  check (negb (visibility a =? kVisibilityEncoded)) ;;
  add_item ann_items_sec 1 (
    on ann_items_sec (Push [u8 (visibility a)]) ;;
    bs ← lift (WriteAnnotation ndebug index (a_type a) (elements a));
    on ann_items_sec (Push bs)).

(** [WriteAnnotationSet] and [WriteAnnotationSetRefList]. *)
Definition write_pointers (s : section_id) (k : node_kind) (l : list nat) : M Image Z :=
  add_item s 4 (
    PushU4 s (Z.of_nat (length l)) ;;
    forM_ 0 (fun _ i => p ← FilePointer k (Some i); PushU4 s p) l).
Definition WriteAnnotationSet : list nat -> M Image Z := write_pointers ann_sets_sec AnnotationNode.
Definition WriteAnnotationSetRefList : list nat -> M Image Z := write_pointers ann_set_ref_lists_sec AnnotationSetNode.

(** The three arrays of declarations with pointers. *)
Definition annotation_pairs (decl : item) (k : node_kind) (l : list (Z * nat)) : M Image (list byte) :=
  pairs ← mapM_ (fun e => p ← FilePointer k (Some e.2); mret (u4_bytes (index decl e.1) ++ u4_bytes p)) l;
  mret (concat pairs).

Definition WriteClassAnnotations (c : Class_) : M Image Z :=
  match c_annotations c with
  | None => mret 0
  | Some i =>
      im ← get;
      let offset := default 0 (node_offset_ im AnnotationsDirectoryNode !! i) in
      if offset =? 0 then
        dir ← lift (annotations_directories (data_ ir) !! i);
        fields ← annotation_pairs FieldItem AnnotationSetNode (field_annotations dir);
        methods ← annotation_pairs MethodItem AnnotationSetNode (method_annotations dir);
        params ← annotation_pairs MethodItem AnnotationSetRefListNode (param_annotations dir);
        class_annotations_offset ← FilePointer AnnotationSetNode (class_annotation dir);
        let count {A} (l : list A) := Z.of_nat (length l) in
        offset ← add_item ann_directories_sec 4 (on ann_directories_sec (Push (concat (map u4_bytes
          [class_annotations_offset; count (field_annotations dir); count (method_annotations dir);
           count (param_annotations dir)]) ++ fields ++ methods ++ params)));
        modify (set_node_offset AnnotationsDirectoryNode i offset) ;; mret offset
      else mret offset
  end.

Definition WriteDebugInfo (info : DebugInfo) : M Image Z :=
  add_item debug_info_sec 1 (
    bs ← lift (DexDebug.WriteDebugInfo ndebug (indexes ir) info);
    on debug_info_sec (Push bs)).

(** Up to [insns], the last member of [dex::Code]. *)
Definition code_header (c : Code) (debug_info_off : Z) : list byte :=
  u2_bytes (registers c) ++ u2_bytes (ins_count c) ++ u2_bytes (outs_count c) ++
  u2_bytes (Z.of_nat (length (try_blocks c))) ++ u4_bytes debug_info_off ++
  u4_bytes (Z.of_nat (length (instructions c))).
Definition WriteCode (c : Code) : M Image Z :=
  debug_info_off ← FilePointer DebugInfoNode (code_debug_info c);
  add_item code_sec 4 (
    on code_sec (Push (code_header c debug_info_off)) ;;
    insns ← lift (WriteInstructions ndebug (indexes ir) (instructions c));
    on code_sec (Push (concat (map u2_bytes insns))) ;;
    whenM (negb (Z.of_nat (length (try_blocks c)) =? 0))
      (on code_sec (Align 4) ;;
       t ← lift (WriteTryBlocks ndebug (indexes ir) (try_blocks c) (catch_handlers c));
       on code_sec (Push (concat (map try_bytes t.1) ++ t.2)))).

(** The delta of [WriteEncodedField] and [WriteEncodedMethod]. *)
Definition index_delta (new_index base_index : Z) : M Image Z :=
  check (negb (new_index =? kNoIndex)) ;;
  if negb (base_index =? kNoIndex) then check (base_index <? new_index) ;; mret (u32 (new_index - base_index))
  else mret new_index.
Fixpoint WriteEncodedFields (base_index : Z) (l : list EncodedField) : M Image unit :=
  match l with
  | [] => mret tt
  | f :: l =>
      let new_index := index FieldItem (f_decl f) in
      d ← index_delta new_index base_index;
      PushULeb128 class_data_sec d ;;
      PushULeb128 class_data_sec (f_access_flags f) ;;
      WriteEncodedFields new_index l
  end.
Fixpoint WriteEncodedMethods (base_index : Z) (l : list EncodedMethod) : M Image unit :=
  match l with
  | [] => mret tt
  | m :: l =>
      let new_index := index MethodItem (m_decl m) in
      d ← index_delta new_index base_index;
      code_offset ← FilePointer CodeNode (m_code m);
      PushULeb128 class_data_sec d ;;
      PushULeb128 class_data_sec (m_access_flags m) ;;
      PushULeb128 class_data_sec code_offset ;;
      WriteEncodedMethods new_index l
  end.

Definition WriteClassData (c : Class_) : M Image Z :=
  match static_fields c, instance_fields c, direct_methods c, virtual_methods c with
  | [], [], [], [] => mret 0
  | sf, inf, dm, vm =>
      add_item class_data_sec 1 (
        PushULeb128 class_data_sec (Z.of_nat (length sf)) ;;
        PushULeb128 class_data_sec (Z.of_nat (length inf)) ;;
        PushULeb128 class_data_sec (Z.of_nat (length dm)) ;;
        PushULeb128 class_data_sec (Z.of_nat (length vm)) ;;
        WriteEncodedFields kNoIndex sf ;;
        WriteEncodedFields kNoIndex inf ;;
        WriteEncodedMethods kNoIndex dm ;;
        WriteEncodedMethods kNoIndex vm)
  end.

Definition WriteClassStaticValues (c : Class_) : M Image Z :=
  match static_init c with
  | None => mret 0
  | Some i =>
      im ← get;
      let offset := default 0 (node_offset_ im EncodedArrayNode !! i) in
      if offset =? 0 then
        vs ← lift (encoded_arrays (data_ ir) !! i);
        offset ← add_item encoded_arrays_sec 1 (
          bs ← lift (WriteEncodedArray ndebug index vs);
          on encoded_arrays_sec (Push bs));
        modify (set_node_offset EncodedArrayNode i offset) ;; mret offset
      else mret offset
  end.

(** ** Sections *)

Definition create_section (s : section_id) (body : M Image unit) (section_offset : Z) : M Image Z :=
  on s (SetOffset section_offset) ;; body ;; on s (Seal 4).

Definition string_bytes (s : Z) : list byte := default [] (string_nodes (nodes ir) !! s).
Definition CreateStringDataSection : Z -> M Image Z := create_section string_data_sec
  (forM_ 0 (fun i s =>
    offset ← add_item string_data_sec 1 (on string_data_sec (Push (string_bytes s)));
    im ← get;
    x ← lift (update_at i (fun _ => offset) (string_ids im));
    modify (set_string_ids x)) (strings (tbl ir))).

Definition CreateTypeListsSection : Z -> M Image Z :=
  create_section type_lists_sec (write_nodes TypeListNode WriteTypeList (type_lists (data_ ir))).
Definition CreateDebugInfoSection : Z -> M Image Z :=
  create_section debug_info_sec (write_nodes DebugInfoNode WriteDebugInfo (debug_infos (data_ ir))).
Definition CreateCodeItemSection : Z -> M Image Z :=
  create_section code_sec (write_nodes CodeNode WriteCode (codes (data_ ir))).
Definition CreateAnnSetsSection : Z -> M Image Z :=
  create_section ann_sets_sec (write_nodes AnnotationSetNode WriteAnnotationSet (annotation_sets (data_ ir))).
Definition CreateAnnSetRefListsSection : Z -> M Image Z :=
  create_section ann_set_ref_lists_sec
    (write_nodes AnnotationSetRefListNode WriteAnnotationSetRefList (annotation_set_ref_lists (data_ ir))).
(** Nested annotations are not in the vector (DexIr.v), but the test is. *)
Definition CreateAnnItemSection : Z -> M Image Z := create_section ann_items_sec
  (forM_ 0 (fun i a =>
    whenM (negb (visibility a =? kVisibilityEncoded))
      (im ← get;
       check (default 0 (node_offset_ im AnnotationNode !! i) =? 0) ;;
       offset ← WriteAnnotationItem a;
       modify (set_node_offset AnnotationNode i offset))) (annotations (data_ ir))).

(** The loop of the three sections that have an item for a class. *)
Definition write_classes (write : Class_ -> M Image Z) (set : Z -> ClassDef -> ClassDef) : M Image unit :=
  forM_ 0 (fun i c =>
    offset ← write (class_node (nodes ir) c);
    im ← get;
    x ← lift (update_at i (set offset) (class_defs im));
    modify (set_class_defs x)) (classes ir).
Definition set_class_data_off (o : Z) (c : ClassDef) : ClassDef :=
  Build_ClassDef (class_idx c) (access_flags c) (superclass_idx c) (interfaces_off c) (source_file_idx c)
    (annotations_off c) o (static_values_off c).
Definition set_annotations_off (o : Z) (c : ClassDef) : ClassDef :=
  Build_ClassDef (class_idx c) (access_flags c) (superclass_idx c) (interfaces_off c) (source_file_idx c)
    o (class_data_off c) (static_values_off c).
Definition set_static_values_off (o : Z) (c : ClassDef) : ClassDef :=
  Build_ClassDef (class_idx c) (access_flags c) (superclass_idx c) (interfaces_off c) (source_file_idx c)
    (annotations_off c) (class_data_off c) o.
Definition CreateClassDataSection : Z -> M Image Z :=
  create_section class_data_sec (write_classes WriteClassData set_class_data_off).
Definition CreateAnnDirectoriesSection : Z -> M Image Z :=
  create_section ann_directories_sec (write_classes WriteClassAnnotations set_annotations_off).
Definition CreateEncodedArrayItemSection : Z -> M Image Z :=
  create_section encoded_arrays_sec (write_classes WriteClassStaticValues set_static_values_off).

(** The type codes, in the order of the map's items. *)
Definition id_codes : list Z := [1; 2; 3; 4; 5; 6].
Definition section_code (s : section_id) : Z :=
  match s with
  | string_data_sec => 0x2002 | type_lists_sec => 0x1001 | debug_info_sec => 0x2003 | encoded_arrays_sec => 0x2005
  | code_sec => 0x2001 | class_data_sec => 0x2000 | ann_directories_sec => 0x2006 | ann_set_ref_lists_sec => 0x1002
  | ann_sets_sec => 0x1003 | ann_items_sec => 0x2004 | map_list_sec => 0x1000
  end.
Definition map_order : list section_id :=
  [string_data_sec; type_lists_sec; debug_info_sec; encoded_arrays_sec; code_sec; class_data_sec;
   ann_directories_sec; ann_set_ref_lists_sec; ann_sets_sec; ann_items_sec; map_list_sec].

Definition sizeof_Header : Z := 112.

Definition AddMapItem (type count : Z) (section_offset : option Z) (items : list MapItem) : option (list MapItem) :=
  if 0 <? count then
    offset ← section_offset;
    SLICER_CHECK ndebug (sizeof_Header <=? offset) ;;
    Some (items ++ [{| mp_type := type; mp_size := count; mp_offset := offset |}])
  else Some items.
Definition index_item {T} (type : Z) (x : Index T) : list MapItem -> option (list MapItem) :=
  AddMapItem type (ix_count x) (IndexOffset x).
Definition section_item (im : Image) (s : section_id) : list MapItem -> option (list MapItem) :=
  AddMapItem (section_code s) (count_ (sections im s)) (SectionOffset (sections im s)).

Definition map_items (im : Image) : option (list MapItem) :=
  items ← index_item 1 (string_ids im) [{| mp_type := 0; mp_size := 1; mp_offset := 0 |}];
  items ← index_item 2 (type_ids im) items;
  items ← index_item 3 (proto_ids im) items;
  items ← index_item 4 (field_ids im) items;
  items ← index_item 5 (method_ids im) items;
  items ← index_item 6 (class_defs im) items;
  foldl (fun items s => items ← items; section_item im s items) (Some items) map_order.

(** The comparator; it checks that the offsets it is given differ, and any sort
    compares equal ones that there are. *)
Definition compare_map_items (i j : MapItem) : Z := if mp_offset i <? mp_offset j then -1 else 1.

Definition CreateMapSection : Z -> M Image Z := create_section map_list_sec
  (_ ← on map_list_sec (AddItem 4);
   im ← get;
   items ← lift (map_items im);
   check (bool_decide (NoDup (map mp_offset items))) ;;
   let items := qsort compare_map_items items in
   PushU4 map_list_sec (Z.of_nat (length items)) ;;
   on map_list_sec (Push (concat (map map_item_bytes items)))).

(** ** The index sections *)

Definition FillTypes : M Image unit := forM_ 0 (fun i t =>
  im ← get;
  x ← lift (update_at i (fun _ => index StringItem (descriptor (type_node (nodes ir) t))) (type_ids im));
  modify (set_type_ids x)) (types (tbl ir)).
(** The members of the ids that are [u2] keep the low half of an index. *)
Definition FillFields : M Image unit := forM_ 0 (fun i f =>
  let f := field_node (nodes ir) f in
  im ← get;
  x ← lift (update_at i (fun _ => {| fi_class_idx := u16 (index TypeItem (f_parent f));
    fi_type_idx := u16 (index TypeItem (f_type f)); fi_name_idx := index StringItem (f_name f) |}) (field_ids im));
  modify (set_field_ids x)) (fields (tbl ir)).
Definition FillProtos : M Image unit := forM_ 0 (fun i p =>
  let p := proto_node (nodes ir) p in
  parameters ← FilePointer TypeListNode (param_types p);
  im ← get;
  x ← lift (update_at i (fun _ => {| shorty_idx := index StringItem (shorty p);
    return_type_idx := index TypeItem (return_type p); parameters_off := parameters |}) (proto_ids im));
  modify (set_proto_ids x)) (protos (tbl ir)).
Definition FillMethods : M Image unit := forM_ 0 (fun i m =>
  let m := method_node (nodes ir) m in
  im ← get;
  x ← lift (update_at i (fun _ => {| mi_class_idx := u16 (index TypeItem (m_parent m));
    mi_proto_idx := u16 (index ProtoItem (m_prototype m)); mi_name_idx := index StringItem (m_name m) |}) (method_ids im));
  modify (set_method_ids x)) (methods (tbl ir)).
Definition FillClassDefs : M Image unit := forM_ 0 (fun i c =>
  let c := class_node (nodes ir) c in
  p ← FilePointer TypeListNode (interfaces c);
  im ← get;
  x ← lift (update_at i (fun def => Build_ClassDef (index TypeItem (c_type c)) (c_access_flags c)
    (opt_index TypeItem (super_class c)) p (opt_index StringItem (source_file c))
    (annotations_off def) (class_data_off def) (static_values_off def)) (class_defs im));
  modify (set_class_defs x)) (classes ir).

(** ** [CreateImage] *)

(** The index sections, one behind the other: the offset of the data. *)
Definition init_indexes : M Image Z := fun im =>
  let offset := sizeof_Header in
  let s := Init 0 offset (length (strings (tbl ir))) in let offset := u32 (offset + index_size 4 s) in
  let t := Init 0 offset (length (types (tbl ir))) in let offset := u32 (offset + index_size 4 t) in
  let p := Init (Build_ProtoId 0 0 0) offset (length (protos (tbl ir))) in let offset := u32 (offset + index_size 12 p) in
  let f := Init (Build_FieldId 0 0 0) offset (length (fields (tbl ir))) in let offset := u32 (offset + index_size 8 f) in
  let m := Init (Build_MethodId 0 0 0) offset (length (methods (tbl ir))) in let offset := u32 (offset + index_size 8 m) in
  let c := Init (Build_ClassDef 0 0 0 0 0 0 0 0) offset (length (classes ir)) in
  let offset := u32 (offset + index_size 32 c) in
  Some (offset, set_ids s t p f m c im).

(** [offset += Create...Section(offset)], for each of them. *)
Fixpoint create_sections (l : list (Z -> M Image Z)) (offset : Z) : M Image Z :=
  match l with
  | [] => mret offset
  | create :: l => size ← create offset; create_sections l (u32 (offset + size))
  end.
Definition all_sections : list (Z -> M Image Z) :=
  [CreateStringDataSection; CreateTypeListsSection; CreateDebugInfoSection; CreateEncodedArrayItemSection;
   CreateCodeItemSection; CreateClassDataSection; CreateAnnItemSection; CreateAnnSetsSection;
   CreateAnnSetRefListsSection; CreateAnnDirectoriesSection; CreateMapSection].

(** Everything up to the allocation: the offset of the data and the image size. *)
Definition create_all : M Image (Z * Z) :=
  data_offset ← init_indexes;
  check (data_offset mod 4 =? 0) ;;
  image_size ← create_sections all_sections data_offset;
  FillTypes ;; FillFields ;; FillProtos ;; FillMethods ;; FillClassDefs ;;
  check (image_size mod 4 =? 0) ;;
  mret (data_offset, image_size).
End File.
End Writer.

(** ** The final image *)

(** The fields of the header behind the digest. *)
Record Header := {
  h_file_size : Z; h_header_size : Z; h_endian_tag : Z; h_link_size : Z; h_link_off : Z; h_map_off : Z;
  h_string_ids_size : Z; h_string_ids_off : Z; h_type_ids_size : Z; h_type_ids_off : Z;
  h_proto_ids_size : Z; h_proto_ids_off : Z; h_field_ids_size : Z; h_field_ids_off : Z;
  h_method_ids_size : Z; h_method_ids_off : Z; h_class_defs_size : Z; h_class_defs_off : Z;
  h_data_size : Z; h_data_off : Z
}.
Definition header_words (h : Header) : list Z :=
  [h_file_size h; h_header_size h; h_endian_tag h; h_link_size h; h_link_off h; h_map_off h;
   h_string_ids_size h; h_string_ids_off h; h_type_ids_size h; h_type_ids_off h;
   h_proto_ids_size h; h_proto_ids_off h; h_field_ids_size h; h_field_ids_off h;
   h_method_ids_size h; h_method_ids_off h; h_class_defs_size h; h_class_defs_off h;
   h_data_size h; h_data_off h].
Definition kEndianConstant : Z := 0x12345678.

Section Finish.
Context (ndebug : bool) (im : Image).

Definition make_header (data_offset image_size : Z) : option Header :=
  map_off ← SectionOffset ndebug (sections im map_list_sec);
  s ← IndexOffset ndebug (string_ids im); t ← IndexOffset ndebug (type_ids im);
  p ← IndexOffset ndebug (proto_ids im); f ← IndexOffset ndebug (field_ids im);
  m ← IndexOffset ndebug (method_ids im); c ← IndexOffset ndebug (class_defs im);
  Some {| h_file_size := image_size; h_header_size := sizeof_Header; h_endian_tag := kEndianConstant;
    h_link_size := 0; h_link_off := 0; h_map_off := map_off;
    h_string_ids_size := ix_count (string_ids im); h_string_ids_off := s;
    h_type_ids_size := ix_count (type_ids im); h_type_ids_off := t;
    h_proto_ids_size := ix_count (proto_ids im); h_proto_ids_off := p;
    h_field_ids_size := ix_count (field_ids im); h_field_ids_off := f;
    h_method_ids_size := ix_count (method_ids im); h_method_ids_off := m;
    h_class_defs_size := ix_count (class_defs im); h_class_defs_off := c;
    h_data_size := u32 (image_size - data_offset); h_data_off := data_offset |}.

(** [memcpy] to [image + offset]; outside the image it is a stray access. *)
Definition copy_to (offset : Z) (bs image : list byte) : option (list byte) :=
  if Z.of_nat (length image) <? offset + Z.of_nat (length bs) then None
  else Some (splice (Z.to_nat offset) bs image).

Definition CopySection (count : Z) (section_offset : option Z) (bs image : list byte) : option (list byte) :=
  let size := u32 (Z.of_nat (length bs)) in
  if size =? 0 then SLICER_CHECK ndebug (count =? 0) ;; Some image
  else
    SLICER_CHECK ndebug (0 <? count) ;;
    offset ← section_offset;
    SLICER_CHECK ndebug (sizeof_Header <=? offset) ;;
    SLICER_CHECK ndebug (u32 (offset + size) <=? Z.of_nat (length image)) ;;
    copy_to offset bs image.
Definition copy_index {T} (encode : T -> list byte) (x : Index T) : list byte -> option (list byte) :=
  CopySection (ix_count x) (IndexOffset ndebug x) (concat (map encode (values_ x))).
Definition copy_section (s : section_id) : list byte -> option (list byte) :=
  let x := sections im s in CopySection (count_ x) (SectionOffset ndebug x) (bytes_ x).

Definition copy_sections (image : list byte) : option (list byte) :=
  image ← copy_index u4_bytes (string_ids im) image;
  image ← copy_index u4_bytes (type_ids im) image;
  image ← copy_index proto_id_bytes (proto_ids im) image;
  image ← copy_index field_id_bytes (field_ids im) image;
  image ← copy_index method_id_bytes (method_ids im) image;
  image ← copy_index class_def_bytes (class_defs im) image;
  foldl (fun image s => image ← image; copy_section s image) (Some image) map_order.
End Finish.

(** [writer.dex_ir_] and its [node_offset_]. *)
Record Writer := { dex_ir_ : DexFile; node_offsets : node_kind -> gmap nat Z }.
Definition newWriter (ir : DexFile) : Writer := {| dex_ir_ := ir; node_offsets := fun _ => ∅ |}.

Definition new_image (offsets : node_kind -> gmap nat Z) : Image :=
  let none {T} : Index T := {| ix_offset := 0; ix_count := 0; values_ := [] |} in
  {| string_ids := none; type_ids := none; proto_ids := none; field_ids := none; method_ids := none; class_defs := none;
     sections := fun _ => newSection; node_offset_ := offsets |}.

Section CreateImage.
(** [adler32] of zlib, [None] being the null pointer; what [Allocate] answers; what an
    uninitialised buffer holds. *)
Context (ndebug : bool) (adler32 : Z -> option (list byte) -> Z) (Allocate : Z -> bool) (fresh : list byte).

(** The bytes summed start behind the magic number and the checksum itself. *)
Definition ComputeChecksum (header : list byte) (file_size : Z) : Z :=
  u32 (adler32 (adler32 0 None) (Some (take (Z.to_nat (file_size - 12)) (drop 12 header)))).

(** The image, or a null pointer. *)
Definition CreateImage (checksum : bool) (w : Writer) : option (option (list byte) * Writer) :=
  ir ← Normalize ndebug (dex_ir_ w);
  '((data_offset, image_size), im) ← create_all ndebug ir (new_image (node_offsets w));
  let w := {| dex_ir_ := ir; node_offsets := node_offset_ im |} in
  if negb (Allocate image_size) then Some (None, w)
  else
    SLICER_CHECK ndebug (sizeof_Header <? image_size) ;;
    h ← make_header ndebug im data_offset image_size;
    let image := repeat 0 (Z.to_nat image_size) in
    image ← copy_to 0 (magic ir) image;
    image ← copy_to 32 (concat (map u4_bytes (header_words h))) image;
    image ← copy_sections ndebug im image;
    image ← (if checksum then
      digest ← sha1 fresh (take (Z.to_nat (h_file_size h - 32)) (drop 32 image));
      copy_to 12 digest image
      else Some image);
    image ← copy_to 8 (u4_bytes (ComputeChecksum image (h_file_size h))) image;
    Some (Some image, w).

(** [DexBuilder::CreateImage]. *)
Definition DexBuilder_CreateImage (checksum : bool) (d : DexBuilder) : option (option (list byte) * DexBuilder) :=
  '(image, w) ← CreateImage checksum (newWriter (dex_file_ d));
  Some (image, with_file (dex_ir_ w) d).
End CreateImage.
