(* ===== verification/DexReader.v ===== *)
(** The reader of dex images: [dex::Reader] ([slicer/reader.cc], [reader.h]).

    A reader is the memory from the image on and the memory of its data area, which
    is the same for a plain dex file; a pointer into either is the list of the bytes
    from there on. Reading builds the IR of DexIr.v; the other state is the maps
    from file offsets to the nodes made of them and the three lookup tables, hash
    tables of HashTable.v whose values come with their keys: a node does not change
    once it is inserted.

    A failure ends the run, and no lookup changes what a pointer reads: where the
    code reads an item and looks up what it refers to in turn, here the item is
    read first and its references are looked up, in the code's order, behind it. No
    node is made while another of its kind is, so that the placeholder which
    guards an index being read is never met, and a node is added when it is
    complete. [SLICER_WEAK_CHECK] only prints. *)
From stdpp Require Import strings.
From Stdlib Require Import Ascii String.
From S2P Require Import Prelude Leb128 HashTable SlicerBuffer DexBytecode DexCode DexValue DexDebug DexTry DexOrder DexIr DexBuilder DexWriter.

(** ** Memory *)

(** A member of [n] bytes, and the pointer behind it. *)
Definition read_le (n : nat) (ptr : list byte) : option (Z * list byte) :=
  '(bs, ptr) ← take_bytes n ptr; Some (le_val bs, ptr).
Fixpoint read_all (sizes : list nat) (ptr : list byte) : option (list Z * list byte) :=
  match sizes with
  | [] => Some ([], ptr)
  | n :: sizes => '(v, ptr) ← read_le n ptr; '(vs, ptr) ← read_all sizes ptr; Some (v :: vs, ptr)
  end.

(** An array of [count] elements of [sizes] bytes; each element takes a byte at
    least. *)
Fixpoint read_array (fuel : nat) (sizes : list nat) (count : Z) (ptr : list byte) : option (list (list Z) * list byte) :=
  if count <=? 0 then Some ([], ptr)
  else
    match fuel with
    | O => None
    | S fuel =>
        '(v, ptr) ← read_all sizes ptr;
        '(vs, ptr) ← read_array fuel sizes (count - 1) ptr;
        Some (v :: vs, ptr)
    end.

Record Reader := {
  image_ : list byte; size_ : Z; data_area : list byte; data_size_ : Z; is_compact_ : bool
}.

(** The header's words behind the digest; [k] counts them. *)
Definition header_word (image : list byte) (k : nat) : option Z := fst <$> read_le 4 (drop (32 + 4 * k) image).
Definition hd_file_size := 0%nat.
Definition hd_header_size := 1%nat.
Definition hd_endian_tag := 2%nat.
Definition hd_link_size := 3%nat.
Definition hd_link_off := 4%nat.
Definition hd_map_off := 5%nat.
Definition hd_string_ids := 6%nat.
Definition hd_type_ids := 8%nat.
Definition hd_proto_ids := 10%nat.
Definition hd_field_ids := 12%nat.
Definition hd_method_ids := 14%nat.
Definition hd_class_defs := 16%nat.
Definition hd_data_size := 18%nat.
Definition hd_data_off := 19%nat.

Definition IsCompact (image : list byte) : bool :=
  bool_decide (take 4 image = [0x63; 0x64; 0x65; 0x78]).

Section Reader.
Context (ndebug : bool).

Section Image.
Context (r : Reader).

Definition header (k : nat) : option Z := header_word (image_ r) k.

Definition ptr (sizeof offset : Z) : option (list byte) :=
  SLICER_CHECK ndebug (offset + sizeof <=? size_ r) ;;
  Some (drop (Z.to_nat offset) (image_ r)).
Definition dataPtr (sizeof offset : Z) : option (list byte) :=
  (if ndebug then Some tt
   else data_off ← header hd_data_off;
        SLICER_CHECK ndebug ((is_compact_ r || (data_off <=? offset)) && (offset + sizeof <=? data_size_ r))) ;;
  Some (drop (Z.to_nat offset) (data_area r)).

(** The elements of the table whose size and offset are the header's words [k] and
    [k + 1]. The count goes through an [int]. *)
Definition section_count (k : nat) : option Z := count ← header k; Some (u64 (s32 count)).
(** The number of elements and the first one, whose end is checked even when there is
    none. *)
Definition section (k : nat) (sizeof : Z) : option (Z * list byte) :=
  offset ← header (S k); count ← section_count k; base ← ptr sizeof offset; Some (count, base).
Definition element (k : nat) (sizes : list nat) (index : Z) : option (list Z) :=
  let sizeof := Z.of_nat (foldr Nat.add 0%nat sizes) in
  '(count, base) ← section k sizeof;
  SLICER_CHECK ndebug (index <? count) ;;
  fst <$> read_all sizes (drop (Z.to_nat (sizeof * index)) base).

Definition ClassDefs : Z -> option (list Z) := element hd_class_defs [4; 4; 4; 4; 4; 4; 4; 4]%nat.
Definition StringIds : Z -> option (list Z) := element hd_string_ids [4]%nat.
Definition TypeIds : Z -> option (list Z) := element hd_type_ids [4]%nat.
Definition FieldIds : Z -> option (list Z) := element hd_field_ids [2; 2; 4]%nat.
Definition MethodIds : Z -> option (list Z) := element hd_method_ids [2; 2; 4]%nat.
Definition ProtoIds : Z -> option (list Z) := element hd_proto_ids [4; 4; 4]%nat.
(** The number of entries, and the entries. *)
Definition DexMapList : option (Z * list byte) := off ← header hd_map_off; p ← dataPtr 4 off; read_le 4 p.

Definition GetStringData (index : Z) : option (list byte) :=
  id ← StringIds index;
  match id with [string_data_off] => dataPtr 1 string_data_off | _ => None end.

(** The characters up to the terminator. *)
Fixpoint c_string (p : list byte) : option (list byte) :=
  match p with
  | [] => None
  | c :: p => if c =? 0 then Some [] else s ← c_string p; Some (c :: s)
  end.
Definition GetStringMUTF8 (index : Z) : option (list byte) :=
  if index =? kNoIndex then Some (lit "<no_string>")
  else p ← GetStringData index; '(_, p) ← ReadULeb128 p; c_string p.

(** The class definitions from [i] on. *)
Fixpoint find_class (fuel : nat) (i : Z) (class_descriptor : list byte) : option Z :=
  match fuel with
  | O => Some kNoIndex
  | S fuel =>
      def ← ClassDefs i;
      match def with
      | class_idx :: _ =>
          type ← TypeIds class_idx;
          match type with
          | [descriptor_idx] =>
              descriptor ← GetStringMUTF8 descriptor_idx;
              if bool_decide (class_descriptor = descriptor) then Some i else find_class fuel (i + 1) class_descriptor
          | _ => None
          end
      | _ => None
      end
  end.
Definition FindClassIndex (class_descriptor : list byte) : option Z :=
  '(count, _) ← section hd_class_defs 32; _ ← section hd_type_ids 4; find_class (Z.to_nat count) 0 class_descriptor.

(** ** Items *)

(** The string data up to its terminator. *)
Definition string_item (index : Z) : option (list byte) :=
  data ← GetStringData index; '(_, cstr) ← ReadULeb128 data; s ← c_string cstr;
  Some (take (length data - length cstr + length s + 1) data).

(** [String::c_str] of the string: the memory behind the length. *)
Definition string_chars (index : Z) : option (list byte) :=
  data ← GetStringData index; '(_, cstr) ← ReadULeb128 data; Some cstr.

(** ["type_list"]. *)
Definition type_list_at (offset : Z) : option (list Z) :=
  p ← dataPtr 4 offset; '(size, p) ← read_le 4 p;
  '(l, _) ← read_array (length p) [2%nat] size p; Some (concat l).

(** ["annotation_set_item"] and ["annotation_set_ref_list"]: offsets. *)
Definition offsets_at (offset : Z) : option (list Z) :=
  p ← dataPtr 4 offset; '(size, p) ← read_le 4 p;
  '(l, _) ← read_array (length p) [4%nat] size p; Some (concat l).

(** The annotation behind its visibility. *)
Definition annotation_at (offset : Z) : option Annotation :=
  p ← dataPtr 1 offset; '(visibility, p) ← read_le 1 p;
  '(t, es, _) ← ParseAnnotation ndebug (3 * length p) p;
  Some {| a_type := t; elements := es; visibility := visibility |}.

Definition encoded_array_at (offset : Z) : option (list EncodedValue) :=
  p ← dataPtr 1 offset; '(vs, _) ← ParseEncodedArray ndebug (3 * length p) p; Some vs.

(** ["annotations_directory_item"]: the set of the class, and the three arrays of
    an index and an offset. *)
Definition directory_at (offset : Z) : option (Z * (list (list Z) * list (list Z) * list (list Z))) :=
  p ← dataPtr 16 offset; '(hd, p) ← read_all [4; 4; 4; 4]%nat p;
  match hd with
  | [class_annotations_off; fields_size; methods_size; parameters_size] =>
      '(fs, p) ← read_array (length p) [4; 4]%nat fields_size p;
      '(ms, p) ← read_array (length p) [4; 4]%nat methods_size p;
      '(ps, _) ← read_array (length p) [4; 4]%nat parameters_size p;
      Some (class_annotations_off, (fs, ms, ps))
  | _ => None
  end.

(** The index of [ParseEncodedField] and [ParseEncodedMethod]. *)
Definition next_member (base_index delta : Z) : option Z :=
  SLICER_CHECK ndebug (negb (delta =? kNoIndex)) ;;
  if negb (base_index =? kNoIndex) then SLICER_CHECK ndebug (negb (delta =? 0)) ;; Some (u32 (delta + base_index))
  else Some delta.
Fixpoint read_fields (fuel : nat) (count base_index : Z) (p : list byte) : option (list EncodedField * list byte) :=
  if count <=? 0 then Some ([], p)
  else
    match fuel with
    | O => None
    | S fuel =>
        '(delta, p) ← ReadULeb128 p; index ← next_member base_index delta; '(flags, p) ← ReadULeb128 p;
        '(l, p) ← read_fields fuel (count - 1) index p;
        Some ({| f_decl := index; f_access_flags := flags |} :: l, p)
    end.
(** A method with the offset of its code. *)
Fixpoint read_methods (fuel : nat) (count base_index : Z) (p : list byte) : option (list (Z * Z * Z) * list byte) :=
  if count <=? 0 then Some ([], p)
  else
    match fuel with
    | O => None
    | S fuel =>
        '(delta, p) ← ReadULeb128 p; index ← next_member base_index delta; '(flags, p) ← ReadULeb128 p;
        '(code_offset, p) ← ReadULeb128 p;
        '(l, p) ← read_methods fuel (count - 1) index p;
        Some ((index, flags, code_offset) :: l, p)
    end.
Definition class_data_at (offset : Z) : option (list EncodedField * list EncodedField * list (Z * Z * Z) * list (Z * Z * Z)) :=
  if offset =? 0 then Some ([], [], [], [])
  else
    p ← dataPtr 1 offset;
    '(sf, p) ← ReadULeb128 p; '(nf, p) ← ReadULeb128 p; '(dm, p) ← ReadULeb128 p; '(vm, p) ← ReadULeb128 p;
    '(static_fields, p) ← read_fields (length p) sf kNoIndex p;
    '(instance_fields, p) ← read_fields (length p) nf kNoIndex p;
    '(direct_methods, p) ← read_methods (length p) dm kNoIndex p;
    '(virtual_methods, _) ← read_methods (length p) vm kNoIndex p;
    Some (static_fields, instance_fields, direct_methods, virtual_methods).

Definition debug_info_at (offset : Z) : option (DebugInfo * list ref) :=
  p ← dataPtr 1 offset; '(info, refs, _) ← ExtractDebugInfo p; Some (info, refs).

(** The try items behind the instructions [insns], the handler list behind them and
    what it refers to. *)
Definition try_of (t : list Z) : TryBlock := {| start_addr := nth 0 t 0; insn_count := nth 1 t 0; handler_off := nth 2 t 0 |}.
Definition tries_at (insns : list byte) (insns_size tries_size : Z) : option (list TryBlock * list byte * list ref) :=
  if tries_size =? 0 then Some ([], [], [])
  else
    let aligned_count := u32 (u32 (insns_size + 1) / 2 * 2) in
    let tries := drop (Z.to_nat (2 * aligned_count)) insns in
    '(items, handlers_list) ← read_array (length tries) [4; 2; 2]%nat tries_size tries;
    '(refs, handlers) ← ExtractHandlers handlers_list;
    Some (map try_of items, handlers, refs).

(** ["code_item"]: the node without its debug information, whose offset comes with
    it, and the references of the instructions and of the handlers. *)
Definition code_at (offset : Z) : option (Code * Z * list ref) :=
  SLICER_CHECK ndebug (offset mod 4 =? 0) ;;
  p ← dataPtr 16 offset; '(hd, insns) ← read_all [2; 2; 2; 2; 4; 4]%nat p;
  match hd with
  | [registers_size; ins_size; outs_size; tries_size; debug_info_off; insns_size] =>
      '(code, _) ← read_array (length insns) [2%nat] insns_size insns;
      refs ← ParseInstructions ndebug (concat code);
      '(tries, handlers, refs') ← tries_at insns insns_size tries_size;
      Some ({| registers := registers_size; ins_count := ins_size; outs_count := outs_size; instructions := concat code;
               try_blocks := tries; catch_handlers := handlers; code_debug_info := None |},
            debug_info_off, refs ++ refs')
  | _ => None
  end.

(** What a value refers to, in the order it is read, and the annotations and arrays
    in it, an outer one first. *)
Fixpoint value_refs (v : EncodedValue) : list ref :=
  let fix values (vs : list EncodedValue) : list ref :=
    match vs with [] => [] | v :: vs => value_refs v ++ values vs end in
  let fix named (es : list (Z * EncodedValue)) : list ref :=
    match es with [] => [] | e :: es => (StringItem, e.1) :: value_refs e.2 ++ named es end in
  match v with
  | EString x => [(StringItem, x)] | EType x => [(TypeItem, x)] | EField x | EEnum x => [(FieldItem, x)]
  | EMethod x => [(MethodItem, x)]
  | EArray vs => values vs
  | EAnnotation t es => (TypeItem, t) :: named es
  | _ => []
  end.
Definition element_refs (es : list (Z * EncodedValue)) : list ref := concat (map (fun e => (StringItem, e.1) :: value_refs e.2) es).
Fixpoint nested_annotations (v : EncodedValue) : list Annotation :=
  let fix values (vs : list EncodedValue) : list Annotation :=
    match vs with [] => [] | v :: vs => nested_annotations v ++ values vs end in
  let fix named (es : list (Z * EncodedValue)) : list Annotation :=
    match es with [] => [] | e :: es => nested_annotations e.2 ++ named es end in
  match v with
  | EArray vs => values vs
  | EAnnotation t es => {| a_type := t; elements := es; visibility := kVisibilityEncoded |} :: named es
  | _ => []
  end.
Fixpoint nested_arrays (v : EncodedValue) : list (list EncodedValue) :=
  let fix values (vs : list EncodedValue) : list (list EncodedValue) :=
    match vs with [] => [] | v :: vs => nested_arrays v ++ values vs end in
  let fix named (es : list (Z * EncodedValue)) : list (list EncodedValue) :=
    match es with [] => [] | e :: es => nested_arrays e.2 ++ named es end in
  match v with
  | EArray vs => vs :: values vs
  | EAnnotation t es => named es
  | _ => []
  end.

(** ** The IR being read *)

(** The class's descriptor, the name and the prototype: nodes, compared by address. *)
Definition MethodKey : Type := Z * Z * Z.

(** [used_] are the index maps, [None] that of the classes; [seen_] the nodes made
    of file offsets. A string is found by its characters, a prototype by its
    signature. *)
Record reading := {
  ir_ : DexFile; used_ : option item -> IndexMap; seen_ : node_kind -> gmap Z nat;
  strings_lookup : @HashTable (list byte * Z); prototypes_lookup : @HashTable (list byte * Z);
  methods_lookup : @HashTable (MethodKey * EncodedMethod)
}.
Definition with_ir (ir : DexFile) (s : reading) : reading :=
  {| ir_ := ir; used_ := used_ s; seen_ := seen_ s; strings_lookup := strings_lookup s;
     prototypes_lookup := prototypes_lookup s; methods_lookup := methods_lookup s |}.
Definition set_used (k : option item) (m : IndexMap) (s : reading) : reading :=
  {| ir_ := ir_ s; used_ := fun k' => if decide (k' = k) then m else used_ s k'; seen_ := seen_ s;
     strings_lookup := strings_lookup s; prototypes_lookup := prototypes_lookup s; methods_lookup := methods_lookup s |}.
Definition set_seen (k : node_kind) (offset : Z) (i : nat) (s : reading) : reading :=
  {| ir_ := ir_ s; used_ := used_ s; seen_ := fun k' => if decide (k' = k) then <[offset := i]> (seen_ s k') else seen_ s k';
     strings_lookup := strings_lookup s; prototypes_lookup := prototypes_lookup s; methods_lookup := methods_lookup s |}.
Definition with_lookups (ss ps : @HashTable (list byte * Z)) (ms : @HashTable (MethodKey * EncodedMethod)) (s : reading) : reading :=
  {| ir_ := ir_ s; used_ := used_ s; seen_ := seen_ s; strings_lookup := ss; prototypes_lookup := ps; methods_lookup := ms |}.

(** DBJ2a; a [char] is unsigned on AArch64. *)
Fixpoint hash_chars (hash : Z) (cstr : list byte) : Z :=
  match cstr with
  | [] => hash
  | c :: cstr => if c =? 0 then hash else hash_chars (Z.lxor (u32 (u32 (Z.shiftl hash 5) + hash)) c) cstr
  end.
Definition HashString (cstr : list byte) : Z := hash_chars 5381 cstr.

(** [StringsHasher], [ProtosHasher]. *)
Definition same_string (key : list byte) (v : list byte * Z) : bool := bool_decide (Utf8Cmp key v.1 = Some 0).
Definition same_proto (key : list byte) (v : list byte * Z) : bool := bool_decide (key = v.1).
Definition insert_string (key : list byte) (index : Z) : M reading unit :=
  s ← get; t ← lift (Insert HashString same_string fst ndebug (key, index) (strings_lookup s));
  put (with_lookups t (prototypes_lookup s) (methods_lookup s) s).
Definition insert_proto (key : list byte) (index : Z) : M reading unit :=
  s ← get; t ← lift (Insert HashString same_proto fst ndebug (key, index) (prototypes_lookup s));
  put (with_lookups (strings_lookup s) t (methods_lookup s) s).

(** [Proto::Signature]. *)
Definition type_chars (n : node_maps) (t : Z) : list byte := default [] (c_string (c_str n (descriptor (type_node n t)))).
Definition Signature (n : node_maps) (d : data_nodes) (p : Proto) : list byte :=
  lit "(" ++ concat (map (type_chars n) (types_in d (param_types p))) ++ lit ")" ++ type_chars n (return_type p).

Definition MarkUsed (k : option item) (index : Z) : M reading unit :=
  s ← get; m ← lift (MarkUsedIndex ndebug (Z.to_nat index) (used_ s k)); put (set_used k m s).

(** The end of [GetString] and its like, with the node. *)
Definition add_indexed (k : item) (index : Z) (node : node_maps -> node_maps) : M reading unit :=
  s ← get;
  let ir := ir_ s in
  put (with_ir (add_node_maps node (set_table k (items_of (tbl ir) k ++ [index]) (<[index := 0]> (map_of (indexes ir) k)) ir)) s) ;;
  MarkUsed (Some k) index.
Definition get_indexed (k : item) (parse : Z -> M reading unit) (index : Z) : M reading unit :=
  check ndebug (negb (index =? kNoIndex)) ;;
  s ← get;
  match map_of (indexes (ir_ s)) k !! index with Some _ => mret tt | None => parse index end.

(** A node in the vector that owns its kind: its position. *)
Definition own {A B} (vector : data_nodes -> list A) (push : B -> data_nodes -> data_nodes) (a : B) : M reading nat :=
  s ← get;
  let ir := ir_ s in
  put (with_ir (set_nodes (nodes ir) (push a (data_ ir)) ir) s) ;; mret (length (vector (data_ ir))).
Definition push_code (c : Code) (d : data_nodes) : data_nodes :=
  {| type_lists := type_lists d; codes := codes d ++ [c]; debug_infos := debug_infos d; encoded_arrays := encoded_arrays d;
     annotations := annotations d; annotation_sets := annotation_sets d;
     annotation_set_ref_lists := annotation_set_ref_lists d; annotations_directories := annotations_directories d |}.
Definition push_debug_info (i : DebugInfo) (d : data_nodes) : data_nodes :=
  {| type_lists := type_lists d; codes := codes d; debug_infos := debug_infos d ++ [i]; encoded_arrays := encoded_arrays d;
     annotations := annotations d; annotation_sets := annotation_sets d;
     annotation_set_ref_lists := annotation_set_ref_lists d; annotations_directories := annotations_directories d |}.
(** A value's own node with those inside it. *)
Definition push_arrays (l : list (list EncodedValue)) (d : data_nodes) : data_nodes :=
  {| type_lists := type_lists d; codes := codes d; debug_infos := debug_infos d; encoded_arrays := encoded_arrays d ++ l;
     annotations := annotations d; annotation_sets := annotation_sets d;
     annotation_set_ref_lists := annotation_set_ref_lists d; annotations_directories := annotations_directories d |}.
Definition push_annotations (l : list Annotation) (d : data_nodes) : data_nodes :=
  {| type_lists := type_lists d; codes := codes d; debug_infos := debug_infos d; encoded_arrays := encoded_arrays d;
     annotations := annotations d ++ l; annotation_sets := annotation_sets d;
     annotation_set_ref_lists := annotation_set_ref_lists d; annotations_directories := annotations_directories d |}.
Definition push_set (l : list nat) (d : data_nodes) : data_nodes :=
  {| type_lists := type_lists d; codes := codes d; debug_infos := debug_infos d; encoded_arrays := encoded_arrays d;
     annotations := annotations d; annotation_sets := annotation_sets d ++ [l];
     annotation_set_ref_lists := annotation_set_ref_lists d; annotations_directories := annotations_directories d |}.
Definition push_set_ref_list (l : list nat) (d : data_nodes) : data_nodes :=
  {| type_lists := type_lists d; codes := codes d; debug_infos := debug_infos d; encoded_arrays := encoded_arrays d;
     annotations := annotations d; annotation_sets := annotation_sets d;
     annotation_set_ref_lists := annotation_set_ref_lists d ++ [l]; annotations_directories := annotations_directories d |}.
Definition push_directory (l : AnnotationsDirectory) (d : data_nodes) : data_nodes :=
  {| type_lists := type_lists d; codes := codes d; debug_infos := debug_infos d; encoded_arrays := encoded_arrays d;
     annotations := annotations d; annotation_sets := annotation_sets d;
     annotation_set_ref_lists := annotation_set_ref_lists d; annotations_directories := annotations_directories d ++ [l] |}.

(** The node of an offset, made once. *)
Definition once (k : node_kind) (make : Z -> M reading nat) (offset : Z) : M reading nat :=
  s ← get;
  match seen_ s k !! offset with
  | Some i => mret i
  | None => i ← make offset; modify (set_seen k offset i) ;; mret i
  end.
(** No node for offset 0. *)
Definition at_offset (extract : Z -> M reading nat) (offset : Z) : M reading (option nat) :=
  if offset =? 0 then mret None else i ← extract offset; mret (Some i).

(** ** Indexed nodes *)

Definition GetString : Z -> M reading unit := get_indexed StringItem (fun index =>
  data ← lift (string_item index);
  cstr ← lift (string_chars index);
  insert_string cstr index ;;
  add_indexed StringItem index (set_string index data)).

Definition GetType : Z -> M reading unit := get_indexed TypeItem (fun index =>
  id ← lift (TypeIds index);
  match id with
  | [descriptor_idx] =>
      GetString descriptor_idx ;;
      add_indexed TypeItem index (set_type index {| descriptor := descriptor_idx; class_def := None |})
  | _ => lift None
  end).

Definition ExtractTypeList : Z -> M reading (option nat) := at_offset (once TypeListNode (fun offset =>
  types ← lift (type_list_at offset);
  mapM_ GetType types ;; own type_lists add_type_list types)).

Definition GetProto : Z -> M reading unit := get_indexed ProtoItem (fun index =>
  id ← lift (ProtoIds index);
  match id with
  | [shorty_idx; return_type_idx; parameters_off] =>
      GetString shorty_idx ;; GetType return_type_idx ;;
      params ← ExtractTypeList parameters_off;
      let proto := {| shorty := shorty_idx; return_type := return_type_idx; param_types := params |} in
      s ← get;
      insert_proto (Signature (nodes (ir_ s)) (data_ (ir_ s)) proto) index ;;
      add_indexed ProtoItem index (set_proto index proto)
  | _ => lift None
  end).

Definition GetFieldDecl : Z -> M reading unit := get_indexed FieldItem (fun index =>
  id ← lift (FieldIds index);
  match id with
  | [class_idx; type_idx; name_idx] =>
      GetString name_idx ;; GetType type_idx ;; GetType class_idx ;;
      add_indexed FieldItem index (set_field index {| f_name := name_idx; f_type := type_idx; f_parent := class_idx |})
  | _ => lift None
  end).

Definition GetMethodDecl : Z -> M reading unit := get_indexed MethodItem (fun index =>
  id ← lift (MethodIds index);
  match id with
  | [class_idx; proto_idx; name_idx] =>
      GetString name_idx ;; GetProto proto_idx ;; GetType class_idx ;;
      add_indexed MethodItem index (set_method index
        {| m_name := name_idx; m_prototype := proto_idx; m_parent := class_idx |})
  | _ => lift None
  end).

Definition get_ref (x : ref) : M reading unit :=
  match x.1 with
  | StringItem => GetString x.2 | TypeItem => GetType x.2 | FieldItem => GetFieldDecl x.2
  | MethodItem => GetMethodDecl x.2 | ProtoItem => GetProto x.2
  end.
Definition visit_refs (l : list ref) : M reading unit := mapM_ get_ref l ;; mret tt.

(** ** Annotations and arrays *)

Definition ExtractAnnotationItem (offset : Z) : M reading nat :=
  check ndebug (negb (offset =? 0)) ;;
  once AnnotationNode (fun offset =>
    a ← lift (annotation_at offset);
    visit_refs ((TypeItem, a_type a) :: element_refs (elements a)) ;;
    i ← own annotations push_annotations (a :: concat (map (fun e => nested_annotations e.2) (elements a)));
    own encoded_arrays push_arrays (concat (map (fun e => nested_arrays e.2) (elements a))) ;;
    mret i) offset.

Definition ExtractAnnotationSet : Z -> M reading (option nat) := at_offset (fun offset =>
  check ndebug (offset mod 4 =? 0) ;;
  once AnnotationSetNode (fun offset =>
    entries ← lift (offsets_at offset);
    l ← mapM_ ExtractAnnotationItem entries;
    own annotation_sets push_set l) offset).

(** A set that must be there. A release build keeps the null pointer, which no list
    of the IR has here. *)
Definition some_set (set : option nat) : M reading nat := lift set.

(** Null entries are left out. *)
Definition ExtractAnnotationSetRefList (offset : Z) : M reading nat :=
  check ndebug (offset mod 4 =? 0) ;;
  entries ← lift (offsets_at offset);
  l ← mapM_ (fun entry_offset => set ← ExtractAnnotationSet entry_offset; some_set set)
        (filter (fun entry_offset => entry_offset <> 0) entries);
  own annotation_set_ref_lists push_set_ref_list l.

Definition pair_of (l : list Z) : Z * Z := (nth 0 l 0, nth 1 l 0).
Definition ParseFieldAnnotation (item : Z * Z) : M reading (Z * nat) :=
  GetFieldDecl item.1 ;; set ← ExtractAnnotationSet item.2; i ← some_set set; mret (item.1, i).
Definition ParseMethodAnnotation (item : Z * Z) : M reading (Z * nat) :=
  GetMethodDecl item.1 ;; set ← ExtractAnnotationSet item.2; i ← some_set set; mret (item.1, i).
Definition ParseParamAnnotation (item : Z * Z) : M reading (Z * nat) :=
  GetMethodDecl item.1 ;; i ← ExtractAnnotationSetRefList item.2; mret (item.1, i).

Definition ExtractAnnotations : Z -> M reading (option nat) := at_offset (fun offset =>
  check ndebug (offset mod 4 =? 0) ;;
  once AnnotationsDirectoryNode (fun offset =>
    dir ← lift (directory_at offset);
    let '(class_annotations_off, (fs, ms, ps)) := dir in
    class_annotation ← ExtractAnnotationSet class_annotations_off;
    fs ← mapM_ ParseFieldAnnotation (map pair_of fs);
    ms ← mapM_ ParseMethodAnnotation (map pair_of ms);
    ps ← mapM_ ParseParamAnnotation (map pair_of ps);
    own annotations_directories push_directory
      {| class_annotation := class_annotation; field_annotations := fs; method_annotations := ms; param_annotations := ps |}) offset).

Definition ExtractEncodedArray : Z -> M reading (option nat) := at_offset (once EncodedArrayNode (fun offset =>
  values ← lift (encoded_array_at offset);
  visit_refs (concat (map value_refs values)) ;;
  own annotations push_annotations (concat (map nested_annotations values)) ;;
  own encoded_arrays push_arrays (values :: concat (map nested_arrays values)))).

(** ** Code *)

Definition ExtractDebugInfo_ : Z -> M reading (option nat) := at_offset (fun offset =>
  info ← lift (debug_info_at offset);
  visit_refs info.2 ;; own debug_infos push_debug_info info.1).

Definition with_debug_info (i : option nat) (c : Code) : Code :=
  {| registers := registers c; ins_count := ins_count c; outs_count := outs_count c; instructions := instructions c;
     try_blocks := try_blocks c; catch_handlers := catch_handlers c; code_debug_info := i |}.
Definition ExtractCode : Z -> M reading (option nat) := at_offset (fun offset =>
  code ← lift (code_at offset);
  let '(c, debug_info_off, refs) := code in
  visit_refs refs ;;
  debug_info ← ExtractDebugInfo_ debug_info_off;
  own codes push_code (with_debug_info debug_info c)).

(** ** Classes *)

Definition ParseEncodedField (f : EncodedField) : M reading EncodedField := GetFieldDecl (f_decl f) ;; mret f.

(** [MethodsHasher]. The hash of an address is the library's, and the addresses are
    the allocator's. *)
Context (node_hash : item -> Z -> Z).
Definition hash_method (key : MethodKey) : Z :=
  let '(class_descriptor, method_name, prototype) := key in
  u32 (Z.lxor (Z.lxor (node_hash StringItem class_descriptor) (node_hash StringItem method_name)) (node_hash ProtoItem prototype)).
Definition same_method (key : MethodKey) (v : MethodKey * EncodedMethod) : bool := bool_decide (key = v.1).
Definition method_key (n : node_maps) (decl : Z) : MethodKey :=
  let m := method_node n decl in (descriptor (type_node n (m_parent m)), m_name m, m_prototype m).
Definition insert_method (m : EncodedMethod) : M reading unit :=
  s ← get;
  t ← lift (Insert hash_method same_method fst ndebug (method_key (nodes (ir_ s)) (m_decl m), m) (methods_lookup s));
  put (with_lookups (strings_lookup s) (prototypes_lookup s) t s).

Definition ParseEncodedMethod (m : Z * Z * Z) : M reading EncodedMethod :=
  let '(index, flags, code_offset) := m in
  GetMethodDecl index ;;
  code ← ExtractCode code_offset;
  let m := {| m_decl := index; m_code := code; m_access_flags := flags |} in
  insert_method m ;; mret m.

Definition opt_idx (i : Z) : option Z := if i =? kNoIndex then None else Some i.
Definition GetOpt (get : Z -> M reading unit) (i : option Z) : M reading unit :=
  match i with Some i => get i | None => mret tt end.

(** [type->class_def = ir_class], behind the [assert] that it is null, which a debug
    build has. *)
Definition set_class_def (t index : Z) : M reading unit :=
  s ← get;
  check ndebug (bool_decide (class_def (type_node (nodes (ir_ s)) t) = None)) ;;
  modify (fun s => with_ir (add_node_maps (fun n =>
    set_type t {| descriptor := descriptor (type_node n t); class_def := Some index |} n) (ir_ s)) s).

Definition ParseClass (index : Z) : M reading Class_ :=
  def ← lift (ClassDefs index);
  match def with
  | [class_idx; access_flags; superclass_idx; interfaces_off; source_file_idx; annotations_off; class_data_off; static_values_off] =>
      GetType class_idx ;; set_class_def class_idx index ;;
      interfaces ← ExtractTypeList interfaces_off;
      GetOpt GetType (opt_idx superclass_idx) ;;
      GetOpt GetString (opt_idx source_file_idx) ;;
      members ← lift (class_data_at class_data_off);
      let '(sf, nf, dm, vm) := members in
      static_fields ← mapM_ ParseEncodedField sf;
      instance_fields ← mapM_ ParseEncodedField nf;
      direct_methods ← mapM_ ParseEncodedMethod dm;
      virtual_methods ← mapM_ ParseEncodedMethod vm;
      static_init ← ExtractEncodedArray static_values_off;
      annotations ← ExtractAnnotations annotations_off;
      mret {| c_type := class_idx; c_access_flags := access_flags; super_class := opt_idx superclass_idx;
              interfaces := interfaces; source_file := opt_idx source_file_idx; c_annotations := annotations;
              static_init := static_init; static_fields := static_fields; instance_fields := instance_fields;
              direct_methods := direct_methods; virtual_methods := virtual_methods |}
  | _ => lift None
  end.

Definition add_class (index : Z) (c : Class_) : M reading unit :=
  s ← get;
  let ir := ir_ s in
  put (with_ir (add_node_maps (set_class index c) (set_classes (classes ir ++ [index]) (<[index := 0]> (class_index ir)) ir)) s) ;;
  MarkUsed None index.
Definition GetClass (index : Z) : M reading unit :=
  check ndebug (negb (index =? kNoIndex)) ;;
  s ← get;
  match class_index (ir_ s) !! index with
  | Some _ => mret tt
  | None => c ← ParseClass index; add_class index c
  end.

Definition CreateClassIr : Z -> M reading unit := GetClass.
Definition CreateFullIr : M reading unit :=
  '(classCount, _) ← lift (section hd_class_defs 32);
  forM_ 0 (fun i _ => CreateClassIr (Z.of_nat i)) (repeat tt (Z.to_nat classCount)).
End Image.

(** ** A new reader *)

(** The checks of a debug build. *)
Definition header_checks (r : Reader) : option bool :=
  let w := header r in
  file_size ← w hd_file_size; header_size ← w hd_header_size; endian_tag ← w hd_endian_tag;
  data_size ← w hd_data_size; data_off ← w hd_data_off;
  string_ids_off ← w (S hd_string_ids); type_ids_size ← w hd_type_ids; type_ids_off ← w (S hd_type_ids);
  proto_ids_size ← w hd_proto_ids; proto_ids_off ← w (S hd_proto_ids); field_ids_off ← w (S hd_field_ids);
  method_ids_off ← w (S hd_method_ids); class_defs_off ← w (S hd_class_defs);
  map_off ← w hd_map_off; link_size ← w hd_link_size; link_off ← w hd_link_off;
  '(map_size, _) ← DexMapList r;
  Some ((sizeof_Header <? size_ r) && (file_size <=? size_ r) &&
    (header_size =? (if is_compact_ r then 136 else sizeof_Header)) && (endian_tag =? kEndianConstant) &&
    (data_size mod 4 =? 0) && (string_ids_off mod 4 =? 0) && (type_ids_size <? 65536) && (type_ids_off mod 4 =? 0) &&
    (proto_ids_size <? 65536) && (proto_ids_off mod 4 =? 0) && (field_ids_off mod 4 =? 0) && (method_ids_off mod 4 =? 0) &&
    (class_defs_off mod 4 =? 0) && (is_compact_ r || ((data_off <=? map_off) && (map_off <? size_ r))) &&
    (link_size =? 0) && (link_off =? 0) && (data_off mod 4 =? 0) && (map_off mod 4 =? 0) &&
    (0 <? map_size) && (map_off + (4 + 12 * map_size) <=? data_size_ r)).
Definition ValidateHeader (r : Reader) : option unit :=
  if ndebug then Some tt else ok ← header_checks r; SLICER_CHECK ndebug ok.

Definition empty_ir (magic : list byte) : DexFile := {|
  tbl := {| strings := []; types := []; protos := []; fields := []; methods := [] |};
  indexes := {| strings_map := ∅; types_map := ∅; fields_map := ∅; methods_map := ∅; protos_map := ∅ |};
  classes := []; class_index := ∅;
  nodes := {| string_nodes := ∅; type_nodes := ∅; proto_nodes := ∅; field_nodes := ∅; method_nodes := ∅; class_nodes := ∅ |};
  data_ := {| type_lists := []; codes := []; debug_infos := []; encoded_arrays := []; annotations := [];
              annotation_sets := []; annotation_set_ref_lists := []; annotations_directories := [] |};
  magic := magic |}.

(** [data] is null for a plain image; a size of 0 stands for the header's. *)
Definition newReader (image : list byte) (size : Z) (data : option (list byte)) (data_size : Z) : option (Reader * reading) :=
  let data_size := match data with Some _ => data_size | None => size end in
  '(size, data_size) ← (if size =? 0 then n ← header_word image hd_file_size; Some (n, n) else Some (size, data_size));
  let r := {| image_ := image; size_ := size; data_area := default image data; data_size_ := data_size;
              is_compact_ := IsCompact image |} in
  ValidateHeader r ;;
  Some (r, {| ir_ := empty_ir (take 8 image); used_ := fun _ => newIndexMap; seen_ := fun _ => ∅;
              strings_lookup := newHashTable; prototypes_lookup := newHashTable; methods_lookup := newHashTable |}).
End Reader.
