(* ===== verification/DexReaderSpec.v ===== *)
(** Reading a well-formed image: it succeeds, every node is what the image says, and
    everything a node refers to is a node. *)
From stdpp Require Import strings.
From Stdlib Require Import Ascii String.
From S2P Require Import Prelude Leb128 HashTable SlicerBuffer DexBytecode DexCode DexValue DexDebug DexTry DexOrder DexIr DexIrSpec DexBuilder DexWriter DexReader.

Definition some_b {A} (x : option A) (p : A -> bool) : bool := match x with Some a => p a | None => false end.
Lemma some_b_ok {A} (x : option A) p : some_b x p = true -> exists a, x = Some a /\ p a = true.
Proof. destruct x; cbn; [eauto|done]. Qed.

Section Spec.
Context (nd : bool) (r : Reader).

(** ** Well-formed images *)

Definition header_of_kind (k : item) : nat :=
  match k with
  | StringItem => hd_string_ids | TypeItem => hd_type_ids | FieldItem => hd_field_ids
  | MethodItem => hd_method_ids | ProtoItem => hd_proto_ids
  end.
Definition count_of (k : item) : Z := default 0 (header r (header_of_kind k)).
Definition in_table (k : item) (j : Z) : bool := (0 <=? j) && (j <? count_of k).
Definition ref_ok (x : ref) : bool := in_table x.1 x.2.
Definition opt_in (k : item) (i : Z) : bool := (i =? kNoIndex) || in_table k i.
Definition opt_off (ok : Z -> bool) (o : Z) : bool := (o =? 0) || ok o.

Definition type_list_ok : Z -> bool := opt_off (fun o => some_b (type_list_at nd r o) (forallb (in_table TypeItem))).

(** Every entry of the tables, by its index. *)
Definition entry_ok (k : item) (j : Z) : bool :=
  match k with
  | StringItem => some_b (string_item nd r j) (fun _ => true)
  | TypeItem => some_b (TypeIds nd r j) (fun e => match e with [d] => in_table StringItem d | _ => false end)
  | ProtoItem => some_b (ProtoIds nd r j) (fun e =>
      match e with [a; t; o] => in_table StringItem a && in_table TypeItem t && type_list_ok o | _ => false end)
  | FieldItem => some_b (FieldIds nd r j) (fun e =>
      match e with [c; t; n] => in_table TypeItem c && in_table TypeItem t && in_table StringItem n | _ => false end)
  | MethodItem => some_b (MethodIds nd r j) (fun e =>
      match e with [c; p; n] => in_table TypeItem c && in_table ProtoItem p && in_table StringItem n | _ => false end)
  end.
Definition table_ok (k : item) : bool := (count_of k <=? kNoIndex) && forallb (entry_ok k) (seqZ 0 (count_of k)).
Definition tables_ok : bool := forallb table_ok [StringItem; TypeItem; FieldItem; MethodItem; ProtoItem].

Definition annotation_ok (o : Z) : bool := negb (o =? 0) &&
  some_b (annotation_at nd r o) (fun a => in_table TypeItem (a_type a) && forallb ref_ok (element_refs (elements a))).
Definition set_ok (o : Z) : bool := negb (o =? 0) && (o mod 4 =? 0) && some_b (offsets_at nd r o) (forallb annotation_ok).
Definition ref_list_ok (o : Z) : bool := (o mod 4 =? 0) && some_b (offsets_at nd r o) (forallb (opt_off set_ok)).
Definition pairs_ok (k : item) (ok : Z -> bool) (l : list (list Z)) : bool := forallb (fun e => in_table k e.1 && ok e.2) (map pair_of l).
Definition directory_ok : Z -> bool := opt_off (fun o => (o mod 4 =? 0) && some_b (directory_at nd r o) (fun '(c, (fs, ms, ps)) =>
  opt_off set_ok c && pairs_ok FieldItem set_ok fs && pairs_ok MethodItem set_ok ms && pairs_ok MethodItem ref_list_ok ps)).
Definition array_ok : Z -> bool := opt_off (fun o => some_b (encoded_array_at nd r o) (fun vs => forallb ref_ok (concat (map value_refs vs)))).
Definition debug_ok : Z -> bool := opt_off (fun o => some_b (debug_info_at nd r o) (fun '(_, refs) => forallb ref_ok refs)).
Definition code_ok : Z -> bool := opt_off (fun o => some_b (code_at nd r o) (fun '(_, d, refs) => forallb ref_ok refs && debug_ok d)).
Definition class_data_ok (o : Z) : bool := some_b (class_data_at nd r o) (fun '(sf, nf, dm, vm) =>
  forallb (fun f => in_table FieldItem (f_decl f)) sf && forallb (fun f => in_table FieldItem (f_decl f)) nf &&
  forallb (fun m : Z * Z * Z => in_table MethodItem m.1.1 && code_ok m.2) dm &&
  forallb (fun m : Z * Z * Z => in_table MethodItem m.1.1 && code_ok m.2) vm).
Definition class_ok (j : Z) : bool := some_b (ClassDefs nd r j) (fun e =>
  match e with
  | [c; _; su; ifs; src; an; cd; sv] => in_table TypeItem c && opt_in TypeItem su && type_list_ok ifs &&
      opt_in StringItem src && directory_ok an && class_data_ok cd && array_ok sv
  | _ => false
  end).

(** ** Distinct keys

    What the lookup tables of a debug build hold: the characters of no two strings
    compare equal, and comparing them stays in memory; the signatures of prototypes
    differ, and so do the methods that the classes have. *)

Definition chars_of (j : Z) : list byte := default [] (string_chars nd r j).
Definition apart (a b : list byte) : bool := match Utf8Cmp a b with Some c => negb (c =? 0) | None => false end.
Definition strings_apart : bool := let l := seqZ 0 (count_of StringItem) in
  forallb (fun i => forallb (fun j => (i =? j) || apart (chars_of i) (chars_of j)) l) l.

Definition string_text (d : Z) : list byte :=
  match ReadULeb128 (default [] (string_item nd r d)) with Some (_, p) => p | None => [] end.
Definition type_text (t : Z) : list byte :=
  match TypeIds nd r t with Some [d] => default [] (c_string (string_text d)) | _ => [] end.
Definition types_at (o : Z) : list Z := if o =? 0 then [] else default [] (type_list_at nd r o).
Definition signature_of (j : Z) : list byte :=
  match ProtoIds nd r j with
  | Some [_; t; o] => lit "(" ++ concat (map type_text (types_at o)) ++ lit ")" ++ type_text t
  | _ => []
  end.

Definition descriptor_of (t : Z) : Z := match TypeIds nd r t with Some [d] => d | _ => 0 end.
Definition key_of_method (j : Z) : MethodKey :=
  match MethodIds nd r j with Some [c; p; n] => (descriptor_of c, n, p) | _ => (0, 0, 0) end.
Definition method_keys (l : list (Z * Z * Z)) : list MethodKey := map (fun m => key_of_method m.1.1) l.
(** The keys of the methods of class [j]. *)
Definition class_keys (j : Z) : list MethodKey :=
  match ClassDefs nd r j with
  | Some [_; _; _; _; _; _; cd; _] =>
      match class_data_at nd r cd with Some (_, _, dm, vm) => method_keys dm ++ method_keys vm | None => [] end
  | _ => []
  end.

(** The classes are counted with an [int]; no two define the same type. *)
Definition class_count : Z := default 0 (header r hd_class_defs).
Definition class_type (j : Z) : Z := match ClassDefs nd r j with Some (c :: _) => c | _ => kNoIndex end.
Definition all_keys : list MethodKey := concat (map class_keys (seqZ 0 class_count)).
Definition lookups_ok : bool :=
  (count_of StringItem <? 2 ^ 28) && (count_of ProtoItem <? 2 ^ 28) && (Z.of_nat (length all_keys) <? 2 ^ 28) &&
  strings_apart && bool_decide (NoDup (map signature_of (seqZ 0 (count_of ProtoItem)))) && bool_decide (NoDup all_keys).
(** Even an empty table of classes has to start where one would fit. *)
Definition well_formed : bool := tables_ok && some_b (section nd r hd_class_defs 32) (fun _ => true) &&
  some_b (header r hd_class_defs) (fun c =>
    (0 <=? c) && (c <? 2 ^ 31) && forallb class_ok (seqZ 0 c) && bool_decide (NoDup (map class_type (seqZ 0 c)))) &&
  (nd || lookups_ok).

(** ** The state *)

Definition has (k : item) (j : Z) (s : reading) : Prop := is_Some (map_of (indexes (ir_ s)) k !! j).
Definition has_ref (x : ref) (s : reading) : Prop := has x.1 x.2 s.
Definition vectors (s : reading) : data_nodes := data_ (ir_ s).

(** The reference to a node of an offset. *)
Definition node_at (k : node_kind) (o : Z) (i : option nat) (s : reading) : Prop :=
  match i with None => o = 0 | Some i => o <> 0 /\ seen_ s k !! o = Some i end.

(** The nodes, as the image describes them. *)
Definition string_read (j : Z) (s : reading) : Prop := exists x,
  string_item nd r j = Some x /\ string_nodes (nodes (ir_ s)) !! j = Some x.
Definition type_read (j : Z) (s : reading) : Prop := exists d cd, TypeIds nd r j = Some [d] /\
  type_nodes (nodes (ir_ s)) !! j = Some {| descriptor := d; class_def := cd |} /\ has StringItem d s.
Definition proto_read (j : Z) (s : reading) : Prop := exists a t o i, ProtoIds nd r j = Some [a; t; o] /\
  proto_nodes (nodes (ir_ s)) !! j = Some {| shorty := a; return_type := t; param_types := i |} /\
  has StringItem a s /\ has TypeItem t s /\ node_at TypeListNode o i s.
Definition field_read (j : Z) (s : reading) : Prop := exists c t n, FieldIds nd r j = Some [c; t; n] /\
  field_nodes (nodes (ir_ s)) !! j = Some {| f_name := n; f_type := t; f_parent := c |} /\
  has StringItem n s /\ has TypeItem t s /\ has TypeItem c s.
Definition method_read (j : Z) (s : reading) : Prop := exists c p n, MethodIds nd r j = Some [c; p; n] /\
  method_nodes (nodes (ir_ s)) !! j = Some {| m_name := n; m_prototype := p; m_parent := c |} /\
  has StringItem n s /\ has ProtoItem p s /\ has TypeItem c s.
Definition item_read (k : item) : Z -> reading -> Prop :=
  match k with
  | StringItem => string_read | TypeItem => type_read | FieldItem => field_read
  | MethodItem => method_read | ProtoItem => proto_read
  end.

Definition type_list_read (o : Z) (i : nat) (s : reading) : Prop := exists ts, type_list_at nd r o = Some ts /\
  type_lists (vectors s) !! i = Some ts /\ Forall (fun t => has TypeItem t s) ts.
Definition annotation_read (o : Z) (i : nat) (s : reading) : Prop := exists a, annotation_at nd r o = Some a /\
  annotations (vectors s) !! i = Some a /\ has TypeItem (a_type a) s /\ Forall (fun x => has_ref x s) (element_refs (elements a)).
Definition set_read (o : Z) (i : nat) (s : reading) : Prop := exists os ns, offsets_at nd r o = Some os /\
  annotation_sets (vectors s) !! i = Some ns /\ Forall2 (fun o i => seen_ s AnnotationNode !! o = Some i) os ns.
Definition array_read (o : Z) (i : nat) (s : reading) : Prop := exists vs, encoded_array_at nd r o = Some vs /\
  encoded_arrays (vectors s) !! i = Some vs /\ Forall (fun x => has_ref x s) (concat (map value_refs vs)).
(** Null entries are not in the list. *)
Definition ref_list_read (o : Z) (i : nat) (s : reading) : Prop := exists os ns, offsets_at nd r o = Some os /\
  annotation_set_ref_lists (vectors s) !! i = Some ns /\
  Forall2 (fun o i => node_at AnnotationSetNode o (Some i) s) (filter (fun o => o <> 0) os) ns.
Definition pair_read (k : item) (sub : Z -> nat -> reading -> Prop) (e : Z * Z) (a : Z * nat) (s : reading) : Prop :=
  a.1 = e.1 /\ has k e.1 s /\ sub e.2 a.2 s.
Definition directory_read (o : Z) (i : nat) (s : reading) : Prop := exists c fs ms ps ic ifs ims ips,
  directory_at nd r o = Some (c, (fs, ms, ps)) /\
  annotations_directories (vectors s) !! i = Some {| class_annotation := ic; field_annotations := ifs;
    method_annotations := ims; param_annotations := ips |} /\
  node_at AnnotationSetNode c ic s /\
  Forall2 (fun e a => pair_read FieldItem (fun o i => node_at AnnotationSetNode o (Some i)) e a s) (map pair_of fs) ifs /\
  Forall2 (fun e a => pair_read MethodItem (fun o i => node_at AnnotationSetNode o (Some i)) e a s) (map pair_of ms) ims /\
  Forall2 (fun e a => pair_read MethodItem ref_list_read e a s) (map pair_of ps) ips.
Definition node_read (k : node_kind) : Z -> nat -> reading -> Prop :=
  match k with
  | TypeListNode => type_list_read | AnnotationNode => annotation_read | AnnotationSetNode => set_read
  | EncodedArrayNode => array_read | AnnotationsDirectoryNode => directory_read
  | _ => fun _ _ _ => False
  end.

Definition debug_read (o : Z) (i : option nat) (s : reading) : Prop :=
  match i with
  | None => o = 0
  | Some i => o <> 0 /\ exists d refs, debug_info_at nd r o = Some (d, refs) /\ debug_infos (vectors s) !! i = Some d /\
      Forall (fun x => has_ref x s) refs
  end.
Definition code_read (o : Z) (i : option nat) (s : reading) : Prop :=
  match i with
  | None => o = 0
  | Some i => o <> 0 /\ exists c d refs di, code_at nd r o = Some (c, d, refs) /\ codes (vectors s) !! i = Some (with_debug_info di c) /\
      Forall (fun x => has_ref x s) refs /\ debug_read d di s
  end.
Definition field_member (f f' : EncodedField) (s : reading) : Prop := f' = f /\ has FieldItem (f_decl f) s.
Definition method_member (m : Z * Z * Z) (m' : EncodedMethod) (s : reading) : Prop :=
  m_decl m' = m.1.1 /\ m_access_flags m' = m.1.2 /\ has MethodItem m.1.1 s /\ code_read m.2 (m_code m') s.
Definition opt_has (k : item) (i : option Z) (s : reading) : Prop := match i with Some i => has k i s | None => True end.
Definition class_is (j : Z) (c : Class_) (s : reading) : Prop := exists fl su ifs src an cd sv sf nf dm vm,
  ClassDefs nd r j = Some [c_type c; fl; su; ifs; src; an; cd; sv] /\ class_data_at nd r cd = Some (sf, nf, dm, vm) /\
  c_access_flags c = fl /\ super_class c = opt_idx su /\ source_file c = opt_idx src /\
  has TypeItem (c_type c) s /\ opt_has TypeItem (super_class c) s /\ opt_has StringItem (source_file c) s /\
  node_at TypeListNode ifs (interfaces c) s /\ node_at EncodedArrayNode sv (static_init c) s /\
  node_at AnnotationsDirectoryNode an (c_annotations c) s /\
  static_fields c = sf /\ instance_fields c = nf /\ Forall (fun f => has FieldItem (f_decl f) s) (sf ++ nf) /\
  Forall2 (fun m m' => method_member m m' s) dm (direct_methods c) /\
  Forall2 (fun m m' => method_member m m' s) vm (virtual_methods c).

(** The table [t] of the nodes of a kind: some that there are, once, with their keys. *)
Definition table_fine (k : item) (key : Z -> list byte) (t : @HashTable (list byte * Z)) (s : reading) : Prop :=
  HashTable.table_ok HashString fst t /\
  Forall (fun v => v.1 = key v.2 /\ has k v.2 s) (table_vals t) /\ NoDup (map snd (table_vals t)).
(** A release build drops what a full table has. *)
Definition lookups_fine (s : reading) : Prop := nd = false ->
  table_fine StringItem chars_of (strings_lookup s) s /\ table_fine ProtoItem signature_of (prototypes_lookup s) s.

(** What holds at any time: the tables list the nodes that there are, once; each node
    is what the image says. *)
Record inv (s : reading) : Prop := {
  iv_nodup : forall k, NoDup (items_of (tbl (ir_ s)) k);
  iv_table : forall k j, j ∈ items_of (tbl (ir_ s)) k <-> has k j s;
  iv_used : forall k i, used (used_ s (Some k)) i -> has k (Z.of_nat i) s;
  iv_in : forall k j, has k j s -> in_table k j = true;
  iv_items : forall k j, has k j s -> item_read k j s;
  iv_nodes : forall k o i, seen_ s k !! o = Some i -> node_read k o i s;
  iv_classes_nodup : NoDup (classes (ir_ s));
  iv_classes : forall j, j ∈ classes (ir_ s) <-> is_Some (class_index (ir_ s) !! j);
  iv_classes_used : forall i, used (used_ s None) i -> is_Some (class_index (ir_ s) !! Z.of_nat i);
  iv_class : forall j, is_Some (class_index (ir_ s) !! j) -> exists c, class_nodes (nodes (ir_ s)) !! j = Some c /\ class_is j c s;
  iv_lookups : lookups_fine s }.

(** What reading on keeps. *)
Record grown (d d' : data_nodes) : Prop := {
  gr_type_lists : type_lists d `prefix_of` type_lists d';
  gr_codes : codes d `prefix_of` codes d';
  gr_debug_infos : debug_infos d `prefix_of` debug_infos d';
  gr_arrays : encoded_arrays d `prefix_of` encoded_arrays d';
  gr_annotations : annotations d `prefix_of` annotations d';
  gr_sets : annotation_sets d `prefix_of` annotation_sets d';
  gr_set_ref_lists : annotation_set_ref_lists d `prefix_of` annotation_set_ref_lists d';
  gr_directories : annotations_directories d `prefix_of` annotations_directories d' }.
Record ext (s s' : reading) : Prop := {
  ex_has : forall k j, has k j s -> has k j s';
  ex_seen : forall k o i, seen_ s k !! o = Some i -> seen_ s' k !! o = Some i;
  ex_string : forall j x, has StringItem j s -> string_nodes (nodes (ir_ s)) !! j = Some x -> string_nodes (nodes (ir_ s')) !! j = Some x;
  ex_type : forall j d cd, has TypeItem j s -> type_nodes (nodes (ir_ s)) !! j = Some {| descriptor := d; class_def := cd |} ->
    exists cd', type_nodes (nodes (ir_ s')) !! j = Some {| descriptor := d; class_def := cd' |};
  ex_proto : forall j x, has ProtoItem j s -> proto_nodes (nodes (ir_ s)) !! j = Some x -> proto_nodes (nodes (ir_ s')) !! j = Some x;
  ex_field : forall j x, has FieldItem j s -> field_nodes (nodes (ir_ s)) !! j = Some x -> field_nodes (nodes (ir_ s')) !! j = Some x;
  ex_method : forall j x, has MethodItem j s -> method_nodes (nodes (ir_ s)) !! j = Some x -> method_nodes (nodes (ir_ s')) !! j = Some x;
  ex_class : forall j x, is_Some (class_index (ir_ s) !! j) -> class_nodes (nodes (ir_ s)) !! j = Some x -> class_nodes (nodes (ir_ s')) !! j = Some x;
  ex_class_index : forall j, is_Some (class_index (ir_ s) !! j) -> is_Some (class_index (ir_ s') !! j);
  ex_data : grown (data_ (ir_ s)) (data_ (ir_ s')) }.

(** The class that a type has. *)
Definition class_def_in (n : node_maps) (t : Z) : option Z := x ← type_nodes n !! t; class_def x.

(** An operation of a level leaves what is above it alone. *)
Definition rank (k : item) : nat :=
  match k with StringItem => 1 | TypeItem => 2 | FieldItem => 4 | ProtoItem => 4 | MethodItem => 5 end.
Definition node_rank (k : node_kind) : nat :=
  match k with
  | TypeListNode => 3 | AnnotationNode => 6 | AnnotationSetNode => 7 | EncodedArrayNode => 7
  | AnnotationsDirectoryNode => 8 | _ => 12
  end.
Record frame (n : nat) (s s' : reading) : Prop := {
  fr_items : forall k, (n < rank k)%nat -> map_of (indexes (ir_ s')) k = map_of (indexes (ir_ s)) k;
  fr_seen : forall k, (n < node_rank k)%nat -> seen_ s' k = seen_ s k;
  fr_methods : (n < 9)%nat -> methods_lookup s' = methods_lookup s;
  fr_defs : (n < 10)%nat -> forall t c, class_def_in (nodes (ir_ s')) t = Some c -> class_def_in (nodes (ir_ s)) t = Some c;
  fr_classes : (n < 11)%nat -> class_index (ir_ s') = class_index (ir_ s) /\ classes (ir_ s') = classes (ir_ s) }.

(** [m] succeeds. *)
Definition runs (n : nat) {A} (m : M reading A) (Q : A -> reading -> Prop) (s : reading) : Prop :=
  exists a s', m s = Some (a, s') /\ inv s' /\ ext s s' /\ frame n s s' /\ Q a s'.

(** ** Reading on keeps what has been read *)

Lemma grown_refl d : grown d d.
Proof. by split. Qed.
Lemma ext_refl s : ext s s.
Proof. split; eauto using grown_refl. Qed.
Lemma grown_trans d1 d2 d3 : grown d1 d2 -> grown d2 d3 -> grown d1 d3.
Proof. intros [] []. split; by etrans. Qed.
Lemma ext_trans s1 s2 s3 : ext s1 s2 -> ext s2 s3 -> ext s1 s3.
Proof.
  intros [H0 H1 H2 H3 H4 H5 H6 H7 H8 H9] [K0 K1 K2 K3 K4 K5 K6 K7 K8 K9].
  split; eauto using grown_trans.
  intros j d cd Hj Hd. destruct (H3 j d cd Hj Hd) as [cd' Hd']. eauto.
Qed.
Lemma frame_none n s : frame n s s.
Proof. by split. Qed.
Lemma frame_then n n' s1 s2 s3 : (n' <= n)%nat -> frame n' s1 s2 -> frame n s2 s3 -> frame n s1 s3.
Proof.
  intros L [H1 H2 Hm Hd H3] [K1 K2 Km Kd K3]. split.
  - intros k Hk. rewrite K1, H1 by lia. done.
  - intros k Hk. rewrite K2, H2 by lia. done.
  - intros Hk. rewrite Km, Hm by lia. done.
  - intros Hk t c Hc%Kd; [|done]. apply Hd; [lia|done].
  - intros Hk. destruct (H3 ltac:(lia)) as [<- <-]. apply K3, Hk.
Qed.
Lemma frame_le n n' s s' : (n' <= n)%nat -> frame n' s s' -> frame n s s'.
Proof. intros L [H1 H2 Hm Hd H3]. split; [intros k Hk; apply H1; lia|intros k Hk; apply H2; lia|intros Hk; apply Hm; lia|intros Hk; apply Hd; lia|intros Hk; apply H3; lia]. Qed.
Lemma frame_not n k j s s' : frame n s s' -> (n < rank k)%nat -> ~ has k j s -> ~ has k j s'.
Proof. intros F L. unfold has. by rewrite (fr_items _ _ _ F k L). Qed.

Section Ext.
Context {s s' : reading} (E : ext s s').

Lemma has_ext k j : has k j s -> has k j s'.
Proof. apply (ex_has _ _ E). Qed.
Lemma has_all_ext {A} (k : item) (f : A -> Z) l : Forall (fun a => has k (f a) s) l -> Forall (fun a => has k (f a) s') l.
Proof. intros H. eapply Forall_impl; [exact H|]. intros a. apply has_ext. Qed.
Lemma has_refs_ext l : Forall (fun x => has_ref x s) l -> Forall (fun x => has_ref x s') l.
Proof. intros H. eapply Forall_impl; [exact H|]. intros a. apply has_ext. Qed.
Lemma opt_has_ext k i : opt_has k i s -> opt_has k i s'.
Proof. destruct i; [apply has_ext|done]. Qed.
Lemma node_at_ext k o i : node_at k o i s -> node_at k o i s'.
Proof. destruct i as [i|]; [|done]. intros [H H']. split; [done|by apply (ex_seen _ _ E)]. Qed.

Lemma item_read_ext k j : has k j s -> item_read k j s -> item_read k j s'.
Proof.
  intros Hj. destruct k; cbn [item_read].
  - intros (x & H1 & H2). exists x. split; [done|by apply (ex_string _ _ E)].
  - intros (d & cd & H1 & H2 & H3). destruct (ex_type _ _ E j d cd Hj H2) as [cd' H2'].
    exists d, cd'. eauto using has_ext.
  - intros (c & t & n & H1 & H2 & H3 & H4 & H5). exists c, t, n. pose proof (ex_field _ _ E) as P. split_and!; eauto using has_ext.
  - intros (c & t & n & H1 & H2 & H3 & H4 & H5). exists c, t, n. pose proof (ex_method _ _ E) as P. split_and!; eauto using has_ext.
  - intros (c & t & n & i & H1 & H2 & H3 & H4 & H5). exists c, t, n, i. pose proof (ex_proto _ _ E) as P. split_and!; eauto using has_ext, node_at_ext.
Qed.

Lemma kept {A} (f : data_nodes -> list A) i a : f (vectors s) `prefix_of` f (vectors s') ->
  f (vectors s) !! i = Some a -> f (vectors s') !! i = Some a.
Proof. intros P H. by eapply prefix_lookup_Some. Qed.
Lemma ref_list_read_ext o i : ref_list_read o i s -> ref_list_read o i s'.
Proof.
  pose proof (ex_data _ _ E) as D. intros (l & ns & H1 & H2 & H3). exists l, ns. split; [done|]. split.
  - by eapply kept; [apply D|].
  - eapply Forall2_impl; [exact H3|]. intros. by apply node_at_ext.
Qed.
Lemma pair_read_ext k (sub : Z -> nat -> reading -> Prop) l l' : (forall o i, sub o i s -> sub o i s') ->
  Forall2 (fun e a => pair_read k sub e a s) l l' -> Forall2 (fun e a => pair_read k sub e a s') l l'.
Proof. intros Hs H. eapply Forall2_impl; [exact H|]. intros e a (H1 & H2 & H3). split; [done|]. split; [by apply has_ext|by apply Hs]. Qed.
Lemma node_read_ext k o i : node_read k o i s -> node_read k o i s'.
Proof.
  pose proof (ex_data _ _ E) as D. destruct k; cbn [node_read]; try done.
  - intros (ts & H1 & H2 & H3). exists ts. split; [done|]. split; [by eapply kept; [apply D|]|by apply has_all_ext].
  - intros (vs & H1 & H2 & H3). exists vs. split; [done|]. split; [by eapply kept; [apply D|]|by apply has_refs_ext].
  - intros (a & H1 & H2 & H3 & H4). exists a. split; [done|]. split; [by eapply kept; [apply D|]|].
    split; [by apply has_ext|by apply has_refs_ext].
  - intros (l & ns & H1 & H2 & H3). exists l, ns. split; [done|]. split; [by eapply kept; [apply D|]|].
    eapply Forall2_impl; [exact H3|]. intros. by apply (ex_seen _ _ E).
  - intros (c & fs & ms & ps & ic & ifs & ims & ips & H1 & H2 & H3 & H4 & H5 & H6).
    exists c, fs, ms, ps, ic, ifs, ims, ips. split; [done|]. split; [by eapply kept; [apply D|]|].
    split; [by apply node_at_ext|]. repeat split.
    + eapply pair_read_ext; [|exact H4]. intros. by apply node_at_ext.
    + eapply pair_read_ext; [|exact H5]. intros. by apply node_at_ext.
    + eapply pair_read_ext; [|exact H6]. apply ref_list_read_ext.
Qed.

Lemma debug_read_ext o i : debug_read o i s -> debug_read o i s'.
Proof.
  pose proof (ex_data _ _ E) as D. destruct i as [i|]; [|done]. intros (No & d & refs & H1 & H2 & H3).
  split; [done|]. exists d, refs. split; [done|]. split; [by eapply kept; [apply D|]|by apply has_refs_ext].
Qed.
Lemma code_read_ext o i : code_read o i s -> code_read o i s'.
Proof.
  pose proof (ex_data _ _ E) as D. destruct i as [i|]; [|done]. intros (No & c & d & refs & di & H1 & H2 & H3 & H4).
  split; [done|]. exists c, d, refs, di. split; [done|]. split; [by eapply kept; [apply D|]|].
  split; [by apply has_refs_ext|by apply debug_read_ext].
Qed.
Lemma method_members_ext l l' : Forall2 (fun m m' => method_member m m' s) l l' -> Forall2 (fun m m' => method_member m m' s') l l'.
Proof.
  intros H. eapply Forall2_impl; [exact H|]. intros m m' (H1 & H2 & H3 & H4).
  split; [done|]. split; [done|]. split; [by apply has_ext|by apply code_read_ext].
Qed.
Lemma class_is_ext j c : class_is j c s -> class_is j c s'.
Proof.
  intros (fl & su & ifs & src & an & cd & sv & sf & nf & dm & vm & H1 & H2 & H3 & H4 & H5 & H6 & H7 & H8 & H9 & H10 & H11 & H12 & H13 & H14 & H15 & H16).
  exists fl, su, ifs, src, an, cd, sv, sf, nf, dm, vm. do 5 (split; [done|]).
  split; [by apply has_ext|]. split; [by apply opt_has_ext|]. split; [by apply opt_has_ext|].
  do 3 (split; [by apply node_at_ext|]). do 2 (split; [done|]). split; [by apply has_all_ext|].
  split; by apply method_members_ext.
Qed.
Lemma table_fine_ext k key t : table_fine k key t s -> table_fine k key t s'.
Proof.
  intros (H1 & H2 & H3). split; [done|]. split; [|done]. eapply Forall_impl; [exact H2|]. intros v [Hk Hv]. split; [done|by apply has_ext].
Qed.
Lemma lookups_same : strings_lookup s' = strings_lookup s -> prototypes_lookup s' = prototypes_lookup s -> lookups_fine s -> lookups_fine s'.
Proof. intros E1 E2 H Hn. destruct (H Hn) as [H1 H2]. rewrite E1, E2. split; by apply table_fine_ext. Qed.
End Ext.

(** A step from a state in which all is well: only what is new has to be. *)
Lemma inv_step s s' : inv s -> ext s s' ->
  (forall k, NoDup (items_of (tbl (ir_ s')) k)) ->
  (forall k j, j ∈ items_of (tbl (ir_ s')) k <-> has k j s') ->
  (forall k i, used (used_ s' (Some k)) i -> has k (Z.of_nat i) s') ->
  (forall k j, has k j s' -> has k j s \/ item_read k j s') ->
  (forall k o i, seen_ s' k !! o = Some i -> seen_ s k !! o = Some i \/ node_read k o i s') ->
  NoDup (classes (ir_ s')) ->
  (forall j, j ∈ classes (ir_ s') <-> is_Some (class_index (ir_ s') !! j)) ->
  (forall i, used (used_ s' None) i -> is_Some (class_index (ir_ s') !! Z.of_nat i)) ->
  (forall j, is_Some (class_index (ir_ s') !! j) -> is_Some (class_index (ir_ s) !! j) \/
     exists c, class_nodes (nodes (ir_ s')) !! j = Some c /\ class_is j c s') ->
  (forall k j, has k j s' -> in_table k j = true) ->
  lookups_fine s' ->
  inv s'.
Proof.
  intros I E H1 H2 H3 H4 H5 H6 H7 H8 H9 H10 H11. split; try done.
  - intros k j Hj. destruct (H4 k j Hj) as [Hj'|]; [|done]. apply (item_read_ext E); [done|by apply (iv_items _ I)].
  - intros k o i Hi. destruct (H5 k o i Hi) as [Hi'|]; [|done]. apply (node_read_ext E). by apply (iv_nodes _ I).
  - intros j Hj. destruct (H9 j Hj) as [Hj'|]; [|done]. destruct (iv_class _ I j Hj') as (c & Hc & Ic).
    exists c. split; [by apply (ex_class _ _ E)|by apply (class_is_ext E)].
Qed.

(** ** Rules *)

Lemma runs_le n n' {A} (m : M reading A) (Q Q' : A -> reading -> Prop) s : (n' <= n)%nat -> runs n' m Q s ->
  (forall a s', inv s' -> ext s s' -> frame n' s s' -> Q a s' -> Q' a s') -> runs n m Q' s.
Proof. intros L (a & s' & R & I & E & F & H) K. exists a, s'. eauto 10 using frame_le. Qed.
Lemma reads_bind n' n {A B} (m : M reading A) (f : A -> M reading B) Q Q' s : (n' <= n)%nat -> runs n' m Q s ->
  (forall a s', inv s' -> ext s s' -> frame n' s s' -> Q a s' -> runs n (f a) Q' s') -> runs n (m ≫= f) Q' s.
Proof.
  intros L (a & s1 & R & I & E & F & H) K. destruct (K a s1 I E F H) as (b & s2 & R2 & I2 & E2 & F2 & H2).
  exists b, s2. split; [unfold mbind, M_bind; by rewrite R|]. eauto 10 using ext_trans, frame_then.
Qed.
Lemma reads_ret n {A} (a : A) (Q : A -> reading -> Prop) s : inv s -> Q a s -> runs n (mret a) Q s.
Proof. intros I H. exists a, s. eauto 10 using ext_refl, frame_none. Qed.
Lemma runs_lift n {A B} (o : option A) (f : A -> M reading B) Q a s : o = Some a -> runs n (f a) Q s -> runs n (lift o ≫= f) Q s.
Proof. by intros ->. Qed.
Lemma runs_check n {B} b (f : unit -> M reading B) Q s : b = true -> runs n (f tt) Q s -> runs n (check nd b ≫= f) Q s.
Proof. intros -> H. apply (runs_lift n _ f Q tt); [unfold SLICER_CHECK; by destruct nd|done]. Qed.
Lemma runs_get n {B} (f : reading -> M reading B) Q s : runs n (f s) Q s -> runs n (get ≫= f) Q s.
Proof. done. Qed.
Lemma runs_mapM n {A B} (f : A -> M reading B) (R : A -> B -> reading -> Prop) l s : inv s ->
  (forall x s', inv s' -> x ∈ l -> runs n (f x) (R x) s') ->
  (forall x y s1 s2, ext s1 s2 -> R x y s1 -> R x y s2) ->
  runs n (mapM_ f l) (fun l' s' => Forall2 (fun x y => R x y s') l l') s.
Proof.
  intros I Hf Hs. revert s I. induction l as [|x l IH]; intros s I; cbn [mapM_].
  - by apply reads_ret.
  - eapply (reads_bind n); [done|apply Hf; [done|left]|]. intros y s1 I1 E1 _ H1.
    eapply (reads_bind n); [done|apply IH; [|done]; intros; apply Hf; [done|by right]|]. intros ys s2 I2 E2 _ H2.
    apply reads_ret; [done|]. constructor; [by eapply Hs|done].
Qed.

(** ** The parts of the operations *)

Lemma own_runs n {A B} (vector : data_nodes -> list A) (push : B -> data_nodes -> data_nodes) a Q s : inv s ->
  grown (vectors s) (push a (vectors s)) ->
  (forall s', ext s s' -> vectors s' = push a (vectors s) -> Q (length (vector (vectors s))) s') ->
  runs n (own vector push a) Q s.
Proof.
  intros I G HQ. set (s' := with_ir (set_nodes (nodes (ir_ s)) (push a (data_ (ir_ s))) (ir_ s)) s).
  exists (length (vector (vectors s))), s'. split; [done|].
  assert (E : ext s s') by (split; eauto).
  split; [|split; [done|split; [by split|by apply HQ]]].
  eapply inv_step; [done|done|apply I|apply I|apply I|by left|by left|apply I|apply I|apply I|by left|apply I|by apply (lookups_same E), I].
Qed.

(** One node of one table. *)
Record only (k : item) (j : Z) (n n' : node_maps) : Prop := {
  on_string : forall j', ~ (k = StringItem /\ j' = j) -> string_nodes n' !! j' = string_nodes n !! j';
  on_type : forall j', ~ (k = TypeItem /\ j' = j) -> type_nodes n' !! j' = type_nodes n !! j';
  on_proto : forall j', ~ (k = ProtoItem /\ j' = j) -> proto_nodes n' !! j' = proto_nodes n !! j';
  on_field : forall j', ~ (k = FieldItem /\ j' = j) -> field_nodes n' !! j' = field_nodes n !! j';
  on_method : forall j', ~ (k = MethodItem /\ j' = j) -> method_nodes n' !! j' = method_nodes n !! j';
  on_class : class_nodes n' = class_nodes n;
  on_defs : forall t c, class_def_in n' t = Some c -> class_def_in n t = Some c }.
Lemma insert_other {A} (m : gmap Z A) j j' x (P : Prop) : P -> ~ (P /\ j' = j) -> <[j := x]> m !! j' = m !! j'.
Proof. intros p N. apply lookup_insert_ne. intros ->. by apply N. Qed.
Lemma only_string j x n : only StringItem j n (set_string j x n).
Proof. split; try done. intros j' N. by apply (insert_other _ _ _ _ (StringItem = StringItem)). Qed.
Lemma only_type j x n : class_def x = None -> only TypeItem j n (set_type j x n).
Proof.
  intros Hx. split; try done; [intros j' N; by apply (insert_other _ _ _ _ (TypeItem = TypeItem))|].
  intros t c. unfold class_def_in. cbn. destruct (decide (t = j)) as [->|N]; [|by rewrite lookup_insert_ne].
  rewrite lookup_insert_eq. cbn. by rewrite Hx.
Qed.
Lemma only_proto j x n : only ProtoItem j n (set_proto j x n).
Proof. split; try done. intros j' N. by apply (insert_other _ _ _ _ (ProtoItem = ProtoItem)). Qed.
Lemma only_field j x n : only FieldItem j n (set_field j x n).
Proof. split; try done. intros j' N. by apply (insert_other _ _ _ _ (FieldItem = FieldItem)). Qed.
Lemma only_method j x n : only MethodItem j n (set_method j x n).
Proof. split; try done. intros j' N. by apply (insert_other _ _ _ _ (MethodItem = MethodItem)). Qed.

(** The state with the entry [j] in table [k]. *)
Definition with_entry (k : item) (j : Z) (node : node_maps -> node_maps) (m : IndexMap) (s : reading) : reading :=
  set_used (Some k) m (with_ir (add_node_maps node
    (set_table k (items_of (tbl (ir_ s)) k ++ [j]) (<[j := 0]> (map_of (indexes (ir_ s)) k)) (ir_ s))) s).
Lemma has_entry k j node m s k' j' : has k' j' (with_entry k j node m s) <-> (k' = k /\ j' = j) \/ has k' j' s.
Proof.
  unfold has. cbn. destruct (decide (k = k')) as [<-|N].
  - rewrite map_set_same. destruct (decide (j' = j)) as [->|N].
    + rewrite lookup_insert_eq. split; [auto|eauto].
    + rewrite lookup_insert_ne by done. naive_solver.
  - rewrite map_set_other by done. naive_solver.
Qed.
Lemma entry_ext k j node m s : ~ has k j s -> only k j (nodes (ir_ s)) (node (nodes (ir_ s))) -> ext s (with_entry k j node m s).
Proof.
  intros N [O1 O2 O3 O4 O5 O6 _].
  split; cbn; [intros; apply has_entry; by right|done| | | | | | |done|apply grown_refl].
  - intros j' x Hj H. rewrite O1; [done|]. by intros [-> ->].
  - intros j' d cd Hj H. exists cd. rewrite O2; [done|]. by intros [-> ->].
  - intros j' x Hj H. rewrite O3; [done|]. by intros [-> ->].
  - intros j' x Hj H. rewrite O4; [done|]. by intros [-> ->].
  - intros j' x Hj H. rewrite O5; [done|]. by intros [-> ->].
  - intros j' x Hj H. by rewrite O6.
Qed.

Lemma add_indexed_kept k j node s : inv s -> in_table k j = true -> ~ has k j s -> only k j (nodes (ir_ s)) (node (nodes (ir_ s))) ->
  (forall s', ext s s' -> nodes (ir_ s') = node (nodes (ir_ s)) -> item_read k j s') ->
  runs (rank k) (add_indexed nd k j node) (fun _ s' => has k j s' /\
    strings_lookup s' = strings_lookup s /\ prototypes_lookup s' = prototypes_lookup s) s.
Proof.
  intros I Hin N O Hr. assert (Hj : 0 <= j) by (unfold in_table in Hin; lia).
  assert (U : ~ used (used_ s (Some k)) (Z.to_nat j)).
  { intros U. apply N. apply (iv_used _ I) in U. by rewrite Z2Nat.id in U. }
  destruct (MarkUsedIndex_ok nd (Z.to_nat j) _ U) as (m & Em & _ & Hm).
  set (s' := with_entry k j node m s). assert (E : ext s s') by (by apply entry_ext).
  exists tt, s'. split; [|split; [|split; [done|split; [|split; [apply has_entry; by left|done]]]]].
  - unfold add_indexed, MarkUsed, lift, mbind, M_bind, get, put. cbn. by rewrite Em.
  - eapply inv_step; [exact I|exact E| | | | | by left|apply I|apply I| |by left| |by apply (lookups_same E), I]; subst s'.
    + intros k'. cbn. destruct (decide (k = k')) as [<-|Nk]; [rewrite items_set_same|rewrite items_set_other by done; apply I].
      apply NoDup_app. split; [apply I|]. split; [|apply NoDup_singleton].
      intros x Hx ->%list_elem_of_singleton. by apply N, (iv_table _ I).
    + intros k' j'. rewrite has_entry, <- (iv_table _ I). cbn. destruct (decide (k = k')) as [<-|Nk].
      * rewrite items_set_same, elem_of_app, list_elem_of_singleton. naive_solver.
      * rewrite items_set_other by done. naive_solver.
    + intros k' i Hi. apply has_entry. cbn in Hi. destruct (decide (Some k' = Some k)) as [[= ->]|Nk].
      * apply Hm in Hi as [->|Hi]; [left; split; [done|lia]|right; by apply (iv_used _ I)].
      * right. by apply (iv_used _ I).
    + intros k' j' [[-> ->]|H]%has_entry; [right|by left]. by apply Hr.
    + intros i Hi. cbn in Hi. by apply (iv_classes_used _ I).
    + intros k' j' [[-> ->]|H]%has_entry; [done|by apply I].
  - split; [|done|done|intros _; apply O|done]. intros k' L. cbn. apply map_set_other. intros ->. lia.
Qed.
Lemma add_indexed_runs k j node s : inv s -> in_table k j = true -> ~ has k j s -> only k j (nodes (ir_ s)) (node (nodes (ir_ s))) ->
  (forall s', ext s s' -> nodes (ir_ s') = node (nodes (ir_ s)) -> item_read k j s') ->
  runs (rank k) (add_indexed nd k j node) (fun _ s' => has k j s') s.
Proof. intros I T N O H. eapply runs_le; [done|by apply add_indexed_kept|]. by intros ? s' _ _ _ [? _]. Qed.

Lemma get_indexed_runs k parse j s : inv s -> j <> kNoIndex -> (~ has k j s -> runs (rank k) (parse j) (fun _ s' => has k j s') s) ->
  runs (rank k) (get_indexed nd k parse j) (fun _ s' => has k j s') s.
Proof.
  intros I Hj Hp. unfold get_indexed. apply runs_check; [lia|]. apply runs_get.
  destruct (map_of (indexes (ir_ s)) k !! j) eqn:Em.
  - apply reads_ret; [done|]. unfold has. by rewrite Em.
  - apply Hp. unfold has. rewrite Em. by intros [].
Qed.

Lemma once_runs k make o n s : inv s -> (n < node_rank k)%nat -> runs n (make o) (fun i s' => node_read k o i s') s ->
  runs (node_rank k) (once k make o) (fun i s' => seen_ s' k !! o = Some i) s.
Proof.
  intros I L Hm. unfold once. apply runs_get. destruct (seen_ s k !! o) as [i|] eqn:Es; [by apply reads_ret|].
  eapply reads_bind; [|exact Hm|]; [lia|]. intros i s1 I1 E1 F1 H1.
  assert (N : seen_ s1 k !! o = None) by (by rewrite (fr_seen _ _ _ F1 k L)).
  set (s' := set_seen k o i s1).
  assert (S : forall k' o' i', seen_ s' k' !! o' = Some i' <-> (k' = k /\ o' = o /\ i' = i) \/ seen_ s1 k' !! o' = Some i').
  { intros k' o' i'. subst s'. cbn. destruct (decide (k' = k)) as [->|Nk]; [|naive_solver].
    destruct (decide (o' = o)) as [->|No]; [rewrite lookup_insert_eq|rewrite lookup_insert_ne by done]; naive_solver. }
  assert (E : ext s1 s').
  { split; eauto using grown_refl. intros. apply S. by right. }
  exists i, s'. split; [done|]. split; [|split; [done|split; [|apply S; by left]]].
  - eapply inv_step; [exact I1|exact E|apply I1|apply I1|apply I1|by left| |apply I1|apply I1|apply I1|by left|apply I1|by apply (lookups_same E), I1].
    intros k' o' i' [(-> & -> & ->)|H]%S; [right|by left]. by apply (node_read_ext E).
  - split; [done| |done|done|done]. intros k' L'. cbn. destruct (decide (k' = k)) as [->|]; [lia|done].
Qed.
Lemma at_offset_runs n k extract o s : inv s -> (o <> 0 -> runs n (extract o) (fun i s' => seen_ s' k !! o = Some i) s) ->
  runs n (at_offset extract o) (fun i s' => node_at k o i s') s.
Proof.
  intros I He. unfold at_offset. destruct (Z.eqb_spec o 0) as [->|N]; [by apply reads_ret|].
  eapply reads_bind; [done|by apply He|]. intros i s1 I1 E1 F1 H1. by apply reads_ret.
Qed.

(** ** The operations *)

Lemma in_table_range k j : in_table k j = true -> 0 <= j < count_of k.
Proof. unfold in_table. lia. Qed.

Section Tables.
Context (TO : tables_ok = true) (LO : nd || lookups_ok = true).

Lemma table_is_ok k : table_ok k = true.
Proof. unfold tables_ok in TO. cbn [forallb] in TO. rewrite !andb_true_iff in TO. destruct TO as (H1 & H2 & H3 & H4 & H5 & _). by destruct k. Qed.
Lemma in_table_index k j : in_table k j = true -> 0 <= j /\ j <> kNoIndex.
Proof.
  intros H%in_table_range. pose proof (table_is_ok k) as [L _]%andb_true_iff. lia.
Qed.
Lemma entry_is_ok k j : in_table k j = true -> entry_ok k j = true.
Proof.
  intros H%in_table_range. pose proof (table_is_ok k) as [_ F]%andb_true_iff. rewrite forallb_forall in F. apply F.
  by apply list_elem_of_In, elem_of_seqZ.
Qed.

(** A node is made from its entry. *)
Lemma indexed_runs k parse j s : inv s -> in_table k j = true ->
  (entry_ok k j = true -> 0 <= j -> ~ has k j s -> runs (rank k) (parse j) (fun _ s' => has k j s') s) ->
  runs (rank k) (get_indexed nd k parse j) (fun _ s' => has k j s') s.
Proof.
  intros I T Hp. destruct (in_table_index k j T). apply get_indexed_runs; [done..|].
  intros N. apply Hp; [by apply entry_is_ok|done|done].
Qed.

(** What was there is still there. *)
Ltac keep := cbn beta in *; repeat (first [assumption | match goal with
  | E : ext ?s ?s' |- has _ _ ?s' => apply (has_ext E)
  | E : ext ?s ?s' |- opt_has _ _ ?s' => apply (opt_has_ext E)
  | E : ext ?s ?s' |- node_at _ _ _ ?s' => apply (node_at_ext E)
  | E : ext ?s ?s' |- debug_read _ _ ?s' => apply (debug_read_ext E)
  | E : ext ?s ?s' |- Forall (fun x => has_ref x ?s') _ => apply (has_refs_ext E)
  | E : ext ?s ?s' |- Forall2 (fun m m' => method_member m m' ?s') _ _ => apply (method_members_ext E)
  | E : ext ?s ?s' |- Forall (fun f => has FieldItem (f_decl f) ?s') _ => apply (has_all_ext E)
  end]); fail.
(** The next part of an operation, of a lower level; [N]: what is not there yet. *)
Ltac next H N := eapply reads_bind; [|apply H; done|]; [cbn; lia|];
  let a := fresh "a" in let s := fresh "s" in let I := fresh "I" in let E := fresh "E" in let F := fresh "F" in
  intros a s I E F; eapply frame_not in N; [|exact F|cbn; lia].

(** ** The lookup tables *)

Lemma lookups_are_ok : nd = false -> (count_of StringItem < 2 ^ 28 /\ count_of ProtoItem < 2 ^ 28 /\ Z.of_nat (length all_keys) < 2 ^ 28) /\
  strings_apart = true /\ NoDup (map signature_of (seqZ 0 (count_of ProtoItem))) /\ NoDup all_keys.
Proof.
  intros E. pose proof LO as H. rewrite E in H. cbn in H. unfold lookups_ok in H. rewrite !andb_true_iff, !bool_decide_eq_true, !Z.ltb_lt in H. tauto.
Qed.
Lemma strings_differ i j : nd = false -> in_table StringItem i = true -> in_table StringItem j = true -> i <> j ->
  same_string (chars_of i) (chars_of j, j) = false.
Proof.
  intros E Hi%in_table_range Hj%in_table_range N. destruct (lookups_are_ok E) as (_ & H & _). unfold strings_apart in H.
  rewrite forallb_forall in H. specialize (H i ltac:(by apply list_elem_of_In, elem_of_seqZ)). cbv beta in H.
  rewrite forallb_forall in H. specialize (H j ltac:(by apply list_elem_of_In, elem_of_seqZ)). cbv beta in H.
  rewrite (proj2 (Z.eqb_neq i j) N) in H. cbn in H. unfold apart in H. apply bool_decide_eq_false_2. cbn [fst].
  intros E'. by rewrite E' in H.
Qed.
Lemma protos_differ i j : nd = false -> in_table ProtoItem i = true -> in_table ProtoItem j = true -> i <> j ->
  same_proto (signature_of i) (signature_of j, j) = false.
Proof.
  intros E Hi%in_table_range Hj%in_table_range N. destruct (lookups_are_ok E) as (_ & _ & H & _).
  apply bool_decide_eq_false_2. cbn [fst]. intros E'. apply N.
  assert (L : forall x, 0 <= x < count_of ProtoItem ->
    map signature_of (seqZ 0 (count_of ProtoItem)) !! Z.to_nat x = Some (signature_of x)).
  { intros x Hx. rewrite list_lookup_fmap, lookup_seqZ_lt by lia. cbn. by rewrite Z2Nat.id by lia. }
  pose proof (NoDup_lookup _ (Z.to_nat i) (Z.to_nat j) _ H (L i Hi)) as Hn. rewrite E' in Hn. specialize (Hn (L j Hj)). lia.
Qed.

(** Fewer values than entries. *)
Lemma table_small k key t s : inv s -> table_fine k key t s -> (length (table_vals t) <= Z.to_nat (count_of k))%nat.
Proof.
  intros I (_ & H & N). rewrite Forall_forall in H. rewrite <- (length_map snd).
  assert (L : (length (map snd (table_vals t)) <= length (seqZ 0 (count_of k)))%nat).
  { apply (submseteq_length), NoDup_submseteq; [done|]. intros x (v & -> & Hv)%list_elem_of_fmap. apply elem_of_seqZ.
    apply in_table_range, (iv_in _ I). by apply H. }
  by rewrite length_seqZ in L.
Qed.

(** A node that is not in the table yet is inserted. *)
Lemma insert_fine k same key t j s : inv s -> nd = false -> table_fine k key t s -> has k j s -> j ∉ map snd (table_vals t) ->
  count_of k < 2 ^ 28 -> 
  (forall i, in_table k i = true -> j <> i -> same (key j) (key i, i) = false) ->
  exists t', Insert HashString same fst nd (key j, j) t = Some t' /\ table_fine k key t' s.
Proof.
  intros I -> Hf Hj Nj Hc Hd. pose proof (table_small k key t s I Hf) as Hs. destruct Hf as (Ht & Hv & Hn).
  rewrite Forall_forall in Hv.
  destruct (Insert_ok HashString same fst (key j, j) t Ht) as (t' & E & Ht' & P); [lia| |].
  - intros [c i] Hi. destruct (Hv _ Hi) as [Hk Hh]. cbn in Hk, Hh. subst c. apply Hd; [by apply (iv_in _ I)|].
    intros <-. apply Nj. by apply (list_elem_of_fmap_2 snd _ (key j, j)).
  - exists t'. split; [exact E|]. split; [exact Ht'|]. split.
    + rewrite Forall_forall. intros v. rewrite P. intros [->|Hin]%elem_of_cons; [done|by apply Hv].
    + rewrite P. cbn. constructor; done.
Qed.
Lemma Insert_release {Key V} (Hash : Key -> Z) Compare (GetKey : V -> Key) v t : exists t', Insert Hash Compare GetKey true v t = Some t'.
Proof.
  unfold Insert, assert_new. cbn [mbind option_bind]. destruct (Partition_Insert _ _ _ _) as [[] p]; [by eexists|].
  assert (All : forall l (p : Partition), InsertAll Hash GetKey true l p = Some p).
  { induction l as [|b l IH]; intros q; [done|]. cbn. destruct (value b); apply IH. }
  destruct (full_table t); cbn; rewrite ?All; by eexists.
Qed.

(** Inserting and adding a node commute; so the node is there when its key is. *)
Lemma runs_as n {A} (m m' : M reading A) Q s : m s = m' s -> runs n m' Q s -> runs n m Q s.
Proof. unfold runs. by intros ->. Qed.
Lemma insert_string_add key j k i node s :
  (insert_string nd key j ;; add_indexed nd k i node) s = (add_indexed nd k i node ;; insert_string nd key j) s.
Proof.
  unfold insert_string, add_indexed, MarkUsed, lift, mbind, M_bind, get, put. cbn.
  destruct (Insert _ _ _ _ _ _) eqn:Ei; cbn; destruct (MarkUsedIndex _ _ _); cbn; by rewrite ?Ei.
Qed.
Lemma insert_proto_add key j k i node s :
  (insert_proto nd key j ;; add_indexed nd k i node) s = (add_indexed nd k i node ;; insert_proto nd key j) s.
Proof.
  unfold insert_proto, add_indexed, MarkUsed, lift, mbind, M_bind, get, put. cbn.
  destruct (Insert _ _ _ _ _ _) eqn:Ei; cbn; destruct (MarkUsedIndex _ _ _); cbn; by rewrite ?Ei.
Qed.

Lemma insert_string_eq key j s : insert_string nd key j s =
  (t ← Insert HashString same_string fst nd (key, j) (strings_lookup s); Some (tt, with_lookups t (prototypes_lookup s) (methods_lookup s) s)).
Proof. unfold insert_string, lift, mbind, M_bind, get, put. cbn. by destruct (Insert _ _ _ _ _ _). Qed.
Lemma insert_proto_eq key j s : insert_proto nd key j s =
  (t ← Insert HashString same_proto fst nd (key, j) (prototypes_lookup s); Some (tt, with_lookups (strings_lookup s) t (methods_lookup s) s)).
Proof. unfold insert_proto, lift, mbind, M_bind, get, put. cbn. by destruct (Insert _ _ _ _ _ _). Qed.

(** New lookup tables and nothing else. *)
Lemma with_lookups_ext ss ps ms s : ext s (with_lookups ss ps ms s).
Proof. split; eauto using grown_refl. Qed.
Lemma with_lookups_inv ss ps ms s : inv s -> lookups_fine (with_lookups ss ps ms s) -> inv (with_lookups ss ps ms s).
Proof.
  intros I H. eapply inv_step; [exact I|apply with_lookups_ext|apply I|apply I|apply I|by left|by left|apply I|apply I|apply I|by left|apply I|exact H].
Qed.
Lemma build_cases : nd = true \/ nd = false.
Proof. destruct nd; auto. Qed.

Lemma add_string_runs j node s : inv s -> in_table StringItem j = true -> ~ has StringItem j s ->
  only StringItem j (nodes (ir_ s)) (node (nodes (ir_ s))) ->
  (forall s', ext s s' -> nodes (ir_ s') = node (nodes (ir_ s)) -> item_read StringItem j s') ->
  runs 1 (insert_string nd (chars_of j) j ;; add_indexed nd StringItem j node) (fun _ s' => has StringItem j s') s.
Proof.
  intros I T N O Hr. eapply runs_as; [apply insert_string_add|].
  eapply (reads_bind 1); [done|by apply add_indexed_kept|]. intros ? s1 I1 E1 _ (H1 & Hs & Hp).
  assert (K : exists t, Insert HashString same_string fst nd (chars_of j, j) (strings_lookup s1) = Some t /\
    (nd = false -> table_fine StringItem chars_of t s1)).
  { destruct build_cases as [E|E]; [rewrite E; edestruct @Insert_release as [t Et]; exists t; by split|].
    destruct (iv_lookups _ I E) as [F _]. destruct (iv_lookups _ I1 E) as [F1 _].
    edestruct (insert_fine StringItem same_string chars_of) as (t & Et & Ft); [exact I1|exact E|exact F1|exact H1| | | |by exists t].
    - rewrite Hs. intros (v & -> & Hv)%list_elem_of_fmap. destruct F as (_ & F & _). rewrite Forall_forall in F. by apply N, F.
    - apply (lookups_are_ok E).
    - intros i Hi Ni. by apply strings_differ. }
  destruct K as (t & Et & Ft). set (s' := with_lookups t (prototypes_lookup s1) (methods_lookup s1) s1).
  exists tt, s'. split; [by rewrite insert_string_eq, Et|].
  split; [|split; [apply with_lookups_ext|split; [by split|done]]]. apply with_lookups_inv; [done|].
  intros E. split; [by apply (table_fine_ext (with_lookups_ext _ _ _ s1)), Ft|by apply (table_fine_ext (with_lookups_ext _ _ _ s1)), (iv_lookups _ I1)].
Qed.
Lemma add_proto_runs j node s : inv s -> in_table ProtoItem j = true -> ~ has ProtoItem j s ->
  only ProtoItem j (nodes (ir_ s)) (node (nodes (ir_ s))) ->
  (forall s', ext s s' -> nodes (ir_ s') = node (nodes (ir_ s)) -> item_read ProtoItem j s') ->
  runs 4 (insert_proto nd (signature_of j) j ;; add_indexed nd ProtoItem j node) (fun _ s' => has ProtoItem j s') s.
Proof.
  intros I T N O Hr. eapply runs_as; [apply insert_proto_add|].
  eapply (reads_bind 4); [done|by apply add_indexed_kept|]. intros ? s1 I1 E1 _ (H1 & Hs & Hp).
  assert (K : exists t, Insert HashString same_proto fst nd (signature_of j, j) (prototypes_lookup s1) = Some t /\
    (nd = false -> table_fine ProtoItem signature_of t s1)).
  { destruct build_cases as [E|E]; [rewrite E; edestruct @Insert_release as [t Et]; exists t; by split|].
    destruct (iv_lookups _ I E) as [_ F]. destruct (iv_lookups _ I1 E) as [_ F1].
    edestruct (insert_fine ProtoItem same_proto signature_of) as (t & Et & Ft); [exact I1|exact E|exact F1|exact H1| | | |by exists t].
    - rewrite Hp. intros (v & -> & Hv)%list_elem_of_fmap. destruct F as (_ & F & _). rewrite Forall_forall in F. by apply N, F.
    - apply (lookups_are_ok E).
    - intros i Hi Ni. by apply protos_differ. }
  destruct K as (t & Et & Ft). set (s' := with_lookups (strings_lookup s1) t (methods_lookup s1) s1).
  exists tt, s'. split; [by rewrite insert_proto_eq, Et|].
  split; [|split; [apply with_lookups_ext|split; [by split|done]]]. apply with_lookups_inv; [done|].
  intros E. split; [by apply (table_fine_ext (with_lookups_ext _ _ _ s1)), (iv_lookups _ I1)|by apply (table_fine_ext (with_lookups_ext _ _ _ s1)), Ft].
Qed.

(** ** Nodes *)

Lemma GetString_runs j s : inv s -> in_table StringItem j = true -> runs 1 (GetString nd r j) (fun _ s' => has StringItem j s') s.
Proof.
  intros I T. apply (indexed_runs StringItem); [done..|]. intros (x & Ex & _)%some_b_ok Hj N.
  eapply runs_lift; [exact Ex|].
  assert (Ec : string_chars nd r j = Some (chars_of j)).
  { unfold chars_of, string_chars, string_item in *. destruct (GetStringData nd r j) as [l|]; [|done]. cbn [mbind option_bind] in *.
    by destruct (ReadULeb128 l) as [[]|]. }
  eapply runs_lift; [exact Ec|]. apply add_string_runs; [done|done|done|apply only_string|].
  intros s' E' Hn. exists x. split; [done|]. rewrite Hn. cbn. by rewrite lookup_insert_eq.
Qed.

Lemma GetType_runs j s : inv s -> in_table TypeItem j = true -> runs 2 (GetType nd r j) (fun _ s' => has TypeItem j s') s.
Proof.
  intros I T. apply (indexed_runs TypeItem); [done..|]. intros (x & Ex & Hx)%some_b_ok Hj N.
  eapply runs_lift; [exact Ex|]. destruct x as [|d [|]]; [done| |done].
  next GetString_runs N. intros Hd.
  apply (add_indexed_runs TypeItem); [done|done|done|by apply only_type|].
  intros s' E' Hn. exists d, None. split; [done|]. rewrite Hn. cbn. rewrite lookup_insert_eq. by eauto using has_ext.
Qed.
Lemma GetType_all l s : inv s -> forallb (in_table TypeItem) l = true ->
  runs 2 (mapM_ (GetType nd r) l) (fun _ s' => Forall (fun t => has TypeItem t s') l) s.
Proof.
  intros I T. rewrite forallb_forall in T. eapply runs_le; [done|eapply (runs_mapM 2 _ (fun t _ s' => has TypeItem t s')); [done| |]|].
  - intros t s' I' Ht. apply GetType_runs; [done|]. by apply T, list_elem_of_In.
  - intros x y s1 s2 E1 H1. by eapply has_ext.
  - intros l' s' I' E' _ H. clear -H. induction H; constructor; done.
Qed.

Lemma ExtractTypeList_runs o s : inv s -> type_list_ok o = true ->
  runs 3 (ExtractTypeList nd r o) (fun i s' => node_at TypeListNode o i s') s.
Proof.
  intros I T. apply (at_offset_runs 3); [done|]. intros No. apply (once_runs TypeListNode _ _ 2); [done|cbn; lia|].
  unfold type_list_ok, opt_off in T. rewrite (proj2 (Z.eqb_neq o 0) No) in T. apply some_b_ok in T as (ts & Ets & Hts).
  eapply runs_lift; [exact Ets|]. eapply reads_bind; [done|by apply GetType_all|]. intros ? s1 I1 E1 _ H1.
  apply own_runs; [done|split; try done; by apply prefix_app_r|].
  intros s' E' Hv. exists ts. split; [done|]. rewrite Hv. cbn. rewrite lookup_app_r, Nat.sub_diag by done.
  split; [done|]. by apply (has_all_ext E' TypeItem (fun x => x)).
Qed.

(** The signature that the nodes spell is the one in the image. *)
Lemma type_chars_read t s : inv s -> has TypeItem t s -> type_chars (nodes (ir_ s)) t = type_text t.
Proof.
  intros I Ht. destruct (iv_items _ I _ _ Ht) as (d & cd & E & Hn & Hd). destruct (iv_items _ I _ _ Hd) as (x & Ex & Hx).
  unfold type_chars, type_node, type_text, string_text, c_str. rewrite Hn, E, Ex. cbn [from_option id descriptor]. by rewrite Hx.
Qed.
Lemma types_read o i s : inv s -> node_at TypeListNode o i s ->
  types_in (data_ (ir_ s)) i = types_at o /\ Forall (fun t => has TypeItem t s) (types_at o).
Proof.
  intros I. unfold types_at. destruct i as [i|]; [|by intros ->]. intros [No Hi]. rewrite (proj2 (Z.eqb_neq o 0) No).
  destruct (iv_nodes _ I _ _ _ Hi) as (ts & E & El & Hts). unfold types_in. unfold vectors in El. by rewrite E, El.
Qed.
Lemma Signature_read j a t o i s : inv s -> ProtoIds nd r j = Some [a; t; o] -> has TypeItem t s -> node_at TypeListNode o i s ->
  Signature (nodes (ir_ s)) (data_ (ir_ s)) {| shorty := a; return_type := t; param_types := i |} = signature_of j.
Proof.
  intros I E Ht Hi. destruct (types_read o i s I Hi) as [El Hts]. unfold Signature, signature_of. rewrite E. cbn [return_type param_types].
  rewrite El, (type_chars_read t s I Ht). do 3 f_equal. clear El. induction Hts as [|x l Hx _ IH]; [done|]. cbn [map]. by rewrite IH, (type_chars_read x s I Hx).
Qed.

Lemma GetProto_runs j s : inv s -> in_table ProtoItem j = true -> runs 4 (GetProto nd r j) (fun _ s' => has ProtoItem j s') s.
Proof.
  intros I T. apply (indexed_runs ProtoItem); [done..|]. intros (x & Ex & Hx)%some_b_ok Hj N.
  eapply runs_lift; [exact Ex|]. destruct x as [|a [|t [|o [|]]]]; try done. rewrite !andb_true_iff in Hx. destruct Hx as [[Ha Ht] Ho].
  next GetString_runs N. intros H1. next GetType_runs N. intros H2. next ExtractTypeList_runs N. intros H3.
  apply runs_get. rewrite (Signature_read j a t o a2) by (done || keep).
  apply add_proto_runs; [done|done|done|apply only_proto|].
  intros s' E' Hn. exists a, t, o, a2. split; [done|]. rewrite Hn. cbn. rewrite lookup_insert_eq. split; [done|].
  split_and!; keep.
Qed.

Lemma GetFieldDecl_runs j s : inv s -> in_table FieldItem j = true -> runs 4 (GetFieldDecl nd r j) (fun _ s' => has FieldItem j s') s.
Proof.
  intros I T. apply (indexed_runs FieldItem); [done..|]. intros (x & Ex & Hx)%some_b_ok Hj N.
  eapply runs_lift; [exact Ex|]. destruct x as [|c [|t [|m [|]]]]; try done. rewrite !andb_true_iff in Hx. destruct Hx as [[Hc Ht] Hm].
  next GetString_runs N. intros H1. next GetType_runs N. intros H2. next GetType_runs N. intros H3.
  apply (add_indexed_runs FieldItem); [done|done|done|apply only_field|].
  intros s' E' Hn. exists c, t, m. split; [done|]. rewrite Hn. cbn. rewrite lookup_insert_eq. split; [done|].
  split_and!; keep.
Qed.

Lemma GetMethodDecl_runs j s : inv s -> in_table MethodItem j = true -> runs 5 (GetMethodDecl nd r j) (fun _ s' => has MethodItem j s') s.
Proof.
  intros I T. apply (indexed_runs MethodItem); [done..|]. intros (x & Ex & Hx)%some_b_ok Hj N.
  eapply runs_lift; [exact Ex|]. destruct x as [|c [|t [|m [|]]]]; try done. rewrite !andb_true_iff in Hx. destruct Hx as [[Hc Ht] Hm].
  next GetString_runs N. intros H1. next GetProto_runs N. intros H2. next GetType_runs N. intros H3.
  apply (add_indexed_runs MethodItem); [done|done|done|apply only_method|].
  intros s' E' Hn. exists c, t, m. split; [done|]. rewrite Hn. cbn. rewrite lookup_insert_eq. split; [done|].
  split_and!; keep.
Qed.

(** ** References *)

Lemma get_ref_runs x s : inv s -> ref_ok x = true -> runs 5 (get_ref nd r x) (fun _ s' => has_ref x s') s.
Proof.
  intros I T. destruct x as [k j]. destruct k; cbn [get_ref fst snd];
    (eapply runs_le; [|first [by apply GetString_runs|by apply GetType_runs|by apply GetFieldDecl_runs|by apply GetMethodDecl_runs|by apply GetProto_runs]|by intros]; lia).
Qed.
Lemma visit_refs_runs l s : inv s -> forallb ref_ok l = true ->
  runs 5 (visit_refs nd r l) (fun _ s' => Forall (fun x => has_ref x s') l) s.
Proof.
  intros I T. rewrite forallb_forall in T. eapply reads_bind; [done|eapply (runs_mapM 5 _ (fun x _ s' => has_ref x s')); [done| |]|].
  - intros x s' I' Hx. apply get_ref_runs; [done|]. by apply T, list_elem_of_In.
  - intros x y s1 s2 E1 H1. by eapply has_ext.
  - intros l' s' I' E' _ H. apply reads_ret; [done|]. clear -H. induction H; constructor; done.
Qed.

(** ** Annotations and arrays *)

Lemma ExtractAnnotationItem_runs o s : inv s -> annotation_ok o = true ->
  runs 6 (ExtractAnnotationItem nd r o) (fun i s' => seen_ s' AnnotationNode !! o = Some i) s.
Proof.
  intros I T. apply andb_true_iff in T as [No (a & Ea & Ha)%some_b_ok].
  apply runs_check; [done|]. apply (once_runs AnnotationNode _ _ 5); [done|cbn; lia|].
  eapply runs_lift; [exact Ea|]. eapply reads_bind; [done|by apply visit_refs_runs|]. intros ? s1 I1 E1 _ H1.
  apply Forall_cons in H1 as [H1 H2].
  eapply reads_bind; [done| |intros i s2 I2 E2 _ Hi; eapply (reads_bind 5); [done| |intros ? s3 I3 E3 _ _; by apply reads_ret, (node_read_ext E3 AnnotationNode)]].
  - apply (own_runs 5 _ _ _ (fun i s' => node_read AnnotationNode o i s')); [done|split; try done; by apply prefix_app_r|].
    intros s' E' Hv. exists a. split; [done|]. rewrite Hv. cbn. rewrite lookup_app_r, Nat.sub_diag by done.
    split; [done|]. split; keep.
  - apply (own_runs 5 _ _ _ (fun _ _ => True)); [done|split; try done; by apply prefix_app_r|done].
Qed.

Lemma opt_off_other ok o : opt_off ok o = true -> o <> 0 -> ok o = true.
Proof. unfold opt_off. intros H No. by rewrite (proj2 (Z.eqb_neq o 0) No) in H. Qed.
Lemma set_ok_other o : set_ok o = true -> o <> 0.
Proof. unfold set_ok. rewrite !andb_true_iff. lia. Qed.

Lemma ExtractAnnotationSet_runs o s : inv s -> opt_off set_ok o = true ->
  runs 7 (ExtractAnnotationSet nd r o) (fun i s' => node_at AnnotationSetNode o i s') s.
Proof.
  intros I T. apply at_offset_runs; [done|]. intros No. pose proof (opt_off_other _ _ T No) as H.
  unfold set_ok in H. rewrite !andb_true_iff in H. destruct H as [[_ Ha] (l & El & Hl)%some_b_ok].
  apply runs_check; [done|]. apply (once_runs AnnotationSetNode _ _ 6); [done|cbn; lia|].
  eapply runs_lift; [exact El|]. rewrite forallb_forall in Hl.
  eapply reads_bind; [done|eapply (runs_mapM 6 _ (fun o i s' => seen_ s' AnnotationNode !! o = Some i)); [done| |]|].
  - intros x s' I' Hx. apply ExtractAnnotationItem_runs; [done|]. by apply Hl, list_elem_of_In.
  - intros x y s1 s2 E1 H1. by apply (ex_seen _ _ E1).
  - intros l' s1 I1 E1 _ H1. apply own_runs; [done|split; try done; by apply prefix_app_r|].
    intros s' E' Hv. exists l, l'. split; [done|]. rewrite Hv. cbn. rewrite lookup_app_r, Nat.sub_diag by done.
    split; [done|]. eapply Forall2_impl; [exact H1|]. intros. by apply (ex_seen _ _ E').
Qed.
Lemma some_set_runs o s : inv s -> set_ok o = true ->
  runs 7 (ExtractAnnotationSet nd r o) (fun i s' => exists n, i = Some n /\ node_at AnnotationSetNode o (Some n) s') s.
Proof.
  intros I T. eapply runs_le; [done|apply ExtractAnnotationSet_runs; [done|unfold opt_off; rewrite T; apply orb_true_r]|].
  intros [i|] s1 I1 E1 _ H1; [by eauto|]. by apply set_ok_other in T.
Qed.

Lemma ExtractAnnotationSetRefList_runs o s : inv s -> ref_list_ok o = true ->
  runs 7 (ExtractAnnotationSetRefList nd r o) (fun i s' => ref_list_read o i s') s.
Proof.
  intros I T. apply andb_true_iff in T as [Ha (l & El & Hl)%some_b_ok].
  apply runs_check; [done|]. eapply runs_lift; [exact El|]. rewrite forallb_forall in Hl.
  eapply reads_bind; [done|eapply (runs_mapM 7 _ (fun o i s' => node_at AnnotationSetNode o (Some i) s')); [done| |]|].
  - intros x s' I' [Nx Hx%list_elem_of_In]%list_elem_of_filter. apply Hl in Hx.
    eapply reads_bind; [done|apply some_set_runs; [done|by apply (opt_off_other _ _ Hx)]|].
    intros ? s1 I1 E1 _ (i & -> & Hi). by apply reads_ret.
  - intros x y s1 s2 E1 H1. keep.
  - intros l' s1 I1 E1 _ H1. apply own_runs; [done|split; try done; by apply prefix_app_r|].
    intros s' E' Hv. exists l, l'. split; [done|]. rewrite Hv. cbn. rewrite lookup_app_r, Nat.sub_diag by done.
    split; [done|]. eapply Forall2_impl; [exact H1|]. intros x i. apply (node_at_ext E' AnnotationSetNode _ (Some i)).
Qed.

(** The parsers of the entries of a directory. *)
Abbreviation set_at := (fun o i s => node_at AnnotationSetNode o (Some i) s).
Lemma ParseFieldAnnotation_runs e s : inv s -> in_table FieldItem e.1 && set_ok e.2 = true ->
  runs 7 (ParseFieldAnnotation nd r e) (fun a s' => pair_read FieldItem set_at e a s') s.
Proof.
  intros I [T1 T2]%andb_true_iff. eapply reads_bind; [|by apply GetFieldDecl_runs|]; [lia|]. intros ? s1 I1 E1 _ H1.
  eapply reads_bind; [done|by apply some_set_runs|]. intros ? s2 I2 E2 _ (i & -> & H2).
  apply reads_ret; [done|]. split; [done|]. split; keep.
Qed.
Lemma ParseMethodAnnotation_runs e s : inv s -> in_table MethodItem e.1 && set_ok e.2 = true ->
  runs 7 (ParseMethodAnnotation nd r e) (fun a s' => pair_read MethodItem set_at e a s') s.
Proof.
  intros I [T1 T2]%andb_true_iff. eapply reads_bind; [|by apply GetMethodDecl_runs|]; [lia|]. intros ? s1 I1 E1 _ H1.
  eapply reads_bind; [done|by apply some_set_runs|]. intros ? s2 I2 E2 _ (i & -> & H2).
  apply reads_ret; [done|]. split; [done|]. split; keep.
Qed.
Lemma ParseParamAnnotation_runs e s : inv s -> in_table MethodItem e.1 && ref_list_ok e.2 = true ->
  runs 7 (ParseParamAnnotation nd r e) (fun a s' => pair_read MethodItem ref_list_read e a s') s.
Proof.
  intros I [T1 T2]%andb_true_iff. eapply reads_bind; [|by apply GetMethodDecl_runs|]; [lia|]. intros ? s1 I1 E1 _ H1.
  eapply reads_bind; [done|by apply ExtractAnnotationSetRefList_runs|]. intros i s2 I2 E2 _ H2.
  apply reads_ret; [done|]. split; [done|]. split; keep.
Qed.

(** The pairs of one array. *)
Lemma pairs_runs k ok parse sub l s : inv s -> pairs_ok k ok l = true ->
  (forall e s, inv s -> in_table k e.1 && ok e.2 = true -> runs 7 (parse e) (fun a s' => pair_read k sub e a s') s) ->
  (forall o i s s', ext s s' -> sub o i s -> sub o i s') ->
  runs 7 (mapM_ parse (map pair_of l)) (fun l' s' => Forall2 (fun e a => pair_read k sub e a s') (map pair_of l) l') s.
Proof.
  intros I T Hp Hs. unfold pairs_ok in T. rewrite forallb_forall in T.
  apply (runs_mapM 7 _ (fun e a s' => pair_read k sub e a s')); [done| |].
  - intros e s' I' He. apply Hp; [done|]. by apply T, list_elem_of_In.
  - intros e a s1 s2 E1 (H1 & H2 & H3). split; [done|]. split; [by apply (has_ext E1)|by eapply Hs].
Qed.

Lemma ExtractAnnotations_runs o s : inv s -> directory_ok o = true ->
  runs 8 (ExtractAnnotations nd r o) (fun i s' => node_at AnnotationsDirectoryNode o i s') s.
Proof.
  intros I T. apply at_offset_runs; [done|]. intros No. pose proof (opt_off_other _ _ T No) as H.
  apply andb_true_iff in H as [Ha ((c & ((fs & ms) & ps)) & Ed & Hd)%some_b_ok]. rewrite !andb_true_iff in Hd. destruct Hd as [[[Hc Hf] Hm] Hp].
  apply runs_check; [done|]. apply (once_runs AnnotationsDirectoryNode _ _ 7); [done|cbn; lia|].
  eapply runs_lift; [exact Ed|].
  assert (S : forall o i s s', ext s s' -> node_at AnnotationSetNode o (Some i) s -> node_at AnnotationSetNode o (Some i) s') by (intros; keep).
  eapply reads_bind; [done|by apply ExtractAnnotationSet_runs|]. intros ic s1 I1 E1 _ H1.
  eapply reads_bind; [done|by eapply (pairs_runs FieldItem); [..|apply ParseFieldAnnotation_runs|]|]. intros ifs s2 I2 E2 _ H2.
  eapply reads_bind; [done|by eapply (pairs_runs MethodItem); [..|apply ParseMethodAnnotation_runs|]|]. intros ims s3 I3 E3 _ H3.
  eapply reads_bind; [done|by eapply (pairs_runs MethodItem); [..|apply ParseParamAnnotation_runs|intros; eapply ref_list_read_ext]|]. intros ips s4 I4 E4 _ H4.
  apply own_runs; [done|split; try done; by apply prefix_app_r|].
  intros s' E' Hv. exists c, fs, ms, ps, ic, ifs, ims, ips. split; [done|]. rewrite Hv. cbn. rewrite lookup_app_r, Nat.sub_diag by done.
  split; [done|]. split; [keep|]. split_and!.
  - do 3 (eapply pair_read_ext; [eassumption|intros; keep|]). exact H2.
  - do 2 (eapply pair_read_ext; [eassumption|intros; keep|]). exact H3.
  - eapply pair_read_ext; [eassumption|by apply ref_list_read_ext|]. exact H4.
Qed.

Lemma ExtractEncodedArray_runs o s : inv s -> array_ok o = true ->
  runs 7 (ExtractEncodedArray nd r o) (fun i s' => node_at EncodedArrayNode o i s') s.
Proof.
  intros I T. apply (at_offset_runs 7); [done|]. intros No. pose proof (opt_off_other _ _ T No) as (vs & Ev & Hv)%some_b_ok.
  apply (once_runs EncodedArrayNode _ _ 6); [done|cbn; lia|].
  eapply runs_lift; [exact Ev|]. eapply reads_bind; [|by apply visit_refs_runs|]; [lia|]. intros ? s1 I1 E1 _ H1.
  eapply (reads_bind 6); [done|by apply (own_runs 6 _ _ _ (fun _ _ => True)); [|split; try done; by apply prefix_app_r|]|].
  intros ? s2 I2 E2 _ _. apply own_runs; [done|split; try done; by apply prefix_app_r|].
  intros s' E' Hw. exists vs. split; [done|]. rewrite Hw. cbn. rewrite lookup_app_r, Nat.sub_diag by done. split; [done|]. keep.
Qed.

(** ** Code *)

Lemma ExtractDebugInfo_runs o s : inv s -> debug_ok o = true ->
  runs 5 (ExtractDebugInfo_ nd r o) (fun i s' => debug_read o i s') s.
Proof.
  intros I T. unfold ExtractDebugInfo_, at_offset. destruct (Z.eqb_spec o 0) as [->|No]; [by apply reads_ret|].
  pose proof (opt_off_other _ _ T No) as ([d refs] & Ed & Hd)%some_b_ok.
  eapply reads_bind; [done| |intros i s1 I1 E1 _ H1; apply (reads_ret 5 (Some i)); [done|exact H1]].
  eapply runs_lift; [exact Ed|]. eapply reads_bind; [done|by apply visit_refs_runs|]. intros ? s1 I1 E1 _ H1.
  apply own_runs; [done|split; try done; by apply prefix_app_r|].
  intros s' E' Hw. split; [done|]. exists d, refs. split; [done|]. rewrite Hw. cbn. rewrite lookup_app_r, Nat.sub_diag by done. split; [done|]. keep.
Qed.
Lemma ExtractCode_runs o s : inv s -> code_ok o = true ->
  runs 5 (ExtractCode nd r o) (fun i s' => code_read o i s') s.
Proof.
  intros I T. unfold ExtractCode, at_offset. destruct (Z.eqb_spec o 0) as [->|No]; [by apply reads_ret|].
  pose proof (opt_off_other _ _ T No) as (((c & d) & refs) & Ed & [Hr Hd]%andb_true_iff)%some_b_ok.
  eapply reads_bind; [done| |intros i s1 I1 E1 _ H1; apply (reads_ret 5 (Some i)); [done|exact H1]].
  eapply runs_lift; [exact Ed|]. eapply reads_bind; [done|by apply visit_refs_runs|]. intros ? s1 I1 E1 _ H1.
  eapply reads_bind; [done|by apply ExtractDebugInfo_runs|]. intros di s2 I2 E2 _ H2.
  apply own_runs; [done|split; try done; by apply prefix_app_r|].
  intros s' E' Hw. split; [done|]. exists c, d, refs, di. split; [done|]. rewrite Hw. cbn. rewrite lookup_app_r, Nat.sub_diag by done.
  split; [done|]. split; keep.
Qed.

(** ** Classes *)

(** The type's [class_def], which nothing else is read from. *)
Lemma set_class_def_runs t j s : inv s -> has TypeItem t s -> class_def_in (nodes (ir_ s)) t = None ->
  runs 10 (set_class_def nd t j) (fun _ s' => methods_lookup s' = methods_lookup s /\
    forall t' c, class_def_in (nodes (ir_ s')) t' = Some c ->
      (t' = t /\ c = j) \/ class_def_in (nodes (ir_ s)) t' = Some c) s.
Proof.
  intros I Ht Hn. destruct (iv_items _ I _ _ Ht) as (d & cd & _ & Hd & _).
  unfold class_def_in in Hn. rewrite Hd in Hn. cbn in Hn. subst cd.
  set (s' := with_ir (add_node_maps (fun n => set_type t {| descriptor := descriptor (type_node n t); class_def := Some j |} n) (ir_ s)) s).
  assert (E : ext s s').
  { split; eauto using grown_refl. intros j' d' cd' _ H'. cbn. destruct (decide (j' = t)) as [->|N].
    - rewrite lookup_insert_eq. unfold type_node. rewrite Hd. rewrite Hd in H'. injection H' as <- <-. by eexists.
    - rewrite lookup_insert_ne by done. by eexists. }
  unfold set_class_def. apply runs_get, runs_check; [unfold type_node; by rewrite Hd|].
  exists tt, s'. split; [done|]. split; [|split; [done|split; [by split; [| | |lia|]|split; [done|]]]].
  - eapply inv_step; [exact I|exact E|apply I|apply I|apply I|by left|by left|apply I|apply I|apply I|by left|apply I|by apply (lookups_same E), I].
  - intros t' c. unfold class_def_in, s'. cbn. destruct (decide (t' = t)) as [->|N]; [|rewrite lookup_insert_ne by done; by right].
    rewrite lookup_insert_eq. intros [= <-]. by left.
Qed.

Lemma GetOpt_runs n k get i s : inv s -> opt_in k i = true -> (in_table k i = true -> runs n (get i) (fun _ s' => has k i s') s) ->
  runs n (GetOpt get (opt_idx i)) (fun _ s' => opt_has k (opt_idx i) s') s.
Proof.
  intros I T H. unfold opt_idx. unfold opt_in in T. destruct (i =? kNoIndex); [by apply reads_ret|by apply H].
Qed.

Lemma ParseEncodedField_all l s : inv s -> forallb (fun f => in_table FieldItem (f_decl f)) l = true ->
  runs 4 (mapM_ (ParseEncodedField nd r) l) (fun l' s' => l' = l /\ Forall (fun f => has FieldItem (f_decl f) s') l) s.
Proof.
  intros I T. rewrite forallb_forall in T. eapply runs_le; [done|eapply (runs_mapM 4 _ (fun f f' s' => field_member f f' s')); [done| |]|].
  - intros f s' I' Hf%list_elem_of_In%T. eapply reads_bind; [done|by apply GetFieldDecl_runs|].
    intros ? s1 I1 E1 _ H1. by apply reads_ret.
  - intros f f' s1 s2 E1 [-> H1]. split; [done|keep].
  - intros l' s' I' E' _ H. clear -H. induction H as [|f f' l l' [-> Hf] _ [-> IH]]; [done|by split; [|constructor]].
Qed.

(** ** The table of methods *)

Context (node_hash : item -> Z -> Z).

(** The table has the methods of these keys. *)
Definition keys_in (ks : list MethodKey) (s : reading) : Prop := nd = false ->
  HashTable.table_ok (hash_method node_hash) fst (methods_lookup s) /\ map fst (table_vals (methods_lookup s)) ≡ₚ ks.
(** There is room for more, and they are new. *)
Definition room (l ks : list MethodKey) : Prop := nd = false -> NoDup (l ++ ks) /\ Z.of_nat (length (l ++ ks)) < 2 ^ 28.
Lemma keys_in_frame n ks s s' : (n < 9)%nat -> frame n s s' -> keys_in ks s -> keys_in ks s'.
Proof. intros L F H E. rewrite (fr_methods _ _ _ F L). by apply H. Qed.
Lemma keys_in_perm ks ks' s : ks ≡ₚ ks' -> keys_in ks s -> keys_in ks' s.
Proof. intros P H E. rewrite <- P. by apply H. Qed.
Lemma room_app l l' ks : room (l ++ l') ks -> room l ks /\ room l' (l ++ ks).
Proof.
  intros H. split; intros E; destruct (H E) as [N L]; rewrite !length_app in *.
  - split; [|lia]. rewrite <- app_assoc in N. apply NoDup_app in N as (N1 & N2 & [_ [_ N3]]%NoDup_app). apply NoDup_app. split; [done|].
    split; [|done]. intros x Hx Hk. apply (N2 x Hx). apply elem_of_app. by right.
  - split; [|lia]. rewrite app_assoc, (Permutation_app_comm l' l). exact N.
Qed.

Lemma method_key_read j s : inv s -> has MethodItem j s -> method_key (nodes (ir_ s)) j = key_of_method j.
Proof.
  intros I Hj. destruct (iv_items _ I _ _ Hj) as (c & p & n & E & Hm & _ & _ & Hc).
  destruct (iv_items _ I _ _ Hc) as (d & cd & Ed & Ht & _).
  unfold method_key, key_of_method, descriptor_of, method_node, type_node. rewrite E, Hm. cbn [from_option id m_parent m_name m_prototype].
  by rewrite Ed, Ht.
Qed.
Lemma insert_method_eq m s : insert_method nd node_hash m s =
  (t ← Insert (hash_method node_hash) same_method fst nd (method_key (nodes (ir_ s)) (m_decl m), m) (methods_lookup s);
   Some (tt, with_lookups (strings_lookup s) (prototypes_lookup s) t s)).
Proof. unfold insert_method, lift, mbind, M_bind, get, put. cbn. by destruct (Insert _ _ _ _ _ _). Qed.
Lemma insert_method_runs m ks s : inv s -> has MethodItem (m_decl m) s -> keys_in ks s -> room [key_of_method (m_decl m)] ks ->
  runs 9 (insert_method nd node_hash m) (fun _ s' => keys_in (key_of_method (m_decl m) :: ks) s') s.
Proof.
  intros I Hj Hk Hr. set (j := m_decl m) in *.
  assert (K : exists t, Insert (hash_method node_hash) same_method fst nd (key_of_method j, m) (methods_lookup s) = Some t /\
    (nd = false -> HashTable.table_ok (hash_method node_hash) fst t /\ map fst (table_vals t) ≡ₚ key_of_method j :: ks)).
  { destruct build_cases as [E|E]; [rewrite E; edestruct @Insert_release as [t Et]; exists t; by split|].
    destruct (Hk E) as [Ht P]. destruct (Hr E) as [N L]. cbn [app] in N, L. apply NoDup_cons in N as [N _].
    destruct (Insert_ok (hash_method node_hash) same_method fst (key_of_method j, m) (methods_lookup s) Ht) as (t & Et & Ht' & Pt).
    - rewrite <- (length_map fst), P. cbn [length] in L. lia.
    - intros v Hv. apply bool_decide_eq_false_2. cbn [fst]. intros Ev. apply N. rewrite <- P, Ev. by apply list_elem_of_fmap_2.
    - exists t. rewrite E. split; [done|]. intros _. split; [done|]. rewrite Pt. cbn. by rewrite P. }
  destruct K as (t & Et & Ft). set (s' := with_lookups (strings_lookup s) (prototypes_lookup s) t s).
  exists tt, s'. split; [rewrite insert_method_eq; fold j; by rewrite method_key_read, Et|].
  split; [|split; [apply with_lookups_ext|split; [by split; [| |lia| |]|done]]]. apply with_lookups_inv; [done|].
  by apply (lookups_same (with_lookups_ext _ _ _ s)), I.
Qed.

Lemma ParseEncodedMethod_all l ks s : inv s -> forallb (fun m : Z * Z * Z => in_table MethodItem m.1.1 && code_ok m.2) l = true ->
  keys_in ks s -> room (method_keys l) ks ->
  runs 9 (mapM_ (ParseEncodedMethod nd r node_hash) l)
    (fun l' s' => Forall2 (fun m m' => method_member m m' s') l l' /\ keys_in (method_keys l ++ ks) s') s.
Proof.
  revert ks s. induction l as [|[[i fl] o] l IH]; intros ks s I T K Hr; [by apply reads_ret|].
  cbn [forallb fst snd] in T. rewrite !andb_true_iff in T. destruct T as [[Hi Ho] T].
  change (method_keys ((i, fl, o) :: l)) with ([key_of_method i] ++ method_keys l) in *. apply room_app in Hr as [Hr1 Hr2].
  cbn [mapM_].
  assert (R1 : runs 9 (ParseEncodedMethod nd r node_hash (i, fl, o))
    (fun m' s' => method_member (i, fl, o) m' s' /\ keys_in (key_of_method i :: ks) s') s).
  { eapply (reads_bind 5); [lia|by apply GetMethodDecl_runs|]. intros ? s1 I1 E1 F1 H1.
    eapply (reads_bind 5); [lia|by apply ExtractCode_runs|]. intros c s2 I2 E2 F2 H2.
    eapply (reads_bind 9); [done|apply (insert_method_runs _ ks); [done|keep| |done]|].
    { eapply (keys_in_frame 5); [lia|done|]. eapply (keys_in_frame 5); [lia|done|done]. }
    intros ? s3 I3 E3 _ K3. apply reads_ret; [done|]. split; [|done].
    split; [done|]. split; [done|]. split; [keep|by apply (code_read_ext E3)]. }
  eapply (reads_bind 9); [done|exact R1|]. intros m' s1 I1 E1 _ [H1 K1].
  eapply (reads_bind 9); [done|by apply (IH ([key_of_method i] ++ ks))|]. intros l' s2 I2 E2 _ [H2 K2].
  apply reads_ret; [done|]. split.
  - constructor; [|done]. destruct H1 as (A1 & A2 & A3 & A4). split; [done|]. split; [done|]. split; [keep|by apply (code_read_ext E2)].
  - eapply keys_in_perm; [|exact K2]. rewrite app_assoc. by rewrite (Permutation_app_comm (method_keys l)).
Qed.

(** Only classes that have been read are the class of a type, of theirs. *)
Definition defs_ok (s : reading) : Prop := forall t c, class_def_in (nodes (ir_ s)) t = Some c ->
  t = class_type c /\ is_Some (class_index (ir_ s) !! c).
(** Only those and class [j]. *)
Definition defs_but (j : Z) (s : reading) : Prop := forall t c, class_def_in (nodes (ir_ s)) t = Some c ->
  t = class_type c /\ (c = j \/ is_Some (class_index (ir_ s) !! c)).
Lemma defs_but_frame n j s s' : (n < 10)%nat -> frame n s s' -> defs_but j s -> defs_but j s'.
Proof.
  intros L F H t c Hc. rewrite (proj1 (fr_classes _ _ _ F ltac:(lia))). by apply H, (fr_defs _ _ _ F L).
Qed.
(** What an operation that no class is made in leaves. *)
Lemma runs_but n {A} (m : M reading A) Q j s : (n < 10)%nat -> runs n m Q s -> defs_but j s -> 
  runs n m (fun a s' => Q a s' /\ defs_but j s') s.
Proof. intros L (a & s' & R & I & E & F & H) D. exists a, s'. eauto 10 using defs_but_frame. Qed.

Lemma ParseClass_runs j s : inv s -> class_ok j = true -> defs_ok s ->
  (forall c, is_Some (class_index (ir_ s) !! c) -> class_type c <> class_type j) ->
  forall ks, keys_in ks s -> room (class_keys j) ks ->
  runs 10 (ParseClass nd r node_hash j) (fun c s' => (class_is j c s' /\ keys_in (class_keys j ++ ks) s') /\ defs_but j s') s.
Proof.
  intros I (e & Ee & He)%some_b_ok D U ks K Hr.
  destruct e as [|c [|fl [|su [|ifs [|src [|an [|cd [|sv [|]]]]]]]]]; try done.
  rewrite !andb_true_iff in He. destruct He as [[[[[[Hc Hsu] Hifs] Hsrc] Han] Hcd] Hsv].
  apply some_b_ok in Hcd as ([[[sf nf] dm] vm] & Ecd & Hcd). rewrite !andb_true_iff in Hcd. destruct Hcd as [[[Hsf Hnf] Hdm] Hvm].
  unfold class_keys in *. rewrite Ee, Ecd in *. apply room_app in Hr as [Hr1 Hr2].
  eapply runs_lift; [exact Ee|].
  assert (Ej : class_type j = c) by (unfold class_type; by rewrite Ee).
  eapply (reads_bind 2); [lia|by apply GetType_runs|]. intros ? s1 I1 E1 F1 H1.
  assert (D1 : defs_ok s1).
  { intros t c' Hc'. rewrite (proj1 (fr_classes _ _ _ F1 ltac:(lia))). by apply D, (fr_defs _ _ _ F1 ltac:(lia)). }
  eapply (reads_bind 10); [lia|apply set_class_def_runs; [done..|]|].
  { destruct (class_def_in _ c) as [c'|] eqn:Ec; [|done]. apply D1 in Ec as [E' Hc'].
    rewrite (proj1 (fr_classes _ _ _ F1 ltac:(lia))) in Hc'. by destruct (U c' Hc'); rewrite <- E', Ej. }
  intros ? s2 I2 E2 F2 [M2 H2]. assert (D2 : defs_but j s2).
  { intros t c' [[-> ->]|Hc']%H2; [auto|]. apply D1 in Hc' as [? ?]. split; [done|]. right.
    by rewrite (proj1 (fr_classes _ _ _ F2 ltac:(lia))). }
  assert (K2 : keys_in ks s2).
  { intros En. rewrite M2. by apply (keys_in_frame 2 ks s s1 ltac:(lia) F1 K). }
  eapply (runs_le 10 9); [lia|apply (runs_but 9 _ (fun c s' => class_is j c s' /\ keys_in ((method_keys dm ++ method_keys vm) ++ ks) s') j); [lia| |exact D2]|done].
  eapply (reads_bind 3); [lia|by apply ExtractTypeList_runs|]. intros ifs' s3 I3 E3 F3 H3.
  eapply (reads_bind 2); [lia|apply (GetOpt_runs 2 TypeItem); [done..|by apply GetType_runs]|]. intros ? s4 I4 E4 F4 H4.
  eapply (reads_bind 1); [lia|apply (GetOpt_runs 1 StringItem); [done..|by apply GetString_runs]|]. intros ? s5 I5 E5 F5 H5.
  eapply runs_lift; [exact Ecd|].
  eapply (reads_bind 4); [lia|by apply ParseEncodedField_all|]. intros ? s6 I6 E6 F6 [-> H6].
  eapply (reads_bind 4); [lia|by apply ParseEncodedField_all|]. intros ? s7 I7 E7 F7 [-> H7].
  assert (K7 : keys_in ks s7).
  { eapply (keys_in_frame 4); [lia|exact F7|]. eapply (keys_in_frame 4); [lia|exact F6|]. eapply (keys_in_frame 1); [lia|exact F5|].
    eapply (keys_in_frame 2); [lia|exact F4|]. by eapply (keys_in_frame 3); [lia|exact F3|]. }
  eapply (reads_bind 9); [lia|by apply (ParseEncodedMethod_all dm ks)|]. intros dm' s8 I8 E8 _ [H8 K8].
  eapply (reads_bind 9); [lia|by apply (ParseEncodedMethod_all vm (method_keys dm ++ ks))|]. intros vm' s9 I9 E9 _ [H9 K9].
  eapply (reads_bind 7); [lia|by apply ExtractEncodedArray_runs|]. intros sv' s10 I10 E10 F10 H10.
  eapply (reads_bind 8); [lia|by apply ExtractAnnotations_runs|]. intros an' s11 I11 E11 F11 H11.
  apply reads_ret; [done|]. split; [|eapply (keys_in_frame 8); [lia|exact F11|]; eapply (keys_in_frame 7); [lia|exact F10|];
    eapply keys_in_perm; [|exact K9]; by rewrite <- app_assoc, (app_assoc (method_keys vm)), (Permutation_app_comm (method_keys vm)), <- app_assoc].
  exists fl, su, ifs, src, an, cd, sv, sf, nf, dm, vm. cbn.
  do 5 (split; [done|]). do 6 (split; [keep|]). do 2 (split; [done|]). split; [apply Forall_app; split; keep|]. split; keep.
Qed.

(** The state with class [j]. *)
Definition with_class (j : Z) (c : Class_) (m : IndexMap) (s : reading) : reading :=
  set_used None m (with_ir (add_node_maps (set_class j c)
    (set_classes (classes (ir_ s) ++ [j]) (<[j := 0]> (class_index (ir_ s))) (ir_ s))) s).
Lemma class_entry j c m s j' : is_Some (class_index (ir_ (with_class j c m s)) !! j') <-> j' = j \/ is_Some (class_index (ir_ s) !! j').
Proof.
  cbn. destruct (decide (j' = j)) as [->|N]; [rewrite lookup_insert_eq; split; [auto|eauto]|].
  rewrite lookup_insert_ne by done. naive_solver.
Qed.
Lemma add_class_runs j c s : inv s -> 0 <= j -> class_index (ir_ s) !! j = None -> class_is j c s ->
  runs 11 (add_class nd j c) (fun _ s' => classes (ir_ s') = classes (ir_ s) ++ [j] /\ methods_lookup s' = methods_lookup s /\
    (defs_but j s -> defs_ok s')) s.
Proof.
  intros I Hj N Hc.
  assert (U : ~ used (used_ s None) (Z.to_nat j)).
  { intros U%(iv_classes_used _ I). rewrite Z2Nat.id, N in U by done. by destruct U. }
  destruct (MarkUsedIndex_ok nd (Z.to_nat j) _ U) as (m & Em & _ & Hm).
  set (s' := with_class j c m s).
  assert (E : ext s s').
  { split; eauto using grown_refl; [|intros; apply class_entry; by right].
    intros j' x Hj' H. cbn. rewrite lookup_insert_ne; [done|]. intros <-. rewrite N in Hj'. by destruct Hj'. }
  exists tt, s'. split; [|split; [|split; [done|split; [by split; [| | |lia|lia]|split; [done|split; [done|]]]]]].
  - unfold add_class, MarkUsed, lift, mbind, M_bind, get, put. cbn. by rewrite Em.
  - eapply inv_step; [exact I|exact E|apply I|apply I|apply I|by left|by left| | | | |apply I|by apply (lookups_same E), I].
    + cbn. apply NoDup_app. split; [apply I|]. split; [|apply NoDup_singleton].
      intros x Hx%(iv_classes _ I) ->%list_elem_of_singleton. rewrite N in Hx. by destruct Hx.
    + intros j'. unfold s'. rewrite class_entry, <- (iv_classes _ I). cbn. rewrite elem_of_app, list_elem_of_singleton. naive_solver.
    + intros i [->|Hi]%Hm; apply class_entry; [left; lia|right; by apply (iv_classes_used _ I)].
    + intros j' [->|H]%class_entry; [right|by left]. exists c. cbn. rewrite lookup_insert_eq. split; [done|]. by apply (class_is_ext E).
  - intros D t c' Hc'. destruct (D t c' Hc') as [-> Hd]. split; [done|]. by apply class_entry.
Qed.

Lemma GetClass_runs j s : inv s -> 0 <= j < kNoIndex -> class_ok j = true -> class_index (ir_ s) !! j = None -> defs_ok s ->
  (forall c, is_Some (class_index (ir_ s) !! c) -> class_type c <> class_type j) ->
  forall ks, keys_in ks s -> room (class_keys j) ks ->
  runs 11 (GetClass nd r node_hash j) (fun _ s' => classes (ir_ s') = classes (ir_ s) ++ [j] /\ defs_ok s' /\
    keys_in (class_keys j ++ ks) s') s.
Proof.
  intros I Hj T N D U ks K Hr. unfold GetClass. apply runs_check; [lia|]. apply runs_get. rewrite N.
  eapply (reads_bind 10); [lia|by apply (ParseClass_runs j s I T D U ks)|]. intros c s1 I1 E1 F1 [[H1 K1] D1].
  destruct (fr_classes _ _ _ F1 ltac:(lia)) as [Ei <-].
  eapply runs_le; [done|apply add_class_runs; [done|lia|by rewrite Ei|done]|]. intros ? s2 _ _ _ (H2 & M2 & D2).
  split; [done|]. split; [by apply D2|]. intros En. rewrite M2. by apply K1.
Qed.
End Tables.

Lemma section_count_small k c : header r k = Some c -> 0 <= c < 2 ^ 31 -> section_count r k = Some c.
Proof.
  intros H Hc. unfold section_count. rewrite H. cbn. rewrite sext_small by lia. by rewrite trunc_small by lia.
Qed.

Lemma well_formed_ok : well_formed = true -> tables_ok = true /\ nd || lookups_ok = true /\
  (header r hd_class_defs = Some class_count /\ exists base, section nd r hd_class_defs 32 = Some (class_count, base)) /\
  0 <= class_count < 2 ^ 31 /\ (forall j, 0 <= j < class_count -> class_ok j = true) /\
  NoDup (map class_type (seqZ 0 class_count)).
Proof.
  intros [[[TO ([n base] & Hs & _)%some_b_ok]%andb_true_iff (c & Hc & H)%some_b_ok]%andb_true_iff LO]%andb_true_iff.
  rewrite !andb_true_iff in H. destruct H as [[[H1 H2] H3] H4].
  assert (Ec : class_count = c) by (unfold class_count; by rewrite Hc). rewrite Ec. rewrite forallb_forall in H3.
  split_and!; try done; [|lia..| |by apply bool_decide_eq_true in H4].
  - exists base. rewrite Hs. pose proof Hs as Hs'. unfold section in Hs'. apply bind_Some in Hs' as (o & _ & Hs').
    rewrite (section_count_small _ _ Hc) in Hs' by lia. apply bind_Some in Hs' as (m & [= <-] & Hs').
    apply bind_Some in Hs' as (q & _ & [= <- _]). done.
  - intros j Hj. by apply H3, list_elem_of_In, elem_of_seqZ.
Qed.
Lemma class_type_inj i j : NoDup (map class_type (seqZ 0 class_count)) -> 0 <= i < class_count -> 0 <= j < class_count ->
  class_type i = class_type j -> i = j.
Proof.
  intros N Hi Hj E. assert (L : forall x, 0 <= x < class_count -> map class_type (seqZ 0 class_count) !! Z.to_nat x = Some (class_type x)).
  { intros x Hx. rewrite list_lookup_fmap, lookup_seqZ_lt by lia. cbn. by rewrite Z2Nat.id by lia. }
  pose proof (NoDup_lookup _ (Z.to_nat i) (Z.to_nat j) _ N (L i Hi)) as H. rewrite E in H. specialize (H (L j Hj)). lia.
Qed.

Context (node_hash : item -> Z -> Z).

(** The keys of the classes before [i], of [i] and of those behind it. *)
Definition keys_before (i : nat) : list MethodKey := concat (map class_keys (seqZ 0 (Z.of_nat i))).
Lemma keys_before_S i : keys_before (S i) = keys_before i ++ class_keys (Z.of_nat i).
Proof.
  unfold keys_before. rewrite Nat2Z.inj_succ, <- Z.add_1_r, seqZ_app by lia. rewrite map_app, concat_app, Z.add_0_l.
  change (seqZ (Z.of_nat i) 1) with [Z.of_nat i]. cbn [map concat]. by rewrite app_nil_r.
Qed.
Lemma room_for_class i n : (nd || lookups_ok = true) -> Z.of_nat (i + S n) = class_count -> room (class_keys (Z.of_nat i)) (keys_before i).
Proof.
  intros LO Hi E. destruct (lookups_are_ok LO E) as ((_ & _ & L) & _ & _ & N).
  assert (Ea : exists rest, all_keys = (keys_before i ++ class_keys (Z.of_nat i)) ++ rest).
  { unfold all_keys, keys_before. rewrite <- Hi, Nat2Z.inj_add, seqZ_app by lia. rewrite Z.add_0_l, map_app, concat_app.
    rewrite (seqZ_cons (Z.of_nat i)) by lia. cbn [map concat]. eexists. by rewrite <- app_assoc. }
  destruct Ea as [rest Ea]. rewrite Ea in L, N. apply NoDup_app in N as [N _]. rewrite (Permutation_app_comm (class_keys _)).
  split; [done|]. rewrite !length_app in *. lia.
Qed.

(** The classes from [i] on. *)
Lemma classes_runs n i s : well_formed = true -> inv s -> classes (ir_ s) = seqZ 0 (Z.of_nat i) -> Z.of_nat (i + n) = class_count ->
  defs_ok s -> keys_in node_hash (keys_before i) s ->
  runs 11 (forM_ i (fun i _ => CreateClassIr nd r node_hash (Z.of_nat i)) (repeat tt n)) (fun _ s' => classes (ir_ s') = seqZ 0 class_count) s.
Proof.
  intros (TO & LO & _ & Hc & Ho & Hu)%well_formed_ok.
  revert i s. induction n as [|n IH]; intros i s I Hs Hn D K; cbn [repeat forM_].
  - apply reads_ret; [done|]. rewrite Hs. f_equal. lia.
  - eapply (reads_bind 11); [done|apply (GetClass_runs TO LO node_hash) with (ks := keys_before i);
      [done|unfold kNoIndex; lia|apply Ho; lia| |done| |done|by apply (room_for_class i n)]|].
    + apply eq_None_not_Some. intros H%(iv_classes _ I). rewrite Hs, elem_of_seqZ in H. lia.
    + intros c H%(iv_classes _ I) E. rewrite Hs, elem_of_seqZ in H. apply class_type_inj in E; [lia|done|lia..].
    + intros ? s1 I1 E1 _ (H1 & D1 & K1). apply IH; [done| |lia|done|].
      * rewrite H1, Hs. symmetry. rewrite Nat2Z.inj_succ, <- Z.add_1_r, seqZ_app by lia. done.
      * eapply keys_in_perm; [|exact K1]. rewrite keys_before_S. apply Permutation_app_comm.
Qed.
Lemma CreateFullIr_runs s : well_formed = true -> inv s -> classes (ir_ s) = [] -> defs_ok s -> keys_in node_hash [] s ->
  runs 11 (CreateFullIr nd r node_hash) (fun _ s' => classes (ir_ s') = seqZ 0 class_count) s.
Proof.
  intros W I Hs D K. pose proof (well_formed_ok W) as (_ & _ & (_ & base & Hb) & Hl & _).
  eapply runs_lift; [exact Hb|]. apply classes_runs; [done|done|by rewrite Hs|lia|done|done].
Qed.

(** Nothing has been read yet. *)
Definition start (m : list byte) : reading := {| ir_ := empty_ir m; used_ := fun _ => newIndexMap; seen_ := fun _ => ∅;
  strings_lookup := newHashTable; prototypes_lookup := newHashTable; methods_lookup := newHashTable |}.
Lemma inv_empty m : inv (start m).
Proof.
  assert (None_is : forall j : Z, is_Some ((∅ : gmap Z Z) !! j) -> False) by (intros j; rewrite lookup_empty; by intros []).
  split; cbn; try done.
  - intros []; constructor.
  - intros [] j; (split; [by intros H%elem_of_nil|by intros ?%None_is]).
  - intros [] j H; by apply None_is in H.
  - intros [] j H; by apply None_is in H.
  - constructor.
  - intros j. split; [by intros H%elem_of_nil|by intros ?%None_is].
  - intros j H. by apply None_is in H.
  - intros _. destruct (newHashTable_ok HashString (@fst (list byte) Z)) as [Ok E].
    split; (split; [exact Ok|]; cbn [strings_lookup prototypes_lookup start]; rewrite E; split; constructor).
Qed.
Lemma defs_empty m : defs_ok (start m).
Proof. intros t c. unfold class_def_in. cbn. by rewrite lookup_empty. Qed.
Lemma keys_empty m : keys_in node_hash [] (start m).
Proof. intros _. destruct (newHashTable_ok (hash_method node_hash) (@fst MethodKey EncodedMethod)) as [Ok E]. split; [exact Ok|]. cbn [methods_lookup start]. by rewrite E. Qed.
End Spec.
