(* ===== verification/DexWriterSpec.v ===== *)
(** What [CreateImage] leaves in the sections and in the image. *)
From S2P Require Import Prelude Leb128 SlicerBuffer DexBytecode DexCode DexValue DexDebug DexDebugSpec DexTry.
From S2P Require Import DexOrder DexIr DexBuilder Sha1 DexWriter.

Abbreviation node_offsets_t := (node_kind -> gmap nat Z).

(** ** Appending to one section *)

(** The index sections. *)
Definition ids (im : Image) := (string_ids im, type_ids im, proto_ids im, field_ids im, method_ids im, class_defs im).

(** [im'] is [im] but for section [s], which is [x]. *)
Record step (s : section_id) (x : Section_) (im im' : Image) : Prop := {
  st_at : sections im' s = x;
  st_other : forall s', s' <> s -> sections im' s' = sections im s';
  st_nodes : node_offset_ im' = node_offset_ im;
  st_ids : ids im' = ids im }.

Lemma step_set s x im : step s x im (set_section s x im).
Proof. constructor; try done; cbn; [by rewrite decide_True|]. intros s' H. by rewrite decide_False. Qed.
Lemma step_refl s im : step s (sections im s) im im.
Proof. by constructor. Qed.
Lemma step_trans s x y im1 im2 im3 : step s x im1 im2 -> step s y im2 im3 -> step s y im1 im3.
Proof.
  intros [H1 H2 H3 H4] [K1 K2 K3 K4]. constructor; try congruence. intros s' H. rewrite K2 by done. by apply H2.
Qed.

Lemma run_inv {St A B} (c : M St A) (f : A -> M St B) s r : (c ≫= f) s = Some r -> exists a s', c s = Some (a, s') /\ f a s' = Some r.
Proof. unfold mbind, M_bind. destruct (c s) as [[a s']|]; [|done]. cbn. eauto. Qed.
Lemma mret_inv {St A} (a : A) (s : St) a' s' : (mret a : M St A) s = Some (a', s') -> a' = a /\ s' = s.
Proof. by intros [= <- <-]. Qed.
Lemma lift_inv {St A} (o : option A) (s : St) a s' : lift o s = Some (a, s') -> o = Some a /\ s' = s.
Proof. unfold lift. destruct o; [|done]. by intros [= -> ->]. Qed.
Lemma check_inv {St} nd b (s : St) a s' : check nd b s = Some (a, s') -> s' = s /\ (nd = false -> b = true).
Proof. unfold check, SLICER_CHECK. intros [H ->]%lift_inv. split; [done|]. intros ->. by destruct b. Qed.
Lemma on_inv {A} s (m : M Section_ A) im a im' : on s m im = Some (a, im') ->
  exists x, m (sections im s) = Some (a, x) /\ step s x im im'.
Proof.
  unfold on. destruct (m (sections im s)) as [[a' x]|]; [|done]. intros [= <- <-]. exists x. split; [done|apply step_set].
Qed.

Ltac run_step H := let a := fresh "a" in let im := fresh "im" in let E := fresh "E" in
  apply run_inv in H as (a & im & E & H).

Section Spec.
Context (nd : bool).

Lemma Push_inv bs x a x' : Push nd bs x = Some (a, x') -> x' = put_bytes bs x.
Proof.
  unfold Push. intros H. run_step H. injection E as <- <-. run_step H.
  apply check_inv in E as [-> _]. by injection H as <- <-.
Qed.

(** How far the next multiple of [align] is. *)
Definition pad_length (align n : Z) : nat := Z.to_nat (- n mod align).
Definition padding (align : Z) (bs : list byte) : list byte := repeat 0 (pad_length align (Z.of_nat (length bs))).

Lemma Align_inv align x a x' : 0 < align -> Align nd align x = Some (a, x') -> x' = put_bytes (padding align (bytes_ x)) x.
Proof.
  unfold Align. intros Ha H. run_step H. injection E as <- <-. unfold padding, pad_length.
  destruct (Z.eqb_spec (Z.of_nat (length (bytes_ x)) mod align) 0) as [Hz|Hz]; cbn [negb whenM] in H.
  - injection H as <- <-. rewrite Z.mod_opp_l_z by lia. cbn. unfold put_bytes. rewrite app_nil_r. by destruct x.
  - rewrite Z.mod_opp_l_nz by lia. by apply Push_inv in H.
Qed.

(** [c] does nothing but append to section [s]: from the nodes' offsets and a
    position in the section, it yields [a] and the bytes. *)
Definition appends {A} (s : section_id) (c : M Image A) (P : node_offsets_t -> A -> nat -> list byte -> Prop) : Prop :=
  forall im a im', c im = Some (a, im') -> exists bs,
    step s (put_bytes bs (sections im s)) im im' /\ P (node_offset_ im) a (length (bytes_ (sections im s))) bs.

Lemma appends_weaken {A} s (c : M Image A) (P Q : node_offsets_t -> A -> nat -> list byte -> Prop) : appends s c P ->
  (forall n a pos bs, P n a pos bs -> Q n a pos bs) -> appends s c Q.
Proof. intros H HPQ im a im' E. destruct (H im a im' E) as (bs & Hs & HP). exists bs. eauto. Qed.

Lemma put_bytes_nil x : put_bytes [] x = x.
Proof. unfold put_bytes. rewrite app_nil_r. by destruct x. Qed.
Lemma put_bytes_app a b x : put_bytes b (put_bytes a x) = put_bytes (a ++ b) x.
Proof. unfold put_bytes. cbn. by rewrite app_assoc. Qed.

Lemma appends_same {A} s (c : M Image A) (P : node_offsets_t -> A -> Prop) :
  (forall im a im', c im = Some (a, im') -> im' = im /\ P (node_offset_ im) a) ->
  appends s c (fun n a _ bs => P n a /\ bs = []).
Proof.
  intros H im a im' E. destruct (H im a im' E) as [-> HP]. exists []. rewrite put_bytes_nil. by split; [apply step_refl|].
Qed.
Lemma appends_ret {A} s (a : A) : appends s (mret a) (fun _ a' _ bs => a' = a /\ bs = []).
Proof. apply appends_same. by intros im a' im' [= <- <-]. Qed.
Lemma appends_lift {A} s (o : option A) : appends s (lift o) (fun _ a _ bs => o = Some a /\ bs = []).
Proof. apply appends_same. by intros im a im' [-> ->]%lift_inv. Qed.
Lemma appends_check s b : appends s (check nd b) (fun _ _ _ bs => (nd = false -> b = true) /\ bs = []).
Proof. apply appends_same. by intros im a im' [-> H]%check_inv. Qed.

(** A file pointer. *)
Definition pointer (n : node_offsets_t) (k : node_kind) (i : option nat) (p : Z) : Prop :=
  match i with None => p = 0 | Some i => n k !! i = Some p end.
Lemma appends_pointer s k i : appends s (FilePointer nd k i) (fun n p _ bs => pointer n k i p /\ bs = []).
Proof.
  apply appends_same. intros im p im' H. destruct i as [i|]; [|by injection H as <- <-].
  cbn in H. run_step H. injection E as <- <-. run_step H. apply lift_inv in E as [E ->]. run_step H.
  apply check_inv in E0 as [-> _]. by injection H as <- <-.
Qed.

Lemma appends_push s bs : appends s (on s (Push nd bs)) (fun _ _ _ b => b = bs).
Proof. intros im a im' (x & H & Hs)%on_inv. apply Push_inv in H as ->. by exists bs. Qed.
Lemma appends_align s align : 0 < align ->
  appends s (on s (Align nd align)) (fun _ _ pos b => b = repeat 0 (pad_length align (Z.of_nat pos))).
Proof. intros Ha im a im' (x & H & Hs)%on_inv. apply Align_inv in H as ->; [|done]. by eexists. Qed.

Lemma appends_bind {A B} s (c : M Image A) (f : A -> M Image B) P Q : appends s c P -> (forall a, appends s (f a) (Q a)) ->
  appends s (c ≫= f) (fun n b pos bs => exists a b1 b2, bs = b1 ++ b2 /\ P n a pos b1 /\ Q a n b (pos + length b1)%nat b2).
Proof.
  intros Hc Hf im b im' H. run_step H. destruct (Hc _ _ _ E) as (b1 & S1 & P1). destruct (Hf _ _ _ _ H) as (b2 & S2 & P2).
  rewrite (st_at _ _ _ _ S1), put_bytes_app in S2. rewrite (st_nodes _ _ _ _ S1), (st_at _ _ _ _ S1) in P2.
  cbn in P2. rewrite length_app in P2. exists (b1 ++ b2). split; [by eapply step_trans|]. by exists a, b1, b2.
Qed.

Lemma appends_uleb s v : appends s (PushULeb128 nd s v) (fun _ _ _ bs => uleb_bytes (u32 v) = Some bs).
Proof.
  eapply appends_weaken; [apply appends_bind; [apply appends_lift|intros bs; apply appends_push]|].
  intros n a pos bs (b & b1 & b2 & -> & [E ->] & ->). exact E.
Qed.
Lemma appends_u4 s v : appends s (PushU4 nd s v) (fun _ _ _ bs => bs = u4_bytes v).
Proof. apply appends_push. Qed.

Lemma appends_when s b (c : M Image unit) P : appends s c P ->
  appends s (whenM b c) (fun n a pos bs => if b then P n a pos bs else bs = []).
Proof. intros H. destruct b; [exact H|]. eapply appends_weaken; [apply appends_ret|]. by intros n u pos bs (_ & Hb). Qed.

Lemma appends_forM {A} s (f : nat -> A -> M Image unit) (P : node_offsets_t -> A -> list byte -> Prop) l : forall i,
  (forall j a, appends s (f j a) (fun n _ _ bs => P n a bs)) ->
  appends s (forM_ i f l) (fun n _ _ bs => exists bss, bs = concat bss /\ Forall2 (P n) l bss).
Proof.
  induction l as [|a l IH]; intros i Hf; cbn [forM_].
  - eapply appends_weaken; [apply appends_ret|]. intros n [] pos bs [_ ->]. by exists [].
  - eapply appends_weaken; [apply appends_bind; [apply Hf|intros u; by apply IH]|].
    intros n [] pos bs (u & b1 & b2 & -> & H & bss & -> & Hl). exists (b1 :: bss). split; [done|by constructor].
Qed.
Lemma appends_mapM {A B} s (f : A -> M Image B) (P : node_offsets_t -> A -> B -> Prop) l :
  (forall a, appends s (f a) (fun n b _ bs => P n a b /\ bs = [])) ->
  appends s (mapM_ f l) (fun n b _ bs => Forall2 (P n) l b /\ bs = []).
Proof.
  intros Hf. induction l as [|a l IH]; cbn [mapM_].
  - eapply appends_weaken; [apply appends_ret|]. intros n b pos bs [-> ->]. by split.
  - eapply appends_weaken; [apply appends_bind; [apply Hf|intros b; apply appends_bind; [apply IH|intros bs; apply appends_ret]]|].
    intros n b pos bs (b0 & b1 & b2 & Hb & [H H1] & bs0 & b3 & b4 & Hb2 & [Hl H3] & H4 & H5). subst. split; [by constructor|done].
Qed.

(** ** Items *)

Definition added (align : Z) (bs : list byte) (x : Section_) : Section_ :=
  {| bytes_ := (bytes_ x ++ padding align (bytes_ x)) ++ bs; count_ := u32 (count_ x + 1);
     offset_ := offset_ x; sealed := sealed x |}.
Definition item_pos (align : Z) (x : Section_) : nat := length (bytes_ x ++ padding align (bytes_ x)).

Lemma item_pos_aligned align x : 0 < align -> Z.of_nat (item_pos align x) mod align = 0.
Proof.
  intros H. unfold item_pos, padding, pad_length. rewrite length_app, repeat_length, Nat2Z.inj_add.
  rewrite Z2Nat.id by (apply Z.mod_pos_bound; lia). rewrite Zplus_mod_idemp_r.
  replace (_ + - _) with 0 by lia. apply Zmod_0_l.
Qed.

Lemma add_item_inv s align item P im o im' : 0 < align -> appends s item P -> add_item nd s align item im = Some (o, im') ->
  exists bs, step s (added align bs (sections im s)) im im' /\ P (node_offset_ im) tt (item_pos align (sections im s)) bs /\
    o = u32 (offset_ (sections im s) + u32 (Z.of_nat (item_pos align (sections im s)))).
Proof.
  intros Ha Hitem H. unfold add_item in H. run_step H. rename a into off. run_step H. destruct a as [].
  apply on_inv in E as (x1 & E & S1). unfold AddItem in E. run_step E. injection E1 as <- <-. run_step E.
  apply Align_inv in E1 as ->; [|done]. injection E as <- <-.
  destruct (Hitem _ _ _ E0) as (bs & S2 & HP). rewrite (st_at _ _ _ _ S1) in S2, HP. rewrite (st_nodes _ _ _ _ S1) in HP.
  apply on_inv in H as (x3 & E & S3). unfold AbsoluteOffset in E. run_step E. injection E1 as <- <-.
  run_step E. apply check_inv in E1 as [-> _]. run_step E. apply check_inv in E1 as [-> _]. injection E as <- <-.
  rewrite (st_at _ _ _ _ S2) in S3. exists bs. split; [exact (step_trans _ _ _ _ _ _ S1 (step_trans _ _ _ _ _ _ S2 S3))|].
  split; [exact HP|]. by rewrite (st_at _ _ _ _ S2).
Qed.

(** ** The formats of the items *)

Lemma uleb_bytes_of_u32 v bs : uleb_bytes (u32 v) = Some bs -> uleb_of bs (u32 v).
Proof.
  intros E rest. pose proof (trunc_range 32 v ltac:(lia)) as Hr. unfold uleb_bytes in E.
  destruct (uleb_roundtrip (u32 v) rest Hr) as (bs' & W & _ & R & _). rewrite W in E. cbn [mbind option_bind] in E.
  destruct (length bs' <=? 4)%nat; [|done]. by injection E as <-.
Qed.
End Spec.

(** A member's index: the first is itself, the others are differences. *)
Definition next_index (base d : Z) : Z := if base =? kNoIndex then d else u32 (base + d).

(** ["encoded_field"]: index and flags. ["encoded_method"]: with the code's offset. *)
Inductive fields_of : Z -> list byte -> list (Z * Z) -> Prop :=
  | fields_nil base : fields_of base [] []
  | fields_cons base a b bs d flags fs : uleb_of a d -> uleb_of b flags -> fields_of (next_index base d) bs fs ->
      fields_of base (a ++ b ++ bs) ((next_index base d, flags) :: fs).
Inductive methods_of : Z -> list byte -> list (Z * Z * Z) -> Prop :=
  | methods_nil base : methods_of base [] []
  | methods_cons base a b c bs d flags off ms : uleb_of a d -> uleb_of b flags -> uleb_of c off ->
      methods_of (next_index base d) bs ms ->
      methods_of base (a ++ b ++ c ++ bs) ((next_index base d, flags, off) :: ms).

(** ["class_data_item"]. *)
Inductive class_data_of : list byte -> list (Z * Z) -> list (Z * Z) -> list (Z * Z * Z) -> list (Z * Z * Z) -> Prop :=
  | class_data_intro n1 n2 n3 n4 b1 b2 b3 b4 sf inf dm vm :
      uleb_of n1 (Z.of_nat (length sf)) -> uleb_of n2 (Z.of_nat (length inf)) ->
      uleb_of n3 (Z.of_nat (length dm)) -> uleb_of n4 (Z.of_nat (length vm)) ->
      fields_of kNoIndex b1 sf -> fields_of kNoIndex b2 inf -> methods_of kNoIndex b3 dm -> methods_of kNoIndex b4 vm ->
      class_data_of (n1 ++ n2 ++ n3 ++ n4 ++ b1 ++ b2 ++ b3 ++ b4) sf inf dm vm.

Section Items.
Context (nd : bool) (ir : DexFile).
Abbreviation idx := (index ir).

(** The item of each kind of node, given the offsets of those it points to. *)
Definition type_list_bytes (ts : list Z) : list byte :=
  u4_bytes (Z.of_nat (length ts)) ++ concat (map (fun t => u2_bytes (idx TypeItem t)) ts).
Definition type_list_item (n : node_offsets_t) (ts : list Z) (bs : list byte) : Prop := bs = type_list_bytes ts.
Definition debug_item (n : node_offsets_t) (info : DebugInfo) (bs : list byte) : Prop :=
  DexDebug.WriteDebugInfo nd (indexes ir) info = Some bs.
Definition annotation_bytes (n : node_offsets_t) (a : Annotation) (bs : list byte) : Prop :=
  exists b, WriteAnnotation nd idx (a_type a) (elements a) = Some b /\ bs = u8 (visibility a) :: b.
Definition pointers_item (k : node_kind) (n : node_offsets_t) (l : list nat) (bs : list byte) : Prop :=
  exists ps, Forall2 (fun i p => pointer n k (Some i) p) l ps /\ bs = u4_bytes (Z.of_nat (length l)) ++ concat (map u4_bytes ps).
Definition array_item (n : node_offsets_t) (vs : list EncodedValue) (bs : list byte) : Prop :=
  WriteEncodedArray nd idx vs = Some bs.
(** The try items are aligned, and the code item is. *)
Definition code_item (n : node_offsets_t) (c : Code) (bs : list byte) : Prop :=
  exists debug insns tail, pointer n DebugInfoNode (code_debug_info c) debug /\
    WriteInstructions nd (indexes ir) (instructions c) = Some insns /\
    bs = code_header c debug ++ concat (map u2_bytes insns) ++ tail /\
    match try_blocks c with
    | [] => tail = []
    | _ => exists tries handlers, WriteTryBlocks nd (indexes ir) (try_blocks c) (catch_handlers c) = Some (tries, handlers) /\
        tail = repeat 0 (pad_length 4 (2 * Z.of_nat (length insns))) ++ concat (map try_bytes tries) ++ handlers
    end.
Definition field_entry (f : EncodedField) : Z * Z := (idx FieldItem (f_decl f), u32 (f_access_flags f)).
Definition method_entry (n : node_offsets_t) (m : EncodedMethod) (e : Z * Z * Z) : Prop :=
  e.1 = (idx MethodItem (m_decl m), u32 (m_access_flags m)) /\ exists off, pointer n CodeNode (m_code m) off /\ e.2 = u32 off.
Definition class_data (n : node_offsets_t) (c : Class_) (bs : list byte) : Prop :=
  exists dm vm, Forall2 (method_entry n) (direct_methods c) dm /\ Forall2 (method_entry n) (virtual_methods c) vm /\
    (Z.of_nat (length (static_fields c) + length (instance_fields c) + length (direct_methods c) + length (virtual_methods c)) < 2 ^ 32 ->
     class_data_of bs (map field_entry (static_fields c)) (map field_entry (instance_fields c)) dm vm).
Definition directory_item (n : node_offsets_t) (dir : AnnotationsDirectory) (bs : list byte) : Prop :=
  exists cls fs ms ps, pointer n AnnotationSetNode (class_annotation dir) cls /\
    Forall2 (fun e p => pointer n AnnotationSetNode (Some e.2) p) (field_annotations dir) fs /\
    Forall2 (fun e p => pointer n AnnotationSetNode (Some e.2) p) (method_annotations dir) ms /\
    Forall2 (fun e p => pointer n AnnotationSetRefListNode (Some e.2) p) (param_annotations dir) ps /\
    let pairs k l qs := concat (zip_with (fun (e : Z * nat) p => u4_bytes (idx k e.1) ++ u4_bytes p) l qs) in
    bs = concat (map u4_bytes [cls; Z.of_nat (length (field_annotations dir)); Z.of_nat (length (method_annotations dir));
                               Z.of_nat (length (param_annotations dir))]) ++
         pairs FieldItem (field_annotations dir) fs ++ pairs MethodItem (method_annotations dir) ms ++
         pairs MethodItem (param_annotations dir) ps.

(** [write] adds an item that satisfies [R] to a section, or returns 0 where
    [skip] holds. *)
Definition emitted (s : section_id) (align : Z) (R : node_offsets_t -> list byte -> Prop) (im : Image) (o : Z) (im' : Image) : Prop :=
  exists bs, R (node_offset_ im) bs /\ step s (added align bs (sections im s)) im im' /\
    o = u32 (offset_ (sections im s) + u32 (Z.of_nat (item_pos align (sections im s)))).
Definition emits {A} (s : section_id) (align : Z) (skip : A -> bool) (write : A -> M Image Z)
    (R : node_offsets_t -> A -> list byte -> Prop) : Prop :=
  forall a im o im', write a im = Some (o, im') ->
    if skip a then o = 0 /\ im' = im else emitted s align (fun n => R n a) im o im'.
Definition never {A} (_ : A) : bool := false.

Lemma emit_item s align item P (R : node_offsets_t -> list byte -> Prop) im o im' : 0 < align -> appends s item P ->
  (forall n pos bs, Z.of_nat pos mod align = 0 -> P n tt pos bs -> R n bs) ->
  add_item nd s align item im = Some (o, im') -> emitted s align R im o im'.
Proof.
  intros Ha Hi HR H. destruct (add_item_inv nd s align _ _ im o im' Ha Hi H) as (bs & Hs & HP & Ho).
  exists bs. split_and!; [|done|done]. eapply HR; [|exact HP]. by apply item_pos_aligned.
Qed.

Lemma emits_type_list : emits type_lists_sec 4 (fun ts => bool_decide (ts = [])) (WriteTypeList nd ir) type_list_item.
Proof.
  intros ts im o im' H. case_bool_decide as Hts; [subst ts; by injection H as <- <-|].
  assert (H' : add_item nd type_lists_sec 4 (
        PushU4 nd type_lists_sec (Z.of_nat (length ts)) ;;
        on type_lists_sec (Push nd (concat (map (fun t => u2_bytes (idx TypeItem t)) ts)))) im = Some (o, im')) by (by destruct ts).
  clear H. eapply emit_item; [| | |exact H']; [lia| |].
  - apply appends_bind; [apply appends_u4|intros u; apply appends_push].
  - intros n pos bs _ (u & b1 & b2 & -> & -> & ->). done.
Qed.
Lemma emits_debug : emits debug_info_sec 1 never (WriteDebugInfo nd ir) debug_item.
Proof.
  intros info im o im'. apply emit_item with (P := fun n u pos bs => debug_item n info bs); [lia| |by intros].
  eapply appends_weaken; [apply appends_bind; [apply appends_lift|intros bs; apply appends_push]|].
  intros n u pos bs (b & b1 & b2 & -> & [E ->] & ->). exact E.
Qed.
Lemma emits_annotation a im o im' : WriteAnnotationItem nd ir a im = Some (o, im') ->
  emitted ann_items_sec 1 (fun n => annotation_bytes n a) im o im'.
Proof.
  intros H. unfold WriteAnnotationItem in H. run_step H. apply check_inv in E as [-> _].
  eapply emit_item; [| | |exact H]; [lia| |].
  - apply appends_bind; [apply appends_push|intros u]. apply appends_bind; [apply appends_lift|intros bs; apply appends_push].
  - intros n pos bs _ (u & b1 & b2 & -> & -> & b & b3 & b4 & -> & [E' ->] & ->). by exists b.
Qed.
Lemma emits_pointers s k : emits s 4 never (write_pointers nd s k) (pointers_item k).
Proof.
  intros l im o im' H. eapply emit_item; [| | |exact H]; [lia| |].
  - apply appends_bind; [apply appends_u4|intros u].
    apply (appends_forM s _ (fun n i bs => exists p, pointer n k (Some i) p /\ bs = u4_bytes p)). intros j i.
    eapply appends_weaken; [apply appends_bind; [apply appends_pointer|intros p; apply appends_u4]|].
    intros n u' pos bs (p & b1 & b2 & -> & [Hp ->] & ->). by exists p.
  - intros n pos bs _ (u & b1 & b2 & -> & -> & bss & -> & Hl). unfold pointers_item.
    assert (exists ps, Forall2 (fun i p => pointer n k (Some i) p) l ps /\ bss = map u4_bytes ps) as (ps & Hps & ->); [|by exists ps].
    clear - Hl. induction Hl as [|i b l bss Hb Hl IH]; [by exists []|]. destruct Hb as (p & Hp & ->), IH as (ps & Hps & ->).
    exists (p :: ps). split; [by constructor|done].
Qed.

Lemma pad_length_add align a b : 0 < align -> a mod align = 0 -> pad_length align (a + b) = pad_length align b.
Proof.
  intros Ha Hm. unfold pad_length. f_equal. replace (- (a + b)) with (- b + (- (a / align)) * align).
  - by rewrite Z.mod_add by lia.
  - pose proof (Z.div_mod a align ltac:(lia)). lia.
Qed.
Lemma length_u2_bytes l : length (concat (map u2_bytes l)) = (2 * length l)%nat.
Proof. induction l as [|x l IH]; [done|]. cbn [map concat length]. rewrite length_app, IH. unfold u2_bytes. rewrite length_le_bytes. lia. Qed.
Lemma length_code_header c debug : length (code_header c debug) = 16%nat.
Proof. done. Qed.

Lemma emits_code : emits code_sec 4 never (WriteCode nd ir) code_item.
Proof.
  intros c im o im' H. unfold WriteCode in H. run_step H. rename a into debug.
  destruct (appends_pointer nd code_sec _ _ _ _ _ E) as (b0 & Sb & Hp & ->). rewrite put_bytes_nil in Sb.
  apply (emit_item code_sec 4 _ (fun n u pos bs => exists insns tail,
      WriteInstructions nd (indexes ir) (instructions c) = Some insns /\
      bs = code_header c debug ++ concat (map u2_bytes insns) ++ tail /\
      if negb (Z.of_nat (length (try_blocks c)) =? 0) then
        exists t, WriteTryBlocks nd (indexes ir) (try_blocks c) (catch_handlers c) = Some t /\
          tail = repeat 0 (pad_length 4 (Z.of_nat (pos + 16 + 2 * length insns))) ++ concat (map try_bytes t.1) ++ t.2
      else tail = [])
    (fun n bs => pointer n DebugInfoNode (code_debug_info c) debug -> code_item n c bs)) in H.
  - destruct H as (bs & Hc & S1 & Ho). rewrite (st_at _ _ _ _ Sb) in S1, Ho. rewrite (st_nodes _ _ _ _ Sb) in Hc.
    exists bs. split_and!; [by apply Hc|by eapply step_trans|done].
  - lia.
  - eapply appends_weaken.
    + apply appends_bind; [apply appends_push|intros u1]. apply appends_bind; [apply appends_lift|intros insns].
      apply appends_bind; [apply appends_push|intros u2]. apply appends_when.
      apply appends_bind; [by apply appends_align|intros u3]. apply appends_bind; [apply appends_lift|intros t]. apply appends_push.
    + intros n u pos bs (u1 & b1 & b2 & -> & -> & insns & b3 & b4 & -> & [Hi ->] & u2 & b5 & b6 & -> & -> & Ht).
      exists insns, b6. split_and!; [done|done|]. destruct (negb _); [|done].
      destruct Ht as (u3 & b7 & b8 & -> & -> & t & b9 & b10 & -> & [Hw ->] & ->). exists t. split; [done|].
      rewrite length_u2_bytes, length_code_header. cbn [app length]. do 3 f_equal. lia.
  - intros n pos bs Hpos (insns & tail & Hi & -> & Ht) Hptr. exists debug, insns, tail. split_and!; [done|done|done|].
    destruct (try_blocks c) as [|t0 ts]; [done|]. cbn [length] in Ht.
    destruct (Z.eqb_spec (Z.of_nat (S (length ts))) 0); [lia|]. destruct Ht as ([tries handlers] & Hw & ->).
    exists tries, handlers. split; [done|]. cbn [fst snd]. do 2 f_equal.
    replace (Z.of_nat (pos + 16 + 2 * length insns)) with ((Z.of_nat pos + 16) + 2 * Z.of_nat (length insns)) by lia.
    apply pad_length_add; [lia|]. rewrite Z.add_mod, Hpos by lia. done.
Qed.
Lemma u32_u32 x : u32 (u32 x) = u32 x.
Proof. apply trunc_trunc. lia. Qed.

Lemma appends_delta s k x base : appends s (index_delta nd (idx k x) base)
  (fun _ d _ bs => bs = [] /\ u32 d = d /\ next_index base d = idx k x).
Proof.
  eapply appends_weaken; [apply appends_bind; [apply appends_check|intros u]|].
  - instantiate (1 := fun _ _ d _ bs => bs = [] /\ u32 d = d /\ next_index base d = idx k x). unfold next_index.
    destruct (Z.eqb_spec base kNoIndex) as [->|Hb]; cbn [negb].
    + eapply appends_weaken; [apply appends_ret|]. intros n d pos bs [-> ->]. split_and!; [done|apply u32_u32|done].
    + eapply appends_weaken; [apply appends_bind; [apply appends_check|intros u'; apply appends_ret]|].
      intros n d pos bs (u' & b1 & b2 & -> & [_ ->] & -> & ->). split_and!; [done|apply u32_u32|].
      rewrite trunc_add_r. replace (base + (idx k x - base)) with (idx k x) by lia. apply u32_u32.
  - intros n d pos bs (u & b1 & b2 & -> & [_ ->] & -> & H). done.
Qed.

Lemma appends_fields l : forall base, appends class_data_sec (WriteEncodedFields nd ir base l)
  (fun _ _ _ bs => fields_of base bs (map field_entry l)).
Proof.
  induction l as [|f l IH]; intros base; cbn [WriteEncodedFields].
  - eapply appends_weaken; [apply appends_ret|]. intros n u pos bs [_ ->]. constructor.
  - eapply appends_weaken.
    + apply appends_bind; [apply appends_delta|intros d]. apply appends_bind; [apply appends_uleb|intros u1].
      apply appends_bind; [apply appends_uleb|intros u2]. apply IH.
    + intros n u pos bs (d & b1 & b2 & -> & (-> & Hd & Hi) & u1 & b3 & b4 & -> & H3 & u2 & b5 & b6 & -> & H5 & H6).
      apply uleb_bytes_of_u32 in H3, H5. rewrite Hd in H3. cbn [app map]. unfold field_entry at 1. rewrite <- Hi.
      constructor; [done|done|]. by rewrite Hi.
Qed.
Lemma appends_methods l : forall base, appends class_data_sec (WriteEncodedMethods nd ir base l)
  (fun n _ _ bs => exists ms, Forall2 (method_entry n) l ms /\ methods_of base bs ms).
Proof.
  induction l as [|m l IH]; intros base; cbn [WriteEncodedMethods].
  - eapply appends_weaken; [apply appends_ret|]. intros n u pos bs [_ ->]. exists []. split; constructor.
  - eapply appends_weaken.
    + apply appends_bind; [apply appends_delta|intros d]. apply appends_bind; [apply appends_pointer|intros off].
      apply appends_bind; [apply appends_uleb|intros u1]. apply appends_bind; [apply appends_uleb|intros u2].
      apply appends_bind; [apply appends_uleb|intros u3]. apply IH.
    + intros n u pos bs (d & b1 & b2 & -> & (-> & Hd & Hi) & off & b3 & b4 & -> & [Hp ->] & u1 & b5 & b6 & -> & H5 &
        u2 & b7 & b8 & -> & H7 & u3 & b9 & b10 & -> & H9 & ms & Hl & Hms).
      apply uleb_bytes_of_u32 in H5, H7, H9. rewrite Hd in H5. cbn [app].
      exists ((next_index base d, u32 (m_access_flags m), u32 off) :: ms). split.
      * constructor; [|done]. split; [cbn; by rewrite Hi|]. by exists off.
      * constructor; [done|done|done|]. by rewrite Hi.
Qed.

Definition no_members (c : Class_) : bool :=
  match static_fields c, instance_fields c, direct_methods c, virtual_methods c with [], [], [], [] => true | _, _, _, _ => false end.

Lemma emits_class_data : emits class_data_sec 1 no_members (WriteClassData nd ir) class_data.
Proof.
  intros c im o im' H. unfold no_members.
  assert (H' : match static_fields c, instance_fields c, direct_methods c, virtual_methods c with
    | [], [], [], [] => o = 0 /\ im' = im
    | sf, inf, dm, vm => add_item nd class_data_sec 1 (
        PushULeb128 nd class_data_sec (Z.of_nat (length sf)) ;;
        PushULeb128 nd class_data_sec (Z.of_nat (length inf)) ;;
        PushULeb128 nd class_data_sec (Z.of_nat (length dm)) ;;
        PushULeb128 nd class_data_sec (Z.of_nat (length vm)) ;;
        WriteEncodedFields nd ir kNoIndex sf ;; WriteEncodedFields nd ir kNoIndex inf ;;
        WriteEncodedMethods nd ir kNoIndex dm ;; WriteEncodedMethods nd ir kNoIndex vm) im = Some (o, im')
    end).
  { unfold WriteClassData in H. destruct (static_fields c), (instance_fields c), (direct_methods c), (virtual_methods c); try exact H.
    by injection H as <- <-. }
  clear H. assert (Hitem : forall sf inf dm vm, sf = static_fields c -> inf = instance_fields c -> dm = direct_methods c -> vm = virtual_methods c ->
    add_item nd class_data_sec 1 (
        PushULeb128 nd class_data_sec (Z.of_nat (length sf)) ;;
        PushULeb128 nd class_data_sec (Z.of_nat (length inf)) ;;
        PushULeb128 nd class_data_sec (Z.of_nat (length dm)) ;;
        PushULeb128 nd class_data_sec (Z.of_nat (length vm)) ;;
        WriteEncodedFields nd ir kNoIndex sf ;; WriteEncodedFields nd ir kNoIndex inf ;;
        WriteEncodedMethods nd ir kNoIndex dm ;; WriteEncodedMethods nd ir kNoIndex vm) im = Some (o, im') ->
    emitted class_data_sec 1 (fun n => class_data n c) im o im').
  { intros sf inf dm vm -> -> -> -> H. eapply emit_item; [| | |exact H]; [lia| |].
    - do 4 (apply appends_bind; [apply appends_uleb|intros ?]). do 2 (apply appends_bind; [apply appends_fields|intros ?]).
      apply appends_bind; [apply appends_methods|intros ?]. apply appends_methods.
    - intros n pos bs _ (? & b1 & ? & -> & H1 & ? & b2 & ? & -> & H2 & ? & b3 & ? & -> & H3 & ? & b4 & ? & -> & H4 &
        ? & b5 & ? & -> & H5 & ? & b6 & ? & -> & H6 & ? & b7 & b8 & -> & (dm & Hdm & H7) & vm & Hvm & H8).
      exists dm, vm. split_and!; [done|done|]. intros Hlt. apply uleb_bytes_of_u32 in H1, H2, H3, H4.
      rewrite trunc_small in H1, H2, H3, H4 by lia.
      constructor; rewrite ?length_map; rewrite <- ?(Forall2_length _ _ _ Hdm), <- ?(Forall2_length _ _ _ Hvm); done. }
  destruct (static_fields c), (instance_fields c), (direct_methods c), (virtual_methods c); try exact H'; by eapply Hitem.
Qed.
End Items.

(** ** The sections of nodes *)

(** An item in a section: its offset in the file, modulo 2{^32}, and its bytes. *)
Definition item_at (align : Z) (x : Section_) (o : Z) (bs : list byte) : Prop :=
  exists pre post, bytes_ x = pre ++ bs ++ post /\ Z.of_nat (length pre) mod align = 0 /\
    o = u32 (offset_ x + u32 (Z.of_nat (length pre))).

(** [x'] is [x] with [m] more items. *)
Record grows (m : nat) (x x' : Section_) : Prop := {
  gs_bytes : bytes_ x `prefix_of` bytes_ x';
  gs_count : count_ x' = u32 (count_ x + Z.of_nat m);
  gs_offset : offset_ x' = offset_ x;
  gs_none : m = 0%nat -> bytes_ x = [] -> bytes_ x' = [] }.

(** What a part of the writer may change: section [s], and the offsets of the
    nodes of kind [k]. *)
Record frame (s : section_id) (k : node_kind) (im im' : Image) : Prop := {
  fr_sections : forall s', s' <> s -> sections im' s' = sections im s';
  fr_nodes : forall k', k' <> k -> node_offset_ im' k' = node_offset_ im k' }.

Lemma frame_refl s k im : frame s k im im.
Proof. by constructor. Qed.
Lemma frame_trans s k im1 im2 im3 : frame s k im1 im2 -> frame s k im2 im3 -> frame s k im1 im3.
Proof. intros [H1 H2] [K1 K2]. constructor; intros x Hx; [rewrite K1 by done; auto|rewrite K2 by done; auto]. Qed.
Lemma step_frame s k x im im' : step s x im im' -> frame s k im im'.
Proof. intros [H1 H2 H3 H4]. constructor; [done|]. intros k' _. by rewrite H3. Qed.
Lemma set_node_frame s k i o im : frame s k im (set_node_offset k i o im).
Proof. constructor; [done|]. intros k' H. cbn. by rewrite decide_False. Qed.

Definition u32_ok (x : Z) : Prop := u32 x = x.
Lemma section_grows_refl x : u32_ok (count_ x) -> grows 0 x x.
Proof. intros H. constructor; try done. by rewrite Z.add_0_r. Qed.
Lemma section_grows_trans m m' x y z : grows m x y -> grows m' y z -> grows (m + m') x z.
Proof.
  intros [H1 H2 H3 H4] [K1 K2 K3 K4]. constructor; [by etrans| |congruence|].
  - rewrite K2, H2, trunc_add_l. f_equal. lia.
  - intros Hm Hx. apply K4; [lia|]. apply H4; [lia|done].
Qed.
Lemma grows_added align bs x : grows 1 x (added align bs x).
Proof. constructor; try done. cbn. rewrite <- app_assoc. by eexists. Qed.
Lemma grows_count m x y : grows m x y -> u32_ok (count_ y).
Proof. intros H. unfold u32_ok. rewrite (gs_count _ _ _ H). apply u32_u32. Qed.

Lemma item_at_grows align m x y o bs : grows m x y -> item_at align x o bs -> item_at align y o bs.
Proof.
  intros [[more Hb] _ Ho _] (pre & post & Hx & Hp & ->). exists pre, (post ++ more). rewrite Ho.
  split; [by rewrite Hb, Hx, <- !app_assoc|done].
Qed.
Lemma item_at_added align bs x : 0 < align ->
  item_at align (added align bs x) (u32 (offset_ x + u32 (Z.of_nat (item_pos align x)))) bs.
Proof.
  intros Ha. exists (bytes_ x ++ padding align (bytes_ x)), []. split; [by rewrite app_nil_r|].
  split; [by apply item_pos_aligned|done].
Qed.

(** The kinds of node that a class refers to; no other node does. *)
Definition of_class (k : node_kind) : bool :=
  match k with EncodedArrayNode | AnnotationsDirectoryNode => true | _ => false end.
(** Offsets of the others, once given, stay. *)
Definition nodes_le (n n' : node_offsets_t) : Prop :=
  forall k i p, of_class k = false -> n k !! i = Some p -> n' k !! i = Some p.
Definition monotone {A} (R : node_offsets_t -> A -> list byte -> Prop) : Prop :=
  forall n n' a bs, nodes_le n n' -> R n a bs -> R n' a bs.
Lemma nodes_le_refl n : nodes_le n n.
Proof. by intros k i p _. Qed.
Lemma nodes_le_trans n1 n2 n3 : nodes_le n1 n2 -> nodes_le n2 n3 -> nodes_le n1 n3.
Proof. intros H K k i p Hk E. by apply K, H. Qed.
Lemma nodes_le_set k i o im : node_offset_ im k !! i = None -> nodes_le (node_offset_ im) (node_offset_ (set_node_offset k i o im)).
Proof.
  intros H k' j p _ E. cbn. case_decide as Hk; [subst k'|done]. rewrite lookup_insert_ne; [done|]. intros ->. congruence.
Qed.

Section Loops.
Context (s : section_id) (align : Z) (align_pos : 0 < align) (k : node_kind).
Context {A : Type} (skip : A -> bool) (R : node_offsets_t -> A -> list byte -> Prop) (R_mono : monotone R).

(** Where the writer put [a]. *)
Definition located (n : node_offsets_t) (x : Section_) (a : A) (o : Z) : Prop :=
  if skip a then o = 0 else exists bs, R n a bs /\ item_at align x o bs.

Lemma located_mono n n' m x x' a o : nodes_le n n' -> grows m x x' -> located n x a o -> located n' x' a o.
Proof.
  unfold located. intros Hn Hx. destruct (skip a); [done|]. intros (bs & HR & Hi). exists bs. split; [by eapply R_mono|by eapply item_at_grows].
Qed.

Lemma emits_located write a im o im' : emits s align skip write R -> u32_ok (count_ (sections im s)) -> write a im = Some (o, im') ->
  frame s k im im' /\ node_offset_ im' = node_offset_ im /\ ids im' = ids im /\
  grows (if skip a then 0 else 1) (sections im s) (sections im' s) /\ located (node_offset_ im') (sections im' s) a o.
Proof.
  intros Hw Hc H. unfold located. specialize (Hw _ _ _ _ H). destruct (skip a).
  - destruct Hw as [-> ->]. split_and!; try done. by apply section_grows_refl.
  - destruct Hw as (bs & HR & S1 & ->). rewrite (st_nodes _ _ _ _ S1), (st_at _ _ _ _ S1). split_and!; try done.
    + by eapply step_frame.
    + apply (st_ids _ _ _ _ S1).
    + apply grows_added.
    + exists bs. split; [done|]. by apply item_at_added.
Qed.

(** A loop that writes the nodes that are not omitted and notes their offsets. *)
Lemma node_loop (k_other : of_class k = false) (omit : A -> bool) write (body : nat -> A -> M Image unit) l :
  emits s align skip write R ->
  (forall i a im (u : unit) im', body i a im = Some (u, im') ->
     if omit a then im' = im else exists o im1, write a im = Some (o, im1) /\ im' = set_node_offset k i o im1) ->
  forall i im (u : unit) im', (forall j, (i <= j)%nat -> node_offset_ im k !! j = None) -> u32_ok (count_ (sections im s)) ->
  forM_ i body l im = Some (u, im') ->
  frame s k im im' /\ ids im' = ids im /\ nodes_le (node_offset_ im) (node_offset_ im') /\
  grows (length (List.filter (fun a => negb (omit a || skip a)) l)) (sections im s) (sections im' s) /\
  (forall j a, l !! j = Some a -> omit a = false ->
     exists o, node_offset_ im' k !! (i + j)%nat = Some o /\ located (node_offset_ im') (sections im' s) a o).
Proof.
  intros Hw Hb. induction l as [|a l IH]; intros i im u im' Hn Hc H; cbn [forM_] in H.
  - injection H as <- <-. split_and!; [apply frame_refl|done|apply nodes_le_refl|by apply section_grows_refl|done].
  - run_step H. specialize (Hb _ _ _ _ _ E). cbn [List.filter]. destruct (omit a) eqn:Ho; cbn [orb negb].
    + subst im0. destruct (IH (S i) _ _ _ ltac:(intros j Hj; apply Hn; lia) Hc H) as (F & Hi & Hle & G & L).
      split_and!; [done|done|done|done|]. intros [|j] b Hj Hob; [injection Hj as <-; congruence|]. rewrite <- Nat.add_succ_comm. by apply L.
    + destruct Hb as (o & im1 & Ew & ->). destruct (emits_located _ _ _ _ _ Hw Hc Ew) as (F1 & N1 & I1 & G1 & L1).
      set (im2 := set_node_offset k i o im1) in *.
      assert (Hle1 : nodes_le (node_offset_ im) (node_offset_ im2)).
      { rewrite <- N1. apply nodes_le_set. rewrite N1. by apply Hn. }
      assert (Hn2 : forall j, (S i <= j)%nat -> node_offset_ im2 k !! j = None).
      { intros j Hj. cbn. rewrite decide_True by done. rewrite lookup_insert_ne by lia. rewrite N1. apply Hn. lia. }
      destruct (IH (S i) im2 _ _ Hn2 (grows_count _ _ _ G1) H) as (F & Hi & Hle & G & L).
      assert (Hat : node_offset_ im2 k !! i = Some o) by (cbn; rewrite decide_True by done; apply lookup_insert_eq).
      split_and!.
      * eapply frame_trans; [exact F1|]. eapply frame_trans; [apply set_node_frame|exact F].
      * by rewrite Hi.
      * by eapply nodes_le_trans.
      * pose proof (section_grows_trans _ _ _ _ _ G1 G) as G2. destruct (skip a); exact G2.
      * intros [|j] b Hj Hob; [|rewrite <- Nat.add_succ_comm; by apply L]. injection Hj as <-. rewrite Nat.add_0_r.
        exists o. split; [by apply Hle|]. eapply located_mono; [exact Hle|exact G|].
        eapply located_mono; [exact (nodes_le_set k i o im1 ltac:(rewrite N1; by apply Hn))|apply section_grows_refl, (grows_count _ _ _ G1)|exact L1].
Qed.
End Loops.

Lemma frame_nodes_le s k im im' : of_class k = true -> frame s k im im' -> nodes_le (node_offset_ im) (node_offset_ im').
Proof. intros Hk [_ H] k' i p Hk' E. rewrite H; [done|]. intros ->. congruence. Qed.

(** ** The index sections *)

Lemma update_at_inv {T} nd i f (x y : Index T) : update_at nd i f x = Some y ->
  exists v, values_ x !! i = Some v /\ values_ y = <[i := f v]> (values_ x) /\ ix_offset y = ix_offset x /\ ix_count y = ix_count x.
Proof.
  unfold update_at. destruct (SLICER_CHECK _ _); [|done]. cbn. destruct (values_ x !! i) as [v|]; [|done].
  intros [= <-]. by exists v.
Qed.

(** [y] is [x] with the values from number [i] on changed as [Q] says. *)
Record updated {T} (i n : nat) (Q : nat -> T -> T -> Prop) (x y : Index T) : Prop := {
  up_offset : ix_offset y = ix_offset x;
  up_count : ix_count y = ix_count x;
  up_length : length (values_ y) = length (values_ x);
  up_before : forall j, (j < i)%nat -> values_ y !! j = values_ x !! j;
  up_at : forall j, (j < n)%nat -> exists v v', values_ x !! (i + j)%nat = Some v /\ values_ y !! (i + j)%nat = Some v' /\ Q j v v' }.

(** The loops that set a value for each element: [ix] and [setix] access the index
    section, [rest] has the others. *)
Section IndexLoop.
Context (nd : bool) (s : section_id) (k : node_kind) {A T B : Type}.
Context (ix : Image -> Index T) (setix : Index T -> Image -> Image) (rest : Image -> B).
Context (ix_set : forall x im, ix (setix x im) = x) (rest_set : forall x im, rest (setix x im) = rest im).
Context (setix_sections : forall x im, sections (setix x im) = sections im /\ node_offset_ (setix x im) = node_offset_ im).
Context (ids_parts : forall im im', ids im' = ids im -> ix im' = ix im /\ rest im' = rest im).
Context (Inv : node_offsets_t -> Section_ -> Prop) (P : A -> Z -> node_offsets_t -> Section_ -> Prop).

(** What writing the item of one element does. *)
Definition element_written (a : A) (im : Image) (o : Z) (im' : Image) : Prop :=
  frame s k im im' /\ ids im' = ids im /\ nodes_le (node_offset_ im) (node_offset_ im') /\
  (exists m, (m <= 1)%nat /\ grows m (sections im s) (sections im' s)) /\
  Inv (node_offset_ im') (sections im' s) /\ P a o (node_offset_ im') (sections im' s).

Context (P_mono : forall m a o im im', frame s k im im' -> grows m (sections im s) (sections im' s) ->
  nodes_le (node_offset_ im) (node_offset_ im') ->
  P a o (node_offset_ im) (sections im s) -> P a o (node_offset_ im') (sections im' s)).

Lemma index_loop (write : A -> M Image Z) (set : A -> Z -> T -> T) (body : nat -> A -> M Image unit) l :
  (forall a im o im', Inv (node_offset_ im) (sections im s) -> u32_ok (count_ (sections im s)) ->
     write a im = Some (o, im') -> element_written a im o im') ->
  (forall i a im (u : unit) im', body i a im = Some (u, im') -> exists o im1 y,
     write a im = Some (o, im1) /\ update_at nd i (set a o) (ix im1) = Some y /\ im' = setix y im1) ->
  forall i im (u : unit) im', Inv (node_offset_ im) (sections im s) -> u32_ok (count_ (sections im s)) ->
  forM_ i body l im = Some (u, im') ->
  frame s k im im' /\ rest im' = rest im /\ nodes_le (node_offset_ im) (node_offset_ im') /\
  (exists m, (m <= length l)%nat /\ grows m (sections im s) (sections im' s)) /\
  updated i (length l) (fun j v v' => exists a o, l !! j = Some a /\ v' = set a o v /\
    P a o (node_offset_ im') (sections im' s)) (ix im) (ix im').
Proof.
  intros Hw Hb. induction l as [|a l IH]; intros i im u im' Hi Hc H; cbn [forM_] in H.
  - injection H as <- <-. split_and!; [apply frame_refl|done|apply nodes_le_refl|by exists 0%nat; split; [lia|apply section_grows_refl]|].
    constructor; try done. intros j Hj. cbn in Hj. lia.
  - run_step H. destruct (Hb _ _ _ _ _ E) as (o & im1 & y & Ew & E1 & ->).
    destruct (Hw _ _ _ _ Hi Hc Ew) as (F1 & I1 & N1 & (m1 & L1 & G1) & Hi1 & HP1).
    destruct (ids_parts _ _ I1) as [Hix Hrest]. destruct (setix_sections y im1) as [Hs Hn].
    apply update_at_inv in E1 as (v & Hv & Hvs & Hof & Hct). rewrite Hix in Hv, Hvs, Hof, Hct.
    assert (F0 : frame s k im1 (setix y im1)) by (constructor; intros x _; [by rewrite Hs|by rewrite Hn]).
    destruct (IH (S i) (setix y im1) u im') as (F2 & I2 & N2 & (m2 & L2 & G2) & U); [by rewrite Hn, Hs| |exact H|].
    { rewrite Hs. by eapply grows_count. }
    rewrite Hn in N2. rewrite Hs in G2. split_and!.
    + eapply frame_trans; [exact F1|]. by eapply frame_trans.
    + by rewrite I2, rest_set.
    + by eapply nodes_le_trans.
    + exists (m1 + m2)%nat. split; [cbn; lia|by eapply section_grows_trans].
    + destruct U as [U1 U2 U3 U4 U5]. rewrite ix_set in *. constructor.
      * congruence.
      * congruence.
      * rewrite U3, Hvs. apply length_insert.
      * intros j Hj. rewrite U4, Hvs by lia. apply list_lookup_insert_ne. lia.
      * intros [|j] Hj.
        -- rewrite Nat.add_0_r. exists v, (set a o v). rewrite U4, Hvs by lia.
           rewrite list_lookup_insert_eq by (by eapply lookup_lt_Some). split_and!; [done|done|].
           exists a, o. split_and!; [done|done|]. eapply (P_mono m2 _ _ (setix y im1)); rewrite ?Hs, ?Hn; done.
        -- cbn in Hj. destruct (U5 j ltac:(lia)) as (w & w' & H1 & H2 & HQ). rewrite <- Nat.add_succ_comm.
           exists w, w'. split_and!; [|done|done]. rewrite Hvs in H1. rewrite list_lookup_insert_ne in H1 by lia. done.
Qed.
End IndexLoop.

(** Items that classes share are written when the first of them needs one. *)
Section Memo.
Context (s : section_id) (align : Z) (align_pos : 0 < align) (k : node_kind) (k_class : of_class k = true).
Context {A : Type} (src : list A) (R : node_offsets_t -> A -> list byte -> Prop) (R_mono : monotone R).
Context (node_of : Class_ -> option nat) (write : Class_ -> M Image Z).

Definition item_of (i : nat) (o : Z) (n : node_offsets_t) (x : Section_) : Prop :=
  exists a bs, src !! i = Some a /\ R n a bs /\ item_at align x o bs.
Definition memo_inv (n : node_offsets_t) (x : Section_) : Prop := forall i o, n k !! i = Some o -> o <> 0 -> item_of i o n x.
Definition class_item (c : Class_) (o : Z) (n : node_offsets_t) (x : Section_) : Prop :=
  match node_of c with None => o = 0 | Some i => item_of i o n x end.

Lemma item_of_mono m i o n n' x x' : nodes_le n n' -> grows m x x' -> item_of i o n x -> item_of i o n' x'.
Proof.
  intros Hn Hx (a & bs & Ha & HR & Hi). exists a, bs. split_and!; [done|by eapply R_mono|by eapply item_at_grows].
Qed.
Lemma class_item_mono m c o im im' : frame s k im im' -> grows m (sections im s) (sections im' s) ->
  nodes_le (node_offset_ im) (node_offset_ im') ->
  class_item c o (node_offset_ im) (sections im s) -> class_item c o (node_offset_ im') (sections im' s).
Proof. unfold class_item. intros _ G N. destruct (node_of c); [|done]. by apply (item_of_mono m). Qed.

(** The body that [WriteClassStaticValues] and [WriteClassAnnotations] have. *)
Definition memo_write : Prop := forall c im o im', write c im = Some (o, im') ->
  match node_of c with
  | None => o = 0 /\ im' = im
  | Some i =>
      let o0 := default 0 (node_offset_ im k !! i) in
      if o0 =? 0 then exists a im1, src !! i = Some a /\ emitted s align (fun n => R n a) im o im1 /\ im' = set_node_offset k i o im1
      else o = o0 /\ im' = im
  end.

Lemma memo_written c im o im' : memo_write -> memo_inv (node_offset_ im) (sections im s) -> u32_ok (count_ (sections im s)) ->
  write c im = Some (o, im') -> element_written s k memo_inv class_item c im o im'.
Proof.
  intros Hw Hi Hc H. specialize (Hw _ _ _ _ H). unfold element_written, class_item.
  assert (Hsame : forall o, (match node_of c with None => o = 0 | Some i => item_of i o (node_offset_ im) (sections im s) end) ->
    frame s k im im /\ ids im = ids im /\ nodes_le (node_offset_ im) (node_offset_ im) /\
    (exists m, (m <= 1)%nat /\ grows m (sections im s) (sections im s)) /\ memo_inv (node_offset_ im) (sections im s) /\
    match node_of c with None => o = 0 | Some i => item_of i o (node_offset_ im) (sections im s) end).
  { intros o' Ho. split_and!; [apply frame_refl|done|apply nodes_le_refl|exists 0%nat; split; [lia|by apply section_grows_refl]|done|done]. }
  destruct (node_of c) as [i|]; [|destruct Hw as [-> ->]; by apply Hsame]. cbn zeta in Hw.
  destruct (Z.eqb_spec (default 0 (node_offset_ im k !! i)) 0) as [Hz|Hz].
  - destruct Hw as (a & im1 & Ha & (bs & HR & S1 & Ho) & ->).
    assert (N : nodes_le (node_offset_ im) (node_offset_ (set_node_offset k i o im1))).
    { rewrite <- (st_nodes _ _ _ _ S1). apply (frame_nodes_le s k); [done|apply set_node_frame]. }
    assert (G : grows 1 (sections im s) (sections im1 s)) by (rewrite (st_at _ _ _ _ S1); apply grows_added).
    assert (Hitem : item_of i o (node_offset_ (set_node_offset k i o im1)) (sections im1 s)).
    { exists a, bs. split_and!; [done|by eapply R_mono|]. rewrite Ho, (st_at _ _ _ _ S1). by apply item_at_added. }
    split_and!.
    + eapply frame_trans; [by eapply step_frame|apply set_node_frame].
    + apply (st_ids _ _ _ _ S1).
    + done.
    + exists 1%nat. by split.
    + intros j p Hp Hne. destruct (decide (j = i)) as [->|Hj]; cbn in Hp; rewrite decide_True in Hp by done.
      * rewrite lookup_insert_eq in Hp. injection Hp as <-. exact Hitem.
      * rewrite lookup_insert_ne, (st_nodes _ _ _ _ S1) in Hp by done. eapply item_of_mono; [exact N|exact G|by apply Hi].
    + exact Hitem.
  - destruct Hw as [-> ->]. apply Hsame. apply Hi; [|done]. destruct (node_offset_ im k !! i); [done|by destruct Hz].
Qed.
End Memo.

(** ** The sections one by one *)

Section Sections.
Context (nd : bool) (ir : DexFile).

Lemma pointer_mono n n' k i p : nodes_le n n' -> of_class k = false -> pointer n k i p -> pointer n' k i p.
Proof. intros H Hk. destruct i as [i|]; [|done]. by apply H. Qed.
Lemma pointers_mono {A} (f : A -> option nat) n n' k l ps : nodes_le n n' -> of_class k = false ->
  Forall2 (fun e p => pointer n k (f e) p) l ps -> Forall2 (fun e p => pointer n' k (f e) p) l ps.
Proof. intros H Hk HF. eapply Forall2_impl; [exact HF|]. intros e p. by apply pointer_mono. Qed.

Lemma type_list_mono : monotone (type_list_item ir).
Proof. by intros n n' a bs _. Qed.
Lemma debug_mono : monotone (debug_item nd ir).
Proof. by intros n n' a bs _. Qed.
Lemma annotation_mono : monotone (annotation_bytes nd ir).
Proof. by intros n n' a bs _. Qed.
Lemma array_mono : monotone (array_item nd ir).
Proof. by intros n n' a bs _. Qed.
Lemma pointers_item_mono k : of_class k = false -> monotone (pointers_item k).
Proof.
  intros Hk n n' l bs H (ps & Hps & ->). exists ps. split; [|done]. by apply (pointers_mono (fun i => Some i) n).
Qed.
Lemma code_mono : monotone (code_item nd ir).
Proof. intros n n' c bs H (d & i & t & Hp & Hr). exists d, i, t. split; [by eapply pointer_mono|done]. Qed.
Lemma method_entry_mono n n' ms es : nodes_le n n' -> Forall2 (method_entry ir n) ms es -> Forall2 (method_entry ir n') ms es.
Proof.
  intros H HF. eapply Forall2_impl; [exact HF|]. intros m e (He & off & Hp & Ho). split; [done|]. exists off. split; [by eapply pointer_mono|done].
Qed.
Lemma class_data_mono : monotone (class_data ir).
Proof. intros n n' c bs H (dm & vm & H1 & H2 & Hr). exists dm, vm. split_and!; [by eapply method_entry_mono..|done]. Qed.
Lemma directory_mono : monotone (directory_item ir).
Proof.
  intros n n' d bs H (c & fs & ms & ps & H1 & H2 & H3 & H4 & Hr). exists c, fs, ms, ps.
  split_and!; [by eapply pointer_mono|by apply (pointers_mono (fun e => Some e.2) n)..|exact Hr].
Qed.

Lemma static_values_memo : memo_write encoded_arrays_sec 1 EncodedArrayNode (encoded_arrays (data_ ir)) (array_item nd ir)
  static_init (WriteClassStaticValues nd ir).
Proof.
  intros c im o im' H. unfold WriteClassStaticValues in H. destruct (static_init c) as [i|]; [|by injection H as <- <-].
  run_step H. injection E as <- <-. cbn zeta. destruct (_ =? 0); [|by injection H as <- <-].
  run_step H. apply lift_inv in E as [E ->]. run_step H. run_step H. injection E1 as <- <-. injection H as <- <-.
  eexists a, _. split_and!; [done| |reflexivity]. eapply emit_item; [| | |exact E0]; [lia| |].
  - apply appends_bind; [apply appends_lift|intros bs; apply appends_push].
  - intros n pos bs _ (b & b1 & b2 & -> & [E' ->] & ->). exact E'.
Qed.

Lemma appends_pairs s decl k l : appends s (annotation_pairs nd ir decl k l) (fun n bs _ b => b = [] /\
  exists ps, Forall2 (fun (e : Z * nat) p => pointer n k (Some e.2) p) l ps /\
    bs = concat (zip_with (fun (e : Z * nat) p => u4_bytes (index ir decl e.1) ++ u4_bytes p) l ps)).
Proof.
  eapply appends_weaken.
  - apply appends_bind; [|intros ps; apply appends_ret].
    apply (appends_mapM s _ (fun n (e : Z * nat) bs => exists p, pointer n k (Some e.2) p /\ bs = u4_bytes (index ir decl e.1) ++ u4_bytes p)).
    intros e. eapply appends_weaken; [apply appends_bind; [apply appends_pointer|intros p; apply appends_ret]|].
    intros n bs pos b (p & b1 & b2 & -> & [Hp ->] & -> & ->). split; [by exists p|done].
  - intros n bs pos b (bss & b1 & b2 & -> & [Hl ->] & -> & ->). split; [done|].
    clear - Hl. induction Hl as [|e b l bss Hb Hl IH]; [by exists []|]. destruct Hb as (p & Hp & ->), IH as (ps & Hps & E).
    exists (p :: ps). split; [by constructor|]. cbn [concat zip_with]. by rewrite E.
Qed.

Lemma silent {A} s (c : M Image A) (P : node_offsets_t -> A -> Prop) im a im' : appends s c (fun n a _ b => b = [] /\ P n a) ->
  c im = Some (a, im') -> step s (sections im s) im im' /\ P (node_offset_ im) a.
Proof. intros Hc E. destruct (Hc _ _ _ E) as (b & S1 & -> & HP). rewrite put_bytes_nil in S1. by split. Qed.
Lemma appends_class s k i : appends s (FilePointer nd k i) (fun n p _ b => b = [] /\ pointer n k i p).
Proof. eapply appends_weaken; [apply appends_pointer|]. intros n p pos b [Hp ->]. by split. Qed.

Lemma annotations_memo : memo_write ann_directories_sec 4 AnnotationsDirectoryNode (annotations_directories (data_ ir)) (directory_item ir)
  c_annotations (WriteClassAnnotations nd ir).
Proof.
  intros c im o im' H. unfold WriteClassAnnotations in H. destruct (c_annotations c) as [i|]; [|by injection H as <- <-].
  run_step H. injection E as <- <-. cbn zeta. destruct (_ =? 0); [|by injection H as <- <-].
  run_step H. apply lift_inv in E as [E ->]. rename a into dir, E into Hdir.
  run_step H. destruct (silent _ _ _ _ _ _ (appends_pairs ann_directories_sec _ _ _) E) as (S1 & fs & Hfs & ->). clear E.
  run_step H. destruct (silent _ _ _ _ _ _ (appends_pairs ann_directories_sec _ _ _) E) as (S2 & ms & Hms & ->). clear E.
  run_step H. destruct (silent _ _ _ _ _ _ (appends_pairs ann_directories_sec _ _ _) E) as (S3 & ps & Hps & ->). clear E.
  run_step H. destruct (silent _ _ _ _ _ _ (appends_class ann_directories_sec _ _) E) as (S4 & Hcls). clear E. rename a into cls.
  run_step H. injection H as <- <-. pose proof (step_trans _ _ _ _ _ _ S1 (step_trans _ _ _ _ _ _ S2 (step_trans _ _ _ _ _ _ S3 S4))) as S5.
  rewrite (st_nodes _ _ _ _ S1) in Hms. rewrite (st_nodes _ _ _ _ S2), (st_nodes _ _ _ _ S1) in Hps.
  rewrite (st_nodes _ _ _ _ S3), (st_nodes _ _ _ _ S2), (st_nodes _ _ _ _ S1) in Hcls.
  eexists dir, _. split_and!; [done| |reflexivity].
  eassert (emitted ann_directories_sec 4 (fun n bs => n = node_offset_ im -> directory_item ir n dir bs) _ _ _) as E'.
  { eapply emit_item; [| | |exact E]; [lia|apply appends_push|].
    intros n pos bs _ -> ->. exists cls, fs, ms, ps. by split_and!. }
  destruct E' as (bs & HR & S6 & Ho). rewrite (st_at _ _ _ _ S4), (st_at _ _ _ _ S3), (st_at _ _ _ _ S2), (st_at _ _ _ _ S1) in S6, Ho.
  exists bs. rewrite (st_nodes _ _ _ _ S5) in HR. split_and!; [by apply HR|by eapply step_trans|done].
Qed.
End Sections.
