(* ===== verification/DexImage.v ===== *)
(** The image: where [CreateImage] puts the sections, and that it holds the file. *)
From S2P Require Import Prelude Leb128 SlicerBuffer DexBytecode DexCode DexValue DexDebug DexDebugSpec DexTry.
From S2P Require Import DexOrder DexIr DexBuilder Sha1 DexWriter DexWriterSpec.

(** ** One section *)

(** A finished section. *)
Record finished (nd : bool) (x : Section_) (off size : Z) : Prop := {
  fin_offset : offset_ x = off;
  fin_size : size = u32 (Z.of_nat (length (bytes_ x)));
  fin_aligned : Z.of_nat (length (bytes_ x)) mod 4 = 0;
  fin_checked : nd = false -> 0 < off /\ off mod 4 = 0 }.

(** How many items a section has: at most [most], and some if it has bytes. *)
Definition counted (most : nat) (x : Section_) : Prop :=
  exists m, (m <= most)%nat /\ count_ x = u32 (Z.of_nat m) /\ (m = 0%nat -> bytes_ x = []).

(** Section [s] is made, at [off], with at most [most] items; nodes of kind [k] only
    get offsets. *)
Record made (nd : bool) (s : section_id) (k : node_kind) (most : nat) (im : Image) (off size : Z) (im' : Image) : Prop := {
  md_frame : frame s k im im';
  md_nodes : nodes_le (node_offset_ im) (node_offset_ im');
  md_section : finished nd (sections im' s) off size;
  md_count : counted most (sections im' s) }.

Lemma padding_aligned bs : Z.of_nat (length (bs ++ padding 4 bs)) mod 4 = 0.
Proof.
  pose proof (item_pos_aligned 4 {| bytes_ := bs; count_ := 0; offset_ := 0; sealed := false |} ltac:(lia)) as H. exact H.
Qed.

Section Sections.
Context (nd : bool) (ir : DexFile).

Lemma create_inv s k most body off im size im' : sections im s = newSection ->
  create_section nd s body off im = Some (size, im') ->
  exists im1 im2 u, body im1 = Some (u, im2) /\
    step s {| bytes_ := []; count_ := 0; offset_ := off; sealed := false |} im im1 /\
    (frame s k im1 im2 -> nodes_le (node_offset_ im1) (node_offset_ im2) ->
     (exists m, (m <= most)%nat /\ grows m (sections im1 s) (sections im2 s)) -> made nd s k most im off size im') /\
    node_offset_ im' = node_offset_ im2 /\ ids im' = ids im2 /\ frame s k im2 im' /\
    (u32_ok (count_ (sections im2 s)) -> grows 0 (sections im2 s) (sections im' s)).
Proof.
  intros Hnew H. unfold create_section in H. run_step H. rename a into u0, E into E1. run_step H. destruct a as [].
  rename im0 into im1, im1 into im2, E into E2. apply on_inv in E1 as (x1 & E1 & S1).
  unfold SetOffset in E1. run_step E1. apply check_inv in E as [-> Hoff]. injection E1 as <- <-. rewrite Hnew in S1. cbn in S1.
  apply on_inv in H as (x3 & E3 & S3). unfold Seal in E3. run_step E3. injection E as <- <-. run_step E3.
  apply check_inv in E as [-> _]. run_step E3. apply Align_inv in E as ->; [|lia]. run_step E3. injection E as <- <-.
  injection E3 as <- <-. cbn in S3.
  exists im1, im2, tt. split; [exact E2|]. split; [exact S1|]. pose proof (padding_aligned (bytes_ (sections im2 s))) as Hpad.
  split_and!.
  - intros F N (m & Hm & G). rewrite (st_at _ _ _ _ S1) in G. constructor.
    + eapply frame_trans; [by eapply step_frame|]. eapply frame_trans; [exact F|by eapply step_frame].
    + rewrite (st_nodes _ _ _ _ S3), <- (st_nodes _ _ _ _ S1). exact N.
    + rewrite (st_at _ _ _ _ S3). constructor; [exact (gs_offset _ _ _ G)|done|exact Hpad|].
      intros Hnd. specialize (Hoff Hnd). lia.
    + rewrite (st_at _ _ _ _ S3). exists m. cbn [count_ bytes_]. split; [done|]. split; [apply (gs_count _ _ _ G)|].
      intros H0. rewrite (gs_none _ _ _ G H0 eq_refl). done.
  - apply (st_nodes _ _ _ _ S3).
  - apply (st_ids _ _ _ _ S3).
  - by eapply step_frame.
  - intros Hc. rewrite (st_at _ _ _ _ S3). constructor; cbn; [by eexists|by rewrite Z.add_0_r|done|by intros _ ->].
Qed.

(** The sections that own nodes. *)
Lemma create_nodes {A} s k align (omit skip : A -> bool) R write body (l : list A) off im size im' : 0 < align -> of_class k = false ->
  monotone R -> emits s align skip write R ->
  (forall i a im (u : unit) im', body i a im = Some (u, im') ->
     if omit a then im' = im else exists o im1, write a im = Some (o, im1) /\ im' = set_node_offset k i o im1) ->
  sections im s = newSection -> node_offset_ im k = ∅ ->
  create_section nd s (forM_ 0 body l) off im = Some (size, im') ->
  made nd s k (length l) im off size im' /\ ids im' = ids im /\
  (forall i a, l !! i = Some a -> omit a = false -> exists o,
     node_offset_ im' k !! i = Some o /\ located align skip R (node_offset_ im') (sections im' s) a o) /\
  count_ (sections im' s) = u32 (Z.of_nat (length (List.filter (fun a => negb (omit a || skip a)) l))).
Proof.
  intros Ha Hk HR Hw Hb Hnew Hnone H. apply (create_inv s k (length l)) in H as (im1 & im2 & u & E & S1 & Hmade & Hnodes & Hids & _ & Hgrow); [|done].
  destruct (node_loop s align Ha k skip R HR Hk omit write body l Hw Hb 0%nat im1 u im2) as (F & I & N & G & L).
  - intros j _. by rewrite (st_nodes _ _ _ _ S1), Hnone.
  - by rewrite (st_at _ _ _ _ S1).
  - exact E.
  - specialize (Hgrow (grows_count _ _ _ G)). split_and!.
    + apply Hmade; [done|done|]. eexists. split; [apply List.filter_length_le|exact G].
    + by rewrite Hids, I, (st_ids _ _ _ _ S1).
    + intros i a Hi Ho. destruct (L i a Hi Ho) as (o & Ho' & Hl). exists o. rewrite Hnodes. split; [done|].
      eapply located_mono; [exact HR|apply nodes_le_refl|exact Hgrow|exact Hl].
    + rewrite (gs_count _ _ _ Hgrow), (gs_count _ _ _ G), (st_at _ _ _ _ S1), trunc_add_l. cbn. f_equal. lia.
Qed.

Lemma write_nodes_body {A} k (write : A -> M Image Z) i a im (u : unit) im' :
  (im0 ← get; check nd (default 0 (node_offset_ im0 k !! i) =? 0) ;; o ← write a; modify (set_node_offset k i o)) im = Some (u, im') ->
  exists o im1, write a im = Some (o, im1) /\ im' = set_node_offset k i o im1.
Proof.
  intros H. run_step H. injection E as <- <-. run_step H. apply check_inv in E as [-> _]. run_step H. injection H as <- <-. by eexists _, _.
Qed.
Lemma create_written {A} s k align skip R write (l : list A) off im size im' : 0 < align -> of_class k = false ->
  monotone R -> emits s align skip write R ->
  create_section nd s (write_nodes nd k write l) off im = Some (size, im') ->
  sections im s = newSection -> node_offset_ im k = ∅ ->
  made nd s k (length l) im off size im' /\ ids im' = ids im /\
  (forall i a, l !! i = Some a -> exists o,
     node_offset_ im' k !! i = Some o /\ located align skip R (node_offset_ im') (sections im' s) a o) /\
  count_ (sections im' s) = u32 (Z.of_nat (length (List.filter (fun a => negb (skip a)) l))).
Proof.
  intros Ha Hk HR Hw H Hnew Hnone. unfold write_nodes in H.
  apply (create_nodes s k align (fun _ => false) skip R write) in H; [|done..|intros i a im0 u im1; apply write_nodes_body|done|done].
  destruct H as (H1 & H2 & H3 & H4). split_and!; [done|done| |exact H4]. intros i a Hi. by apply H3.
Qed.

(** The sections that set a value for each element. *)
Section Indexed.
Context (s : section_id) (k : node_kind) {A T B : Type}.
Context (ix : Image -> Index T) (setix : Index T -> Image -> Image) (rest : Image -> B).
Context (ix_set : forall x im, ix (setix x im) = x) (rest_set : forall x im, rest (setix x im) = rest im).
Context (setix_sections : forall x im, sections (setix x im) = sections im /\ node_offset_ (setix x im) = node_offset_ im).
Context (ids_parts : forall im im', ids im' = ids im -> ix im' = ix im /\ rest im' = rest im).
Context (Inv : node_offsets_t -> Section_ -> Prop) (P : A -> Z -> node_offsets_t -> Section_ -> Prop).
Context (P_mono : forall m a o im im', frame s k im im' -> grows m (sections im s) (sections im' s) ->
  nodes_le (node_offset_ im) (node_offset_ im') ->
  P a o (node_offset_ im) (sections im s) -> P a o (node_offset_ im') (sections im' s)).

Lemma create_indexed (write : A -> M Image Z) (set : A -> Z -> T -> T) (body : nat -> A -> M Image unit) l off im size im' :
  (forall a im o im', Inv (node_offset_ im) (sections im s) -> u32_ok (count_ (sections im s)) ->
     write a im = Some (o, im') -> element_written s k Inv P a im o im') ->
  (forall i a im (u : unit) im', body i a im = Some (u, im') -> exists o im1 y,
     write a im = Some (o, im1) /\ update_at nd i (set a o) (ix im1) = Some y /\ im' = setix y im1) ->
  Inv (node_offset_ im) {| bytes_ := []; count_ := 0; offset_ := off; sealed := false |} -> sections im s = newSection ->
  create_section nd s (forM_ 0 body l) off im = Some (size, im') ->
  made nd s k (length l) im off size im' /\ rest im' = rest im /\
  updated 0 (length l) (fun j v v' => exists a o, l !! j = Some a /\ v' = set a o v /\
    P a o (node_offset_ im') (sections im' s)) (ix im) (ix im').
Proof.
  intros Hw Hb Hi Hnew H.
  apply (create_inv s k (length l)) in H as (im1 & im2 & u & E & S1 & Hmade & Hnodes & Hids & F2 & Hgrow); [|done].
  destruct (ids_parts _ _ (st_ids _ _ _ _ S1)) as [Hix1 Hrest1]. destruct (ids_parts _ _ Hids) as [Hix2 Hrest2].
  destruct (index_loop nd s k ix setix rest ix_set rest_set setix_sections ids_parts Inv P P_mono write set body l Hw Hb
    0%nat im1 u im2) as (F & R & N & (m & Lm & G) & U).
  - by rewrite (st_nodes _ _ _ _ S1), (st_at _ _ _ _ S1).
  - by rewrite (st_at _ _ _ _ S1).
  - exact E.
  - specialize (Hgrow (grows_count _ _ _ G)). split_and!.
    + apply Hmade; [done|done|by exists m].
    + congruence.
    + rewrite Hix2, <- Hix1. destruct U as [U1 U2 U3 U4 U5]. constructor; try done.
      intros j Hj. destruct (U5 j Hj) as (v & v' & H1 & H2 & a & o & H3 & H4 & H5). exists v, v'. split_and!; [done|done|].
      exists a, o. split_and!; [done|done|]. eapply P_mono; [exact F2|exact Hgrow|rewrite Hnodes; apply nodes_le_refl|done].
Qed.
End Indexed.

Definition no_inv (n : node_offsets_t) (x : Section_) : Prop := True.
Definition string_at (a : Z) (o : Z) (n : node_offsets_t) (x : Section_) : Prop := item_at 1 x o (string_bytes ir a).
Definition rest_strings (im : Image) := (type_ids im, proto_ids im, field_ids im, method_ids im, class_defs im).
Definition rest_classes (im : Image) := (string_ids im, type_ids im, proto_ids im, field_ids im, method_ids im).

Lemma ids_strings im im' : ids im' = ids im -> string_ids im' = string_ids im /\ rest_strings im' = rest_strings im.
Proof. intros E. injection E as E1 E2 E3 E4 E5 E6. unfold rest_strings. split; congruence. Qed.
Lemma ids_classes im im' : ids im' = ids im -> class_defs im' = class_defs im /\ rest_classes im' = rest_classes im.
Proof. intros E. injection E as E1 E2 E3 E4 E5 E6. unfold rest_classes. split; congruence. Qed.

Lemma create_strings k off im size im' : CreateStringDataSection nd ir off im = Some (size, im') ->
  sections im string_data_sec = newSection ->
  made nd string_data_sec k (length (strings (tbl ir))) im off size im' /\ rest_strings im' = rest_strings im /\
  updated 0 (length (strings (tbl ir))) (fun j _ o => exists a, strings (tbl ir) !! j = Some a /\
    item_at 1 (sections im' string_data_sec) o (string_bytes ir a)) (string_ids im) (string_ids im').
Proof.
  intros H Hnew. eapply (create_indexed string_data_sec k string_ids set_string_ids rest_strings)
    with (Inv := no_inv) (P := string_at) (set := fun _ o _ => o) in H as (Hm & Hr & U).
  - split_and!; [exact Hm|exact Hr|]. destruct U as [U1 U2 U3 U4 U5]. constructor; try done.
    intros j Hj. destruct (U5 j Hj) as (v & v' & H1 & H2 & a & o & H3 & H4 & H5). exists v, v'. split_and!; [done|done|].
    exists a. subst v'. by split.
  - done.
  - done.
  - done.
  - apply ids_strings.
  - intros m a o im1 im2 _ G _ HP. by eapply item_at_grows.
  - intros a im1 o im2 _ Hc E. unfold element_written.
    assert (emitted string_data_sec 1 (fun n bs => bs = string_bytes ir a) im1 o im2) as (bs & -> & S1 & Ho).
    { eapply emit_item; [| | |exact E]; [lia|apply appends_push|by intros n pos bs _ ->]. }
    assert (G : grows 1 (sections im1 string_data_sec) (sections im2 string_data_sec)) by (rewrite (st_at _ _ _ _ S1); apply grows_added).
    split_and!; [by eapply step_frame|apply (st_ids _ _ _ _ S1)|rewrite (st_nodes _ _ _ _ S1); apply nodes_le_refl|by exists 1%nat|exact I|].
    unfold string_at. rewrite Ho, (st_at _ _ _ _ S1). by apply item_at_added.
  - intros i a im1 u im2 E. run_step E. run_step E. injection E1 as <- <-. run_step E. apply lift_inv in E1 as [E1 ->].
    injection E as <- <-. eexists _, _, _. split_and!; [exact E0|exact E1|done].
  - exact I.
  - exact Hnew.
Qed.

(** The sections with an item for each class. *)
Lemma create_classes s k Inv (P : Class_ -> Z -> node_offsets_t -> Section_ -> Prop) write set off im size im' :
  (forall m a o im im', frame s k im im' -> grows m (sections im s) (sections im' s) ->
    nodes_le (node_offset_ im) (node_offset_ im') ->
    P a o (node_offset_ im) (sections im s) -> P a o (node_offset_ im') (sections im' s)) ->
  (forall c im o im', Inv (node_offset_ im) (sections im s) -> u32_ok (count_ (sections im s)) ->
     write c im = Some (o, im') -> element_written s k Inv P c im o im') ->
  Inv (node_offset_ im) {| bytes_ := []; count_ := 0; offset_ := off; sealed := false |} -> sections im s = newSection ->
  create_section nd s (write_classes nd ir write set) off im = Some (size, im') ->
  made nd s k (length (classes ir)) im off size im' /\ rest_classes im' = rest_classes im /\
  updated 0 (length (classes ir)) (fun j v v' => exists c o, classes ir !! j = Some c /\ v' = set o v /\
    P (class_node (nodes ir) c) o (node_offset_ im') (sections im' s)) (class_defs im) (class_defs im').
Proof.
  intros HP Hw Hi Hnew H. unfold write_classes in H.
  eapply (create_indexed s k class_defs set_class_defs rest_classes) with (Inv := Inv)
    (P := fun c => P (class_node (nodes ir) c)) (write := fun c => write (class_node (nodes ir) c)) (set := fun _ => set) in H;
    [exact H|done|done|done|apply ids_classes| | | |exact Hi|exact Hnew].
  - intros m a o. apply HP.
  - intros a im1 o im2. apply Hw.
  - intros i a im1 u im2 E. run_step E. run_step E. injection E1 as <- <-. run_step E. apply lift_inv in E1 as [E1 ->].
    injection E as <- <-. eexists _, _, _. split_and!; [exact E0|exact E1|done].
Qed.

Definition data_at (c : Class_) (o : Z) (n : node_offsets_t) (x : Section_) : Prop :=
  located 1 no_members (class_data ir) n x c o.
Lemma create_class_data off im size im' : CreateClassDataSection nd ir off im = Some (size, im') ->
  sections im class_data_sec = newSection ->
  made nd class_data_sec EncodedArrayNode (length (classes ir)) im off size im' /\ rest_classes im' = rest_classes im /\
  updated 0 (length (classes ir)) (fun j v v' => exists c o, classes ir !! j = Some c /\ v' = set_class_data_off o v /\
    data_at (class_node (nodes ir) c) o (node_offset_ im') (sections im' class_data_sec)) (class_defs im) (class_defs im').
Proof.
  intros H Hnew. apply (create_classes _ EncodedArrayNode no_inv data_at) in H; [exact H| | |exact I|exact Hnew].
  - intros m c o im1 im2 _ G N HP. eapply located_mono; [apply class_data_mono|exact N|exact G|exact HP].
  - intros c im1 o im2 _ Hc E.
    destruct (emits_located class_data_sec 1 ltac:(lia) EncodedArrayNode _ _ _ _ _ _ _ (emits_class_data nd ir) Hc E) as (F & N & I1 & G & L).
    split_and!; [done|done|rewrite N; apply nodes_le_refl| |exact I|exact L].
    eexists. split; [|exact G]. destruct (no_members c); lia.
Qed.

Lemma create_shared {A} s align k (src : list A) R node_of write set off im size im' : 0 < align -> of_class k = true -> monotone R ->
  memo_write s align k src R node_of write ->
  create_section nd s (write_classes nd ir write set) off im = Some (size, im') ->
  sections im s = newSection -> node_offset_ im k = ∅ ->
  made nd s k (length (classes ir)) im off size im' /\ rest_classes im' = rest_classes im /\
  updated 0 (length (classes ir)) (fun j v v' => exists c o, classes ir !! j = Some c /\ v' = set o v /\
    class_item align src R node_of (class_node (nodes ir) c) o (node_offset_ im') (sections im' s)) (class_defs im) (class_defs im').
Proof.
  intros Ha Hk HR Hm H Hnew Hnone.
  apply (create_classes s k (memo_inv align k src R) (class_item align src R node_of)) in H; [exact H| | | |exact Hnew].
  - intros m c o im1 im2. by apply class_item_mono.
  - intros c im1 o im2 Hi Hc E. by eapply memo_written.
  - intros i o. by rewrite Hnone, lookup_empty.
Qed.

(** ** The map *)

Definition map_entry (type count offset : Z) : list MapItem :=
  if 0 <? count then [{| mp_type := type; mp_size := count; mp_offset := offset |}] else [].
Definition index_entry {T} (type : Z) (x : Index T) : list MapItem := map_entry type (ix_count x) (ix_offset x).
Definition section_entry (im : Image) (s : section_id) : list MapItem :=
  map_entry (section_code s) (count_ (sections im s)) (offset_ (sections im s)).

(** The header and the sections that have items. *)
Definition map_entries (im : Image) : list MapItem :=
  [{| mp_type := 0; mp_size := 1; mp_offset := 0 |}] ++
  index_entry 1 (string_ids im) ++ index_entry 2 (type_ids im) ++ index_entry 3 (proto_ids im) ++
  index_entry 4 (field_ids im) ++ index_entry 5 (method_ids im) ++ index_entry 6 (class_defs im) ++
  concat (map (section_entry im) map_order).

Lemma AddMapItem_inv type count off items items' (x : Z) :
  (forall o, off = Some o -> 0 < count -> o = x) -> AddMapItem nd type count off items = Some items' ->
  items' = items ++ map_entry type count x.
Proof.
  intros Hx. unfold AddMapItem, map_entry. destruct (Z.ltb_spec 0 count) as [Hc|Hc]; [|intros [= <-]; by rewrite app_nil_r].
  destruct off as [o|]; [|done]. cbn. destruct (SLICER_CHECK _ _); [|done]. intros [= <-]. by rewrite (Hx o).
Qed.
Lemma index_item_inv {T} type (x : Index T) items items' : index_item nd type x items = Some items' ->
  items' = items ++ index_entry type x.
Proof.
  apply AddMapItem_inv. intros o Ho Hc. unfold IndexOffset in Ho. destruct (SLICER_CHECK _ _); [|done]. injection Ho as <-.
  by rewrite (proj2 (Z.ltb_lt _ _) Hc).
Qed.
Lemma section_item_inv im s items items' : section_item nd im s items = Some items' -> items' = items ++ section_entry im s.
Proof.
  apply AddMapItem_inv. intros o Ho Hc. unfold SectionOffset in Ho. destruct (SLICER_CHECK _ _); [|done]. injection Ho as <-.
  by rewrite (proj2 (Z.ltb_lt _ _) Hc).
Qed.
Lemma section_items_inv im l : forall items items',
  foldl (fun items s => items ← items; section_item nd im s items) (Some items) l = Some items' ->
  items' = items ++ concat (map (section_entry im) l).
Proof.
  induction l as [|s l IH]; intros items items' H; cbn in H; [injection H as <-; by rewrite app_nil_r|].
  destruct (section_item nd im s items) as [items1|] eqn:E; [|exfalso; clear -H; induction l; [done|apply IHl, H]].
  apply IH in H as ->. apply section_item_inv in E as ->. cbn. by rewrite <- app_assoc.
Qed.
Lemma map_items_inv im items : map_items nd im = Some items -> items = map_entries im.
Proof.
  unfold map_items. intros H. repeat (apply bind_Some in H as (? & E & H); apply index_item_inv in E as ->).
  apply section_items_inv in H as ->. unfold map_entries. by rewrite <- !app_assoc.
Qed.

(** The list of the map, as the section has it. *)
Definition map_list_of (im : Image) : list MapItem := qsort compare_map_items (map_entries im).

Lemma create_map off im size im' : CreateMapSection nd off im = Some (size, im') ->
  sections im map_list_sec = newSection ->
  made nd map_list_sec EncodedArrayNode 1 im off size im' /\ ids im' = ids im /\ node_offset_ im' = node_offset_ im /\
  count_ (sections im' map_list_sec) = 1 /\
  (nd = false -> NoDup (map mp_offset (map_entries im'))) /\
  item_at 4 (sections im' map_list_sec) (u32 off)
    (u4_bytes (Z.of_nat (length (map_list_of im'))) ++ concat (map map_item_bytes (map_list_of im'))).
Proof.
  intros H Hnew.
  apply (create_inv map_list_sec EncodedArrayNode 1) in H as (im1 & im2 & u & E & S1 & Hmade & Hnodes & Hids & _ & Hgrow); [|done].
  run_step E. apply on_inv in E0 as (x1 & E0 & S2). rewrite (st_at _ _ _ _ S1) in E0. injection E0 as <- <-.
  run_step E. injection E0 as <- <-. run_step E. apply lift_inv in E0 as [Hitems ->].
  run_step E. apply check_inv in E0 as [-> Hdup]. cbn zeta in E. apply map_items_inv in Hitems as ->.
  set (items := qsort compare_map_items (map_entries im0)) in *.
  set (bs := u4_bytes (Z.of_nat (length items)) ++ concat (map map_item_bytes items)).
  assert (Ha : appends map_list_sec (
      PushU4 nd map_list_sec (Z.of_nat (length items)) ;;
      on map_list_sec (Push nd (concat (map map_item_bytes items)))) (fun _ _ _ b => b = bs)).
  { eapply appends_weaken; [apply appends_bind; [apply appends_u4|intros u'; apply appends_push]|].
    intros n u' pos b (u'' & b1 & b2 & -> & -> & ->). done. }
  destruct (Ha _ _ _ E) as (b & S3 & ->). clear Ha E. rewrite (st_at _ _ _ _ S2) in S3.
  unfold put_bytes in S3. cbn [bytes_ count_ offset_ sealed] in S3. 
  assert (Hbs : bs = u4_bytes (Z.of_nat (length items)) ++ concat (map map_item_bytes items)) by done. clearbody bs.
  assert (Hcnt : u32_ok (count_ (sections im2 map_list_sec))) by (by rewrite (st_at _ _ _ _ S3)). specialize (Hgrow Hcnt).
  assert (Hm : made nd map_list_sec EncodedArrayNode 1 im off size im').
  { apply Hmade.
    - eapply frame_trans; by eapply step_frame.
    - rewrite (st_nodes _ _ _ _ S3), (st_nodes _ _ _ _ S2). apply nodes_le_refl.
    - exists 1%nat. split; [done|]. rewrite (st_at _ _ _ _ S3), (st_at _ _ _ _ S1). by constructor; [apply prefix_nil| |..]. }
  assert (Hi : ids im' = ids im) by (by rewrite Hids, (st_ids _ _ _ _ S3), (st_ids _ _ _ _ S2), (st_ids _ _ _ _ S1)).
  assert (Hc1 : count_ (sections im' map_list_sec) = 1).
  { rewrite (gs_count _ _ _ Hgrow). by rewrite (st_at _ _ _ _ S3). }
  assert (He : map_entries im' = map_entries im0).
  { unfold map_entries. assert (I0 : ids im0 = ids im) by (by rewrite (st_ids _ _ _ _ S2), (st_ids _ _ _ _ S1)).
    rewrite <- Hi in I0. injection I0 as -> -> -> -> -> ->. do 7 f_equal. f_equal. apply map_ext. intros s. unfold section_entry.
    destruct (decide (s = map_list_sec)) as [->|Hs].
    - rewrite Hc1, (gs_offset _ _ _ Hgrow), (st_at _ _ _ _ S3), (st_at _ _ _ _ S2). done.
    - rewrite (fr_sections _ _ _ _ (md_frame _ _ _ _ _ _ _ _ Hm)) by done.
      by rewrite (st_other _ _ _ _ S2), (st_other _ _ _ _ S1). }
  split_and!; [exact Hm|exact Hi| |exact Hc1| |].
  - by rewrite Hnodes, (st_nodes _ _ _ _ S3), (st_nodes _ _ _ _ S2), (st_nodes _ _ _ _ S1).
  - rewrite He. intros Hnd. specialize (Hdup Hnd). by apply bool_decide_eq_true in Hdup.
  - unfold map_list_of. rewrite He. fold items. rewrite <- Hbs. eapply item_at_grows; [exact Hgrow|]. exists [], []. rewrite (st_at _ _ _ _ S3). cbn [bytes_ offset_].
    split; [by rewrite app_nil_r|]. split; [done|]. f_equal. change (u32 (Z.of_nat (length []))) with 0. lia.
Qed.

(** ** The loops that fill the index sections *)

Lemma fill_loop {A T B} (ix : Image -> Index T) (setix : Index T -> Image -> Image) (rest : Image -> B)
    (Q : A -> Z -> node_offsets_t -> Prop) (set : A -> Z -> T -> T) (body : nat -> A -> M Image unit) l :
  (forall x im, ix (setix x im) = x) -> (forall x im, rest (setix x im) = rest im) ->
  (forall x im, sections (setix x im) = sections im /\ node_offset_ (setix x im) = node_offset_ im) ->
  (forall i a im (u : unit) im', body i a im = Some (u, im') -> exists o y,
     Q a o (node_offset_ im) /\ update_at nd i (set a o) (ix im) = Some y /\ im' = setix y im) ->
  forall i im (u : unit) im', forM_ i body l im = Some (u, im') ->
  sections im' = sections im /\ node_offset_ im' = node_offset_ im /\ rest im' = rest im /\
  updated i (length l) (fun j v v' => exists a o, l !! j = Some a /\ v' = set a o v /\ Q a o (node_offset_ im)) (ix im) (ix im').
Proof.
  intros Hix Hrest Hset Hb. induction l as [|a l IH]; intros i im u im' H; cbn [forM_] in H.
  - injection H as <- <-. split_and!; [done..|]. constructor; try done. intros j Hj. cbn in Hj. lia.
  - run_step H. destruct (Hb _ _ _ _ _ E) as (o & y & HQ & E1 & ->). destruct (Hset y im) as [Hs Hn].
    apply update_at_inv in E1 as (v & Hv & Hvs & Hof & Hct).
    destruct (IH _ _ _ _ H) as (H1 & H2 & H3 & [U1 U2 U3 U4 U5]). rewrite Hix in *. rewrite Hn in *.
    split_and!; [congruence|done|by rewrite H3|]. constructor.
    + congruence.
    + congruence.
    + rewrite U3, Hvs. apply length_insert.
    + intros j Hj. rewrite U4, Hvs by lia. apply list_lookup_insert_ne. lia.
    + intros [|j] Hj.
      * rewrite Nat.add_0_r. exists v, (set a o v). rewrite U4, Hvs by lia.
        rewrite list_lookup_insert_eq by (by eapply lookup_lt_Some). split_and!; [done|done|]. by exists a, o.
      * cbn in Hj. destruct (U5 j ltac:(lia)) as (w & w' & K1 & K2 & K3). rewrite <- Nat.add_succ_comm.
        exists w, w'. split_and!; [|done|done]. rewrite Hvs in K1. rewrite list_lookup_insert_ne in K1 by lia. done.
Qed.

Definition rest_types (im : Image) := (string_ids im, proto_ids im, field_ids im, method_ids im, class_defs im).
Definition rest_protos (im : Image) := (string_ids im, type_ids im, field_ids im, method_ids im, class_defs im).
Definition rest_fields (im : Image) := (string_ids im, type_ids im, proto_ids im, method_ids im, class_defs im).
Definition rest_methods (im : Image) := (string_ids im, type_ids im, proto_ids im, field_ids im, class_defs im).

Definition type_id_of (t : Z) : Z := index ir StringItem (descriptor (type_node (nodes ir) t)).
Definition field_id_of (f : Z) : FieldId :=
  let f := field_node (nodes ir) f in
  {| fi_class_idx := u16 (index ir TypeItem (f_parent f)); fi_type_idx := u16 (index ir TypeItem (f_type f));
     fi_name_idx := index ir StringItem (f_name f) |}.
Definition proto_id_of (p : Z) (parameters : Z) : ProtoId :=
  let p := proto_node (nodes ir) p in
  {| shorty_idx := index ir StringItem (shorty p); return_type_idx := index ir TypeItem (return_type p);
     parameters_off := parameters |}.
Definition method_id_of (m : Z) : MethodId :=
  let m := method_node (nodes ir) m in
  {| mi_class_idx := u16 (index ir TypeItem (m_parent m)); mi_proto_idx := u16 (index ir ProtoItem (m_prototype m));
     mi_name_idx := index ir StringItem (m_name m) |}.
Definition class_def_of (c : Z) (p a d v : Z) : ClassDef :=
  let c := class_node (nodes ir) c in
  Build_ClassDef (index ir TypeItem (c_type c)) (c_access_flags c) (opt_index ir TypeItem (super_class c)) p
    (opt_index ir StringItem (source_file c)) a d v.

(** Loops that do not look at other nodes, and loops that take a type list's offset. *)
Lemma fill_plain {A T B} (ix : Image -> Index T) (setix : Index T -> Image -> Image) (rest : Image -> B) (val : A -> T) l im (u : unit) im' :
  (forall x im, ix (setix x im) = x) -> (forall x im, rest (setix x im) = rest im) ->
  (forall x im, sections (setix x im) = sections im /\ node_offset_ (setix x im) = node_offset_ im) ->
  forM_ 0 (fun i a => im ← get; x ← lift (update_at nd i (fun _ => val a) (ix im)); modify (setix x)) l im = Some (u, im') ->
  sections im' = sections im /\ node_offset_ im' = node_offset_ im /\ rest im' = rest im /\
  updated 0 (length l) (fun j _ v' => exists a, l !! j = Some a /\ v' = val a) (ix im) (ix im').
Proof.
  intros H1 H2 H3 H. apply (fill_loop ix setix rest (fun _ _ _ => True) (fun a _ _ => val a)) in H as (K1 & K2 & K3 & [U1 U2 U3 U4 U5]);
    [|done..|].
  - split_and!; [done..|]. constructor; try done. intros j Hj. destruct (U5 j Hj) as (v & v' & L1 & L2 & a & _ & L3 & L4 & _).
    exists v, v'. split_and!; [done|done|by exists a].
  - intros i a im1 u1 im2 E. run_step E. injection E0 as <- <-. run_step E. apply lift_inv in E0 as [E0 ->]. injection E as <- <-.
    exists 0. eexists. by split_and!.
Qed.
Lemma fill_pointed {A T B} (ix : Image -> Index T) (setix : Index T -> Image -> Image) (rest : Image -> B) (ref : A -> option nat)
    (set : A -> Z -> T -> T) l im (u : unit) im' :
  (forall x im, ix (setix x im) = x) -> (forall x im, rest (setix x im) = rest im) ->
  (forall x im, sections (setix x im) = sections im /\ node_offset_ (setix x im) = node_offset_ im) ->
  forM_ 0 (fun i a => p ← FilePointer nd TypeListNode (ref a);
    im ← get; x ← lift (update_at nd i (set a p) (ix im)); modify (setix x)) l im = Some (u, im') ->
  sections im' = sections im /\ node_offset_ im' = node_offset_ im /\ rest im' = rest im /\
  updated 0 (length l) (fun j v v' => exists a p, l !! j = Some a /\ v' = set a p v /\
    pointer (node_offset_ im) TypeListNode (ref a) p) (ix im) (ix im').
Proof.
  intros H1 H2 H3 H. apply (fill_loop ix setix rest (fun a p n => pointer n TypeListNode (ref a) p) set) in H; [exact H|done..|].
  intros i a im1 u1 im2 E. run_step E. rename a0 into p, im0 into im3.
  destruct (appends_pointer nd string_data_sec _ _ _ _ _ E0) as (bs & _ & Hp & _).
  assert (im3 = im1) as ->.
  { destruct (ref a) as [j|]; [|by injection E0]. cbn in E0. run_step E0. injection E1 as <- <-. run_step E0.
    apply lift_inv in E1 as [_ ->]. run_step E0. apply check_inv in E1 as [-> _]. by injection E0. }
  run_step E. injection E1 as <- <-. run_step E. apply lift_inv in E1 as [E1 ->]. injection E as <- <-.
  exists p. eexists. by split_and!.
Qed.
End Sections.

(** ** Everything that is created *)

(** The sections in the order of their offsets. *)
Definition layout_order : list section_id :=
  [string_data_sec; type_lists_sec; debug_info_sec; encoded_arrays_sec; code_sec; class_data_sec; ann_items_sec;
   ann_sets_sec; ann_set_ref_lists_sec; ann_directories_sec; map_list_sec].

(** Sections that lie one behind the other from [off] on, up to [last]. *)
Fixpoint chained (nd : bool) (im : Image) (l : list section_id) (off last : Z) : Prop :=
  match l with
  | [] => last = off
  | s :: l => exists size, finished nd (sections im s) off size /\ chained nd im l (u32 (off + size)) last
  end.

(** Every node is at the offset noted for it. *)
Record nodes_placed (nd : bool) (ir : DexFile) (im : Image) : Prop := {
  np_type_lists : forall i ts, type_lists (data_ ir) !! i = Some ts -> exists o, node_offset_ im TypeListNode !! i = Some o /\
    located 4 (fun ts => bool_decide (ts = [])) (type_list_item ir) (node_offset_ im) (sections im type_lists_sec) ts o;
  np_debug_infos : forall i d, debug_infos (data_ ir) !! i = Some d -> exists o, node_offset_ im DebugInfoNode !! i = Some o /\
    located 1 never (debug_item nd ir) (node_offset_ im) (sections im debug_info_sec) d o;
  np_codes : forall i c, codes (data_ ir) !! i = Some c -> exists o, node_offset_ im CodeNode !! i = Some o /\
    located 4 never (code_item nd ir) (node_offset_ im) (sections im code_sec) c o;
  np_annotations : forall i a, annotations (data_ ir) !! i = Some a -> visibility a <> kVisibilityEncoded ->
    exists o, node_offset_ im AnnotationNode !! i = Some o /\
    located 1 never (annotation_bytes nd ir) (node_offset_ im) (sections im ann_items_sec) a o;
  np_sets : forall i l, annotation_sets (data_ ir) !! i = Some l -> exists o, node_offset_ im AnnotationSetNode !! i = Some o /\
    located 4 never (pointers_item AnnotationNode) (node_offset_ im) (sections im ann_sets_sec) l o;
  np_set_ref_lists : forall i l, annotation_set_ref_lists (data_ ir) !! i = Some l ->
    exists o, node_offset_ im AnnotationSetRefListNode !! i = Some o /\
    located 4 never (pointers_item AnnotationSetNode) (node_offset_ im) (sections im ann_set_ref_lists_sec) l o }.

(** The file in the sections: each table has the file's values in order, and each
    item is at the offset noted for it. *)
Record holds (nd : bool) (ir : DexFile) (im : Image) : Prop := {
  h_strings : forall j a, strings (tbl ir) !! j = Some a -> exists o, values_ (string_ids im) !! j = Some o /\
    item_at 1 (sections im string_data_sec) o (string_bytes ir a);
  h_types : forall j t, types (tbl ir) !! j = Some t -> values_ (type_ids im) !! j = Some (type_id_of ir t);
  h_protos : forall j p, protos (tbl ir) !! j = Some p -> exists o, values_ (proto_ids im) !! j = Some (proto_id_of ir p o) /\
    pointer (node_offset_ im) TypeListNode (param_types (proto_node (nodes ir) p)) o;
  h_fields : forall j f, fields (tbl ir) !! j = Some f -> values_ (field_ids im) !! j = Some (field_id_of ir f);
  h_methods : forall j m, methods (tbl ir) !! j = Some m -> values_ (method_ids im) !! j = Some (method_id_of ir m);
  h_classes : forall j c, classes ir !! j = Some c -> exists p a d v,
    values_ (class_defs im) !! j = Some (class_def_of ir c p a d v) /\
    let cl := class_node (nodes ir) c in
    pointer (node_offset_ im) TypeListNode (interfaces cl) p /\
    class_item 4 (annotations_directories (data_ ir)) (directory_item ir) c_annotations cl a
      (node_offset_ im) (sections im ann_directories_sec) /\
    located 1 no_members (class_data ir) (node_offset_ im) (sections im class_data_sec) cl d /\
    class_item 1 (encoded_arrays (data_ ir)) (array_item nd ir) static_init cl v
      (node_offset_ im) (sections im encoded_arrays_sec);
  h_nodes : nodes_placed nd ir im;
  h_map : item_at 4 (sections im map_list_sec) (u32 (offset_ (sections im map_list_sec)))
    (u4_bytes (Z.of_nat (length (map_list_of im))) ++ concat (map map_item_bytes (map_list_of im))) }.

(** The part of this that is there before the index sections are filled. *)
Record holds_sections (nd : bool) (ir : DexFile) (im0 im : Image) : Prop := {
  hs_strings : updated 0 (length (strings (tbl ir))) (fun j _ o => exists a, strings (tbl ir) !! j = Some a /\
    item_at 1 (sections im string_data_sec) o (string_bytes ir a)) (string_ids im0) (string_ids im);
  hs_types : type_ids im = type_ids im0;
  hs_protos : proto_ids im = proto_ids im0;
  hs_fields : field_ids im = field_ids im0;
  hs_methods : method_ids im = method_ids im0;
  hs_classes : updated 0 (length (classes ir)) (fun j v0 v => exists c oa od ov, classes ir !! j = Some c /\
      v = set_annotations_off oa (set_class_data_off od (set_static_values_off ov v0)) /\
      let cl := class_node (nodes ir) c in
      class_item 4 (annotations_directories (data_ ir)) (directory_item ir) c_annotations cl oa
        (node_offset_ im) (sections im ann_directories_sec) /\
      located 1 no_members (class_data ir) (node_offset_ im) (sections im class_data_sec) cl od /\
      class_item 1 (encoded_arrays (data_ ir)) (array_item nd ir) static_init cl ov
        (node_offset_ im) (sections im encoded_arrays_sec)) (class_defs im0) (class_defs im);
  hs_nodes : forall im', sections im' = sections im -> node_offset_ im' = node_offset_ im -> nodes_placed nd ir im';
  hs_map : item_at 4 (sections im map_list_sec) (u32 (offset_ (sections im map_list_sec)))
    (u4_bytes (Z.of_nat (length (map_list_of im))) ++ concat (map map_item_bytes (map_list_of im)));
  hs_map_distinct : nd = false -> NoDup (map mp_offset (map_entries im));
  hs_map_count : count_ (sections im map_list_sec) = 1 }.

(** The index sections' places. *)
Record indexes_at (ir : DexFile) (im : Image) (d : Z) : Prop := {
  ia_strings : ix_offset (string_ids im) = sizeof_Header /\ ix_count (string_ids im) = u32 (Z.of_nat (length (strings (tbl ir)))) /\
    length (values_ (string_ids im)) = length (strings (tbl ir));
  ia_types : ix_offset (type_ids im) = u32 (ix_offset (string_ids im) + index_size 4 (string_ids im)) /\
    ix_count (type_ids im) = u32 (Z.of_nat (length (types (tbl ir)))) /\ length (values_ (type_ids im)) = length (types (tbl ir));
  ia_protos : ix_offset (proto_ids im) = u32 (ix_offset (type_ids im) + index_size 4 (type_ids im)) /\
    ix_count (proto_ids im) = u32 (Z.of_nat (length (protos (tbl ir)))) /\ length (values_ (proto_ids im)) = length (protos (tbl ir));
  ia_fields : ix_offset (field_ids im) = u32 (ix_offset (proto_ids im) + index_size 12 (proto_ids im)) /\
    ix_count (field_ids im) = u32 (Z.of_nat (length (fields (tbl ir)))) /\ length (values_ (field_ids im)) = length (fields (tbl ir));
  ia_methods : ix_offset (method_ids im) = u32 (ix_offset (field_ids im) + index_size 8 (field_ids im)) /\
    ix_count (method_ids im) = u32 (Z.of_nat (length (methods (tbl ir)))) /\ length (values_ (method_ids im)) = length (methods (tbl ir));
  ia_classes : ix_offset (class_defs im) = u32 (ix_offset (method_ids im) + index_size 8 (method_ids im)) /\
    ix_count (class_defs im) = u32 (Z.of_nat (length (classes ir))) /\ length (values_ (class_defs im)) = length (classes ir);
  ia_data : d = u32 (ix_offset (class_defs im) + index_size 32 (class_defs im)) }.

Ltac back := repeat match goal with
  | M : made _ ?s ?k _ _ _ _ ?im' |- context [sections ?im' ?s'] =>
      rewrite (fr_sections s k _ _ (md_frame _ _ _ _ _ _ _ _ M) s') by discriminate
  | M : made _ ?s ?k _ _ _ _ ?im' |- context [node_offset_ ?im' ?k'] =>
      rewrite (fr_nodes s k _ _ (md_frame _ _ _ _ _ _ _ _ M) k') by discriminate
  end.
Ltac forth := repeat match goal with
  | M : made _ _ _ _ ?im _ _ _ |- nodes_le (node_offset_ ?im) _ =>
      eapply nodes_le_trans; [exact (md_nodes _ _ _ _ _ _ _ _ M)|]
  end; apply nodes_le_refl.

Section Create.
Context (nd : bool) (ir : DexFile).

Lemma create_annotations off im size im' : CreateAnnItemSection nd ir off im = Some (size, im') ->
  sections im ann_items_sec = newSection -> node_offset_ im AnnotationNode = ∅ ->
  made nd ann_items_sec AnnotationNode (length (annotations (data_ ir))) im off size im' /\ ids im' = ids im /\
  (forall i a, annotations (data_ ir) !! i = Some a -> visibility a <> kVisibilityEncoded ->
    exists o, node_offset_ im' AnnotationNode !! i = Some o /\
    located 1 never (annotation_bytes nd ir) (node_offset_ im') (sections im' ann_items_sec) a o).
Proof.
  intros H Hnew Hnone. unfold CreateAnnItemSection in H.
  apply (create_nodes nd ann_items_sec AnnotationNode 1 (fun a => visibility a =? kVisibilityEncoded) never (annotation_bytes nd ir)
    (WriteAnnotationItem nd ir)) in H; [|done|done|apply annotation_mono| | |exact Hnew|exact Hnone].
  - destruct H as (H1 & H2 & H3 & _). split_and!; [done|done|]. intros i a Hi Hv. apply H3; [done|]. lia.
  - intros a im1 o im2 E. by apply emits_annotation.
  - intros i a im1 u im2 E. destruct (visibility a =? kVisibilityEncoded); cbn [negb whenM] in E; [by injection E|].
    by apply (write_nodes_body nd) in E.
Qed.

Lemma located_le {A} align (skip : A -> bool) R n n' x x' a o : monotone R -> nodes_le n n' -> x' = x ->
  located align skip R n x a o -> located align skip R n' x' a o.
Proof.
  intros HR Hn -> H. unfold located in *. destruct (skip a); [done|]. destruct H as (bs & H1 & H2). exists bs. split; [by eapply HR|done].
Qed.
Lemma class_item_le {A} align (src : list A) R node_of n n' x x' c o : monotone R -> nodes_le n n' -> x' = x ->
  class_item align src R node_of c o n x -> class_item align src R node_of c o n' x'.
Proof.
  intros HR Hn -> H. unfold class_item in *. destruct (node_of c) as [i|]; [|done].
  destruct H as (a & bs & H1 & H2 & H3). exists a, bs. split_and!; [done|by eapply HR|done].
Qed.

Lemma updated_weaken {T} i n (Q Q' : nat -> T -> T -> Prop) x y : (forall j v v', Q j v v' -> Q' j v v') ->
  updated i n Q x y -> updated i n Q' x y.
Proof.
  intros H [U1 U2 U3 U4 U5]. constructor; try assumption. intros j Hj. destruct (U5 j Hj) as (v & v' & K1 & K2 & K3).
  exists v, v'. split_and!; [done|done|by apply H].
Qed.
Lemma updated_trans {T} n (Q Q' : nat -> T -> T -> Prop) x y z : updated 0 n Q x y -> updated 0 n Q' y z ->
  updated 0 n (fun j v v' => exists w, Q j v w /\ Q' j w v') x z.
Proof.
  intros [U1 U2 U3 U4 U5] [V1 V2 V3 V4 V5]. constructor; [congruence|congruence|congruence|intros j Hj; lia|].
  intros j Hj. destruct (U5 j Hj) as (v & w & K1 & K2 & K3). destruct (V5 j Hj) as (w' & v' & K4 & K5 & K6).
  rewrite K2 in K4. injection K4 as <-. exists v, v'. split_and!; [done|done|by exists w].
Qed.

(** What is left alone. *)
Lemma ids_each im im' : ids im' = ids im -> string_ids im' = string_ids im /\ type_ids im' = type_ids im /\
  proto_ids im' = proto_ids im /\ field_ids im' = field_ids im /\ method_ids im' = method_ids im /\ class_defs im' = class_defs im.
Proof. intros E. injection E as E1 E2 E3 E4 E5 E6. split_and!; congruence. Qed.
Lemma classes_each im im' : rest_classes im' = rest_classes im -> string_ids im' = string_ids im /\ type_ids im' = type_ids im /\
  proto_ids im' = proto_ids im /\ field_ids im' = field_ids im /\ method_ids im' = method_ids im.
Proof. intros E. injection E as E1 E2 E3 E4 E5. split_and!; congruence. Qed.
Lemma strings_each im im' : rest_strings im' = rest_strings im -> type_ids im' = type_ids im /\
  proto_ids im' = proto_ids im /\ field_ids im' = field_ids im /\ method_ids im' = method_ids im /\ class_defs im' = class_defs im.
Proof. intros E. injection E as E1 E2 E3 E4 E5. split_and!; congruence. Qed.

(** How many items a section can have. *)
Definition most_items (ir : DexFile) (s : section_id) : nat :=
  match s with
  | string_data_sec => length (strings (tbl ir))
  | type_lists_sec => length (type_lists (data_ ir))
  | debug_info_sec => length (debug_infos (data_ ir))
  | encoded_arrays_sec | class_data_sec | ann_directories_sec => length (classes ir)
  | code_sec => length (codes (data_ ir))
  | ann_items_sec => length (annotations (data_ ir))
  | ann_sets_sec => length (annotation_sets (data_ ir))
  | ann_set_ref_lists_sec => length (annotation_set_ref_lists (data_ ir))
  | map_list_sec => 1
  end.

(** The sections, once they are all made. *)
Lemma sections_created d size im0 im : (forall s, sections im0 s = newSection) -> (forall k, node_offset_ im0 k = ∅) ->
  create_sections (all_sections nd ir) d im0 = Some (size, im) ->
  chained nd im layout_order d size /\ (forall s, counted (most_items ir s) (sections im s)) /\ holds_sections nd ir im0 im.
Proof.
  intros Hnew Hnone H. unfold all_sections in H.
  cbn [create_sections] in H. do 11 (run_step H). apply mret_inv in H as [-> ->].
  destruct (create_strings nd ir EncodedArrayNode _ _ _ _ E (Hnew _)) as (M1 & R1 & U1).
  assert (N1 : node_offset_ im1 EncodedArrayNode = ∅).
  { destruct (create_strings nd ir CodeNode _ _ _ _ E (Hnew _)) as (M1' & _). clear M1. back. apply Hnone. }
  destruct (create_written nd type_lists_sec TypeListNode 4 _ _ _ _ _ _ _ _ ltac:(lia) eq_refl (type_list_mono ir) (emits_type_list nd ir)
    E0 ltac:(back; apply Hnew) ltac:(back; apply Hnone)) as (M2 & I2 & L2 & _).
  destruct (create_written nd debug_info_sec DebugInfoNode 1 _ _ _ _ _ _ _ _ ltac:(lia) eq_refl (debug_mono nd ir) (emits_debug nd ir)
    E1 ltac:(back; apply Hnew) ltac:(back; apply Hnone)) as (M3 & I3 & L3 & _).
  destruct (create_shared nd ir encoded_arrays_sec 1 EncodedArrayNode _ _ _ _ _ _ _ _ _ ltac:(lia) eq_refl (array_mono nd ir)
    (static_values_memo nd ir) E2 ltac:(back; apply Hnew) ltac:(back; apply N1)) as (M4 & R4 & U4).
  destruct (create_written nd code_sec CodeNode 4 _ _ _ _ _ _ _ _ ltac:(lia) eq_refl (code_mono nd ir) (emits_code nd ir)
    E3 ltac:(back; apply Hnew) ltac:(back; apply Hnone)) as (M5 & I5 & L5 & _).
  destruct (create_class_data nd ir _ _ _ _ E4 ltac:(back; apply Hnew)) as (M6 & R6 & U6).
  destruct (create_annotations _ _ _ _ E5 ltac:(back; apply Hnew) ltac:(back; apply Hnone)) as (M7 & I7 & L7).
  destruct (create_written nd ann_sets_sec AnnotationSetNode 4 _ _ _ _ _ _ _ _ ltac:(lia) eq_refl
    (pointers_item_mono AnnotationNode eq_refl) (emits_pointers nd ann_sets_sec AnnotationNode)
    E6 ltac:(back; apply Hnew) ltac:(back; apply Hnone)) as (M8 & I8 & L8 & _).
  destruct (create_written nd ann_set_ref_lists_sec AnnotationSetRefListNode 4 _ _ _ _ _ _ _ _ ltac:(lia) eq_refl
    (pointers_item_mono AnnotationSetNode eq_refl) (emits_pointers nd ann_set_ref_lists_sec AnnotationSetNode)
    E7 ltac:(back; apply Hnew) ltac:(back; apply Hnone)) as (M9 & I9 & L9 & _).
  destruct (create_shared nd ir ann_directories_sec 4 AnnotationsDirectoryNode _ _ _ _ _ _ _ _ _ ltac:(lia) eq_refl (directory_mono ir)
    (annotations_memo nd ir) E8 ltac:(back; apply Hnew) ltac:(back; apply Hnone)) as (M10 & R10 & U10).
  destruct (create_map nd _ _ _ _ E9 ltac:(back; apply Hnew)) as (M11 & I11 & N11 & C11 & D11 & L11).
  clear E E0 E1 E2 E3 E4 E5 E6 E7 E8 E9.
  split.
  { cbn [chained layout_order]. repeat (eexists; split; [back; eapply md_section; eassumption|]). reflexivity. }
  split.
  { intros []; back; eapply md_count; eassumption. }
  repeat match goal with
  | I : ids _ = ids _ |- _ => apply ids_each in I as (? & ? & ? & ? & ? & ?)
  | I : rest_classes _ = rest_classes _ |- _ => apply classes_each in I as (? & ? & ? & ? & ?)
  | I : rest_strings _ = rest_strings _ |- _ => apply strings_each in I as (? & ? & ? & ? & ?)
  end.
  constructor; try congruence.
  - replace (string_ids im11) with (string_ids im1) by congruence. destruct U1 as [V1 V2 V3 V4 V5]. constructor; try assumption.
    intros j Hj. destruct (V5 j Hj) as (v & v' & K1 & K2 & x & K3 & K4). exists v, v'. split_and!; [done|done|].
    exists x. split; [done|]. back. exact K4.
  - replace (class_defs im3) with (class_defs im0) in U4 by congruence. replace (class_defs im5) with (class_defs im4) in U6 by congruence.
    replace (class_defs im9) with (class_defs im6) in U10 by congruence. replace (class_defs im11) with (class_defs im10) by congruence.
    eapply updated_weaken; [|exact (updated_trans _ _ _ _ _ _ (updated_trans _ _ _ _ _ _ U4 U6) U10)].
    intros j v0 v (v2 & (v1 & (c & ov & Hc & -> & P1) & c' & od & Hc' & -> & P2) & c'' & oa & Hc'' & -> & P3).
    rewrite Hc in Hc', Hc''. injection Hc' as <-. injection Hc'' as <-. exists c, oa, od, ov. split; [done|]. split; [done|]. cbv zeta. split_and!.
    + eapply class_item_le; [apply directory_mono| | |exact P3]; [forth|by back].
    + eapply located_le; [apply class_data_mono| | |exact P2]; [forth|by back].
    + eapply class_item_le; [apply array_mono| | |exact P1]; [forth|by back].
  - intros im' Hs Hn. constructor; rewrite Hs, Hn; intros i x Hi.
    + destruct (L2 i x Hi) as (o & Ho & Hl). exists o. split; [by back|]. eapply located_le; [apply type_list_mono| | |exact Hl]; [forth|by back].
    + destruct (L3 i x Hi) as (o & Ho & Hl). exists o. split; [by back|]. eapply located_le; [apply debug_mono| | |exact Hl]; [forth|by back].
    + destruct (L5 i x Hi) as (o & Ho & Hl). exists o. split; [by back|]. eapply located_le; [apply code_mono| | |exact Hl]; [forth|by back].
    + intros Hv. destruct (L7 i x Hi Hv) as (o & Ho & Hl). exists o. split; [by back|].
      eapply located_le; [apply annotation_mono| | |exact Hl]; [forth|by back].
    + destruct (L8 i x Hi) as (o & Ho & Hl). exists o. split; [by back|]. eapply located_le; [by apply pointers_item_mono| | |exact Hl]; [forth|by back].
    + destruct (L9 i x Hi) as (o & Ho & Hl). exists o. split; [by back|]. eapply located_le; [by apply pointers_item_mono| | |exact Hl]; [forth|by back].
  - rewrite (fin_offset _ _ _ _ (md_section _ _ _ _ _ _ _ _ M11)). exact L11.
  - exact D11.
Qed.

(** The map's entries do not depend on the values of the index sections. *)
Definition same_place {T} (x y : Index T) : Prop := ix_offset y = ix_offset x /\ ix_count y = ix_count x.
Lemma map_entries_same im im' : same_place (string_ids im) (string_ids im') -> same_place (type_ids im) (type_ids im') ->
  same_place (proto_ids im) (proto_ids im') -> same_place (field_ids im) (field_ids im') ->
  same_place (method_ids im) (method_ids im') -> same_place (class_defs im) (class_defs im') ->
  sections im' = sections im -> map_entries im' = map_entries im.
Proof.
  intros [a1 a2] [b1 b2] [c1 c2] [d1 d2] [e1 e2] [f1 f2] Hs. unfold map_entries, index_entry.
  rewrite a1, a2, b1, b2, c1, c2, d1, d2, e1, e2, f1, f2. do 7 f_equal. f_equal. apply map_ext. intros s.
  unfold section_entry. by rewrite Hs.
Qed.
Lemma updated_place {T} i n Q (x y : Index T) : updated i n Q x y -> same_place x y.
Proof. by intros [H1 H2 _ _ _]. Qed.

Lemma updated_value {T} n Q (x y : Index T) j : updated 0 n Q x y -> (j < n)%nat ->
  exists v v', values_ y !! j = Some v' /\ Q j v v'.
Proof. intros [_ _ _ _ U] Hj. destruct (U j Hj) as (v & v' & _ & H1 & H2). by exists v, v'. Qed.

Lemma chained_same im im' l last : sections im' = sections im -> forall off, chained nd im l off last -> chained nd im' l off last.
Proof.
  intros Hs. induction l as [|s l IH]; intros off; [done|]. cbn [chained]. intros (sz & F & C). exists sz. rewrite Hs.
  split; [exact F|by apply IH].
Qed.

Lemma create_all_ok d size im : create_all nd ir (new_image (fun _ => ∅)) = Some ((d, size), im) ->
  chained nd im layout_order d size /\ (forall s, counted (most_items ir s) (sections im s)) /\ indexes_at ir im d /\
  holds nd ir im /\
  count_ (sections im map_list_sec) = 1 /\ (nd = false -> NoDup (map mp_offset (map_entries im)) /\ d mod 4 = 0 /\ size mod 4 = 0).
Proof.
  intros H. unfold create_all in H. run_step H. rename im0 into ini, a into d0, E into Ei.
  run_step H. apply check_inv in E as [-> Hd]. run_step H. rename a0 into size0, im0 into im1, E into Es.
  run_step H. rename im0 into im2, E into E1. run_step H. rename im0 into im3, E into E2. run_step H. rename im0 into im4, E into E3.
  run_step H. rename im0 into im5, E into E4. run_step H. rename im0 into im6, E into E5.
  run_step H. apply check_inv in E as [-> Hz]. apply mret_inv in H as [[= -> ->] ->].
  unfold init_indexes in Ei. injection Ei as Hd0 Hini.
  assert (Hs0 : forall s, sections ini s = newSection) by (by subst ini). assert (Hn0 : forall k, node_offset_ ini k = ∅) by (by subst ini).
  destruct (sections_created _ _ _ _ Hs0 Hn0 Es) as (C & Hcount & HS).
  apply (fill_plain nd type_ids set_type_ids rest_types (type_id_of ir)) in E1 as (S1 & N1 & R1 & U1); [|done..].
  apply (fill_plain nd field_ids set_field_ids rest_fields (field_id_of ir)) in E2 as (S2 & N2 & R2 & U2); [|done..].
  apply (fill_pointed nd proto_ids set_proto_ids rest_protos (fun p => param_types (proto_node (nodes ir) p))
    (fun p o _ => proto_id_of ir p o)) in E3 as (S3 & N3 & R3 & U3); [|done..].
  apply (fill_plain nd method_ids set_method_ids rest_methods (method_id_of ir)) in E4 as (S4 & N4 & R4 & U4); [|done..].
  apply (fill_pointed nd class_defs set_class_defs rest_classes (fun c => interfaces (class_node (nodes ir) c))
    (fun c p def => class_def_of ir c p (annotations_off def) (class_data_off def) (static_values_off def))) in E5
    as (S5 & N5 & R5 & U5); [|done..].
  assert (Hs : sections im6 = sections im1) by congruence. assert (Hn : node_offset_ im6 = node_offset_ im1) by congruence.
  injection R1 as ? ? ? ? ?. injection R2 as ? ? ? ? ?. injection R3 as ? ? ? ? ?. injection R4 as ? ? ? ? ?. injection R5 as ? ? ? ? ?.
  assert (Es' : string_ids im6 = string_ids im1) by congruence. assert (Et : type_ids im6 = type_ids im2) by congruence.
  assert (Ef : field_ids im6 = field_ids im3) by congruence. assert (Ep : proto_ids im6 = proto_ids im4) by congruence.
  assert (Em : method_ids im6 = method_ids im5) by congruence.
  pose proof (hs_strings _ _ _ _ HS) as U0. pose proof (hs_classes _ _ _ _ HS) as Uc. rewrite <- Es' in U0.
  rewrite (hs_types _ _ _ _ HS), <- Et in U1. replace (field_ids im2) with (field_ids ini) in U2 by (rewrite <- (hs_fields _ _ _ _ HS); congruence).
  replace (proto_ids im3) with (proto_ids ini) in U3 by (rewrite <- (hs_protos _ _ _ _ HS); congruence).
  replace (method_ids im4) with (method_ids ini) in U4 by (rewrite <- (hs_methods _ _ _ _ HS); congruence).
  replace (class_defs im5) with (class_defs im1) in U5 by congruence. rewrite <- Ef in U2. rewrite <- Ep in U3. rewrite <- Em in U4.
  assert (Hmap : map_entries im6 = map_entries im1).
  { apply map_entries_same; try (by rewrite Es'); try exact Hs.
    - rewrite (hs_types _ _ _ _ HS). by eapply updated_place.
    - rewrite (hs_protos _ _ _ _ HS). by eapply updated_place.
    - rewrite (hs_fields _ _ _ _ HS). by eapply updated_place.
    - rewrite (hs_methods _ _ _ _ HS). by eapply updated_place.
    - by eapply updated_place. }
  clear Es. subst ini. unfold init_indexes in *. cbn [set_ids string_ids type_ids proto_ids field_ids method_ids class_defs] in U0, U1, U2, U3, U4, Uc.
  split; [|split; [|split; [|split; [|split]]]].
  - by eapply chained_same.
  - intros s. by rewrite Hs.
  - pose proof (updated_trans _ _ _ _ _ _ Uc U5) as U6.
    destruct U0 as [P1 P2 P3 _ _], U1 as [P4 P5 P6 _ _], U2 as [P7 P8 P9 _ _], U3 as [P10 P11 P12 _ _], U4 as [P13 P14 P15 _ _],
      U6 as [P16 P17 P18 _ _].
    constructor; unfold index_size; rewrite ?P1, ?P2, ?P3, ?P4, ?P5, ?P6, ?P7, ?P8, ?P9, ?P10, ?P11, ?P12, ?P13, ?P14, ?P15, ?P16, ?P17, ?P18;
      cbn [ix_offset ix_count values_ Init]; rewrite ?repeat_length; try (split_and!; reflexivity).
    by symmetry.
  - constructor.
    + intros j q Hj. destruct (updated_value _ _ _ _ j U0 ltac:(by eapply lookup_lt_Some)) as (v & v' & Hv & x & Hx & Hi).
      rewrite Hj in Hx. injection Hx as <-. exists v'. split; [done|]. by rewrite Hs.
    + intros j t Hj. destruct (updated_value _ _ _ _ j U1 ltac:(by eapply lookup_lt_Some)) as (v & v' & Hv & x & Hx & ->). congruence.
    + intros j q Hj. destruct (updated_value _ _ _ _ j U3 ltac:(by eapply lookup_lt_Some)) as (v & v' & Hv & x & o & Hx & -> & Ho).
      rewrite Hj in Hx. injection Hx as <-. exists o. split; [done|]. by replace (node_offset_ im6) with (node_offset_ im3) by congruence.
    + intros j t Hj. destruct (updated_value _ _ _ _ j U2 ltac:(by eapply lookup_lt_Some)) as (v & v' & Hv & x & Hx & ->). congruence.
    + intros j t Hj. destruct (updated_value _ _ _ _ j U4 ltac:(by eapply lookup_lt_Some)) as (v & v' & Hv & x & Hx & ->). congruence.
    + intros j c Hj.
      destruct (updated_value _ _ _ _ j (updated_trans _ _ _ _ _ _ Uc U5) ltac:(by eapply lookup_lt_Some)) as
        (v & v' & Hv & w & (x & oa & od & ov & Hx & -> & Ha & Hdt & Hst) & y & q & Hy & -> & Hq).
      rewrite Hj in Hx, Hy. injection Hx as <-. injection Hy as <-. exists q, oa, od, ov. split; [exact Hv|].
      cbv zeta. rewrite Hs, Hn. split_and!; [|done|done|done].
      by replace (node_offset_ im1) with (node_offset_ im5) by congruence.
    + by apply (hs_nodes _ _ _ _ HS).
    + unfold map_list_of. rewrite Hmap, Hs. apply (hs_map _ _ _ _ HS).
  - rewrite Hs. apply (hs_map_count _ _ _ _ HS).
  - intros Hnd. rewrite Hmap. split_and!; [by apply (hs_map_distinct _ _ _ _ HS)|specialize (Hd Hnd); lia|specialize (Hz Hnd); lia].
Qed.
End Create.
