(* ===== verification/DexImageSpec.v ===== *)
(** The bytes of the image: the header, the sections one behind the other, and the
    file they hold. *)
From Stdlib Require Import Sorted.
From S2P Require Import Prelude Leb128 SlicerBuffer DexBytecode DexCode DexValue DexDebug DexDebugSpec DexTry.
From S2P Require Import DexOrder DexIr DexBuilder Sha1 DexWriter DexWriterSpec DexImage.

(** ** Copying blocks *)

(** The bytes [bs] are in [img] at offset [o]. *)
Definition at_img (img : list byte) (o : Z) (bs : list byte) : Prop := slice (Z.to_nat o) (length bs) img = bs.

Abbreviation block := (Z * list byte)%type.
Definition block_end (b : block) : Z := b.1 + Z.of_nat (length b.2).

Fixpoint ascending_from (off : Z) (l : list block) : Prop :=
  match l with [] => True | b :: l => off <= b.1 /\ ascending_from (block_end b) l end.
Fixpoint consecutive (off : Z) (l : list block) : Prop :=
  match l with [] => True | b :: l => b.1 = off /\ consecutive (block_end b) l end.

Definition copy_block (img : list byte) (b : block) : list byte := splice (Z.to_nat b.1) b.2 img.
Definition inside (size : Z) (b : block) : Prop := 0 <= b.1 /\ block_end b <= size.

Lemma ascending_weaken off off' l : off' <= off -> ascending_from off l -> ascending_from off' l.
Proof. destruct l as [|b l]; [done|]. cbn. intros H [H1 H2]. split; [lia|done]. Qed.
Lemma consecutive_ascending off l : consecutive off l -> ascending_from off l.
Proof. revert off. induction l as [|b l IH]; intros off; [done|]. cbn. intros [<- H]. split; [lia|by apply IH]. Qed.
Lemma ascending_all off l b : ascending_from off l -> b ∈ l -> off <= b.1.
Proof.
  revert off. induction l as [|c l IH]; intros off; [by intros _ H%not_elem_of_nil|]. cbn. intros [H1 H2] [->|Hb]%elem_of_cons; [done|].
  specialize (IH _ H2 Hb). unfold block_end in IH. lia.
Qed.
Lemma ascending_split off l1 b l2 : ascending_from off (l1 ++ b :: l2) ->
  (forall c, c ∈ l1 -> block_end c <= b.1) /\ (forall c, c ∈ l2 -> block_end b <= c.1).
Proof.
  revert off. induction l1 as [|c l1 IH]; intros off; cbn.
  - intros [_ H]. split; [by intros c Hc%not_elem_of_nil|]. intros c. by apply ascending_all.
  - intros [_ H]. destruct (IH _ H) as [H1 H2]. split; [|done]. intros d [->|Hd]%elem_of_cons; [|by apply H1].
    eapply ascending_all; [exact H|]. set_solver.
Qed.

Lemma copy_block_length size img b : Z.of_nat (length img) = size -> inside size b -> Z.of_nat (length (copy_block img b)) = size.
Proof. unfold inside, block_end, copy_block. intros Hl Hb. rewrite length_splice; lia. Qed.
Lemma copy_block_at size img b : Z.of_nat (length img) = size -> inside size b -> at_img (copy_block img b) b.1 b.2.
Proof. unfold inside, block_end, copy_block, at_img. intros Hl Hb. apply slice_splice_same. lia. Qed.
Lemma copy_block_other size img b o bs : Z.of_nat (length img) = size -> inside size b -> 0 <= o ->
  (o + Z.of_nat (length bs) <= b.1 \/ block_end b <= o) -> at_img img o bs -> at_img (copy_block img b) o bs.
Proof.
  unfold inside, block_end, copy_block, at_img. intros Hl Hb Ho Hd H. rewrite slice_splice_other; [done|lia|lia].
Qed.

Lemma copy_blocks_keep size l : forall img o bs, Z.of_nat (length img) = size -> Forall (inside size) l -> 0 <= o ->
  (forall c, c ∈ l -> o + Z.of_nat (length bs) <= c.1 \/ block_end c <= o) -> at_img img o bs ->
  at_img (foldl copy_block img l) o bs.
Proof.
  induction l as [|b l IH]; intros img o bs Hl Hin Ho Hd H; cbn [foldl]; [done|]. apply Forall_cons in Hin as [Hb Hin].
  apply IH; [by apply copy_block_length|done|done|intros c Hc; apply Hd; by right|].
  eapply copy_block_other; [done|done|done|apply Hd; by left|done].
Qed.
Lemma copy_blocks_length size l : forall img, Z.of_nat (length img) = size -> Forall (inside size) l ->
  Z.of_nat (length (foldl copy_block img l)) = size.
Proof.
  induction l as [|b l IH]; intros img Hl Hin; [done|]. apply Forall_cons in Hin as [Hb Hin]. apply IH; [|done]. by apply copy_block_length.
Qed.

(** Blocks that do not overlap are all there, in whatever order they were copied. *)
Lemma copy_blocks_at size l sorted img b : Z.of_nat (length img) = size -> ascending_from 0 sorted -> l ≡ₚ sorted ->
  Forall (inside size) sorted -> b ∈ l -> at_img (foldl copy_block img l) b.1 b.2.
Proof.
  intros Hl Ha Hp Hin Hb. assert (Hin' : Forall (inside size) l) by (by rewrite Hp).
  apply list_elem_of_split in Hb as (l1 & l2 & ->). rewrite foldl_app. cbn [foldl].
  apply Forall_app in Hin' as [Hin1 Hin2]. apply Forall_cons in Hin2 as [Hb Hin2].
  pose proof (copy_blocks_length size l1 img Hl Hin1) as Hl1.
  assert (Hp' : sorted ≡ₚ b :: (l1 ++ l2)) by (rewrite <- Hp; by rewrite Permutation_middle).
  destruct (Permutation_vs_cons_inv Hp') as (s1 & s2 & ->). rewrite <- Permutation_middle in Hp'. apply Permutation_cons_inv in Hp'.
  destruct (ascending_split _ _ _ _ Ha) as [H1 H2].
  apply (copy_blocks_keep size); [by apply copy_block_length|done|apply Hb| |by eapply copy_block_at].
  intros c Hc. assert (Hc' : c ∈ s1 ++ s2) by (rewrite Hp'; set_solver). apply elem_of_app in Hc' as [Hc'|Hc'].
  - right. by apply H1.
  - left. by apply H2.
Qed.

(** ** The layout *)

Definition id_blocks (im : Image) : list block :=
  [(ix_offset (string_ids im), concat (map u4_bytes (values_ (string_ids im))));
   (ix_offset (type_ids im), concat (map u4_bytes (values_ (type_ids im))));
   (ix_offset (proto_ids im), concat (map proto_id_bytes (values_ (proto_ids im))));
   (ix_offset (field_ids im), concat (map field_id_bytes (values_ (field_ids im))));
   (ix_offset (method_ids im), concat (map method_id_bytes (values_ (method_ids im))));
   (ix_offset (class_defs im), concat (map class_def_bytes (values_ (class_defs im))))].
Definition sec_block (im : Image) (s : section_id) : block := (offset_ (sections im s), bytes_ (sections im s)).
Definition data_blocks (im : Image) : list block := id_blocks im ++ map (sec_block im) layout_order.

Definition bytes_in (l : list block) : Z := Z.of_nat (length (concat (map snd l))).
Definition image_length (im : Image) : Z := sizeof_Header + bytes_in (data_blocks im).

(** The image and the vectors of the IR are below 4 GB. *)
Record fits (ir : DexFile) (im : Image) : Prop := {
  fit_length : image_length im < 2 ^ 32;
  fit_items : forall s, Z.of_nat (most_items ir s) < 2 ^ 32 }.

Lemma bytes_in_cons b l : bytes_in (b :: l) = Z.of_nat (length b.2) + bytes_in l.
Proof. unfold bytes_in. cbn. rewrite length_app. lia. Qed.
Lemma bytes_in_app l l' : bytes_in (l ++ l') = bytes_in l + bytes_in l'.
Proof. unfold bytes_in. rewrite map_app, concat_app, length_app. lia. Qed.
Lemma bytes_in_nonneg l : 0 <= bytes_in l.
Proof. unfold bytes_in. lia. Qed.

Lemma length_encoded {T} (f : T -> list byte) n l : (forall x, length (f x) = n) -> length (concat (map f l)) = (n * length l)%nat.
Proof. intros H. induction l as [|x l IH]; cbn; [lia|]. rewrite length_app, H, IH. lia. Qed.
Lemma length_u4 x : length (u4_bytes x) = 4%nat.
Proof. done. Qed.
Lemma length_proto_id x : length (proto_id_bytes x) = 12%nat.
Proof. done. Qed.
Lemma length_field_id x : length (field_id_bytes x) = 8%nat.
Proof. done. Qed.
Lemma length_method_id x : length (method_id_bytes x) = 8%nat.
Proof. done. Qed.
Lemma length_class_def x : length (class_def_bytes x) = 32%nat.
Proof. done. Qed.

Lemma consecutive_app off l l' : consecutive off (l ++ l') <-> consecutive off l /\ consecutive (off + bytes_in l) l'.
Proof.
  revert off. induction l as [|b l IH]; intros off; cbn [app consecutive].
  - change (bytes_in []) with 0. rewrite Z.add_0_r. tauto.
  - rewrite IH, bytes_in_cons. unfold block_end. split.
    + intros (<- & H1 & H2). split_and!; [done|done|]. by rewrite Z.add_assoc.
    + intros ((<- & H1) & H2). split_and!; [done|done|]. by rewrite Z.add_assoc in H2.
Qed.

Lemma chained_consecutive nd im l last : forall off, 0 <= off -> off + bytes_in (map (sec_block im) l) < 2 ^ 32 -> chained nd im l off last ->
  consecutive off (map (sec_block im) l) /\ last = off + bytes_in (map (sec_block im) l).
Proof.
  induction l as [|s l IH]; intros off Ho Hb; cbn [chained map consecutive].
  - intros ->. change (bytes_in []) with 0. split; [done|lia].
  - intros (sz & [F1 F2 F3 F4] & C). cbn [map] in Hb. rewrite bytes_in_cons in *. cbn [fst snd sec_block] in *.
    pose proof (bytes_in_nonneg (map (sec_block im) l)) as Hn. unfold block_end. cbn [fst snd sec_block].
    set (n := Z.of_nat (length (bytes_ (sections im s)))) in *. assert (0 <= n) by (subst n; lia). clearbody n.
    rewrite F2, (trunc_small 32 n), (trunc_small 32 (off + n)) in C by lia.
    destruct (IH (off + n) ltac:(lia) ltac:(lia) C) as [H1 ->].
    rewrite F1. split_and!; [done|done|lia].
Qed.

Lemma index_step {T} (x : Index T) off n k : ix_count x = u32 (Z.of_nat n) -> 1 <= k -> 0 <= off -> off + Z.of_nat n * k < 2 ^ 32 ->
  u32 (off + index_size k x) = off + Z.of_nat n * k.
Proof.
  unfold index_size. intros -> Hk Ho Hb. assert (Z.of_nat n <= Z.of_nat n * k) by nia.
  rewrite (trunc_small 32 (Z.of_nat n)), (trunc_small 32 (Z.of_nat n * k)), trunc_small; lia.
Qed.

Section Layout.
Context (nd : bool) (ir : DexFile) (im : Image) (d size : Z).
Context (Hchain : chained nd im layout_order d size) (Hcount : forall s, counted (most_items ir s) (sections im s)).
Context (Hids : indexes_at ir im d) (Hfit : fits ir im).

Lemma id_blocks_bytes : bytes_in (id_blocks im) =
  4 * Z.of_nat (length (strings (tbl ir))) + 4 * Z.of_nat (length (types (tbl ir))) + 12 * Z.of_nat (length (protos (tbl ir))) +
  8 * Z.of_nat (length (fields (tbl ir))) + 8 * Z.of_nat (length (methods (tbl ir))) + 32 * Z.of_nat (length (classes ir)).
Proof.
  destruct Hids as [(_ & _ & L1) (_ & _ & L2) (_ & _ & L3) (_ & _ & L4) (_ & _ & L5) (_ & _ & L6) _].
  unfold id_blocks. rewrite !bytes_in_cons. cbn [fst snd]. change (bytes_in []) with 0.
  rewrite !(length_encoded _ _ _ length_u4), (length_encoded _ _ _ length_proto_id), (length_encoded _ _ _ length_field_id),
    (length_encoded _ _ _ length_method_id), (length_encoded _ _ _ length_class_def). rewrite L1, L2, L3, L4, L5, L6. lia.
Qed.

Lemma layout_ok : consecutive sizeof_Header (data_blocks im) /\ d = sizeof_Header + bytes_in (id_blocks im) /\ size = image_length im.
Proof.
  pose proof (fit_length _ _ Hfit) as Hl. unfold image_length in Hl. unfold data_blocks in *. rewrite bytes_in_app in Hl.
  pose proof id_blocks_bytes as Hb. pose proof (bytes_in_nonneg (map (sec_block im) layout_order)) as Hn.
  assert (Hid : consecutive sizeof_Header (id_blocks im) /\ d = sizeof_Header + bytes_in (id_blocks im)).
  { rewrite Hb in *. change sizeof_Header with 112 in *.
    destruct Hids as [(O1 & C1 & L1) (O2 & C2 & L2) (O3 & C3 & L3) (O4 & C4 & L4) (O5 & C5 & L5) (O6 & C6 & L6) Hd].
    set (n1 := length (strings _)) in *. set (n2 := length (types _)) in *. set (n3 := length (protos _)) in *.
    set (n4 := length (fields _)) in *. set (n5 := length (methods _)) in *. set (n6 := length (classes _)) in *. clearbody n1 n2 n3 n4 n5 n6.
    change sizeof_Header with 112 in *. rewrite (index_step _ _ n1 4 C1) in O2 by lia. rewrite (index_step _ _ n2 4 C2) in O3 by lia.
    rewrite (index_step _ _ n3 12 C3) in O4 by lia. rewrite (index_step _ _ n4 8 C4) in O5 by lia.
    rewrite (index_step _ _ n5 8 C5) in O6 by lia. rewrite (index_step _ _ n6 32 C6) in Hd by lia.
    unfold id_blocks, block_end. cbn [consecutive fst snd]. unfold block_end. cbn [fst snd].
    rewrite !(length_encoded _ _ _ length_u4), (length_encoded _ _ _ length_proto_id), (length_encoded _ _ _ length_field_id),
      (length_encoded _ _ _ length_method_id). change sizeof_Header with 112 in *. rewrite L1, L2, L3, L4, L5.
    split_and!; lia. }
  destruct Hid as [Hid Hd]. rewrite Hd in Hchain. change sizeof_Header with 112 in *.
  destruct (chained_consecutive nd im layout_order size (112 + bytes_in (id_blocks im))) as [H1 H2]; [|lia|exact Hchain|].
  { pose proof (bytes_in_nonneg (id_blocks im)). lia. }
  split_and!; [by apply consecutive_app|done|]. unfold image_length. unfold data_blocks. rewrite bytes_in_app.
  change sizeof_Header with 112. lia.
Qed.
End Layout.

(** ** The header *)

Definition section_off {T} (x : Index T) : Z := if 0 <? ix_count x then ix_offset x else 0.

(** The header of an image whose data starts at [d]. *)
Definition header_of (im : Image) (d : Z) : Header := {|
  h_file_size := image_length im; h_header_size := sizeof_Header; h_endian_tag := kEndianConstant;
  h_link_size := 0; h_link_off := 0; h_map_off := offset_ (sections im map_list_sec);
  h_string_ids_size := ix_count (string_ids im); h_string_ids_off := section_off (string_ids im);
  h_type_ids_size := ix_count (type_ids im); h_type_ids_off := section_off (type_ids im);
  h_proto_ids_size := ix_count (proto_ids im); h_proto_ids_off := section_off (proto_ids im);
  h_field_ids_size := ix_count (field_ids im); h_field_ids_off := section_off (field_ids im);
  h_method_ids_size := ix_count (method_ids im); h_method_ids_off := section_off (method_ids im);
  h_class_defs_size := ix_count (class_defs im); h_class_defs_off := section_off (class_defs im);
  h_data_size := u32 (image_length im - d); h_data_off := d |}.

Lemma IndexOffset_inv {T} nd (x : Index T) o : IndexOffset nd x = Some o -> o = section_off x.
Proof. unfold IndexOffset. destruct (SLICER_CHECK _ _); [|done]. by intros [= <-]. Qed.
Lemma SectionOffset_inv nd x o : SectionOffset nd x = Some o -> 0 < count_ x -> o = offset_ x.
Proof.
  unfold SectionOffset. destruct (SLICER_CHECK _ _); [|done]. intros [= <-] H. by rewrite (proj2 (Z.ltb_lt _ _) H).
Qed.

Lemma make_header_inv nd im d h : make_header nd im d (image_length im) = Some h -> count_ (sections im map_list_sec) = 1 ->
  h = header_of im d.
Proof.
  unfold make_header. intros H Hc. apply bind_Some in H as (mo & E0 & H). apply SectionOffset_inv in E0 as ->; [|lia].
  repeat (apply bind_Some in H as (? & E & H); apply IndexOffset_inv in E as ->). by injection H as <-.
Qed.

Lemma length_header h : length (concat (map u4_bytes (header_words h))) = 80%nat.
Proof. done. Qed.

(** ** The copies *)

Lemma copy_to_inv o bs img img' : copy_to o bs img = Some img' ->
  o + Z.of_nat (length bs) <= Z.of_nat (length img) /\ img' = copy_block img (o, bs).
Proof. unfold copy_to. destruct (Z.ltb_spec (Z.of_nat (length img)) (o + Z.of_nat (length bs))); [done|]. by intros [= <-]. Qed.
Lemma copy_block_nil img o : copy_block img (o, []) = img.
Proof. unfold copy_block, splice. cbn. by rewrite Nat.add_0_r, take_drop. Qed.

Lemma CopySection_inv nd count off (o : Z) bs img img' : Z.of_nat (length bs) < 2 ^ 32 ->
  (bs <> [] -> forall o', off = Some o' -> o' = o) -> CopySection nd count off bs img = Some img' -> img' = copy_block img (o, bs).
Proof.
  intros Hl Ho. unfold CopySection. rewrite trunc_small by lia. destruct (Z.eqb_spec (Z.of_nat (length bs)) 0) as [Hz|Hz].
  - assert (bs = []) as -> by (by apply nil_length_inv; lia). destruct (SLICER_CHECK _ _); [|done]. cbn.
    intros [= <-]. by rewrite copy_block_nil.
  - intros (u1 & _ & H)%bind_Some. apply bind_Some in H as (o' & E & H). apply bind_Some in H as (u2 & _ & H).
    apply bind_Some in H as (u3 & _ & H). apply copy_to_inv in H as [_ ->].
    rewrite (Ho ltac:(intros ->; by apply Hz) o' E). done.
Qed.

Section Copies.
Context (nd : bool) (ir : DexFile) (im : Image) (d : Z).
Context (Hcount : forall s, counted (most_items ir s) (sections im s)) (Hids : indexes_at ir im d) (Hfit : fits ir im).

Lemma block_small b : b ∈ data_blocks im -> Z.of_nat (length b.2) < 2 ^ 32.
Proof.
  intros Hb. pose proof (fit_length _ _ Hfit) as Hl. unfold image_length in Hl. change sizeof_Header with 112 in Hl.
  apply list_elem_of_split in Hb as (l1 & l2 & E). rewrite E, bytes_in_app, bytes_in_cons in Hl.
  pose proof (bytes_in_nonneg l1). pose proof (bytes_in_nonneg l2). lia.
Qed.

Lemma copy_index_inv {T} (encode : T -> list byte) (x : Index T) img img' :
  (ix_offset x, concat (map encode (values_ x))) ∈ data_blocks im -> (values_ x <> [] -> 0 < ix_count x) ->
  copy_index nd encode x img = Some img' -> img' = copy_block img (ix_offset x, concat (map encode (values_ x))).
Proof.
  intros Hb Hc. apply CopySection_inv; [exact (block_small _ Hb)|]. intros Hne o' E. apply IndexOffset_inv in E as ->. unfold section_off.
  rewrite (proj2 (Z.ltb_lt _ _)); [done|]. apply Hc. intros Hv. apply Hne. by rewrite Hv.
Qed.
Lemma copy_section_inv s img img' : s ∈ layout_order -> copy_section nd im s img = Some img' -> img' = copy_block img (sec_block im s).
Proof.
  intros Hs. apply CopySection_inv.
  - apply (block_small (sec_block im s)). apply elem_of_app. right. by apply list_elem_of_fmap_2.
  - intros Hne o' E. apply SectionOffset_inv in E as ->; [done|]. destruct (Hcount s) as (m & Hm & -> & Hz).
    pose proof (fit_items _ _ Hfit s). rewrite trunc_small by lia. destruct m; [by destruct Hne; apply Hz|lia].
Qed.
Lemma copy_all_inv l : forall img img', (forall s, s ∈ l -> s ∈ layout_order) ->
  foldl (fun image s => image ← image; copy_section nd im s image) (Some img) l = Some img' ->
  img' = foldl copy_block img (map (sec_block im) l).
Proof.
  induction l as [|s l IH]; intros img img' Hl H; cbn in H; [by injection H|].
  destruct (copy_section nd im s img) as [img1|] eqn:E; [|exfalso; clear -H; induction l; [done|apply IHl, H]].
  apply IH in H; [|set_solver]. apply copy_section_inv in E as ->; [|set_solver]. exact H.
Qed.

Lemma id_counts : ix_count (string_ids im) = Z.of_nat (length (values_ (string_ids im))) /\
  ix_count (type_ids im) = Z.of_nat (length (values_ (type_ids im))) /\
  ix_count (proto_ids im) = Z.of_nat (length (values_ (proto_ids im))) /\
  ix_count (field_ids im) = Z.of_nat (length (values_ (field_ids im))) /\
  ix_count (method_ids im) = Z.of_nat (length (values_ (method_ids im))) /\
  ix_count (class_defs im) = Z.of_nat (length (values_ (class_defs im))).
Proof.
  pose proof (fit_length _ _ Hfit) as Hl. unfold image_length, data_blocks in Hl. rewrite bytes_in_app in Hl.
  rewrite (id_blocks_bytes ir im d Hids) in Hl. pose proof (bytes_in_nonneg (map (sec_block im) layout_order)).
  change sizeof_Header with 112 in Hl.
  destruct Hids as [(_ & C1 & L1) (_ & C2 & L2) (_ & C3 & L3) (_ & C4 & L4) (_ & C5 & L5) (_ & C6 & L6) _].
  rewrite C1, C2, C3, C4, C5, C6, L1, L2, L3, L4, L5, L6.
  split_and!; apply trunc_small; lia.
Qed.

Lemma copy_sections_inv img img' : copy_sections nd im img = Some img' ->
  img' = foldl copy_block img (id_blocks im ++ map (sec_block im) map_order).
Proof.
  destruct id_counts as (C1 & C2 & C3 & C4 & C5 & C6).
  assert (Hne : forall {T} (x : Index T), ix_count x = Z.of_nat (length (values_ x)) -> values_ x <> [] -> 0 < ix_count x).
  { intros T x -> Hx. destruct (values_ x); [done|cbn; lia]. }
  unfold copy_sections. intros H.
  repeat (apply bind_Some in H as (? & E & H); apply copy_index_inv in E as ->; [|unfold data_blocks, id_blocks; set_solver|by apply Hne]).
  apply copy_all_inv in H as ->; [|intros s _; destruct s; unfold layout_order; set_solver]. done.
Qed.
End Copies.

(** ** The image *)

Section Image.
Context (nd : bool) (adler32 : Z -> option (list byte) -> Z) (Allocate : Z -> bool) (fresh : list byte) (checksum : bool).

(** [img] is the image of the sections in [im]. *)
Record image_of (ir : DexFile) (im : Image) (d : Z) (img : list byte) : Prop := {
  io_length : Z.of_nat (length img) = image_length im;
  io_magic : at_img img 0 (magic ir);
  io_header : at_img img 32 (concat (map u4_bytes (header_words (header_of im d))));
  io_blocks : forall b, b ∈ data_blocks im -> at_img img b.1 b.2;
  io_checksum : at_img img 8 (u4_bytes (u32 (adler32 (adler32 0 None) (Some (drop 12 img)))));
  io_digest : checksum = true -> exists digest, sha1 fresh (drop 32 img) = Some digest /\ at_img img 12 digest }.

Lemma map_order_perm : map_order ≡ₚ layout_order.
Proof. unfold map_order, layout_order. solve_Permutation. Qed.

Lemma consecutive_inside off l size : consecutive off l -> 0 <= off -> off + bytes_in l <= size -> Forall (inside size) l.
Proof.
  revert off. induction l as [|b l IH]; intros off; [constructor|]. cbn [consecutive]. rewrite bytes_in_cons. intros [<- H] Ho Hs.
  pose proof (bytes_in_nonneg l). unfold block_end in H. constructor; [unfold inside, block_end; lia|]. eapply IH; [exact H|lia|lia].
Qed.

Lemma drop_copy (o : nat) bs (img : list byte) : (o + length bs <= length img)%nat ->
  drop (o + length bs) (copy_block img (Z.of_nat o, bs)) = drop (o + length bs) img.
Proof.
  intros H. unfold copy_block, splice. cbn [fst snd]. rewrite Nat2Z.id, app_assoc. apply drop_app_length'.
  rewrite length_app, length_take. lia.
Qed.

(** The end of [CreateImage], from the header on. *)
Definition finish_image (ir : DexFile) (im : Image) (d size : Z) : option (list byte) :=
  h ← make_header nd im d size;
  let image := repeat 0 (Z.to_nat size) in
  image ← copy_to 0 (magic ir) image;
  image ← copy_to 32 (concat (map u4_bytes (header_words h))) image;
  image ← copy_sections nd im image;
  image ← (if checksum then
    digest ← sha1 fresh (take (Z.to_nat (h_file_size h - 32)) (drop 32 image));
    copy_to 12 digest image
    else Some image);
  copy_to 8 (u4_bytes (ComputeChecksum adler32 image (h_file_size h))) image.

Lemma finish_ok ir im d img : (forall s, counted (most_items ir s) (sections im s)) -> indexes_at ir im d -> fits ir im ->
  consecutive sizeof_Header (data_blocks im) -> count_ (sections im map_list_sec) = 1 -> length (magic ir) = 8%nat ->
  finish_image ir im d (image_length im) = Some img -> image_of ir im d img.
Proof.
  intros Hcount Hids Hfit Hcons Hmap Hmagic H. unfold finish_image in H.
  apply bind_Some in H as (h & Eh & H). apply make_header_inv in Eh as ->; [|done].
  remember (concat (map u4_bytes (header_words (header_of im d)))) as hdr eqn:Ehdr.
  assert (Hhdr : length hdr = 80%nat) by (rewrite Ehdr; apply length_header).
  apply bind_Some in H as (img1 & E1 & H). apply copy_to_inv in E1 as [_ ->].
  apply bind_Some in H as (img2 & E2 & H). apply copy_to_inv in E2 as [_ ->].
  apply bind_Some in H as (img3 & E3 & H). apply (copy_sections_inv nd ir im d Hcount Hids Hfit) in E3 as ->.
  apply bind_Some in H as (img4 & E4 & H). apply copy_to_inv in H as [_ ->]. cbn [h_file_size header_of] in *.
  set (img0 := repeat 0 (Z.to_nat (image_length im))) in *. set (ck := u4_bytes _).
  assert (Hck : length ck = 4%nat) by done.
  set (blocks := id_blocks im ++ map (sec_block im) map_order) in *.
  assert (Hblocks : blocks ≡ₚ data_blocks im) by (unfold blocks, data_blocks; by rewrite map_order_perm).
  assert (Hlen0 : Z.of_nat (length img0) = image_length im).
  { unfold img0. rewrite repeat_length. unfold image_length. pose proof (bytes_in_nonneg (data_blocks im)).
    change sizeof_Header with 112. lia. }
  pose (img3 := foldl copy_block img0 ((0, magic ir) :: (32, hdr) :: blocks)).
  assert (exists dig, img4 = foldl copy_block img3 dig /\ Forall (fun b => b.1 = 12 /\ length b.2 = 20%nat) dig /\ (length dig <= 1)%nat /\
    (checksum = true -> exists digest, dig = [(12, digest)] /\ sha1 fresh (take (Z.to_nat (image_length im - 32)) (drop 32 img3)) = Some digest))
    as (dig & Himg4 & Hdig & Hdig1 & Hsha).
  { destruct checksum.
    - apply bind_Some in E4 as (digest & Ed & E4). apply copy_to_inv in E4 as [_ ->]. exists [(12, digest)].
      split_and!; [done|by repeat constructor; eapply length_sha1|cbn; lia|]. intros _. by exists digest.
    - injection E4 as <-. exists []. split_and!; [done|constructor|cbn; lia|done]. }
  set (sorted := (0, magic ir) :: (8, ck) :: dig ++ (32, hdr) :: data_blocks im).
  set (l := ((0, magic ir) :: (32, hdr) :: blocks) ++ dig ++ [(8, ck)]).
  assert (Hp : l ≡ₚ sorted) by (unfold l, sorted; rewrite Hblocks; solve_Permutation).
  assert (Himg : copy_block img4 (8, ck) = foldl copy_block img0 l).
  { unfold l. rewrite !foldl_app. fold img3. by rewrite <- Himg4. }
  change sizeof_Header with 112 in *.
  assert (Ha : ascending_from 0 sorted).
  { unfold sorted. cbn [ascending_from fst]. unfold block_end. cbn [fst snd]. rewrite Hmagic, Hck. split; [lia|]. split; [lia|].
    destruct dig as [|[o g] [|]]; cbn [app ascending_from fst snd]; unfold block_end; cbn [fst snd]; rewrite ?Hhdr.
    - split; [lia|]. by apply consecutive_ascending.
    - apply Forall_cons in Hdig as [[Ho Hg] _]. cbn [fst snd] in Ho, Hg. rewrite Ho, Hg. split; [lia|]. split; [lia|].
      by apply consecutive_ascending.
    - cbn in Hdig1. lia. }
  pose proof (bytes_in_nonneg (data_blocks im)) as Hnn.
  assert (Hin : Forall (inside (image_length im)) sorted).
  { unfold sorted, image_length in *. change sizeof_Header with 112 in *.
    apply Forall_cons_2; [|apply Forall_cons_2; [|apply Forall_app; split; [|apply Forall_cons_2]]].
    - unfold inside, block_end. cbn [fst snd]. lia.
    - unfold inside, block_end. cbn [fst snd]. lia.
    - eapply Forall_impl; [exact Hdig|]. intros b [Hb1 Hb2]. unfold inside, block_end. lia.
    - unfold inside, block_end. cbn [fst snd]. lia.
    - eapply consecutive_inside; [exact Hcons|lia|lia]. }
  assert (Hat : forall b, b ∈ sorted -> at_img (copy_block img4 (8, ck)) b.1 b.2).
  { intros b Hb. rewrite Himg. eapply copy_blocks_at; [exact Hlen0|exact Ha|exact Hp|exact Hin|by rewrite Hp]. }
  assert (Hlen : Z.of_nat (length (copy_block img4 (8, ck))) = image_length im).
  { rewrite Himg. apply copy_blocks_length; [done|by rewrite Hp]. }
  assert (Hlen4 : Z.of_nat (length img4) = image_length im).
  { rewrite Himg4. unfold img3. rewrite <- foldl_app. apply copy_blocks_length; [done|].
    apply Forall_forall. intros b Hb. rewrite Forall_forall in Hin. apply Hin. rewrite <- Hp. unfold l.
    rewrite app_assoc. apply elem_of_app. by left. }
  assert (Hdrop : drop 12 (copy_block img4 (8, ck)) = drop 12 img4).
  { assert (12 <= length img4)%nat by (unfold image_length in Hlen4; change sizeof_Header with 112 in Hlen4; lia).
    apply (drop_copy 8 ck). rewrite Hck. lia. }
  constructor.
  - exact Hlen.
  - apply (Hat (0, magic ir)). by left.
  - rewrite <- Ehdr. apply (Hat (32, hdr)). do 2 right. apply elem_of_app. right. by left.
  - intros b Hb. apply Hat. do 2 right. apply elem_of_app. right. by right.
  - rewrite Hdrop. replace (u4_bytes _) with ck; [apply (Hat (8, ck)); right; by left|].
    unfold ck, ComputeChecksum. rewrite (take_ge (drop 12 img4)) by (rewrite length_drop; lia). done.
  - intros Hc. destruct (Hsha Hc) as (digest & -> & Hd). exists digest. split.
    + apply Forall_cons in Hdig as [[_ Hg] _]. cbn [snd] in Hg.
      assert (Hlen3 : length img3 = length img4).
      { rewrite Himg4. cbn [foldl]. unfold copy_block. cbn [fst snd]. rewrite length_splice; [done|].
        unfold img3. pose proof (copy_blocks_length (image_length im) ((0, magic ir) :: (32, hdr) :: blocks) img0 Hlen0) as Hl3.
        unfold image_length in Hl3. change sizeof_Header with 112 in Hl3.
        rewrite Hg. change (Z.to_nat 12) with 12%nat. specialize (Hl3 ltac:(
          apply Forall_forall; intros b Hb; rewrite Forall_forall in Hin; apply Hin; rewrite <- Hp; unfold l; apply elem_of_app; by left)).
        lia. }
      rewrite take_ge in Hd by (rewrite length_drop; lia). rewrite <- Hd. f_equal.
      change 32%nat with (12 + 20)%nat. rewrite <- !drop_drop, Hdrop, Himg4. rewrite !drop_drop. cbn [foldl]. rewrite <- Hg.
      apply (drop_copy 12 digest). rewrite Hg. unfold image_length in Hlen4. change sizeof_Header with 112 in Hlen4. lia.
    + apply (Hat (12, digest)). do 2 right. by left.
Qed.

Lemma CreateImage_inv f img w : CreateImage nd adler32 Allocate fresh checksum (newWriter f) = Some (Some img, w) ->
  exists ir d size im, Normalize nd f = Some ir /\ create_all nd ir (new_image (fun _ => ∅)) = Some ((d, size), im) /\
    dex_ir_ w = ir /\ finish_image ir im d size = Some img.
Proof.
  unfold CreateImage. intros H. apply bind_Some in H as (ir & En & H). apply bind_Some in H as ([[d size] im] & Ec & H).
  cbn [dex_ir_ newWriter node_offsets] in *. destruct (Allocate size); cbn [negb] in H; [|done].
  apply bind_Some in H as (u & _ & H). exists ir, d, size, im. split_and!; [done|done| |];
    apply bind_Some in H as (h & E1 & H); apply bind_Some in H as (i1 & E2 & H); apply bind_Some in H as (i2 & E3 & H);
    apply bind_Some in H as (i3 & E4 & H); apply bind_Some in H as (i4 & E5 & H); apply bind_Some in H as (i5 & E6 & H);
    injection H as <- <-; [done|].
  unfold finish_image. apply bind_Some. exists h. split; [done|]. apply bind_Some. exists i1. split; [done|].
  apply bind_Some. exists i2. split; [done|]. apply bind_Some. exists i3. split; [done|]. apply bind_Some. by exists i4.
Qed.

(** What [CreateImage] returns is the image of what [create_all] made. *)
Lemma CreateImage_image f ir d size im img w : Normalize nd f = Some ir ->
  create_all nd ir (new_image (fun _ => ∅)) = Some ((d, size), im) -> fits ir im -> length (magic ir) = 8%nat ->
  CreateImage nd adler32 Allocate fresh checksum (newWriter f) = Some (Some img, w) ->
  image_of ir im d img /\ consecutive sizeof_Header (data_blocks im) /\ d = sizeof_Header + bytes_in (id_blocks im) /\
  size = image_length im.
Proof.
  intros En Ec Hfit Hm H. apply CreateImage_inv in H as (ir' & d' & size' & im' & En' & Ec' & _ & H).
  rewrite En in En'. injection En' as <-. rewrite Ec in Ec'. injection Ec' as <- <- <-.
  destruct (create_all_ok nd ir d size im Ec) as (Hch & Hc & Hi & _ & H1 & _).
  destruct (layout_ok nd ir im d size Hch Hi Hfit) as (Hcons & Hd & Hsize). rewrite Hsize in H.
  split; [by apply finish_ok|done].
Qed.
End Image.

(** ** The file in the image *)

Section Places.
Context (ir : DexFile).

(** Where each table starts, and the data behind them. *)
Definition string_ids_at : Z := sizeof_Header.
Definition type_ids_at : Z := string_ids_at + 4 * Z.of_nat (length (strings (tbl ir))).
Definition proto_ids_at : Z := type_ids_at + 4 * Z.of_nat (length (types (tbl ir))).
Definition field_ids_at : Z := proto_ids_at + 12 * Z.of_nat (length (protos (tbl ir))).
Definition method_ids_at : Z := field_ids_at + 8 * Z.of_nat (length (fields (tbl ir))).
Definition class_defs_at : Z := method_ids_at + 8 * Z.of_nat (length (methods (tbl ir))).
Definition data_at : Z := class_defs_at + 32 * Z.of_nat (length (classes ir)).

(** [bs] is at [o] in the data of the image, and aligned. *)
Definition placed (align : Z) (img : list byte) (o : Z) (bs : list byte) : Prop :=
  at_img img o bs /\ data_at <= o /\ o mod align = 0.

Context (img : list byte) (n : node_offsets_t).

(** The item of [a] is at [o]; an item that is left out has offset 0. *)
Definition written {A} (align : Z) (skip : A -> bool) (R : node_offsets_t -> A -> list byte -> Prop) (a : A) (o : Z) : Prop :=
  if skip a then o = 0 else exists bs, R n a bs /\ placed align img o bs.
Definition written_ref {A} (align : Z) (R : node_offsets_t -> A -> list byte -> Prop) (src : list A) (i : option nat) (o : Z) : Prop :=
  match i with None => o = 0 | Some i => exists a bs, src !! i = Some a /\ R n a bs /\ placed align img o bs end.
Definition node_written {A} (k : node_kind) (align : Z) (skip : A -> bool) (R : node_offsets_t -> A -> list byte -> Prop)
  (i : nat) (a : A) : Prop := exists o, n k !! i = Some o /\ written align skip R a o.

(** The image has the file: its tables in their order, and the item of every node at
    the offset that [n] has for it. *)
Record image_holds (nd : bool) : Prop := {
  ih_strings : forall j a, strings (tbl ir) !! j = Some a -> exists o,
    at_img img (string_ids_at + 4 * Z.of_nat j) (u4_bytes o) /\ placed 1 img o (string_bytes ir a);
  ih_types : forall j t, types (tbl ir) !! j = Some t ->
    at_img img (type_ids_at + 4 * Z.of_nat j) (u4_bytes (type_id_of ir t));
  ih_protos : forall j p, protos (tbl ir) !! j = Some p -> exists o,
    at_img img (proto_ids_at + 12 * Z.of_nat j) (proto_id_bytes (proto_id_of ir p o)) /\
    pointer n TypeListNode (param_types (proto_node (nodes ir) p)) o;
  ih_fields : forall j f, fields (tbl ir) !! j = Some f ->
    at_img img (field_ids_at + 8 * Z.of_nat j) (field_id_bytes (field_id_of ir f));
  ih_methods : forall j m, methods (tbl ir) !! j = Some m ->
    at_img img (method_ids_at + 8 * Z.of_nat j) (method_id_bytes (method_id_of ir m));
  ih_classes : forall j c, classes ir !! j = Some c -> exists p a d v,
    at_img img (class_defs_at + 32 * Z.of_nat j) (class_def_bytes (class_def_of ir c p a d v)) /\
    let cl := class_node (nodes ir) c in
    pointer n TypeListNode (interfaces cl) p /\
    written_ref 4 (directory_item ir) (annotations_directories (data_ ir)) (c_annotations cl) a /\
    written 1 no_members (class_data ir) cl d /\
    written_ref 1 (array_item nd ir) (encoded_arrays (data_ ir)) (static_init cl) v;
  ih_type_lists : forall i ts, type_lists (data_ ir) !! i = Some ts ->
    node_written TypeListNode 4 (fun ts => bool_decide (ts = [])) (type_list_item ir) i ts;
  ih_debug_infos : forall i d, debug_infos (data_ ir) !! i = Some d -> node_written DebugInfoNode 1 never (debug_item nd ir) i d;
  ih_codes : forall i c, codes (data_ ir) !! i = Some c -> node_written CodeNode 4 never (code_item nd ir) i c;
  ih_annotations : forall i a, annotations (data_ ir) !! i = Some a -> visibility a <> kVisibilityEncoded ->
    node_written AnnotationNode 1 never (annotation_bytes nd ir) i a;
  ih_sets : forall i l, annotation_sets (data_ ir) !! i = Some l ->
    node_written AnnotationSetNode 4 never (pointers_item AnnotationNode) i l;
  ih_set_ref_lists : forall i l, annotation_set_ref_lists (data_ ir) !! i = Some l ->
    node_written AnnotationSetRefListNode 4 never (pointers_item AnnotationSetNode) i l }.
End Places.

Lemma at_img_sub img o pre bs post : 0 <= o -> at_img img o (pre ++ bs ++ post) -> at_img img (o + Z.of_nat (length pre)) bs.
Proof.
  unfold at_img, slice. intros Ho H. rewrite Z2Nat.inj_add, Nat2Z.id by lia.
  rewrite <- drop_drop, <- (take_drop (length (pre ++ bs ++ post)) (drop (Z.to_nat o) img)), H.
  rewrite <- !app_assoc, drop_app_length. apply take_app_length.
Qed.
Lemma at_img_value {T} (f : T -> list byte) k img off l j v : 0 <= off -> (forall x, length (f x) = k) ->
  at_img img off (concat (map f l)) -> l !! j = Some v -> at_img img (off + Z.of_nat k * Z.of_nat j) (f v).
Proof.
  intros Ho Hf H Hj. rewrite <- (take_drop_middle l j v Hj), map_app, map_cons, concat_app, concat_cons in H.
  apply at_img_sub in H; [|done]. rewrite (length_encoded f k), length_take_le in H by (try done; apply lookup_lt_Some in Hj; lia).
  by rewrite Nat2Z.inj_mul in H.
Qed.
Lemma consecutive_aligned l : forall off, off mod 4 = 0 -> (forall b, b ∈ l -> Z.of_nat (length b.2) mod 4 = 0) -> consecutive off l ->
  forall b, b ∈ l -> b.1 mod 4 = 0.
Proof.
  induction l as [|c l IH]; intros off Ho Hl; [by intros _ b ?%not_elem_of_nil|]. cbn [consecutive]. intros [<- Hc] b [->|Hb]%elem_of_cons; [done|].
  eapply (IH (block_end c)); [|intros; apply Hl; by right|done|done]. unfold block_end.
  rewrite Z.add_mod, Ho, Hl by (by left || lia). done.
Qed.
Lemma chained_lengths nd im l last : forall off, chained nd im l off last -> forall s, s ∈ l -> Z.of_nat (length (bytes_ (sections im s))) mod 4 = 0.
Proof.
  induction l as [|c l IH]; intros off; [by intros _ s ?%not_elem_of_nil|]. cbn [chained].
  intros (sz & F & C) s [->|Hs]%elem_of_cons; [apply F|by eapply IH].
Qed.

Section Held.
Context (nd : bool) (adler32 : Z -> option (list byte) -> Z) (fresh : list byte) (checksum : bool).
Context (ir : DexFile) (im : Image) (d size : Z) (img : list byte).
Context (Himg : image_of adler32 fresh checksum ir im d img) (Hfit : fits ir im).
Context (Hcons : consecutive sizeof_Header (data_blocks im)) (Hchain : chained nd im layout_order d size).
Context (Hids : indexes_at ir im d) (Hd : d = sizeof_Header + bytes_in (id_blocks im)).

Lemma section_blocks : consecutive d (map (sec_block im) layout_order).
Proof. unfold data_blocks in Hcons. apply consecutive_app in Hcons as [_ H]. by rewrite <- Hd in H. Qed.
Lemma data_aligned : d mod 4 = 0.
Proof.
  rewrite Hd, (id_blocks_bytes ir im d Hids). change sizeof_Header with 112. apply Z.mod_divide; [lia|].
  set (a := Z.of_nat (length (strings _))). set (b := Z.of_nat (length (types _))). set (c := Z.of_nat (length (protos _))).
  set (f := Z.of_nat (length (fields _))). set (m := Z.of_nat (length (methods _))). set (k := Z.of_nat (length (classes _))).
  exists (28 + a + b + 3 * c + 2 * f + 2 * m + 8 * k). ring.
Qed.
Lemma image_end b : b ∈ data_blocks im -> sizeof_Header <= b.1 /\ block_end b < 2 ^ 32.
Proof.
  intros Hb. pose proof (consecutive_inside sizeof_Header (data_blocks im) (image_length im) Hcons ltac:(by vm_compute) (Z.le_refl _)) as Hin.
  rewrite Forall_forall in Hin. destruct (Hin b Hb) as [_ He]. pose proof (fit_length _ _ Hfit).
  split; [|lia]. eapply ascending_all; [|exact Hb]. by apply consecutive_ascending.
Qed.

Lemma data_starts : d = data_at ir.
Proof.
  rewrite Hd, (id_blocks_bytes ir im d Hids). unfold data_at, class_defs_at, method_ids_at, field_ids_at, proto_ids_at, type_ids_at, string_ids_at. lia.
Qed.
Lemma item_placed s align o bs : align = 1 \/ align = 4 -> item_at align (sections im s) o bs -> placed ir align img o bs.
Proof.
  intros Halign (pre & post & Hb & Hp & ->). assert (Hs : s ∈ layout_order) by (unfold layout_order; destruct s; set_solver).
  assert (Hin : sec_block im s ∈ data_blocks im) by (apply elem_of_app; right; by apply list_elem_of_fmap_2).
  destruct (image_end _ Hin) as [Ho He]. pose proof (io_blocks _ _ _ _ _ _ _ Himg _ Hin) as Hat. unfold block_end in He.
  cbn [sec_block fst snd] in *. rewrite Hb in He, Hat. rewrite !length_app in He.
  assert (Hal : offset_ (sections im s) mod 4 = 0).
  { apply (consecutive_aligned (map (sec_block im) layout_order) d data_aligned) with (b := sec_block im s);
      [|exact section_blocks|by apply list_elem_of_fmap_2].
    intros b (c & -> & Hc)%list_elem_of_fmap. by eapply chained_lengths. }
  assert (H0 : 0 < sizeof_Header) by (by vm_compute).
  rewrite (trunc_small 32 (Z.of_nat (length pre))), trunc_small by lia.
  assert (Hso : data_at ir <= offset_ (sections im s)).
  { rewrite <- data_starts. apply (ascending_all d (map (sec_block im) layout_order) (sec_block im s)); [|by apply list_elem_of_fmap_2].
    by apply consecutive_ascending, section_blocks. }
  split_and!; [by eapply at_img_sub; [lia|]|lia|].
  assert (Hoa : offset_ (sections im s) mod align = 0) by (destruct Halign as [-> | ->]; [apply Z.mod_1_r|done]).
  rewrite Z.add_mod, Hoa, Hp by lia. apply Z.mod_0_l. lia.
Qed.

Lemma located_written {A} s align (skip : A -> bool) R a o : align = 1 \/ align = 4 ->
  located align skip R (node_offset_ im) (sections im s) a o -> written ir img (node_offset_ im) align skip R a o.
Proof.
  unfold located, written. intros Ha. destruct (skip a); [done|]. intros (bs & HR & Hi). exists bs. split; [done|by eapply item_placed].
Qed.
Lemma class_item_written {A} s align (src : list A) R node_of c o : align = 1 \/ align = 4 ->
  class_item align src R node_of c o (node_offset_ im) (sections im s) ->
  written_ref ir img (node_offset_ im) align R src (node_of c) o.
Proof.
  unfold class_item, written_ref. intros Ha. destruct (node_of c) as [i|]; [|done]. intros (a & bs & H1 & H2 & H3).
  exists a, bs. split_and!; [done|done|by eapply item_placed..].
Qed.
Lemma id_block_at b : b ∈ id_blocks im -> at_img img b.1 b.2.
Proof. intros Hb. apply (io_blocks _ _ _ _ _ _ _ Himg). apply elem_of_app. by left. Qed.

Lemma tables_at : ix_offset (string_ids im) = string_ids_at /\ ix_offset (type_ids im) = type_ids_at ir /\
  ix_offset (proto_ids im) = proto_ids_at ir /\ ix_offset (field_ids im) = field_ids_at ir /\
  ix_offset (method_ids im) = method_ids_at ir /\ ix_offset (class_defs im) = class_defs_at ir.
Proof.
  pose proof Hcons as H. unfold data_blocks in H. apply consecutive_app in H as [H _]. unfold id_blocks in H.
  cbn [consecutive] in H. unfold block_end in H. cbn [fst snd] in H.
  rewrite !(length_encoded _ _ _ length_u4), (length_encoded _ _ _ length_proto_id), (length_encoded _ _ _ length_field_id),
    (length_encoded _ _ _ length_method_id) in H.
  destruct Hids as [(_ & _ & L1) (_ & _ & L2) (_ & _ & L3) (_ & _ & L4) (_ & _ & L5) (_ & _ & L6) _].
  rewrite L1, L2, L3, L4, L5 in H. destruct H as (H1 & H2 & H3 & H4 & H5 & H6 & _).
  unfold class_defs_at, method_ids_at, field_ids_at, proto_ids_at, type_ids_at, string_ids_at. lia.
Qed.

Lemma tables_hold : holds nd ir im -> image_holds ir img (node_offset_ im) nd.
Proof.
  intros H. destruct tables_at as (T1 & T2 & T3 & T4 & T5 & T6).
  assert (Hb : forall b, b ∈ id_blocks im -> 0 <= b.1 /\ at_img img b.1 b.2).
  { intros b Hb. split; [|by apply id_block_at]. destruct (image_end b ltac:(apply elem_of_app; by left)) as [? _].
    change sizeof_Header with 112 in *. lia. }
  unfold id_blocks in Hb.
  destruct (Hb _ ltac:(by left)) as [O1 B1]. destruct (Hb _ ltac:(right; by left)) as [O2 B2].
  destruct (Hb _ ltac:(do 2 right; by left)) as [O3 B3]. destruct (Hb _ ltac:(do 3 right; by left)) as [O4 B4].
  destruct (Hb _ ltac:(do 4 right; by left)) as [O5 B5]. destruct (Hb _ ltac:(do 5 right; by left)) as [O6 B6].
  cbn [fst snd] in *. clear Hb. destruct H as [S T P F M C N _]. destruct N as [N1 N2 N3 N4 N5 N6].
  rewrite T1 in *. rewrite T2 in *. rewrite T3 in *. rewrite T4 in *. rewrite T5 in *. rewrite T6 in *.
  constructor.
  - intros j a Hj. destruct (S j a Hj) as (o & Ho & Hi). exists o. split; [|eapply item_placed; [auto|exact Hi]].
    exact (at_img_value u4_bytes 4 _ _ _ _ _ O1 length_u4 B1 Ho).
  - intros j t Hj. exact (at_img_value u4_bytes 4 _ _ _ _ _ O2 length_u4 B2 (T j t Hj)).
  - intros j p Hj. destruct (P j p Hj) as (o & Ho & Hp). exists o. split; [|done].
    exact (at_img_value proto_id_bytes 12 _ _ _ _ _ O3 length_proto_id B3 Ho).
  - intros j f Hj. exact (at_img_value field_id_bytes 8 _ _ _ _ _ O4 length_field_id B4 (F j f Hj)).
  - intros j m Hj. exact (at_img_value method_id_bytes 8 _ _ _ _ _ O5 length_method_id B5 (M j m Hj)).
  - intros j c Hj. destruct (C j c Hj) as (p & a & dt & v & Hv & Hp & Ha & Hdt & Hst). exists p, a, dt, v.
    split; [exact (at_img_value class_def_bytes 32 _ _ _ _ _ O6 length_class_def B6 Hv)|]. cbv zeta.
    split_and!; [done|eapply class_item_written; [auto|exact Ha]|eapply located_written; [auto|exact Hdt]|eapply class_item_written; [auto|exact Hst]].
  - intros i x Hi. destruct (N1 i x Hi) as (o & Ho & Hl). exists o. split; [done|eapply located_written; [auto|exact Hl]].
  - intros i x Hi. destruct (N2 i x Hi) as (o & Ho & Hl). exists o. split; [done|eapply located_written; [auto|exact Hl]].
  - intros i x Hi. destruct (N3 i x Hi) as (o & Ho & Hl). exists o. split; [done|eapply located_written; [auto|exact Hl]].
  - intros i x Hi Hv. destruct (N4 i x Hi Hv) as (o & Ho & Hl). exists o. split; [done|eapply located_written; [auto|exact Hl]].
  - intros i x Hi. destruct (N5 i x Hi) as (o & Ho & Hl). exists o. split; [done|eapply located_written; [auto|exact Hl]].
  - intros i x Hi. destruct (N6 i x Hi) as (o & Ho & Hl). exists o. split; [done|eapply located_written; [auto|exact Hl]].
Qed.

(** The map: its entries by their offsets. *)
Lemma map_placed : holds nd ir im ->
  placed ir 4 img (h_map_off (header_of im d))
    (u4_bytes (Z.of_nat (length (map_list_of im))) ++ concat (map map_item_bytes (map_list_of im))).
Proof.
  intros H. pose proof (h_map _ _ _ H) as Hm. eapply item_placed in Hm; [|by right].
  rewrite trunc_small in Hm; [exact Hm|].
  assert (Hin : sec_block im map_list_sec ∈ data_blocks im) by (apply elem_of_app; right; apply list_elem_of_fmap_2; unfold layout_order; set_solver).
  destruct (image_end _ Hin) as [H1 H2]. unfold block_end in H2. cbn [sec_block fst snd] in *. change sizeof_Header with 112 in H1. lia.
Qed.
End Held.

Lemma map_sorted im : map_list_of im ≡ₚ map_entries im /\
  StronglySorted (fun a b => mp_offset a <= mp_offset b) (map_list_of im).
Proof.
  split; [apply qsort_perm|]. eapply sorted_impl; [|apply (qsort_sorted compare_map_items (fun i => [mp_offset i]))].
  - intros a b. unfold lex_le. cbn. destruct (Z.eqb_spec (mp_offset a) (mp_offset b)); lia.
  - intros a b _ _. unfold compare_map_items, lex_lt. cbn. destruct (Z.ltb_spec (mp_offset a) (mp_offset b)), (Z.eqb_spec (mp_offset a) (mp_offset b)); lia.
Qed.
