(* ===== verification/DexDecode.v ===== *)
(** Decoding what the writer encodes: members, arrays, members of a class, values. *)
From stdpp Require Import strings.
From Stdlib Require Import Sorted.
From S2P Require Import Prelude Leb128 SlicerBuffer DexBytecode DexCode DexCodeSpec DexValue DexValueSpec DexDebug DexDebugSpec DexTry DexIr DexBuilder DexWriter.
From S2P Require Import DexReader DexReaderSpec DexWriterSpec DexImageSpec.

(** ** Memory *)

Lemma read_le_bytes n v rest : read_le n (le_bytes n v ++ rest) = Some (trunc (8 * Z.of_nat n) v, rest).
Proof.
  unfold read_le. rewrite <- (length_le_bytes n v) at 1. rewrite take_bytes_app. cbn. by rewrite le_val_bytes.
Qed.
Lemma read_u4 v rest : 0 <= v < 2 ^ 32 -> read_le 4 (u4_bytes v ++ rest) = Some (v, rest).
Proof. intros H. unfold u4_bytes. rewrite read_le_bytes. by rewrite trunc_small. Qed.
Lemma read_u2 v rest : 0 <= v < 2 ^ 16 -> read_le 2 (u2_bytes v ++ rest) = Some (v, rest).
Proof. intros H. unfold u2_bytes. rewrite read_le_bytes. by rewrite trunc_small. Qed.

(** Members of given widths. *)
Definition members (l : list (nat * Z)) : list byte := concat (map (fun e => le_bytes e.1 e.2) l).
Definition in_width (e : nat * Z) : Prop := 0 <= e.2 < 2 ^ (8 * Z.of_nat e.1).
Lemma read_all_members l rest : Forall in_width l -> read_all (map fst l) (members l ++ rest) = Some (map snd l, rest).
Proof.
  intros H. unfold members. revert rest. induction H as [|[n v] l Hv _ IH]; intros rest; [done|].
  cbn [map concat fst snd read_all]. rewrite <- app_assoc, read_le_bytes. cbn [mbind option_bind]. rewrite IH. cbn.
  by rewrite trunc_small.
Qed.
Lemma length_members l : length (members l) = foldr Nat.add 0%nat (map fst l).
Proof. unfold members. induction l as [|[n v] l IH]; [done|]. cbn. by rewrite length_app, length_le_bytes, IH. Qed.

Lemma read_array_members sizes ls rest : (1 <= foldr Nat.add 0 sizes)%nat ->
  Forall (fun l => map fst l = sizes /\ Forall in_width l) ls -> forall fuel, (length (concat (map members ls)) <= fuel)%nat ->
  read_array fuel sizes (Z.of_nat (length ls)) (concat (map members ls) ++ rest) = Some (map (map snd) ls, rest).
Proof.
  intros Hs H. induction H as [|l ls [Hl Hw] _ IH]; intros fuel Hf; [by destruct fuel|].
  cbn [map concat] in *. rewrite length_app, length_members, Hl in Hf. destruct fuel as [|fuel]; [lia|].
  cbn [read_array length]. rewrite (proj2 (Z.leb_gt _ 0)) by lia. rewrite <- app_assoc, <- Hl, read_all_members by done. cbn [mbind option_bind].
  rewrite Hl. replace (Z.of_nat (S (length ls)) - 1) with (Z.of_nat (length ls)) by lia. rewrite IH by lia. done.
Qed.

Lemma at_img_drop img o bs : at_img img o bs -> exists rest, drop (Z.to_nat o) img = bs ++ rest.
Proof.
  unfold at_img, slice. intros <-. eexists. symmetry. apply take_drop.
Qed.
Lemma at_img_length img o bs : at_img img o bs -> bs <> [] -> 0 <= o -> o + Z.of_nat (length bs) <= Z.of_nat (length img).
Proof.
  intros H Hn Ho. destruct (at_img_drop _ _ _ H) as [rest E]. apply (f_equal length) in E. rewrite length_drop, length_app in E.
  destruct bs; [done|]. cbn in *. lia.
Qed.

(** ** Arrays and annotations that are not inside a value *)

Lemma array_reads_back wd index vs bs : leb_count (length vs) -> Forall (value_ok index) vs -> WriteEncodedArray wd index vs = Some bs ->
  (1 <= length bs)%nat /\ forall nd fuel rest, (3 * length bs <= fuel)%nat ->
    ParseEncodedArray nd fuel (bs ++ rest) = Some (map (renumber index) vs, rest).
Proof.
  intros Hc Hv Hw. destruct (reads_values wd index vs) as (b & Eb & Lb & Rb); [|done|].
  { apply Forall_true. intros v. apply value_roundtrip. }
  destruct (uleb_bytes_ok _ (conj (Nat2Z.is_nonneg _) Hc)) as (m & Em & Lm & Rm).
  unfold WriteEncodedArray, write_array in Hw. rewrite Em in Hw. cbn [mbind option_bind] in Hw. rewrite Eb in Hw. injection Hw as <-.
  rewrite length_app. split; [lia|]. intros nd fuel rest Hf. destruct fuel as [|fuel]; [lia|].
  cbn [ParseEncodedArray]. rewrite <- app_assoc, Rm. cbn [mbind option_bind]. apply Rb. lia.
Qed.
Lemma annotation_reads_back wd index t es bs : value_ok index (EAnnotation t es) -> WriteAnnotation wd index t es = Some bs ->
  forall nd fuel rest, (3 * length bs <= fuel)%nat ->
    ParseAnnotation nd fuel (bs ++ rest) = Some (index TypeItem t, map (fun e => (index StringItem e.1, renumber index e.2)) es, rest).
Proof.
  intros Hv Hw. inversion Hv as [| | | | | | | | | | | | |t' es' Ht Hc Hn He| |]; subst.
  destruct (reads_elements wd index es) as (b & Eb & Lb & Rb); [|done|done|].
  { apply Forall_true. intros v. apply value_roundtrip. }
  destruct (uleb_bytes_ok _ (conj (Nat2Z.is_nonneg _) Hc)) as (m & Em & Lm & Rm).
  destruct (uleb_bytes_ok _ Ht) as (ti & Eti & Lti & Rti).
  unfold WriteAnnotation, write_annotation in Hw. rewrite Eti in Hw. cbn [mbind option_bind] in Hw.
  rewrite Em in Hw. cbn [mbind option_bind] in Hw. rewrite Eb in Hw. injection Hw as <-.
  intros nd fuel rest Hf. rewrite !length_app in Hf. destruct fuel as [|fuel]; [lia|].
  cbn [ParseAnnotation]. rewrite <- !app_assoc, Rti. cbn [mbind option_bind]. rewrite Rm. cbn [mbind option_bind].
  unfold parse_map. rewrite Rb by lia. done.
Qed.

(** What a renumbered value refers to. *)
Lemma renumber_refs index v : value_refs (renumber index v) = map (fun x => (x.1, index x.1 x.2)) (value_refs v).
Proof.
  induction v as [| | | | | | | | | | | | vs IH|t es IH| | |] using EncodedValue_ind; try done.
  - cbn. induction IH as [|v vs Hv _ IH]; [done|]. cbn. by rewrite map_app, Hv, IH.
  - cbn. f_equal. induction IH as [|[a v] es Hv _ IH]; [done|]. cbn in Hv |- *. f_equal. rewrite map_app, Hv. f_equal. exact IH.
Qed.

(** The offsets of relocated handlers are 16 bits. *)
Lemma handler_offsets_range nd ix fuel : forall len cnt ptr l m l' m', write_handlers nd ix fuel len cnt ptr l m = Some (l', m') ->
  map_Forall (fun _ o => in_word 16 o) m -> map_Forall (fun _ o => in_word 16 o) m'.
Proof.
  induction fuel as [|fuel IH]; intros len cnt ptr l m l' m'; cbn [write_handlers].
  - destruct (cnt <=? 0); [by intros [= <- <-]|done].
  - destruct (cnt <=? 0); [by intros [= <- <-]|]. intros H Hm. apply bind_Some in H as ([bs p] & _ & H). apply IH in H; [done|].
    apply map_Forall_insert_2; [apply (trunc_range 16); lia|done].
Qed.
Lemma tries_range nd ix tries hl tries' hl' : WriteTryBlocks nd ix tries hl = Some (tries', hl') ->
  Forall (fun t => in_word 16 (handler_off t)) tries'.
Proof.
  unfold WriteTryBlocks. intros H. apply bind_Some in H as (_ & _ & H). apply bind_Some in H as ([c p] & _ & H).
  apply bind_Some in H as (b & _ & H). apply bind_Some in H as ([l m] & Ew & H). apply bind_Some in H as (ts & Et & H). injection H as <- <-.
  apply handler_offsets_range in Ew; [|apply map_Forall_empty]. clear -Ew Et. revert ts Et.
  induction tries as [|t tries IH]; intros ts; cbn [relocate_tries]; [by intros [= <-]|].
  intros H. apply bind_Some in H as (_ & _ & H). apply bind_Some in H as (ts' & Et & H). injection H as <-.
  constructor; [|by apply IH]. cbn [handler_off]. destruct (m !! handler_off t) as [o|] eqn:E; [by apply (Ew _ _ E)|split; cbn; lia].
Qed.

(** ** Members *)

Definition members_ascend (base : Z) (l : list Z) : Prop := Forall (fun i => 0 <= i < 2 ^ 31 /\ (base <> kNoIndex -> base < i)) l /\
  StronglySorted Z.lt l.
Lemma members_ascend_tail base i l : members_ascend base (i :: l) -> members_ascend i l /\ 0 <= i < 2 ^ 31.
Proof.
  intros [H1 H2]. apply Forall_cons in H1 as [[Hi _] H1]. apply StronglySorted_inv in H2 as [H2 H3].
  split; [|done]. split; [|done]. rewrite Forall_forall in H1, H3. apply Forall_forall. intros x Hx. split; [apply H1, Hx|]. intros _. by apply H3.
Qed.
Lemma next_member_ok nd base delta l : (base = kNoIndex \/ 0 <= base < 2 ^ 31) ->
  members_ascend base (next_index base delta :: l) -> next_member nd base delta = Some (next_index base delta).
Proof.
  intros Hb [H _]. apply Forall_cons in H as [[Hi Hlt] _]. unfold next_member, next_index in *.
  revert Hi Hlt. destruct (Z.eqb_spec base kNoIndex) as [->|N]; intros Hi Hlt; cbv match in Hi, Hlt |- *.
  - cbn [negb]. rewrite SLICER_CHECK_true by (unfold kNoIndex in *; lia). done.
  - specialize (Hlt N). destruct Hb as [?|Hb]; [done|].
    assert (delta <> 0).
    { intros ->. rewrite Z.add_0_r, trunc_small in Hlt by lia. lia. }
    assert (delta <> kNoIndex).
    { intros ->. unfold kNoIndex, trunc in *. destruct (Z.eq_dec base 0) as [->|]; [rewrite Z.mod_small in Hi by lia; lia|].
      replace (base + 0xffffffff) with (base - 1 + 1 * 2 ^ 32) in Hlt by lia. rewrite Z_mod_plus_full, Z.mod_small in Hlt by lia. lia. }
    cbn [negb]. rewrite (SLICER_CHECK_true nd (negb (delta =? kNoIndex))), (SLICER_CHECK_true nd (negb (delta =? 0))) by lia.
    cbn [mbind option_bind]. by rewrite Z.add_comm.
Qed.
Definition field_of (e : Z * Z) : EncodedField := {| f_decl := e.1; f_access_flags := e.2 |}.
Lemma read_fields_back nd base bs l : fields_of base bs l -> (base = kNoIndex \/ 0 <= base < 2 ^ 31) -> members_ascend base (map fst l) ->
  (length l <= length bs)%nat /\ forall fuel rest, (length bs <= fuel)%nat ->
    read_fields nd fuel (Z.of_nat (length l)) base (bs ++ rest) = Some (map field_of l, rest).
Proof.
  induction 1 as [base|base a b bs d flags fs Ha Hb _ IH]; intros Hbase Hasc; [split; [done|]; by intros [|fuel]|].
  cbn [map fst] in Hasc. destruct (members_ascend_tail _ _ _ Hasc) as [Ht Hi]. destruct (IH (or_intror Hi) Ht) as [Hl Hr].
  pose proof (uleb_nonempty _ _ Ha). pose proof (uleb_nonempty _ _ Hb). rewrite !length_app. cbn [length]. split; [lia|].
  intros [|fuel] rest Hf; [lia|]. cbn [read_fields]. rewrite (proj2 (Z.leb_gt _ 0)) by lia.
  rewrite <- !app_assoc, Ha. cbn [mbind option_bind]. rewrite (next_member_ok nd base d _ Hbase Hasc). cbn [mbind option_bind].
  rewrite Hb. cbn [mbind option_bind]. replace (Z.of_nat (S (length fs)) - 1) with (Z.of_nat (length fs)) by lia.
  rewrite Hr by lia. done.
Qed.
Lemma read_methods_back nd base bs l : methods_of base bs l -> (base = kNoIndex \/ 0 <= base < 2 ^ 31) ->
  members_ascend base (map (fun e => e.1.1) l) ->
  (length l <= length bs)%nat /\ forall fuel rest, (length bs <= fuel)%nat ->
    read_methods nd fuel (Z.of_nat (length l)) base (bs ++ rest) = Some (l, rest).
Proof.
  induction 1 as [base|base a b c bs d flags off ms Ha Hb Hc _ IH]; intros Hbase Hasc; [split; [done|]; by intros [|fuel]|].
  cbn [map fst] in Hasc. destruct (members_ascend_tail _ _ _ Hasc) as [Ht Hi]. destruct (IH (or_intror Hi) Ht) as [Hl Hr].
  pose proof (uleb_nonempty _ _ Ha). pose proof (uleb_nonempty _ _ Hb). pose proof (uleb_nonempty _ _ Hc).
  rewrite !length_app. cbn [length]. split; [lia|].
  intros [|fuel] rest Hf; [lia|]. cbn [read_methods]. rewrite (proj2 (Z.leb_gt _ 0)) by lia.
  rewrite <- !app_assoc, Ha. cbn [mbind option_bind]. rewrite (next_member_ok nd base d _ Hbase Hasc). cbn [mbind option_bind].
  rewrite Hb. cbn [mbind option_bind]. rewrite Hc. cbn [mbind option_bind].
  replace (Z.of_nat (S (length ms)) - 1) with (Z.of_nat (length ms)) by lia. rewrite Hr by lia. done.
Qed.
