(* ===== verification/DexReadBack.v ===== *)
(** What the reader finds in an image that the writer made: the header passes its
    checks, each table entry and each item decodes to what the file has there with the
    indexes renamed, so that the image is well-formed; and the IR that is read is the
    file again. *)
From stdpp Require Import strings.
From Stdlib Require Import Ascii String Sorted.
From S2P Require Import Prelude Leb128 HashTable SlicerBuffer DexBytecode DexIsa DexCode DexCodeSpec DexValue DexValueSpec DexDebug DexDebugSpec DexTry DexOrder.
From S2P Require Import DexIr DexIrSpec DexBuilder DexWriter DexReader DexReaderSpec DexWriterSpec DexImage DexImageSpec DexDecode.

(** A function of the positions of a list. *)
Lemma map_positions {A B} (l : list A) (f : Z -> B) (g : A -> B) : (forall i x, l !! i = Some x -> f (Z.of_nat i) = g x) ->
  map f (seqZ 0 (Z.of_nat (length l))) = map g l.
Proof.
  intros H. apply list_eq. intros i. rewrite !list_lookup_fmap. destruct (l !! i) as [x|] eqn:E; cbn.
  - pose proof (lookup_lt_Some _ _ _ E). rewrite lookup_seqZ_lt by lia. cbn. f_equal. by rewrite <- (H i x E).
  - apply lookup_ge_None in E. by rewrite lookup_seqZ_ge by lia.
Qed.

Section ReadBack.
Context (nd : bool) (adler32 : Z -> option (list byte) -> Z) (fresh : list byte) (checksum : bool).
Context (ir : DexFile) (im : Image) (d size : Z) (img : list byte).
Context (Himg : image_of adler32 fresh checksum ir im d img) (Hfit : fits ir im).
Context (Hcons : consecutive sizeof_Header (data_blocks im)) (Hchain : chained nd im layout_order d size).
Context (Hids : indexes_at ir im d) (Hd : d = sizeof_Header + bytes_in (id_blocks im)).

(** A reader of the image. *)
Definition written_reader : Reader :=
  {| image_ := img; size_ := Z.of_nat (length img); data_area := img; data_size_ := Z.of_nat (length img); is_compact_ := false |}.
Local Abbreviation r := written_reader.

Lemma image_small : Z.of_nat (length img) < 2 ^ 32.
Proof. rewrite (io_length _ _ _ _ _ _ _ Himg). apply (fit_length _ _ Hfit). Qed.

(** ** The header *)

Lemma header_at k v : header_words (header_of im d) !! k = Some v -> header r k = Some (u32 v).
Proof.
  intros Hk. pose proof (io_header _ _ _ _ _ _ _ Himg) as H.
  pose proof (at_img_value u4_bytes 4 img 32 _ k v ltac:(lia) length_u4 H Hk) as Hv.
  destruct (at_img_drop _ _ _ Hv) as [rest E]. unfold header, header_word. cbn [image_ written_reader].
  replace (32 + 4 * k)%nat with (Z.to_nat (32 + Z.of_nat 4 * Z.of_nat k)) by lia. rewrite E. unfold u4_bytes. by rewrite read_le_bytes.
Qed.

Definition table_at (k : item) : Z :=
  match k with
  | StringItem => string_ids_at | TypeItem => type_ids_at ir | ProtoItem => proto_ids_at ir
  | FieldItem => field_ids_at ir | MethodItem => method_ids_at ir
  end.
Definition entry_size (k : item) : Z :=
  match k with StringItem => 4 | TypeItem => 4 | ProtoItem => 12 | FieldItem => 8 | MethodItem => 8 end.
Definition count (k : item) : Z := Z.of_nat (length (items_of (tbl ir) k)).

Lemma data_in_image : data_at ir <= Z.of_nat (length img).
Proof.
  rewrite (io_length _ _ _ _ _ _ _ Himg). rewrite <- (data_starts ir im d Hids Hd), Hd. unfold image_length, data_blocks.
  rewrite bytes_in_app. pose proof (bytes_in_nonneg (map (sec_block im) layout_order)). lia.
Qed.
Lemma table_in_image k : sizeof_Header <= table_at k /\ table_at k + entry_size k * count k <= Z.of_nat (length img).
Proof.
  pose proof data_in_image as H. unfold data_at, class_defs_at, method_ids_at, field_ids_at, proto_ids_at, type_ids_at, string_ids_at in H.
  unfold table_at, entry_size, count. destruct k; cbn [items_of];
    unfold method_ids_at, field_ids_at, proto_ids_at, type_ids_at, string_ids_at; lia.
Qed.
Lemma classes_in_image : sizeof_Header <= class_defs_at ir /\ class_defs_at ir + 32 * Z.of_nat (length (classes ir)) <= Z.of_nat (length img).
Proof.
  pose proof data_in_image as H. unfold data_at, class_defs_at, method_ids_at, field_ids_at, proto_ids_at, type_ids_at, string_ids_at in *. lia.
Qed.

(** A table's words; an empty table is at 0. *)
Definition off_of (n o : Z) : Z := if 0 <? n then o else 0.
Lemma off_range n o : 0 <= o < 2 ^ 32 -> 0 <= off_of n o < 2 ^ 32.
Proof. unfold off_of. destruct (0 <? n); lia. Qed.
Lemma header_table k : header r (header_of_kind k) = Some (count k) /\
  header r (S (header_of_kind k)) = Some (off_of (count k) (table_at k)).
Proof.
  pose proof (table_in_image k) as [H1 H2]. pose proof image_small as Hs.
  destruct (id_counts ir im d Hids Hfit) as (C1 & C2 & C3 & C4 & C5 & C6).
  destruct (tables_at ir im d Hcons Hids) as (T1 & T2 & T3 & T4 & T5 & _).
  destruct Hids as [(_ & _ & L1) (_ & _ & L2) (_ & _ & L3) (_ & _ & L4) (_ & _ & L5) _ _].
  rewrite L1 in C1. rewrite L2 in C2. rewrite L3 in C3. rewrite L4 in C4. rewrite L5 in C5. change sizeof_Header with 112 in *.
  assert (Hn : 0 <= count k) by (unfold count; lia).
  assert (Hc : 0 <= count k < 2 ^ 32 /\ 0 <= table_at k < 2 ^ 32) by (clear -H1 H2 Hs Hn; destruct k; cbn [entry_size] in *; lia).
  split; [rewrite <- (trunc_small 32 (count k)) by apply Hc|rewrite <- (trunc_small 32 (off_of _ _)) by (apply off_range, Hc)];
    apply header_at; unfold off_of, count, table_at; destruct k;
    cbn [header_words header_of header_of_kind hd_string_ids hd_type_ids hd_proto_ids hd_field_ids hd_method_ids lookup list_lookup items_of
         h_string_ids_size h_string_ids_off h_type_ids_size h_type_ids_off h_proto_ids_size h_proto_ids_off
         h_field_ids_size h_field_ids_off h_method_ids_size h_method_ids_off];
    unfold section_off; rewrite ?C1, ?C2, ?C3, ?C4, ?C5, ?T1, ?T2, ?T3, ?T4, ?T5; done.
Qed.
Lemma header_classes : header r hd_class_defs = Some (Z.of_nat (length (classes ir))) /\
  header r (S hd_class_defs) = Some (off_of (Z.of_nat (length (classes ir))) (class_defs_at ir)) /\ header r hd_data_off = Some (data_at ir).
Proof.
  pose proof classes_in_image as [H1 H2]. pose proof image_small as Hs. pose proof data_in_image as Hdi.
  destruct (id_counts ir im d Hids Hfit) as (_ & _ & _ & _ & _ & C).
  destruct (tables_at ir im d Hcons Hids) as (_ & _ & _ & _ & _ & T).
  destruct Hids as [_ _ _ _ _ (_ & _ & L) _]. rewrite L in C. change sizeof_Header with 112 in *.
  assert (Hc : 0 <= Z.of_nat (length (classes ir)) < 2 ^ 32 /\ 0 <= class_defs_at ir < 2 ^ 32) by lia.
  assert (Hda : 0 <= data_at ir < 2 ^ 32) by (unfold data_at; unfold data_at in Hdi; lia).
  split_and!; [rewrite <- (trunc_small 32 (Z.of_nat (length (classes ir)))) by apply Hc
    |rewrite <- (trunc_small 32 (off_of _ _)) by (apply off_range, Hc)|rewrite <- (trunc_small 32 (data_at ir)) by done];
    apply header_at; cbn [header_words header_of hd_class_defs hd_data_off lookup list_lookup h_class_defs_size h_class_defs_off h_data_off].
  - by rewrite C.
  - unfold section_off, off_of. by rewrite C, T.
  - by rewrite (data_starts ir im d Hids Hd).
Qed.

(** ** Entries *)

Lemma element_at k sizes o n j l : header r k = Some n -> header r (S k) = Some (off_of n o) -> 0 <= j < n -> n < 2 ^ 31 -> 0 <= o ->
  map fst l = sizes -> Forall in_width l -> (1 <= foldr Nat.add 0 sizes)%nat ->
  at_img img (o + Z.of_nat (foldr Nat.add 0%nat sizes) * j) (members l) -> element nd r k sizes j = Some (map snd l).
Proof.
  intros Hn Ho Hj Hs H0 Hl Hw H1 Hat. pose proof (length_members l) as Hlm. rewrite Hl in Hlm.
  pose proof (at_img_length _ _ _ Hat ltac:(intros E; rewrite E in Hlm; cbn in Hlm; lia) ltac:(lia)) as Hend. rewrite Hlm in Hend.
  destruct (at_img_drop _ _ _ Hat) as [rest E].
  unfold element, section. set (sz := Z.of_nat (foldr Nat.add 0%nat sizes)) in *. rewrite Ho. cbn [mbind option_bind].
  rewrite (section_count_small _ _ _ Hn) by lia. cbn [mbind option_bind]. unfold off_of. rewrite (proj2 (Z.ltb_lt 0 n)) by lia.
  unfold ptr.
  rewrite (proj2 (Z.leb_le (o + sz) (size_ r))), SLICER_CHECK_true by (done || cbn [size_ written_reader]; lia). cbn [mbind option_bind image_ written_reader].
  rewrite (proj2 (Z.ltb_lt j n)), (SLICER_CHECK_true nd true) by (done || apply Hj). cbn [mbind option_bind].
  rewrite drop_drop. replace (Z.to_nat o + Z.to_nat (sz * j))%nat with (Z.to_nat (o + sz * j)) by lia.
  rewrite E, <- Hl, read_all_members by done. done.
Qed.

Lemma entries_small k : 0 <= count k < 2 ^ 31.
Proof.
  pose proof (table_in_image k) as [H1 H2]. pose proof image_small as Hs. change sizeof_Header with 112 in *.
  assert (0 <= count k) by (unfold count; lia). clear -H1 H2 Hs H. destruct k; cbn [entry_size] in *; lia.
Qed.
Lemma table_element k sizes j l : Z.of_nat (foldr Nat.add 0%nat sizes) = entry_size k -> 0 <= j < count k -> map fst l = sizes ->
  Forall in_width l -> at_img img (table_at k + entry_size k * j) (members l) ->
  element nd r (header_of_kind k) sizes j = Some (map snd l).
Proof.
  intros Hsz Hj Hl Hw Hat. destruct (header_table k) as [H1 H2]. pose proof (entries_small k). pose proof (table_in_image k) as [H0 _].
  change sizeof_Header with 112 in H0. eapply element_at; try done; [lia|lia|destruct k; cbn in Hsz; lia|by rewrite Hsz].
Qed.

(** ** What the file has to be *)

Local Abbreviation idx := (index ir).
Definition node_in (k : item) (x : Z) : Prop := x ∈ items_of (tbl ir) k.
Definition ref_in (x : ref) : Prop := node_in x.1 x.2.
Definition opt_node_in (k : item) (x : option Z) : Prop := match x with Some x => node_in k x | None => True end.
Definition in_range {A} (i : option nat) (l : list A) : Prop := match i with Some i => (i < length l)%nat | None => True end.

(** String data: the length and the characters, none of which is the terminator. *)
Definition string_data (bs : list byte) : Prop := exists l m cs, bs = l ++ cs ++ [0] /\ uleb_of l m /\ Forall (fun c => c <> 0) cs.
Definition plain_annotation (i : nat) : Prop := exists a, annotations (data_ ir) !! i = Some a /\ visibility a <> kVisibilityEncoded.
Definition debug_readable (i : DebugInfo) : Prop := exists ops, 0 <= line_start i < 2 ^ 28 /\ leb_count (length (param_names i)) /\
  stream_of (data i) ops /\ Forall (opt_fits (indexes ir) StringItem) (param_names i) /\ Forall (op_fits (indexes ir)) ops /\
  Forall ref_in (debug_refs (param_names i) ops).
Definition tries_readable (c : Code) : Prop := try_blocks c <> [] -> exists l hbs hs, catch_handlers c = l ++ concat hbs /\
  list_of l hbs hs /\ Forall (handler_fits (indexes ir)) hs /\ Z.of_nat (length (catch_handlers c)) < 2 ^ 16 /\
  Z.of_nat (handlers_room hs) < 2 ^ 16 /\ Forall (has_handler l hbs) (try_blocks c) /\ Forall ref_in (concat (map handler_refs hs)).
Definition code_readable (c : Code) : Prop := exists chunks, instructions c = concat chunks /\ chunks <> [] /\
  Forall well_formed_insn chunks /\ Forall (DexCodeSpec.fits (indexes ir)) (stream_slots chunks) /\
  Forall ref_in (map slot_ref (stream_slots chunks)) /\
  Forall (in_word 16) [registers c; ins_count c; outs_count c; Z.of_nat (length (try_blocks c))] /\
  Forall (fun t => in_word 32 (start_addr t) /\ in_word 16 (insn_count t)) (try_blocks c) /\
  in_range (code_debug_info c) (debug_infos (data_ ir)) /\ tries_readable c.
Definition directory_readable (a : AnnotationsDirectory) : Prop :=
  in_range (class_annotation a) (annotation_sets (data_ ir)) /\
  Forall (fun e => node_in FieldItem e.1 /\ (e.2 < length (annotation_sets (data_ ir)))%nat) (field_annotations a) /\
  Forall (fun e => node_in MethodItem e.1 /\ (e.2 < length (annotation_sets (data_ ir)))%nat) (method_annotations a) /\
  Forall (fun e => node_in MethodItem e.1 /\ (e.2 < length (annotation_set_ref_lists (data_ ir)))%nat) (param_annotations a).
(** Indexes ascend, as [Normalize] leaves them. *)
Definition fields_readable (l : list EncodedField) : Prop := Forall (fun f => node_in FieldItem (f_decl f)) l /\
  StronglySorted (fun a b => index ir FieldItem (f_decl a) < index ir FieldItem (f_decl b)) l.
Definition methods_readable (l : list EncodedMethod) : Prop :=
  Forall (fun m => node_in MethodItem (m_decl m) /\ in_range (m_code m) (codes (data_ ir))) l /\
  StronglySorted (fun a b => index ir MethodItem (m_decl a) < index ir MethodItem (m_decl b)) l.
Definition class_readable (c : Class_) : Prop :=
  node_in TypeItem (c_type c) /\ in_word 32 (c_access_flags c) /\ opt_node_in TypeItem (super_class c) /\
  in_range (interfaces c) (type_lists (data_ ir)) /\ opt_node_in StringItem (source_file c) /\
  in_range (static_init c) (encoded_arrays (data_ ir)) /\ in_range (c_annotations c) (annotations_directories (data_ ir)) /\
  fields_readable (static_fields c) /\ fields_readable (instance_fields c) /\
  methods_readable (direct_methods c) /\ methods_readable (virtual_methods c) /\
  Z.of_nat (length (static_fields c) + length (instance_fields c) + length (direct_methods c) + length (virtual_methods c)) < 2 ^ 32.

(** The methods that the classes have. *)
Definition encoded_decls : list Z :=
  concat (map (fun k => let c := class_node (nodes ir) k in map m_decl (direct_methods c) ++ map m_decl (virtual_methods c)) (classes ir)).

(** No two prototypes spell the same signature and no method is a member twice. *)
Record readable : Prop := {
  rd_types : count TypeItem < 65536; rd_protos : count ProtoItem < 65536; rd_string_count : count StringItem < 2 ^ 28;
  rd_signatures : NoDup (map (fun p => Signature (nodes ir) (data_ ir) (proto_node (nodes ir) p)) (protos (tbl ir)));
  rd_members : NoDup encoded_decls; rd_member_count : Z.of_nat (length encoded_decls) < 2 ^ 28;
  rd_strings : Forall (fun a => string_data (string_bytes ir a)) (strings (tbl ir));
  rd_params : Forall (fun p => node_in StringItem (shorty (proto_node (nodes ir) p)) /\
    in_range (param_types (proto_node (nodes ir) p)) (type_lists (data_ ir))) (protos (tbl ir));
  rd_type_lists : Forall (Forall (node_in TypeItem)) (type_lists (data_ ir));
  rd_arrays : Forall (fun vs => leb_count (length vs) /\ Forall (value_ok idx) vs /\ Forall ref_in (concat (map value_refs vs)))
    (encoded_arrays (data_ ir));
  rd_annotations : Forall (fun a => value_ok idx (EAnnotation (a_type a) (elements a)) /\ in_word 8 (visibility a) /\
    node_in TypeItem (a_type a) /\ Forall ref_in (element_refs (elements a))) (annotations (data_ ir));
  rd_sets : Forall (Forall plain_annotation) (annotation_sets (data_ ir));
  rd_set_ref_lists : Forall (Forall (fun i => (i < length (annotation_sets (data_ ir)))%nat)) (annotation_set_ref_lists (data_ ir));
  rd_directories : Forall directory_readable (annotations_directories (data_ ir));
  rd_debug : Forall debug_readable (debug_infos (data_ ir));
  rd_codes : Forall code_readable (codes (data_ ir));
  rd_classes : Forall (fun c => class_readable (class_node (nodes ir) c)) (classes ir);
  rd_distinct : NoDup (map (fun c => c_type (class_node (nodes ir) c)) (classes ir)) }.

Section Items.
Context (Hholds : image_holds ir img (node_offset_ im) nd) (R : readable).
Context (Hok : ir_ok ir) (Hord : forall k, ordered ir k) (Hmapped : forall k x, node_in k x -> is_Some (map_of (indexes ir) k !! x)).
Local Abbreviation n := (node_offset_ im).

Lemma index_position k i x : items_of (tbl ir) k !! i = Some x -> idx k x = Z.of_nat i.
Proof.
  intros H. unfold index. rewrite (ord_index _ _ (Hord k) i x H). apply trunc_small.
  pose proof (entries_small k). apply lookup_lt_Some in H. unfold count in *. lia.
Qed.
Lemma index_in_table k x : node_in k x -> in_table r k (idx k x) = true.
Proof.
  intros [i H]%list_elem_of_lookup. rewrite (index_position k i x H). unfold in_table, count_of.
  rewrite (proj1 (header_table k)). cbn. unfold count. apply lookup_lt_Some in H. lia.
Qed.
Lemma index_inj k x y : node_in k x -> node_in k y -> idx k x = idx k y -> x = y.
Proof.
  intros [i Hx]%list_elem_of_lookup [j Hy]%list_elem_of_lookup. rewrite (index_position k i x Hx), (index_position k j y Hy).
  intros ->%Nat2Z.inj. congruence.
Qed.
Lemma index_range k x : node_in k x -> 0 <= idx k x < count k.
Proof. intros H%index_in_table. unfold in_table, count_of in H. rewrite (proj1 (header_table k)) in H. cbn in H. lia. Qed.

(** An item in the data. *)
Lemma data_ptr sz align o bs : placed ir align img o bs -> 1 <= sz <= Z.of_nat (length bs) ->
  exists rest, dataPtr nd r sz o = Some (bs ++ rest).
Proof.
  intros (Hat & Ho & _) Hsz. pose proof data_in_image as Hdi. pose proof (proj1 classes_in_image) as Hci. change sizeof_Header with 112 in *.
  assert (H0 : 0 <= o) by (unfold data_at in *; lia).
  pose proof (at_img_length _ _ _ Hat ltac:(intros ->; cbn in Hsz; lia) H0) as Hend.
  destruct (at_img_drop _ _ _ Hat) as [rest E]. exists rest. unfold dataPtr. destruct header_classes as (_ & _ & Hh).
  destruct nd; cbn [mbind option_bind]; [by rewrite <- E|]. rewrite Hh. cbn [mbind option_bind].
  rewrite SLICER_CHECK_true; [cbn [mbind option_bind]; by rewrite <- E|]. cbn [is_compact_ data_size_ written_reader orb]. lia.
Qed.

(** What a pointer points to. *)
Lemma pointed {A} k align (skip : A -> bool) Rel i a p : node_written ir img n k align skip Rel i a -> pointer n k (Some i) p ->
  written ir img n align skip Rel a p.
Proof. intros (o & Ho & Hw) Hp. cbn in Hp. rewrite Ho in Hp. by injection Hp as <-. Qed.
Lemma placed_range align o bs : placed ir align img o bs -> bs <> [] -> 0 < o < 2 ^ 32.
Proof.
  intros (Hat & Ho & _) Hne. pose proof (proj1 classes_in_image) as Hci. change sizeof_Header with 112 in *.
  pose proof (at_img_length _ _ _ Hat Hne ltac:(unfold data_at in *; lia)). pose proof image_small. unfold data_at in *.
  destruct bs; [done|]. cbn [length] in *. lia.
Qed.
Lemma in_word_u32 x : in_width (4%nat, u32 x).
Proof. apply (trunc_range 32). lia. Qed.

(** ** The tables *)

Lemma c_string_app cs rest : Forall (fun c => c <> 0) cs -> c_string (cs ++ 0 :: rest) = Some cs.
Proof. induction 1 as [|c cs Hc _ IH]; [done|]. cbn [app c_string]. by rewrite (proj2 (Z.eqb_neq c 0)), IH. Qed.

Lemma string_item_at i a : strings (tbl ir) !! i = Some a -> string_item nd r (Z.of_nat i) = Some (string_bytes ir a).
Proof.
  intros Hi. destruct (ih_strings _ _ _ _ Hholds i a Hi) as (o & Ho & Hp).
  pose proof (rd_strings R) as Hs. rewrite Forall_forall in Hs. destruct (Hs a ltac:(by eapply list_elem_of_lookup_2)) as (l & m & cs & E & Hl & Hc).
  pose proof (uleb_nonempty _ _ Hl) as Hne.
  assert (Hlen : length (string_bytes ir a) = (length l + length cs + 1)%nat) by (rewrite E, !length_app; cbn; lia).
  assert (Hob : 0 < o < 2 ^ 32) by (apply (placed_range _ _ _ Hp); intros E'; rewrite E' in Hlen; cbn in Hlen; lia).
  destruct (data_ptr 1 1 o _ Hp ltac:(lia)) as [rest Hd'].
  unfold string_item, GetStringData.
  assert (Hid : StringIds nd r (Z.of_nat i) = Some [o]).
  { apply (table_element StringItem [4%nat] _ [(4%nat, o)]); try done.
    - unfold count. apply lookup_lt_Some in Hi. cbn [items_of]. lia.
    - constructor; [|done]. unfold in_width. cbn. lia. }
  rewrite Hid. cbn [mbind option_bind]. rewrite Hd', E. cbn [mbind option_bind]. rewrite <- !app_assoc, Hl. cbn [mbind option_bind app].
  rewrite c_string_app by done. cbn [mbind option_bind]. f_equal.
  replace (l ++ cs ++ 0 :: rest) with ((l ++ cs ++ [0]) ++ rest) by (by rewrite <- !app_assoc). apply take_app_length'.
  rewrite !length_app. cbn [length]. lia.
Qed.
Lemma lookup_count k i x : items_of (tbl ir) k !! i = Some x -> 0 <= Z.of_nat i < count k.
Proof. intros H%lookup_lt_Some. unfold count. lia. Qed.

(** A count and elements of [w] bytes each. *)
Lemma counted_array w vals align o : placed ir align img o (u4_bytes (Z.of_nat (length vals)) ++ concat (map (le_bytes w) vals)) ->
  (1 <= w)%nat -> Forall (fun v => in_width (w, v)) vals ->
  (p ← dataPtr nd r 4 o; '(m, p) ← read_le 4 p; '(l, _) ← read_array (length p) [w] m p; Some (concat l)) = Some vals.
Proof.
  intros Hp Hw Hv. destruct (data_ptr 4 align o _ Hp) as [rest ->]; [rewrite length_app; unfold u4_bytes; rewrite length_le_bytes; lia|].
  cbn [mbind option_bind]. rewrite <- app_assoc.
  assert (Hlen : length (concat (map (le_bytes w) vals)) = (w * length vals)%nat) by (apply length_encoded; intros; apply length_le_bytes).
  rewrite read_u4.
  2: { split; [lia|]. destruct Hp as (Hat & Ho & _). apply at_img_length in Hat; [|discriminate|].
       - rewrite length_app, Hlen in Hat. pose proof image_small. pose proof (proj1 classes_in_image). change sizeof_Header with 112 in *.
         unfold data_at in *. nia.
       - pose proof (proj1 classes_in_image). change sizeof_Header with 112 in *. unfold data_at in *. lia. }
  cbn [mbind option_bind].
  assert (E : concat (map (le_bytes w) vals) = concat (map members (map (fun v => [(w, v)]) vals))).
  { rewrite map_map. f_equal. apply map_ext. intros v. unfold members. cbn. by rewrite app_nil_r. }
  rewrite E. replace (Z.of_nat (length vals)) with (Z.of_nat (length (map (fun v => [(w, v)]) vals))) by (by rewrite length_map).
  rewrite read_array_members.
  - cbn [mbind option_bind]. f_equal. rewrite !map_map. cbn. clear. induction vals as [|v l IH]; [done|]. cbn. by rewrite IH.
  - cbn. lia.
  - apply Forall_map. eapply Forall_impl; [exact Hv|]. intros v H. split; [done|]. by constructor.
  - rewrite length_app. lia.
Qed.

Lemma type_list_back i p : in_range i (type_lists (data_ ir)) -> pointer n TypeListNode i p ->
  (p = 0 /\ types_in (data_ ir) i = []) \/
  (0 < p < 2 ^ 32 /\ type_list_at nd r p = Some (map (idx TypeItem) (types_in (data_ ir) i))).
Proof.
  destruct i as [i|]; [|by left]. intros [ts Hts]%lookup_lt_is_Some_2 Hp.
  pose proof (pointed _ _ _ _ _ _ _ (ih_type_lists _ _ _ _ Hholds i ts Hts) Hp) as Hw. unfold written in Hw.
  unfold types_in. rewrite Hts. cbn [default from_option id]. case_bool_decide as Hn; [by left|right].
  destruct Hw as (bs & -> & Hpl). unfold type_list_bytes in Hpl. split.
  - apply (placed_range _ _ _ Hpl). discriminate.
  - rewrite <- (length_map (idx TypeItem) ts), <- (map_map (idx TypeItem) u2_bytes) in Hpl.
    apply (counted_array 2 _ 4 p Hpl); [lia|]. apply Forall_map. pose proof (rd_type_lists R) as Ht. rewrite Forall_forall in Ht.
    eapply Forall_impl; [apply Ht; by eapply list_elem_of_lookup_2|]. intros t Hin%index_range. pose proof (rd_types R). unfold in_width. cbn. lia.
Qed.

(** The entries of the tables, by the nodes. *)
Lemma type_id_back i t : types (tbl ir) !! i = Some t ->
  TypeIds nd r (Z.of_nat i) = Some [idx StringItem (descriptor (type_node (nodes ir) t))].
Proof.
  intros Hi. apply (table_element TypeItem [4%nat] _ [(4%nat, type_id_of ir t)]); try done.
  - by apply (lookup_count TypeItem) in Hi.
  - constructor; [apply in_word_u32|done].
  - unfold members. cbn. apply (ih_types _ _ _ _ Hholds i t Hi).
Qed.
Lemma proto_id_back i p : protos (tbl ir) !! i = Some p -> exists o, let q := proto_node (nodes ir) p in
  ProtoIds nd r (Z.of_nat i) = Some [idx StringItem (shorty q); idx TypeItem (return_type q); o] /\
  pointer n TypeListNode (param_types q) o.
Proof.
  intros Hi. destruct (ih_protos _ _ _ _ Hholds i p Hi) as (o & Hat & Hp). exists o. split; [|done].
  pose proof (rd_params R) as Hr. rewrite Forall_forall in Hr. destruct (Hr p ltac:(by eapply list_elem_of_lookup_2)) as [_ Hin].
  apply (table_element ProtoItem [4; 4; 4]%nat _ [(4%nat, _); (4%nat, _); (4%nat, _)]); try done.
  - by apply (lookup_count ProtoItem) in Hi.
  - do 2 (apply Forall_cons_2; [apply in_word_u32|]). apply Forall_cons_2; [|apply Forall_nil_2]. unfold in_width. cbn.
    destruct (type_list_back _ _ Hin Hp) as [[-> _]|[? _]]; lia.
Qed.
Lemma field_id_back i f : fields (tbl ir) !! i = Some f -> let q := field_node (nodes ir) f in
  FieldIds nd r (Z.of_nat i) = Some [idx TypeItem (f_parent q); idx TypeItem (f_type q); idx StringItem (f_name q)].
Proof.
  intros Hi. pose proof (ok_fields _ Hok) as Hr. rewrite Forall_forall in Hr.
  destruct (Hr f ltac:(by eapply list_elem_of_lookup_2)) as (H1 & H2 & H3).
  pose proof (index_range TypeItem _ H1) as R1. pose proof (index_range TypeItem _ H3) as R3. pose proof (rd_types R).
  set (q := field_node (nodes ir) f) in *. cbv zeta in *.
  apply (table_element FieldItem [2; 2; 4]%nat _ [(2%nat, idx TypeItem (f_parent q)); (2%nat, idx TypeItem (f_type q)); (4%nat, idx StringItem (f_name q))]); try done.
  - by apply (lookup_count FieldItem) in Hi.
  - do 2 (apply Forall_cons_2; [unfold in_width; cbn [fst snd]; change (2 ^ (8 * Z.of_nat 2)) with 65536; lia|]). apply Forall_cons_2; [apply in_word_u32|apply Forall_nil_2].
  - unfold members. cbn [map concat fst snd]. rewrite app_nil_r. pose proof (ih_fields _ _ _ _ Hholds i f Hi) as Hat.
    unfold field_id_bytes, field_id_of in Hat. cbv zeta in Hat. fold q in Hat. cbn [fi_class_idx fi_type_idx fi_name_idx] in Hat.
    rewrite (trunc_small 16 (idx TypeItem (f_parent q))), (trunc_small 16 (idx TypeItem (f_type q))) in Hat by lia. exact Hat.
Qed.
Lemma method_id_back i m : methods (tbl ir) !! i = Some m -> let q := method_node (nodes ir) m in
  MethodIds nd r (Z.of_nat i) = Some [idx TypeItem (m_parent q); idx ProtoItem (m_prototype q); idx StringItem (m_name q)].
Proof.
  intros Hi. pose proof (ok_methods _ Hok) as Hr. rewrite Forall_forall in Hr.
  destruct (Hr m ltac:(by eapply list_elem_of_lookup_2)) as (H1 & H2 & H3).
  pose proof (index_range TypeItem _ H1) as R1. pose proof (index_range ProtoItem _ H3) as R3. pose proof (rd_types R). pose proof (rd_protos R).
  set (q := method_node (nodes ir) m) in *. cbv zeta in *.
  apply (table_element MethodItem [2; 2; 4]%nat _ [(2%nat, idx TypeItem (m_parent q)); (2%nat, idx ProtoItem (m_prototype q)); (4%nat, idx StringItem (m_name q))]); try done.
  - by apply (lookup_count MethodItem) in Hi.
  - do 2 (apply Forall_cons_2; [unfold in_width; cbn [fst snd]; change (2 ^ (8 * Z.of_nat 2)) with 65536; lia|]). apply Forall_cons_2; [apply in_word_u32|apply Forall_nil_2].
  - unfold members. cbn [map concat fst snd]. rewrite app_nil_r. pose proof (ih_methods _ _ _ _ Hholds i m Hi) as Hat.
    unfold method_id_bytes, method_id_of in Hat. cbv zeta in Hat. fold q in Hat. cbn [mi_class_idx mi_proto_idx mi_name_idx] in Hat.
    rewrite (trunc_small 16 (idx TypeItem (m_parent q))), (trunc_small 16 (idx ProtoItem (m_prototype q))) in Hat by lia. exact Hat.
Qed.

(** Every entry refers into the tables. *)
Lemma entry_node k j : in_table r k j = true -> exists i x, j = Z.of_nat i /\ items_of (tbl ir) k !! i = Some x.
Proof.
  unfold in_table, count_of. rewrite (proj1 (header_table k)). cbn. intros H.
  destruct (lookup_lt_is_Some_2 (items_of (tbl ir) k) (Z.to_nat j)) as [x Hx]; [unfold count in H; lia|].
  exists (Z.to_nat j), x. split; [lia|done].
Qed.
Lemma type_list_back_ok i p : in_range i (type_lists (data_ ir)) -> pointer n TypeListNode i p -> type_list_ok nd r p = true.
Proof.
  intros Hi Hp. unfold type_list_ok, opt_off. destruct (type_list_back i p Hi Hp) as [[-> _]|[_ ->]]; [done|]. cbn.
  apply orb_true_iff. right. rewrite forallb_forall. intros x (t & <- & Ht%list_elem_of_In)%in_map_iff. apply index_in_table.
  destruct i as [i|]; [|by apply not_elem_of_nil in Ht]. unfold types_in in Ht.
  destruct (type_lists (data_ ir) !! i) as [ts|] eqn:Ets; [|by apply not_elem_of_nil in Ht].
  pose proof (rd_type_lists R) as H. rewrite Forall_forall in H. specialize (H ts ltac:(by eapply list_elem_of_lookup_2)).
  rewrite Forall_forall in H. by apply H.
Qed.
Lemma tables_are_ok : tables_ok nd r = true.
Proof.
  assert (E : forall k j, in_table r k j = true -> entry_ok nd r k j = true).
  { intros k j (i & x & -> & Hx)%entry_node. pose proof (list_elem_of_lookup_2 _ _ _ Hx) as Hin. destruct k; cbn [entry_ok items_of] in *.
    - by rewrite (string_item_at i x Hx).
    - rewrite (type_id_back i x Hx). cbn [some_b]. apply index_in_table. pose proof (ok_types _ Hok) as H. rewrite Forall_forall in H. by apply H.
    - rewrite (field_id_back i x Hx). cbn [some_b]. pose proof (ok_fields _ Hok) as H. rewrite Forall_forall in H.
      destruct (H x Hin) as (H1 & H2 & H3). rewrite (index_in_table TypeItem), (index_in_table TypeItem), (index_in_table StringItem); done.
    - rewrite (method_id_back i x Hx). cbn [some_b]. pose proof (ok_methods _ Hok) as H. rewrite Forall_forall in H.
      destruct (H x Hin) as (H1 & H2 & H3). rewrite (index_in_table TypeItem), (index_in_table ProtoItem), (index_in_table StringItem); done.
    - destruct (proto_id_back i x Hx) as (o & Ho & Hp). cbv zeta in Ho. rewrite Ho. cbn [some_b].
      pose proof (ok_protos _ Hok) as H. rewrite Forall_forall in H. destruct (H x Hin) as (H1 & _).
      pose proof (rd_params R) as H'. rewrite Forall_forall in H'. destruct (H' x Hin) as (H3 & H4).
      rewrite (index_in_table StringItem), (index_in_table TypeItem), (type_list_back_ok _ _ H4 Hp); done. }
  unfold tables_ok. rewrite forallb_forall. intros k _. unfold table_ok. apply andb_true_iff. split.
  - unfold count_of. rewrite (proj1 (header_table k)). cbn. pose proof (entries_small k). unfold kNoIndex. lia.
  - rewrite forallb_forall. intros j Hj%list_elem_of_In%elem_of_seqZ. apply E. unfold in_table. lia.
Qed.

(** ** Annotations and arrays *)

Definition renumbered_annotation (a : Annotation) : Annotation :=
  {| a_type := idx TypeItem (a_type a); elements := map (fun e => (idx StringItem e.1, renumber idx e.2)) (elements a);
     visibility := visibility a |}.
Definition moved (x : ref) : ref := (x.1, idx x.1 x.2).
Lemma moved_ok l : Forall ref_in l -> forallb (ref_ok r) (map moved l) = true.
Proof.
  intros H. rewrite forallb_forall. intros x (y & <- & Hy%list_elem_of_In)%in_map_iff. rewrite Forall_forall in H.
  by apply index_in_table, H.
Qed.
Lemma element_refs_moved es : element_refs (map (fun e => (idx StringItem e.1, renumber idx e.2)) es) = map moved (element_refs es).
Proof.
  unfold element_refs. rewrite concat_map, !map_map. f_equal. apply map_ext. intros e. cbn. f_equal. apply renumber_refs.
Qed.
Lemma value_refs_moved vs : concat (map value_refs (map (renumber idx) vs)) = map moved (concat (map value_refs vs)).
Proof. rewrite concat_map, !map_map. f_equal. apply map_ext. intros v. apply renumber_refs. Qed.

Lemma annotation_back i a p : annotations (data_ ir) !! i = Some a -> visibility a <> kVisibilityEncoded ->
  pointer n AnnotationNode (Some i) p -> 0 < p < 2 ^ 32 /\ annotation_at nd r p = Some (renumbered_annotation a).
Proof.
  intros Hi Hv Hp. destruct (pointed _ _ _ _ _ _ _ (ih_annotations _ _ _ _ Hholds i a Hi Hv) Hp) as (bs & (b & Hw & ->) & Hpl).
  split; [by apply (placed_range _ _ _ Hpl)|].
  pose proof (rd_annotations R) as H. rewrite Forall_forall in H. destruct (H a ltac:(by eapply list_elem_of_lookup_2)) as (Hvo & Hvis & _).
  destruct (data_ptr 1 1 p _ Hpl) as [rest Hd']; [cbn [length]; lia|]. unfold annotation_at. rewrite Hd'. cbn [mbind option_bind app].
  assert (E : read_le 1 (u8 (visibility a) :: b ++ rest) = Some (visibility a, b ++ rest)).
  { change (u8 (visibility a) :: b ++ rest) with ([u8 (visibility a)] ++ (b ++ rest)). unfold read_le.
    change 1%nat with (length [u8 (visibility a)]). rewrite take_bytes_app. cbn [mbind option_bind le_val]. rewrite trunc_small by done. f_equal. f_equal. lia. }
  rewrite E. cbn [mbind option_bind]. rewrite (annotation_reads_back nd idx _ _ _ Hvo Hw) by (rewrite length_app; lia). done.
Qed.
Lemma annotation_back_ok i p : plain_annotation i -> pointer n AnnotationNode (Some i) p -> annotation_ok nd r p = true.
Proof.
  intros (a & Ha & Hv) Hp. destruct (annotation_back i a p Ha Hv Hp) as [Hpos E]. unfold annotation_ok. rewrite E.
  pose proof (rd_annotations R) as H. rewrite Forall_forall in H. destruct (H a ltac:(by eapply list_elem_of_lookup_2)) as (_ & _ & Ht & Hr).
  cbn [some_b renumbered_annotation a_type elements]. rewrite (index_in_table TypeItem _ Ht), element_refs_moved, moved_ok by done.
  rewrite (proj2 (Z.eqb_neq p 0)) by lia. done.
Qed.

(** Lists of pointers. *)
Lemma pointers_back k l align p : written ir img n align never (pointers_item k) l p ->
  (forall i q, i ∈ l -> pointer n k (Some i) q -> 0 < q < 2 ^ 32) ->
  0 < p < 2 ^ 32 /\ p mod align = 0 /\ exists ps, offsets_at nd r p = Some ps /\ Forall2 (fun i q => pointer n k (Some i) q) l ps.
Proof.
  intros (bs & (ps & Hps & ->) & Hpl) Hr. rewrite (Forall2_length _ _ _ Hps) in Hpl.
  split; [by apply (placed_range _ _ _ Hpl)|]. split; [apply Hpl|]. exists ps. split; [|done].
  apply (counted_array 4 ps align p Hpl); [lia|]. apply Forall_forall. intros q [j Hj]%list_elem_of_lookup.
  destruct (Forall2_lookup_r _ _ _ _ _ Hps Hj) as (i & Hi & Hp'). pose proof (Hr i q ltac:(by eapply list_elem_of_lookup_2) Hp').
  unfold in_width. cbn. lia.
Qed.
Lemma set_back i l p : annotation_sets (data_ ir) !! i = Some l -> pointer n AnnotationSetNode (Some i) p ->
  0 < p < 2 ^ 32 /\ p mod 4 = 0 /\ exists ps, offsets_at nd r p = Some ps /\ Forall2 (fun i q => pointer n AnnotationNode (Some i) q) l ps.
Proof.
  intros Hi Hp. apply (pointers_back AnnotationNode l 4 p); [exact (pointed _ _ _ _ _ _ _ (ih_sets _ _ _ _ Hholds i l Hi) Hp)|].
  intros j q Hj Hq. pose proof (rd_sets R) as H. rewrite Forall_forall in H. specialize (H l ltac:(by eapply list_elem_of_lookup_2)).
  rewrite Forall_forall in H. destruct (H j Hj) as (a & Ha & Hv). by destruct (annotation_back j a q Ha Hv Hq).
Qed.
Lemma set_back_ok i p : (i < length (annotation_sets (data_ ir)))%nat -> pointer n AnnotationSetNode (Some i) p -> set_ok nd r p = true.
Proof.
  intros [l Hl]%lookup_lt_is_Some_2 Hp. destruct (set_back i l p Hl Hp) as (Hr & Ha & ps & E & Hps). unfold set_ok. rewrite E.
  rewrite (proj2 (Z.eqb_neq p 0)), (proj2 (Z.eqb_eq (p mod 4) 0)) by lia. cbn. rewrite forallb_forall. intros q [j Hj]%list_elem_of_In%list_elem_of_lookup.
  destruct (Forall2_lookup_r _ _ _ _ _ Hps Hj) as (x & Hx & Hq). apply (annotation_back_ok x q); [|done].
  pose proof (rd_sets R) as H. rewrite Forall_forall in H. specialize (H l ltac:(by eapply list_elem_of_lookup_2)).
  rewrite Forall_forall in H. apply H. by eapply list_elem_of_lookup_2.
Qed.
Lemma opt_set_back_ok i p : in_range i (annotation_sets (data_ ir)) -> pointer n AnnotationSetNode i p -> opt_off (set_ok nd r) p = true.
Proof.
  destruct i as [i|]; cbn [in_range]; [|by intros _ ->]. intros Hi Hp. unfold opt_off. rewrite (set_back_ok i p Hi Hp). apply orb_true_r.
Qed.
Lemma ref_list_back i l p : annotation_set_ref_lists (data_ ir) !! i = Some l -> pointer n AnnotationSetRefListNode (Some i) p ->
  0 < p < 2 ^ 32 /\ p mod 4 = 0 /\ exists ps, offsets_at nd r p = Some ps /\ Forall2 (fun i q => pointer n AnnotationSetNode (Some i) q) l ps.
Proof.
  intros Hi Hp. apply (pointers_back AnnotationSetNode l 4 p); [exact (pointed _ _ _ _ _ _ _ (ih_set_ref_lists _ _ _ _ Hholds i l Hi) Hp)|].
  intros j q Hj Hq. pose proof (rd_set_ref_lists R) as H. rewrite Forall_forall in H. specialize (H l ltac:(by eapply list_elem_of_lookup_2)).
  rewrite Forall_forall in H. destruct (lookup_lt_is_Some_2 _ _ (H j Hj)) as [l' Hl']. by destruct (set_back j l' q Hl' Hq).
Qed.
Lemma ref_list_back_ok i p : (i < length (annotation_set_ref_lists (data_ ir)))%nat -> pointer n AnnotationSetRefListNode (Some i) p ->
  ref_list_ok nd r p = true.
Proof.
  intros [l Hl]%lookup_lt_is_Some_2 Hp. destruct (ref_list_back i l p Hl Hp) as (Hr & Ha & ps & E & Hps). unfold ref_list_ok. rewrite E.
  rewrite (proj2 (Z.eqb_eq (p mod 4) 0)) by lia. cbn. rewrite forallb_forall. intros q [j Hj]%list_elem_of_In%list_elem_of_lookup.
  destruct (Forall2_lookup_r _ _ _ _ _ Hps Hj) as (x & Hx & Hq). apply (opt_set_back_ok (Some x) q); [|done].
  pose proof (rd_set_ref_lists R) as H. rewrite Forall_forall in H. specialize (H l ltac:(by eapply list_elem_of_lookup_2)).
  rewrite Forall_forall in H. apply H. by eapply list_elem_of_lookup_2.
Qed.

Lemma array_back i p : in_range i (encoded_arrays (data_ ir)) ->
  written_ref ir img n 1 (array_item nd ir) (encoded_arrays (data_ ir)) i p ->
  match i with
  | None => p = 0
  | Some i => exists vs, encoded_arrays (data_ ir) !! i = Some vs /\ 0 < p < 2 ^ 32 /\ encoded_array_at nd r p = Some (map (renumber idx) vs)
  end.
Proof.
  destruct i as [i|]; [|done]. intros _ (vs & bs & Hi & Hw & Hpl). exists vs. split; [done|].
  pose proof (rd_arrays R) as H. rewrite Forall_forall in H. destruct (H vs ltac:(by eapply list_elem_of_lookup_2)) as (Hc & Hvo & _).
  destruct (array_reads_back nd idx vs bs Hc Hvo Hw) as [Hlen Hr].
  split; [apply (placed_range _ _ _ Hpl); intros ->; cbn in Hlen; lia|].
  destruct (data_ptr 1 1 p _ Hpl) as [rest Hd']; [lia|]. unfold encoded_array_at. rewrite Hd'. cbn [mbind option_bind].
  by rewrite Hr by (rewrite length_app; lia).
Qed.
Lemma array_back_ok i p : in_range i (encoded_arrays (data_ ir)) ->
  written_ref ir img n 1 (array_item nd ir) (encoded_arrays (data_ ir)) i p -> array_ok nd r p = true.
Proof.
  intros Hi Hw. pose proof (array_back i p Hi Hw) as H. unfold array_ok, opt_off. destruct i as [i|]; [|by subst].
  destruct H as (vs & Hvs & _ & ->). cbn [some_b]. rewrite value_refs_moved, moved_ok; [apply orb_true_r|].
  pose proof (rd_arrays R) as H. rewrite Forall_forall in H. apply H. by eapply list_elem_of_lookup_2.
Qed.

(** The pairs of a directory. *)
Definition pair_members (k : item) (l : list (Z * nat)) (qs : list Z) : list (list (nat * Z)) :=
  zip_with (fun e q => [(4%nat, idx k e.1); (4%nat, q)]) l qs.
Definition pair_values (k : item) (l : list (Z * nat)) (qs : list Z) : list (list Z) := zip_with (fun e q => [idx k e.1; q]) l qs.
Lemma pair_members_spec k (P : Z * nat -> Z -> Prop) l qs : Forall2 P l qs -> (forall e q, e ∈ l -> P e q -> 0 < q < 2 ^ 32) ->
  concat (zip_with (fun (e : Z * nat) q => u4_bytes (idx k e.1) ++ u4_bytes q) l qs) = concat (map members (pair_members k l qs)) /\
  length (pair_members k l qs) = length l /\ Forall (fun m => map fst m = [4; 4]%nat /\ Forall in_width m) (pair_members k l qs) /\
  map (map snd) (pair_members k l qs) = pair_values k l qs /\ length (concat (map members (pair_members k l qs))) = (8 * length l)%nat.
Proof.
  intros H Hq. induction H as [|e q l qs He _ IH]; [done|].
  destruct IH as (H1 & H2 & H3 & H4 & H5); [intros; eapply Hq; [by right|done]|].
  unfold pair_members, pair_values in *. cbn [zip_with map concat length]. rewrite H1, H2, H4. split_and!; try done.
  - constructor; [|done]. split; [done|]. apply Forall_cons_2; [apply in_word_u32|]. apply Forall_cons_2; [|apply Forall_nil_2].
    pose proof (Hq e q ltac:(by left) He). unfold in_width. cbn. lia.
  - rewrite length_app, H5, length_members. cbn [map fst foldr]. lia.
Qed.

Lemma directory_back i a p : annotations_directories (data_ ir) !! i = Some a ->
  written_ref ir img n 4 (directory_item ir) (annotations_directories (data_ ir)) (Some i) p ->
  0 < p < 2 ^ 32 /\ p mod 4 = 0 /\ exists c fs ms ps,
    directory_at nd r p = Some (c, (pair_values FieldItem (field_annotations a) fs, pair_values MethodItem (method_annotations a) ms,
      pair_values MethodItem (param_annotations a) ps)) /\
    pointer n AnnotationSetNode (class_annotation a) c /\
    Forall2 (fun e q => pointer n AnnotationSetNode (Some e.2) q) (field_annotations a) fs /\
    Forall2 (fun e q => pointer n AnnotationSetNode (Some e.2) q) (method_annotations a) ms /\
    Forall2 (fun e q => pointer n AnnotationSetRefListNode (Some e.2) q) (param_annotations a) ps.
Proof.
  intros Hi (a' & bs & Hi' & (c & fs & ms & ps & Hc & Hf & Hm & Hp & Ebs) & Hpl). rewrite Hi in Hi'. injection Hi' as <-.
  pose proof (rd_directories R) as H. rewrite Forall_forall in H.
  destruct (H a ltac:(by eapply list_elem_of_lookup_2)) as (D1 & D2 & D3 & D4). rewrite Forall_forall in D2, D3, D4. clear H.
  assert (Set_range : forall j q, (j < length (annotation_sets (data_ ir)))%nat -> pointer n AnnotationSetNode (Some j) q -> 0 < q < 2 ^ 32).
  { intros j q [l Hl]%lookup_lt_is_Some_2 Hq. by destruct (set_back j l q Hl Hq). }
  destruct (pair_members_spec FieldItem _ _ _ Hf) as (F1 & F2 & F3 & F4 & F5); [intros e q He; apply Set_range, D2, He|].
  destruct (pair_members_spec MethodItem _ _ _ Hm) as (M1 & M2 & M3 & M4 & M5); [intros e q He; apply Set_range, D3, He|].
  destruct (pair_members_spec MethodItem _ _ _ Hp) as (P1 & P2 & P3 & P4 & P5).
  { intros e q He Hq. destruct (lookup_lt_is_Some_2 _ _ (proj2 (D4 e He))) as [l Hl]. by destruct (ref_list_back _ l q Hl Hq). }
  cbv beta zeta in Ebs. rewrite F1, M1, P1 in Ebs.
  set (mf := pair_members FieldItem (field_annotations a) fs) in *. set (mm := pair_members MethodItem (method_annotations a) ms) in *.
  set (mp := pair_members MethodItem (param_annotations a) ps) in *.
  assert (Hr : 0 < p < 2 ^ 32) by (apply (placed_range _ _ _ Hpl); rewrite Ebs; discriminate).
  split; [done|]. split; [apply Hpl|]. exists c, fs, ms, ps. split; [|done].
  assert (Hlen : length bs = (16 + 8 * (length (field_annotations a) + length (method_annotations a) + length (param_annotations a)))%nat).
  { rewrite Ebs, !length_app, F5, M5, P5. cbn [map concat length app u4_bytes]. cbn. lia. }
  assert (Hsmall : Z.of_nat (length bs) < 2 ^ 32).
  { pose proof image_small. destruct Hpl as (Hat & _). apply at_img_length in Hat; [lia|rewrite Ebs; discriminate|lia]. }
  set (hd := [(4%nat, c); (4%nat, Z.of_nat (length (field_annotations a))); (4%nat, Z.of_nat (length (method_annotations a)));
    (4%nat, Z.of_nat (length (param_annotations a)))]).
  assert (Hhd : Forall in_width hd).
  { unfold hd. repeat apply Forall_cons_2; [..|apply Forall_nil_2]; unfold in_width; cbn [fst snd]; change (2 ^ (8 * Z.of_nat 4)) with (2 ^ 32); [|lia..].
    destruct (class_annotation a) as [j|]; [pose proof (Set_range j c D1 Hc); lia|cbn in Hc; lia]. }
  destruct (data_ptr 16 4 p _ Hpl) as [rest Hd']; [lia|]. unfold directory_at. rewrite Hd', Ebs. cbn [mbind option_bind].
  match goal with |- context [concat (map u4_bytes ?l)] => change (concat (map u4_bytes l)) with (members hd) end.
  rewrite <- !app_assoc. change [4; 4; 4; 4]%nat with (map fst hd). rewrite read_all_members by done. cbn [mbind option_bind hd map snd].
  rewrite <- F2. rewrite read_array_members by (done || (rewrite !length_app; lia) || (cbn; lia)). cbn [mbind option_bind].
  rewrite <- M2. rewrite read_array_members by (done || (rewrite !length_app; lia) || (cbn; lia)). cbn [mbind option_bind].
  rewrite <- P2. rewrite read_array_members by (done || (rewrite !length_app; lia) || (cbn; lia)). cbn [mbind option_bind].
  by rewrite F4, M4, P4.
Qed.
Lemma pairs_back_ok k ok (P : Z * nat -> Z -> Prop) l qs : Forall2 P l qs -> (forall e q, e ∈ l -> P e q -> node_in k e.1 /\ ok q = true) ->
  pairs_ok r k ok (pair_values k l qs) = true.
Proof.
  intros H Hvo. unfold pairs_ok. induction H as [|e q l qs He _ IH]; [done|].
  unfold pair_values in *. cbn [zip_with map forallb pair_of fst snd nth]. destruct (Hvo e q ltac:(by left) He) as [H1 H2].
  rewrite (index_in_table k _ H1), H2, IH; [done|]. intros e' q' He'. apply Hvo. by right.
Qed.
Lemma directory_back_ok i p : in_range i (annotations_directories (data_ ir)) ->
  written_ref ir img n 4 (directory_item ir) (annotations_directories (data_ ir)) i p -> directory_ok nd r p = true.
Proof.
  destruct i as [i|]; [|by intros _ ->]. intros [a Ha]%lookup_lt_is_Some_2 Hw.
  destruct (directory_back i a p Ha Hw) as (Hr & Hal & c & fs & ms & ps & E & Hc & Hf & Hm & Hp).
  pose proof (rd_directories R) as H. rewrite Forall_forall in H.
  destruct (H a ltac:(by eapply list_elem_of_lookup_2)) as (D1 & D2 & D3 & D4). rewrite Forall_forall in D2, D3, D4.
  unfold directory_ok. unfold opt_off at 1. rewrite E, (proj2 (Z.eqb_eq (p mod 4) 0)) by done. cbn [some_b andb].
  rewrite (opt_set_back_ok _ _ D1 Hc).
  rewrite (pairs_back_ok FieldItem (set_ok nd r) _ _ _ Hf), (pairs_back_ok MethodItem (set_ok nd r) _ _ _ Hm),
    (pairs_back_ok MethodItem (ref_list_ok nd r) _ _ _ Hp); [apply orb_true_r|..].
  - intros e q He Hq. destruct (D4 e He). split; [done|]. by eapply ref_list_back_ok.
  - intros e q He Hq. destruct (D3 e He). split; [done|]. by eapply set_back_ok.
  - intros e q He Hq. destruct (D2 e He). split; [done|]. by eapply set_back_ok.
Qed.

(** ** Code *)

(** Every node of a table has an index. *)
Lemma ref_moved x : ref_in x -> ref_renamed (indexes ir) x = moved x.
Proof.
  intros H. unfold ref_renamed, moved. destruct (Hmapped _ _ H) as [i Hi]. rewrite Hi. cbn. f_equal.
  pose proof H as [j Hj]%list_elem_of_lookup. pose proof (ord_index _ _ (Hord x.1) j x.2 Hj) as E'.
  pose proof (index_position _ _ _ Hj) as E. rewrite E. unfold index_of, index_in in E'. rewrite Hi in E'. exact E'.
Qed.
Lemma refs_moved l : Forall ref_in l -> map (ref_renamed (indexes ir)) l = map moved l.
Proof. induction 1 as [|x l Hx _ IH]; [done|]. cbn [map]. by rewrite IH, (ref_moved x Hx). Qed.

Lemma debug_back i d' p : debug_infos (data_ ir) !! i = Some d' -> pointer n DebugInfoNode (Some i) p ->
  0 < p < 2 ^ 32 /\ exists ops s, stream_of (data d') ops /\ stream_of s (map (op_renamed (indexes ir)) ops) /\
    Forall ref_in (debug_refs (param_names d') ops) /\
    debug_info_at nd r p = Some ({| line_start := line_start d';
      param_names := map (opt_renamed (indexes ir) StringItem) (param_names d'); data := s |}, map moved (debug_refs (param_names d') ops)).
Proof.
  intros Hi Hp. destruct (pointed _ _ _ _ _ _ _ (ih_debug_infos _ _ _ _ Hholds i d' Hi) Hp) as (bs & Hw & Hpl).
  pose proof (rd_debug R) as H. rewrite Forall_forall in H.
  destruct (H d' ltac:(by eapply list_elem_of_lookup_2)) as (ops & Hl & Hn & Hs & Hfn & Hfo & Href).
  destruct (write_debug nd (indexes ir) _ _ _ _ Hl Hn Hs Hfn Hfo) as (bs' & s & Hw' & Hof).
  unfold debug_item in Hw. destruct d' as [line names dd]. cbn [line_start param_names data] in *. rewrite Hw in Hw'. injection Hw' as <-.
  assert (Hne : (1 <= length bs)%nat).
  { inversion Hof as [a b c d0 l0 ns ops0 Ha Hb Hc Hd0 E1]; subst. rewrite length_app. pose proof (uleb_nonempty _ _ Ha). lia. }
  split; [apply (placed_range _ _ _ Hpl); intros ->; cbn in Hne; lia|]. exists ops, s. split; [done|].
  split; [by inversion Hof; subst|]. split; [done|]. destruct (data_ptr 1 1 p _ Hpl) as [rest Hd']; [lia|]. unfold debug_info_at. rewrite Hd'. cbn [mbind option_bind].
  rewrite (extract_debug _ _ _ _ _ _ Hof). cbn [mbind option_bind]. by rewrite debug_renamed_refs, refs_moved.
Qed.
Lemma debug_back_ok i p : in_range i (debug_infos (data_ ir)) -> pointer n DebugInfoNode i p -> debug_ok nd r p = true.
Proof.
  unfold debug_ok, opt_off. destruct i as [i|]; cbn [in_range]; [|by intros _ ->]. intros [d' Hd']%lookup_lt_is_Some_2 Hp.
  destruct (debug_back i d' p Hd' Hp) as (_ & ops & s & _ & _ & Href & ->). cbn [some_b]. rewrite moved_ok by done. apply orb_true_r.
Qed.

Lemma reindexed_length ix chunks chunks' : Forall2 (reindexed ix) chunks chunks' -> length (concat chunks') = length (concat chunks).
Proof. induction 1 as [|c c' cs cs' H _ IH]; [done|]. cbn. by rewrite !length_app, IH, (re_length _ _ _ H). Qed.

(** The instructions' units are padded to an even number. *)
Lemma aligned_units (m : nat) : Z.of_nat m < 2 ^ 31 ->
  Z.to_nat (2 * u32 (u32 (Z.of_nat m + 1) / 2 * 2)) = (2 * m + pad_length 4 (2 * Z.of_nat m))%nat.
Proof.
  intros Hm. unfold pad_length. rewrite (trunc_small 32 (_ + 1)) by lia.
  destruct (Z.Even_or_Odd (Z.of_nat m)) as [[k Hk]|[k Hk]]; rewrite Hk.
  - replace ((2 * k + 1) / 2) with k by (apply (Z.div_unique _ 2 k 1); lia).
    replace (- (2 * (2 * k)) mod 4) with 0 by (apply (Z.mod_unique _ 4 (- k) 0); lia). rewrite trunc_small by lia. lia.
  - replace ((2 * k + 1 + 1) / 2) with (k + 1) by (apply (Z.div_unique _ 2 (k + 1) 0); lia).
    replace (- (2 * (2 * k + 1)) mod 4) with 2 by (apply (Z.mod_unique _ 4 (- k - 1) 2); lia). rewrite trunc_small by lia. lia.
Qed.

(** The handlers and the tries behind the instructions. *)
Lemma tries_back c (insns : list Z) tail rest : tries_readable c -> try_blocks c <> [] -> Z.of_nat (length (try_blocks c)) < 2 ^ 16 ->
  Forall (fun t => in_word 32 (start_addr t) /\ in_word 16 (insn_count t)) (try_blocks c) -> Z.of_nat (length insns) < 2 ^ 31 ->
  (exists tries handlers, WriteTryBlocks nd (indexes ir) (try_blocks c) (catch_handlers c) = Some (tries, handlers) /\
    tail = repeat 0 (pad_length 4 (2 * Z.of_nat (length insns))) ++ concat (map try_bytes tries) ++ handlers) ->
  exists l hbs hs l' hbs' tries, catch_handlers c = l ++ concat hbs /\ list_of l hbs hs /\
    list_of l' hbs' (map (handler_renamed (indexes ir)) hs) /\ Forall2 (try_relocated l l' hbs hbs') (try_blocks c) tries /\
    Forall ref_in (concat (map handler_refs hs)) /\
    tries_at (concat (map u2_bytes insns) ++ tail ++ rest) (Z.of_nat (length insns)) (Z.of_nat (length (try_blocks c))) =
      Some (tries, l' ++ concat hbs', map moved (concat (map handler_refs hs))).
Proof.
  intros Ht Hne Hlen Hw Hin (tries & handlers & Ew & ->). destruct (Ht Hne) as (l & hbs & hs & Ec & Hl & Hhf & Hc & Hroom & Hhas & Href).
  rewrite Ec in Hc, Ew. destruct (write_tries nd (indexes ir) l hbs hs _ Hl Hhf Hne Hc Hroom Hhas) as (tries' & l' & hbs' & Ew' & Hl' & Hts).
  pose proof (tries_range _ _ _ _ _ _ Ew) as Hr. rewrite Ew in Ew'. injection Ew' as <- ->.
  exists l, hbs, hs, l', hbs', tries. split_and!; try done.
  unfold tries_at. rewrite (proj2 (Z.eqb_neq _ 0)) by (destruct (try_blocks c); [done|cbn; lia]). cbv zeta.
  assert (Hpad : Z.to_nat (2 * u32 (u32 (Z.of_nat (length insns) + 1) / 2 * 2)) = (2 * length insns + pad_length 4 (2 * Z.of_nat (length insns)))%nat).
  { by apply aligned_units. }
  assert (Hdrop : drop (Z.to_nat (2 * u32 (u32 (Z.of_nat (length insns) + 1) / 2 * 2)))
      (concat (map u2_bytes insns) ++ (repeat 0 (pad_length 4 (2 * Z.of_nat (length insns))) ++ concat (map try_bytes tries) ++ l' ++ concat hbs') ++ rest) =
    concat (map try_bytes tries) ++ l' ++ concat hbs' ++ rest).
  { rewrite Hpad, <- !app_assoc, app_assoc. apply drop_app_length'. rewrite length_app, repeat_length.
    rewrite (length_encoded u2_bytes 2) by (intros; apply length_le_bytes). lia. }
  rewrite Hdrop. pose proof (Forall2_length _ _ _ Hts) as Hlt.
  set (ms := map (fun t => [(4%nat, start_addr t); (2%nat, insn_count t); (2%nat, handler_off t)]) tries).
  assert (Ems : concat (map try_bytes tries) = concat (map members ms)) by (unfold ms; by rewrite map_map).
  assert (Hms : Forall (fun m => map fst m = [4; 2; 2]%nat /\ Forall in_width m) ms).
  { unfold ms. apply Forall_map, Forall_forall. intros t [k Hk]%list_elem_of_lookup. split; [done|].
    destruct (Forall2_lookup_r _ _ _ _ _ Hts Hk) as (t0 & Ht0 & Rt). rewrite Forall_forall in Hw, Hr.
    destruct (Hw t0 ltac:(by eapply list_elem_of_lookup_2)) as [W1 W2]. pose proof (Hr t ltac:(by eapply list_elem_of_lookup_2)) as W3.
    rewrite (try_start _ _ _ _ _ _ Rt), (try_count _ _ _ _ _ _ Rt). repeat apply Forall_cons_2; [exact W1|exact W2|exact W3|apply Forall_nil_2]. }
  rewrite Ems, Hlt. replace (length tries) with (length ms) by (unfold ms; by rewrite length_map).
  rewrite read_array_members by (done || (rewrite length_app; lia) || (cbn; lia)). cbn [mbind option_bind].
  rewrite (extract_handlers l' hbs' _ rest Hl'). cbn [mbind option_bind]. f_equal. f_equal; [f_equal|].
  - unfold ms. rewrite !map_map. cbn [map snd]. rewrite <- (map_id tries) at 2. apply map_ext. by intros [].
  - rewrite <- refs_moved by done. rewrite concat_map, !map_map. f_equal. apply map_ext. intros h. unfold handler_refs. cbn [catches handler_renamed]. by rewrite !map_map.
Qed.

(** The code that is read: the same instructions with their indexes renamed, the same
    ranges with the same handlers. *)
Record code_moved (c c' : Code) : Prop := {
  cm_registers : registers c' = registers c; cm_ins : ins_count c' = ins_count c; cm_outs : outs_count c' = outs_count c;
  cm_insns : exists chunks chunks', instructions c = concat chunks /\ instructions c' = concat chunks' /\
    Forall2 (reindexed (indexes ir)) chunks chunks';
  cm_no_tries : try_blocks c = [] -> try_blocks c' = [] /\ catch_handlers c' = [];
  cm_tries : try_blocks c <> [] -> exists l hbs hs l' hbs', catch_handlers c = l ++ concat hbs /\ list_of l hbs hs /\
    catch_handlers c' = l' ++ concat hbs' /\ list_of l' hbs' (map (handler_renamed (indexes ir)) hs) /\
    Forall2 (try_relocated l l' hbs hbs') (try_blocks c) (try_blocks c') }.

Lemma code_back i c p : codes (data_ ir) !! i = Some c -> pointer n CodeNode (Some i) p ->
  0 < p < 2 ^ 32 /\ exists c' dbg refs, code_at nd r p = Some (c', dbg, map moved refs) /\ Forall ref_in refs /\
    pointer n DebugInfoNode (code_debug_info c) dbg /\ code_moved c c'.
Proof.
  intros Hi Hp. destruct (pointed _ _ _ _ _ _ _ (ih_codes _ _ _ _ Hholds i c Hi) Hp) as (bs & (dbg & insns & tail & Hdbg & Hw & -> & Htail) & Hpl).
  pose proof (rd_codes R) as H. rewrite Forall_forall in H.
  destruct (H c ltac:(by eapply list_elem_of_lookup_2)) as (chunks & Ec & Hne & Hwf & Hfits & Href & Hwords & Htw & Hdr & Htr). clear H.
  rewrite Ec in Hw. unfold WriteInstructions in Hw. apply bind_Some in Hw as (_ & _ & Hw).
  destruct (write_chunks nd (indexes ir) chunks Hwf Hfits _ (le_n _)) as (chunks' & Hw' & Hre). rewrite Hw in Hw'. injection Hw' as ->.
  pose proof (reindexed_wf _ _ _ Hre) as Hwf'. pose proof (units_concat _ Hwf') as Hunits.
  assert (Hhlen : length (code_header c dbg) = 16%nat) by done.
  assert (Hr : 0 < p < 2 ^ 32) by (apply (placed_range _ _ _ Hpl); discriminate).
  split; [done|].
  assert (Hsmall : Z.of_nat (length (concat chunks')) < 2 ^ 31).
  { pose proof image_small. destruct Hpl as (Hat & _). apply at_img_length in Hat; [|discriminate|lia].
    rewrite !length_app, (length_encoded u2_bytes 2) in Hat by (intros; apply length_le_bytes). lia. }
  assert (Hlen : length (instructions c) = length (concat chunks')) by (rewrite Ec; symmetry; by eapply reindexed_length).
  assert (Hdbgr : 0 <= dbg < 2 ^ 32).
  { destruct (code_debug_info c) as [k|]; [|cbn in Hdbg; lia]. destruct (lookup_lt_is_Some_2 _ _ Hdr) as [d' Hd'].
    destruct (debug_back k d' dbg Hd' Hdbg). lia. }
  destruct (data_ptr 16 4 p _ Hpl) as [rest Hd']; [rewrite length_app, Hhlen; lia|].
  set (hd := [(2%nat, registers c); (2%nat, ins_count c); (2%nat, outs_count c); (2%nat, Z.of_nat (length (try_blocks c))); (4%nat, dbg);
    (4%nat, Z.of_nat (length (instructions c)))]).
  assert (Hhd : Forall in_width hd).
  { apply Forall_cons in Hwords as [W1 Hwords]. apply Forall_cons in Hwords as [W2 Hwords]. apply Forall_cons in Hwords as [W3 Hwords].
    apply Forall_cons in Hwords as [W4 _]. unfold hd. rewrite Hlen.
    repeat apply Forall_cons_2; [exact W1|exact W2|exact W3|exact W4|exact Hdbgr|split; cbn; lia|apply Forall_nil_2]. }
  assert (Ehd : code_header c dbg = members hd) by done.
  assert (Hns : Forall (fun v => in_width (2%nat, v)) (concat chunks')) by exact Hunits.
  set (ms := map (fun v => [(2%nat, v)]) (concat chunks')).
  assert (Ems : concat (map u2_bytes (concat chunks')) = concat (map members ms)) by (unfold ms; by rewrite map_map).
  assert (Hms : Forall (fun m => map fst m = [2%nat] /\ Forall in_width m) ms).
  { unfold ms. apply Forall_map. eapply Forall_impl; [exact Hns|]. intros v Hv. split; [done|]. by constructor. }
  assert (Hval : concat (map (map snd) ms) = concat chunks').
  { unfold ms. rewrite map_map. cbn. clear. induction (concat chunks') as [|v l IH]; [done|]. cbn. by rewrite IH. }
  assert (Hparse : ParseInstructions nd (concat chunks') = Some (map moved (map slot_ref (stream_slots chunks)))).
  { unfold ParseInstructions. rewrite (parse_chunks nd _ Hwf') by done. rewrite (reindexed_slots _ _ _ Hre). f_equal.
    rewrite <- refs_moved by done. rewrite !map_map. done. }
  unfold code_at. rewrite SLICER_CHECK_true by (apply Z.eqb_eq, Hpl). cbn [mbind option_bind]. rewrite Hd', Ehd. cbn [mbind option_bind].
  rewrite <- !app_assoc. change [2; 2; 2; 2; 4; 4]%nat with (map fst hd). rewrite read_all_members by done. cbn [mbind option_bind hd map snd].
  assert (Hread : forall rest', read_array (length (concat (map members ms) ++ rest')) [2%nat] (Z.of_nat (length (instructions c)))
      (concat (map members ms) ++ rest') = Some (map (map snd) ms, rest')).
  { intros rest'. rewrite Hlen. replace (length (concat chunks')) with (length ms) by (unfold ms; by rewrite length_map).
    apply read_array_members; [cbn; lia|done|rewrite length_app; lia]. }
  rewrite Ems, Hread. cbn [mbind option_bind]. rewrite Hval, Hparse. cbn [mbind option_bind]. rewrite <- Ems.
  destruct (decide (try_blocks c = [])) as [Et|Et].
  - rewrite Et in Htail. subst tail. rewrite Et. change (Z.of_nat (length [])) with 0.
    unfold tries_at. cbn [Z.eqb mbind option_bind].
    rewrite app_nil_r. do 2 eexists. exists (map slot_ref (stream_slots chunks)). split; [reflexivity|]. split_and!; [done|done|].
    split; try done. by exists chunks, chunks'.
  - destruct (tries_back c (concat chunks') tail rest Htr Et) as (l & hbs & hs & l' & hbs' & tries & E1 & E2 & E3 & E4 & E5 & E6); [|done|done| |].
    { apply Forall_cons in Hwords as [_ Hwords]. apply Forall_cons in Hwords as [_ Hwords]. apply Forall_cons in Hwords as [_ Hwords].
      apply Forall_cons in Hwords as [W4 _]. apply W4. }
    { destruct (try_blocks c); [done|]. exact Htail. }
    rewrite Hlen, E6. cbn [mbind option_bind]. do 2 eexists. exists (map slot_ref (stream_slots chunks) ++ concat (map handler_refs hs)).
    rewrite map_app. split; [reflexivity|]. split; [by apply Forall_app|]. split; [done|]. split; try done.
    + by exists chunks, chunks'.
    + intros _. by exists l, hbs, hs, l', hbs'.
Qed.
Lemma code_back_ok i p : in_range i (codes (data_ ir)) -> pointer n CodeNode i p -> code_ok nd r p = true.
Proof.
  unfold code_ok, opt_off at 1. destruct i as [i|]; cbn [in_range]; [|by intros _ ->]. intros [c Hc]%lookup_lt_is_Some_2 Hp.
  destruct (code_back i c p Hc Hp) as (_ & c' & dbg & refs & -> & Href & Hdbg & _). cbn [some_b].
  pose proof (rd_codes R) as H. rewrite Forall_forall in H.
  destruct (H c ltac:(by eapply list_elem_of_lookup_2)) as (chunks & _ & _ & _ & _ & _ & _ & _ & Hdr & _).
  rewrite moved_ok, (debug_back_ok _ _ Hdr Hdbg) by done. apply orb_true_r.
Qed.

(** ** Classes *)

Definition moved_field (f : EncodedField) : EncodedField := field_of (field_entry ir f).
(** A method and the offset of its code. *)
Definition method_moved (m : EncodedMethod) (e : Z * Z * Z) : Prop :=
  e.1 = (idx MethodItem (m_decl m), u32 (m_access_flags m)) /\ pointer n CodeNode (m_code m) e.2.

Lemma fields_ascend l : fields_readable l -> members_ascend kNoIndex (map fst (map (field_entry ir) l)).
Proof.
  intros [H1 H2]. rewrite map_map. split.
  - apply Forall_map. eapply Forall_impl; [exact H1|]. intros f Hf%index_range. cbn. pose proof (entries_small FieldItem). split; [lia|done].
  - clear H1. induction H2 as [|f l _ IH H]; [constructor|]. cbn [map]. constructor; [done|]. apply Forall_map. exact H.
Qed.
Lemma methods_back l es : methods_readable l -> Forall2 (method_entry ir n) l es ->
  members_ascend kNoIndex (map (fun e => e.1.1) es) /\ Forall2 method_moved l es.
Proof.
  intros [H1 H2] He. assert (Hp : Forall2 method_moved l es).
  { eapply Forall2_impl; [apply Forall2_same_length_lookup_2; [by eapply Forall2_length|]|].
    - intros i m e Hm Hei. exact (conj (proj1 (Forall_lookup _ _) H1 i m Hm) (Forall2_lookup_lr _ _ _ _ _ _ He Hm Hei)).
    - cbn. intros m e [[_ Hc] (E1 & off & Hoff & E2)]. split; [done|]. rewrite E2.
      destruct (m_code m) as [k|]; [|by cbn in Hoff; subst off]. destruct (lookup_lt_is_Some_2 _ _ Hc) as [c Hk].
      destruct (code_back k c off Hk Hoff) as [Hr _]. by rewrite trunc_small by lia. }
  split; [|done].
  assert (E : map (fun e : Z * Z * Z => e.1.1) es = map (fun m => idx MethodItem (m_decl m)) l).
  { clear -He. induction He as [|m e l es [H _] _ IH]; [done|]. cbn. by rewrite IH, H. }
  rewrite E. split.
  - apply Forall_map. eapply Forall_impl; [exact H1|]. intros m [Hm%index_range _]. cbn. pose proof (entries_small MethodItem). split; [lia|done].
  - clear -H2. induction H2 as [|f l _ IH H]; [constructor|]. cbn [map]. constructor; [done|]. apply Forall_map. exact H.
Qed.

Lemma class_data_back c p : class_readable c -> written ir img n 1 no_members (class_data ir) c p ->
  0 <= p < 2 ^ 32 /\ exists dm vm, Forall2 method_moved (direct_methods c) dm /\ Forall2 method_moved (virtual_methods c) vm /\
    class_data_at nd r p = Some (map moved_field (static_fields c), map moved_field (instance_fields c), dm, vm).
Proof.
  intros (_ & _ & _ & _ & _ & _ & _ & Hsf & Hnf & Hdm & Hvm & Hcount) Hw. unfold written in Hw. destruct (no_members c) eqn:En.
  - subst p. split; [lia|]. unfold no_members in En. destruct (static_fields c), (instance_fields c), (direct_methods c), (virtual_methods c); try done.
    by exists [], [].
  - destruct Hw as (bs & (dm & vm & Hd1 & Hv1 & Hbs) & Hpl). specialize (Hbs Hcount).
    destruct (methods_back _ _ Hdm Hd1) as [Ad Md]. destruct (methods_back _ _ Hvm Hv1) as [Av Mv].
    inversion Hbs as [n1 n2 n3 n4 b1 b2 b3 b4 sf' nf' dm' vm' U1 U2 U3 U4 F1 F2 M1 M2]; subst sf' nf' dm' vm' bs.
    destruct (read_fields_back nd _ _ _ F1 ltac:(by left) (fields_ascend _ Hsf)) as [_ R1].
    destruct (read_fields_back nd _ _ _ F2 ltac:(by left) (fields_ascend _ Hnf)) as [_ R2].
    destruct (read_methods_back nd _ _ _ M1 ltac:(by left) Ad) as [_ R3]. destruct (read_methods_back nd _ _ _ M2 ltac:(by left) Av) as [_ R4].
    pose proof (uleb_nonempty _ _ U1) as N1.
    assert (Hr : 0 < p < 2 ^ 32) by (apply (placed_range _ _ _ Hpl); destruct n1; [cbn in N1; lia|discriminate]).
    split; [lia|]. exists dm, vm. split; [done|]. split; [done|].
    destruct (data_ptr 1 1 p _ Hpl) as [rest Hd']; [rewrite length_app; lia|].
    unfold class_data_at. rewrite (proj2 (Z.eqb_neq p 0)) by lia. rewrite Hd'. cbn [mbind option_bind]. rewrite <- !app_assoc.
    rewrite U1. cbn [mbind option_bind]. rewrite U2. cbn [mbind option_bind]. rewrite U3. cbn [mbind option_bind]. rewrite U4. cbn [mbind option_bind].
    rewrite R1 by (rewrite length_app; lia). cbn [mbind option_bind]. rewrite R2 by (rewrite length_app; lia). cbn [mbind option_bind].
    rewrite R3 by (rewrite length_app; lia). cbn [mbind option_bind]. rewrite R4 by (rewrite length_app; lia). cbn [mbind option_bind].
    by rewrite !map_map.
Qed.
Lemma class_data_back_ok c p : class_readable c -> written ir img n 1 no_members (class_data ir) c p -> class_data_ok nd r p = true.
Proof.
  intros Hc Hw. destruct (class_data_back c p Hc Hw) as (_ & dm & vm & Md & Mv & E). unfold class_data_ok. rewrite E. cbn [some_b].
  destruct Hc as (_ & _ & _ & _ & _ & _ & _ & [Hsf _] & [Hnf _] & [Hdm _] & [Hvm _] & _).
  assert (F : forall l, Forall (fun f => node_in FieldItem (f_decl f)) l -> forallb (fun f => in_table r FieldItem (f_decl f)) (map moved_field l) = true).
  { intros l Hl. rewrite forallb_forall. intros x (f & <- & Hf%list_elem_of_In)%in_map_iff. rewrite Forall_forall in Hl.
    apply (index_in_table FieldItem), Hl, Hf. }
  assert (M : forall l es, Forall (fun m => node_in MethodItem (m_decl m) /\ in_range (m_code m) (codes (data_ ir))) l -> Forall2 method_moved l es ->
    forallb (fun m : Z * Z * Z => in_table r MethodItem m.1.1 && code_ok nd r m.2) es = true).
  { intros l es Hl He. induction He as [|m e l es [E1 E2] _ IH]; [done|]. apply Forall_cons in Hl as [[H1 H2] Hl]. cbn [forallb].
    rewrite E1. cbn [fst]. rewrite (index_in_table MethodItem _ H1), (code_back_ok _ _ H2 E2), IH by done. done. }
  by rewrite (F _ Hsf), (F _ Hnf), (M _ _ Hdm Md), (M _ _ Hvm Mv).
Qed.

Lemma opt_index_in k x : opt_node_in k x -> opt_in r k (opt_index ir k x) = true.
Proof.
  unfold opt_in. destruct x as [x|]; cbn [opt_index opt_node_in]; [|done]. intros H. rewrite (index_in_table k x H). apply orb_true_r.
Qed.
Lemma opt_index_width k x : in_width (4%nat, opt_index ir k x).
Proof. destruct x; [apply in_word_u32|]. unfold in_width, kNoIndex. cbn. unfold kNoIndex. lia. Qed.

(** The definition of class [i]. *)
Lemma class_def_back i k : classes ir !! i = Some k -> exists p a dt v, let c := class_node (nodes ir) k in
  ClassDefs nd r (Z.of_nat i) = Some [idx TypeItem (c_type c); c_access_flags c; opt_index ir TypeItem (super_class c); p;
    opt_index ir StringItem (source_file c); a; dt; v] /\
  pointer n TypeListNode (interfaces c) p /\
  written_ref ir img n 4 (directory_item ir) (annotations_directories (data_ ir)) (c_annotations c) a /\
  written ir img n 1 no_members (class_data ir) c dt /\
  written_ref ir img n 1 (array_item nd ir) (encoded_arrays (data_ ir)) (static_init c) v.
Proof.
  intros Hi. destruct (ih_classes _ _ _ _ Hholds i k Hi) as (p & a & dt & v & Hat & Hp & Ha & Hdt & Hv). exists p, a, dt, v. cbv zeta.
  split; [|done]. pose proof (rd_classes R) as H. rewrite Forall_forall in H. pose proof (H k ltac:(by eapply list_elem_of_lookup_2)) as Hc.
  destruct (class_data_back _ _ Hc Hdt) as (Hdr & _). set (c := class_node (nodes ir) k) in *.
  destruct Hc as (Hty & Hfl & Hsu & Hif & Hsrc & Hsv & Han & _).
  assert (Hpr : 0 <= p < 2 ^ 32) by (destruct (type_list_back _ _ Hif Hp) as [[-> _]|[? _]]; lia).
  assert (Har : 0 <= a < 2 ^ 32).
  { destruct (c_annotations c) as [j|]; [|cbn in Ha; lia]. destruct (lookup_lt_is_Some_2 _ _ Han) as [x Hx].
    destruct (directory_back j x a Hx Ha) as [? _]. lia. }
  assert (Hvr : 0 <= v < 2 ^ 32).
  { pose proof (array_back _ _ Hsv Hv) as Hb. destruct (static_init c) as [j|]; [|lia]. destruct Hb as (_ & _ & ? & _). lia. }
  destruct header_classes as (H1 & H2 & _). pose proof classes_in_image as [H3 H4]. pose proof image_small. change sizeof_Header with 112 in *.
  pose proof (lookup_lt_Some _ _ _ Hi) as Hlt.
  change (Some [idx TypeItem (c_type c); c_access_flags c; opt_index ir TypeItem (super_class c); p;
    opt_index ir StringItem (source_file c); a; dt; v]) with
    (Some (map snd [(4%nat, idx TypeItem (c_type c)); (4%nat, c_access_flags c); (4%nat, opt_index ir TypeItem (super_class c)); (4%nat, p);
      (4%nat, opt_index ir StringItem (source_file c)); (4%nat, a); (4%nat, dt); (4%nat, v)])).
  eapply element_at; [exact H1|exact H2|lia|lia|lia|done| |cbn; lia|exact Hat].
  repeat apply Forall_cons_2; [apply in_word_u32|exact Hfl|apply opt_index_width|exact Hpr|apply opt_index_width|exact Har|exact Hdr|exact Hvr|apply Forall_nil_2].
Qed.
Lemma class_back_ok i k : classes ir !! i = Some k -> class_ok nd r (Z.of_nat i) = true.
Proof.
  intros Hi. destruct (class_def_back i k Hi) as (p & a & dt & v & E & Hp & Ha & Hdt & Hv). cbv zeta in *. unfold class_ok. rewrite E. cbn [some_b].
  pose proof (rd_classes R) as H. rewrite Forall_forall in H. pose proof (H k ltac:(by eapply list_elem_of_lookup_2)) as Hc. clear H.
  rewrite (class_data_back_ok _ _ Hc Hdt). set (c := class_node (nodes ir) k) in *.
  destruct Hc as (Hty & Hfl & Hsu & Hif & Hsrc & Hsv & Han & _).
  by rewrite (index_in_table TypeItem _ Hty), (opt_index_in _ _ Hsu), (type_list_back_ok _ _ Hif Hp), (opt_index_in _ _ Hsrc),
    (directory_back_ok _ _ Han Ha), (array_back_ok _ _ Hsv Hv).
Qed.

Lemma class_types_distinct : NoDup (map (class_type nd r) (seqZ 0 (Z.of_nat (length (classes ir))))).
Proof.
  assert (T : forall i k, classes ir !! i = Some k -> class_type nd r (Z.of_nat i) = idx TypeItem (c_type (class_node (nodes ir) k)) /\
    node_in TypeItem (c_type (class_node (nodes ir) k))).
  { intros i k Hi. destruct (class_def_back i k Hi) as (p & a & dt & v & E & _). unfold class_type. rewrite E. split; [done|].
    pose proof (rd_classes R) as H. rewrite Forall_forall in H. apply (H k). by eapply list_elem_of_lookup_2. }
  apply NoDup_alt. intros i j t. rewrite !list_lookup_fmap, !fmap_Some.
  intros (x & [-> Hx]%lookup_seqZ & ->) (y & [-> Hy]%lookup_seqZ & E). rewrite !Z.add_0_l in E.
  destruct (lookup_lt_is_Some_2 (classes ir) i) as [k Hk]; [lia|]. destruct (lookup_lt_is_Some_2 (classes ir) j) as [l Hl]; [lia|].
  destruct (T i k Hk) as [E1 N1], (T j l Hl) as [E2 N2]. rewrite E1, E2 in E. apply index_inj in E; [|done..].
  eapply (NoDup_lookup _ i j _ (rd_distinct R)); rewrite list_lookup_fmap; [by rewrite Hk|rewrite Hl; cbn; by rewrite E].
Qed.

(** ** The lookup tables' keys *)

Lemma string_chars_at i a : strings (tbl ir) !! i = Some a -> exists rest, chars_of nd r (Z.of_nat i) = c_str (nodes ir) a ++ rest.
Proof.
  intros Hi. destruct (ih_strings _ _ _ _ Hholds i a Hi) as (o & Ho & Hp).
  pose proof (rd_strings R) as Hs. rewrite Forall_forall in Hs. destruct (Hs a ltac:(by eapply list_elem_of_lookup_2)) as (l & m & cs & E & Hl & Hc).
  assert (Hlen : length (string_bytes ir a) = (length l + length cs + 1)%nat) by (rewrite E, !length_app; cbn; lia).
  assert (Hob : 0 < o < 2 ^ 32) by (apply (placed_range _ _ _ Hp); intros E'; rewrite E' in Hlen; cbn in Hlen; lia).
  destruct (data_ptr 1 1 o _ Hp ltac:(lia)) as [rest Hd']. exists rest.
  assert (Hid : StringIds nd r (Z.of_nat i) = Some [o]).
  { apply (table_element StringItem [4%nat] _ [(4%nat, o)]); try done.
    - unfold count. apply lookup_lt_Some in Hi. cbn [items_of]. lia.
    - constructor; [|done]. unfold in_width. cbn. lia. }
  unfold chars_of, string_chars, GetStringData. rewrite Hid. cbn [mbind option_bind]. rewrite Hd', E. cbn [mbind option_bind].
  rewrite <- !app_assoc, Hl. cbn [mbind option_bind from_option id]. unfold c_str. fold (string_bytes ir a). by rewrite E, Hl, <- app_assoc.
Qed.
Lemma strings_are_apart : strings_apart nd r = true.
Proof.
  unfold strings_apart. rewrite forallb_forall. intros x Hx%list_elem_of_In%elem_of_seqZ. rewrite forallb_forall. intros y Hy%list_elem_of_In%elem_of_seqZ.
  destruct (Z.eqb_spec x y) as [|N]; [done|]. cbn [orb].
  destruct (entry_node StringItem x) as (i & a & -> & Ha); [unfold in_table; lia|].
  destruct (entry_node StringItem y) as (j & b & -> & Hb); [unfold in_table; lia|]. cbn [items_of] in Ha, Hb.
  destruct (string_chars_at i a Ha) as [ra ->], (string_chars_at j b Hb) as [rb ->].
  pose proof (ok_strings _ Hok) as Hs. rewrite Forall_forall in Hs.
  destruct (string_units_ok _ _ (Hs a ltac:(by eapply list_elem_of_lookup_2))) as (ta & Ua & ->).
  destruct (string_units_ok _ _ (Hs b ltac:(by eapply list_elem_of_lookup_2))) as (tb & Ub & ->).
  unfold apart. rewrite <- !app_assoc, utf8cmp_mutf8 by done. apply negb_true_iff, Z.eqb_neq. rewrite lex_cmp_eq. intros E. apply N. f_equal.
  eapply (NoDup_lookup _ i j _ (ok_strings_nodup _ Hok)); rewrite list_lookup_fmap; [by rewrite Ha|rewrite Hb; cbn; by rewrite E].
Qed.

Lemma index_lookup k x : node_in k x -> exists i, items_of (tbl ir) k !! i = Some x /\ idx k x = Z.of_nat i.
Proof. intros [i H]%list_elem_of_lookup. exists i. split; [done|by apply index_position]. Qed.
Lemma type_ids_of t : node_in TypeItem t -> TypeIds nd r (idx TypeItem t) = Some [idx StringItem (descriptor (type_node (nodes ir) t))] /\
  node_in StringItem (descriptor (type_node (nodes ir) t)).
Proof.
  intros Ht. destruct (index_lookup _ _ Ht) as (i & Hi & ->). split; [by apply type_id_back|].
  pose proof (ok_types _ Hok) as H. rewrite Forall_forall in H. by apply H.
Qed.
Lemma type_text_back t : node_in TypeItem t -> type_text nd r (idx TypeItem t) = type_chars (nodes ir) t.
Proof.
  intros Ht. destruct (type_ids_of t Ht) as [E Hd']. destruct (index_lookup _ _ Hd') as (j & Hj & Ej).
  unfold type_text, type_chars, string_text, c_str. rewrite E, Ej, (string_item_at j _ Hj). done.
Qed.
Lemma signature_back i p : protos (tbl ir) !! i = Some p ->
  signature_of nd r (Z.of_nat i) = Signature (nodes ir) (data_ ir) (proto_node (nodes ir) p).
Proof.
  intros Hi. pose proof (list_elem_of_lookup_2 _ _ _ Hi) as Hin. destruct (proto_id_back i p Hi) as (o & E & Ho). cbv zeta in E.
  pose proof (ok_protos _ Hok) as H. rewrite Forall_forall in H. destruct (H p Hin) as (Hr & Hts). clear H.
  pose proof (rd_params R) as H. rewrite Forall_forall in H. destruct (H p Hin) as (_ & Hp). clear H.
  unfold signature_of, Signature. rewrite E, type_text_back by done. do 3 f_equal.
  assert (El : types_at nd r o = map (idx TypeItem) (types_in (data_ ir) (param_types (proto_node (nodes ir) p)))).
  { unfold types_at. destruct (type_list_back _ _ Hp Ho) as [[-> ->]|[Hpos ->]]; [done|]. by rewrite (proj2 (Z.eqb_neq o 0)) by lia. }
  rewrite El, map_map. clear -Himg Hfit Hcons Hchain Hids Hd Hholds R Hok Hord Hmapped Hts.
  induction Hts as [|t ts Ht _ IH]; [done|]. cbn [map]. by rewrite IH, type_text_back.
Qed.

(** The key of a method, and of those of the classes. *)
Definition node_key (m : Z) : MethodKey := let q := method_node (nodes ir) m in
  (idx StringItem (descriptor (type_node (nodes ir) (m_parent q))), idx StringItem (m_name q), idx ProtoItem (m_prototype q)).
Lemma key_back m : node_in MethodItem m -> key_of_method nd r (idx MethodItem m) = node_key m.
Proof.
  intros Hm. destruct (index_lookup _ _ Hm) as (i & Hi & ->). pose proof (method_id_back i m Hi) as E. cbv zeta in E.
  pose proof (ok_methods _ Hok) as H. rewrite Forall_forall in H. destruct (H m Hm) as (H1 & _).
  unfold key_of_method, descriptor_of. rewrite E. by rewrite (proj1 (type_ids_of _ H1)).
Qed.
Lemma node_key_inj a b : node_in MethodItem a -> node_in MethodItem b -> node_key a = node_key b -> a = b.
Proof.
  intros Ha Hb E. pose proof (ok_methods _ Hok) as H. rewrite Forall_forall in H.
  destruct (H a Ha) as (A1 & A2 & A3), (H b Hb) as (B1 & B2 & B3). clear H. unfold node_key in E. cbv zeta in *. injection E as E1 E2 E3.
  apply index_inj in E1; [|by apply type_ids_of..]. apply index_inj in E2; [|done..]. apply index_inj in E3; [|done..].
  assert (Ep : m_parent (method_node (nodes ir) a) = m_parent (method_node (nodes ir) b)).
  { apply list_elem_of_lookup in A1 as [i Hi], B1 as [j Hj]. assert (i = j) as ->; [|congruence].
    eapply (NoDup_lookup _ i j _ (ok_types_nodup _ Hok)); rewrite list_lookup_fmap; [by rewrite Hi|rewrite Hj; cbn; by rewrite E1]. }
  apply list_elem_of_lookup in Ha as [i Hi], Hb as [j Hj]. cbn [items_of] in Hi, Hj. assert (i = j) as ->; [|congruence].
  eapply (NoDup_lookup _ i j _ (ok_methods_nodup _ Hok)); rewrite list_lookup_fmap; [by rewrite Hi|rewrite Hj; cbn; by rewrite Ep, E2, E3].
Qed.
Lemma method_keys_back l es : methods_readable l -> Forall2 method_moved l es -> method_keys nd r es = map node_key (map m_decl l).
Proof.
  intros [H _] He. induction He as [|m e l es [E _] _ IH]; [done|]. apply Forall_cons in H as [[Hm _] H]. unfold method_keys in *. cbn [map].
  rewrite IH by done. rewrite E. cbn [fst]. by rewrite key_back.
Qed.
Lemma all_keys_back : all_keys nd r = map node_key encoded_decls.
Proof.
  unfold all_keys, encoded_decls. rewrite concat_map, map_map. unfold class_count. rewrite (proj1 header_classes). cbn [from_option id].
  f_equal. apply map_positions. intros i k Hi. destruct (class_def_back i k Hi) as (p & a & dt & v & E & _ & _ & Hdt & _). cbv zeta in *.
  pose proof (rd_classes R) as Hrc. rewrite Forall_forall in Hrc. pose proof (Hrc k ltac:(by eapply list_elem_of_lookup_2)) as Hc.
  destruct (class_data_back _ _ Hc Hdt) as (_ & dm & vm & Md & Mv & Ed). unfold class_keys. rewrite E, Ed, map_app.
  destruct Hc as (_ & _ & _ & _ & _ & _ & _ & _ & _ & Hdm & Hvm & _). by rewrite (method_keys_back _ _ Hdm Md), (method_keys_back _ _ Hvm Mv).
Qed.
Lemma decls_in : Forall (node_in MethodItem) encoded_decls.
Proof.
  unfold encoded_decls. apply Forall_concat, Forall_map. eapply Forall_impl; [apply (rd_classes R)|]. intros k Hc. cbv zeta.
  destruct Hc as (_ & _ & _ & _ & _ & _ & _ & _ & _ & [Hdm _] & [Hvm _] & _). apply Forall_app. split; apply Forall_map;
    (eapply Forall_impl; [eassumption|]); by intros m [? _].
Qed.
Lemma lookups_are_distinct : lookups_ok nd r = true.
Proof.
  unfold lookups_ok. rewrite all_keys_back, length_map, strings_are_apart. unfold count_of. rewrite !(proj1 (header_table _)). cbn [from_option id].
  pose proof (rd_string_count R). pose proof (rd_protos R). pose proof (rd_member_count R).
  rewrite (proj2 (Z.ltb_lt (count StringItem) _)), (proj2 (Z.ltb_lt (count ProtoItem) _)), (proj2 (Z.ltb_lt (Z.of_nat (length encoded_decls)) _)) by lia.
  cbn [andb]. apply andb_true_iff. rewrite !bool_decide_eq_true. split.
  - unfold count. cbn [items_of]. rewrite (map_positions _ _ _ signature_back). apply (rd_signatures R).
  - apply NoDup_fmap_2_strong; [|apply (rd_members R)]. intros a b Ha Hb. pose proof decls_in as Hin. rewrite Forall_forall in Hin. apply node_key_inj; by apply Hin.
Qed.

(** The image is well-formed. *)
Lemma written_well_formed : well_formed nd r = true.
Proof.
  unfold well_formed. rewrite tables_are_ok, lookups_are_distinct, orb_true_r, andb_true_r.
  assert (S : exists x, section nd r hd_class_defs 32 = Some x).
  { unfold section. destruct header_classes as (H1 & -> & _). pose proof classes_in_image as [H3 H4]. pose proof image_small. pose proof data_in_image.
    change sizeof_Header with 112 in *. cbn [mbind option_bind]. rewrite (section_count_small _ _ _ H1) by lia. cbn [mbind option_bind]. unfold ptr.
    rewrite SLICER_CHECK_true; [by eexists|]. apply Z.leb_le. cbn [size_ written_reader]. unfold off_of. destruct (Z.ltb_spec 0 (Z.of_nat (length (classes ir)))); lia. }
  destruct S as [x ->]. destruct header_classes as (-> & _). cbn [some_b andb].
  pose proof classes_in_image as [H3 H4]. pose proof image_small. change sizeof_Header with 112 in *.
  rewrite (proj2 (Z.leb_le 0 _)), (proj2 (Z.ltb_lt _ (2 ^ 31))) by lia. cbn [andb].
  rewrite (bool_decide_eq_true_2 _ class_types_distinct), andb_true_r. rewrite forallb_forall.
  intros j Hj%list_elem_of_In%elem_of_seqZ. destruct (lookup_lt_is_Some_2 (classes ir) (Z.to_nat j)) as [k Hk]; [lia|].
  rewrite <- (Z2Nat.id j) by lia. by eapply class_back_ok.
Qed.

(** ** The reader is made *)

Context (Hmap : placed ir 4 img (h_map_off (header_of im d))
  (u4_bytes (Z.of_nat (length (map_list_of im))) ++ concat (map map_item_bytes (map_list_of im)))).

Lemma sections_aligned : bytes_in (map (sec_block im) layout_order) mod 4 = 0.
Proof.
  assert (A : forall l, (forall s, s ∈ l -> Z.of_nat (length (bytes_ (sections im s))) mod 4 = 0) -> bytes_in (map (sec_block im) l) mod 4 = 0).
  { intros l. induction l as [|s l IH]; intros H; [done|]. cbn [map]. rewrite bytes_in_cons. cbn [sec_block snd].
    rewrite Z.add_mod, (H s ltac:(by left)), IH by (done || intros; apply H; by right). done. }
  apply A. exact (chained_lengths nd im layout_order size d Hchain).
Qed.
Lemma off_aligned m o : o mod 4 = 0 -> off_of m o mod 4 = 0.
Proof. intros H. unfold off_of. by destruct (0 <? m). Qed.
Lemma table_aligned k : table_at k mod 4 = 0.
Proof.
  unfold table_at, method_ids_at, field_ids_at, proto_ids_at, type_ids_at, string_ids_at. change sizeof_Header with 112.
  destruct k; apply Z.mod_divide; try lia; eexists.
  - instantiate (1 := 28). ring.
  - instantiate (1 := 28 + Z.of_nat (length (strings (tbl ir)))). ring.
  - instantiate (1 := 28 + Z.of_nat (length (strings (tbl ir))) + Z.of_nat (length (types (tbl ir))) + 3 * Z.of_nat (length (protos (tbl ir)))). ring.
  - instantiate (1 := 28 + Z.of_nat (length (strings (tbl ir))) + Z.of_nat (length (types (tbl ir))) + 3 * Z.of_nat (length (protos (tbl ir))) +
      2 * Z.of_nat (length (fields (tbl ir)))). ring.
  - instantiate (1 := 28 + Z.of_nat (length (strings (tbl ir))) + Z.of_nat (length (types (tbl ir)))). ring.
Qed.
Lemma classes_aligned : class_defs_at ir mod 4 = 0.
Proof.
  unfold class_defs_at. pose proof (table_aligned MethodItem) as H. cbn [table_at] in H. rewrite Z.add_mod, H by lia.
  rewrite Z.add_0_l, Z.mod_mod by lia. apply Z.mod_divide; [lia|]. exists (2 * Z.of_nat (length (methods (tbl ir)))). ring.
Qed.

Lemma map_entries_some : (1 <= length (map_list_of im))%nat.
Proof. rewrite (proj1 (map_sorted im)). cbn. lia. Qed.
Lemma word_at k v : header_words (header_of im d) !! k = Some v -> 0 <= v < 2 ^ 32 -> header r k = Some v.
Proof. intros H Hv. rewrite (header_at k v H). by rewrite trunc_small. Qed.

Lemma map_read : header r hd_map_off = Some (h_map_off (header_of im d)) /\ data_at ir <= h_map_off (header_of im d) < Z.of_nat (length img) /\
  h_map_off (header_of im d) mod 4 = 0 /\
  exists rest, DexMapList nd r = Some (Z.of_nat (length (map_list_of im)), rest) /\
    h_map_off (header_of im d) + (4 + 12 * Z.of_nat (length (map_list_of im))) <= Z.of_nat (length img).
Proof.
  pose proof Hmap as (Hat & Ho & Hal). pose proof image_small. pose proof (proj1 classes_in_image) as Hci. change sizeof_Header with 112 in Hci.
  set (o := h_map_off (header_of im d)) in *. assert (Hne : u4_bytes (Z.of_nat (length (map_list_of im))) ++ concat (map map_item_bytes (map_list_of im)) <> []) by discriminate.
  pose proof (at_img_length _ _ _ Hat Hne ltac:(unfold data_at in *; lia)) as Hend.
  assert (Hlen : length (u4_bytes (Z.of_nat (length (map_list_of im))) ++ concat (map map_item_bytes (map_list_of im))) = (4 + 12 * length (map_list_of im))%nat).
  { rewrite length_app, (length_encoded map_item_bytes 12) by done. done. }
  rewrite Hlen in Hend. assert (Hr : 0 <= o < 2 ^ 32) by (unfold data_at in *; lia).
  assert (Hh : header r hd_map_off = Some o) by (by apply word_at).
  split; [done|]. split; [lia|]. split; [done|]. unfold DexMapList. rewrite Hh. cbn [mbind option_bind].
  destruct (data_ptr 4 4 o _ Hmap) as [rest ->]; [lia|]. cbn [mbind option_bind]. eexists. split; [|lia].
  rewrite <- app_assoc. apply read_u4. lia.
Qed.

Lemma header_is_checked : header_checks nd r = Some true.
Proof.
  pose proof image_small as Hs. pose proof data_in_image as Hdi. pose proof (proj1 classes_in_image) as Hci. change sizeof_Header with 112 in Hci.
  pose proof (io_length _ _ _ _ _ _ _ Himg) as Hl.
  destruct map_read as (Wm & Hmo & Hma & rest & Em & Hme). pose proof map_entries_some as Hm1.
  destruct header_classes as (Wc & Wco & Wd).
  pose proof (data_starts ir im d Hids Hd) as Eda.
  assert (Hda : data_at ir mod 4 = 0) by (rewrite <- Eda; by apply (data_aligned ir im d Hids Hd)).
  assert (W0 : header r hd_file_size = Some (Z.of_nat (length img))) by (apply word_at; [cbn; by rewrite Hl|lia]).
  assert (W1 : header r hd_header_size = Some 112) by (by apply word_at).
  assert (W2 : header r hd_endian_tag = Some kEndianConstant) by (by apply word_at).
  assert (W3 : header r hd_link_size = Some 0 /\ header r hd_link_off = Some 0) by (split; by apply word_at).
  assert (Eds : image_length im - d = bytes_in (map (sec_block im) layout_order)).
  { rewrite Hd. unfold image_length, data_blocks. rewrite bytes_in_app. lia. }
  assert (W4 : header r hd_data_size = Some (bytes_in (map (sec_block im) layout_order))).
  { pose proof (bytes_in_nonneg (map (sec_block im) layout_order)). unfold data_at in Hdi.
    apply word_at; [|unfold data_at in Eda; lia]. cbn [header_words header_of hd_data_size lookup list_lookup h_data_size].
    rewrite Eds, trunc_small; [done|]. unfold data_at in Eda. lia. }
  destruct (header_table StringItem) as [_ S2], (header_table TypeItem) as [T1 T2], (header_table ProtoItem) as [P1 P2],
    (header_table FieldItem) as [_ F2], (header_table MethodItem) as [_ M2]. cbn [header_of_kind] in *.
  unfold header_checks. cbv zeta. rewrite W0, W1, W2, W4, Wd, S2, T1, T2, P1, P2, F2, M2, Wco, Wm, (proj1 W3), (proj2 W3), Em.
  cbn [mbind option_bind is_compact_ written_reader size_ data_size_ orb]. f_equal. rewrite !andb_true_iff, !Z.ltb_lt, !Z.leb_le, !Z.eqb_eq.
  change sizeof_Header with 112. pose proof (rd_types R). pose proof (rd_protos R). pose proof sections_aligned.
  split_and!; try done; try (by apply off_aligned, table_aligned); try (by apply off_aligned, classes_aligned); try lia.
  all: unfold data_at in *; lia.
Qed.

Lemma reader_made : length (magic ir) = 8%nat -> take 4 (magic ir) <> [0x63; 0x64; 0x65; 0x78] ->
  exists s0, newReader nd img 0 None 0 = Some (r, s0) /\ inv nd r s0 /\ classes (ir_ s0) = [] /\ defs_ok nd r s0 /\
    forall node_hash, keys_in nd node_hash [] s0.
Proof.
  intros Hml Hmg. assert (W0 : header r hd_file_size = Some (Z.of_nat (length img))).
  { pose proof (io_length _ _ _ _ _ _ _ Himg) as Hl. apply word_at; [cbn; by rewrite Hl|pose proof image_small; lia]. }
  assert (Ht : take 4 img = take 4 (magic ir)).
  { destruct (at_img_drop _ _ _ (io_magic _ _ _ _ _ _ _ Himg)) as [rest E]. change (Z.to_nat 0) with 0%nat in E. rewrite drop_0 in E.
    rewrite E, take_app_le by lia. done. }
  eexists. split; [|split; [apply inv_empty|split; [done|split; [apply defs_empty|intros; apply keys_empty]]]]. unfold newReader. cbn [Z.eqb]. unfold header in W0. cbn [image_ written_reader] in W0.
  rewrite W0. cbn [fmap option_fmap option_map mbind option_bind]. unfold IsCompact. rewrite Ht, bool_decide_false by done.
  cbn [default from_option id].
  fold r. assert (V : ValidateHeader nd r = Some tt) by (unfold ValidateHeader; rewrite header_is_checked; unfold SLICER_CHECK; by case nd).
  change {| image_ := img; size_ := Z.of_nat (length img); data_area := img; data_size_ := Z.of_nat (length img);
    is_compact_ := false |} with r. rewrite V. reflexivity.
Qed.

(** ** The file that is read *)

Section Read.
Context (s : reading) (I : inv nd r s).
Local Abbreviation ir' := (ir_ s).

(** Nodes that may be missing, in both files or in neither. *)
Definition both {A} (P : A -> A -> Prop) (i i' : option A) : Prop :=
  match i, i' with Some i, Some i' => P i i' | None, None => True | _, _ => False end.
Definition annotation_same (i i' : nat) : Prop := exists a, annotations (data_ ir) !! i = Some a /\
  annotations (data_ ir') !! i' = Some (renumbered_annotation a).
Definition set_same (i i' : nat) : Prop := exists l l', annotation_sets (data_ ir) !! i = Some l /\
  annotation_sets (data_ ir') !! i' = Some l' /\ Forall2 annotation_same l l'.
Definition ref_list_same (i i' : nat) : Prop := exists l l', annotation_set_ref_lists (data_ ir) !! i = Some l /\
  annotation_set_ref_lists (data_ ir') !! i' = Some l' /\ Forall2 set_same l l'.
Definition pair_same (k : item) (P : nat -> nat -> Prop) (e e' : Z * nat) : Prop := e'.1 = idx k e.1 /\ P e.2 e'.2.
Definition directory_same (i i' : nat) : Prop := exists a a', annotations_directories (data_ ir) !! i = Some a /\
  annotations_directories (data_ ir') !! i' = Some a' /\ both set_same (class_annotation a) (class_annotation a') /\
  Forall2 (pair_same FieldItem set_same) (field_annotations a) (field_annotations a') /\
  Forall2 (pair_same MethodItem set_same) (method_annotations a) (method_annotations a') /\
  Forall2 (pair_same MethodItem ref_list_same) (param_annotations a) (param_annotations a').
Definition array_same (i i' : nat) : Prop := exists vs, encoded_arrays (data_ ir) !! i = Some vs /\
  encoded_arrays (data_ ir') !! i' = Some (map (renumber idx) vs).
Definition debug_same (i i' : nat) : Prop := exists x x' ops, debug_infos (data_ ir) !! i = Some x /\ debug_infos (data_ ir') !! i' = Some x' /\
  line_start x' = line_start x /\ param_names x' = map (opt_renamed (indexes ir) StringItem) (param_names x) /\
  stream_of (data x) ops /\ stream_of (data x') (map (op_renamed (indexes ir)) ops).
Definition code_same (i i' : nat) : Prop := exists c c', codes (data_ ir) !! i = Some c /\ codes (data_ ir') !! i' = Some c' /\
  code_moved c c' /\ both debug_same (code_debug_info c) (code_debug_info c').
Definition types_same (i i' : option nat) : Prop := types_in (data_ ir') i' = map (idx TypeItem) (types_in (data_ ir) i).
Definition method_same (m m' : EncodedMethod) : Prop := m_decl m' = idx MethodItem (m_decl m) /\
  m_access_flags m' = u32 (m_access_flags m) /\ both code_same (m_code m) (m_code m').
Record class_same (c c' : Class_) : Prop := {
  cs_type : c_type c' = idx TypeItem (c_type c); cs_flags : c_access_flags c' = c_access_flags c;
  cs_super : super_class c' = idx TypeItem <$> super_class c; cs_source : source_file c' = idx StringItem <$> source_file c;
  cs_interfaces : types_same (interfaces c) (interfaces c');
  cs_static : static_fields c' = map moved_field (static_fields c); cs_instance : instance_fields c' = map moved_field (instance_fields c);
  cs_direct : Forall2 method_same (direct_methods c) (direct_methods c');
  cs_virtual : Forall2 method_same (virtual_methods c) (virtual_methods c');
  cs_init : both array_same (static_init c) (static_init c');
  cs_annotations : both directory_same (c_annotations c) (c_annotations c') }.

(** The nodes at an entry's index. *)
Definition item_same (k : item) (i : nat) (x : Z) : Prop :=
  let j := Z.of_nat i in
  match k with
  | StringItem => string_nodes (nodes ir') !! j = Some (string_bytes ir x)
  | TypeItem => exists c, type_nodes (nodes ir') !! j = Some {| descriptor := idx StringItem (descriptor (type_node (nodes ir) x)); class_def := c |}
  | ProtoItem => let q := proto_node (nodes ir) x in exists l,
      proto_nodes (nodes ir') !! j = Some {| shorty := idx StringItem (shorty q); return_type := idx TypeItem (return_type q); param_types := l |} /\
      types_same (param_types q) l
  | FieldItem => let q := field_node (nodes ir) x in field_nodes (nodes ir') !! j =
      Some {| f_name := idx StringItem (f_name q); f_type := idx TypeItem (f_type q); f_parent := idx TypeItem (f_parent q) |}
  | MethodItem => let q := method_node (nodes ir) x in method_nodes (nodes ir') !! j =
      Some {| m_name := idx StringItem (m_name q); m_prototype := idx ProtoItem (m_prototype q); m_parent := idx TypeItem (m_parent q) |}
  end.

Lemma node_at_some k o i' : node_at k o i' s -> o <> 0 -> exists i, i' = Some i /\ node_read nd r k o i s.
Proof. destruct i' as [i|]; [|done]. intros [_ H] _. exists i. split; [done|]. by apply (iv_nodes _ _ _ I). Qed.
Lemma node_at_none k i' : node_at k 0 i' s -> i' = None.
Proof. destruct i' as [i|]; [|done]. by intros [H _]. Qed.

Lemma types_are_same i p i' : in_range i (type_lists (data_ ir)) -> pointer n TypeListNode i p -> node_at TypeListNode p i' s ->
  types_same i i'.
Proof.
  intros Hi Hp Hn. unfold types_same. destruct (type_list_back i p Hi Hp) as [[-> ->]|[Hr E]].
  - apply node_at_none in Hn as ->. done.
  - destruct (node_at_some _ _ _ Hn ltac:(lia)) as (i0 & -> & ts & E' & Hts & _). rewrite E in E'. injection E' as <-.
    unfold types_in at 1. cbn [vectors] in Hts. unfold vectors in Hts. by rewrite Hts.
Qed.

Lemma item_is_same k i x : items_of (tbl ir) k !! i = Some x -> has k (Z.of_nat i) s -> item_same k i x.
Proof.
  intros Hx Hh. pose proof (iv_items _ _ _ I _ _ Hh) as Hr. destruct k; cbn [item_read item_same items_of] in *.
  - destruct Hr as (v & E & Hv). rewrite (string_item_at i x Hx) in E. injection E as <-. exact Hv.
  - destruct Hr as (d0 & c & E & Hv & _). rewrite (type_id_back i x Hx) in E. injection E as <-. by exists c.
  - destruct Hr as (c & t & m & E & Hv & _). rewrite (field_id_back i x Hx) in E. by injection E as <- <- <-.
  - destruct Hr as (c & t & m & E & Hv & _). rewrite (method_id_back i x Hx) in E. by injection E as <- <- <-.
  - destruct Hr as (a & t & o & l & E & Hv & _ & _ & Hn). destruct (proto_id_back i x Hx) as (o' & E' & Hp). cbv zeta in *. rewrite E in E'. injection E' as -> -> ->.
    exists l. split; [done|]. pose proof (rd_params R) as H. rewrite Forall_forall in H.
    destruct (H x ltac:(by eapply list_elem_of_lookup_2)) as [_ Hin]. by eapply types_are_same.
Qed.

Lemma annotation_is_same i p i' : plain_annotation i -> pointer n AnnotationNode (Some i) p -> seen_ s AnnotationNode !! p = Some i' ->
  annotation_same i i'.
Proof.
  intros (a & Ha & Hv) Hp Hs. destruct (annotation_back i a p Ha Hv Hp) as [_ E].
  destruct (iv_nodes _ _ _ I _ _ _ Hs) as (a' & E' & Ha' & _). rewrite E in E'. injection E' as <-. by exists a.
Qed.
Lemma set_is_same i p i' : (i < length (annotation_sets (data_ ir)))%nat -> pointer n AnnotationSetNode (Some i) p ->
  node_at AnnotationSetNode p (Some i') s -> set_same i i'.
Proof.
  intros [l Hl]%lookup_lt_is_Some_2 Hp Hn. destruct (set_back i l p Hl Hp) as (Hr & _ & ps & E & Hps).
  destruct (node_at_some _ _ _ Hn ltac:(lia)) as (? & [= <-] & ps' & l' & E' & Hl' & Hs). rewrite E in E'. injection E' as <-.
  exists l, l'. split; [done|]. split; [done|]. pose proof (rd_sets R) as H. rewrite Forall_forall in H. specialize (H l ltac:(by eapply list_elem_of_lookup_2)).
  clear -Himg Hfit Hcons Hchain Hids Hd Hholds R Hok Hord Hmapped I H Hps Hs. revert l' Hs. induction Hps as [|j q l ps Hq _ IH]; intros l' Hs;
    [by apply Forall2_nil_inv_l in Hs as ->|].
  apply Forall2_cons_inv_l in Hs as (j' & l'' & Hj & Hs & ->). apply Forall_cons in H as [Hp H].
  constructor; [by eapply annotation_is_same|by apply IH].
Qed.
Lemma opt_set_is_same i p i' : in_range i (annotation_sets (data_ ir)) -> pointer n AnnotationSetNode i p -> node_at AnnotationSetNode p i' s ->
  both set_same i i'.
Proof.
  destruct i as [i|]; intros Hi Hp Hn; [|cbn in Hp; subst p; by apply node_at_none in Hn as ->].
  destruct (lookup_lt_is_Some_2 _ _ Hi) as [l Hl]. destruct (set_back i l p Hl Hp) as (Hr & _).
  destruct (node_at_some _ _ _ Hn ltac:(lia)) as (i0 & -> & _). by eapply set_is_same.
Qed.
Lemma ref_list_is_same i p i' : (i < length (annotation_set_ref_lists (data_ ir)))%nat -> pointer n AnnotationSetRefListNode (Some i) p ->
  ref_list_read nd r p i' s -> ref_list_same i i'.
Proof.
  intros [l Hl]%lookup_lt_is_Some_2 Hp (ps' & l' & E' & Hl' & Hs). destruct (ref_list_back i l p Hl Hp) as (Hr & _ & ps & E & Hps).
  rewrite E in E'. injection E' as <-. exists l, l'. split; [done|]. split; [done|].
  pose proof (rd_set_ref_lists R) as H. rewrite Forall_forall in H. specialize (H l ltac:(by eapply list_elem_of_lookup_2)).
  clear -Himg Hfit Hcons Hchain Hids Hd Hholds R Hok Hord Hmapped I H Hps Hs. revert l' Hs. induction Hps as [|j q l ps Hq _ IH]; intros l' Hs;
    [by apply Forall2_nil_inv_l in Hs as ->|].
  apply Forall_cons in H as [Hj H]. destruct (lookup_lt_is_Some_2 _ _ Hj) as [x Hx]. destruct (set_back j x q Hx Hq) as (Hr & _).
  rewrite filter_cons_True in Hs by lia. apply Forall2_cons_inv_l in Hs as (j' & l'' & Hj' & Hs & ->).
  constructor; [by eapply set_is_same|by apply IH].
Qed.

Lemma pairs_are_same k (P : Z * nat -> Prop) (Q : Z * nat -> Z -> Prop) sub same l qs l' : Forall P l -> Forall2 Q l qs ->
  Forall2 (fun e a => pair_read k sub e a s) (map pair_of (pair_values k l qs)) l' ->
  (forall e q i', P e -> Q e q -> sub q i' s -> same e.2 i') -> Forall2 (pair_same k same) l l'.
Proof.
  intros Hl Hq Hs Hsame. revert l' Hs. induction Hq as [|e q l qs He _ IH]; intros l' Hs; [by apply Forall2_nil_inv_l in Hs as ->|].
  apply Forall_cons in Hl as [Hp Hl]. unfold pair_values in Hs. cbn [zip_with map] in Hs.
  apply Forall2_cons_inv_l in Hs as (a & l'' & (H1 & _ & H2) & Hs & ->). constructor; [|by apply IH].
  split; [exact H1|]. by eapply Hsame.
Qed.
Lemma directory_is_same i p i' : in_range i (annotations_directories (data_ ir)) ->
  written_ref ir img n 4 (directory_item ir) (annotations_directories (data_ ir)) i p -> node_at AnnotationsDirectoryNode p i' s ->
  both directory_same i i'.
Proof.
  destruct i as [i|]; intros Hi Hw Hn; [|cbn in Hw; subst p; by apply node_at_none in Hn as ->].
  destruct (lookup_lt_is_Some_2 _ _ Hi) as [a Ha]. destruct (directory_back i a p Ha Hw) as (Hr & _ & c & fs & ms & ps & E & Hc & Hf & Hm & Hp).
  destruct (node_at_some _ _ _ Hn ltac:(lia)) as (i0 & -> & c' & fs' & ms' & ps' & ic & ifs & ims & ips & E' & Hl & Hnc & Hnf & Hnm & Hnp).
  rewrite E in E'. injection E' as <- <- <- <-.
  pose proof (rd_directories R) as H. rewrite Forall_forall in H. destruct (H a ltac:(by eapply list_elem_of_lookup_2)) as (D1 & D2 & D3 & D4).
  exists a. eexists. split; [done|]. split; [exact Hl|]. cbn [class_annotation field_annotations method_annotations param_annotations].
  split; [by eapply opt_set_is_same|]. split_and!.
  - eapply pairs_are_same; [exact D2|exact Hf|exact Hnf|]. intros e q k [_ H1] H2 H3. by eapply set_is_same.
  - eapply pairs_are_same; [exact D3|exact Hm|exact Hnm|]. intros e q k [_ H1] H2 H3. by eapply set_is_same.
  - eapply pairs_are_same; [exact D4|exact Hp|exact Hnp|]. intros e q k [_ H1] H2 H3. by eapply ref_list_is_same.
Qed.

Lemma array_is_same i p i' : in_range i (encoded_arrays (data_ ir)) ->
  written_ref ir img n 1 (array_item nd ir) (encoded_arrays (data_ ir)) i p -> node_at EncodedArrayNode p i' s -> both array_same i i'.
Proof.
  intros Hi Hw Hn. pose proof (array_back i p Hi Hw) as Hb. destruct i as [i|]; [|subst p; by apply node_at_none in Hn as ->].
  destruct Hb as (vs & Hvs & Hr & E). destruct (node_at_some _ _ _ Hn ltac:(lia)) as (i0 & -> & vs' & E' & Hl & _).
  rewrite E in E'. injection E' as <-. by exists vs.
Qed.
Lemma debug_is_same i p i' : in_range i (debug_infos (data_ ir)) -> pointer n DebugInfoNode i p -> debug_read nd r p i' s -> both debug_same i i'.
Proof.
  destruct i as [i|]; intros Hi Hp Hn.
  - destruct (lookup_lt_is_Some_2 _ _ Hi) as [x Hx]. destruct (debug_back i x p Hx Hp) as (Hr & ops & st & H1 & H2 & _ & E).
    destruct i' as [i'|]; [|cbn in Hn; lia]. destruct Hn as (_ & x' & refs & E' & Hl & _). rewrite E in E'. injection E' as <- <-.
    exists x. eexists. exists ops. split; [done|]. split; [exact Hl|]. done.
  - cbn in Hp. subst p. destruct i' as [i'|]; [|done]. by destruct Hn.
Qed.
Lemma code_is_same i p i' : in_range i (codes (data_ ir)) -> pointer n CodeNode i p -> code_read nd r p i' s -> both code_same i i'.
Proof.
  destruct i as [i|]; intros Hi Hp Hn.
  - destruct (lookup_lt_is_Some_2 _ _ Hi) as [c Hc]. destruct (code_back i c p Hc Hp) as (Hr & c' & dbg & refs & E & _ & Hdbg & Hm).
    destruct i' as [i'|]; [|cbn in Hn; lia]. destruct Hn as (_ & x' & dbg' & refs' & di & E' & Hl & _ & Hdi). rewrite E in E'. injection E' as <- <- <-.
    pose proof (rd_codes R) as H. rewrite Forall_forall in H.
    destruct (H c ltac:(by eapply list_elem_of_lookup_2)) as (_ & _ & _ & _ & _ & _ & _ & _ & Hdr & _).
    exists c. eexists. split; [done|]. split; [exact Hl|]. split; [by destruct Hm|]. by eapply debug_is_same.
  - cbn in Hp. subst p. destruct i' as [i'|]; [|done]. by destruct Hn.
Qed.

Lemma methods_are_same l es l' : methods_readable l -> Forall2 method_moved l es -> Forall2 (fun e m' => method_member nd r e m' s) es l' ->
  Forall2 method_same l l'.
Proof.
  intros [H _] He Hl. revert l' Hl. induction He as [|m e l es [E1 E2] _ IH]; intros l' Hl; [by apply Forall2_nil_inv_l in Hl as ->|].
  apply Forall_cons in H as [[_ Hc] H]. apply Forall2_cons_inv_l in Hl as (m' & l'' & (H1 & H2 & _ & H3) & Hl & ->).
  constructor; [|by apply IH]. rewrite E1 in H1, H2. split; [exact H1|]. split; [exact H2|]. by eapply code_is_same.
Qed.
Lemma opt_idx_index k x : opt_node_in k x -> opt_idx (opt_index ir k x) = idx k <$> x.
Proof.
  unfold opt_idx. destruct x as [x|]; cbn [opt_index opt_node_in]; [|done]. intros [_ H]%index_range. pose proof (entries_small k).
  rewrite (proj2 (Z.eqb_neq _ kNoIndex)); [done|]. unfold kNoIndex. lia.
Qed.
Lemma class_is_same i k : classes ir !! i = Some k -> is_Some (class_index ir' !! Z.of_nat i) ->
  exists c', class_nodes (nodes ir') !! Z.of_nat i = Some c' /\ class_same (class_node (nodes ir) k) c'.
Proof.
  intros Hi Hc. destruct (iv_class _ _ _ I _ Hc) as (c' & Hc' & fl & su & ifs & src & an & cd & sv & sf & nf & dm & vm & E & Ed & E1 & E2 & E3 & _ & _ & _ & N1 & N2 & N3 & E4 & E5 & _ & M1 & M2).
  exists c'. split; [done|]. destruct (class_def_back i k Hi) as (p & a & dt & v & E' & Hp & Ha & Hdt & Hv). cbv zeta in *.
  pose proof (rd_classes R) as H. rewrite Forall_forall in H. pose proof (H k ltac:(by eapply list_elem_of_lookup_2)) as Hr. clear H.
  set (c := class_node (nodes ir) k) in *. rewrite E in E'. injection E' as F1 F2 F3 F4 F5 F6 F7 F8. subst fl su ifs src an cd sv.
  destruct (class_data_back c dt Hr Hdt) as (_ & dm' & vm' & Md & Mv & E'). rewrite Ed in E'. injection E' as -> -> -> ->.
  destruct Hr as (Hty & Hfl & Hsu & Hif & Hsrc & Hsv & Han & Hsf & Hnf & Hdm & Hvm & _).
  split; [done|done|by rewrite E2, (opt_idx_index TypeItem)|by rewrite E3, (opt_idx_index StringItem)|by eapply types_are_same|done|done| | | |].
  - by eapply methods_are_same.
  - by eapply methods_are_same.
  - by eapply array_is_same.
  - by eapply directory_is_same.
Qed.

(** [ir'] is [ir] with its indexes for names: every class, and the entries of the
    tables that are read. *)
Record same_file : Prop := {
  sf_classes : classes ir' = seqZ 0 (Z.of_nat (length (classes ir)));
  sf_class : forall i k, classes ir !! i = Some k ->
    exists c', class_nodes (nodes ir') !! Z.of_nat i = Some c' /\ class_same (class_node (nodes ir) k) c';
  sf_item : forall k i x, items_of (tbl ir) k !! i = Some x -> Z.of_nat i ∈ items_of (tbl ir') k -> item_same k i x;
  sf_inside : forall k j, j ∈ items_of (tbl ir') k -> 0 <= j < count k }.
End Read.

(** The reader makes the file again. *)
Lemma read_back node_hash : length (magic ir) = 8%nat -> take 4 (magic ir) <> [0x63; 0x64; 0x65; 0x78] ->
  exists s0 s, newReader nd img 0 None 0 = Some (r, s0) /\ CreateFullIr nd r node_hash s0 = Some (tt, s) /\ inv nd r s /\ same_file s.
Proof.
  intros Hml Hmg. destruct (reader_made Hml Hmg) as (s0 & Hr & I0 & C0 & D0 & K0).
  destruct (CreateFullIr_runs nd r node_hash s0 written_well_formed I0 C0 D0 (K0 node_hash)) as ([] & s & Hs & I & _ & _ & Hc).
  exists s0, s. split; [done|]. split; [done|]. split; [done|].
  assert (Ecc : class_count r = Z.of_nat (length (classes ir))) by (unfold class_count; by rewrite (proj1 header_classes)).
  rewrite Ecc in Hc. split; [done| | |].
  - intros i k Hi. apply (class_is_same s I i k Hi). apply (iv_classes _ _ _ I). rewrite Hc, elem_of_seqZ. apply lookup_lt_Some in Hi. lia.
  - intros k i x Hx Hin%(iv_table _ _ _ I). by apply (item_is_same s I).
  - intros k j Hin%(iv_table _ _ _ I)%(iv_in _ _ _ I). unfold in_table, count_of in Hin. rewrite (proj1 (header_table k)) in Hin. cbn in Hin. lia.
Qed.
End Items.
End ReadBack.

(** ** Files that are read back, by computation *)

Section Check.
Context (ir : DexFile).

Definition node_b (k : item) (x : Z) : bool := bool_decide (x ∈ items_of (tbl ir) k).
Definition opt_node_b (k : item) (x : option Z) : bool := match x with Some x => node_b k x | None => true end.
Definition range_b {A} (i : option nat) (l : list A) : bool := match i with Some i => (i <? length l)%nat | None => true end.
Definition string_data_b (bs : list byte) : bool :=
  match bs with
  | b :: t => (0 <=? b) && (b <? 128) &&
      (let cs := take (length t - 1) t in bool_decide (t = cs ++ [0]) && forallb (fun c => negb (c =? 0)) cs)
  | [] => false
  end.
Definition slot_b (s : slot) : bool := negb (slot_index s =? kNoIndex) && node_b (slot_item s) (slot_index s) &&
  match map_of (indexes ir) (slot_item s) !! slot_index s with Some n => (0 <=? n) && (n <? slot_limit s) | None => false end.
Definition code_b (c : Code) : bool :=
  match split_insns (length (instructions c)) (instructions c) with
  | Some chunks => bool_decide (chunks <> []) && bool_decide (instructions c = concat chunks) && forallb insn_b chunks &&
      forallb slot_b (stream_slots chunks) && forallb (word_b 16) [registers c; ins_count c; outs_count c] &&
      bool_decide (length (try_blocks c) = 0%nat) && range_b (code_debug_info c) (debug_infos (data_ ir))
  | None => false
  end.
(** Opcodes without operands only. *)
Definition debug_b (i : DebugInfo) : bool :=
  let ops := take (length (data i) - 1) (data i) in
  word_b 28 (line_start i) && bool_decide (param_names i = []) && bool_decide (data i = ops ++ [DBG_END_SEQUENCE]) && forallb is_plain ops.
Fixpoint ascends_b (l : list Z) : bool := match l with [] => true | a :: l => forallb (fun b => a <? b) l && ascends_b l end.
Definition fields_b (l : list EncodedField) : bool :=
  forallb (fun f => node_b FieldItem (f_decl f)) l && ascends_b (map (fun f => index ir FieldItem (f_decl f)) l).
Definition methods_b (l : list EncodedMethod) : bool :=
  forallb (fun m => node_b MethodItem (m_decl m) && range_b (m_code m) (codes (data_ ir))) l &&
  ascends_b (map (fun m => index ir MethodItem (m_decl m)) l).
Definition class_b (c : Class_) : bool :=
  node_b TypeItem (c_type c) && word_b 32 (c_access_flags c) && opt_node_b TypeItem (super_class c) &&
  range_b (interfaces c) (type_lists (data_ ir)) && opt_node_b StringItem (source_file c) &&
  bool_decide (static_init c = None) && bool_decide (c_annotations c = None) &&
  fields_b (static_fields c) && fields_b (instance_fields c) && methods_b (direct_methods c) && methods_b (virtual_methods c) &&
  (Z.of_nat (length (static_fields c) + length (instance_fields c) + length (direct_methods c) + length (virtual_methods c)) <? 2 ^ 32).
(** A file without annotations, arrays and handlers. *)
Definition readable_b : bool :=
  (count ir TypeItem <? 65536) && (count ir ProtoItem <? 65536) && (count ir StringItem <? 2 ^ 28) &&
  bool_decide (NoDup (map (fun p => Signature (nodes ir) (data_ ir) (proto_node (nodes ir) p)) (protos (tbl ir)))) &&
  bool_decide (NoDup (encoded_decls ir)) && (Z.of_nat (length (encoded_decls ir)) <? 2 ^ 28) &&
  forallb (fun a => string_data_b (string_bytes ir a)) (strings (tbl ir)) &&
  forallb (fun p => node_b StringItem (shorty (proto_node (nodes ir) p)) &&
    range_b (param_types (proto_node (nodes ir) p)) (type_lists (data_ ir))) (protos (tbl ir)) &&
  forallb (forallb (node_b TypeItem)) (type_lists (data_ ir)) &&
  (length (encoded_arrays (data_ ir)) + length (annotations (data_ ir)) + length (annotation_sets (data_ ir)) +
   length (annotation_set_ref_lists (data_ ir)) + length (annotations_directories (data_ ir)) =? 0)%nat &&
  forallb debug_b (debug_infos (data_ ir)) &&
  forallb code_b (codes (data_ ir)) && forallb (fun c => class_b (class_node (nodes ir) c)) (classes ir) &&
  bool_decide (NoDup (map (fun c => c_type (class_node (nodes ir) c)) (classes ir))).

Lemma range_b_ok {A} i (l : list A) : range_b i l = true -> in_range i l.
Proof. destruct i; cbn; [by intros ?%Nat.ltb_lt|done]. Qed.
Lemma node_b_ok k x : node_b k x = true -> node_in ir k x.
Proof. apply bool_decide_eq_true_1. Qed.
Lemma opt_node_b_ok k x : opt_node_b k x = true -> opt_node_in ir k x.
Proof. destruct x; [apply node_b_ok|done]. Qed.
Lemma one_byte_uleb b : 0 <= b < 128 -> uleb_of [b] b.
Proof. intros H rest. by apply (proj1 (ReadULeb128_short rest)). Qed.
Lemma string_data_b_ok bs : string_data_b bs = true -> string_data bs.
Proof.
  destruct bs as [|b t]; [done|]. unfold string_data_b. rewrite !andb_true_iff, bool_decide_eq_true. intros [[H1 H2] [E H3]].
  set (cs := take (length t - 1) t) in *. exists [b], b, cs. split; [by rewrite E|]. split; [apply one_byte_uleb; lia|].
  eapply forallb_Forall; [|exact H3]. intros c Hc. cbn in Hc. lia.
Qed.
Lemma slot_b_ok s : slot_b s = true -> DexCodeSpec.fits (indexes ir) s /\ ref_in ir (slot_ref s).
Proof.
  unfold slot_b. rewrite !andb_true_iff. intros [[H1 H2] H3]. split; [|by apply node_b_ok].
  split; [lia|]. destruct (map_of _ _ !! _) as [m|]; [|done]. exists m. split; [done|]. lia.
Qed.
Lemma code_b_ok c : code_b c = true -> code_readable ir c.
Proof.
  unfold code_b. destruct (split_insns _ _) as [chunks|]; [|done]. rewrite !andb_true_iff, !bool_decide_eq_true.
  intros [[[[[[H1 H2] H3] H4] H5] H6] H7]. apply nil_length_inv in H6. exists chunks. split_and!; try done.
  - eapply forallb_Forall; [|exact H3]. apply insn_b_ok.
  - eapply forallb_Forall; [|exact H4]. intros s Hs. by apply slot_b_ok.
  - apply Forall_map. eapply forallb_Forall; [|exact H4]. intros s Hs. by apply slot_b_ok.
  - rewrite H6. apply (forallb_Forall (word_b 16)); [apply word_b_ok|]. cbn in *. rewrite !andb_true_iff in *. by destruct H5 as (? & ? & ? & _).
  - by rewrite H6.
  - by apply range_b_ok.
  - intros Ht. by rewrite H6 in Ht.
Qed.
Lemma debug_b_ok i : debug_b i = true -> debug_readable ir i.
Proof.
  unfold debug_b. cbv zeta. rewrite !andb_true_iff, !bool_decide_eq_true. intros [[[H1 H2] H3] H4].
  set (ops := take (length (data i) - 1) (data i)) in *. exists (map Plain ops). rewrite H2, H3.
  assert (S : stream_of (ops ++ [DBG_END_SEQUENCE]) (map Plain ops)).
  { revert H4. generalize ops. clear. induction ops as [|o l IH]; intros H; [apply stream_end|]. cbn in H. apply andb_true_iff in H as [Ho Hl].
    apply (stream_op [o]); [by apply of_plain|by apply IH]. }
  destruct (word_b_ok _ _ H1) as [W1 W2]. split_and!; try done.
  - apply Forall_map. by apply Forall_true.
  - unfold debug_refs. cbn. generalize ops. clear. induction ops as [|o l IH]; [done|exact IH].
Qed.
Lemma ascends_b_ok {A} (f : A -> Z) l : ascends_b (map f l) = true -> StronglySorted (fun a b => f a < f b) l.
Proof.
  induction l as [|a l IH]; [constructor|]. cbn. rewrite andb_true_iff. intros [H1 H2]. constructor; [by apply IH|].
  rewrite <- (Forall_map f (fun x => f a < x)). eapply forallb_Forall; [|exact H1]. intros b Hb. cbn in Hb. lia.
Qed.
Lemma class_b_ok c : class_b c = true -> class_readable ir c.
Proof.
  unfold class_b, fields_b, methods_b. rewrite !andb_true_iff, !bool_decide_eq_true.
  intros [[[[[[[[[[[H1 H2] H3] H4] H5] H6] H7] [H8 A8]] [H9 A9]] [H10 A10]] [H11 A11]] H12].
  unfold class_readable. rewrite H6, H7.
  assert (M : forall m, node_b MethodItem (m_decl m) && range_b (m_code m) (codes (data_ ir)) = true ->
    node_in ir MethodItem (m_decl m) /\ in_range (m_code m) (codes (data_ ir))).
  { intros m [Hm1 Hm2]%andb_true_iff. split; [by apply node_b_ok|by apply range_b_ok]. }
  assert (Fs : forall l, forallb (fun f => node_b FieldItem (f_decl f)) l = true ->
    ascends_b (map (fun f => index ir FieldItem (f_decl f)) l) = true -> fields_readable ir l).
  { intros l Hl Ha. split; [eapply forallb_Forall; [|exact Hl]; intros f; apply node_b_ok|by apply ascends_b_ok]. }
  assert (Ms : forall l, forallb (fun m => node_b MethodItem (m_decl m) && range_b (m_code m) (codes (data_ ir))) l = true ->
    ascends_b (map (fun m => index ir MethodItem (m_decl m)) l) = true -> methods_readable ir l).
  { intros l Hl Ha. split; [eapply forallb_Forall; [|exact Hl]; apply M|by apply ascends_b_ok]. }
  split; [by apply node_b_ok|]. split; [by apply word_b_ok|]. split; [by apply opt_node_b_ok|]. split; [by apply range_b_ok|].
  split; [by apply opt_node_b_ok|]. do 2 (split; [done|]). split; [by apply Fs|]. split; [by apply Fs|]. split; [by apply Ms|].
  split; [by apply Ms|]. by apply Z.ltb_lt.
Qed.
Lemma readable_b_ok : readable_b = true -> readable ir.
Proof.
  unfold readable_b. rewrite !andb_true_iff, Nat.eqb_eq. intros [[[[[[[[[[[[[H1 H2] S1] S2] S3] S4] H3] H4] H5] H6] H7] H8] H9] H10].
  apply bool_decide_eq_true in S2, S3.
  assert (N : encoded_arrays (data_ ir) = [] /\ annotations (data_ ir) = [] /\ annotation_sets (data_ ir) = [] /\
    annotation_set_ref_lists (data_ ir) = [] /\ annotations_directories (data_ ir) = []) by (split_and!; apply nil_length_inv; lia).
  destruct N as (N1 & N2 & N3 & N4 & N5). split; rewrite ?N1, ?N2, ?N3, ?N4, ?N5; try done; try lia.
  - eapply forallb_Forall; [|exact H3]. intros a. apply string_data_b_ok.
  - eapply forallb_Forall; [|exact H4]. intros p [Hp1 Hp2]%andb_true_iff. split; [by apply node_b_ok|by apply range_b_ok].
  - eapply forallb_Forall; [|exact H5]. intros l Hl. eapply forallb_Forall; [|exact Hl]. intros t. apply node_b_ok.
  - eapply forallb_Forall; [|exact H7]. intros x. apply debug_b_ok.
  - eapply forallb_Forall; [|exact H8]. intros x. apply code_b_ok.
  - eapply forallb_Forall; [|exact H9]. intros x. apply class_b_ok.
  - by apply bool_decide_eq_true in H10.
Qed.
End Check.
