(* ===== verification/BuildDexClaims.v ===== *)
(** The promises of the class built for a hook. *)
From stdpp Require Import strings.
From Stdlib Require Import Ascii String.
From S2P Require Import Prelude SlicerBuffer DexBytecode DexCode DexIr DexIrSpec DexNormalize DexBuilder MethodBuilder BuildDex.
From S2P Require Import DexBuilderSpec DalvikSem MethodBuilderSpec HookFileSpec HookStubSpec BuilderIrSpec.

(** The code of a method of the file. *)
Definition code_of (d : DexBuilder) (m : EncodedMethod) : option Code := k ← m_code m; codes (data_ (dex_file_ d)) !! k.

(** C6: [BuildDex] gives the class a method with the name and the prototype asked
    for; a call of it boxes its arguments into an array, calls the callback once,
    on the object of the static field and with that array, and returns the callback's
    result, unboxed, or throws what it throws. The parameters, the receiver's
    included, take at most 254 registers. *)
Theorem hook_stub_calls_callback ndebug nm c cs is_static r ts method_name hooker_class callback_name :
  names_ok nm -> text method_name -> text hooker_class -> hooker_class <> [] -> text callback_name ->
  char_of "V" ∉ cs -> hook_types (c :: cs) is_static = Some (r, ts) -> total_words ts <= 254 ->
  exists b d code,
    BuildDex ndebug nm (c :: cs) is_static method_name hooker_class callback_name newDexBuilder = Some (Some b, d) /\
    code_of d (hook_method b) = Some code /\
    DalvikSem.method_name (dex_file_ d) (m_decl (hook_method b)) =
      {| mr_class := DotToDescriptor (generated_class_name nm); mr_name := hook_name nm method_name;
         mr_params := map descriptor_ ts; mr_return := descriptor_ r |} /\
    forall E hooker args h fuel, env_refs E = original_refs (dex_file_ d) ->
      (forall t, static_field E {| fr_class := DotToDescriptor (generated_class_name nm);
                                   fr_name := generated_field_name nm; fr_type := t |} = Some hooker) ->
      returns_object E (callback_of (FromClassname hooker_class) callback_name) -> Forall2 value_of ts args ->
      (4 * length args + 9 <= fuel)%nat ->
      exists out s, invoke_method E fuel code args h = Some (out, s) /\
        hook_run E r ts (callback_of (FromClassname hooker_class) callback_name) hooker args h = (out, heap s, trace s).
Proof.
  intros Hnm Hmn Hhc Hne Hcn Hv Htypes Hw.
  destruct (hook_types_ok c cs is_static Hv) as (r' & ts' & Htypes' & Hr & Hts). rewrite Htypes in Htypes'. injection Htypes' as <- <-.
  destruct (BuildDex_ok ndebug nm c cs is_static r ts method_name hooker_class callback_name) as (b & d & EB & HF); try done.
  destruct HF as [Hok _ _ _ Hfield Hid _ (hook & backup & us & vs & ls & Hcodes & Hk & _ & Hci & Hus & Hcode & _)].
  exists b, d, hook. split_and!; [done| | |].
  - unfold code_of. rewrite Hk. cbn. by rewrite Hcodes.
  - by rewrite (method_named d Hok _ _ _ _ _ _ Hid).
  - intros E hooker args h fuel HE Hst Hret Hargs Hfuel.
    destruct (ref_field_named d Hok _ _ _ Hfield) as [t Hfr]. rewrite <- HE in Hfr.
    destruct (descriptor_class _ Hne) as [Hdw Hdr].
    pose proof (total_words_length ts) as Hlen. pose proof (Forall2_length _ _ _ Hargs) as Hl.
    destruct (hook_code_runs E d Hok HE r ts (FromClassname hooker_class) (hooker_field_decl b) _ callback_name hooker ls args h
      Hr Hargs Hcode Hdw Hdr Hfr (Hst t) Hret ltac:(lia)) as (out & s & Hrun & Hspec).
    destruct (hook_code_straight d _ _ _ _ _ _ Hcode) as [Hst1 Hst2].
    exists out, s. split; [|exact Hspec].
    apply (invoke_straight E 2 (total_words ts) 2 hook us ls); try done; try lia. by apply arguments_words.
Qed.

(** The callback of object 1 answers every call with the integer 42. *)
Definition demo_env (d : DexBuilder) : env := {|
  env_refs := original_refs (dex_file_ d); static_field := fun _ => Some (Foreign 1); foreign_instance := fun _ _ => false;
  answer := fun _ _ h => (inl (Some (VRef (Boxed (lit "Ljava/lang/Integer;") 42))), h)
|}.
Definition demo_args : list value := [VRef (Foreign 7); VWide 5; VRef Null].
Definition demo_callback : mref := callback_of (FromClassname (lit "Hooker")) (lit "callback").

(** [int f(long, String)]: the array has the receiver, a [Long] and null. *)
Lemma hook_stub_calls_callback_witness : exists b d code s,
  BuildDex false default_names (lit "IJL") false (lit "f") (lit "Hooker") (lit "callback") newDexBuilder = Some (Some b, d) /\
  code_of d (hook_method b) = Some code /\
  invoke_method (demo_env d) 40 code demo_args [] = Some (Returned (Some (VWord 42)), s) /\
  trace s = [(demo_callback, [VRef (Foreign 1); VRef (Array 0)], [[Foreign 7; Boxed (lit "Ljava/lang/Long;") 5; Null]])].
Proof.
  destruct (hook_stub_calls_callback false default_names (char_of "I") (lit "JL") false TypeDescriptor_Int
    [TypeDescriptor_Object; TypeDescriptor_Long; TypeDescriptor_Object] (lit "f") (lit "Hooker") (lit "callback"))
    as (b & d & code & EB & Hc & _ & Hrun);
    [apply names_ok_default|by apply text_lit|by apply text_lit|discriminate|by apply text_lit| |by vm_compute|by vm_compute|].
  - by apply (bool_decide_unpack _).
  - destruct (Hrun (demo_env d) (Foreign 1) demo_args [] 40%nat) as (out & s & Hi & Hs); [done|done| | |vm_compute; lia|].
    + intros vs h v h' [= <- <-]. by eexists.
    + by repeat constructor.
    + assert (Ho : out = Returned (Some (VWord 42))) by exact (eq_sym (f_equal (fun x => x.1.1) Hs)).
      exists b, d, code, s. split_and!; [exact EB|exact Hc|by rewrite <- Ho|exact (eq_sym (f_equal snd Hs))].
Defined.

(** C10: The backup of a hooked method takes the same arguments and, until its code
    is replaced, returns zero, null or nothing and makes no call. *)
Theorem backup_stub_returns_zero ndebug nm c cs is_static r ts method_name hooker_class callback_name :
  names_ok nm -> text method_name -> text hooker_class -> text callback_name ->
  char_of "V" ∉ cs -> hook_types (c :: cs) is_static = Some (r, ts) -> total_words ts <= 254 ->
  exists b d code,
    BuildDex ndebug nm (c :: cs) is_static method_name hooker_class callback_name newDexBuilder = Some (Some b, d) /\
    code_of d (backup_method b) = Some code /\
    DalvikSem.method_name (dex_file_ d) (m_decl (backup_method b)) =
      {| mr_class := DotToDescriptor (generated_class_name nm); mr_name := lit "backup";
         mr_params := map descriptor_ ts; mr_return := descriptor_ r |} /\
    forall E args h fuel, Forall2 value_of ts args -> (2 <= fuel)%nat ->
      exists s, heap s = h /\ trace s = [] /\ invoke_method E fuel code args h =
        Some (Returned (if same_type r TypeDescriptor_Void then None else
          Some (if wide_ r then VWide 0 else if is_primitive r then VWord 0 else VRef Null)), s).
Proof.
  intros Hnm Hmn Hhc Hcn Hv Htypes Hw.
  destruct (hook_types_ok c cs is_static Hv) as (r' & ts' & Htypes' & Hr & Hts). rewrite Htypes in Htypes'. injection Htypes' as <- <-.
  destruct (BuildDex_ok ndebug nm c cs is_static r ts method_name hooker_class callback_name) as (b & d & EB & HF); try done.
  destruct HF as [Hok _ _ _ _ _ Hid (hook & backup & us & vs & ls & Hcodes & _ & Hk & _ & _ & _ & Hci & Hvs)].
  exists b, d, backup. split_and!; [done| | |].
  - unfold code_of. rewrite Hk. cbn. by rewrite Hcodes.
  - by rewrite (method_named d Hok _ _ _ _ _ _ Hid).
  - intros E args h fuel Hargs Hfuel. pose proof (total_words_length ts) as Hlen.
    destruct (exec_backup E r (concat (map regs_of args)) h) as (s & Hrun & Hheap & Htrace).
    exists s. split_and!; [done|done|].
    destruct (backup_code_straight r) as (Hst & Hlb & Hn).
    apply (invoke_straight E (backup_locals r) (total_words ts) 0 backup vs (backup_code r)); try done; try lia.
    by apply arguments_words.
Qed.

(** [double f(int)]: its backup returns [0.0]. *)
Lemma backup_stub_returns_zero_witness : exists b d code s,
  BuildDex false default_names (lit "DI") true (lit "f") (lit "Hooker") (lit "callback") newDexBuilder = Some (Some b, d) /\
  code_of d (backup_method b) = Some code /\
  invoke_method (demo_env d) 2 code [VWord 3] [] = Some (Returned (Some (VWide 0)), s) /\ trace s = [].
Proof.
  destruct (backup_stub_returns_zero false default_names (char_of "D") (lit "I") true TypeDescriptor_Double
    [TypeDescriptor_Int] (lit "f") (lit "Hooker") (lit "callback")) as (b & d & code & EB & Hc & _ & Hrun);
    [apply names_ok_default|by apply text_lit|by apply text_lit|by apply text_lit| |by vm_compute|by vm_compute|].
  - by apply (bool_decide_unpack _).
  - destruct (Hrun (demo_env d) [VWord 3] [] 2%nat) as (s & _ & Ht & Hi); [by repeat constructor|lia|].
    exists b, d, code, s. split_and!; [exact EB|exact Hc|exact Hi|exact Ht].
Defined.

(** C22: The hook and its backup are the same method of the file exactly if the hook is
    named like the backup; with the default names it is when the target is. *)
Theorem backup_name_collides ndebug nm c cs is_static r ts method_name hooker_class callback_name :
  names_ok nm -> text method_name -> text hooker_class -> text callback_name ->
  char_of "V" ∉ cs -> hook_types (c :: cs) is_static = Some (r, ts) -> total_words ts <= 254 ->
  exists b d,
    BuildDex ndebug nm (c :: cs) is_static method_name hooker_class callback_name newDexBuilder = Some (Some b, d) /\
    direct_methods (class_at d 0) = [hook_method b; backup_method b] /\
    (m_decl (hook_method b) = m_decl (backup_method b) <-> hook_name nm method_name = lit "backup").
Proof.
  intros Hnm Hmn Hhc Hcn Hv Htypes Hw.
  destruct (hook_types_ok c cs is_static Hv) as (r' & ts' & Htypes' & Hr & Hts). rewrite Htypes in Htypes'. injection Htypes' as <- <-.
  destruct (BuildDex_ok ndebug nm c cs is_static r ts method_name hooker_class callback_name) as (b & d & EB & HF); try done.
  pose proof (hook_decls_differ _ _ _ _ _ _ _ _ HF) as Hdiff.
  destruct HF as [Hok _ _ (t & s & src & Hc & _) _ Hid Hid' _]. exists b, d. split_and!; [done|by rewrite (class_at_only _ _ _ Hc)|]. split.
  - intros He. destruct (decide (hook_name nm method_name = lit "backup")) as [H|H]; [done|by destruct (Hdiff H)].
  - intros Hn. rewrite Hn in Hid. rewrite Hid in Hid'. congruence.
Qed.

Lemma backup_name_collides_witness : exists b d,
  BuildDex false default_names (lit "V") false (lit "backup") (lit "Hooker") (lit "callback") newDexBuilder = Some (Some b, d) /\
  m_decl (hook_method b) = m_decl (backup_method b).
Proof.
  destruct (backup_name_collides false default_names (char_of "V") [] false TypeDescriptor_Void [TypeDescriptor_Object]
    (lit "backup") (lit "Hooker") (lit "callback")) as (b & d & EB & _ & Hn);
    [apply names_ok_default|by apply text_lit|by apply text_lit|by apply text_lit| |by vm_compute|by vm_compute|].
  - by apply not_elem_of_nil.
  - exists b, d. split; [done|]. by apply Hn.
Defined.

(** C21: The builder declares a method once: the id it returns names the class, the
    method and the prototype asked for in the file, asking again returns the same
    id, and every id returned before keeps its meaning. *)
Theorem declared_method_is_named ndebug type name p d : builder_ok d -> text (descriptor_ type) -> text name -> proto_text p ->
  exists id d', GetOrDeclareMethod ndebug type name p d = Some ((id, id), d') /\ builder_ok d' /\
    DalvikSem.method_name (dex_file_ d') id =
      {| mr_class := descriptor_ type; mr_name := name; mr_params := map descriptor_ (param_types_ p);
         mr_return := descriptor_ (return_type_ p) |} /\
    GetOrDeclareMethod ndebug type name p d' = Some ((id, id), d') /\
    forall c s r ps i j, method_id_map_ d !! (c, s, (r, ps)) = Some (i, j) ->
      DalvikSem.method_name (dex_file_ d') i = {| mr_class := c; mr_name := s; mr_params := ps; mr_return := r |}.
Proof.
  intros Hok Ht Hn Hp. destruct (GetOrDeclareMethod_ok ndebug type name p d Hok Ht Hn Hp) as ([id id'] & d' & E & Hok' & G & Eid & Hid).
  cbn in Eid. subst id'. exists id, d'. split_and!; try done.
  - by apply (method_named d' Hok' _ _ _ _ id id).
  - unfold GetOrDeclareMethod. rewrite run_get. by rewrite Hid.
  - intros c s r ps i j H. apply (method_named d' Hok' _ _ _ _ i j). by eapply grows_method.
Qed.

Lemma declared_method_is_named_witness : exists id d',
  GetOrDeclareMethod true (FromClassname (lit "A")) (lit "f") (prototype_of TypeDescriptor_Int [TypeDescriptor_Long]) newDexBuilder = Some ((id, id), d') /\
  DalvikSem.method_name (dex_file_ d') id =
    {| mr_class := lit "LA;"; mr_name := lit "f"; mr_params := [lit "J"]; mr_return := lit "I" |}.
Proof.
  destruct (declared_method_is_named true (FromClassname (lit "A")) (lit "f") (prototype_of TypeDescriptor_Int [TypeDescriptor_Long]) newDexBuilder)
    as (id & d' & E & _ & N & _);
    [apply builder_ok_new|by apply text_lit|by apply text_lit|split_and!; [by apply text_lit|by apply text_lit|apply Forall_cons_2; [by apply text_lit|by apply Forall_nil_2]]|].
  exists id, d'. split; [exact E|exact N].
Defined.

(** C23: A hook stores parameter [j] from register [j + 2] taken modulo 256: with 255
    words of parameters, which the dex format allows, the last one is taken from
    register 0, the scratch register, instead of 256. *)
Theorem stored_register_wraps ndebug j m : 0 <= j < 2 ^ 64 - 2 -> NumRegisters m = 2 -> 0 <= max_args_ m ->
  exists us, insns us [DAputObject (u8 (j + 2)) 1 0] /\
    EncodeInstruction ndebug (OpWithArgs kAputObject (Some (Parameter_ j)) [Local_ 1; Local_ 0]) m =
      Some (tt, with_buffer (buffer_ m ++ us) m).
Proof.
  intros Hj Hn Hm. destruct (encodes_aput_wraps ndebug 2 j ltac:(lia) ltac:(lia) ltac:(lia) m Hn Hm) as (us & Hus & E).
  exists us. split; [done|]. rewrite E, Z.max_l by done. by destruct m.
Qed.

Lemma stored_register_wraps_witness :
  let m := with_registers [true; true] (newMethodBuilder 0 0) in
  exists us, insns us [DAputObject 0 1 0] /\
    EncodeInstruction false (OpWithArgs kAputObject (Some (Parameter_ 254)) [Local_ 1; Local_ 0]) m =
      Some (tt, with_buffer us m).
Proof.
  intros m. destruct (stored_register_wraps false 254 m) as (us & Hus & E); [lia|done|done|]. exists us. split; [exact Hus|exact E].
Defined.

(** C15: The writer can order the file of a hook: unless the hook is named like its
    backup, every table is free of duplicates, the class is ahead of none it needs,
    and [Normalize] succeeds with the tables sorted as the dex format demands. *)
Theorem built_file_normalizes ndebug nm c cs is_static r ts method_name hooker_class callback_name :
  names_ok nm -> text method_name -> text hooker_class -> text callback_name ->
  char_of "V" ∉ cs -> hook_types (c :: cs) is_static = Some (r, ts) -> total_words ts <= 254 ->
  hook_name nm method_name <> lit "backup" ->
  DotToDescriptor (generated_class_name nm) <> descriptor_ TypeDescriptor_Object ->
  exists b d ir,
    BuildDex ndebug nm (c :: cs) is_static method_name hooker_class callback_name newDexBuilder = Some (Some b, d) /\
    Normalize ndebug (dex_file_ d) = Some ir /\ normalized (dex_file_ d) ir.
Proof.
  intros Hnm Hmn Hhc Hcn Hv Htypes Hw Hname Hclass.
  destruct (hook_types_ok c cs is_static Hv) as (r' & ts' & Htypes' & Hr & Hts). rewrite Htypes in Htypes'. injection Htypes' as <- <-.
  destruct (BuildDex_ok ndebug nm c cs is_static r ts method_name hooker_class callback_name) as (b & d & EB & HF); try done.
  pose proof (total_words_length ts) as Hlen. pose proof (hf_size _ _ _ _ _ _ _ _ HF) as Hsz.
  destruct (normalize_ok ndebug (dex_file_ d)) as (ir & E & N); [|by eapply hook_hierarchy_ok| |by exists b, d, ir].
  - apply builder_ir_ok; [apply HF|lia].
  - eapply hook_members_ok; [exact HF|]. eapply hook_decls_differ; [exact HF|done].
Qed.

Lemma built_file_normalizes_witness : exists b d ir,
  BuildDex false default_names (lit "DI") true (lit "f") (lit "Hooker") (lit "callback") newDexBuilder = Some (Some b, d) /\
  Normalize false (dex_file_ d) = Some ir.
Proof.
  destruct (built_file_normalizes false default_names (char_of "D") (lit "I") true TypeDescriptor_Double
    [TypeDescriptor_Int] (lit "f") (lit "Hooker") (lit "callback")) as (b & d & ir & EB & EN & _);
    [apply names_ok_default|by apply text_lit|by apply text_lit|by apply text_lit| |by vm_compute|by vm_compute|discriminate|discriminate|].
  - by apply (bool_decide_unpack _).
  - exists b, d, ir. split; [exact EB|exact EN].
Defined.
