(* ===== verification/DexImageClaims.v ===== *)
(** Properties of the images that the dex library writes. *)
From stdpp Require Import strings.
From Stdlib Require Import Ascii String Sorted.
From S2P Require Import Prelude Leb128 SlicerBuffer DexBytecode DexCode DexValue DexOrder DexIr DexIrSpec DexNormalize DexBuilder DexBuilderSpec BuildDex.
From S2P Require Import HookFileSpec BuilderIrSpec Sha1 DexWriter DexReader DexReaderSpec DexWriterSpec DexImage DexImageSpec DexReadBack.

(** C11: an image that [CreateImage] returns, below 4 GB, is the header, the six
    tables and the eleven sections, one right behind the other and nothing else; the
    header has the magic number and where each table, the map and the data are; the
    checksum covers everything behind it and the digest everything behind itself; and
    the map has an entry for each part that is not empty, in the order of their
    offsets. *)
Theorem image_is_laid_out ndebug adler32 Allocate fresh checksum f ir d size im img w :
  Normalize ndebug f = Some ir -> create_all ndebug ir (new_image (fun _ => ∅)) = Some ((d, size), im) -> fits ir im ->
  length (magic ir) = 8%nat -> CreateImage ndebug adler32 Allocate fresh checksum (newWriter f) = Some (Some img, w) ->
  size = sizeof_Header + bytes_in (data_blocks im) /\ consecutive sizeof_Header (data_blocks im) /\
  image_of adler32 fresh checksum ir im d img /\
  placed ir 4 img (h_map_off (header_of im d))
    (u4_bytes (Z.of_nat (length (map_list_of im))) ++ concat (map map_item_bytes (map_list_of im))) /\
  map_list_of im ≡ₚ map_entries im /\ StronglySorted (fun a b => mp_offset a <= mp_offset b) (map_list_of im).
Proof.
  intros En Ec Hfit Hm H.
  destruct (CreateImage_image ndebug adler32 Allocate fresh checksum f ir d size im img w En Ec Hfit Hm H) as (Himg & Hcons & Hd & Hs).
  destruct (create_all_ok ndebug ir d size im Ec) as (Hch & _ & Hi & Hh & _ & _). destruct (map_sorted im) as [Hp Hsort].
  split_and!; [exact Hs|exact Hcons|exact Himg| |exact Hp|exact Hsort].
  exact (map_placed ndebug adler32 fresh checksum ir im d size img Himg Hfit Hcons Hch Hi Hd Hh).
Qed.

(** Adler-32, as zlib documents it. *)
Definition demo_adler32 (adler : Z) (data : option (list byte)) : Z :=
  match data with
  | None => 1
  | Some l =>
      let '(a, b) := foldl (fun '(a, b) c => let a := (a + c) mod 65521 in (a, (b + a) mod 65521)) (adler mod 65536, adler / 65536) l in
      b * 65536 + a
  end.
(** The file built for a hook of [int f(long, String)]. *)
Definition demo_file : DexFile :=
  match BuildDex false default_names (lit "IJL") false (lit "f") (lit "Hooker") (lit "callback") newDexBuilder with
  | Some (Some _, d) => dex_file_ d
  | _ => dex_file_ newDexBuilder
  end.
(** A small enough image. *)
Definition fits_b (ir : DexFile) (im : Image) : bool :=
  (image_length im <? 2 ^ 32) && forallb (fun s => Z.of_nat (most_items ir s) <? 2 ^ 32) layout_order.
Definition demo_ok : bool :=
  match Normalize false demo_file with
  | Some ir => match create_all false ir (new_image (fun _ => ∅)) with
      | Some (_, im) => fits_b ir im && (length (magic ir) =? 8)%nat && negb (IsCompact (magic ir)) && readable_b ir
      | None => false
      end
  | None => false
  end.

Lemma fits_b_ok ir im : fits_b ir im = true -> fits ir im.
Proof.
  unfold fits_b. intros [H1 H2]%andb_prop. constructor; [lia|]. intros s. rewrite forallb_forall in H2.
  apply Z.ltb_lt, H2. destruct s; cbn; tauto.
Qed.
Lemma demo_premises : exists ir d size im, Normalize false demo_file = Some ir /\
  create_all false ir (new_image (fun _ => ∅)) = Some ((d, size), im) /\ fits ir im /\ length (magic ir) = 8%nat /\
  IsCompact (magic ir) = false /\ readable ir.
Proof.
  assert (H : demo_ok = true) by (vm_compute; reflexivity). unfold demo_ok in H.
  destruct (Normalize false demo_file) as [ir|] eqn:E1; [|discriminate].
  destruct (create_all false ir _) as [[[d size] im]|] eqn:E2; [|discriminate]. apply andb_prop in H as [[[H1 H2]%andb_prop H3]%andb_prop H4].
  exists ir, d, size, im.
  split_and!; [reflexivity|exact E2|by apply fits_b_ok|by apply Nat.eqb_eq|by apply negb_true_iff|by apply readable_b_ok].
Qed.
Lemma demo_image : exists img w,
  CreateImage false demo_adler32 (fun _ => true) (repeat 0 64) true (newWriter demo_file) = Some (Some img, w).
Proof.
  assert (H : match CreateImage false demo_adler32 (fun _ => true) (repeat 0 64) true (newWriter demo_file) with
    Some (Some _, _) => true | _ => false end = true) by (vm_compute; reflexivity).
  destruct (CreateImage _ _ _ _ _ _) as [[[img|] w]|]; [by exists img, w|discriminate..].
Qed.

Lemma image_is_laid_out_witness : exists ir d size im img,
  size = sizeof_Header + bytes_in (data_blocks im) /\ image_of demo_adler32 (repeat 0 64) true ir im d img.
Proof.
  destruct demo_premises as (ir & d & size & im & En & Ec & Hf & Hm & _). destruct demo_image as (img & w & H).
  exists ir, d, size, im, img.
  destruct (image_is_laid_out false demo_adler32 (fun _ => true) (repeat 0 64) true demo_file ir d size im img w En Ec Hf Hm H)
    as (H1 & _ & H2 & _).
  exact (conj H1 H2).
Defined.

(** C12: that image has the whole file: entry [j] of each table is what the file's
    table has there, with the indexes of what it names and the offsets of what it
    points to; and every string, type list, debug stream, code item, annotation and
    set of the file, every class's members, annotations and static values are at the
    offset the entries have for them, aligned and in the format's encoding. *)
Theorem image_holds_file ndebug adler32 Allocate fresh checksum f ir d size im img w :
  Normalize ndebug f = Some ir -> create_all ndebug ir (new_image (fun _ => ∅)) = Some ((d, size), im) -> fits ir im ->
  length (magic ir) = 8%nat -> CreateImage ndebug adler32 Allocate fresh checksum (newWriter f) = Some (Some img, w) ->
  image_holds ir img (node_offset_ im) ndebug.
Proof.
  intros En Ec Hfit Hm H.
  destruct (CreateImage_image ndebug adler32 Allocate fresh checksum f ir d size im img w En Ec Hfit Hm H) as (Himg & Hcons & Hd & Hs).
  destruct (create_all_ok ndebug ir d size im Ec) as (Hch & _ & Hi & Hh & _ & _).
  exact (tables_hold ndebug adler32 fresh checksum ir im d size img Himg Hfit Hcons Hch Hi Hd Hh).
Qed.

Lemma image_holds_file_witness : exists ir img n, Normalize false demo_file = Some ir /\ image_holds ir img n false.
Proof.
  destruct demo_premises as (ir & d & size & im & En & Ec & Hf & Hm & _). destruct demo_image as (img & w & H).
  exists ir, img, (node_offset_ im).
  exact (conj En (image_holds_file false demo_adler32 (fun _ => true) (repeat 0 64) true demo_file ir d size im img w En Ec Hf Hm H)).
Defined.

(** C14: an image whose tables and items refer to what there is, and in a debug build
    with no two equal strings, no two prototypes of the same signature and no method
    that is a member twice, which [well_formed] computes, is read to the end whatever
    the build and the addresses: no check or assertion fails, those of the hash tables
    included, no read leaves the memory, every class is made, once and in order; and
    in the IR each node is what the image has at its index or offset, is in its table
    once, and refers to nodes. *)
Theorem well_formed_image_is_read ndebug node_hash image size data data_size r s0 :
  newReader ndebug image size data data_size = Some (r, s0) -> well_formed ndebug r = true ->
  exists s, CreateFullIr ndebug r node_hash s0 = Some (tt, s) /\ inv ndebug r s /\ classes (ir_ s) = seqZ 0 (class_count r).
Proof.
  unfold newReader. intros H W. apply bind_Some in H as ([n ds] & _ & H). apply bind_Some in H as (_ & _ & H).
  injection H as <- <-.
  edestruct CreateFullIr_runs as ([] & s & R & I & _ & _ & C); [exact W|apply inv_empty|done|apply defs_empty|apply (keys_empty _ node_hash)|]. by exists s.
Qed.

(** An address times an odd number. *)
Definition demo_hash (k : item) (i : Z) : Z := (64 * i + match k with StringItem => 0 | ProtoItem => 16 | _ => 32 end) * 0x9E3779B1.
Lemma demo_reader : exists img r s0, newReader false img 0 None 0 = Some (r, s0) /\ well_formed false r = true.
Proof.
  assert (H : match CreateImage false demo_adler32 (fun _ => true) (repeat 0 64) true (newWriter demo_file) with
    Some (Some img, _) => match newReader false img 0 None 0 with Some (r, _) => well_formed false r | None => false end
    | _ => false end = true) by (vm_compute; reflexivity).
  destruct (CreateImage _ _ _ _ _ _) as [[[img|] w]|]; [|discriminate..]. exists img.
  destruct (newReader false img 0 None 0) as [[r s0]|]; [by exists r, s0|discriminate].
Qed.
Lemma well_formed_image_is_read_witness : exists r s0 s, well_formed false r = true /\ CreateFullIr false r demo_hash s0 = Some (tt, s) /\ inv false r s.
Proof.
  destruct demo_reader as (img & r & s0 & E & H).
  destruct (well_formed_image_is_read false demo_hash img 0 None 0 r s0 E H) as (s & R & I & _). exists r, s0, s. exact (conj H (conj R I)).
Defined.

(** C13: what [CreateImage] writes, the reader reads. The image of a file that
    [readable] describes (counts and offsets in their widths, members in ascending order
    and none twice, no two prototypes of the same signature) passes the checks of a new
    reader and is well-formed, so that no check of [CreateFullIr] and no assertion of its
    lookup tables fails, in either build; and [CreateFullIr] makes the file again, with
    the indexes that [Normalize] gave for names: the strings, types, prototypes, fields
    and methods that the classes refer to, and every class with its members, code,
    handlers, debug information, annotations and static values. *)
Theorem written_image_reads_back ndebug node_hash adler32 Allocate fresh checksum f ir d size im img w :
  ir_ok f -> Normalize ndebug f = Some ir -> readable ir -> create_all ndebug ir (new_image (fun _ => ∅)) = Some ((d, size), im) ->
  fits ir im -> length (magic ir) = 8%nat -> IsCompact (magic ir) = false ->
  CreateImage ndebug adler32 Allocate fresh checksum (newWriter f) = Some (Some img, w) ->
  exists r s0 s, newReader ndebug img 0 None 0 = Some (r, s0) /\ well_formed ndebug r = true /\
    CreateFullIr ndebug r node_hash s0 = Some (tt, s) /\ same_file ir s.
Proof.
  intros Hok En R Ec Hfit Hm Hcdex H.
  destruct (CreateImage_image ndebug adler32 Allocate fresh checksum f ir d size im img w En Ec Hfit Hm H) as (Himg & Hcons & Hd & Hs).
  destruct (create_all_ok ndebug ir d size im Ec) as (Hch & _ & Hi & Hh & _ & _).
  pose proof (tables_hold ndebug adler32 fresh checksum ir im d size img Himg Hfit Hcons Hch Hi Hd Hh) as Ht.
  pose proof (map_placed ndebug adler32 fresh checksum ir im d size img Himg Hfit Hcons Hch Hi Hd Hh) as Hmap.
  destruct (normalize_tables ndebug f ir Hok En) as (Hok' & Hord & Hix). unfold IsCompact in Hcdex. apply bool_decide_eq_false_1 in Hcdex.
  exists (written_reader img).
  edestruct (read_back ndebug) with (node_hash := node_hash) as (s0 & s & Hr & Hc & _ & Hf); [exact Himg|exact Hfit|exact Hcons|exact Hch|exact Hi|exact Hd|exact Ht|exact R|
    exact Hok'|exact Hord|exact Hix|exact Hmap|exact Hm|exact Hcdex|].
  exists s0, s. split; [exact Hr|]. split; [|by split].
  eapply written_well_formed; eassumption.
Qed.

Lemma hook_file_ok : ir_ok demo_file.
Proof.
  destruct (hook_types_ok (char_of "I") (lit "JL") false) as (r & ts & Ht & Hr & Hts); [by apply (bool_decide_unpack _)|].
  assert (E : hook_types (lit "IJL") false = Some (TypeDescriptor_Int, [TypeDescriptor_Object; TypeDescriptor_Long; TypeDescriptor_Object]))
    by (vm_compute; reflexivity).
  change (lit "IJL") with (char_of "I" :: lit "JL") in E. rewrite E in Ht. injection Ht as <- <-.
  destruct (BuildDex_ok false default_names (char_of "I") (lit "JL") false _ _ (lit "f") (lit "Hooker") (lit "callback")
    names_ok_default (text_lit (lit "f") eq_refl) (text_lit (lit "Hooker") eq_refl) (text_lit (lit "callback") eq_refl) E Hr Hts) as (b & d & EB & HF); [vm_compute; discriminate|].
  unfold demo_file. change (lit "IJL") with (char_of "I" :: lit "JL"). rewrite EB. apply builder_ir_ok; [apply HF|].
  pose proof (hf_size _ _ _ _ _ _ _ _ HF) as Hs. cbn [length] in Hs. clear -Hs. lia.
Qed.
Lemma written_image_reads_back_witness : exists ir img r s0 s, newReader false img 0 None 0 = Some (r, s0) /\
  CreateFullIr false r demo_hash s0 = Some (tt, s) /\ same_file ir s.
Proof.
  destruct demo_premises as (ir & d & size & im & En & Ec & Hf & Hm & Hc & R). destruct demo_image as (img & w & H).
  destruct (written_image_reads_back false demo_hash demo_adler32 (fun _ => true) (repeat 0 64) true demo_file ir d size im img w hook_file_ok En R Ec Hf Hm Hc H)
    as (r & s0 & s & H1 & _ & H2 & H3).
  exists ir, img, r, s0, s. exact (conj H1 (conj H2 H3)).
Defined.

(** C17: the digest is SHA-1 as FIPS 180-4 defines it, whatever the uninitialised
    buffer of the context holds: the rounds in place on sixteen words and with rotating
    variables are the standard's message schedule and compression function, and the
    buffering and padding byte by byte are the standard's padded message. *)
Theorem digest_is_sha1 fresh data : length fresh = 64%nat -> Forall is_byte data -> Z.of_nat (length data) < 2 ^ 32 - 64 ->
  sha1 fresh data = Some (SHA1_standard data).
Proof. apply sha1_standard. Qed.

Lemma digest_is_sha1_witness : sha1 (repeat 0x55 64) [97; 98; 99] = Some (SHA1_standard [97; 98; 99]) /\
  SHA1_standard [97; 98; 99] = [0xA9; 0x99; 0x3E; 0x36; 0x47; 0x06; 0x81; 0x6A; 0xBA; 0x3E; 0x25; 0x71; 0x78; 0x50; 0xC2; 0x6C; 0x9C; 0xD0; 0xD8; 0x9D].
Proof.
  split; [|vm_compute; reflexivity]. apply (digest_is_sha1 (repeat 0x55 64) [97; 98; 99]); [reflexivity| |reflexivity].
  repeat constructor; discriminate.
Defined.
